(* ===== verification/_CoqProject ===== *)
-Q . S2P
Prelude.v
CFloat.v
VectorType.v
PairingHeap.v
GraphSearch.v
ItemPtr.v
Hash.v
SimpleHash.v
SimpleHashSpec.v
HnswData.v
BufPage.v
Backend.v
GenericXLog.v
XLogRecord.v
HnswUtils.v
SearchLayer.v
LayerRefinement.v
PageUpdate.v
MetaPage.v
DiskGraph.v
Tuples.v
LWLock.v
LWLockQueue.v
LWLockQueueSpec.v
LWLockServed.v
QSort.v
SelectNeighbors.v
UpdateConnection.v
FindNeighbors.v
HnswInsert.v
InsertSpec.v
AddElement.v
IndexWf.v
InsertSearch.v
InsertOnDisk.v
HnswVacuum.v
VacuumSpec.v
MarkSpec.v
RepairSpec.v
RepairPages.v
VacuumHistory.v
HnswScan.v
ScanSpec.v
HnswBuild.v
BuildPages.v
BuildMemory.v
BuildSpec.v
IndexHistory.v
ParallelBuild.v
ParallelInv.v
ParallelSpec.v
ParallelResult.v
HnswAm.v
