(* ===== verification/Prelude.v ===== *)
(** * The HNSW vector index of the PostgreSQL tree

    The tree under src/pgvec is a PostgreSQL server with a [vector] type and an
    access method [hnsw] built into it.  This library models that type and that
    access method and proves what makes them correct.  (src/example holds a
    second copy of the same server; the copy in src/pgvec is the one modelled.)

    ** The program

    An HNSW index is a graph of several layers.  Every indexed vector is an
    element with a level; it has neighbors in all layers up to its level.
    A search descends greedily from the entry point, an element of the highest
    level, and ends with a best-first search of the ground layer.  The index is
    built in memory (hnswbuild.c) and written to pages, or completed on the pages
    when memory runs out; later rows are inserted on the pages (hnswinsert.c);
    scans read the pages (hnswscan.c); vacuum removes dead heap TIDs and repairs
    the graph (hnswvacuum.c).  All of them use hnswutils.c: the layer search
    (algorithm 2 of the HNSW paper), the choice of neighbors (algorithms 1 and 4),
    the tuples, the metapage.  Below are the page layer (bufpage.c), the generic
    write-ahead log (generic_xlog.c), item pointers, a pairing heap and the vector
    type (vector.c).

    ** The files

    Machine and data:
    - Prelude.v: errors, the result and the state monad, integers of C widths,
      loops, automation and lemmas on lists.
    - CFloat.v: [float] and [double] as the executable IEEE 754 numbers of the
      Standard Library, and the order of their comparisons.
    - VectorType.v: utils/adt/vector.c, with the parts of pqformat.c and datum.c
      it calls.
    - PairingHeap.v: lib/pairingheap.c.
    - ItemPtr.v: block.h, off.h, itemptr.h, itemptr.c, relptr.h (all of their
      operations; [ItemPointerInc] and [ItemPointerDec] step the order of
      [ItemPointerCompare] and stay at its ends).
    - Hash.v: the hash functions of hnswutils.c and murmurhash64 of hashfn.h.
    - SimpleHash.v: lib/simplehash.h, the hash tables of the visited sets;
      SimpleHashSpec.v: they are finite sets, which is what the other files use.
      The searches in memory pass the hash that is stored in an element: it must be
      that of the key (SearchLayer.v), which the build maintains (BuildMemory.v).
    - QSort.v: list_sort of nodes/list.c and the quicksort under it
      (lib/sort_template.h, port/qsort.c); the class [ListSort] is what the other files
      use of it.
    - LWLock.v: storage/lmgr/lwlock.c, the word of a lock and the locks a process holds;
      LWLockQueue.v: the queue of the waiting processes, with wakeups and semaphores, as
      a machine.
    - HnswData.v: access/hnsw.h, the structures in memory and on pages.
    - BufPage.v: bufpage.h, itemid.h, bufpage.c.
    - Backend.v: the state [Backend] (elements in memory, the index relation, a
      record of generic_xlog.c under construction) and its operations; MetaPage.v
      and PageUpdate.v: what an update of a page does, through the log or directly.
    - GenericXLog.v: the bytes of a page under the log: the deltas of generic_xlog.c
      between its old and its new image and their replay.
    - XLogRecord.v: log records with deltas or full page images (XLogRecordAssemble of
      xloginsert.c) and recovery (generic_redo, XLogReadBufferForRedo of xlogutils.c,
      RestoreBlockImage of xlogreader.c).

    The access method, function by function as the C files have it:
    - HnswUtils.v, SearchLayer.v, SelectNeighbors.v, FindNeighbors.v: hnswutils.c.
    - HnswInsert.v: hnswinsert.c.  HnswScan.v: hnswscan.c.  HnswVacuum.v:
      hnswvacuum.c.  HnswBuild.v: hnswbuild.c.  HnswAm.v: hnsw.c.
    - ParallelBuild.v: the parts of hnswbuild.c that run in several processes, as a
      machine whose step is one access of one process to shared memory.

    Specifications and their proofs:
    - GraphSearch.v: best-first search of an abstract graph: what its result
      promises ([search_result]) and that it ends.
    - LayerRefinement.v: [HnswSearchLayer] computes that search.  The proof is
      done once against the class [LayerView], the interface between the search
      and where the elements are; the elements in memory and the tuples on the
      pages are its two instances.
    - Tuples.v, UpdateConnection.v, InsertSpec.v, AddElement.v, VacuumSpec.v,
      MarkSpec.v: what the single operations do to tuples and pages.
    - DiskGraph.v, ScanSpec.v: the layered graph a scan searches, the invariant of
      a scan between two calls, what a whole scan returns.
    - IndexWf.v: [index_wf], the well-formed index: chain of pages, tuples of every
      element, neighbors within layers, entry point of the highest level.
      InsertSearch.v, InsertOnDisk.v: an insertion keeps it.
    - BuildPages.v: [FlushPages] writes a complete graph to pages as a well-formed
      index.  BuildMemory.v: the graph in memory stays complete under
      [InsertTupleInMemory].  BuildSpec.v: the whole build.
    - RepairSpec.v, RepairPages.v: the repair of the graph by vacuum, one element
      and then the whole graph: afterwards no element in use has a neighbor without
      heap TIDs.  VacuumHistory.v: the three passes of vacuum keep [index_wf].
    - IndexHistory.v: the operations one after another, from the build of an index
      through insertions and vacuums to scans.
    - LWLockQueueSpec.v, LWLockServed.v: the machine of the queue loses no wakeup, serves
      everyone, and is the lock of LWLock.v, which the parallel build takes.
    - ParallelInv.v: which locks a process of a parallel build holds where, what it knows
      there, and that others do not change it.  ParallelSpec.v: no row is lost,
      someone can always go on, and runs are bounded.  ParallelResult.v: the theorems.

    ** The state and its steps

    Every C function is a function of the same name.  One without effects is
    a function to [res], a value or the error it raises; one with effects is
    in the monad [M Backend].  Loops are structural where the code counts, and
    have fuel where it follows links; a C access that the language leaves
    undefined is the error [UndefinedBehaviour], fuel used up is [OutOfFuel],
    so a theorem that a run is [Ok] excludes both.  A theorem about a loop
    states the fuel that is enough: the number of pages for the loops over the
    chain of pages (links go forward, [index_ok]), the number of elements of
    the layer for a search (each iteration visits a new element), their sum for
    vacuum, which searches while it goes through the pages, the length of the list
    for the loops over lists and for the quicksort.  The parallel build is a step
    relation without fuel, as is the machine of a lock; their runs are
    bounded by a measure.

    Parameters stand for what is not in the sources or is not determined by
    them: the allocator ([Palloc]), the contents of fresh memory ([garbage],
    [uninit]), the sorting function ([ListSort], with the laws of a sort, which QSort.v proves
    of the one in the tree), [log]
    of libm ([Libm]), strtof and the shortest-decimal printer, the random numbers
    and the sizes of memory contexts.  [garbage] and the laws of the parameters
    are universally quantified; witnesses run with concrete ones.

    ** What the theorems show

    - The life of an index: a build of any table and any sequence of insertions and
      vacuums leave a well-formed index of exactly the rows that are left, each TID
      under its value, and scans end and return those TIDs and no others.  The build
      does so whether the graph fits in memory or not; an insertion and a vacuum
      keep the index well formed.
    - Search: it ends without an error, its result is sorted and locally optimal;
      with enough room it is exact.  Scans end, return every element at most
      once, nearest first; iterative scans return all that can be reached, in the
      strict order mode all of it that is not nearer than a row returned before.
    - Updates: adding an element, one slot of a neighbor tuple, a duplicate, the
      metapage, the neighbor array in memory (whatever its cache says).
    - Vacuum: the first pass keeps exactly the live TIDs, the second leaves no
      neighbor and no entry point without heap TIDs, the third marks exactly the
      emptied elements, and readers with old versions find no neighbors.
    - Representation: tuples, item pointers and vectors are read back as written;
      sizes fit on a page; page operations succeed exactly when there is room.
    - Hash tables: a table of simplehash.h answers as a set does, whatever the hash
      function; it grows when it must and no search in it runs forever.
    - Recovery: after a crash, replay of the log of any sequence of updates gives the
      bytes they left, whichever version of each page had reached the disk, and also
      when changed pages are torn if full pages are written.
    - Sorting: list_sort ends, stays in the array and rearranges it whatever the
      comparator answers, and sorts it when the comparator is an order.
    - Lightweight locks: an exclusive holder is alone; every process that wants the lock
      gets it; pending signals of semaphores are given back.
    - Parallel build: in every interleaving no step fails, the locks exclude what they
      must, the build ends, and every row is on the pages once; the graph stays in its
      memory area for the settings that make sense, and for some that are allowed
      it does not.
    - The vector type: checks, distances, order, text and binary I/O, errors.

    ** Not modelled

    Buffer locks, pins and concurrent backends outside the parallel build (an insertion, a
    vacuum and a scan run alone); of the parallel build, the start and the end of its
    processes, the locks of single elements and the neighbor arrays while several
    processes change them; waiting for a lock without
    taking it; memory contexts and the release of memory, progress reports, the layout of log records and
    compressed page images (xloginsert.c), the planner's structures beyond what the
    cost estimate reads, the parsing of options by reloptions.c and guc.c, and the
    debugging printers.  The rest of the server and its second copy are not this
    program. *)

From Stdlib Require Export ZArith Lia Bool.
From stdpp Require Export base numbers list list_numbers gmap sorting option.

#[global] Open Scope Z_scope.

(** ** Errors

    The errors the modelled code raises with [ereport]/[elog], one constructor
    per message, and two that are not messages: [UndefinedBehaviour] marks a C
    access the language leaves undefined (a NULL dereference, an access past
    the end of an array or of a page), [OutOfFuel] marks a loop of the model
    that was given too few steps. *)
Inductive pg_error : Type :=
  | ERR_expected_dimensions (expected actual : Z)
  | ERR_vector_no_dimension
  | ERR_vector_too_many_dimensions
  | ERR_different_dimensions (a b : Z)
  | ERR_nan_in_vector
  | ERR_infinite_in_vector
  | ERR_invalid_text_representation
  | ERR_out_of_range
  | ERR_invalid_type_modifier
  | ERR_typmod_too_small
  | ERR_typmod_too_large
  | ERR_expected_unused_zero (unused : Z)
  | ERR_insufficient_data
  | ERR_float_overflow
  | ERR_corrupted_page
  | ERR_invalid_offnum
  | ERR_corrupted_line_pointer
  | ERR_too_many_xlog_buffers
  | ERR_read_past_end
  | ERR_hnsw_index_not_valid
  | ERR_index_tuple_too_large
  | ERR_failed_to_add_index_item
  | ERR_type_not_supported
  | ERR_no_dimensions
  | ERR_column_too_many_dimensions
  | ERR_ef_construction_too_small
  | ERR_no_order
  | ERR_non_mvcc_snapshot
  | ERR_hash_table_too_large
  | ERR_hash_table_size_exceeded
  | ERR_lock_not_held
  | ERR_too_many_lwlocks
  | ERR_queueing_while_waiting
  | UndefinedBehaviour
  | OutOfFuel.

#[export] Instance pg_error_eq_dec : EqDecision pg_error.
Proof. solve_decision. Defined.

(** ** Results: a value or an error *)
Inductive res (A : Type) : Type :=
  | Ok (a : A)
  | Err (e : pg_error).
Arguments Ok {A} a.
Arguments Err {A} e.

#[export] Instance res_ret : MRet res := fun A a => Ok a.
#[export] Instance res_bind : MBind res :=
  fun A B f m => match m with Ok a => f a | Err e => Err e end.

(** [ereport(ERROR, ...)] under a condition. *)
Definition raise_if (c : bool) (e : pg_error) : res unit :=
  if c then Err e else Ok tt.

Definition of_option {A} (e : pg_error) (o : option A) : res A :=
  match o with Some a => Ok a | None => Err e end.

(** ** State and errors *)
Definition M (S A : Type) : Type := S -> res (A * S).

#[export] Instance M_ret S : MRet (M S) := fun A a s => Ok (a, s).
#[export] Instance M_bind S : MBind (M S) :=
  fun A B f m s =>
    match m s with
    | Ok (a, s') => f a s'
    | Err e => Err e
    end.

Definition lift_res {S A} (r : res A) : M S A :=
  fun s => match r with Ok a => Ok (a, s) | Err e => Err e end.
Definition get_state {S} : M S S := fun s => Ok (s, s).
Definition put_state {S} (s' : S) : M S unit := fun _ => Ok (tt, s').
Definition throw {S A} (e : pg_error) : M S A := fun _ => Err e.

(** The C loop [for (i = 0; i < n; i++) body] over the items of a list. *)
Fixpoint mfor {S A B} (l : list A) (b : B) (f : A -> B -> M S B) : M S B :=
  match l with
  | [] => mret b
  | a :: l' => b' ← f a b; mfor l' b' f
  end.

(** ** Machine integers: values of unsigned C types, with wrap-around *)
Definition u8 (z : Z) : Z := z mod 2 ^ 8.
Definition u16 (z : Z) : Z := z mod 2 ^ 16.
Definition u32 (z : Z) : Z := z mod 2 ^ 32.
(** Conversion to [int16]: the value modulo 2^16, centred on zero. *)
Definition i16 (z : Z) : Z := (z + 2 ^ 15) mod 2 ^ 16 - 2 ^ 15.

(** ** Automation *)

(** Split a successful run of a monadic program into the runs of its parts. *)
Ltac inv_ok :=
  repeat
    match goal with
    | H : Ok _ = Ok _ |- _ => injection H as H; subst
    | H : Err _ = Ok _ |- _ => discriminate H
    | H : Ok _ = Err _ |- _ => discriminate H
    | H : mret _ = Ok _ |- _ => unfold mret, res_ret in H
    | H : mret _ _ = Ok _ |- _ => unfold mret, M_ret in H
    | H : (_, _) = (_, _) |- _ => injection H as H; subst
    | H : mbind _ ?m = Ok _ |- _ =>
        unfold mbind, res_bind in H; destruct m eqn:?; try discriminate H
    | H : mbind _ ?m ?s = Ok _ |- _ =>
        unfold mbind, M_bind in H;
        let a := fresh "a" in let s' := fresh "s" in
        destruct (m s) as [[a s']|] eqn:?; try discriminate H
    | H : raise_if ?c _ = Ok _ |- _ =>
        unfold raise_if in H; destruct c eqn:?; try discriminate H
    end.

(** Case analysis on the integer comparisons of the goal. *)
Ltac case_cmp :=
  repeat
    match goal with
    | |- context [?a <? ?b] => destruct (Z.ltb_spec a b)
    | |- context [?a <=? ?b] => destruct (Z.leb_spec a b)
    | |- context [?a =? ?b] => destruct (Z.eqb_spec a b)
    end.

Create HintDb hnsw.

(** ** Generic lemmas *)

Lemma res_bind_ok {A B} (m : res A) (f : A -> res B) b :
  m ≫= f = Ok b -> exists a, m = Ok a /\ f a = Ok b.
Proof. destruct m; simpl; [eauto | discriminate]. Qed.

Lemma raise_if_false {A} c e (k : res A) : c = false -> (raise_if c e ;; k) = k.
Proof. by intros ->. Qed.

Lemma bind_Ok {A B} (a : A) (f : A -> res B) : Ok a ≫= f = f a.
Proof. reflexivity. Qed.

Lemma M_bind_ok {S A B} (m : M S A) (f : A -> M S B) s r :
  (m ≫= f) s = Ok r -> exists a s', m s = Ok (a, s') /\ f a s' = Ok r.
Proof.
  unfold mbind, M_bind. destruct (m s) as [[a s']|]; [eauto | discriminate].
Qed.

Lemma M_bind_run {S A B} (m : M S A) (f : A -> M S B) s a s' :
  m s = Ok (a, s') -> (m ≫= f) s = f a s'.
Proof. unfold mbind, M_bind. by intros ->. Qed.

Lemma M_bind_err {S A B} (m : M S A) (f : A -> M S B) s e : m s = Err e -> (m ≫= f) s = Err e.
Proof. intros H. unfold mbind, M_bind. by rewrite H. Qed.

Lemma mret_run {S A} (a : A) (s : S) : (mret a : M S A) s = Ok (a, s).
Proof. reflexivity. Qed.

Lemma lift_res_run {S A} (r : res A) (s : S) a : r = Ok a -> lift_res r s = Ok (a, s).
Proof. by intros ->. Qed.

(** Run the first part of a monadic program, whose result a lemma gives. *)
Tactic Notation "run" uconstr(H) := rewrite (M_bind_run _ _ _ _ _ H).
Tactic Notation "erun" uconstr(H) := erewrite (M_bind_run _ _ _ _ _ H).

Lemma mfor_cons {S A B} (a : A) l (b : B) (f : A -> B -> M S B) :
  mfor (a :: l) b f = (b' ← f a b ; mfor l b' f).
Proof. reflexivity. Qed.

(** A run of the first part of a loop. *)
Lemma mfor_app_run {S A B} (l k : list A) (b : B) (f : A -> B -> M S B) s b' s' :
  mfor l b f s = Ok (b', s') -> mfor (l ++ k) b f s = mfor k b' f s'.
Proof.
  revert b s. induction l as [|a l IH]; intros b s Hr; [by injection Hr as -> ->|].
  apply M_bind_ok in Hr as (b1 & s1 & H1 & H2). simpl. rewrite (M_bind_run _ _ _ _ _ H1). by apply IH.
Qed.

(** The invariant rule for [mfor]. *)
Lemma mfor_ind {S A B} (P : B -> S -> Prop) (l : list A) (f : A -> B -> M S B) b s b' s' :
  (forall a b0 s0 b1 s1, In a l -> P b0 s0 -> f a b0 s0 = Ok (b1, s1) -> P b1 s1) ->
  P b s -> mfor l b f s = Ok (b', s') -> P b' s'.
Proof.
  revert b s. induction l as [|a l IH]; simpl; intros b s Hf HP H.
  - inv_ok. done.
  - apply M_bind_ok in H as (b1 & s1 & H1 & H2).
    eapply IH; [| |exact H2]; eauto.
Qed.

(** A loop over the numbers [k + 1], ..., [k + n] that succeeds at each step. *)
Lemma mfor_seq_run {S B} (I : nat -> B -> S -> Prop) (f : Z -> B -> M S B) k n b s :
  (forall i b s, (k <= i < k + n)%nat -> I i b s ->
    exists b' s', f (Z.of_nat i + 1) b s = Ok (b', s') /\ I (Datatypes.S i) b' s') ->
  I k b s ->
  exists b' s', mfor ((fun i => Z.of_nat i + 1) <$> seq k n) b f s = Ok (b', s') /\ I (k + n)%nat b' s'.
Proof.
  revert k b s. induction n as [|n IH]; intros k b s Hf HI; [exists b, s; split; [done|by rewrite Nat.add_0_r]|].
  destruct (Hf k b s ltac:(lia) HI) as (b1 & s1 & H1 & HI1). cbn [seq]. rewrite fmap_cons, mfor_cons, (M_bind_run _ _ _ _ _ H1).
  destruct (IH (Datatypes.S k) b1 s1 ltac:(intros i b0 s0 Hi; apply Hf; lia) HI1) as (b' & s' & H2 & HI2).
  exists b', s'. split; [done|]. by replace (k + Datatypes.S n)%nat with (Datatypes.S k + n)%nat by lia.
Qed.

Lemma NoDup_of_submseteq {A} (l k : list A) : l ⊆+ k -> NoDup k -> NoDup l.
Proof. intros [m ->]%submseteq_Permutation. by intros [? _]%list.NoDup_app. Qed.

Lemma StronglySorted_impl {A} (R R' : A -> A -> Prop) l :
  (forall a b, R a b -> R' a b) -> StronglySorted R l -> StronglySorted R' l.
Proof.
  intros Himp. induction 1; constructor; [done|]. eapply List.Forall_impl; [|done]. auto.
Qed.

Lemma StronglySorted_rev {A} (R : A -> A -> Prop) l :
  StronglySorted R l -> StronglySorted (fun a b => R b a) (rev l).
Proof.
  induction 1 as [|a l Hs IH Hf]; simpl; [constructor|].
  apply StronglySorted_app. split_and!; [|done|repeat constructor].
  intros x y Hx Hy. apply list_elem_of_singleton in Hy as ->. apply list.Forall_forall with (x := x) in Hf; [done|].
  apply list_elem_of_In, in_rev, list_elem_of_In. done.
Qed.

Lemma bind_concat {A B} (f : A -> list B) (l : list A) : l ≫= f = concat (f <$> l).
Proof. induction l as [|a l IH]; [done|]. rewrite fmap_cons. simpl. by rewrite <- IH. Qed.

Lemma bind_same {A B} (f f' : A -> list B) l : (forall a, a ∈ l -> f' a = f a) -> l ≫= f' = l ≫= f.
Proof.
  induction l as [|a l IH]; intros Hs; [done|]. rewrite !bind_cons, IH, Hs; [done|by left|]. intros b Hb. apply Hs. by right.
Qed.

Lemma elem_of_rev {A} (x : A) l : x ∈ rev l <-> x ∈ l.
Proof. by rewrite !list_elem_of_In, <- in_rev. Qed.

Lemma rev_Permutation {A} (l : list A) : rev l ≡ₚ l.
Proof. symmetry. apply Permutation_rev. Qed.

Lemma fmap_rev {A B} (f : A -> B) (l : list A) : f <$> rev l = rev (f <$> l).
Proof. induction l as [|a l IH]; simpl; [done|]. by rewrite fmap_app, IH. Qed.

Lemma insert_swap_Permutation {A} (l : list A) i x y :
  l !! i = Some x -> x :: <[i := y]> l ≡ₚ y :: l.
Proof.
  revert i. induction l as [|a l IH]; intros [|i] Hi; try done; simpl in *.
  - injection Hi as ->. constructor.
  - rewrite (Permutation_swap a x), (IH i Hi). constructor.
Qed.

#[export] Instance filterb_Permutation {A} (f : A -> bool) :
  Proper (Permutation ==> Permutation) (List.filter f).
Proof.
  induction 1 as [|a l k Hp IH|a b l|]; simpl; [done| | |by etrans].
  - destruct (f a); [by constructor|done].
  - destruct (f a), (f b); try done. by constructor.
Qed.

Lemma filterb_id {A} (f : A -> bool) l : (forall a, a ∈ l -> f a = true) -> List.filter f l = l.
Proof.
  induction l as [|a l IH]; simpl; intros Hf; [done|]. rewrite Hf by left.
  f_equal. apply IH. intros b Hb. apply Hf. by right.
Qed.

(** Sums over a list, and what the change of one element does to them. *)
Definition total {A} (f : A -> Z) (l : list A) : Z := foldr (fun a => Z.add (f a)) 0 l.

Lemma total_cons {A} (f : A -> Z) a l : total f (a :: l) = f a + total f l.
Proof. done. Qed.

Lemma total_insert {A} (f : A -> Z) l i a a' : l !! i = Some a -> total f (<[i := a']> l) = total f l - f a + f a'.
Proof.
  revert i. induction l as [|b l IH]; intros [|i] Hi; [done|done| |].
  - injection Hi as ->. change (<[0%nat := a']> (a :: l)) with (a' :: l). rewrite !total_cons. lia.
  - change (<[S i := a']> (b :: l)) with (b :: <[i := a']> l). rewrite !total_cons, (IH i) by done. lia.
Qed.

Lemma total_zero {A} (f : A -> Z) l : (forall a, a ∈ l -> f a = 0) -> total f l = 0.
Proof.
  induction l as [|a l IH]; intros Hf; [done|]. rewrite total_cons, (Hf a) by left. rewrite IH; [done|]. intros b Hb. apply Hf. by right.
Qed.

Lemma total_nonneg {A} (f : A -> Z) l : (forall a, 0 <= f a) -> 0 <= total f l.
Proof. intros Hf. induction l as [|a l IH]; [done|]. rewrite total_cons. pose proof (Hf a). lia. Qed.

(** One element is at most the sum. *)
Lemma total_ge {A} (f : A -> Z) l i a : (forall a, 0 <= f a) -> l !! i = Some a -> f a <= total f l.
Proof.
  intros Hf. revert i. induction l as [|b l IH]; intros [|i] Hi; [done|done| |]; rewrite total_cons.
  - injection Hi as ->. pose proof (total_nonneg f l Hf). lia.
  - pose proof (Hf b). pose proof (IH i Hi). lia.
Qed.

Lemma total_two {A} (f : A -> Z) l i j a b : (forall a, 0 <= f a) -> l !! i = Some a -> l !! j = Some b -> i <> j -> f a + f b <= total f l.
Proof.
  intros Hf. revert i j. induction l as [|c l IH]; intros [|i] [|j] Hi Hj Hij; try done; rewrite total_cons.
  - injection Hi as ->. pose proof (total_ge f l j b Hf Hj). lia.
  - injection Hj as ->. pose proof (total_ge f l i a Hf Hi). lia.
  - pose proof (Hf c). pose proof (IH i j Hi Hj ltac:(lia)). lia.
Qed.

(** A positive sum has a positive element. *)
Lemma total_positive {A} (f : A -> Z) l : 0 < total f l -> exists i a, l !! i = Some a /\ 0 < f a.
Proof.
  induction l as [|b l IH]; intros Hp; [done|]. rewrite total_cons in Hp. destruct (Z_lt_le_dec 0 (f b)); [by exists O, b|].
  destruct IH as (i & a & Hi & Ha); [lia|]. by exists (S i), a.
Qed.

Lemma total_bounds {A} (f : A -> Z) l : (forall a, 0 <= f a <= 1) -> 0 <= total f l <= Z.of_nat (length l).
Proof.
  intros Hf. induction l as [|b l IH]; [cbn; lia|]. rewrite total_cons. cbn [length]. pose proof (Hf b). lia.
Qed.

Lemma total_all {A} (f : A -> Z) l i a : (forall a, 0 <= f a <= 1) -> total f l = Z.of_nat (length l) -> l !! i = Some a -> f a = 1.
Proof.
  intros Hf. revert i. induction l as [|b l IH]; intros [|i] Ht Hi; [done|done| |];
    rewrite total_cons in Ht; cbn [length] in Ht; pose proof (total_bounds f l Hf); pose proof (Hf b); [injection Hi as <-; lia|].
  apply (IH i); [lia|done].
Qed.

Lemma bind_nil {A B} (f : A -> list B) l : (forall a, a ∈ l -> f a = []) -> l ≫= f = [].
Proof. induction l as [|a l IH]; intros Hf; [done|]. cbn. rewrite (Hf a) by left. apply IH. intros b Hb. apply Hf. by right. Qed.

Lemma list_delete_insert_delete {A} (l : list A) i x : delete i (<[i := x]> l) = delete i l.
Proof. revert i. induction l as [|a l IH]; intros [|i]; cbn; [done|done|done|]. f_equal. apply IH. Qed.

Lemma bind_insert {A B} (f : A -> list B) l i a a' : l !! i = Some a -> exists rest, l ≫= f ≡ₚ f a ++ rest /\ <[i := a']> l ≫= f ≡ₚ f a' ++ rest.
Proof.
  intros Hi. exists (delete i l ≫= f). split.
  - transitivity ((a :: delete i l) ≫= f); [|done]. by rewrite <- (delete_Permutation l i a Hi).
  - rewrite (delete_Permutation (<[i := a']> l) i a') by (apply list_lookup_insert_eq; by eapply lookup_lt_Some). cbn. by rewrite list_delete_insert_delete.
Qed.

(** Two halves of a machine word. *)
Lemma lor_shiftl_low hi lo n : 0 <= n -> 0 <= lo < 2 ^ n -> Z.lor (Z.shiftl hi n) lo = hi * 2 ^ n + lo.
Proof.
  intros Hn0 Hlo. rewrite <- Z.add_nocarry_lor; [by rewrite Z.shiftl_mul_pow2 by lia|].
  apply Z.bits_inj'. intros k Hk. rewrite Z.land_spec, Z.bits_0, Z.shiftl_spec by lia.
  destruct (Z_lt_le_dec k n); [by rewrite Z.testbit_neg_r by lia|].
  rewrite <- (Z.mod_small lo (2 ^ n)) by lia. rewrite Z.mod_pow2_bits_high by lia. apply andb_false_r.
Qed.

Lemma u8_range z : 0 <= u8 z < 256.
Proof. apply Z.mod_pos_bound. lia. Qed.

Lemma u8_small z : 0 <= z < 256 -> u8 z = z.
Proof. apply Z.mod_small. Qed.

Lemma u16_small z : 0 <= z < 2 ^ 16 -> u16 z = z.
Proof. apply Z.mod_small. Qed.

Lemma i16_small z : - 2 ^ 15 <= z < 2 ^ 15 -> i16 z = z.
Proof. intros. unfold i16. rewrite Z.mod_small; lia. Qed.

#[export] Hint Resolve u8_range u8_small u16_small i16_small : hnsw.
