(* ===== verification/CFloat.v ===== *)
(** * C [float] and [double]

    The floating-point types of the C code as IEEE 754 numbers: the executable
    [spec_float] operations of the Standard Library at binary32 (24 bits of
    mantissa, exponent bound 128) and binary64 (53 bits, 1024), rounding to
    nearest even.  A NaN has no payload.  Expressions whose operands are
    [float] are evaluated in binary32 (FLT_EVAL_METHOD is 0), and converted
    when they are assigned to a [double]. *)

From Stdlib Require Import SpecFloat.
From S2P Require Import Prelude.

(** ** Types and operations *)

Abbreviation float := spec_float.
Abbreviation double := spec_float.

Definition fsub (a b : float) : float := SFsub 24 128 a b.
Definition fmul (a b : float) : float := SFmul 24 128 a b.

Definition dadd (a b : double) : double := SFadd 53 1024 a b.
Definition dsub (a b : double) : double := SFsub 53 1024 a b.
Definition dmul (a b : double) : double := SFmul 53 1024 a b.
Definition ddiv (a b : double) : double := SFdiv 53 1024 a b.
Definition dsqrt (a : double) : double := SFsqrt 53 1024 a.

(** Conversions between the two types: exact to [double], rounded to [float]. *)
Definition double_of_float (a : float) : double := SFldexp 53 1024 a 0.
Definition float_of_double (a : double) : float := SFldexp 24 128 a 0.

(** Conversion of an integer constant. *)
Definition double_of_Z (z : Z) : double := binary_normalize 53 1024 z 0 false.

Definition is_nan (a : spec_float) : bool :=
  match a with S754_nan => true | _ => false end.
Definition is_inf (a : spec_float) : bool :=
  match a with S754_infinity _ => true | _ => false end.
Definition is_finite (a : spec_float) : bool := negb (is_nan a) && negb (is_inf a).

(** The C comparisons; every one of them is false on a NaN. *)
Definition flt (a b : spec_float) : bool := SFltb a b.
Definition fgt (a b : spec_float) : bool := flt b a.
Definition fle (a b : spec_float) : bool := SFleb a b.
Definition feq (a b : spec_float) : bool := SFeqb a b.

Definition dzero : double := S754_zero false.
Definition done_ : double := double_of_Z 1.
Definition pos_infinity : double := S754_infinity false.
Definition neg_infinity : double := S754_infinity true.

(** Values with a clear sign bit, NaN excluded. *)
Definition nonneg (a : spec_float) : Prop :=
  match a with
  | S754_zero s | S754_infinity s | S754_finite s _ _ => s = false
  | S754_nan => False
  end.

#[export] Instance spec_float_eq_dec : EqDecision spec_float.
Proof. solve_decision. Defined.

(** ** Order

    A number that is not a NaN has a position (class, exponent, mantissa) in a
    lexicographic order, and the comparison is the comparison of positions. *)

Definition position (a : spec_float) : Z * Z * Z :=
  match a with
  | S754_nan => (0, 0, 0)
  | S754_zero _ => (0, 0, 0)
  | S754_infinity false => (2, 0, 0)
  | S754_infinity true => (-2, 0, 0)
  | S754_finite false m e => (1, e, Zpos m)
  | S754_finite true m e => (-1, - e, Zneg m)
  end.

Definition position_lt (p q : Z * Z * Z) : Prop :=
  p.1.1 < q.1.1 \/
  p.1.1 = q.1.1 /\ (p.1.2 < q.1.2 \/ p.1.2 = q.1.2 /\ p.2 < q.2).

Lemma position_lt_trans p q r : position_lt p q -> position_lt q r -> position_lt p r.
Proof. unfold position_lt. lia. Qed.

Lemma position_total p q : position_lt p q \/ p = q \/ position_lt q p.
Proof.
  destruct p as [[p1 p2] p3], q as [[q1 q2] q3]; unfold position_lt; simpl.
  destruct (decide (p1 = q1 /\ p2 = q2 /\ p3 = q3)) as [(-> & -> & ->)|]; [tauto | lia].
Qed.

(** The comparison in terms of positions. *)
Lemma SFcompare_position a b c :
  SFcompare a b = Some c ->
  match c with
  | Lt => position_lt (position a) (position b)
  | Eq => position a = position b
  | Gt => position_lt (position b) (position a)
  end.
Proof.
  intros H.
  destruct a as [|[]| |[] m1 e1], b as [|[]| |[] m2 e2]; simpl in H;
    try discriminate H; injection H as <-;
    try (unfold position_lt; simpl; lia); try reflexivity.
  all: destruct (Z.compare_spec e1 e2) as [->|?|?];
    try (unfold position_lt; simpl; lia);
    rewrite <- ?Pos.compare_cont_spec in *;
    change (Pos.compare_cont Eq m1 m2) with (Pos.compare m1 m2);
    destruct (Pos.compare_spec m1 m2) as [->|?|?]; simpl;
    try reflexivity; unfold position_lt; simpl; lia.
Qed.

Lemma SFcompare_some a b :
  is_nan a = false -> is_nan b = false -> exists c, SFcompare a b = Some c.
Proof. destruct a as [|[]| |[]], b as [|[]| |[]]; simpl; intros; try discriminate; eauto. Qed.

Lemma flt_position a b :
  flt a b = true <->
  is_nan a = false /\ is_nan b = false /\ position_lt (position a) (position b).
Proof.
  unfold flt, SFltb. split.
  - destruct (SFcompare a b) as [[]|] eqn:E; try discriminate. intros _.
    pose proof (SFcompare_position _ _ _ E).
    destruct a, b; simpl in E; try discriminate E; auto.
  - intros (Ha & Hb & Hlt). destruct (SFcompare_some a b Ha Hb) as [c E].
    rewrite E. apply SFcompare_position in E.
    destruct c; unfold position_lt in *; [rewrite E in Hlt; lia | done | lia].
Qed.

Lemma flt_spec a b :
  is_nan a = false -> is_nan b = false ->
  reflect (position_lt (position a) (position b)) (flt a b).
Proof.
  intros Ha Hb. apply iff_reflect. rewrite flt_position. tauto.
Qed.

Lemma fle_position a b :
  fle a b = true <->
  is_nan a = false /\ is_nan b = false /\ ~ position_lt (position b) (position a).
Proof.
  unfold fle, SFleb. split.
  - destruct (SFcompare a b) as [c|] eqn:E; [|discriminate].
    pose proof (SFcompare_position _ _ _ E) as Hc.
    intros Ht. split; [|split].
    + destruct a, b; simpl in E; try discriminate E; auto.
    + destruct a, b; simpl in E; try discriminate E; auto.
    + destruct c; try discriminate Ht; [rewrite Hc|]; unfold position_lt in *; lia.
  - intros (Ha & Hb & Hlt). destruct (SFcompare_some a b Ha Hb) as [c E].
    rewrite E. apply SFcompare_position in E. destruct c; auto.
Qed.

Lemma fle_not_flt a b : is_nan a = false -> is_nan b = false -> flt b a = false -> fle a b = true.
Proof.
  intros Ha Hb Hlt. apply fle_position. split; [done|]. split; [done|]. intros Hp.
  destruct (flt_spec b a Hb Ha); congruence.
Qed.

Lemma flt_neg_infinity a : flt a neg_infinity = false.
Proof. by destruct a as [|[]| |[]]. Qed.

Lemma fle_trans a b c : fle a b = true -> fle b c = true -> fle a c = true.
Proof.
  rewrite !fle_position. unfold position_lt. intros (? & ? & ?) (? & ? & ?). split; [done|]. split; [done|]. lia.
Qed.

Lemma feq_position a b :
  feq a b = true <->
  is_nan a = false /\ is_nan b = false /\ position a = position b.
Proof.
  unfold feq, SFeqb. split.
  - destruct (SFcompare a b) as [[]|] eqn:E; try discriminate.
    pose proof (SFcompare_position _ _ _ E) as Hc. intros _.
    destruct a, b; simpl in E; try discriminate E; auto.
  - intros (Ha & Hb & Heq). destruct (SFcompare_some a b Ha Hb) as [c E].
    rewrite E. apply SFcompare_position in E. destruct c; auto;
      rewrite Heq in E; unfold position_lt in E; lia.
Qed.

Lemma flt_irrefl a : flt a a = false.
Proof.
  destruct (flt a a) eqn:E; [|done]. apply flt_position in E as (_ & _ & E).
  unfold position_lt in E. lia.
Qed.

Lemma flt_trans a b c : flt a b = true -> flt b c = true -> flt a c = true.
Proof.
  rewrite !flt_position. intros (? & ? & ?) (? & ? & ?).
  eauto using position_lt_trans.
Qed.

Lemma flt_asym a b : flt a b = true -> flt b a = false.
Proof.
  intros H. destruct (flt b a) eqn:E; [|done].
  pose proof (flt_trans _ _ _ H E). rewrite flt_irrefl in *. done.
Qed.

(** Negative transitivity: "not greater" is a preorder on numbers. *)
Lemma flt_not_trans a b c :
  is_nan b = false ->
  flt b a = false -> flt c b = false -> flt c a = false.
Proof.
  intros Hb H1 H2. destruct (flt c a) eqn:E; [|done].
  apply flt_position in E as (Hc & Ha & E).
  assert (~ position_lt (position b) (position a)) as H1'.
  { intros ?. enough (flt b a = true) by congruence. apply flt_position; auto. }
  assert (~ position_lt (position c) (position b)) as H2'.
  { intros ?. enough (flt c b = true) by congruence. apply flt_position; auto. }
  unfold position_lt in *. lia.
Qed.

Lemma flt_total a b :
  is_nan a = false -> is_nan b = false ->
  flt a b = true \/ feq a b = true \/ flt b a = true.
Proof.
  intros Ha Hb. rewrite !flt_position, feq_position.
  destruct (position_total (position a) (position b)) as [|[|]]; auto.
Qed.

#[export] Hint Resolve flt_irrefl flt_asym : hnsw.

(** ** Results of the arithmetic

    Rounding a non-negative mantissa never yields a NaN and keeps the sign. *)

Lemma iter_pos_ind {A} (P : A -> Prop) (f : A -> A) n x :
  (forall y, P y -> P (f y)) -> P x -> P (SpecFloat.iter_pos f n x).
Proof.
  intros Hf. revert x. induction n as [n IH|n IH|]; simpl; auto.
Qed.

Lemma shr_1_nonneg r : 0 <= shr_m r -> 0 <= shr_m (shr_1 r).
Proof. destruct r as [[|[]|[]] r s]; simpl; lia. Qed.

Lemma shr_fexp_nonneg prec emax m e l :
  0 <= m -> 0 <= shr_m (shr_fexp prec emax m e l).1.
Proof.
  intros Hm. unfold shr_fexp, shr.
  assert (0 <= shr_m (shr_record_of_loc m l)) by (destruct l as [|[]]; simpl; lia).
  destruct (fexp _ _ _ - e)%Z; simpl; auto.
  apply (iter_pos_ind (fun r => 0 <= shr_m r)); auto using shr_1_nonneg.
Qed.

Definition has_sign (s : bool) (a : spec_float) : Prop :=
  match a with
  | S754_zero s' | S754_infinity s' | S754_finite s' _ _ => s' = s
  | S754_nan => False
  end.

Lemma has_sign_not_nan s a : has_sign s a -> is_nan a = false.
Proof. destruct a; simpl; tauto. Qed.

Lemma nonneg_has_sign a : nonneg a <-> has_sign false a.
Proof. destruct a; simpl; tauto. Qed.

Lemma binary_round_aux_sign prec emax s m e l :
  0 <= m -> has_sign s (binary_round_aux prec emax s m e l).
Proof.
  intros Hm. unfold binary_round_aux.
  pose proof (shr_fexp_nonneg prec emax m e l Hm) as H1.
  destruct (shr_fexp prec emax m e l) as [mrs e'] eqn:E1. simpl in H1.
  set (m' := round_nearest_even _ _).
  assert (0 <= m') as Hm'.
  { unfold m', round_nearest_even.
    destruct (loc_of_shr_record mrs) as [|[]]; simpl; auto; [destruct (Z.even _)|]; lia. }
  pose proof (shr_fexp_nonneg prec emax m' e' loc_Exact Hm') as H2.
  destruct (shr_fexp prec emax m' e' loc_Exact) as [mrs'' e'']. simpl in H2.
  destruct (shr_m mrs'') as [|p|p]; simpl; [done | | lia].
  destruct (_ <=? _); done.
Qed.

Lemma binary_round_sign prec emax s m e : has_sign s (binary_round prec emax s m e).
Proof.
  unfold binary_round. destruct (shl_align _ _ _) as [mz ez].
  apply binary_round_aux_sign. lia.
Qed.

Lemma binary_round_aux_opp prec emax s m e l :
  binary_round_aux prec emax (negb s) m e l = SFopp (binary_round_aux prec emax s m e l).
Proof.
  unfold binary_round_aux.
  destruct (shr_fexp prec emax m e l) as [mrs e'].
  destruct (shr_fexp prec emax _ e' loc_Exact) as [mrs'' e''].
  destruct (shr_m mrs'') as [|p|p]; simpl; [done | | done].
  destruct (_ <=? _); done.
Qed.

Lemma binary_round_opp prec emax s m e :
  binary_round prec emax (negb s) m e = SFopp (binary_round prec emax s m e).
Proof.
  unfold binary_round. destruct (shl_align _ _ _). apply binary_round_aux_opp.
Qed.

Lemma binary_normalize_not_nan prec emax m e s :
  is_nan (binary_normalize prec emax m e s) = false.
Proof.
  destruct m; simpl; [done | |]; eapply has_sign_not_nan, binary_round_sign.
Qed.

(** Conversions keep the sign and never create a NaN. *)
Lemma SFldexp_sign prec emax s a e : has_sign s a -> has_sign s (SFldexp prec emax a e).
Proof.
  destruct a; simpl; try tauto. intros <-. apply binary_round_sign.
Qed.

Lemma SFldexp_not_nan prec emax a e : is_nan a = false -> is_nan (SFldexp prec emax a e) = false.
Proof.
  destruct a; simpl; try done. intros _. eapply has_sign_not_nan, binary_round_sign.
Qed.

Lemma SFldexp_opp prec emax a e : SFldexp prec emax (SFopp a) e = SFopp (SFldexp prec emax a e).
Proof. destruct a; simpl; try done. apply binary_round_opp. Qed.

(** A difference of finite numbers is a number. *)
Lemma SFsub_not_nan prec emax a b :
  is_finite a = true -> is_finite b = true -> is_nan (SFsub prec emax a b) = false.
Proof.
  destruct a as [[]| | |], b as [[]| | |]; simpl; try done.
  intros _ _. apply binary_normalize_not_nan.
Qed.

Lemma binary_normalize_opp prec emax m e :
  m <> 0 -> binary_normalize prec emax (- m) e false = SFopp (binary_normalize prec emax m e false).
Proof.
  destruct m; simpl; [done | |]; intros _.
  - apply (binary_round_opp prec emax false).
  - apply (binary_round_opp prec emax true).
Qed.

(** The two differences of two finite numbers are opposite, or both [+0]. *)
Lemma SFsub_opp prec emax a b :
  is_finite a = true -> is_finite b = true ->
  SFsub prec emax b a = SFopp (SFsub prec emax a b) \/
  SFsub prec emax a b = S754_zero false /\ SFsub prec emax b a = S754_zero false.
Proof.
  destruct a as [[]| | |s1 m1 e1], b as [[]| | |s2 m2 e2]; simpl; try done; intros _ _; auto;
    try (left; by rewrite ?negb_involutive).
  - rewrite (Z.min_comm e2 e1).
    set (x := cond_Zopp s1 _). set (y := cond_Zopp s2 _).
    destruct (decide (x - y = 0)) as [E|E].
    + right. rewrite E. replace (y - x) with 0 by lia. done.
    + left. replace (y - x) with (- (x - y)) by lia. by apply binary_normalize_opp.
Qed.

Lemma SFmul_opp_opp prec emax a : SFmul prec emax (SFopp a) (SFopp a) = SFmul prec emax a a.
Proof. destruct a as [s|s| |s m e]; simpl; try done; by destruct s. Qed.

(** The square of a number is non-negative. *)
Lemma SFmul_square_nonneg prec emax a : is_nan a = false -> nonneg (SFmul prec emax a a).
Proof.
  destruct a as [s|s| |s m e]; simpl; try done; try (by destruct s).
  intros _. apply nonneg_has_sign. rewrite xorb_nilpotent.
  apply binary_round_aux_sign. lia.
Qed.

Lemma SFmul_comm prec emax a b : SFmul prec emax a b = SFmul prec emax b a.
Proof.
  destruct a as [s1|s1| |s1 m1 e1], b as [s2|s2| |s2 m2 e2]; simpl; try done;
    try (by rewrite xorb_comm).
  by rewrite xorb_comm, Pos.mul_comm, Z.add_comm.
Qed.

Lemma SFadd_nonneg prec emax a b : nonneg a -> nonneg b -> nonneg (SFadd prec emax a b).
Proof.
  destruct a as [s1|s1| |s1 m1 e1], b as [s2|s2| |s2 m2 e2]; simpl; try tauto;
    intros -> ->; simpl; try done.
  apply nonneg_has_sign, binary_round_sign.
Qed.

Lemma SFsqrt_nonneg prec emax a : nonneg a -> nonneg (SFsqrt prec emax a).
Proof.
  destruct a as [s|s| |s m e]; simpl; try tauto; intros ->; try done.
  unfold SFsqrt_core_binary.
  set (e' := Z.min _ _).
  set (m' := match e - 2 * e' with Zpos p => _ | _ => _ end).
  assert (0 <= m') as Hm'.
  { unfold m'. destruct (e - 2 * e'); try lia. apply Z.shiftl_nonneg. lia. }
  destruct (Z.sqrtrem m') as [q r] eqn:E.
  assert (0 <= q) as Hq.
  { pose proof (Z.sqrtrem_sqrt m') as Hs. rewrite E in Hs. simpl in Hs. subst q.
    apply Z.sqrt_nonneg. }
  apply nonneg_has_sign. by apply binary_round_aux_sign.
Qed.

Lemma is_finite_not_nan a : is_finite a = true -> is_nan a = false.
Proof. by destruct a. Qed.

Lemma nonneg_not_nan a : nonneg a -> is_nan a = false.
Proof. destruct a; simpl; tauto. Qed.

(** Conversion of a canonical binary32 number to [double] is exact in the sense
    that it neither overflows nor becomes zero. *)
Lemma digits2_pos_shift m d :
  Zpos (digits2_pos (Pos.iter xO m d)) = Zpos (digits2_pos m) + Zpos d.
Proof.
  revert m. induction d as [|d IH] using Pos.peano_ind; intros m; simpl.
  - rewrite Pos2Z.inj_succ. lia.
  - rewrite Pos.iter_succ. simpl. rewrite !Pos2Z.inj_succ, IH. lia.
Qed.

Lemma shr_fexp_id prec emax m e :
  0 < m -> fexp prec emax (Zdigits2 m + e) <= e ->
  shr_fexp prec emax m e loc_Exact = ({| shr_m := m; shr_r := false; shr_s := false |}, e).
Proof.
  intros Hm He. unfold shr_fexp, shr. simpl shr_record_of_loc.
  destruct (fexp prec emax (Zdigits2 m + e) - e) eqn:E; [done | lia | done].
Qed.

Lemma binary_round_small prec emax s m e :
  Zpos (digits2_pos m) <= prec -> emin prec emax <= e -> e <= emax - prec ->
  exists m' e', binary_round prec emax s m e = S754_finite s m' e'.
Proof.
  intros Hd He1 He2. unfold binary_round.
  set (ex' := fexp prec emax (Zpos (digits2_pos m) + e)).
  assert (ex' <= e) as Hex by (unfold ex', fexp; lia).
  assert (exists mz, shl_align m e ex' = (mz, ex') /\ Zpos (digits2_pos mz) + ex' = Zpos (digits2_pos m) + e) as (mz & -> & Hmz).
  { unfold shl_align. destruct (ex' - e) as [|p|p] eqn:E; [|lia|].
    - exists m. split; [f_equal; lia | lia].
    - exists (Pos.iter xO m p). split; [done|]. rewrite digits2_pos_shift. lia. }
  unfold binary_round_aux.
  assert (fexp prec emax (Zdigits2 (Zpos mz) + ex') <= ex') as Hf
    by (simpl Zdigits2; rewrite Hmz; done).
  rewrite shr_fexp_id by (done || lia). cbn [shr_m loc_of_shr_record round_nearest_even].
  rewrite shr_fexp_id by (done || lia). cbn [shr_m].
  rewrite (proj2 (Z.leb_le _ _)) by lia. eauto.
Qed.

Lemma double_of_float_finite f :
  valid_binary 24 128 f = true -> is_finite f = true ->
  is_finite (double_of_float f) = true.
Proof.
  destruct f as [| | |s m e]; try done. intros Hv _. unfold double_of_float. simpl SFldexp.
  simpl in Hv. unfold bounded, canonical_mantissa in Hv.
  apply andb_prop in Hv as [H1%Z.eqb_eq H2%Z.leb_le]. unfold fexp, emin in H1.
  destruct (binary_round_small 53 1024 s m (e + 0)) as (m' & e' & ->);
    unfold emin; try done; lia.
Qed.

Lemma SFdiv_finite_not_nan prec emax a b :
  is_finite a = true -> nonneg b -> flt (S754_zero false) b = true ->
  is_nan (SFdiv prec emax a b) = false.
Proof.
  intros Ha Hb Hlt.
  destruct b as [s2|s2| |s2 m2 e2]; simpl in Hb; subst; try done;
    destruct a as [s1|s1| |s1 m1 e1]; try done.
  cbn [SFdiv]. destruct (SFdiv_core_binary _ _ _ _ _ _) as [[q e'] l] eqn:E.
  eapply has_sign_not_nan, binary_round_aux_sign.
  unfold SFdiv_core_binary in E.
  set (m' := match _ with Zpos _ => _ | Z0 => _ | Zneg _ => _ end) in E.
  assert (0 <= m') as Hm'.
  { unfold m'. destruct (e1 - e2 - _); try lia. apply Z.shiftl_nonneg. lia. }
  pose proof (Z_div_mod m' (Zpos m2) ltac:(lia)) as Hq.
  destruct (Z.div_eucl m' (Zpos m2)) as [q' r]. injection E as <- _ _.
  destruct Hq as [Hq Hr]. nia.
Qed.

#[export] Hint Resolve is_finite_not_nan SFadd_nonneg SFsqrt_nonneg SFmul_square_nonneg nonneg_not_nan
  SFsub_not_nan SFldexp_not_nan : hnsw.

(** ** Magnitudes

    Bounds of a rounded quotient, from the number of digits of the operands. *)

Lemma digits2_pos_bounds p : 2 ^ (Zpos (digits2_pos p) - 1) <= Zpos p < 2 ^ Zpos (digits2_pos p).
Proof.
  induction p as [p IH|p IH|]; cbn [digits2_pos]; [| |done];
    rewrite Pos2Z.inj_succ; replace (Z.succ (Zpos (digits2_pos p)) - 1) with (Zpos (digits2_pos p) - 1 + 1) by lia;
    rewrite Z.pow_add_r, Z.pow_succ_r by lia; lia.
Qed.

Lemma Zdigits2_le m d : 0 <= d -> 0 <= m < 2 ^ d -> 0 <= Zdigits2 m <= d.
Proof.
  intros Hd Hm. destruct m as [|p|p]; [done| |lia]. cbn [Zdigits2]. pose proof (digits2_pos_bounds p) as [H _].
  destruct (Z.le_gt_cases (Zpos (digits2_pos p)) d) as [|Hgt]; [lia|].
  assert (2 ^ d <= 2 ^ (Zpos (digits2_pos p) - 1)) by (apply Z.pow_le_mono_r; lia). lia.
Qed.

Lemma Zdigits2_lt m : 0 <= m -> m < 2 ^ Zdigits2 m.
Proof. destruct m as [|p|p]; [done| |lia]. intros _. apply digits2_pos_bounds. Qed.

Lemma shr_1_half r : 0 <= shr_m r -> shr_m (shr_1 r) = shr_m r / 2.
Proof.
  destruct r as [m r s]. cbn [shr_m]. intros Hm. destruct m as [|[p|p|]|p]; cbn [shr_1 shr_m]; try done.
  - rewrite Pos2Z.inj_xI, Z.mul_comm, Z.div_add_l by lia. change (1 / 2) with 0. lia.
  - rewrite Pos2Z.inj_xO, Z.mul_comm, Z.div_mul by lia. done.
Qed.

Lemma iter_shr_1 n r : 0 <= shr_m r -> shr_m (SpecFloat.iter_pos shr_1 n r) = shr_m r / 2 ^ Zpos n.
Proof.
  revert r. assert (Hadd : forall m a b, m / 2 ^ Zpos a / 2 ^ Zpos b = m / 2 ^ (Zpos a + Zpos b)).
  { intros m a b. rewrite Z.div_div by (try apply Z.pow_nonzero; lia). by rewrite <- Z.pow_add_r by lia. }
  assert (Hpos : forall m a, 0 <= m -> 0 <= m / 2 ^ Zpos a) by (intros m a Hm; apply Z.div_pos; lia).
  induction n as [n IH|n IH|]; intros r Hr; cbn [SpecFloat.iter_pos].
  - assert (H1 : 0 <= shr_m (shr_1 r)) by (by apply shr_1_nonneg). rewrite IH; rewrite IH by done; [|by apply Hpos].
    rewrite shr_1_half by done. change (shr_m r / 2) with (shr_m r / 2 ^ Zpos 1). rewrite !Hadd, Z.div_div by (try apply Z.pow_nonzero; lia).
    rewrite <- Z.pow_add_r by lia. do 2 f_equal. lia.
  - rewrite IH; rewrite IH by done; [|by apply Hpos]. rewrite Hadd. do 2 f_equal. lia.
  - by apply shr_1_half.
Qed.

Lemma shr_fexp_bound prec emax m e l d : 0 < prec -> 0 <= d -> 0 <= m < 2 ^ d ->
  exists e1, (shr_fexp prec emax m e l).2 = e1 /\ e <= e1 /\ emin prec emax <= e1 /\ e1 <= Z.max e (fexp prec emax (d + e)) /\
    0 <= shr_m (shr_fexp prec emax m e l).1 < 2 ^ prec /\ shr_m (shr_fexp prec emax m e l).1 < 2 ^ (Z.max 0 (d - (e1 - e))).
Proof.
  intros Hp Hd Hm. pose proof (Zdigits2_le m d Hd Hm) as HD. pose proof (Zdigits2_lt m ltac:(lia)) as Hlt.
  unfold shr_fexp. set (n := fexp prec emax (Zdigits2 m + e) - e).
  assert (Hn : Zdigits2 m - prec <= n) by (unfold n, fexp; lia).
  assert (Hmono : fexp prec emax (Zdigits2 m + e) <= fexp prec emax (d + e)) by (unfold fexp; lia).
  assert (Hmin : emin prec emax <= fexp prec emax (Zdigits2 m + e)) by (unfold fexp; lia).
  assert (Hrec : shr_m (shr_record_of_loc m l) = m) by (by destruct l as [|[]]).
  destruct n as [|p|p] eqn:En; cbn [shr fst snd]; rewrite ?Hrec.
  - exists e. split; [done|]. split; [lia|]. split; [lia|]. split; [lia|]. assert (2 ^ Zdigits2 m <= 2 ^ prec) by (apply Z.pow_le_mono_r; lia).
    split; [lia|]. replace (Z.max 0 (d - (e - e))) with d by lia. lia.
  - exists (e + Zpos p). split; [done|]. split; [lia|]. split; [lia|]. split; [lia|]. rewrite iter_shr_1 by (rewrite Hrec; lia). rewrite Hrec.
    assert (0 <= m / 2 ^ Zpos p) by (apply Z.div_pos; lia). split.
    + split; [done|]. apply Z.div_lt_upper_bound; [lia|]. rewrite <- Z.pow_add_r by lia. eapply Z.lt_le_trans; [exact Hlt|].
      apply Z.pow_le_mono_r; lia.
    + apply Z.div_lt_upper_bound; [lia|]. rewrite <- Z.pow_add_r by lia. eapply Z.lt_le_trans; [apply Hm|]. apply Z.pow_le_mono_r; lia.
  - exists e. split; [done|]. split; [lia|]. split; [lia|]. split; [lia|]. assert (2 ^ Zdigits2 m <= 2 ^ prec) by (apply Z.pow_le_mono_r; lia).
    split; [lia|]. replace (Z.max 0 (d - (e - e))) with d by lia. lia.
Qed.

(** A number that is not negative, with at most [prec] digits and exponent at most [f]. *)
Definition at_most (prec f : Z) (a : spec_float) : Prop :=
  match a with
  | S754_zero s => s = false
  | S754_finite s m e => s = false /\ Zpos m < 2 ^ prec /\ e <= f
  | _ => False
  end.

Lemma binary_round_aux_at_most prec emax m e l d : 0 < prec -> 0 <= d -> 0 <= m < 2 ^ d ->
  Z.max e (fexp prec emax (d + e)) + 1 <= emax - prec ->
  at_most prec (Z.max e (fexp prec emax (d + e)) + 1) (binary_round_aux prec emax false m e l).
Proof.
  intros Hp Hd Hm Hmax. unfold binary_round_aux.
  destruct (shr_fexp_bound prec emax m e l d Hp Hd Hm) as (e1 & E1 & H1 & H2 & H3 & H4 & _).
  destruct (shr_fexp prec emax m e l) as [r e1'] eqn:Er. cbn [fst snd] in *. subst e1'.
  set (m2 := round_nearest_even (shr_m r) (loc_of_shr_record r)).
  assert (Hm2 : 0 <= m2 < 2 ^ (prec + 1)).
  { assert (shr_m r <= m2 <= shr_m r + 1) by (unfold m2, round_nearest_even; repeat case_match; lia).
    assert (1 < 2 ^ prec) by (apply Z.pow_gt_1; lia). rewrite Z.pow_add_r by lia. lia. }
  destruct (shr_fexp_bound prec emax m2 e1 loc_Exact (prec + 1) Hp ltac:(lia) Hm2) as (e2 & E2 & K1 & K2 & K3 & K4 & _).
  destruct (shr_fexp prec emax m2 e1 loc_Exact) as [r2 e2'] eqn:Er2. cbn [fst snd] in *. subst e2'.
  assert (He2 : e2 <= e1 + 1) by (unfold fexp in K3; lia).
  destruct (shr_m r2) as [|p|p]; [done| |lia]. rewrite (proj2 (Z.leb_le e2 (emax - prec))) by lia. cbn. lia.
Qed.

(** Integers below 2^53 are converted exactly: 53 digits and the same magnitude. *)
Lemma double_of_Z_small n : 0 < n < 2 ^ 53 -> exists m e, double_of_Z n = S754_finite false m e /\
  Zdigits2 (Zpos m) = 53 /\ e = Zdigits2 n - 53.
Proof.
  intros Hn. destruct n as [|p|p]; [lia| |lia]. pose proof (Zdigits2_le (Zpos p) 53 ltac:(lia) ltac:(lia)) as HD. cbn [Zdigits2] in HD |- *.
  unfold double_of_Z, binary_normalize, binary_round. set (ex' := fexp 53 1024 (Zpos (digits2_pos p) + 0)).
  assert (Hex : ex' = Zpos (digits2_pos p) - 53) by (unfold ex', fexp, emin; lia).
  assert (exists mz, shl_align p 0 ex' = (mz, ex') /\ Zpos (digits2_pos mz) = 53) as (mz & -> & Hmz).
  { unfold shl_align. destruct (ex' - 0) as [|q|q] eqn:E; [|lia|].
    - exists p. split; [f_equal; lia | lia].
    - exists (Pos.iter xO p q). split; [done|]. rewrite digits2_pos_shift. lia. }
  unfold binary_round_aux.
  assert (fexp 53 1024 (Zdigits2 (Zpos mz) + ex') <= ex') as Hf by (simpl Zdigits2; rewrite Hmz; unfold fexp, emin; lia).
  rewrite shr_fexp_id by (done || lia). cbn [shr_m loc_of_shr_record round_nearest_even].
  rewrite shr_fexp_id by (done || lia). cbn [shr_m]. rewrite (proj2 (Z.leb_le _ _)) by lia. exists mz, ex'. split; [done|]. split; [done|lia].
Qed.

(** A quotient of numbers with 53 digits. *)
Lemma ddiv_at_most mx ex my ey : Zdigits2 (Zpos mx) = 53 -> Zdigits2 (Zpos my) = 53 -> -1000 <= ex - ey <= 1000 ->
  at_most 53 (ex - ey - 51) (ddiv (S754_finite false mx ex) (S754_finite false my ey)).
Proof.
  intros Dx Dy Hr. unfold ddiv. cbn [SFdiv xorb]. unfold SFdiv_core_binary. rewrite Dx, Dy.
  replace (53 + ex - (53 + ey)) with (ex - ey) by lia.
  assert (He : Z.min (fexp 53 1024 (ex - ey)) (ex - ey) = ex - ey - 53) by (unfold fexp, emin; lia). rewrite He.
  replace (ex - ey - (ex - ey - 53)) with 53 by lia.
  pose proof (digits2_pos_bounds mx) as [_ Hx]. pose proof (digits2_pos_bounds my) as [Hy _]. cbn [Zdigits2] in Dx, Dy. rewrite Dx in Hx. rewrite Dy in Hy.
  pose proof (Z_div_mod (Z.shiftl (Zpos mx) 53) (Zpos my) ltac:(lia)) as Hq.
  destruct (Z.div_eucl (Z.shiftl (Zpos mx) 53) (Zpos my)) as [q r]. destruct Hq as [Hq Hr'].
  rewrite Z.shiftl_mul_pow2 in Hq by lia. cbn [Z.sub] in Hy.
  assert (Hf : fexp 53 1024 (54 + (ex - ey - 53)) = ex - ey - 52) by (unfold fexp, emin; lia).
  pose proof (binary_round_aux_at_most 53 1024 q (ex - ey - 53) (new_location (Zpos my) r) 54) as Hb. rewrite Hf in Hb.
  replace (Z.max (ex - ey - 53) (ex - ey - 52) + 1) with (ex - ey - 51) in Hb by lia. apply Hb; [lia|lia| |lia].
  change (2 ^ (53 - 1)) with (2 ^ 52) in Hy. change (2 ^ 53) with 9007199254740992 in *. change (2 ^ 52) with 4503599627370496 in Hy.
  change (2 ^ 54) with 18014398509481984. split; nia.
Qed.
