(* ===== verification/VectorType.v ===== *)
(** * The [vector] data type

    src/pgvec/src/backend/utils/adt/vector.c and
    src/pgvec/src/include/utils/vector.h: the representation, the checks, the
    text and binary input and output functions, the distances, the comparison
    and the normalisation.  The libc function [strtof] and the shortest-decimal
    printer are parameters. *)

From Stdlib Require Import SpecFloat String Ascii.
From S2P Require Import Prelude CFloat.

(** ** Representation *)

Definition VECTOR_MAX_DIM : Z := 16000.

(** [vl_len_] is the size the varlena header stores, in bytes. *)
Record Vector := mkVector {
  vl_len_ : Z;
  dim : Z;
  unused : Z;
  x : list float
}.

#[export] Instance Vector_eq_dec : EqDecision Vector.
Proof. solve_decision. Defined.

Definition VECTOR_SIZE (dim : Z) : Z := 8 + 4 * dim.
Definition VARSIZE_ANY (v : Vector) : Z := vl_len_ v.

Definition CheckExpectedDim (typmod dim : Z) : res unit :=
  raise_if (negb (typmod =? -1) && negb (typmod =? dim)) (ERR_expected_dimensions typmod dim).

Definition CheckDim (dim : Z) : res unit :=
  raise_if (dim <? 1) ERR_vector_no_dimension ;;
  raise_if (VECTOR_MAX_DIM <? dim) ERR_vector_too_many_dimensions.

Definition CheckDims (a b : Vector) : res unit :=
  raise_if (negb (dim a =? dim b)) (ERR_different_dimensions (dim a) (dim b)).

Definition CheckElement (value : float) : res unit :=
  raise_if (is_nan value) ERR_nan_in_vector ;;
  raise_if (is_inf value) ERR_infinite_in_vector.

(** [palloc0] zeroes the elements; [dim] is stored in an [int16]. *)
Definition InitVector (dim : Z) : Vector :=
  mkVector (VECTOR_SIZE dim) (i16 dim) 0 (replicate (Z.to_nat dim) (S754_zero false)).

Definition with_x (v : Vector) (xs : list float) : Vector :=
  mkVector (vl_len_ v) (dim v) (unused v) xs.

(** Byte equality of two datums of varlena type: same size, same bytes. The
    bytes of an element determine the element and conversely. *)
Definition datumIsEqual (a b : Vector) : bool := bool_decide (a = b).

(** ** Text format *)

Definition vector_isspace (ch : ascii) : bool :=
  let n := nat_of_ascii ch in
  Nat.eqb n 32 || Nat.eqb n 9 || Nat.eqb n 10 || Nat.eqb n 13 || Nat.eqb n 11 || Nat.eqb n 12.

(** A [char *] into a NUL-terminated string is the rest of the string. *)
Definition NUL : ascii := ascii_of_nat 0.
Definition deref (pt : string) : ascii :=
  match pt with EmptyString => NUL | String c _ => c end.
Definition advance (pt : string) : string :=
  match pt with EmptyString => EmptyString | String _ s => s end.
Fixpoint advance_n (n : nat) (pt : string) : string :=
  match n with O => pt | S n' => advance_n n' (advance pt) end.

(** [while (vector_isspace( *pt)) pt++;] *)
Fixpoint skip_space (pt : string) : string :=
  match pt with
  | EmptyString => EmptyString
  | String c s => if vector_isspace c then skip_space s else pt
  end.

Section Text.
(** [strtof pt]: the value, the number of characters consumed, and whether
    [errno] is set to [ERANGE]. *)
Context (strtof : string -> float * nat * bool).
(** The text [float_to_shortest_decimal_bufn] writes. *)
Context (float_to_shortest_decimal : float -> string).

(** The element loop of [vector_in]: [xs] is [x[0 .. dim)].  It returns the
    text after the closing bracket. *)
Fixpoint vector_in_loop (fuel : nat) (pt : string) (xs : list float)
  : res (string * list float) :=
  match fuel with
  | O => Err OutOfFuel
  | S fuel' =>
      raise_if (Z.of_nat (List.length xs) =? VECTOR_MAX_DIM) ERR_vector_too_many_dimensions ;;
      let pt := skip_space pt in
      raise_if (Ascii.eqb (deref pt) NUL) ERR_invalid_text_representation ;;
      let '(val, n, erange) := strtof pt in
      raise_if (Nat.eqb n 0) ERR_invalid_text_representation ;;
      raise_if (erange && is_inf val) ERR_out_of_range ;;
      CheckElement val ;;
      let xs := (xs ++ [val])%list in
      let pt := skip_space (advance_n n pt) in
      if Ascii.eqb (deref pt) "," then vector_in_loop fuel' (advance pt) xs
      else if Ascii.eqb (deref pt) "]" then Ok (advance pt, xs)
      else Err ERR_invalid_text_representation
  end.

Definition vector_in (lit : string) (typmod : Z) : res Vector :=
  let pt := skip_space lit in
  raise_if (negb (Ascii.eqb (deref pt) "[")) ERR_invalid_text_representation ;;
  let pt := skip_space (advance pt) in
  raise_if (Ascii.eqb (deref pt) "]") ERR_vector_no_dimension ;;
  '(pt, xs) ← vector_in_loop (S (Z.to_nat VECTOR_MAX_DIM)) pt [] ;
  let pt := skip_space pt in
  raise_if (negb (Ascii.eqb (deref pt) NUL)) ERR_invalid_text_representation ;;
  let d := Z.of_nat (List.length xs) in
  CheckDim d ;;
  CheckExpectedDim typmod d ;;
  Ok (with_x (InitVector d) xs).

(** The elements from index [i] on, each preceded by a comma when [i > 0]. *)
Fixpoint append_elements (first : bool) (xs : list float) : string :=
  match xs with
  | [] => EmptyString
  | f :: xs' =>
      ((if first then "" else ",") ++ float_to_shortest_decimal f
         ++ append_elements false xs')%string
  end.

Definition vector_out (v : Vector) : string :=
  ("[" ++ append_elements true (x v) ++ "]")%string.
End Text.

(** The size of the buffer [vector_out] allocates. *)
Definition FLOAT_SHORTEST_DECIMAL_LEN : Z := 16.
Definition vector_out_alloc (v : Vector) : Z := FLOAT_SHORTEST_DECIMAL_LEN * dim v + 2.

(** [tl] is the integer array of the type modifier. *)
Definition vector_typmod_in (tl : list Z) : res Z :=
  match tl with
  | [t] =>
      raise_if (t <? 1) ERR_typmod_too_small ;;
      raise_if (VECTOR_MAX_DIM <? t) ERR_typmod_too_large ;;
      Ok t
  | _ => Err ERR_invalid_type_modifier
  end.

Definition vector_enforce_dim (vec : Vector) (typmod : Z) : res Vector :=
  CheckExpectedDim typmod (dim vec) ;; Ok vec.

(** ** Binary format

    A message is the list of the bytes after its cursor. *)

Definition pq_copymsgbytes (n : nat) : M (list Z) (list Z) :=
  fun msg =>
    if (List.length msg <? n)%nat then Err ERR_insufficient_data
    else Ok (take n msg, drop n msg).

Definition pq_getmsgint (b : nat) : M (list Z) Z :=
  bytes ← pq_copymsgbytes b ;
  mret (fold_left (fun acc byte => acc * 256 + byte) bytes 0).

Definition pq_sendint (i : Z) (b : nat) : list Z :=
  map (fun k => (i / 256 ^ Z.of_nat k) mod 256) (rev (seq 0 b)).

(** The binary32 interchange encoding, through the union of a [float4] and a
    [uint32]. *)
Definition float4_of_bits (u : Z) : float :=
  let s := Z.testbit u 31 in
  let e := (u / 2 ^ 23) mod 2 ^ 8 in
  let m := u mod 2 ^ 23 in
  if e =? 255 then (if m =? 0 then S754_infinity s else S754_nan)
  else if e =? 0 then
    match m with Zpos p => S754_finite s p (-149) | _ => S754_zero s end
  else S754_finite s (Z.to_pos (m + 2 ^ 23)) (e - 150).

Definition bits_of_float4 (f : float) : Z :=
  match f with
  | S754_zero s => Z.b2z s * 2 ^ 31
  | S754_infinity s => Z.b2z s * 2 ^ 31 + 255 * 2 ^ 23
  | S754_nan => 255 * 2 ^ 23 + 2 ^ 22
  | S754_finite s m e =>
      Z.b2z s * 2 ^ 31 +
      (if Zpos m <? 2 ^ 23 then Zpos m else (e + 150) * 2 ^ 23 + (Zpos m - 2 ^ 23))
  end.

Definition pq_getmsgfloat4 : M (list Z) float :=
  u ← pq_getmsgint 4 ; mret (float4_of_bits u).
Definition pq_sendfloat4 (f : float) : list Z := pq_sendint (bits_of_float4 f) 4.

(** [for (i = 0; i < dim; i++) { x[i] = pq_getmsgfloat4(buf); CheckElement(x[i]); }] *)
Fixpoint recv_elements (n : nat) : M (list Z) (list float) :=
  match n with
  | O => mret []
  | S n' =>
      f ← pq_getmsgfloat4 ;
      lift_res (CheckElement f) ;;
      xs ← recv_elements n' ;
      mret (f :: xs)
  end.

Definition vector_recv (typmod : Z) : M (list Z) Vector :=
  d ← pq_getmsgint 2 ; let dim := i16 d in
  u ← pq_getmsgint 2 ; let unused := i16 u in
  lift_res (CheckDim dim) ;;
  lift_res (CheckExpectedDim typmod dim) ;;
  lift_res (raise_if (negb (unused =? 0)) (ERR_expected_unused_zero unused)) ;;
  xs ← recv_elements (Z.to_nat dim) ;
  mret (with_x (InitVector dim) xs).

Definition vector_send (vec : Vector) : list Z :=
  pq_sendint (dim vec) 2 ++ pq_sendint (unused vec) 2 ++ concat (map pq_sendfloat4 (x vec)).

(** ** Distances *)

(** The pairs [(a->x[i], b->x[i])] for [i < a->dim]. *)
Definition element_pairs (a b : Vector) : list (float * float) :=
  take (Z.to_nat (dim a)) (zip (x a) (x b)).

Definition l2_step (sum : double) (p : float * float) : double :=
  let diff := double_of_float (fsub p.1 p.2) in
  dadd sum (dmul diff diff).

Definition vector_l2_distance (a b : Vector) : res double :=
  CheckDims a b ;;
  Ok (dsqrt (fold_left l2_step (element_pairs a b) dzero)).

Definition cosine_step (acc : double * double * double) (p : float * float)
  : double * double * double :=
  let '(dot, norm_a, norm_b) := acc in
  (dadd dot (double_of_float (fmul p.1 p.2)),
   dadd norm_a (double_of_float (fmul p.1 p.1)),
   dadd norm_b (double_of_float (fmul p.2 p.2))).

Definition vector_cosine_distance (a b : Vector) : res double :=
  CheckDims a b ;;
  let '(dot, norm_a, norm_b) := fold_left cosine_step (element_pairs a b) (dzero, dzero, dzero) in
  if feq norm_a dzero || feq norm_b dzero then Ok dzero
  else
    let similarity := ddiv dot (dmul (dsqrt norm_a) (dsqrt norm_b)) in
    Ok (dsub done_ similarity).

(** ** Comparison and normalisation *)

(** The loop over the elements: [Some] when it returns early. *)
Fixpoint compare_elements (l : list (float * float)) : option Z :=
  match l with
  | [] => None
  | (u, v) :: l' =>
      if flt u v then Some (-1) else if fgt u v then Some 1 else compare_elements l'
  end.

Definition vector_cmp_internal (a b : Vector) : Z :=
  match compare_elements (take (Z.to_nat (Z.min (dim a) (dim b))) (zip (x a) (x b))) with
  | Some r => r
  | None => if dim a <? dim b then -1 else if dim b <? dim a then 1 else 0
  end.

Definition vector_cmp (a b : Vector) : Z := vector_cmp_internal a b.

Definition square_sum (xs : list float) : double :=
  fold_left (fun norm f => dadd norm (dmul (double_of_float f) (double_of_float f))) xs dzero.

Definition l2_normalize (a : Vector) : res Vector :=
  let ax := take (Z.to_nat (dim a)) (x a) in
  let norm := dsqrt (square_sum ax) in
  let result := InitVector (dim a) in
  if fgt norm dzero then
    let rx := map (fun f => float_of_double (ddiv (double_of_float f) norm)) ax in
    raise_if (existsb is_inf rx) ERR_float_overflow ;;
    Ok (with_x result rx)
  else Ok result.

(** ** Well-formed vectors *)

(** What the input functions establish. *)
Record Vector_ok (v : Vector) : Prop := {
  ok_dim : 1 <= dim v <= VECTOR_MAX_DIM;
  ok_unused : unused v = 0;
  ok_length : Z.of_nat (List.length (x v)) = dim v;
  ok_size : vl_len_ v = VECTOR_SIZE (dim v);
  ok_finite : Forall (fun f => is_finite f = true) (x v)
}.

(** Elements that are binary32 numbers in canonical form. *)
Definition representable (v : Vector) : Prop :=
  Forall (fun f => valid_binary 24 128 f = true) (x v).

(** ** Lemmas: text format *)

Lemma CheckElement_ok f u : CheckElement f = Ok u -> is_finite f = true.
Proof.
  destruct f; simpl; intros H; try discriminate H; done.
Qed.

Lemma CheckElement_finite f : is_finite f = true -> CheckElement f = Ok tt.
Proof. by destruct f as [| | |]. Qed.

Lemma CheckDim_ok d u : CheckDim d = Ok u -> 1 <= d <= VECTOR_MAX_DIM.
Proof. unfold CheckDim. intros H. inv_ok. lia. Qed.

Lemma CheckDim_range d : 1 <= d <= VECTOR_MAX_DIM -> CheckDim d = Ok tt.
Proof.
  intros H. unfold CheckDim, raise_if, mbind, res_bind.
  by rewrite (proj2 (Z.ltb_ge d 1)), (proj2 (Z.ltb_ge VECTOR_MAX_DIM d)) by lia.
Qed.

Lemma CheckExpectedDim_ok t d u : CheckExpectedDim t d = Ok u -> t = -1 \/ t = d.
Proof.
  unfold CheckExpectedDim. intros H. inv_ok.
  destruct (Z.eqb_spec t (-1)), (Z.eqb_spec t d); simpl in *; try discriminate; auto.
Qed.

Lemma CheckExpectedDim_match t d : t = -1 \/ t = d -> CheckExpectedDim t d = Ok tt.
Proof.
  unfold CheckExpectedDim. intros [->| ->]; [done|]. rewrite (Z.eqb_refl d).
  by rewrite andb_false_r.
Qed.

Lemma InitVector_with_x_ok d xs :
  1 <= d <= VECTOR_MAX_DIM -> Z.of_nat (List.length xs) = d ->
  Forall (fun f => is_finite f = true) xs ->
  Vector_ok (with_x (InitVector d) xs).
Proof.
  intros Hd Hl Hf. unfold VECTOR_MAX_DIM in Hd.
  split; simpl; rewrite ?i16_small; unfold VECTOR_MAX_DIM; auto; lia.
Qed.

Lemma InitVector_ok d : 1 <= d <= VECTOR_MAX_DIM -> Vector_ok (InitVector d) /\ dim (InitVector d) = d.
Proof.
  intros Hd. split.
  - apply (InitVector_with_x_ok d (x (InitVector d))); [done| |].
    + simpl. rewrite length_replicate. lia.
    + simpl. by apply Forall_replicate.
  - simpl. unfold VECTOR_MAX_DIM in Hd. by rewrite i16_small by lia.
Qed.

Lemma vector_in_loop_ok strtof fuel pt xs pt' xs' :
  vector_in_loop strtof fuel pt xs = Ok (pt', xs') ->
  Forall (fun f => is_finite f = true) xs ->
  (List.length xs < List.length xs')%nat /\ Forall (fun f => is_finite f = true) xs'.
Proof.
  revert pt xs. induction fuel as [|fuel IH]; simpl; intros pt xs H Hxs; [discriminate|].
  apply res_bind_ok in H as ([] & _ & H).
  apply res_bind_ok in H as ([] & _ & H).
  destruct (strtof _) as [[val n] erange].
  apply res_bind_ok in H as ([] & _ & H).
  apply res_bind_ok in H as ([] & _ & H).
  apply res_bind_ok in H as ([] & He%CheckElement_ok & H).
  assert (Forall (fun f => is_finite f = true) (xs ++ [val])) as Hxs'.
  { apply Forall_app; split; auto. }
  destruct (Ascii.eqb _ _); [|destruct (Ascii.eqb _ _); [|discriminate]].
  - apply IH in H as [Hl Hf]; auto. rewrite length_app in Hl. simpl in Hl. split; [lia|done].
  - inv_ok. rewrite length_app. simpl. split; [lia|done].
Qed.

Lemma vector_in_loop_fuel strtof fuel pt xs :
  (List.length xs <= Z.to_nat VECTOR_MAX_DIM)%nat ->
  (Z.to_nat VECTOR_MAX_DIM < fuel + List.length xs)%nat ->
  vector_in_loop strtof fuel pt xs <> Err OutOfFuel.
Proof.
  revert pt xs. induction fuel as [|fuel IH]; intros pt xs Hle Hf; [lia|].
  cbn [vector_in_loop].
  unfold raise_if at 1, mbind at 1, res_bind at 1.
  destruct (Z.eqb_spec (Z.of_nat (List.length xs)) VECTOR_MAX_DIM) as [|Hne]; [discriminate|].
  unfold raise_if at 1, mbind at 1, res_bind at 1.
  destruct (Ascii.eqb _ NUL); [discriminate|].
  destruct (strtof _) as [[val n] erange].
  unfold raise_if, mbind, res_bind, CheckElement.
  destruct (Nat.eqb n 0); [discriminate|].
  destruct (erange && is_inf val); [discriminate|].
  unfold mbind, res_bind, raise_if.
  destruct (is_nan val); [discriminate|]. destruct (is_inf val); [discriminate|].
  destruct (Ascii.eqb _ _); [|destruct (Ascii.eqb _ _); discriminate].
  unfold VECTOR_MAX_DIM in *. apply IH; rewrite length_app; simpl; lia.
Qed.

Lemma skip_space_nonspace c s : vector_isspace c = false -> skip_space (String c s) = String c s.
Proof. simpl. by intros ->. Qed.

Lemma append_cons c s t : (String c s ++ t = String c (s ++ t))%string.
Proof. reflexivity. Qed.

Lemma append_empty t : ("" ++ t = t)%string.
Proof. reflexivity. Qed.

Lemma advance_n_app s t : advance_n (String.length s) (s ++ t) = t.
Proof. induction s as [|c s IH]; [done|]. rewrite append_cons. simpl. auto. Qed.

Lemma string_app_assoc (a b c : string) : ((a ++ b) ++ c = a ++ (b ++ c))%string.
Proof. induction a as [|ch a IH]; [done|]. rewrite !append_cons. congruence. Qed.

(** What the round trip needs of the two library functions on the number [f]:
    the printed text is not empty, does not start with white space or a
    bracket, and is read back, up to the separator, as the same number. *)
Definition prints_and_reads strtof (show : float -> string) (f : float) : Prop :=
  (exists c s, show f = String c s /\ vector_isspace c = false /\
     Ascii.eqb c "]" = false /\ Ascii.eqb c NUL = false) /\
  (forall sep rest, sep = ","%char \/ sep = "]"%char ->
     strtof (show f ++ String sep rest)%string = (f, String.length (show f), false)).

Lemma vector_in_loop_out strtof show ys fuel xs0 rest f :
  Forall (prints_and_reads strtof show) (f :: ys) ->
  Forall (fun f => is_finite f = true) (f :: ys) ->
  Z.of_nat (List.length xs0 + List.length (f :: ys)) <= VECTOR_MAX_DIM ->
  (List.length (f :: ys) < fuel)%nat ->
  vector_in_loop strtof fuel
    (show f ++ append_elements show false ys ++ String "]" rest)%string xs0 =
  Ok (rest, (xs0 ++ f :: ys)%list).
Proof.
  revert fuel xs0 f.
  induction ys as [|g ys IH]; intros fuel xs0 f Hp Hf Hlen Hfuel.
  all: destruct fuel as [|fuel]; [simpl in Hfuel; lia|].
  all: apply List.Forall_cons_iff in Hp as [[(c & s & Hs & Hsp & _ & Hnul) Hread] Hp].
  all: apply List.Forall_cons_iff in Hf as [Hfin Hf].
  all: cbn [vector_in_loop]; rewrite raise_if_false
    by (apply Z.eqb_neq; unfold VECTOR_MAX_DIM in *; cbn [List.length] in Hlen; lia).
  all: assert (forall t, skip_space (show f ++ t)%string = (show f ++ t)%string) as ->
    by (intros t; rewrite Hs, append_cons; by apply skip_space_nonspace).
  all: rewrite raise_if_false by (rewrite Hs, append_cons; done).
  - cbn [append_elements]. rewrite append_empty, Hread by auto.
    rewrite advance_n_app, raise_if_false by (by rewrite Hs).
    by rewrite raise_if_false, CheckElement_finite, bind_Ok by done.
  - cbn [append_elements]. rewrite !string_app_assoc, append_cons, append_empty.
    rewrite Hread by auto.
    rewrite advance_n_app, raise_if_false by (by rewrite Hs).
    rewrite raise_if_false, CheckElement_finite, bind_Ok by done.
    cbn [skip_space deref]. change (vector_isspace ",") with false. cbv iota zeta.
    cbn [deref advance]. rewrite Ascii.eqb_refl. rewrite IH; auto.
    + by rewrite <- app_assoc.
    + rewrite length_app. simpl in *. lia.
    + simpl in *. lia.
Qed.

(** ** Lemmas: binary format *)

Lemma digits2_pos_bound m : 2 ^ (Zpos (digits2_pos m) - 1) <= Zpos m < 2 ^ Zpos (digits2_pos m).
Proof.
  induction m as [m IH|m IH|]; simpl digits2_pos; [| |simpl; lia].
  all: rewrite Pos2Z.inj_succ, Z.pow_succ_r by lia.
  all: replace (Z.succ (Zpos (digits2_pos m)) - 1) with (Z.succ (Zpos (digits2_pos m) - 1)) by lia.
  all: rewrite Z.pow_succ_r by lia; lia.
Qed.

(** A canonical binary32 number: normal, or subnormal with the least exponent. *)
Lemma valid_binary32 s m e :
  valid_binary 24 128 (S754_finite s m e) = true ->
  (2 ^ 23 <= Zpos m < 2 ^ 24 /\ -149 <= e <= 104) \/ (Zpos m < 2 ^ 23 /\ e = -149).
Proof.
  simpl. unfold bounded, canonical_mantissa. intros [H1%Z.eqb_eq H2%Z.leb_le]%andb_prop.
  unfold fexp, emin in H1. pose proof (digits2_pos_bound m) as Hb.
  set (d := Zpos (digits2_pos m)) in *. change (128 - 24) with 104 in H2.
  destruct (decide (24 <= d)) as [Hd|Hd].
  - assert (d = 24) as -> by lia. left. simpl in Hb |- *. lia.
  - right. split; [|lia].
    apply Z.lt_le_trans with (2 ^ d); [lia|]. apply Z.pow_le_mono_r; lia.
Qed.

Lemma bits_of_float4_range f :
  valid_binary 24 128 f = true -> 0 <= bits_of_float4 f < 2 ^ 32.
Proof.
  intros H. destruct f as [s|s| |s m e]; [by destruct s | by destruct s | done |].
  apply valid_binary32 in H. simpl bits_of_float4.
  destruct (Z.ltb_spec (Zpos m) (2 ^ 23)); destruct s; simpl Z.b2z; lia.
Qed.

Lemma float4_bits_roundtrip f :
  valid_binary 24 128 f = true -> is_nan f = false ->
  float4_of_bits (bits_of_float4 f) = f.
Proof.
  intros H Hn. destruct f as [s|s| |s m e]; [by destruct s | by destruct s | done |].
  apply valid_binary32 in H.
  assert (forall r, 0 <= r < 2 ^ 31 ->
    let u := Z.b2z s * 2 ^ 31 + r in
    Z.testbit u 31 = s /\ u / 2 ^ 23 mod 2 ^ 8 = r / 2 ^ 23 /\ u mod 2 ^ 23 = r mod 2 ^ 23) as Hu.
  { intros r Hr u. split; [|split].
    - unfold u. destruct s; simpl Z.b2z.
      + rewrite Z.testbit_true by lia. rewrite Z.add_comm.
        by rewrite Z.div_add, Z.div_small by lia.
      + rewrite Z.testbit_false by lia. by rewrite Z.div_small by lia.
    - assert (u / 2 ^ 23 = r / 2 ^ 23 + Z.b2z s * 2 ^ 8) as ->.
      { unfold u. replace (Z.b2z s * 2 ^ 31 + r) with (r + Z.b2z s * 2 ^ 8 * 2 ^ 23) by lia.
        apply Z.div_add. lia. }
      rewrite Z.mod_add by lia. apply Z.mod_small.
      split; [apply Z.div_pos; lia | apply Z.div_lt_upper_bound; lia].
    - unfold u. replace (Z.b2z s * 2 ^ 31 + r) with (r + Z.b2z s * 2 ^ 8 * 2 ^ 23) by lia.
      apply Z.mod_add. lia. }
  unfold float4_of_bits. cbn [bits_of_float4].
  destruct (Z.ltb_spec (Zpos m) (2 ^ 23)) as [Hm|Hm].
  - destruct (Hu (Zpos m)) as (-> & -> & ->); [lia|].
    rewrite Z.div_small, Z.mod_small by lia. simpl. f_equal. lia.
  - destruct H as [[Hmr He]|]; [|lia].
    destruct (Hu ((e + 150) * 2 ^ 23 + (Zpos m - 2 ^ 23))) as (-> & -> & ->); [lia|].
    rewrite Z.add_comm, Z.div_add, Z.mod_add, Z.div_small, Z.mod_small by lia.
    rewrite (proj2 (Z.eqb_neq _ 255)), (proj2 (Z.eqb_neq _ 0)) by lia.
    f_equal; [|lia]. replace (Zpos m - 2 ^ 23 + 2 ^ 23) with (Zpos m) by lia. done.
Qed.

Lemma pq_getmsgint_2 z rest :
  0 <= z < 2 ^ 16 -> pq_getmsgint 2 (pq_sendint z 2 ++ rest) = Ok (z, rest).
Proof.
  intros H. cbv [pq_getmsgint mbind M_bind pq_copymsgbytes pq_sendint rev seq map app length].
  simpl. unfold mret, M_ret. rewrite drop_0. do 2 f_equal.
  change (256 ^ Z.of_nat 0) with 1; change (256 ^ Z.of_nat 1) with 256. rewrite Z.div_1_r.
  rewrite (Z.mod_small (z / 256)).
  - pose proof (Z.div_mod z 256). lia.
  - split; [apply Z.div_pos; lia | apply Z.div_lt_upper_bound; lia].
Qed.

Lemma pq_getmsgint_4 z rest :
  0 <= z < 2 ^ 32 -> pq_getmsgint 4 (pq_sendint z 4 ++ rest) = Ok (z, rest).
Proof.
  intros H. cbv [pq_getmsgint mbind M_bind pq_copymsgbytes pq_sendint rev seq map app length].
  simpl. unfold mret, M_ret. rewrite drop_0. do 2 f_equal.
  change (256 ^ Z.of_nat 0) with 1; change (256 ^ Z.of_nat 1) with 256;
    change (256 ^ Z.of_nat 2) with (256 * 256);
    change (256 ^ Z.of_nat 3) with (256 * 256 * 256).
  rewrite Z.div_1_r, <- !Z.div_div by lia.
  pose proof (Z.div_mod z 256). pose proof (Z.div_mod (z / 256) 256).
  pose proof (Z.div_mod (z / 256 / 256) 256).
  rewrite (Z.mod_small (z / 256 / 256 / 256)); [lia|].
  rewrite !Z.div_div by lia. change (256 * 256 * 256) with (2 ^ 24).
  split; [apply Z.div_pos; lia | apply Z.div_lt_upper_bound; lia].
Qed.

Lemma recv_elements_send xs rest :
  Forall (fun f => valid_binary 24 128 f = true) xs ->
  Forall (fun f => is_finite f = true) xs ->
  recv_elements (List.length xs) (concat (map pq_sendfloat4 xs) ++ rest) = Ok (xs, rest).
Proof.
  induction xs as [|f xs IH]; intros Hv Hf; [done|].
  apply List.Forall_cons_iff in Hv as [Hv1 Hv]. apply List.Forall_cons_iff in Hf as [Hf1 Hf].
  cbn [map concat List.length recv_elements]. rewrite <- app_assoc.
  unfold pq_getmsgfloat4, pq_sendfloat4 at 1, mbind at 1, M_bind at 1, mbind at 1, M_bind at 1.
  rewrite pq_getmsgint_4 by (by apply bits_of_float4_range).
  unfold mret at 1, M_ret at 1. rewrite float4_bits_roundtrip; [|done|by destruct f].
  unfold lift_res. rewrite CheckElement_finite by done.
  unfold mbind, M_bind. by rewrite IH.
Qed.

Lemma recv_elements_spec n msg xs rest :
  recv_elements n msg = Ok (xs, rest) ->
  List.length xs = n /\ Forall (fun f => is_finite f = true) xs.
Proof.
  revert msg xs rest. induction n as [|n IH]; simpl; intros msg xs rest H.
  - inv_ok. done.
  - apply M_bind_ok in H as (f & s1 & _ & H).
    apply M_bind_ok in H as ([] & s2 & Hc & H).
    apply M_bind_ok in H as (ys & s3 & Hr & H). inv_ok.
    apply IH in Hr as [<- Hf]. split; [done|].
    unfold lift_res in Hc. destruct (CheckElement f) eqn:E; [|discriminate].
    apply CheckElement_ok in E. by constructor.
Qed.

(** ** Lemmas: distances and comparison *)

Lemma element_pairs_ok a b :
  Vector_ok a -> Vector_ok b -> dim a = dim b -> element_pairs a b = zip (x a) (x b).
Proof.
  intros Ha Hb Hd. unfold element_pairs. apply take_ge. rewrite length_zip_with.
  pose proof (ok_length _ Ha). lia.
Qed.

Lemma zip_finite (xs ys : list float) :
  Forall (fun f => is_finite f = true) xs -> Forall (fun f => is_finite f = true) ys ->
  Forall (fun p => is_finite p.1 = true /\ is_finite p.2 = true) (zip xs ys).
Proof.
  intros Hx. revert ys. induction Hx as [|f xs Hf Hx IH]; intros [|g ys] Hy; simpl; auto.
  apply List.Forall_cons_iff in Hy as [Hg Hy]. constructor; auto.
Qed.

Lemma l2_step_nonneg sum p :
  is_finite p.1 = true -> is_finite p.2 = true -> nonneg sum -> nonneg (l2_step sum p).
Proof.
  intros H1 H2 Hs. unfold l2_step, dadd, dmul, fsub, double_of_float.
  auto 6 with hnsw.
Qed.

Lemma l2_step_sym sum p q :
  is_finite p = true -> is_finite q = true -> l2_step sum (p, q) = l2_step sum (q, p).
Proof.
  intros H1 H2. unfold l2_step, dadd, dmul, fsub, double_of_float. simpl.
  destruct (SFsub_opp 24 128 p q H1 H2) as [-> | [-> ->]]; [|done].
  by rewrite SFldexp_opp, SFmul_opp_opp.
Qed.

Lemma l2_sum_nonneg ps sum :
  Forall (fun p => is_finite p.1 = true /\ is_finite p.2 = true) ps ->
  nonneg sum -> nonneg (fold_left l2_step ps sum).
Proof.
  revert sum. induction ps as [|p ps IH]; intros sum Hp Hs; simpl; auto.
  apply List.Forall_cons_iff in Hp as [[? ?] Hp]. auto using l2_step_nonneg.
Qed.

Lemma l2_sum_sym xs ys sum :
  Forall (fun f => is_finite f = true) xs -> Forall (fun f => is_finite f = true) ys ->
  fold_left l2_step (zip xs ys) sum = fold_left l2_step (zip ys xs) sum.
Proof.
  intros Hx. revert ys sum. induction Hx as [|f xs Hf Hx IH]; intros [|g ys] sum Hy; simpl; auto.
  apply List.Forall_cons_iff in Hy as [Hg Hy].
  rewrite IH by done. by rewrite l2_step_sym.
Qed.

Lemma l2_step_same f : is_finite f = true -> l2_step dzero (f, f) = dzero.
Proof.
  intros H. unfold l2_step, fsub. simpl.
  assert (SFsub 24 128 f f = S754_zero false) as ->; [|done].
  destruct f as [[]| | |s m e]; simpl in *; try done. by rewrite Z.sub_diag.
Qed.

Lemma l2_sum_same xs :
  Forall (fun f => is_finite f = true) xs -> fold_left l2_step (zip xs xs) dzero = dzero.
Proof.
  induction 1 as [|f xs Hf Hx IH]; [done|]. cbn [zip zip_with fold_left].
  by rewrite l2_step_same.
Qed.

Lemma CheckDims_same a b : dim a = dim b -> CheckDims a b = Ok tt.
Proof. unfold CheckDims. intros ->. by rewrite Z.eqb_refl. Qed.

(** *** The sums of the cosine distance *)

Definition product_sum (g : float * float -> float) (ps : list (float * float)) (sum : double) : double :=
  fold_left (fun sum p => dadd sum (double_of_float (g p))) ps sum.

Lemma cosine_fold ps dot na nb :
  fold_left cosine_step ps (dot, na, nb) =
  (product_sum (fun p => fmul p.1 p.2) ps dot, product_sum (fun p => fmul p.1 p.1) ps na,
   product_sum (fun p => fmul p.2 p.2) ps nb).
Proof. revert dot na nb. induction ps as [|p ps IH]; intros dot na nb; [done|]. simpl. by rewrite IH. Qed.

Lemma product_sum_ext g g' ps sum : (forall p, g p = g' p) -> product_sum g ps sum = product_sum g' ps sum.
Proof. intros Hg. revert sum. induction ps as [|p ps IH]; intros sum; [done|]. simpl. by rewrite Hg, IH. Qed.

Lemma product_sum_map {A} g (h : A -> float * float) l sum :
  product_sum g (map h l) sum = fold_left (fun sum a => dadd sum (double_of_float (g (h a)))) l sum.
Proof. revert sum. induction l as [|a l IH]; intros sum; [done|]. simpl. by rewrite IH. Qed.

Lemma zip_swap {A} (xs ys : list A) : zip ys xs = map (fun p => (p.2, p.1)) (zip xs ys).
Proof. revert ys. induction xs as [|u xs IH]; intros [|v ys]; simpl; [done..|]. by rewrite <- IH. Qed.

Lemma zip_same {A} (xs : list A) : zip xs xs = map (fun u => (u, u)) xs.
Proof. induction xs as [|u xs IH]; [done|]. simpl. by rewrite <- IH. Qed.

Lemma cosine_sym a b : Vector_ok a -> Vector_ok b -> dim a = dim b ->
  vector_cosine_distance b a = vector_cosine_distance a b.
Proof.
  intros Ha Hb Hd. unfold vector_cosine_distance. rewrite !CheckDims_same, !bind_Ok, !element_pairs_ok, !cosine_fold by done.
  rewrite (zip_swap (x a)), !product_sum_map. cbn [fst snd]. unfold product_sum. rewrite orb_comm.
  destruct (_ || _); [done|]. unfold dmul. rewrite (SFmul_comm _ _ (dsqrt _)). do 3 f_equal.
  apply (product_sum_ext (fun p => fmul p.2 p.1) (fun p => fmul p.1 p.2)). intros p. apply SFmul_comm.
Qed.

(** Squares that are 0 add up to 0. *)
Lemma vanishing_sum (xs ys : list float) : Forall (fun f => fmul f f = S754_zero false) xs ->
  product_sum (fun p => fmul p.1 p.1) (zip xs ys) dzero = dzero.
Proof.
  intros Hx. revert ys. induction Hx as [|f xs Hf Hx IH]; intros [|g ys]; [done..|].
  cbn [zip zip_with product_sum fold_left fst]. rewrite Hf. apply IH.
Qed.

Lemma cosine_vanishing a b : Vector_ok a -> Vector_ok b -> dim a = dim b ->
  Forall (fun f => fmul f f = S754_zero false) (x a) -> vector_cosine_distance a b = Ok dzero.
Proof.
  intros Ha Hb Hd Hz. unfold vector_cosine_distance. rewrite CheckDims_same, bind_Ok, element_pairs_ok, cosine_fold by done.
  by rewrite vanishing_sum.
Qed.

(** An infinite square makes the sum infinite. *)
Lemma square_sum_overflow (xs : list float) sum : nonneg sum -> Forall (fun f => is_finite f = true) xs ->
  sum = pos_infinity \/ Exists (fun f => fmul f f = S754_infinity false) xs ->
  fold_left (fun sum f => dadd sum (double_of_float (fmul f f))) xs sum = pos_infinity.
Proof.
  intros Hs Hx. revert sum Hs. induction Hx as [|f xs Hf Hx IH]; intros sum Hs Hinf; simpl.
  { destruct Hinf as [|He]; [done|]. by apply Exists_nil in He. }
  assert (Hsq : nonneg (double_of_float (fmul f f))).
  { apply nonneg_has_sign, SFldexp_sign, nonneg_has_sign, SFmul_square_nonneg. by apply is_finite_not_nan. }
  apply IH; [by apply SFadd_nonneg|]. destruct Hinf as [->|[Hinf|Hinf]%Exists_cons]; [left| |by right].
  - by destruct (double_of_float (fmul f f)) as [[]|[]| |[] ? ?].
  - left. rewrite Hinf. by destruct sum as [[]|[]| |[] ? ?].
Qed.

(** Lexicographic order of two element lists, the shorter first. *)
Fixpoint lex (xs ys : list float) : Z :=
  match xs, ys with
  | [], [] => 0
  | [], _ => -1
  | _, [] => 1
  | f :: xs', g :: ys' => if flt f g then -1 else if flt g f then 1 else lex xs' ys'
  end.

Lemma vector_cmp_lex a b :
  Vector_ok a -> Vector_ok b -> vector_cmp_internal a b = lex (x a) (x b).
Proof.
  intros Ha Hb. unfold vector_cmp_internal.
  rewrite take_ge by (rewrite length_zip_with; pose proof (ok_length _ Ha);
    pose proof (ok_length _ Hb); lia).
  rewrite <- (ok_length _ Ha), <- (ok_length _ Hb). clear.
  generalize (x a), (x b). intros xs. induction xs as [|f xs IH]; intros [|g ys]; try (simpl; done).
  cbn [zip zip_with compare_elements lex List.length].
  unfold fgt. destruct (flt f g); [done|]. destruct (flt g f); [done|]. rewrite <- IH.
  destruct (compare_elements _); [done|].
  repeat match goal with |- context [?u <? ?v] => destruct (Z.ltb_spec u v) end;
    simpl in *; lia.
Qed.

Lemma lex_range xs ys : lex xs ys = -1 \/ lex xs ys = 0 \/ lex xs ys = 1.
Proof.
  revert ys. induction xs as [|f xs IH]; intros [|g ys]; simpl; auto.
  destruct (flt f g); [auto|]. destruct (flt g f); auto.
Qed.

Lemma lex_antisym xs ys : lex ys xs = - lex xs ys.
Proof.
  revert ys. induction xs as [|f xs IH]; intros [|g ys]; simpl; try done.
  destruct (flt f g) eqn:E1, (flt g f) eqn:E2; try done; try apply IH.
  by rewrite (flt_asym f g) in E2.
Qed.

Lemma lex_le_trans xs ys zs :
  Forall (fun f => is_finite f = true) xs ->
  Forall (fun f => is_finite f = true) ys ->
  Forall (fun f => is_finite f = true) zs ->
  lex xs ys <= 0 -> lex ys zs <= 0 -> lex xs zs <= 0.
Proof.
  intros Hx Hy. revert ys zs Hy.
  induction Hx as [|f xs Hf Hx IH]; intros [|g ys] [|h zs] Hy Hz; simpl; try lia.
  apply List.Forall_cons_iff in Hy as [Hg Hy]. apply List.Forall_cons_iff in Hz as [Hh Hz].
  apply is_finite_not_nan in Hf, Hg, Hh.
  destruct (flt_spec f g Hf Hg), (flt_spec g f Hg Hf), (flt_spec g h Hg Hh),
    (flt_spec h g Hh Hg), (flt_spec f h Hf Hh), (flt_spec h f Hh Hf);
    try lia; try (unfold position_lt in *; lia).
  all: try (apply IH; assumption).
Qed.

(** ** Theorems *)

(** C35: a value [vector_in] accepts is a well-formed vector: between 1 and
    16000 dimensions, every element finite, and of the dimension the type
    modifier asks for. *)
Theorem vector_in_ok strtof lit typmod v :
  vector_in strtof lit typmod = Ok v ->
  Vector_ok v /\ (typmod = -1 \/ dim v = typmod).
Proof.
  unfold vector_in. intros H.
  apply res_bind_ok in H as ([] & _ & H). apply res_bind_ok in H as ([] & _ & H).
  apply res_bind_ok in H as ([pt xs] & Hl & H). apply res_bind_ok in H as ([] & _ & H).
  apply res_bind_ok in H as ([] & Hd%CheckDim_ok & H).
  apply res_bind_ok in H as ([] & He%CheckExpectedDim_ok & H). inv_ok.
  apply vector_in_loop_ok in Hl as [_ Hf]; [|done].
  split; [by apply InitVector_with_x_ok|].
  simpl. unfold VECTOR_MAX_DIM in Hd. rewrite i16_small by lia. intuition auto.
Qed.

(** the parser always returns: its element loop runs at most
    [VECTOR_MAX_DIM + 1] times, whatever [strtof] does. *)
Theorem vector_in_terminates strtof lit typmod : vector_in strtof lit typmod <> Err OutOfFuel.
Proof.
  unfold vector_in. unfold raise_if at 1, mbind at 1, res_bind at 1.
  destruct (negb _); [discriminate|].
  unfold raise_if at 1, mbind at 1, res_bind at 1. destruct (Ascii.eqb _ "]"); [discriminate|].
  pose proof (vector_in_loop_fuel strtof (S (Z.to_nat VECTOR_MAX_DIM))
    (skip_space (advance (skip_space lit))) []) as Hl.
  unfold mbind at 1, res_bind at 1.
  destruct (vector_in_loop _ _ _ _) as [[pt xs]|e].
  - unfold CheckDim, CheckExpectedDim, raise_if, mbind, res_bind.
    repeat (case_match; simplify_eq; try discriminate).
  - intros [= ->]. apply Hl; [apply Nat.le_0_l| |done].
    rewrite Nat.add_0_r. apply Nat.lt_succ_diag_r.
Qed.

(** C36: text round trip: a well-formed vector is read back from the text
    [vector_out] prints, given that the shortest-decimal printer and [strtof]
    agree on its elements. *)
Theorem vector_in_out strtof show v :
  Vector_ok v -> Forall (prints_and_reads strtof show) (x v) ->
  vector_in strtof (vector_out show v) (dim v) = Ok v.
Proof.
  intros Hok Hp. destruct Hok as [Hd Hu Hl Hs Hf].
  destruct v as [vl d u xs]; simpl in *; subst.
  destruct xs as [|f ys]; [simpl in Hd; lia|].
  unfold vector_in, vector_out. rewrite append_cons, append_empty.
  rewrite raise_if_false by done. cbn [x append_elements advance skip_space].
  change (vector_isspace "[") with false. cbv iota. cbn [advance].
  rewrite append_empty, !string_app_assoc.
  pose proof Hp as Hp0. apply List.Forall_cons_iff in Hp0 as [[(c & s & Hsh & Hsp & Hbr & _) _] _].
  assert (forall t, skip_space (show f ++ t)%string = (show f ++ t)%string) as ->
    by (intros t; rewrite Hsh, append_cons; by apply skip_space_nonspace).
  rewrite raise_if_false by (rewrite Hsh, append_cons; done).
  rewrite (vector_in_loop_out strtof show ys _ [] EmptyString f);
    [|done|done|simpl List.length; cbn [List.length] in *; lia|unfold VECTOR_MAX_DIM in *; lia].
  rewrite bind_Ok. cbn [app]. rewrite raise_if_false by done.
  rewrite CheckDim_range, bind_Ok by lia.
  rewrite CheckExpectedDim_match, bind_Ok by auto.
  unfold with_x, InitVector. do 2 f_equal; simpl dim; simpl unused; simpl vl_len_.
  unfold VECTOR_MAX_DIM in *. apply i16_small. lia.
Qed.

(** the text and its terminating NUL fit the buffer [vector_out] allocates,
    when no printed number is longer than [FLOAT_SHORTEST_DECIMAL_LEN - 1]. *)
Theorem vector_out_fits show v :
  Vector_ok v ->
  Forall (fun f => Z.of_nat (String.length (show f)) <= FLOAT_SHORTEST_DECIMAL_LEN - 1) (x v) ->
  Z.of_nat (String.length (vector_out show v)) + 1 <= vector_out_alloc v.
Proof.
  assert (forall s t, String.length (s ++ t) = (String.length s + String.length t)%nat) as Happ.
  { intros s t. induction s as [|c s IH]; [done|]. rewrite append_cons. simpl. lia. }
  intros Hok Hp. unfold vector_out, vector_out_alloc. rewrite !Happ. simpl String.length.
  pose proof (ok_length _ Hok) as Hl. pose proof (ok_dim _ Hok) as Hd.
  unfold FLOAT_SHORTEST_DECIMAL_LEN in *.
  assert (forall b, Z.of_nat (String.length (append_elements show b (x v)))
    <= 16 * Z.of_nat (List.length (x v)) - (if b then 1 else 0) \/ x v = []) as Hb.
  { clear Hok Hl Hd. induction Hp as [|f xs Hf Hp IH]; [auto|].
    intros b. left. cbn [append_elements List.length]. rewrite !Happ.
    specialize (IH false). destruct b; simpl String.length; destruct IH as [IH| ->];
      cbn [append_elements List.length String.length] in *; lia. }
  destruct (Hb true) as [?|E]; [lia|]. rewrite E in Hl. simpl in Hl. lia.
Qed.

(** C37: binary round trip: [vector_recv] reads back what [vector_send] wrote,
    bit for bit, and leaves the rest of the message. *)
Theorem vector_recv_send v typmod rest :
  Vector_ok v -> representable v -> typmod = -1 \/ typmod = dim v ->
  vector_recv typmod (vector_send v ++ rest) = Ok (v, rest).
Proof.
  intros [Hd Hu Hl Hs Hf] Hr Ht.
  unfold vector_recv, vector_send. rewrite Hu. unfold VECTOR_MAX_DIM in *.
  unfold mbind at 1, M_bind at 1. rewrite <- !app_assoc, pq_getmsgint_2 by lia.
  unfold mbind at 1, M_bind at 1. rewrite pq_getmsgint_2 by lia.
  rewrite !i16_small by lia. unfold lift_res.
  unfold mbind at 1, M_bind at 1. rewrite CheckDim_range by (unfold VECTOR_MAX_DIM; lia).
  unfold mbind at 1, M_bind at 1. rewrite CheckExpectedDim_match by done.
  unfold mbind at 1, M_bind at 1. simpl raise_if.
  replace (Z.to_nat (dim v)) with (List.length (x v)) by lia.
  unfold mbind at 1, M_bind at 1, raise_if. simpl negb. cbv iota.
  unfold mbind, M_bind. rewrite recv_elements_send by done.
  unfold mret, M_ret, with_x, InitVector. simpl. rewrite i16_small by lia.
  destruct v; simpl in *; subst; done.
Qed.

(** a vector [vector_recv] accepts is well formed, whatever the message. *)
Theorem vector_recv_ok typmod msg v rest :
  vector_recv typmod msg = Ok (v, rest) ->
  Vector_ok v /\ (typmod = -1 \/ dim v = typmod).
Proof.
  unfold vector_recv. intros H.
  apply M_bind_ok in H as (d & s1 & _ & H). apply M_bind_ok in H as (u & s2 & _ & H).
  apply M_bind_ok in H as ([] & s3 & Hd & H). apply M_bind_ok in H as ([] & s4 & Ht & H).
  apply M_bind_ok in H as ([] & s5 & _ & H). apply M_bind_ok in H as (xs & s6 & Hr & H).
  unfold lift_res in Hd, Ht.
  destruct (CheckDim _) as [[]|] eqn:Ed; [|discriminate]. apply CheckDim_ok in Ed.
  destruct (CheckExpectedDim _ _) as [[]|] eqn:Et; [|discriminate].
  apply CheckExpectedDim_ok in Et. inv_ok.
  apply recv_elements_spec in Hr as [Hl Hf].
  split; [apply InitVector_with_x_ok; auto; lia|].
  simpl. rewrite (i16_small (i16 d)) by (unfold VECTOR_MAX_DIM in *; lia). intuition auto.
Qed.

(** C38: on well-formed vectors of one dimension the L2 distance is a
    non-negative number (never a NaN, though it may be infinite), symmetric to
    the last bit, and [+0] between a vector and itself. *)
Theorem vector_l2_distance_metric a b :
  Vector_ok a -> Vector_ok b -> dim a = dim b ->
  exists d, vector_l2_distance a b = Ok d /\ nonneg d /\
    vector_l2_distance b a = Ok d /\ vector_l2_distance a a = Ok dzero.
Proof.
  intros Ha Hb Hd. pose proof (ok_finite _ Ha) as Hfa. pose proof (ok_finite _ Hb) as Hfb.
  unfold vector_l2_distance. rewrite !CheckDims_same by done. rewrite !bind_Ok.
  rewrite !element_pairs_ok by done.
  eexists. split; [done|]. split; [|split].
  - apply SFsqrt_nonneg, l2_sum_nonneg; [by apply zip_finite | done].
  - by rewrite l2_sum_sym.
  - by rewrite l2_sum_same.
Qed.

(** Two distances of vectors of different dimensions are errors that
    name the two dimensions, before any arithmetic. *)
Theorem distance_dimension_error a b :
  dim a <> dim b ->
  vector_l2_distance a b = Err (ERR_different_dimensions (dim a) (dim b)) /\
  vector_cosine_distance a b = Err (ERR_different_dimensions (dim a) (dim b)).
Proof.
  intros H. unfold vector_l2_distance, vector_cosine_distance, CheckDims.
  by rewrite (proj2 (Z.eqb_neq _ _) H).
Qed.

(** C39: [vector_cmp] is a total preorder on well-formed vectors: it returns -1,
    0 or 1, its sign flips when the arguments are exchanged, and "less or
    equal" is transitive. *)
Theorem vector_cmp_total_preorder a b c :
  Vector_ok a -> Vector_ok b -> Vector_ok c ->
  (vector_cmp a b = -1 \/ vector_cmp a b = 0 \/ vector_cmp a b = 1) /\
  vector_cmp b a = - vector_cmp a b /\
  (vector_cmp a b <= 0 -> vector_cmp b c <= 0 -> vector_cmp a c <= 0).
Proof.
  intros Ha Hb Hc. unfold vector_cmp. rewrite !vector_cmp_lex by done.
  split; [apply lex_range|]. split; [apply lex_antisym|].
  apply lex_le_trans; eapply ok_finite; eauto.
Qed.


(** normalisation: on a well-formed vector [l2_normalize] fails only with a
    float overflow; what it returns is well formed, of the same dimension, and
    the zero vector when the norm is zero. *)
Theorem l2_normalize_ok a :
  Vector_ok a -> representable a ->
  match l2_normalize a with
  | Ok r => Vector_ok r /\ dim r = dim a /\
      (fgt (dsqrt (square_sum (x a))) dzero = false -> r = InitVector (dim a))
  | Err e => e = ERR_float_overflow
  end.
Proof.
  intros Ha Hr. pose proof (ok_length _ Ha) as Hl. pose proof (ok_dim _ Ha) as Hd.
  unfold l2_normalize. rewrite take_ge by lia.
  assert (nonneg (dsqrt (square_sum (x a)))) as Hn.
  { apply SFsqrt_nonneg. unfold square_sum.
    assert (nonneg dzero) as Hz by done. revert Hz. generalize dzero.
    pose proof (ok_finite _ Ha) as Hf. clear - Hf. induction Hf as [|f xs Hf Hx IH]; simpl; auto.
    intros d Hd. apply IH. unfold dadd, dmul, double_of_float. auto 6 with hnsw. }
  set (norm := dsqrt _) in *.
  destruct (fgt norm dzero) eqn:Eg.
  - unfold raise_if. destruct (existsb _ _) eqn:Ei; [done|]. rewrite bind_Ok.
    split; [|split].
    + apply InitVector_with_x_ok; [done | by rewrite length_map |].
      apply List.Forall_forall. intros g Hg.
      unfold is_finite. apply andb_true_intro. split.
      * apply in_map_iff in Hg as (f & <- & Hf).
        pose proof (ok_finite _ Ha) as Hfin. unfold representable in Hr.
        rewrite List.Forall_forall in Hfin, Hr.
        apply negb_true_iff. unfold float_of_double. apply SFldexp_not_nan.
        apply SFdiv_finite_not_nan; auto using double_of_float_finite.
      * apply negb_true_iff. apply not_true_iff_false. intros Hg'.
        apply not_true_iff_false in Ei. apply Ei. apply existsb_exists. eauto.
    + simpl. unfold VECTOR_MAX_DIM in *. by rewrite i16_small by lia.
    + discriminate.
  - split; [|split].
    + apply (InitVector_with_x_ok _ (x (InitVector (dim a)))); auto.
      * simpl. rewrite length_replicate. lia.
      * simpl. apply Forall_replicate. done.
    + simpl. unfold VECTOR_MAX_DIM in *. by rewrite i16_small by lia.
    + done.
Qed.

(** C40: the edges of the cosine distance, for well-formed vectors of every
    dimension.  The distance is symmetric.  A vector whose elements have squares
    that are 0 in [float], the zero vector among them, is at distance [0] from
    every vector.  The products are computed in [float], so a vector with an
    element whose square overflows there is at distance NaN from itself. *)
Theorem vector_cosine_distance_edge a b :
  Vector_ok a -> Vector_ok b -> dim a = dim b ->
  vector_cosine_distance b a = vector_cosine_distance a b /\
  (Forall (fun f => fmul f f = S754_zero false) (x a) -> vector_cosine_distance a b = Ok dzero) /\
  vector_cosine_distance (InitVector (dim b)) b = Ok dzero /\
  (Exists (fun f => fmul f f = S754_infinity false) (x a) -> vector_cosine_distance a a = Ok S754_nan).
Proof.
  intros Ha Hb Hd. split; [by apply cosine_sym|]. split; [by apply cosine_vanishing|]. split.
  - destruct (InitVector_ok (dim b) (ok_dim _ Hb)) as [Ho Hdim]. apply cosine_vanishing; [done|done|done|].
    simpl. by apply Forall_replicate.
  - intros He. unfold vector_cosine_distance. rewrite CheckDims_same, bind_Ok, element_pairs_ok, cosine_fold by done.
    rewrite zip_same, !product_sum_map by done. cbn [fst snd].
    by rewrite (square_sum_overflow (x a) dzero eq_refl (ok_finite _ Ha) (or_intror He)).
Qed.

(** ** Witnesses *)

(** 1.5 and 2.0 as binary32 numbers. *)
Definition f1_5 : float := S754_finite false 12582912 (-23).
Definition f2_0 : float := S754_finite false 8388608 (-22).
Definition v1_5 : Vector := with_x (InitVector 1) [f1_5].
Definition v2 : Vector := with_x (InitVector 2) [f1_5; f2_0].
Definition strtof_1_5 (pt : string) : float * nat * bool := (f1_5, 3%nat, false).
Definition show_1_5 (f : float) : string := "1.5".

Lemma v1_5_ok : Vector_ok v1_5.
Proof. split; [vm_compute; split; discriminate | done | done | done | repeat constructor]. Defined.

Lemma v2_ok : Vector_ok v2.
Proof. split; [vm_compute; split; discriminate | done | done | done | repeat constructor]. Defined.

Lemma vector_in_ok_witness :
  vector_in strtof_1_5 " [1.5]" 1 = Ok v1_5 /\ Vector_ok v1_5 /\ (1 = -1 \/ dim v1_5 = 1).
Proof.
  split; [reflexivity|]. apply (vector_in_ok strtof_1_5 " [1.5]" 1). reflexivity.
Defined.

Lemma vector_in_out_witness :
  vector_in strtof_1_5 (vector_out show_1_5 v1_5) 1 = Ok v1_5.
Proof.
  apply (vector_in_out strtof_1_5 show_1_5 v1_5); [exact v1_5_ok|].
  repeat constructor.
  - exists "1"%char, ".5"%string. auto.
Defined.

Lemma vector_out_fits_witness :
  Z.of_nat (String.length (vector_out show_1_5 v1_5)) + 1 <= vector_out_alloc v1_5.
Proof.
  apply vector_out_fits; [exact v1_5_ok|]. repeat constructor. discriminate.
Defined.

Lemma vector_recv_send_witness : vector_recv 2 (vector_send v2 ++ [7]) = Ok (v2, [7]).
Proof.
  apply vector_recv_send; [exact v2_ok | repeat constructor | auto].
Defined.

Lemma vector_recv_ok_witness : Vector_ok v2 /\ (2 = -1 \/ dim v2 = 2).
Proof. apply (vector_recv_ok 2 (vector_send v2) v2 []). reflexivity. Defined.

Lemma vector_l2_distance_metric_witness :
  exists d, vector_l2_distance v2 v2 = Ok d /\ nonneg d /\
    vector_l2_distance v2 v2 = Ok d /\ vector_l2_distance v2 v2 = Ok dzero.
Proof. apply (vector_l2_distance_metric v2 v2); auto using v2_ok. Defined.

Lemma distance_dimension_error_witness :
  vector_l2_distance v1_5 v2 = Err (ERR_different_dimensions 1 2) /\
  vector_cosine_distance v1_5 v2 = Err (ERR_different_dimensions 1 2).
Proof. apply (distance_dimension_error v1_5 v2). discriminate. Defined.

Lemma vector_cmp_total_preorder_witness :
  (vector_cmp v1_5 v2 = -1 \/ vector_cmp v1_5 v2 = 0 \/ vector_cmp v1_5 v2 = 1) /\
  vector_cmp v2 v1_5 = - vector_cmp v1_5 v2 /\
  (vector_cmp v1_5 v2 <= 0 -> vector_cmp v2 v2 <= 0 -> vector_cmp v1_5 v2 <= 0).
Proof.
  apply (vector_cmp_total_preorder v1_5 v2 v2); auto using v1_5_ok, v2_ok.
Defined.

Lemma l2_normalize_ok_witness :
  match l2_normalize v2 with
  | Ok r => Vector_ok r /\ dim r = dim v2 /\
      (fgt (dsqrt (square_sum (x v2))) dzero = false -> r = InitVector (dim v2))
  | Err e => e = ERR_float_overflow
  end.
Proof. apply (l2_normalize_ok v2); [exact v2_ok | repeat constructor]. Defined.

(** 2^64, whose square is too large for a [float]. *)
Definition f2_64 : float := S754_finite false 8388608 41.
Definition v2_large : Vector := with_x (InitVector 2) [f1_5; f2_64].

Lemma vector_cosine_distance_edge_witness :
  vector_cosine_distance v2 v2_large = vector_cosine_distance v2_large v2 /\
  vector_cosine_distance (InitVector 2) v2 = Ok dzero /\ vector_cosine_distance v2_large v2_large = Ok S754_nan.
Proof.
  destruct (vector_cosine_distance_edge v2_large v2) as (H1 & _ & H2 & H3).
  - split; [vm_compute; split; discriminate | done | done | done | repeat constructor].
  - exact v2_ok.
  - reflexivity.
  - split; [exact H1|]. split; [exact H2|]. apply H3. right. left. reflexivity.
Defined.
