(* ===== verification/PairingHeap.v ===== *)
(** * Pairing heaps

    src/pgvec/src/backend/lib/pairingheap.c: the priority queue of the layer
    search.  A node and the list its [first_child] and [next_sibling] pointers
    form is a tree; [prev_or_parent] is the position of the node in it.  The
    datum is the structure the node is embedded in. *)

From S2P Require Import Prelude.
#[local] Set Warnings "-register-all".

(** ** Data *)

Inductive node (A : Type) : Type :=
  | Node (datum : A) (children : list (node A)).
Arguments Node {A} datum children.

(** [ph_arg] is closed over by the comparator. *)
Record pairingheap (A : Type) : Type := mkHeap {
  ph_compare : A -> A -> Z;
  ph_root : option (node A)
}.
Arguments mkHeap {A} _ _.
Arguments ph_compare {A} _.
Arguments ph_root {A} _.

Definition datum {A} (n : node A) : A := let 'Node a _ := n in a.
Definition first_child {A} (n : node A) : list (node A) := let 'Node _ cs := n in cs.

Definition with_root {A} (h : pairingheap A) (r : option (node A)) : pairingheap A :=
  mkHeap (ph_compare h) r.

(** ** Operations *)

Definition pairingheap_allocate {A} (compare : A -> A -> Z) : pairingheap A :=
  mkHeap compare None.

Definition pairingheap_reset {A} (h : pairingheap A) : pairingheap A := with_root h None.

Definition pairingheap_is_empty {A} (h : pairingheap A) : bool :=
  match ph_root h with None => true | Some _ => false end.

Definition pairingheap_is_singular {A} (h : pairingheap A) : bool :=
  match ph_root h with Some (Node _ []) => true | _ => false end.

(** [merge] of two nodes that are not NULL: the smaller becomes the first child
    of the larger. *)
Definition merge_nodes {A} (cmp : A -> A -> Z) (a b : node A) : node A :=
  let '(a, b) := if cmp (datum a) (datum b) <? 0 then (b, a) else (a, b) in
  Node (datum a) (b :: first_child a).

Definition merge {A} (cmp : A -> A -> Z) (a b : option (node A)) : option (node A) :=
  match a, b with
  | None, _ => b
  | _, None => a
  | Some a, Some b => Some (merge_nodes cmp a b)
  end.

(** The first pass of [merge_children]: the pairs from left to right, each put
    at the front of the list [pairs]. *)
Fixpoint merge_pairs {A} (cmp : A -> A -> Z) (children pairs : list (node A)) : list (node A) :=
  match children with
  | [] => pairs
  | [curr] => curr :: pairs
  | curr :: next :: rest => merge_pairs cmp rest (merge_nodes cmp curr next :: pairs)
  end.

Definition merge_children {A} (cmp : A -> A -> Z) (children : list (node A)) : option (node A) :=
  match children with
  | [] => None
  | [c] => Some c
  | _ =>
      match merge_pairs cmp children [] with
      | [] => None
      | newroot :: rest => Some (fold_left (merge_nodes cmp) rest newroot)
      end
  end.

Definition pairingheap_add {A} (h : pairingheap A) (a : A) : pairingheap A :=
  with_root h (merge (ph_compare h) (ph_root h) (Some (Node a []))).

(** The root of an empty heap is a NULL pointer. *)
Definition pairingheap_first {A} (h : pairingheap A) : res A :=
  match ph_root h with
  | Some n => Ok (datum n)
  | None => Err UndefinedBehaviour
  end.

Definition pairingheap_remove_first {A} (h : pairingheap A) : res (A * pairingheap A) :=
  match ph_root h with
  | Some n => Ok (datum n, with_root h (merge_children (ph_compare h) (first_child n)))
  | None => Err UndefinedBehaviour
  end.

(** [pairingheap_remove] below the root: the removed node, recognised by
    [is_node], is replaced in its list by the heap of its children. *)
Fixpoint remove_below {A} (cmp : A -> A -> Z) (is_node : A -> bool) (n : node A) : node A :=
  let 'Node x children := n in
  Node x
    ((fix go (l : list (node A)) : list (node A) :=
        match l with
        | [] => []
        | c :: next_sibling =>
            if is_node (datum c) then
              match merge_children cmp (first_child c) with
              | Some replacement => replacement :: next_sibling
              | None => next_sibling
              end
            else remove_below cmp is_node c :: go next_sibling
        end) children).

Definition pairingheap_remove {A} (h : pairingheap A) (is_node : A -> bool) : pairingheap A :=
  match ph_root h with
  | None => h
  | Some n =>
      if is_node (datum n) then with_root h (merge_children (ph_compare h) (first_child n))
      else with_root h (Some (remove_below (ph_compare h) is_node n))
  end.

(** [while (!pairingheap_is_empty(h)) l = lappend(l, pairingheap_remove_first(h));] *)
Fixpoint pairingheap_drain {A} (fuel : nat) (h : pairingheap A) : res (list A) :=
  match fuel with
  | O => if pairingheap_is_empty h then Ok [] else Err OutOfFuel
  | S fuel' =>
      if pairingheap_is_empty h then Ok []
      else '(a, h') ← pairingheap_remove_first h ;
           l ← pairingheap_drain fuel' h' ;
           Ok (a :: l)
  end.

(** ** Specification: the elements of a heap, and the heap order *)

Fixpoint node_elems {A} (n : node A) : list A :=
  let 'Node x cs := n in x :: flat_map node_elems cs.

Definition heap_elems {A} (h : pairingheap A) : list A :=
  match ph_root h with Some n => node_elems n | None => [] end.

Definition heap_size {A} (h : pairingheap A) : nat := length (heap_elems h).

(** The contract of a comparator, on the data that satisfy [P]. *)
Class HeapComparator {A} (P : A -> Prop) (cmp : A -> A -> Z) : Prop := {
  cmp_flip : forall a b, P a -> P b -> cmp a b < 0 -> 0 <= cmp b a;
  cmp_trans : forall a b c, P a -> P b -> P c ->
    0 <= cmp a b -> 0 <= cmp b c -> 0 <= cmp a c
}.

Inductive node_ok {A} (cmp : A -> A -> Z) : node A -> Prop :=
  | node_ok_intro x cs :
      Forall (node_ok cmp) cs ->
      Forall (fun c => 0 <= cmp x (datum c)) cs ->
      node_ok cmp (Node x cs).

Definition heap_ok {A} (h : pairingheap A) : Prop :=
  match ph_root h with Some n => node_ok (ph_compare h) n | None => True end.

(** ** Lemmas *)

Fixpoint node_ind' {A} (P : node A -> Prop)
    (H : forall x cs, Forall P cs -> P (Node x cs)) (n : node A) : P n :=
  let 'Node x cs := n in
  H x cs ((fix go l : Forall P l :=
             match l with
             | [] => Forall_nil_2 P
             | c :: l' => Forall_cons_2 P c l' (node_ind' P H c) (go l')
             end) cs).

Lemma node_elems_datum {A} (n : node A) : node_elems n = datum n :: flat_map node_elems (first_child n).
Proof. by destruct n. Qed.

Lemma merge_nodes_elems {A} cmp (a b : node A) :
  node_elems (merge_nodes cmp a b) ≡ₚ node_elems a ++ node_elems b.
Proof.
  unfold merge_nodes. destruct a as [x xs], b as [y ys]. simpl.
  destruct (_ <? 0); simpl.
  - solve_Permutation.
  - solve_Permutation.
Qed.

Lemma merge_elems {A} cmp (a b : option (node A)) :
  from_option node_elems [] (merge cmp a b) ≡ₚ from_option node_elems [] a ++ from_option node_elems [] b.
Proof.
  destruct a, b; simpl; rewrite ?app_nil_r; auto using merge_nodes_elems.
Qed.

Fixpoint list_pair_ind {B} (P : list B -> Prop) (H0 : P []) (H1 : forall c, P [c])
    (H2 : forall c1 c2 l, P l -> P (c1 :: c2 :: l)) (l : list B) : P l :=
  match l with
  | [] => H0
  | [c] => H1 c
  | c1 :: c2 :: l' => H2 c1 c2 l' (list_pair_ind P H0 H1 H2 l')
  end.

Lemma merge_pairs_elems {A} cmp (l acc : list (node A)) :
  flat_map node_elems (merge_pairs cmp l acc) ≡ₚ flat_map node_elems l ++ flat_map node_elems acc.
Proof.
  revert acc. induction l as [|c|c1 c2 l IH] using list_pair_ind; intros acc; simpl.
  - done.
  - by rewrite app_nil_r.
  - rewrite IH. simpl. rewrite merge_nodes_elems. solve_Permutation.
Qed.

Lemma fold_merge_elems {A} cmp (l : list (node A)) n :
  node_elems (fold_left (merge_nodes cmp) l n) ≡ₚ node_elems n ++ flat_map node_elems l.
Proof.
  revert n. induction l as [|c l IH]; intros n; simpl; [by rewrite app_nil_r|].
  rewrite IH, merge_nodes_elems. by rewrite app_assoc.
Qed.

Lemma merge_children_elems {A} cmp (cs : list (node A)) :
  from_option node_elems [] (merge_children cmp cs) ≡ₚ flat_map node_elems cs.
Proof.
  unfold merge_children. destruct cs as [|c1 [|c2 cs]]; [done | simpl; by rewrite app_nil_r |].
  pose proof (merge_pairs_elems cmp (c1 :: c2 :: cs) []) as H.
  destruct (merge_pairs _ _ _) as [|n l]; simpl in H.
  - by rewrite app_nil_r in H.
  - simpl. by rewrite fold_merge_elems, H, app_nil_r.
Qed.

(** ** The heap order *)

Section Order.
Context {A : Type} (P : A -> Prop) (cmp : A -> A -> Z) `{Hcmp : HeapComparator A P cmp}.

#[local] Abbreviation good n := (Forall P (node_elems n) /\ node_ok cmp n).

Lemma cmp_refl x : P x -> 0 <= cmp x x.
Proof using Hcmp. intros Hx. destruct (Z_lt_le_dec (cmp x x) 0); [|done]. by apply cmp_flip. Qed.

Lemma node_ok_root n x :
  good n -> x ∈ node_elems n -> 0 <= cmp (datum n) x.
Proof using Hcmp.
  revert x. induction n as [y cs IH] using node_ind'. intros x [HP Hok] Hx. simpl in *.
  inversion Hok as [? ? Hcs Hle]; subst. apply List.Forall_cons_iff in HP as [Hy HP].
  apply elem_of_cons in Hx as [->|Hx]; [by apply cmp_refl|].
  apply list_elem_of_In, in_flat_map in Hx as (c & Hc & Hx).
  apply list_elem_of_In in Hx.
  apply List.Forall_flat_map in HP. rewrite List.Forall_forall in IH, Hcs, Hle, HP.
  assert (P (datum c)).
  { specialize (HP c Hc). rewrite node_elems_datum in HP. by apply List.Forall_cons_iff in HP as [? _]. }
  assert (P x).
  { specialize (HP c Hc). rewrite List.Forall_forall in HP. by apply HP, list_elem_of_In. }
  apply (cmp_trans y (datum c) x); auto.
Qed.

Lemma merge_nodes_good a b : good a -> good b -> good (merge_nodes cmp a b).
Proof using Hcmp.
  intros [HPa Ha] [HPb Hb]. split.
  { rewrite merge_nodes_elems. by apply Forall_app_2. }
  unfold merge_nodes. destruct a as [x xs], b as [y ys]. cbn [datum first_child].
  inversion Ha; subst. inversion Hb; subst.
  assert (P x /\ P y) as [Hx Hy] by (inversion HPa; inversion HPb; done).
  destruct (Z.ltb_spec (cmp x y) 0); cbn [datum first_child].
  - constructor; constructor; auto. simpl. by apply cmp_flip.
  - constructor; constructor; auto.
Qed.

Lemma merge_pairs_good l acc :
  Forall (fun n => good n) l -> Forall (fun n => good n) acc ->
  Forall (fun n => good n) (merge_pairs cmp l acc).
Proof using Hcmp.
  revert acc. induction l as [|c|c1 c2 l IH] using list_pair_ind; simpl; intros acc Hl Hacc.
  - done.
  - inversion Hl; subst. by constructor.
  - inversion Hl as [|? ? H1 Hl']; subst. inversion Hl' as [|? ? H2 Hl'']; subst.
    apply IH; auto. constructor; auto. by apply merge_nodes_good.
Qed.

Lemma fold_merge_good l n :
  good n -> Forall (fun n => good n) l -> good (fold_left (merge_nodes cmp) l n).
Proof using Hcmp.
  revert n. induction l as [|c l IH]; simpl; intros n Hn Hl; [done|].
  inversion Hl; subst. apply IH; auto. by apply merge_nodes_good.
Qed.

Lemma merge_children_good l n :
  Forall (fun n => good n) l -> merge_children cmp l = Some n -> good n.
Proof using Hcmp.
  unfold merge_children. destruct l as [|c [|c2 l]]; intros Hl H; [done| |].
  - injection H as <-. by inversion Hl.
  - destruct (merge_pairs _ _ _) as [|n0 l0] eqn:E; [done|]. injection H as <-.
    pose proof (merge_pairs_good (c :: c2 :: l) [] Hl (Forall_nil_2 _)) as Hp.
    rewrite E in Hp. inversion Hp; subst. by apply fold_merge_good.
Qed.

Lemma good_children x cs : good (Node x cs) -> Forall (fun n => good n) cs.
Proof using Type.
  intros [HP Hok]. inversion Hok as [? ? Hcs _]; subst. simpl in HP.
  apply List.Forall_cons_iff in HP as [_ HP]. apply List.Forall_flat_map in HP.
  by apply List.Forall_and.
Qed.
End Order.

(** The heaps whose data satisfy [P] and whose comparator is a preorder there. *)
Definition heap_valid {A} (P : A -> Prop) (h : pairingheap A) : Prop :=
  HeapComparator P (ph_compare h) /\ Forall P (heap_elems h) /\ heap_ok h.

Lemma heap_valid_good {A} (P : A -> Prop) (h : pairingheap A) n :
  ph_root h = Some n ->
  heap_valid P h <-> HeapComparator P (ph_compare h) /\ (Forall P (node_elems n) /\ node_ok (ph_compare h) n).
Proof. unfold heap_valid, heap_elems, heap_ok. by intros ->. Qed.

Lemma allocate_valid {A} (P : A -> Prop) cmp :
  HeapComparator P cmp -> heap_valid P (pairingheap_allocate cmp).
Proof. unfold heap_valid, heap_ok; simpl. auto. Qed.

Lemma is_empty_elems {A} (h : pairingheap A) :
  pairingheap_is_empty h = true <-> heap_elems h = [].
Proof.
  unfold pairingheap_is_empty, heap_elems. destruct (ph_root h) as [[x cs]|]; simpl; split; done.
Qed.

Lemma add_elems {A} (h : pairingheap A) a :
  heap_elems (pairingheap_add h a) ≡ₚ a :: heap_elems h.
Proof.
  unfold pairingheap_add, heap_elems. simpl.
  destruct (ph_root h) as [n|]; [|done]. unfold merge. rewrite merge_nodes_elems. simpl.
  solve_Permutation.
Qed.

Lemma add_valid {A} (P : A -> Prop) (h : pairingheap A) a :
  heap_valid P h -> P a -> heap_valid P (pairingheap_add h a).
Proof.
  intros (Hc & HP & Hok) Ha. split; [done|]. split.
  { rewrite add_elems. by constructor. }
  unfold pairingheap_add, heap_ok in *. unfold heap_elems in HP. simpl in *.
  assert (Hn : Forall P (node_elems (Node a [])) /\ node_ok (ph_compare h) (Node a [])).
  { split; repeat constructor; auto. }
  destruct (ph_root h) as [n|]; simpl; [|apply Hn].
  by apply (merge_nodes_good P).
Qed.

(** What the removal of the root gives: a maximum, and the heap of the rest. *)
Lemma remove_first_spec {A} (P : A -> Prop) (h : pairingheap A) :
  heap_valid P h -> pairingheap_is_empty h = false ->
  exists a h', pairingheap_remove_first h = Ok (a, h') /\
    pairingheap_first h = Ok a /\
    ph_compare h' = ph_compare h /\
    heap_elems h ≡ₚ a :: heap_elems h' /\
    (forall x, x ∈ heap_elems h -> 0 <= ph_compare h a x) /\
    heap_valid P h'.
Proof.
  intros Hv Hne. unfold pairingheap_is_empty in Hne.
  destruct (ph_root h) as [[x cs]|] eqn:E; [|done].
  apply (heap_valid_good P h _ E) in Hv. destruct Hv as [Hc Hn].
  unfold pairingheap_remove_first, pairingheap_first. rewrite E. cbn [datum first_child].
  exists x, (with_root h (merge_children (ph_compare h) cs)).
  pose proof (merge_children_elems (ph_compare h) cs) as He.
  assert (Hel : heap_elems (with_root h (merge_children (ph_compare h) cs)) ≡ₚ flat_map node_elems cs).
  { rewrite <- He. unfold heap_elems, with_root; cbn [ph_root]. by destruct (merge_children _ _). }
  unfold heap_valid; split_and!; auto.
  - unfold heap_elems at 1. rewrite E. simpl. by rewrite Hel.
  - intros y Hy. unfold heap_elems in Hy. rewrite E in Hy. by apply (node_ok_root P _ (Node x cs)).
  - rewrite Hel. destruct Hn as [Hn _]. simpl in Hn. by inversion Hn.
  - unfold heap_ok, with_root; cbn [ph_root ph_compare].
    destruct (merge_children _ _) as [n|] eqn:Em; [|done].
    apply (merge_children_good P) in Em; [tauto|done|]. by apply good_children in Hn.
Qed.

(** ** [pairingheap_remove] *)

Definition marked {A} (is_node : A -> bool) (l : list A) : list A :=
  filter (fun x => is_node x = true) l.
Definition unmarked {A} (is_node : A -> bool) (l : list A) : list A :=
  filter (fun x => is_node x = false) l.

Lemma unmarked_all {A} (is_node : A -> bool) l : marked is_node l = [] -> unmarked is_node l = l.
Proof.
  unfold marked, unmarked. induction l as [|x l IH]; [done|].
  rewrite !filter_cons. destruct (is_node x) eqn:E; simpl; intros H; [done|]. by rewrite IH.
Qed.

(** The list [remove_below] makes of the children of a node. *)
Fixpoint remove_among {A} (cmp : A -> A -> Z) (is_node : A -> bool) (l : list (node A)) : list (node A) :=
  match l with
  | [] => []
  | c :: next_sibling =>
      if is_node (datum c) then
        match merge_children cmp (first_child c) with
        | Some replacement => replacement :: next_sibling
        | None => next_sibling
        end
      else remove_below cmp is_node c :: remove_among cmp is_node next_sibling
  end.

Lemma remove_below_eq {A} cmp is_node (x : A) cs :
  remove_below cmp is_node (Node x cs) = Node x (remove_among cmp is_node cs).
Proof. simpl. f_equal. induction cs as [|c cs IH]; simpl; [done|]. by rewrite IH. Qed.

Lemma remove_below_datum {A} cmp is_node (n : node A) : datum (remove_below cmp is_node n) = datum n.
Proof. by destruct n. Qed.

Lemma remove_below_elems {A} cmp is_node (n : node A) :
  is_node (datum n) = false -> (length (marked is_node (node_elems n)) <= 1)%nat ->
  node_elems (remove_below cmp is_node n) ≡ₚ unmarked is_node (node_elems n).
Proof.
  induction n as [x cs IH] using node_ind'. rewrite remove_below_eq. cbn [datum node_elems].
  intros Hx. unfold marked, unmarked. rewrite !filter_cons, Hx. simpl. intros Hl. constructor.
  induction IH as [|c cs Hc _ IHcs]; simpl in *; [done|].
  rewrite list.filter_app, length_app in Hl.
  rewrite list.filter_app. rewrite (node_elems_datum c) in Hl |- *.
  destruct (is_node (datum c)) eqn:Ec.
  - rewrite !filter_cons, Ec in Hl |- *. simpl in Hl |- *.
    assert (marked is_node (flat_map node_elems (first_child c)) = []) as H1
      by (apply length_zero_iff_nil; unfold marked; lia).
    assert (marked is_node (flat_map node_elems cs) = []) as H2
      by (apply length_zero_iff_nil; unfold marked; lia).
    apply unmarked_all in H1, H2. unfold unmarked in H1, H2. rewrite H1, H2.
    pose proof (merge_children_elems cmp (first_child c)) as He.
    destruct (merge_children _ _); simpl in *; by rewrite <- He.
  - simpl. rewrite <- node_elems_datum in Hl |- *. rewrite Hc, IHcs; auto; unfold marked; lia.
Qed.

Section RemoveOrder.
Context {A : Type} (P : A -> Prop) (cmp : A -> A -> Z) `{Hcmp : HeapComparator A P cmp}.

Lemma merge_children_root_le x cs r :
  P x -> Forall (fun n => Forall P (node_elems n) /\ node_ok cmp n) cs ->
  Forall (fun c => 0 <= cmp x (datum c)) cs -> merge_children cmp cs = Some r ->
  0 <= cmp x (datum r).
Proof using Hcmp.
  intros Hx Hg Hle Hr.
  assert (Hin : datum r ∈ flat_map node_elems cs).
  { rewrite <- (merge_children_elems cmp), Hr. simpl. rewrite node_elems_datum. left. }
  apply list_elem_of_In, in_flat_map in Hin as (c & Hc & Hin).
  rewrite List.Forall_forall in Hg, Hle. destruct (Hg c Hc) as [HP Hok].
  apply (cmp_trans x (datum c)); auto.
  - rewrite node_elems_datum in HP. by apply List.Forall_cons_iff in HP as [? _].
  - rewrite List.Forall_forall in HP. auto.
  - apply (node_ok_root P cmp c); [done|]. by apply list_elem_of_In.
Qed.

Lemma remove_below_ok is_node n :
  Forall P (node_elems n) -> node_ok cmp n -> node_ok cmp (remove_below cmp is_node n).
Proof using Hcmp.
  induction n as [x cs IH] using node_ind'. intros HP Hok. rewrite remove_below_eq.
  pose proof (good_children P cmp x cs (conj HP Hok)) as Hg.
  simpl in HP. apply List.Forall_cons_iff in HP as [Hx HP].
  inversion Hok as [? ? Hcs Hle]; subst. clear Hok HP.
  assert (Forall (node_ok cmp) (remove_among cmp is_node cs) /\
          Forall (fun c => 0 <= cmp x (datum c)) (remove_among cmp is_node cs)) as [H1 H2];
    [|by constructor].
  induction cs as [|c cs IHcs]; simpl; [done|].
  inversion IH as [|? ? IHc IH']; inversion Hg as [|? ? [HPc _] Hg'];
    inversion Hcs as [|? ? Hc Hcs']; inversion Hle as [|? ? Hlec Hle']; subst.
  destruct (is_node (datum c)).
  - destruct (merge_children _ _) as [r|] eqn:Er; [|done].
    destruct c as [y ys].
    pose proof (good_children P cmp y ys (conj HPc Hc)) as Hgc.
    inversion Hc; subst. simpl in HPc. apply List.Forall_cons_iff in HPc as [Hy HPys].
    split; constructor; auto.
    + by apply (merge_children_good P cmp ys).
    + apply (cmp_trans x y); auto; [|by eapply merge_children_root_le].
      assert (Hr : Forall P (node_elems r)) by (by eapply (merge_children_good P cmp ys)).
      rewrite node_elems_datum in Hr. by apply List.Forall_cons_iff in Hr as [? _].
  - destruct IHcs as [? ?]; auto. split; constructor; auto. by rewrite remove_below_datum.
Qed.
End RemoveOrder.

Lemma remove_spec {A} (P : A -> Prop) (h : pairingheap A) is_node :
  heap_valid P h -> (length (marked is_node (heap_elems h)) <= 1)%nat ->
  heap_elems (pairingheap_remove h is_node) ≡ₚ unmarked is_node (heap_elems h) /\
  heap_valid P (pairingheap_remove h is_node).
Proof.
  intros Hv Hone.
  assert (Hel : heap_elems (pairingheap_remove h is_node) ≡ₚ unmarked is_node (heap_elems h)).
  { unfold pairingheap_remove. unfold heap_elems in *. destruct (ph_root h) as [n|] eqn:E.
    2: by rewrite E.
    destruct (is_node (datum n)) eqn:En; simpl; [|by apply remove_below_elems].
    rewrite node_elems_datum in Hone |- *. unfold unmarked, marked in *.
    rewrite filter_cons, En in Hone |- *. simpl in *.
    pose proof (merge_children_elems (ph_compare h) (first_child n)) as He.
    rewrite (unmarked_all is_node _ : marked is_node _ = [] -> filter _ _ = _)
      by (apply length_zero_iff_nil; unfold marked; lia).
    rewrite <- He. by destruct (merge_children _ _). }
  split; [done|]. unfold heap_valid. rewrite Hel.
  destruct Hv as (Hc & HP & Hok).
  assert (ph_compare (pairingheap_remove h is_node) = ph_compare h) as Hcmp.
  { unfold pairingheap_remove. destruct (ph_root h); [destruct (is_node _)|]; done. }
  rewrite Hcmp. split_and!; [done| |].
  { apply List.Forall_forall. intros y Hy. apply list_elem_of_In, list_elem_of_filter in Hy as [_ Hy].
    rewrite list.Forall_forall in HP. auto. }
  unfold heap_ok, heap_elems in *. rewrite Hcmp. unfold pairingheap_remove.
  destruct (ph_root h) as [n|] eqn:E; [|by rewrite E].
  destruct (is_node (datum n)); simpl; [|by apply (remove_below_ok P)].
  destruct (merge_children _ _) as [r|] eqn:Er; [|done].
  eapply (merge_children_good P _ _ r); [|exact Er]. destruct n as [x cs]. by eapply good_children.
Qed.

(** ** Draining a heap *)

Lemma drain_spec {A} (P : A -> Prop) fuel (h : pairingheap A) :
  heap_valid P h -> (heap_size h <= fuel)%nat ->
  exists l, pairingheap_drain fuel h = Ok l /\ l ≡ₚ heap_elems h /\
    StronglySorted (fun a b => 0 <= ph_compare h a b) l.
Proof.
  revert h. induction fuel as [|fuel IH]; intros h Hv Hs; simpl.
  - unfold heap_size in Hs. apply Nat.le_0_r, length_zero_iff_nil in Hs.
    rewrite (proj2 (is_empty_elems h) Hs), Hs. exists []. repeat constructor.
  - destruct (pairingheap_is_empty h) eqn:E.
    { apply is_empty_elems in E. rewrite E. exists []. repeat constructor. }
    destruct (remove_first_spec P h Hv E) as (a & h' & Hr & _ & Hc & Hp & Hmax & Hv').
    rewrite Hr. simpl. unfold heap_size in Hs. rewrite Hp in Hs. simpl in Hs.
    destruct (IH h' Hv') as (l & Hl & Hpl & Hsl); [unfold heap_size; lia|].
    rewrite Hl. exists (a :: l). split_and!; [done| |].
    + by rewrite Hp, Hpl.
    + constructor; [by rewrite <- Hc|]. apply List.Forall_forall. intros x Hx.
      apply Hmax. rewrite Hp. right. rewrite <- Hpl. by apply list_elem_of_In.
Qed.

(** The heap a sequence of [pairingheap_add] makes. *)
Definition heap_of_list {A} (cmp : A -> A -> Z) (l : list A) : pairingheap A :=
  fold_left pairingheap_add l (pairingheap_allocate cmp).

Lemma fold_add_spec {A} (P : A -> Prop) l (h : pairingheap A) :
  heap_valid P h -> Forall P l ->
  heap_valid P (fold_left pairingheap_add l h) /\
  heap_elems (fold_left pairingheap_add l h) ≡ₚ heap_elems h ++ l /\
  ph_compare (fold_left pairingheap_add l h) = ph_compare h.
Proof.
  revert h. induction l as [|a l IH]; intros h Hv Hl; simpl.
  - by rewrite app_nil_r.
  - apply List.Forall_cons_iff in Hl as [Ha Hl].
    destruct (IH (pairingheap_add h a) (add_valid P h a Hv Ha) Hl) as (H1 & H2 & H3).
    split_and!; [done| |by rewrite H3]. rewrite H2, add_elems. solve_Permutation.
Qed.

(** ** Heaps of related data

    Two heaps with the same shape and related data, whose comparators agree on
    related data: every operation keeps them so. *)

Section Related.
Context {A B : Type} (R : A -> B -> Prop) (cmpA : A -> A -> Z) (cmpB : B -> B -> Z).

Inductive node_rel : node A -> node B -> Prop :=
  | node_rel_intro x y cs ds : R x y -> Forall2 node_rel cs ds -> node_rel (Node x cs) (Node y ds).

Inductive heap_rel : pairingheap A -> pairingheap B -> Prop :=
  | heap_rel_none : heap_rel (mkHeap cmpA None) (mkHeap cmpB None)
  | heap_rel_some n n' : node_rel n n' -> heap_rel (mkHeap cmpA (Some n)) (mkHeap cmpB (Some n')).

Context (Hcmp : forall a b a' b', R a b -> R a' b' -> cmpA a a' = cmpB b b').

Lemma node_rel_datum n n' : node_rel n n' -> R (datum n) (datum n').
Proof using Type. by destruct 1. Qed.

Lemma merge_nodes_rel a b a' b' : node_rel a a' -> node_rel b b' ->
  node_rel (merge_nodes cmpA a b) (merge_nodes cmpB a' b').
Proof using Hcmp.
  intros [x y cs ds Hxy Hcs] [x' y' cs' ds' Hxy' Hcs']. unfold merge_nodes. cbn [datum].
  rewrite (Hcmp x y x' y' Hxy Hxy'). destruct (_ <? 0); cbn [datum first_child];
    (constructor; [done|]; constructor; [by constructor|done]).
Qed.

Lemma merge_pairs_rel l acc l' acc' : Forall2 node_rel l l' -> Forall2 node_rel acc acc' ->
  Forall2 node_rel (merge_pairs cmpA l acc) (merge_pairs cmpB l' acc').
Proof using Hcmp.
  revert acc l' acc'. induction l as [|c|c1 c2 l IH] using list_pair_ind; intros acc l' acc' Hl Hacc;
    inversion Hl as [|? c' ? l1 Hc Hl1]; subst; simpl; [done|inversion Hl1; subst; by constructor|].
  inversion Hl1; subst. apply IH; [done|]. constructor; [|done]. by apply merge_nodes_rel.
Qed.

Lemma fold_merge_rel l n l' n' : Forall2 node_rel l l' -> node_rel n n' ->
  node_rel (fold_left (merge_nodes cmpA) l n) (fold_left (merge_nodes cmpB) l' n').
Proof using Hcmp.
  intros Hl. revert n n'. induction Hl; simpl; intros n n' Hn; [done|]. auto using merge_nodes_rel.
Qed.

Lemma merge_children_rel l l' : Forall2 node_rel l l' ->
  option_Forall2 node_rel (merge_children cmpA l) (merge_children cmpB l').
Proof using Hcmp.
  intros Hl. pose proof (merge_pairs_rel l [] l' [] Hl ltac:(constructor)) as Hp. unfold merge_children.
  destruct Hl as [|c c' l l' Hc Hl]; [constructor|]. destruct Hl as [|c2 c2' l l' Hc2 Hl]; [by constructor|].
  destruct Hp; constructor. by apply fold_merge_rel.
Qed.

Lemma heap_rel_add h h' a b : heap_rel h h' -> R a b ->
  heap_rel (pairingheap_add h a) (pairingheap_add h' b).
Proof using Hcmp.
  intros Hh Hab. destruct Hh as [|n n' Hn]; unfold pairingheap_add, with_root; simpl;
    constructor; [by constructor|]. apply merge_nodes_rel; [done|by constructor].
Qed.

Lemma heap_rel_is_empty h h' : heap_rel h h' -> pairingheap_is_empty h = pairingheap_is_empty h'.
Proof using Type. by destruct 1. Qed.

Lemma heap_rel_first h h' : heap_rel h h' ->
  match pairingheap_first h, pairingheap_first h' with
  | Ok a, Ok b => R a b
  | Err e, Err e' => e = e'
  | _, _ => False
  end.
Proof using Type. destruct 1; simpl; [done|]. by apply node_rel_datum. Qed.

Lemma heap_rel_remove_first h h' : heap_rel h h' ->
  match pairingheap_remove_first h, pairingheap_remove_first h' with
  | Ok (a, h1), Ok (b, h1') => R a b /\ heap_rel h1 h1'
  | Err e, Err e' => e = e'
  | _, _ => False
  end.
Proof using Hcmp.
  destruct 1 as [|n n' Hn]; [done|]. cbn. split; [by apply node_rel_datum|].
  destruct Hn as [x y cs ds _ Hcs]. unfold with_root; cbn [first_child ph_compare].
  pose proof (merge_children_rel cs ds Hcs) as Hm. by destruct Hm; constructor.
Qed.

Lemma node_rel_elems n n' : node_rel n n' -> Forall2 R (node_elems n) (node_elems n').
Proof using Type.
  revert n'. induction n as [x cs IH] using node_ind'. intros n' Hn.
  inversion Hn as [? y ? ds Hxy Hcs]; subst. simpl. constructor; [done|]. clear Hn.
  induction Hcs as [|c d cs ds Hc _ IHl]; simpl; [done|]. inversion IH; subst. apply Forall2_app; auto.
Qed.

Lemma heap_rel_elems h h' : heap_rel h h' -> Forall2 R (heap_elems h) (heap_elems h').
Proof using Type. destruct 1; [done|]. by apply node_rel_elems. Qed.

Lemma heap_rel_drain fuel h h' : heap_rel h h' ->
  match pairingheap_drain fuel h, pairingheap_drain fuel h' with
  | Ok l, Ok l' => Forall2 R l l'
  | Err e, Err e' => e = e'
  | _, _ => False
  end.
Proof using Hcmp.
  revert h h'. induction fuel as [|fuel IH]; intros h h' Hh; simpl;
    rewrite (heap_rel_is_empty h h' Hh); destruct (pairingheap_is_empty h'); try constructor.
  pose proof (heap_rel_remove_first h h' Hh) as Hr.
  destruct (pairingheap_remove_first h) as [[a h1]|], (pairingheap_remove_first h') as [[b h1']|]; simpl; try done.
  destruct Hr as [Hab Hh1]. specialize (IH h1 h1' Hh1).
  destruct (pairingheap_drain fuel h1), (pairingheap_drain fuel h1'); simpl; try done. by constructor.
Qed.
End Related.

Lemma node_rel_mono {A B} (R R' : A -> B -> Prop) n n' :
  (forall a b, R a b -> R' a b) -> node_rel R n n' -> node_rel R' n n'.
Proof.
  intros HR. revert n'. induction n as [x cs IH] using node_ind'. intros n' Hn.
  inversion Hn as [? y ? ds Hxy Hcs]; subst. constructor; [auto|]. clear Hn.
  induction Hcs as [|c d cs ds Hc _ IHl]; [done|]. inversion IH; subst. constructor; auto.
Qed.

Lemma heap_rel_mono {A B} (R R' : A -> B -> Prop) cA cB h h' :
  (forall a b, R a b -> R' a b) -> heap_rel R cA cB h h' -> heap_rel R' cA cB h h'.
Proof. intros HR []; constructor. by eapply node_rel_mono. Qed.

(** ** Properties *)

(** C31: a pairing heap sorts.  The loop that adds the elements of a list and
    then removes the first node until the heap is empty ends, raises no error
    and gives a permutation of the list in the order of the comparator, the
    largest first, for a comparator that is a preorder on the data. *)
Theorem pairingheap_sorts {A} (P : A -> Prop) cmp (l : list A) :
  HeapComparator P cmp -> Forall P l ->
  exists l', pairingheap_drain (length l) (heap_of_list cmp l) = Ok l' /\
    l' ≡ₚ l /\ StronglySorted (fun a b => 0 <= cmp a b) l'.
Proof.
  intros Hc Hl.
  destruct (fold_add_spec P l _ (allocate_valid P cmp Hc) Hl) as (Hv & He & Hcmp).
  destruct (drain_spec P (length l) (heap_of_list cmp l) Hv) as (l' & H1 & H2 & H3).
  { unfold heap_size, heap_of_list. by rewrite He. }
  unfold heap_of_list in *. rewrite Hcmp in H3. exists l'. split_and!; [done| |done].
  by rewrite H2, He.
Qed.

(** [pairingheap_remove] takes exactly the given node out of the heap, at
    the root or below it, with and without children: draining the heap
    afterwards gives the other elements, in order. *)
Theorem pairingheap_remove_drains {A} (P : A -> Prop) (h : pairingheap A) is_node :
  heap_valid P h -> (length (marked is_node (heap_elems h)) <= 1)%nat ->
  exists l, pairingheap_drain (heap_size h) (pairingheap_remove h is_node) = Ok l /\
    l ≡ₚ unmarked is_node (heap_elems h) /\
    StronglySorted (fun a b => 0 <= ph_compare h a b) l.
Proof.
  intros Hv Hone. destruct (remove_spec P h is_node Hv Hone) as [He Hv'].
  destruct (drain_spec P (heap_size h) _ Hv') as (l & H1 & H2 & H3).
  { unfold heap_size. rewrite He. apply length_filter. }
  exists l. split_and!; [done|by rewrite H2, He|].
  assert (ph_compare (pairingheap_remove h is_node) = ph_compare h) as <-; [|done].
  unfold pairingheap_remove. destruct (ph_root h); [destruct (is_node _)|]; done.
Qed.

(** ** Witnesses *)

#[local] Instance Zsub_comparator : HeapComparator (fun _ => True) Z.sub.
Proof. split; lia. Qed.

Example drain_example :
  pairingheap_drain 5 (heap_of_list Z.sub [3; 1; 4; 1; 5]) = Ok [5; 4; 3; 1; 1].
Proof. reflexivity. Qed.

Lemma pairingheap_sorts_witness :
  exists l', pairingheap_drain 5 (heap_of_list Z.sub [3; 1; 4; 1; 5]) = Ok l' /\
    l' ≡ₚ [3; 1; 4; 1; 5] /\ StronglySorted (fun a b => 0 <= a - b) l'.
Proof.
  apply (pairingheap_sorts (fun _ => True) Z.sub [3; 1; 4; 1; 5] Zsub_comparator).
  repeat constructor.
Defined.

(** The removed node has children. *)
Lemma pairingheap_remove_drains_witness :
  exists l, pairingheap_drain 5 (pairingheap_remove (heap_of_list Z.sub [3; 1; 4; 2; 5]) (Z.eqb 4)) = Ok l /\
    l ≡ₚ unmarked (Z.eqb 4) (heap_elems (heap_of_list Z.sub [3; 1; 4; 2; 5])) /\
    StronglySorted (fun a b => 0 <= a - b) l.
Proof.
  apply (pairingheap_remove_drains (fun _ => True) (heap_of_list Z.sub [3; 1; 4; 2; 5]) (Z.eqb 4)).
  - unfold heap_valid; split_and!; [apply Zsub_comparator | by repeat constructor |].
    apply (fold_add_spec (fun _ => True) [3; 1; 4; 2; 5] (pairingheap_allocate Z.sub)
             (allocate_valid _ _ Zsub_comparator)). repeat constructor.
  - vm_compute. lia.
Defined.
