(* ===== verification/GraphSearch.v ===== *)
(** * Best-first search of a graph layer: specification

    The algorithm [HnswSearchLayer] implements, on an abstract graph: keys of
    any type, the list of the neighbors of a key, its distance from the query,
    whether its level reaches the layer and whether it counts towards [ef].
    What the layer search promises is proved here; SearchLayer.v models the
    code and LayerRefinement.v shows that it computes this function. *)

From Stdlib Require Import SpecFloat.
From S2P Require Import Prelude CFloat PairingHeap.

(** ** Orders by distance *)

Definition cmp_near {A} (d : A -> double) (a b : A) : Z :=
  if flt (d a) (d b) then 1 else if fgt (d a) (d b) then -1 else 0.
Definition cmp_far {A} (d : A -> double) (a b : A) : Z :=
  if flt (d a) (d b) then -1 else if fgt (d a) (d b) then 1 else 0.

(** [a] is not further than [b].  On numbers this is a total preorder, and what it
    orders are distances of a [numeric] graph; a NaN is related to everything. *)
Definition dle (a b : double) : Prop := flt b a = false.

Lemma dle_refl a : dle a a.
Proof. apply flt_irrefl. Qed.

Lemma dle_trans a b c : is_nan b = false -> dle a b -> dle b c -> dle a c.
Proof. unfold dle. intros Hb H1 H2. by apply (flt_not_trans a b c). Qed.

Lemma dle_total a b : dle a b \/ dle b a.
Proof. unfold dle. destruct (flt b a) eqn:E; [right; by apply flt_asym|by left]. Qed.

Lemma flt_dle a b : flt a b = true -> dle a b.
Proof. apply flt_asym. Qed.

Lemma flt_dle_trans a b c : is_nan a = false -> is_nan b = false -> is_nan c = false ->
  flt a b = true -> dle b c -> flt a c = true.
Proof.
  unfold dle. intros Ha Hb Hc H1 H2. destruct (flt a c) eqn:E; [done|].
  rewrite (flt_not_trans b c a Hc H2 E) in H1. done.
Qed.

Lemma cmp_near_spec {A} (d : A -> double) a b : 0 <= cmp_near d a b <-> dle (d a) (d b).
Proof.
  unfold cmp_near, dle, fgt. destruct (flt (d a) (d b)) eqn:E.
  - rewrite (flt_asym _ _ E). done.
  - destruct (flt (d b) (d a)); split; (done || lia).
Qed.

Lemma cmp_far_spec {A} (d : A -> double) a b : 0 <= cmp_far d a b <-> dle (d b) (d a).
Proof.
  unfold cmp_far, dle, fgt. destruct (flt (d a) (d b)) eqn:E; [split; (done || lia)|].
  destruct (flt (d b) (d a)); split; (done || lia).
Qed.

Definition numeric {A} (d : A -> double) (a : A) : Prop := is_nan (d a) = false.

#[export] Instance cmp_near_comparator {A} (d : A -> double) : HeapComparator (numeric d) (cmp_near d).
Proof.
  split.
  - intros a b _ _ H. apply cmp_near_spec. destruct (dle_total (d b) (d a)) as [?|Hd]; [done|].
    apply cmp_near_spec in Hd. lia.
  - intros a b c _ Hb _. rewrite !cmp_near_spec. by apply dle_trans.
Qed.

#[export] Instance cmp_far_comparator {A} (d : A -> double) : HeapComparator (numeric d) (cmp_far d).
Proof.
  split.
  - intros a b _ _ H. apply cmp_far_spec. destruct (dle_total (d a) (d b)) as [?|Hd]; [done|].
    apply cmp_far_spec in Hd. lia.
  - intros a b c _ Hb _. rewrite !cmp_far_spec. intros H1 H2. by apply (dle_trans _ (d b)).
Qed.

(** ** The algorithm *)

Record SearchGraph (K : Type) := mkGraph {
  g_neighbors : K -> list K;
  g_distance : K -> double;
  g_level_ok : K -> bool;
  g_counted : K -> bool
}.
Arguments mkGraph {K} _ _ _ _.
Arguments g_neighbors {K} _ _.
Arguments g_distance {K} _ _.
Arguments g_level_ok {K} _ _.
Arguments g_counted {K} _ _.

Record GState (K : Type) `{Countable K} := mkGState {
  gs_C : pairingheap K;
  gs_W : pairingheap K;
  gs_wlen : Z;
  gs_visited : gset K;
  gs_discarded : option (pairingheap K);
  gs_tuples : option Z
}.
Arguments mkGState {K _ _} _ _ _ _ _ _.
Arguments gs_C {K _ _} _.
Arguments gs_W {K _ _} _.
Arguments gs_wlen {K _ _} _.
Arguments gs_visited {K _ _} _.
Arguments gs_discarded {K _ _} _.
Arguments gs_tuples {K _ _} _.

Section Algorithm.
Context {K : Type} `{Countable K} (G : SearchGraph K) (ef : Z).

Definition gs_discard (k : K) (s : GState K) : GState K :=
  mkGState (gs_C s) (gs_W s) (gs_wlen s) (gs_visited s)
    ((fun d => pairingheap_add d k) <$> gs_discarded s) (gs_tuples s).
Definition gs_add (k : K) (s : GState K) : GState K :=
  mkGState (pairingheap_add (gs_C s) k) (pairingheap_add (gs_W s) k) (gs_wlen s) (gs_visited s)
    (gs_discarded s) (gs_tuples s).
Definition gs_incr_wlen (s : GState K) : GState K :=
  mkGState (gs_C s) (gs_W s) (gs_wlen s + 1) (gs_visited s) (gs_discarded s) (gs_tuples s).
Definition gs_set_C (C : pairingheap K) (s : GState K) : GState K :=
  mkGState C (gs_W s) (gs_wlen s) (gs_visited s) (gs_discarded s) (gs_tuples s).
Definition gs_set_W (W : pairingheap K) (s : GState K) : GState K :=
  mkGState (gs_C s) W (gs_wlen s) (gs_visited s) (gs_discarded s) (gs_tuples s).
Definition gs_set_visited (v : gset K) (s : GState K) : GState K :=
  mkGState (gs_C s) (gs_W s) (gs_wlen s) v (gs_discarded s) (gs_tuples s).
Definition gs_count_tuples (n : Z) (s : GState K) : GState K :=
  mkGState (gs_C s) (gs_W s) (gs_wlen s) (gs_visited s) (gs_discarded s) (Z.add n <$> gs_tuples s).

(** The keys not visited yet, each once, and the set with all of them. *)
Fixpoint g_unvisited (l : list K) (v : gset K) : list K * gset K :=
  match l with
  | [] => ([], v)
  | k :: l' =>
      let '(rest, v') := g_unvisited l' ({[k]} ∪ v) in
      (if bool_decide (k ∈ v) then rest else k :: rest, v')
  end.

Definition g_visit (k : K) (s : GState K) : res (GState K) :=
  let alwaysAdd := gs_wlen s <? ef in
  f ← pairingheap_first (gs_W s) ;
  if negb (flt (g_distance G k) (g_distance G f) || alwaysAdd) then Ok (gs_discard k s)
  else if negb (g_level_ok G k) then Ok s
  else
    let s := gs_add k s in
    if g_counted G k then
      let s := gs_incr_wlen s in
      if ef <? gs_wlen s then
        '(d, W) ← pairingheap_remove_first (gs_W s) ;
        Ok (gs_discard d (gs_set_W W s))
      else Ok s
    else Ok s.

Fixpoint g_visit_all (l : list K) (s : GState K) : res (GState K) :=
  match l with
  | [] => Ok s
  | k :: l' => s ← g_visit k s ; g_visit_all l' s
  end.

Fixpoint g_loop (fuel : nat) (s : GState K) : res (GState K) :=
  if pairingheap_is_empty (gs_C s) then Ok s
  else
    match fuel with
    | O => Err OutOfFuel
    | S fuel =>
        '(c, C) ← pairingheap_remove_first (gs_C s) ;
        f ← pairingheap_first (gs_W s) ;
        let s := gs_set_C C s in
        if fgt (g_distance G c) (g_distance G f) then Ok s
        else
          let '(unvisited, v) := g_unvisited (g_neighbors G c) (gs_visited s) in
          s ← g_visit_all unvisited (gs_count_tuples (Z.of_nat (length unvisited)) (gs_set_visited v s)) ;
          g_loop fuel s
    end.

Definition g_entry (initVisited : bool) (s : GState K) (k : K) : GState K :=
  let s := if initVisited then gs_count_tuples 1 (gs_set_visited ({[k]} ∪ gs_visited s) s) else s in
  let s := gs_add k s in
  if g_counted G k then gs_incr_wlen s else s.

Definition g_start (visited : gset K) (discarded : option (pairingheap K)) (tuples : option Z) : GState K :=
  mkGState (pairingheap_allocate (cmp_near (g_distance G))) (pairingheap_allocate (cmp_far (g_distance G)))
    0 visited discarded tuples.

Definition g_search (fuel : nat) (ep : list K) (initVisited : bool) (visited : gset K)
    (discarded : option (pairingheap K)) (tuples : option Z) : res (list K * GState K) :=
  s ← g_loop fuel (fold_left (g_entry initVisited) ep (g_start visited discarded tuples)) ;
  w ← pairingheap_drain (heap_size (gs_W s)) (gs_W s) ;
  Ok (w, s).
End Algorithm.

(** ** The invariant of the search *)

Lemma gs_discard_none {K} `{Countable K} (k : K) (s : GState K) : gs_discarded s = None -> gs_discard k s = s.
Proof. unfold gs_discard. intros E. rewrite E. destruct s. simpl in *. by subst. Qed.

Lemma g_unvisited_spec {K} `{Countable K} (l : list K) v u v' :
  g_unvisited l v = (u, v') ->
  NoDup u /\ (forall k, k ∈ u <-> k ∈ l /\ k ∉ v) /\ (forall k, k ∈ v' <-> k ∈ l \/ k ∈ v).
Proof.
  revert v u v'. induction l as [|k l IH]; simpl; intros v u v' Hg.
  - injection Hg as <- <-. split_and!; [constructor|set_solver..].
  - destruct (g_unvisited l ({[k]} ∪ v)) as [rest v1] eqn:E. injection Hg as <- <-.
    destruct (IH _ _ _ E) as (Hnd & Hu & Hv').
    assert (Hv : forall k', k' ∈ {[k]} ∪ v <-> k' = k \/ k' ∈ v) by (clear; set_solver).
    clear IH E. split_and!.
    + case_bool_decide; [done|]. constructor; [|done]. rewrite Hu, Hv. tauto.
    + intros k'. destruct (decide (k' = k)) as [->|];
        case_bool_decide; rewrite ?elem_of_cons, Hu, Hv; tauto.
    + intros k'. rewrite Hv', Hv, elem_of_cons. tauto.
Qed.

(** Nothing is collected unless the caller asks for it. *)
Section NoDiscard.
Context {K : Type} `{Countable K} (G : SearchGraph K) (ef : Z).

Lemma g_visit_none k (s s' : GState K) : gs_discarded s = None -> g_visit G ef k s = Ok s' -> gs_discarded s' = None.
Proof using Type.
  intros Hs. unfold g_visit. destruct (pairingheap_first _); [|done]. simpl.
  destruct (negb _); [intros [= <-]; by simpl; rewrite Hs|].
  destruct (negb _); [by intros [= <-]|]. destruct (g_counted G k); [|by intros [= <-]].
  destruct (ef <? _); [|by intros [= <-]]. destruct (pairingheap_remove_first _) as [[d W]|]; [|done].
  simpl. intros [= <-]. by simpl; rewrite Hs.
Qed.

Lemma g_visit_all_none l (s s' : GState K) :
  gs_discarded s = None -> g_visit_all G ef l s = Ok s' -> gs_discarded s' = None.
Proof using Type.
  revert s. induction l as [|k l IH]; simpl; intros s Hs Hv; [by injection Hv as <-|].
  apply res_bind_ok in Hv as (s1 & H1 & H2). eapply IH; [|done]. by eapply g_visit_none.
Qed.

Lemma g_loop_none fuel (s s' : GState K) :
  gs_discarded s = None -> g_loop G ef fuel s = Ok s' -> gs_discarded s' = None.
Proof using Type.
  revert s. induction fuel as [|fuel IH]; simpl; intros s Hs;
    destruct (pairingheap_is_empty _); try (by intros [= <-]).
  destruct (pairingheap_remove_first _) as [[c C]|]; [|done]. simpl.
  destruct (pairingheap_first _) as [f|]; [|done]. simpl. destruct (fgt _ _); [by intros [= <-]|].
  destruct (g_unvisited _ _) as [u v]. intros Hv. apply res_bind_ok in Hv as (s1 & H1 & H2).
  eapply IH; [|exact H2]. eapply g_visit_all_none; [|exact H1]. exact Hs.
Qed.

Lemma fold_entry_none init ep (s : GState K) :
  gs_discarded s = None -> gs_discarded (fold_left (g_entry G init) ep s) = None.
Proof using Type.
  revert s. induction ep as [|k ep IH]; simpl; intros s Hs; [done|]. apply IH.
  unfold g_entry. by destruct init, (g_counted G k).
Qed.
End NoDiscard.

Section Invariant.
Context {K : Type} `{Countable K} (G : SearchGraph K) (ef : Z).
(** The keys of a set [U] that the edges do not leave; the keys that earlier
    searches have given out; the number of entry points; whether what is not
    kept is collected. *)
Context (U gone : gset K) (n0 : Z) (collect : bool).
Context (U_numeric : forall k, k ∈ U -> numeric (g_distance G) k).

#[local] Abbreviation dist := (g_distance G).

Definition all_counted : Prop := forall k, k ∈ U -> g_counted G k = true.

(** [C], [W], [D]: the elements of the heaps; [P]: the keys already visited
    that the current expansion has still to look at. *)
Record ginv (C W D P : list K) (wlen : Z) (visited : gset K) : Prop := {
  gi_visited : forall k, k ∈ visited -> k ∈ U;
  gi_C : forall k, k ∈ C -> k ∈ visited;
  gi_in : forall k, k ∈ W ++ P ++ D -> k ∈ visited;
  gi_nonempty : W <> [];
  gi_nodup : NoDup (W ++ P ++ D);
  gi_gone : forall k, k ∈ gone -> k ∉ W ++ P ++ D;
  gi_expanded : forall k, k ∈ W -> k ∈ C \/ (forall k', k' ∈ g_neighbors G k -> k' ∈ visited);
  gi_bound : all_counted -> forall k, k ∈ visited ->
    k ∈ gone \/ k ∈ P \/ k ∈ W \/ g_level_ok G k = false \/
    (ef <= wlen /\ forall r, r ∈ W -> dle (dist r) (dist k));
  gi_account : collect = true -> forall k, k ∈ visited ->
    k ∈ gone \/ k ∈ P \/ k ∈ W \/ k ∈ D \/ g_level_ok G k = false;
  gi_length : all_counted -> n0 <= wlen /\ Z.of_nat (length W) = Z.min wlen (Z.max ef n0)
}.

#[export] Instance ginv_perm :
  Proper ((≡ₚ) ==> (≡ₚ) ==> (≡ₚ) ==> (≡ₚ) ==> (=) ==> (=) ==> iff) ginv.
Proof using Type.
  assert (Himp : forall C C' W W' D D' P P' wlen v, C ≡ₚ C' -> W ≡ₚ W' -> D ≡ₚ D' -> P ≡ₚ P' ->
     ginv C W D P wlen v -> ginv C' W' D' P' wlen v).
  { intros C C' W W' D D' P P' wlen v HC HW HD HP I. destruct I as [I1 I2 I3 I4 I5 I6 I7 I8 I9 I10].
    split; try setoid_rewrite <- HC; try setoid_rewrite <- HW; try setoid_rewrite <- HD;
      try setoid_rewrite <- HP; try done.
    intros ->. by apply Permutation_nil_r in HW. }
  intros C C' HC W W' HW D D' HD P P' HP ? wlen -> ? v ->. split; apply Himp; done.
Qed.

Lemma ginv_discard C W D P wlen v k :
  ginv C W D (k :: P) wlen v ->
  (all_counted -> ef <= wlen /\ forall r, r ∈ W -> dle (dist r) (dist k)) ->
  ginv C W (if collect then k :: D else D) P wlen v.
Proof using Type.
  intros [I1 I2 I3 I4 I5 I6 I7 I8 I9 I10] Hk.
  assert (Hsub : W ++ P ++ (if collect then k :: D else D) ⊆+ W ++ (k :: P) ++ D).
  { apply submseteq_skips_l. simpl. destruct collect; [|by constructor].
    apply Permutation_submseteq. symmetry. apply Permutation_middle. }
  split; try done.
  - intros k' Hin. apply I3. by eapply elem_of_submseteq.
  - by eapply NoDup_of_submseteq.
  - intros k' Hg Hin. eapply I6; [exact Hg|]. by eapply elem_of_submseteq.
  - intros Hc k' Hv. specialize (I8 Hc k' Hv). rewrite elem_of_cons in I8.
    destruct I8 as [|[[->|]|[|[|]]]]; auto 6.
  - intros Hc k' Hv. specialize (I9 Hc k' Hv). rewrite Hc. rewrite elem_of_cons in *. tauto.
Qed.

(** A key below the layer is dropped. *)
Lemma ginv_skip C W D P wlen v k :
  ginv C W D (k :: P) wlen v -> g_level_ok G k = false -> ginv C W D P wlen v.
Proof using Type.
  intros [I1 I2 I3 I4 I5 I6 I7 I8 I9 I10] Hk.
  assert (Hsub : W ++ P ++ D ⊆+ W ++ (k :: P) ++ D).
  { apply submseteq_skips_l. simpl. by constructor. }
  split; try done.
  - intros k' Hin. apply I3. by eapply elem_of_submseteq.
  - by eapply NoDup_of_submseteq.
  - intros k' Hg Hin. eapply I6; [exact Hg|]. by eapply elem_of_submseteq.
  - intros Hc k' Hv. specialize (I8 Hc k' Hv). rewrite elem_of_cons in I8.
    destruct I8 as [|[[->|]|[|[|]]]]; auto 6.
  - intros Hc k' Hv. specialize (I9 Hc k' Hv). rewrite elem_of_cons in I9.
    destruct I9 as [|[[->|]|[|[|]]]]; auto 6.
Qed.

(** A key is added to the results, which are not full. *)
Lemma ginv_add C W D P wlen wlen' v k :
  ginv C W D (k :: P) wlen v ->
  (all_counted -> wlen < ef /\ wlen' = wlen + 1) ->
  ginv (k :: C) (k :: W) D P wlen' v.
Proof using Type.
  intros [I1 I2 I3 I4 I5 I6 I7 I8 I9 I10] Hk.
  assert (Hp : (k :: W) ++ P ++ D ≡ₚ W ++ (k :: P) ++ D) by (simpl; solve_Permutation).
  split; try done.
  - intros k' [->|Hin]%elem_of_cons; [|auto]. apply I3. rewrite <- Hp. left.
  - intros k'. rewrite Hp. apply I3.
  - by rewrite Hp.
  - intros k'. rewrite Hp. apply I6.
  - intros k' [->|Hin]%elem_of_cons; [left; left|]. destruct (I7 _ Hin); [left; by right|by right].
  - intros Hc k' Hv. destruct (Hk Hc) as [Hlt _]. specialize (I8 Hc k' Hv). rewrite elem_of_cons in *.
    destruct I8 as [|[[->|]|[|[|[? ?]]]]]; auto 6. lia.
  - intros Hc k' Hv. specialize (I9 Hc k' Hv). rewrite elem_of_cons in *. tauto.
  - intros Hc. destruct (Hk Hc) as [Hlt ->]. destruct (I10 Hc) as [H1 H2]. cbn [length]. lia.
Qed.

(** A key takes the place of the furthest result [d]. *)
Lemma ginv_replace C W W' D P wlen v k d f :
  ginv C W D (k :: P) wlen v -> ef <= wlen ->
  f ∈ W -> (forall r, r ∈ W -> dle (dist r) (dist f)) -> flt (dist k) (dist f) = true ->
  k :: W ≡ₚ d :: W' -> (forall r, r ∈ W' -> dle (dist r) (dist d)) ->
  ginv (k :: C) W' (if collect then d :: D else D) P (wlen + 1) v.
Proof using U_numeric.
  intros [I1 I2 I3 I4 I5 I6 I7 I8 I9 I10] Hef Hf Hmax Hlt Hperm Hd.
  assert (Hp : W ++ (k :: P) ++ D ≡ₚ W' ++ P ++ (d :: D)).
  { transitivity ((k :: W) ++ P ++ D); [simpl; solve_Permutation|]. rewrite Hperm. simpl. solve_Permutation. }
  assert (Hsub : W' ++ P ++ (if collect then d :: D else D) ⊆+ W ++ (k :: P) ++ D).
  { rewrite Hp. do 2 apply submseteq_skips_l. destruct collect; [done|by constructor]. }
  assert (HW : forall r, r ∈ W' -> r = k \/ r ∈ W).
  { intros r Hr. rewrite <- elem_of_cons, Hperm. by right. }
  assert (HfU : f ∈ U) by (apply I1, I3, elem_of_app; by left).
  assert (Hlen : length W' = length W) by (apply Permutation_length in Hperm; simpl in Hperm; lia).
  split; try done.
  - intros k' [->|Hin]%elem_of_cons; [|auto]. apply I3, elem_of_app. right. left.
  - intros k' Hin. apply I3. by eapply elem_of_submseteq.
  - intros ->. destruct W; [done|simpl in Hlen; lia].
  - by eapply NoDup_of_submseteq.
  - intros k' Hg Hin. eapply I6; [exact Hg|]. by eapply elem_of_submseteq.
  - intros k' Hin. destruct (HW _ Hin) as [->|HW']; [left; left|].
    destruct (I7 _ HW'); [left; by right|by right].
  - intros Hc k' Hv.
    assert (Hcase : k' ∈ k :: W -> k' ∈ W' \/ (ef <= wlen + 1 /\ forall r, r ∈ W' -> dle (dist r) (dist k'))).
    { rewrite Hperm. intros [->|]%elem_of_cons; [right; split; [lia|done] | by left]. }
    specialize (I8 Hc k' Hv). rewrite elem_of_cons in I8, Hcase.
    destruct I8 as [|[[->|]|[|[|[_ Hb]]]]]; try tauto.
    do 4 right. split; [lia|]. intros r Hr. destruct (HW _ Hr) as [->|]; [|auto].
    apply (dle_trans _ (dist f)); [by apply U_numeric|by apply flt_dle|auto].
  - intros Hc k' Hv. specialize (I9 Hc k' Hv). rewrite Hc.
    assert (k' ∈ k :: W -> k' ∈ W' \/ k' = d) as Hcase by (rewrite Hperm, elem_of_cons; tauto).
    rewrite !elem_of_cons in *. tauto.
  - intros Hc. destruct (I10 Hc) as [H1 H2]. rewrite Hlen. lia.
Qed.

(** The first key of an expansion is taken out of [C] and its neighbors become
    visited. *)
Lemma ginv_expand C W D wlen v v' c u :
  (forall k k', k ∈ U -> k' ∈ g_neighbors G k -> k' ∈ U) ->
  (forall k, k ∈ gone -> k ∈ v) ->
  ginv (c :: C) W D [] wlen v -> g_unvisited (g_neighbors G c) v = (u, v') ->
  ginv C W D u wlen v'.
Proof using Type.
  intros Hclosed Hgone [I1 I2 I3 I4 I5 I6 I7 I8 I9 I10] Hu.
  destruct (g_unvisited_spec _ _ _ _ Hu) as (Hnd & Hin & Hv').
  assert (Hp : W ++ u ++ D ≡ₚ u ++ W ++ [] ++ D) by (simpl; solve_Permutation).
  assert (HcU : c ∈ U) by (apply I1, I2; left).
  assert (Hcase : forall k, k ∈ v' -> k ∈ u \/ k ∈ v).
  { intros k [Hk|Hk]%Hv'; [|by right]. destruct (decide (k ∈ v)); [by right|]. left. by apply Hin. }
  split; try done.
  - intros k [Hk|Hk]%Hv'; eauto.
  - intros k Hk. apply Hv'. right. apply I2. by right.
  - intros k. rewrite Hp, elem_of_app. intros [Hk|Hk]; apply Hv'; [left; by apply Hin|right; auto].
  - rewrite Hp. apply list.NoDup_app. split_and!; [done| |done].
    intros k Hk Hk'. apply Hin in Hk as [_ Hk]. auto.
  - intros k Hg. rewrite Hp, elem_of_app. intros [Hk|Hk]; [apply Hin in Hk as [_ Hk]; auto|].
    by apply (I6 k).
  - intros k Hk. destruct (I7 k Hk) as [[->|HC]%elem_of_cons|Hall]; [right|by left|right].
    + intros k' Hk'. apply Hv'. by left.
    + intros k' Hk'. apply Hv'. right. auto.
  - intros Hc k Hk. destruct (Hcase k Hk) as [|Hv]; [auto|]. specialize (I8 Hc k Hv).
    rewrite elem_of_nil in I8. tauto.
  - intros Hc k Hk. destruct (Hcase k Hk) as [|Hv]; [auto|]. specialize (I9 Hc k Hv).
    rewrite elem_of_nil in I9. tauto.
Qed.

(** ** The invariant of the state *)

Definition good_heap (cmp : (K -> double) -> K -> K -> Z) (h : pairingheap K) : Prop :=
  heap_valid (numeric dist) h /\ ph_compare h = cmp dist.

Definition disc_elems (s : GState K) : list K := from_option heap_elems [] (gs_discarded s).

Record sinv (P : list K) (s : GState K) : Prop := {
  si_C : good_heap cmp_near (gs_C s);
  si_W : good_heap cmp_far (gs_W s);
  si_D : forall d, gs_discarded s = Some d -> good_heap cmp_near d;
  si_collect : collect = bool_decide (is_Some (gs_discarded s));
  si_gone : forall k, k ∈ gone -> k ∈ gs_visited s;
  si_inv : ginv (heap_elems (gs_C s)) (heap_elems (gs_W s)) (disc_elems s) P (gs_wlen s) (gs_visited s)
}.

Lemma good_heap_add cmp h k : good_heap cmp h -> k ∈ U -> good_heap cmp (pairingheap_add h k).
Proof using U_numeric. intros [Hv Hc] Hk. split; [|done]. apply add_valid; auto. Qed.

Lemma good_heap_remove cmp h : good_heap cmp h -> heap_elems h <> [] ->
  exists a h', pairingheap_remove_first h = Ok (a, h') /\ pairingheap_first h = Ok a /\
    heap_elems h ≡ₚ a :: heap_elems h' /\ good_heap cmp h' /\
    (forall x, x ∈ heap_elems h -> 0 <= cmp dist a x).
Proof using Type.
  intros [Hv Hc] Hne. destruct (pairingheap_is_empty h) eqn:E; [by apply is_empty_elems in E|].
  destruct (remove_first_spec _ h Hv E) as (a & h' & H1 & H2 & H3 & H4 & H5 & H6).
  exists a, h'. rewrite Hc in H3, H5. split_and!; try done.
Qed.

Lemma disc_elems_discard (k : K) (s : GState K) :
  disc_elems (gs_discard k s) ≡ₚ if bool_decide (is_Some (gs_discarded s)) then k :: disc_elems s else disc_elems s.
Proof using Type.
  unfold disc_elems, gs_discard. simpl. destruct (gs_discarded s) as [d|]; simpl; [apply add_elems|done].
Qed.

Lemma discard_D (k : K) (s : GState K) : k ∈ U -> (forall d, gs_discarded s = Some d -> good_heap cmp_near d) ->
  forall d, gs_discarded (gs_discard k s) = Some d -> good_heap cmp_near d.
Proof using U_numeric.
  intros Hk Hd d. simpl. destruct (gs_discarded s) as [d0|]; simpl; [|done]. intros [= <-].
  apply good_heap_add; auto.
Qed.

Lemma discard_collect (k : K) (s : GState K) :
  bool_decide (is_Some (gs_discarded (gs_discard k s))) = bool_decide (is_Some (gs_discarded s)).
Proof using Type. simpl. by destruct (gs_discarded s). Qed.

Lemma g_visit_ok k P s : sinv (k :: P) s ->
  exists s', g_visit G ef k s = Ok s' /\ sinv P s' /\ gs_visited s' = gs_visited s /\
    (heap_size (gs_C s') <= S (heap_size (gs_C s)))%nat.
Proof using U_numeric.
  intros [HC HW HD Hcol Hg I]. pose proof I as [I1 I2 I3 I4 _ _ _ _ _ _].
  assert (HkU : k ∈ U) by (apply I1, I3, elem_of_app; right; left).
  destruct (good_heap_remove _ _ HW I4) as (f & W1 & Hr & Hf & HWp & HW1 & Hmax).
  assert (Hmax' : forall r, r ∈ heap_elems (gs_W s) -> dle (dist r) (dist f)).
  { intros r Hin. by apply cmp_far_spec, Hmax. }
  assert (HfW : f ∈ heap_elems (gs_W s)) by (rewrite HWp; left).
  unfold g_visit. rewrite Hf, bind_Ok.
  destruct (negb _) eqn:Eadd; [|destruct (negb (g_level_ok G k)) eqn:El; [|destruct (g_counted G k) eqn:Ec]].
  - apply negb_true_iff, orb_false_iff in Eadd as [Hd Hlen]. apply Z.ltb_ge in Hlen.
    eexists. split; [reflexivity|]. split; [|split; [done|cbn [gs_C gs_discard]; lia]].
    split; cbn [gs_C gs_W gs_wlen gs_visited gs_discard]; try done.
    + by apply discard_D.
    + by rewrite <- discard_collect with (k := k) in Hcol.
    + rewrite disc_elems_discard, <- Hcol. apply ginv_discard; [done|].
      intros _. split; [done|]. intros r Hin.
      apply (dle_trans _ (dist f)); [apply U_numeric, I1, I3, elem_of_app; by left|auto|done].
  - eexists. split; [reflexivity|]. split; [|split; [done|lia]].
    split; try done. apply negb_true_iff in El. by apply (ginv_skip _ _ _ _ _ _ k).
  - set (s1 := gs_incr_wlen (gs_add k s)).
    assert (HCp : heap_elems (gs_C s1) ≡ₚ k :: heap_elems (gs_C s)) by apply add_elems.
    assert (HWp1 : heap_elems (gs_W s1) ≡ₚ k :: heap_elems (gs_W s)) by apply add_elems.
    assert (Hsz : heap_size (gs_C s1) = S (heap_size (gs_C s))) by (unfold heap_size; by rewrite HCp).
    assert (HC1 : good_heap cmp_near (gs_C s1)) by (by apply good_heap_add).
    assert (HW2 : good_heap cmp_far (gs_W s1)) by (by apply good_heap_add).
    destruct (Z.ltb_spec ef (gs_wlen s1)) as [Hlt|Hge].
    + destruct (good_heap_remove _ _ HW2) as (d & W' & Hr' & _ & HWp' & HW' & Hmd).
      { intros E. rewrite E in HWp1. by apply Permutation_nil_cons in HWp1. }
      rewrite Hr', bind_Ok. eexists. split; [reflexivity|].
      cbn [gs_wlen gs_incr_wlen gs_add s1] in Hlt.
      assert (HdU : d ∈ U).
      { assert (d ∈ k :: heap_elems (gs_W s)) as Hd by (rewrite <- HWp1, HWp'; left).
        apply elem_of_cons in Hd as [->|Hd]; [done|]. apply I1, I3, elem_of_app. by left. }
      split; [|split; [done|cbn [gs_C gs_discard gs_set_W]; lia]].
      split; cbn [gs_C gs_W gs_wlen gs_visited gs_discard gs_set_W s1 gs_incr_wlen gs_add]; try done.
      * by apply (discard_D d s).
      * by rewrite discard_collect.
      * change (disc_elems (gs_discard d (gs_set_W W' s1))) with (disc_elems (gs_discard d s)).
        rewrite disc_elems_discard, <- Hcol.
        change (pairingheap_add (gs_C s) k) with (gs_C s1). rewrite HCp.
        apply (ginv_replace _ (heap_elems (gs_W s)) _ _ _ _ _ _ _ f); try done; [lia| | |].
        -- apply negb_false_iff, orb_true_iff in Eadd as [|Eadd%Z.ltb_lt]; [done|lia].
        -- by rewrite <- HWp1, HWp'.
        -- intros r Hin. apply cmp_far_spec, Hmd. rewrite HWp'. by right.
    + eexists. split; [reflexivity|]. split; [|split; [done|lia]].
      split; try done. rewrite HCp, HWp1. change (disc_elems s1) with (disc_elems s).
      cbn [gs_wlen gs_incr_wlen gs_add s1 gs_visited] in *.
      apply (ginv_add _ _ _ _ (gs_wlen s)); [done|]. intros _. lia.
  - set (s1 := gs_add k s). eexists. split; [reflexivity|].
    split; [|split; [done|unfold heap_size; cbn; by rewrite add_elems]].
    split; cbn; try done; try by apply good_heap_add.
    rewrite !add_elems. apply (ginv_add _ _ _ _ (gs_wlen s)); [done|].
    intros Hall. by rewrite Hall in Ec.
Qed.

Lemma g_visit_all_ok l s : sinv l s ->
  exists s', g_visit_all G ef l s = Ok s' /\ sinv [] s' /\ gs_visited s' = gs_visited s /\
    (heap_size (gs_C s') <= length l + heap_size (gs_C s))%nat.
Proof using U_numeric.
  revert s. induction l as [|k l IH]; intros s Hs; simpl.
  - exists s. split_and!; try done. 
  - destruct (g_visit_ok k l s Hs) as (s1 & E & Hs1 & Hv & Hl). rewrite E, bind_Ok.
    destruct (IH s1 Hs1) as (s' & E' & Hs' & Hv' & Hl'). exists s'.
    split_and!; [done|done|congruence|lia].
Qed.

(** The neighbors of all results have been visited. *)
Definition locally_closed (s : GState K) : Prop :=
  forall k k', k ∈ heap_elems (gs_W s) -> k' ∈ g_neighbors G k -> k' ∈ gs_visited s.

Lemma count_tuples_sinv P n s : sinv P (gs_count_tuples n s) <-> sinv P s.
Proof using Type. split; intros []; split; done. Qed.

Lemma unvisited_measure v v' c u : (forall k, k ∈ v' -> k ∈ U) ->
  g_unvisited (g_neighbors G c) v = (u, v') -> (size (U ∖ v') + length u <= size (U ∖ v))%nat.
Proof using Type.
  intros HU Hu. destruct (g_unvisited_spec _ _ _ _ Hu) as (Hnd & Hin & Hv').
  rewrite <- (size_list_to_set (C := gset K) u Hnd), <- size_union.
  - apply subseteq_size. intros k. rewrite elem_of_union, !elem_of_difference, elem_of_list_to_set, Hin, Hv'.
    intros [[? ?]|[? ?]]; [tauto|]. split; [|done]. apply HU, Hv'. by left.
  - intros k. rewrite elem_of_difference, elem_of_list_to_set, Hin, Hv'. tauto.
Qed.

(** The loop ends, with the invariant and nothing left to expand. *)
Lemma g_loop_ok fuel s :
  (forall k k', k ∈ U -> k' ∈ g_neighbors G k -> k' ∈ U) ->
  sinv [] s -> (heap_size (gs_C s) + size (U ∖ gs_visited s) <= fuel)%nat ->
  exists s', g_loop G ef fuel s = Ok s' /\ sinv [] s' /\ locally_closed s' /\
    gs_visited s ⊆ gs_visited s'.
Proof using U_numeric.
  intros Hclosed. revert s. induction fuel as [|fuel IH]; intros s Hs Hfuel; simpl;
    destruct (pairingheap_is_empty (gs_C s)) eqn:E.
  1, 3: apply is_empty_elems in E; exists s; split_and!; try done;
    intros k k' Hk Hk'; destruct (gi_expanded _ _ _ _ _ _ (si_inv _ _ Hs) k Hk) as [HC|]; [|auto];
    rewrite E in HC; by apply elem_of_nil in HC.
  { assert (heap_elems (gs_C s) <> []) by (intros H'; by apply is_empty_elems in H'; rewrite H' in E).
    unfold heap_size in Hfuel. destruct (heap_elems (gs_C s)); [done|simpl in Hfuel; lia]. }
  destruct Hs as [HC HW HD Hcol Hg I]. pose proof I as [I1 I2 I3 I4 _ _ _ _ _ _].
  destruct (good_heap_remove _ _ HC) as (c & C' & Hrc & _ & HCp & HC' & Hmin).
  { intros H'. by apply is_empty_elems in H'; rewrite H' in E. }
  destruct (good_heap_remove _ _ HW I4) as (f & W1 & _ & Hf & HWp & _ & Hmax).
  rewrite Hrc, bind_Ok, Hf, bind_Ok.
  assert (HcU : c ∈ U) by (apply I1, I2; rewrite HCp; left).
  assert (HfU : f ∈ U) by (apply I1, I3, elem_of_app; left; rewrite HWp; left).
  set (s1 := gs_set_C C' s).
  destruct (fgt (dist c) (dist f)) eqn:Efar.
  - (* every remaining candidate is further than every result *)
    assert (Hall : forall k, k ∈ heap_elems (gs_W s) -> forall k', k' ∈ g_neighbors G k -> k' ∈ gs_visited s).
    { intros k Hk. destruct (gi_expanded _ _ _ _ _ _ I k Hk) as [Hin|]; [|done]. exfalso.
      apply Hmin, cmp_near_spec in Hin. pose proof (proj1 (cmp_far_spec _ _ _) (Hmax k Hk)) as Hkf.
      assert (dle (dist c) (dist f)) as Hcf; [|unfold dle in Hcf; unfold fgt in Efar; congruence].
      apply (dle_trans _ (dist k)); [|done|done].
      apply U_numeric, I1, I3, elem_of_app. by left. }
    exists s1. split_and!; [done| |intros k k' Hk; by apply Hall|done].
    split; try done. rewrite HCp in I. destruct I as [J1 J2 J3 J4 J5 J6 J7 J8 J9 J10].
    split; try done; [intros k Hk; apply J2; by right | intros k Hk; right; by apply Hall].
  - destruct (g_unvisited (g_neighbors G c) (gs_visited s)) as [u v'] eqn:Eu.
    rewrite HCp in I. pose proof (ginv_expand _ _ _ _ _ _ _ _ Hclosed Hg I Eu) as I'.
    pose proof (unvisited_measure _ _ _ _ (gi_visited _ _ _ _ _ _ I') Eu) as Hm.
    destruct (g_unvisited_spec _ _ _ _ Eu) as (_ & _ & Hv').
    set (s2 := gs_count_tuples (Z.of_nat (length u)) (gs_set_visited v' s1)).
    assert (Hs2 : sinv u s2).
    { apply count_tuples_sinv. split; try done. intros k Hk. apply Hv'. right. by apply Hg. }
    destruct (g_visit_all_ok u s2 Hs2) as (s3 & E3 & Hs3 & Hv3 & Hl3).
    match goal with |- context [g_visit_all G ef u ?x] => change x with s2 end. rewrite E3, bind_Ok.
    cbn in Hv3. assert (Hsz : heap_size (gs_C s) = S (heap_size C')) by (unfold heap_size; by rewrite HCp).
    destruct (IH s3 Hs3) as (s' & E' & Hs' & Hcl & Hsub).
    { rewrite Hv3. cbn [gs_C gs_count_tuples gs_set_visited s2 s1 gs_set_C] in Hl3.
      lia. }
    exists s'. split_and!; try done. rewrite Hv3 in Hsub. intros k Hk. apply Hsub, Hv'. by right.
Qed.

(** ** Entry points *)

Lemma fold_entry init ep (s : GState K) :
  (forall k, k ∈ ep -> k ∈ U) ->
  good_heap cmp_near (gs_C s) -> good_heap cmp_far (gs_W s) ->
  let s' := fold_left (g_entry G init) ep s in
  good_heap cmp_near (gs_C s') /\ good_heap cmp_far (gs_W s') /\
  heap_elems (gs_C s') ≡ₚ ep ++ heap_elems (gs_C s) /\
  heap_elems (gs_W s') ≡ₚ ep ++ heap_elems (gs_W s) /\
  gs_visited s' = (if init : bool then list_to_set ep else ∅) ∪ gs_visited s /\
  gs_discarded s' = gs_discarded s /\
  (all_counted -> gs_wlen s' = gs_wlen s + Z.of_nat (length ep)).
Proof using U_numeric.
  revert s. induction ep as [|k ep IH]; intros s Hep HC HW; cbn [fold_left].
  - split_and!; try done; [destruct init; simpl; by rewrite (left_id_L ∅ (∪)) | intros; cbn [length]; lia].
  - set (s1 := g_entry G init s k).
    assert (Hs1 : gs_C s1 = pairingheap_add (gs_C s) k /\ gs_W s1 = pairingheap_add (gs_W s) k /\
      gs_visited s1 = (if init then {[k]} else ∅) ∪ gs_visited s /\ gs_discarded s1 = gs_discarded s /\
      gs_wlen s1 = gs_wlen s + if g_counted G k then 1 else 0).
    { unfold s1, g_entry. destruct init, (g_counted G k); cbn; split_and!; try done; try lia; by rewrite (left_id_L ∅ (∪)). }
    destruct Hs1 as (E1 & E2 & E3 & E4 & E5).
    assert (HkU : k ∈ U) by (apply Hep; left).
    destruct (IH s1) as (H1 & H2 & H3 & H4 & H5 & H6 & H7).
    { intros k' Hk'. apply Hep. by right. }
    { rewrite E1. by apply good_heap_add. }
    { rewrite E2. by apply good_heap_add. }
    split_and!; try done.
    + rewrite H3, E1, add_elems. simpl. solve_Permutation.
    + rewrite H4, E2, add_elems. simpl. solve_Permutation.
    + rewrite H5, E3. clear. destruct init; set_solver.
    + by rewrite H6.
    + intros Hall. rewrite (H7 Hall), E5, (Hall k HkU). cbn [length]. lia.
Qed.

Lemma allocate_good cmp : HeapComparator (numeric dist) (cmp dist) ->
  good_heap cmp (pairingheap_allocate (cmp dist)).
Proof using Type. intros Hc. split; [by apply allocate_valid|done]. Qed.
End Invariant.

(** ** What a search returns *)

Section Results.
Context {K : Type} `{Countable K} (G : SearchGraph K) (ef : Z) (U : gset K).
Context (U_closed : forall k k', k ∈ U -> k' ∈ g_neighbors G k -> k' ∈ U).
Context (U_numeric : forall k, k ∈ U -> numeric (g_distance G) k).

#[local] Abbreviation dist := (g_distance G).

(** From the furthest to the nearest. *)
Definition furthest_first (w : list K) : Prop := StronglySorted (fun a b => dle (dist b) (dist a)) w.

Lemma g_search_ok gone fuel ep init v disc tuples :
  let vis := (if init : bool then list_to_set ep else ∅) ∪ v in
  let D := from_option heap_elems [] disc in
  ep <> [] -> (forall k, k ∈ vis -> k ∈ U) -> (forall k, k ∈ ep ++ D -> k ∈ vis) -> NoDup (ep ++ D) ->
  (forall k, k ∈ gone -> k ∈ vis /\ k ∉ ep ++ D) ->
  (forall d, disc = Some d -> good_heap G cmp_near d) ->
  (all_counted G U -> forall k, k ∈ vis -> k ∈ gone \/ k ∈ ep \/ g_level_ok G k = false \/
     (ef <= Z.of_nat (length ep) /\ forall r, r ∈ ep -> dle (dist r) (dist k))) ->
  (is_Some disc -> forall k, k ∈ vis -> k ∈ gone \/ k ∈ ep \/ k ∈ D \/ g_level_ok G k = false) ->
  (length ep + size (U ∖ vis) <= fuel)%nat ->
  exists w s', g_search G ef fuel ep init v disc tuples = Ok (w, s') /\
    w ≡ₚ heap_elems (gs_W s') /\ furthest_first w /\
    sinv G ef U gone (Z.of_nat (length ep)) (bool_decide (is_Some disc)) [] s' /\
    locally_closed G s' /\ vis ⊆ gs_visited s'.
Proof using U_closed U_numeric.
  cbn zeta. set (vis := (if init then list_to_set ep else ∅) ∪ v).
  set (D := from_option heap_elems [] disc).
  intros Hne HvU Hin Hnd Hgone Hdisc Hbound Hacc Hfuel.
  assert (HepU : forall k, k ∈ ep -> k ∈ U) by (intros; apply HvU, Hin, elem_of_app; by left).
  destruct (fold_entry G U U_numeric init ep (g_start G v disc tuples) HepU) as (H1 & H2 & H3 & H4 & H5 & H6 & H7).
  1,2: apply allocate_good; apply _.
  set (s0 := fold_left (g_entry G init) ep (g_start G v disc tuples)) in *.
  cbn in H3, H4. rewrite app_nil_r in H3, H4. fold vis in H5.
  change (gs_visited (g_start G v disc tuples)) with v in H5. fold vis in H5.
  change (gs_discarded (g_start G v disc tuples)) with disc in H6.
  change (gs_wlen (g_start G v disc tuples)) with 0 in H7.
  assert (Hs0 : sinv G ef U gone (Z.of_nat (length ep)) (bool_decide (is_Some disc)) [] s0).
  { split; rewrite ?H5, ?H6; try done; [by intros; apply Hgone|].
    unfold disc_elems. rewrite H3, H4, H6. fold D.
    split; try done; try (by intros; apply Hin, elem_of_app; left).
    - intros k Hk. by destruct (Hgone k Hk).
    - intros k Hk. by left.
    - intros Hall k Hk. rewrite (H7 Hall). destruct (Hbound Hall k Hk) as [|[|[|[? ?]]]]; auto 6.
    - intros Hc k Hk. apply bool_decide_eq_true in Hc. destruct (Hacc Hc k Hk) as [|[|[|]]]; auto 6.
    - intros Hall. rewrite (H7 Hall). lia. }
  destruct (g_loop_ok G ef U gone _ _ U_numeric fuel s0 U_closed Hs0) as (s' & E & Hs' & Hcl & Hsub).
  { unfold heap_size. by rewrite H3, H5. }
  rewrite H5 in Hsub.
  destruct (si_W _ _ _ _ _ _ _ _ Hs') as [HvW HcW].
  destruct (drain_spec _ (heap_size (gs_W s')) (gs_W s') HvW ltac:(lia)) as (w & Ew & Hp & Hsort).
  exists w, s'. unfold g_search. fold s0. rewrite E, bind_Ok, Ew, bind_Ok.
  split_and!; try done. unfold furthest_first. rewrite HcW in Hsort.
  eapply StronglySorted_impl; [|exact Hsort]. intros a b Hab. by apply cmp_far_spec.
Qed.

(** The result [w] of a search from [ep], with the set [V] of the keys it
    visited: sorted, without repetition, and a local optimum. *)
Record search_result (ep w : list K) (V : gset K) : Prop := {
  sr_sorted : furthest_first w;
  sr_nodup : NoDup w;
  sr_nonempty : w <> [];
  sr_visited : forall k, k ∈ w -> k ∈ V;
  sr_inside : forall k, k ∈ V -> k ∈ U;
  sr_entries : forall k, k ∈ ep -> k ∈ V;
  sr_neighbors : forall k k', k ∈ w -> k' ∈ g_neighbors G k -> k' ∈ V;
  sr_length : all_counted G U -> Z.of_nat (length w) <= Z.max ef (Z.of_nat (length ep));
  sr_best : all_counted G U -> forall k, k ∈ V -> k ∈ w \/ g_level_ok G k = false \/
    (ef <= Z.of_nat (length w) /\ forall r, r ∈ w -> dle (dist r) (dist k))
}.

Lemma g_search_fresh fuel ep disc tuples :
  ep <> [] -> NoDup ep -> (forall k, k ∈ ep -> k ∈ U) ->
  disc = None \/ disc = Some (pairingheap_allocate (cmp_near dist)) ->
  (size U <= fuel)%nat ->
  exists w s', g_search G ef fuel ep true ∅ disc tuples = Ok (w, s') /\
    search_result ep w (gs_visited s').
Proof using U_closed U_numeric.
  intros Hne Hnd Hep Hdisc Hfuel.
  assert (HD : from_option heap_elems [] disc = []) by (destruct Hdisc as [->| ->]; done).
  assert (Hvis : forall k : K, k ∈ list_to_set ep ∪ (∅ : gset K) <-> k ∈ ep).
  { intros k. rewrite elem_of_union, elem_of_list_to_set. set_solver. }
  destruct (g_search_ok ∅ fuel ep true ∅ disc tuples) as (w & s' & E & Hp & Hs & [_ _ _ _ _ I] & Hcl & Hsub);
    rewrite ?HD, ?app_nil_r; try done.
  - intros k. rewrite Hvis. apply Hep.
  - intros k Hk. by apply Hvis.
  - intros d ->. destruct Hdisc as [|[= ->]]; [done|]. apply allocate_good, _.
  - intros _ k Hk. right. left. by apply Hvis.
  - intros _ k Hk. right. left. by apply Hvis.
  - rewrite (right_id_L ∅ (∪)).
    rewrite size_difference by (intros k Hk%elem_of_list_to_set; auto).
    rewrite size_list_to_set by done.
    assert (length ep <= size U)%nat; [|lia].
    rewrite <- (size_list_to_set (C := gset K) ep Hnd). apply subseteq_size.
    intros k Hk%elem_of_list_to_set. auto.
  - exists w, s'. split; [done|]. destruct I as [I1 I2 I3 I4 I5 I6 I7 I8 I9 I10].
    split; try done; try setoid_rewrite Hp; try done.
    + apply list.NoDup_app in I5 as [? _]. first [done | by rewrite Hp].
    + intros ->. by apply Permutation_nil_l in Hp.
    + intros k Hk. apply I3, elem_of_app. by left.
    + intros k Hk. apply Hsub, Hvis. done.
    + intros Hall. destruct (I10 Hall). lia.
    + intros Hall k Hk. destruct (I10 Hall). specialize (I8 Hall k Hk).
      rewrite elem_of_empty, elem_of_nil in I8. destruct I8 as [|[|[|[|[? ?]]]]]; try tauto.
      right. right. split; [lia|done].
Qed.

(** With room for every key the search finds all that can be reached. *)
Lemma search_result_exact ep w V :
  search_result ep w V -> all_counted G U -> (forall k, k ∈ U -> g_level_ok G k = true) ->
  Z.of_nat (size U) <= ef ->
  forall e k, e ∈ ep -> rtc (fun a b => b ∈ g_neighbors G a) e k -> k ∈ w.
Proof using Type.
  intros R Hall Hlev Hef e k He Hk.
  assert (HVw : forall k, k ∈ V -> k ∈ w).
  { intros k' Hk'. destruct (sr_best _ _ _ R Hall k' Hk') as [|[Hl|[Hlen _]]]; [done| |].
    { rewrite Hlev in Hl by (by apply (sr_inside _ _ _ R)). done. }
    destruct (decide (k' ∈ w)) as [|Hn]; [done|]. exfalso.
    assert (Hs : (size (list_to_set (k' :: w) : gset K) <= size U)%nat).
    { apply subseteq_size. intros z Hz%elem_of_list_to_set. apply (sr_inside _ _ _ R).
      apply elem_of_cons in Hz as [->|Hz]; [done|]. by apply (sr_visited _ _ _ R). }
    rewrite size_list_to_set in Hs by (constructor; [done|apply R]). simpl in Hs. lia. }
  apply HVw. apply (sr_entries _ _ _ R) in He. revert He.
  induction Hk as [e|e k1 k2 H1 _ IH]; [done|]. intros He. apply IH.
  apply (sr_neighbors _ _ _ R e); auto.
Qed.

(** With [ef] at most 1 and one entry point there is one result. *)
Lemma search_result_single e w V :
  search_result [e] w V -> all_counted G U -> ef <= 1 -> exists r, w = [r].
Proof using Type.
  intros R Hall Hef. pose proof (sr_length _ _ _ R Hall) as Hl. pose proof (sr_nonempty _ _ _ R) as Hne.
  destruct w as [|r [|r' w]]; [done|eauto|]. simpl in Hl. lia.
Qed.
End Results.
