(* ===== verification/ItemPtr.v ===== *)
(** * Block numbers, offset numbers, item pointers and relative pointers

    src/pgvec/src/include/storage/block.h, off.h, itemptr.h,
    src/pgvec/src/backend/storage/page/itemptr.c and
    src/pgvec/src/include/utils/relptr.h. *)

From S2P Require Import Prelude.

(** ** Block and offset numbers *)

Abbreviation BlockNumber := Z (only parsing).
Abbreviation OffsetNumber := Z (only parsing).

Definition InvalidBlockNumber : BlockNumber := 0xFFFFFFFF.
Definition MaxBlockNumber : BlockNumber := 0xFFFFFFFE.
Definition BlockNumberIsValid (blockNumber : BlockNumber) : bool :=
  negb (blockNumber =? InvalidBlockNumber).

Definition InvalidOffsetNumber : OffsetNumber := 0.
Definition FirstOffsetNumber : OffsetNumber := 1.
Definition BLCKSZ : Z := 8192.
Definition MaxOffsetNumber : OffsetNumber := BLCKSZ / 4.

Definition OffsetNumberIsValid (offsetNumber : OffsetNumber) : bool :=
  negb (offsetNumber =? InvalidOffsetNumber) && (offsetNumber <=? MaxOffsetNumber).
Definition OffsetNumberNext (offsetNumber : OffsetNumber) : OffsetNumber := u16 (1 + offsetNumber).
Definition OffsetNumberPrev (offsetNumber : OffsetNumber) : OffsetNumber := u16 (-1 + offsetNumber).

(** ** Item pointers *)

Record BlockIdData := mkBlockId { bi_hi : Z; bi_lo : Z }.

Record ItemPointerData := mkItemPointer { ip_blkid : BlockIdData; ip_posid : OffsetNumber }.

#[export] Instance BlockIdData_eq_dec : EqDecision BlockIdData.
Proof. solve_decision. Defined.
#[export] Instance ItemPointerData_eq_dec : EqDecision ItemPointerData.
Proof. solve_decision. Defined.
#[export] Instance ItemPointerData_countable : Countable ItemPointerData.
Proof.
  refine (inj_countable' (fun p => (bi_hi (ip_blkid p), bi_lo (ip_blkid p), ip_posid p))
            (fun '(h, l, o) => mkItemPointer (mkBlockId h l) o) _).
  by intros [[h l] o].
Defined.

Definition BlockIdSet (blockNumber : BlockNumber) : BlockIdData :=
  mkBlockId (u16 (Z.shiftr blockNumber 16)) (Z.land blockNumber 0xffff).

Definition BlockIdGetBlockNumber (blockId : BlockIdData) : BlockNumber :=
  Z.lor (Z.shiftl (bi_hi blockId) 16) (bi_lo blockId).

Definition BlockIdEquals (blockId1 blockId2 : BlockIdData) : bool :=
  (bi_hi blockId1 =? bi_hi blockId2) && (bi_lo blockId1 =? bi_lo blockId2).

(** Magic numbers of the offset field, which no page can reach. *)
Definition SpecTokenOffsetNumber : OffsetNumber := 0xfffe.
Definition MovedPartitionsOffsetNumber : OffsetNumber := 0xfffd.
Definition MovedPartitionsBlockNumber : BlockNumber := InvalidBlockNumber.

Definition ItemPointerIsValid (pointer : ItemPointerData) : bool :=
  negb (ip_posid pointer =? 0).

Definition ItemPointerGetBlockNumberNoCheck (pointer : ItemPointerData) : BlockNumber :=
  BlockIdGetBlockNumber (ip_blkid pointer).
Definition ItemPointerGetOffsetNumberNoCheck (pointer : ItemPointerData) : OffsetNumber :=
  ip_posid pointer.

(** The assertions of these two are not compiled in. *)
Definition ItemPointerGetBlockNumber (pointer : ItemPointerData) : BlockNumber :=
  ItemPointerGetBlockNumberNoCheck pointer.
Definition ItemPointerGetOffsetNumber (pointer : ItemPointerData) : OffsetNumber :=
  ItemPointerGetOffsetNumberNoCheck pointer.

Definition ItemPointerSet (blockNumber : BlockNumber) (offNum : OffsetNumber) : ItemPointerData :=
  mkItemPointer (BlockIdSet blockNumber) offNum.

Definition ItemPointerSetBlockNumber (pointer : ItemPointerData) (blockNumber : BlockNumber) :
    ItemPointerData :=
  mkItemPointer (BlockIdSet blockNumber) (ip_posid pointer).
Definition ItemPointerSetOffsetNumber (pointer : ItemPointerData) (offsetNumber : OffsetNumber) :
    ItemPointerData :=
  mkItemPointer (ip_blkid pointer) offsetNumber.

(** The new value of [*toPointer]. *)
Definition ItemPointerCopy (fromPointer : ItemPointerData) : ItemPointerData := fromPointer.

Definition ItemPointerSetInvalid : ItemPointerData :=
  mkItemPointer (BlockIdSet InvalidBlockNumber) InvalidOffsetNumber.

Definition ItemPointerIndicatesMovedPartitions (pointer : ItemPointerData) : bool :=
  (ItemPointerGetOffsetNumber pointer =? MovedPartitionsOffsetNumber) &&
  (ItemPointerGetBlockNumberNoCheck pointer =? MovedPartitionsBlockNumber).
Definition ItemPointerSetMovedPartitions : ItemPointerData :=
  ItemPointerSet MovedPartitionsBlockNumber MovedPartitionsOffsetNumber.

Definition ItemPointerEquals (pointer1 pointer2 : ItemPointerData) : bool :=
  (ItemPointerGetBlockNumber pointer1 =? ItemPointerGetBlockNumber pointer2) &&
  (ItemPointerGetOffsetNumber pointer1 =? ItemPointerGetOffsetNumber pointer2).

Definition ItemPointerCompare (arg1 arg2 : ItemPointerData) : Z :=
  let b1 := ItemPointerGetBlockNumberNoCheck arg1 in
  let b2 := ItemPointerGetBlockNumberNoCheck arg2 in
  if b1 <? b2 then -1
  else if b2 <? b1 then 1
  else if ItemPointerGetOffsetNumberNoCheck arg1 <? ItemPointerGetOffsetNumberNoCheck arg2 then -1
  else if ItemPointerGetOffsetNumberNoCheck arg2 <? ItemPointerGetOffsetNumberNoCheck arg1 then 1
  else 0.

Definition PG_UINT16_MAX : Z := 0xFFFF.

(** The next and the previous value of the two fields; [blk++], [off--] and
    the like are taken in the width of the variable. *)
Definition ItemPointerInc (pointer : ItemPointerData) : ItemPointerData :=
  let blk := ItemPointerGetBlockNumberNoCheck pointer in
  let off := ItemPointerGetOffsetNumberNoCheck pointer in
  let '(blk, off) :=
    if off =? PG_UINT16_MAX then
      if negb (blk =? InvalidBlockNumber) then (u32 (blk + 1), 0) else (blk, off)
    else (blk, u16 (off + 1)) in
  ItemPointerSet blk off.

Definition ItemPointerDec (pointer : ItemPointerData) : ItemPointerData :=
  let blk := ItemPointerGetBlockNumberNoCheck pointer in
  let off := ItemPointerGetOffsetNumberNoCheck pointer in
  let '(blk, off) :=
    if off =? 0 then
      if negb (blk =? 0) then (u32 (blk - 1), PG_UINT16_MAX) else (blk, off)
    else (blk, u16 (off - 1)) in
  ItemPointerSet blk off.

(** The values the fields of the C structures can hold. *)
Definition BlockNumber_ok (b : BlockNumber) : Prop := 0 <= b < 2 ^ 32.
Definition OffsetNumber_ok (o : OffsetNumber) : Prop := 0 <= o < 2 ^ 16.
Definition ItemPointer_ok (p : ItemPointerData) : Prop :=
  0 <= bi_hi (ip_blkid p) < 2 ^ 16 /\ 0 <= bi_lo (ip_blkid p) < 2 ^ 16 /\ OffsetNumber_ok (ip_posid p).

(** ** Relative pointers

    An address is a natural number and [NULL] is 0.  A pointer of a union
    [HnswElementPtr] is an address when [base] is [NULL] and otherwise the
    offset that [relptr_store] computes. *)

Abbreviation addr := N (only parsing).
Definition NULL : addr := 0%N.

Definition relptr_access (base rp : addr) : addr :=
  if (rp =? 0)%N then NULL else (base + rp - 1)%N.
Definition relptr_store_eval (base val : addr) : addr :=
  if (val =? NULL)%N then 0%N else (val - base + 1)%N.
Definition relptr_is_null (rp : addr) : bool := (rp =? 0)%N.
(** The new value of [rp1]. *)
Definition relptr_copy (rp2 : addr) : addr := rp2.
(** [relptr_off - 1] in the unsigned type [Size]. *)
Definition relptr_offset (rp : addr) : Z := (Z.of_N rp - 1) mod 2 ^ 64.

(** ** Lemmas *)

Lemma BlockIdGet_arith b : 0 <= bi_lo b < 2 ^ 16 ->
  BlockIdGetBlockNumber b = bi_hi b * 2 ^ 16 + bi_lo b.
Proof.
  intros Hlo. unfold BlockIdGetBlockNumber. by apply lor_shiftl_low.
Qed.

Lemma BlockIdSet_arith b : BlockNumber_ok b ->
  BlockIdSet b = mkBlockId (b / 2 ^ 16) (b mod 2 ^ 16).
Proof.
  intros Hb. unfold BlockNumber_ok in Hb. unfold BlockIdSet. f_equal.
  - rewrite Z.shiftr_div_pow2 by lia. apply u16_small.
    split; [apply Z.div_pos; lia | apply Z.div_lt_upper_bound; lia].
  - change 0xffff with (Z.ones 16). apply Z.land_ones. lia.
Qed.

Lemma ItemPointerGet_Set b o : BlockNumber_ok b ->
  ItemPointerGetBlockNumber (ItemPointerSet b o) = b /\
  ItemPointerGetOffsetNumber (ItemPointerSet b o) = o.
Proof.
  intros Hb. split; [|done].
  unfold ItemPointerGetBlockNumber, ItemPointerGetBlockNumberNoCheck, ItemPointerSet. simpl.
  rewrite BlockIdSet_arith by done.
  pose proof (Z.mod_pos_bound b (2 ^ 16)). rewrite BlockIdGet_arith by (cbn [bi_lo]; lia).
  cbn [bi_hi bi_lo]. pose proof (Z.div_mod b (2 ^ 16)). lia.
Qed.

Lemma ItemPointerSet_Get p : ItemPointer_ok p ->
  ItemPointerSet (ItemPointerGetBlockNumber p) (ItemPointerGetOffsetNumber p) = p.
Proof.
  intros (Hh & Hl & Ho). destruct p as [[h l] o]. simpl in *.
  unfold ItemPointerSet, ItemPointerGetBlockNumber, ItemPointerGetBlockNumberNoCheck. simpl.
  rewrite BlockIdGet_arith by done. simpl. f_equal.
  rewrite BlockIdSet_arith by (unfold BlockNumber_ok; lia).
  f_equal; [symmetry; apply (Z.div_unique _ _ _ l) | symmetry; apply (Z.mod_unique _ _ h)]; lia.
Qed.

Lemma ItemPointerSet_ok b o : BlockNumber_ok b -> OffsetNumber_ok o -> ItemPointer_ok (ItemPointerSet b o).
Proof.
  intros Hb Ho. unfold ItemPointerSet, ItemPointer_ok. cbn [ip_blkid ip_posid].
  rewrite BlockIdSet_arith by done. unfold BlockNumber_ok in Hb. cbn [bi_hi bi_lo]. split; [|split; [apply Z.mod_pos_bound; lia | done]].
  split; [apply Z.div_pos; lia | apply Z.div_lt_upper_bound; lia].
Qed.

Lemma ItemPointerGetBlockNumber_ok p : ItemPointer_ok p -> BlockNumber_ok (ItemPointerGetBlockNumber p).
Proof.
  intros (Hh & Hl & Ho). unfold ItemPointerGetBlockNumber, ItemPointerGetBlockNumberNoCheck, BlockNumber_ok.
  rewrite BlockIdGet_arith by done. lia.
Qed.

Lemma ItemPointerSet_inj b o b' o' : BlockNumber_ok b -> BlockNumber_ok b' ->
  ItemPointerSet b o = ItemPointerSet b' o' -> b = b' /\ o = o'.
Proof.
  intros Hb Hb' H. destruct (ItemPointerGet_Set b o Hb) as [H1 H2].
  destruct (ItemPointerGet_Set b' o' Hb') as [H3 H4]. rewrite H in H1, H2. split; congruence.
Qed.

Lemma ItemPointerSetInvalid_invalid : ItemPointerIsValid ItemPointerSetInvalid = false.
Proof. reflexivity. Qed.

#[export] Hint Resolve ItemPointerSet_ok ItemPointerGetBlockNumber_ok : hnsw.

(** [BlockIdEquals] compares the numbers. *)
Lemma BlockIdEquals_iff b1 b2 : BlockNumber_ok b1 -> BlockNumber_ok b2 ->
  BlockIdEquals (BlockIdSet b1) (BlockIdSet b2) = true <-> b1 = b2.
Proof.
  intros H1 H2. unfold BlockIdEquals. rewrite andb_true_iff, !Z.eqb_eq, !BlockIdSet_arith by done.
  cbn [bi_hi bi_lo]. split; [|by intros ->]. intros [Hh Hl].
  pose proof (Z.div_mod b1 (2 ^ 16)). pose proof (Z.div_mod b2 (2 ^ 16)). lia.
Qed.

(** The setters change one field and keep the other. *)
Lemma ItemPointerSet_fields p b o : BlockNumber_ok b ->
  ItemPointerGetBlockNumber (ItemPointerSetBlockNumber p b) = b /\
  ItemPointerGetOffsetNumber (ItemPointerSetBlockNumber p b) = ItemPointerGetOffsetNumber p /\
  ItemPointerGetBlockNumber (ItemPointerSetOffsetNumber p o) = ItemPointerGetBlockNumber p /\
  ItemPointerGetOffsetNumber (ItemPointerSetOffsetNumber p o) = o.
Proof. intros Hb. split_and!; try done. exact (proj1 (ItemPointerGet_Set b _ Hb)). Qed.

(** Stepping an offset number forth and back is the identity, at the ends of
    the type too. *)
Lemma OffsetNumberPrev_Next o : OffsetNumber_ok o ->
  OffsetNumberPrev (OffsetNumberNext o) = o /\ OffsetNumberNext (OffsetNumberPrev o) = o.
Proof. unfold OffsetNumber_ok, OffsetNumberPrev, OffsetNumberNext, u16. intros. Z.div_mod_to_equations. lia. Qed.

(** The marks of the offset field are not offsets of a page, so that a
    pointer to a tuple is never taken for one. *)
Lemma moved_partitions_distinct p : OffsetNumberIsValid (ItemPointerGetOffsetNumber p) = true ->
  ItemPointerIndicatesMovedPartitions p = false /\
  ItemPointerGetOffsetNumber p <> SpecTokenOffsetNumber.
Proof.
  unfold OffsetNumberIsValid, ItemPointerIndicatesMovedPartitions, MaxOffsetNumber, BLCKSZ,
    SpecTokenOffsetNumber, MovedPartitionsOffsetNumber.
  rewrite andb_true_iff, Z.leb_le. change (8192 / 4) with 2048. intros [_ H].
  split; [|lia]. destruct (Z.eqb_spec (ItemPointerGetOffsetNumber p) 0xfffd); [lia|done].
Qed.

Lemma moved_partitions_set :
  ItemPointerIndicatesMovedPartitions ItemPointerSetMovedPartitions = true.
Proof. reflexivity. Qed.

(** The position of a pointer in the order of (block, offset). *)
Definition ip_rank (p : ItemPointerData) : Z :=
  ItemPointerGetBlockNumber p * 2 ^ 16 + ItemPointerGetOffsetNumber p.

Lemma ip_rank_bounds p : ItemPointer_ok p -> 0 <= ip_rank p < 2 ^ 48.
Proof.
  intros Hp. pose proof (ItemPointerGetBlockNumber_ok p Hp) as Hb. destruct Hp as (_ & _ & Ho).
  unfold ip_rank, BlockNumber_ok, OffsetNumber_ok, ItemPointerGetOffsetNumber,
    ItemPointerGetOffsetNumberNoCheck in *. lia.
Qed.

Lemma ip_rank_Set b o : BlockNumber_ok b -> ip_rank (ItemPointerSet b o) = b * 2 ^ 16 + o.
Proof. intros Hb. unfold ip_rank. by destruct (ItemPointerGet_Set b o Hb) as [-> ->]. Qed.

(** [ItemPointerCompare] is the order of the ranks. *)
Lemma ItemPointerCompare_rank p q : ItemPointer_ok p -> ItemPointer_ok q ->
  ItemPointerCompare p q = Z.sgn (ip_rank p - ip_rank q).
Proof.
  intros Hp Hq. pose proof (ItemPointerGetBlockNumber_ok p Hp). pose proof (ItemPointerGetBlockNumber_ok q Hq).
  destruct Hp as (_ & _ & Hp), Hq as (_ & _ & Hq).
  unfold ItemPointerCompare, ip_rank, BlockNumber_ok, OffsetNumber_ok, ItemPointerGetBlockNumber,
    ItemPointerGetOffsetNumber, ItemPointerGetOffsetNumberNoCheck in *.
  case_cmp; lia.
Qed.

(** [ItemPointerInc] steps to the next pointer and stays at the last one;
    [ItemPointerDec] steps to the previous one and stays at the first. *)
Lemma ItemPointerInc_rank p : ItemPointer_ok p ->
  ItemPointer_ok (ItemPointerInc p) /\ ip_rank (ItemPointerInc p) = Z.min (ip_rank p + 1) (2 ^ 48 - 1).
Proof.
  intros Hp. pose proof (ItemPointerGetBlockNumber_ok p Hp) as Hb. destruct Hp as (_ & _ & Ho).
  unfold ItemPointerInc, PG_UINT16_MAX, InvalidBlockNumber, ip_rank at 2.
  unfold ItemPointerGetBlockNumber, ItemPointerGetOffsetNumber, ItemPointerGetOffsetNumberNoCheck in *.
  unfold BlockNumber_ok, OffsetNumber_ok in *.
  destruct (Z.eqb_spec (ip_posid p) 0xFFFF), (Z.eqb_spec (ItemPointerGetBlockNumberNoCheck p) 0xFFFFFFFF);
    cbn [negb]; (split; [apply ItemPointerSet_ok | rewrite ip_rank_Set]);
    unfold BlockNumber_ok, OffsetNumber_ok, u16, u32; Z.div_mod_to_equations; lia.
Qed.

Lemma ItemPointerDec_rank p : ItemPointer_ok p ->
  ItemPointer_ok (ItemPointerDec p) /\ ip_rank (ItemPointerDec p) = Z.max (ip_rank p - 1) 0.
Proof.
  intros Hp. pose proof (ItemPointerGetBlockNumber_ok p Hp) as Hb. destruct Hp as (_ & _ & Ho).
  unfold ItemPointerDec, PG_UINT16_MAX, ip_rank at 2.
  unfold ItemPointerGetBlockNumber, ItemPointerGetOffsetNumber, ItemPointerGetOffsetNumberNoCheck in *.
  unfold BlockNumber_ok, OffsetNumber_ok in *.
  destruct (Z.eqb_spec (ip_posid p) 0), (Z.eqb_spec (ItemPointerGetBlockNumberNoCheck p) 0);
    cbn [negb]; (split; [apply ItemPointerSet_ok | rewrite ip_rank_Set]);
    unfold BlockNumber_ok, OffsetNumber_ok, u16, u32; Z.div_mod_to_equations; lia.
Qed.

Lemma ip_rank_inj p q : ItemPointer_ok p -> ItemPointer_ok q -> ip_rank p = ip_rank q -> p = q.
Proof.
  intros Hp Hq H. rewrite <- (ItemPointerSet_Get p), <- (ItemPointerSet_Get q) by done.
  pose proof (ItemPointerGetBlockNumber_ok p Hp). pose proof (ItemPointerGetBlockNumber_ok q Hq).
  destruct Hp as (_ & _ & Hp), Hq as (_ & _ & Hq). unfold ip_rank, OffsetNumber_ok in *.
  unfold ItemPointerGetOffsetNumber, ItemPointerGetOffsetNumberNoCheck in *. f_equal; lia.
Qed.

(** Away from the last pointer the two undo each other. *)
Lemma ItemPointerDec_Inc p : ItemPointer_ok p -> ip_rank p < 2 ^ 48 - 1 ->
  ItemPointerDec (ItemPointerInc p) = p.
Proof.
  intros Hp Hlt. destruct (ItemPointerInc_rank p Hp) as [Hi Ri].
  destruct (ItemPointerDec_rank _ Hi) as [Hd Rd]. apply ip_rank_inj; [done..|].
  pose proof (ip_rank_bounds p Hp). lia.
Qed.

(** What [relptr_store] stores, [relptr_access] reads back, and conversely. *)
Lemma relptr_access_store base val : (base <= val)%N -> relptr_access base (relptr_store_eval base val) = val.
Proof.
  unfold relptr_access, relptr_store_eval, NULL. intros.
  destruct (N.eqb_spec val 0); [done|]. destruct (N.eqb_spec (val - base + 1) 0); lia.
Qed.

Lemma relptr_store_access base rp : (0 < base)%N -> relptr_store_eval base (relptr_access base rp) = rp.
Proof.
  unfold relptr_access, relptr_store_eval, NULL. intros.
  destruct (N.eqb_spec rp 0) as [->|]; [done|]. destruct (N.eqb_spec (base + rp - 1) 0); lia.
Qed.

(** Item pointers lose nothing: what [ItemPointerSet] stores in three
    16-bit fields is read back, every pointer is the one that its block and
    offset numbers give, and [ItemPointerEquals] and [ItemPointerCompare]
    decide equality and the order of (block, offset). *)
Theorem ItemPointer_roundtrip p q b o :
  ItemPointer_ok p -> ItemPointer_ok q -> BlockNumber_ok b ->
  ItemPointerGetBlockNumber (ItemPointerSet b o) = b /\
  ItemPointerGetOffsetNumber (ItemPointerSet b o) = o /\
  ItemPointerSet (ItemPointerGetBlockNumber p) (ItemPointerGetOffsetNumber p) = p /\
  (ItemPointerEquals p q = true <-> p = q) /\
  (ItemPointerCompare p q = 0 <-> p = q) /\
  (ItemPointerCompare p q = -1 <-> ItemPointerCompare q p = 1).
Proof.
  intros Hp Hq Hb. destruct (ItemPointerGet_Set b o Hb) as [H1 H2].
  assert (Heq : ItemPointerGetBlockNumber p = ItemPointerGetBlockNumber q ->
                ItemPointerGetOffsetNumber p = ItemPointerGetOffsetNumber q -> p = q).
  { intros E1 E2. by rewrite <- (ItemPointerSet_Get p), <- (ItemPointerSet_Get q), E1, E2. }
  split_and!; [done|done|by apply ItemPointerSet_Get| | |].
  - unfold ItemPointerEquals. rewrite andb_true_iff, !Z.eqb_eq. split; [intros []; auto | by intros ->].
  - unfold ItemPointerCompare. unfold ItemPointerGetBlockNumber, ItemPointerGetOffsetNumber in Heq.
    case_cmp; split; try done; try (intros ->; lia). intros _. apply Heq; lia.
  - unfold ItemPointerCompare. case_cmp; split; try done; lia.
Qed.

Lemma ItemPointer_roundtrip_witness :
  ItemPointerGetBlockNumber (ItemPointerSet 70000 3) = 70000 /\
  ItemPointerGetOffsetNumber (ItemPointerSet 70000 3) = 3 /\
  ItemPointerSet (ItemPointerGetBlockNumber (ItemPointerSet 1 1)) 1 = ItemPointerSet 1 1 /\
  (ItemPointerEquals (ItemPointerSet 1 1) (ItemPointerSet 1 2) = true <->
   ItemPointerSet 1 1 = ItemPointerSet 1 2) /\
  (ItemPointerCompare (ItemPointerSet 1 1) (ItemPointerSet 1 2) = 0 <->
   ItemPointerSet 1 1 = ItemPointerSet 1 2) /\
  (ItemPointerCompare (ItemPointerSet 1 1) (ItemPointerSet 1 2) = -1 <->
   ItemPointerCompare (ItemPointerSet 1 2) (ItemPointerSet 1 1) = 1).
Proof.
  apply (ItemPointer_roundtrip (ItemPointerSet 1 1) (ItemPointerSet 1 2) 70000 3);
    [apply ItemPointerSet_ok | apply ItemPointerSet_ok |]; unfold BlockNumber_ok, OffsetNumber_ok; lia.
Defined.
