(* ===== verification/Hash.v ===== *)
(** * Hash functions of the visited sets

    [murmurhash64] of src/pgvec/src/include/common/hashfn.h and the hash
    functions of src/pgvec/src/backend/access/hnsw/hnswutils.c, on 64-bit words. *)

From S2P Require Import Prelude ItemPtr.

(** 64-bit words, with their wrap-around. *)
Definition u64 (z : Z) : Z := z mod 2 ^ 64.

Definition murmurhash32 (data : Z) : Z :=
  let h := data in
  let h := Z.lxor h (Z.shiftr h 16) in
  let h := u32 (h * 0x85ebca6b) in
  let h := Z.lxor h (Z.shiftr h 13) in
  let h := u32 (h * 0xc2b2ae35) in
  Z.lxor h (Z.shiftr h 16).

Definition murmurhash64 (data : Z) : Z :=
  let h := data in
  let h := Z.lxor h (Z.shiftr h 33) in
  let h := u64 (h * 0xff51afd7ed558ccd) in
  let h := Z.lxor h (Z.shiftr h 33) in
  let h := u64 (h * 0xc4ceb9fe1a85ec53) in
  Z.lxor h (Z.shiftr h 33).

(** The bytes of a TID in a zeroed word, on a little-endian machine. *)
Definition tid_word (tid : ItemPointerData) : Z :=
  bi_hi (ip_blkid tid) + Z.shiftl (bi_lo (ip_blkid tid)) 16 + Z.shiftl (ip_posid tid) 32.

Definition hash_tid (tid : ItemPointerData) : Z := u32 (murmurhash64 (tid_word tid)).
(** SIZEOF_VOID_P and SIZEOF_SIZE_T are 8. *)
Definition hash_pointer (ptr : Z) : Z := u32 (murmurhash64 (u64 ptr)).
Definition hash_offset (offset : Z) : Z := u32 (murmurhash64 (u64 offset)).

(** ** The 64-bit mix is a bijection

    Distinct keys only collide through the truncation to 32 bits. *)

Definition xorshift (k h : Z) : Z := Z.lxor h (Z.shiftr h k).

Lemma word_bits h : 0 <= h < 2 ^ 64 <-> 0 <= h /\ forall i, 64 <= i -> Z.testbit h i = false.
Proof.
  split.
  - intros [H0 H1]. split; [done|]. intros i Hi. destruct (decide (h = 0)) as [->|Hn]; [apply Z.testbit_0_l|].
    apply Z.bits_above_log2; [done|]. apply Z.log2_lt_pow2; [lia|].
    eapply Z.lt_le_trans; [exact H1|]. apply Z.pow_le_mono_r; lia.
  - intros [H0 Hb]. split; [done|]. destruct (decide (h = 0)) as [->|Hn]; [lia|].
    apply Z.log2_lt_pow2; [lia|]. apply Z.nle_gt. intros Hlog.
    pose proof (Z.bit_log2 h ltac:(lia)) as Ht. rewrite Hb in Ht; done.
Qed.

Lemma xorshift_word k h : 0 <= k -> 0 <= h < 2 ^ 64 -> 0 <= xorshift k h < 2 ^ 64.
Proof.
  intros Hk Hh. apply word_bits in Hh as [H0 Hb]. apply word_bits. unfold xorshift. split.
  - apply Z.lxor_nonneg. rewrite Z.shiftr_nonneg. done.
  - intros i Hi. rewrite Z.lxor_spec, Z.shiftr_spec, !Hb by lia. done.
Qed.

(** A shift by more than half of the word undoes itself. *)
Lemma xorshift_involutive k h : 32 <= k -> 0 <= h < 2 ^ 64 -> xorshift k (xorshift k h) = h.
Proof.
  intros Hk Hh. apply word_bits in Hh as [H0 Hb]. unfold xorshift. apply Z.bits_inj'. intros i Hi.
  rewrite !Z.lxor_spec, !Z.shiftr_spec, !Z.lxor_spec, !Z.shiftr_spec by lia.
  rewrite (Hb (i + k + k)) by lia. destruct (Z.testbit h i), (Z.testbit h (i + k)); done.
Qed.

Lemma u64_word z : 0 <= u64 z < 2 ^ 64.
Proof. apply Z.mod_pos_bound. lia. Qed.

(** Multiplication by a constant that has an inverse modulo 2^64. *)
Lemma mul_inverse c d h : u64 (c * d) = 1 -> 0 <= h < 2 ^ 64 -> u64 (u64 (h * c) * d) = h.
Proof.
  unfold u64. intros Hcd Hh. rewrite Zmult_mod_idemp_l.
  replace (h * c * d) with (h * (c * d)) by lia. rewrite <- Zmult_mod_idemp_r, Hcd, Z.mul_1_r.
  by apply Z.mod_small.
Qed.

Definition murmurhash64_inverse (data : Z) : Z :=
  let h := xorshift 33 data in
  let h := u64 (h * 0x9cb4b2f8129337db) in
  let h := xorshift 33 h in
  let h := u64 (h * 0x4f74430c22a54005) in
  xorshift 33 h.

Lemma murmurhash64_eq h :
  murmurhash64 h = xorshift 33 (u64 (xorshift 33 (u64 (xorshift 33 h * 0xff51afd7ed558ccd)) * 0xc4ceb9fe1a85ec53)).
Proof. reflexivity. Qed.

Lemma murmurhash64_inverse_eq h :
  murmurhash64_inverse h = xorshift 33 (u64 (xorshift 33 (u64 (xorshift 33 h * 0x9cb4b2f8129337db)) * 0x4f74430c22a54005)).
Proof. reflexivity. Qed.

Lemma tid_word_range tid : ItemPointer_ok tid -> 0 <= tid_word tid < 2 ^ 64.
Proof.
  intros (Hh & Hl & Ho). unfold tid_word, OffsetNumber_ok in *. rewrite !Z.shiftl_mul_pow2 by lia. lia.
Qed.

Lemma tid_word_inj p q : ItemPointer_ok p -> ItemPointer_ok q -> tid_word p = tid_word q -> p = q.
Proof.
  destruct p as [[ph pl] po], q as [[qh ql] qo]. unfold ItemPointer_ok, OffsetNumber_ok, tid_word; simpl.
  rewrite !Z.shiftl_mul_pow2 by lia. intros Hp Hq Heq.
  assert (po = qo) as -> by lia. assert (pl = ql) as -> by lia. assert (ph = qh) as -> by lia. done.
Qed.

(** [murmurhash64] is a bijection of the 64-bit words, with the given
    inverse; [hash_tid] applies it to a word that determines the TID.  So two
    keys of a visited set that differ have different 64-bit hashes, and only the
    truncation to 32 bits can make them collide. *)
Theorem murmurhash64_bijective h p q : 0 <= h < 2 ^ 64 -> ItemPointer_ok p -> ItemPointer_ok q ->
  0 <= murmurhash64 h < 2 ^ 64 /\ murmurhash64_inverse (murmurhash64 h) = h /\
  murmurhash64 (murmurhash64_inverse h) = h /\
  (murmurhash64 (tid_word p) = murmurhash64 (tid_word q) -> p = q).
Proof.
  intros Hh Hp Hq.
  assert (forall x, 0 <= x < 2 ^ 64 -> murmurhash64_inverse (murmurhash64 x) = x) as Hinv.
  { intros x Hx. rewrite murmurhash64_eq, murmurhash64_inverse_eq.
    rewrite xorshift_involutive by (lia || apply u64_word).
    rewrite (mul_inverse 0xc4ceb9fe1a85ec53 0x9cb4b2f8129337db); [|reflexivity|apply xorshift_word; [lia|apply u64_word]].
    rewrite xorshift_involutive by (lia || apply u64_word).
    rewrite (mul_inverse 0xff51afd7ed558ccd 0x4f74430c22a54005); [|reflexivity|apply xorshift_word; [lia|done]].
    apply xorshift_involutive; [lia|done]. }
  split_and!.
  - rewrite murmurhash64_eq. apply xorshift_word; [lia|apply u64_word].
  - rewrite murmurhash64_eq. apply xorshift_word; [lia|apply u64_word].
  - by apply Hinv.
  - rewrite murmurhash64_eq, murmurhash64_inverse_eq.
    rewrite xorshift_involutive by (lia || apply u64_word).
    rewrite (mul_inverse 0x4f74430c22a54005 0xff51afd7ed558ccd); [|reflexivity|apply xorshift_word; [lia|apply u64_word]].
    rewrite xorshift_involutive by (lia || apply u64_word).
    rewrite (mul_inverse 0x9cb4b2f8129337db 0xc4ceb9fe1a85ec53); [|reflexivity|apply xorshift_word; [lia|done]].
    apply xorshift_involutive; [lia|done].
  - intros Heq. apply tid_word_inj; [done|done|].
    rewrite <- (Hinv (tid_word p)), <- (Hinv (tid_word q)), Heq by by apply tid_word_range. done.
Qed.

Lemma murmurhash64_bijective_witness :
  0 <= murmurhash64 42 < 2 ^ 64 /\ murmurhash64_inverse (murmurhash64 42) = 42 /\
  murmurhash64 (murmurhash64_inverse 42) = 42 /\
  (murmurhash64 (tid_word (ItemPointerSet 1 1)) = murmurhash64 (tid_word (ItemPointerSet 1 3)) ->
   ItemPointerSet 1 1 = ItemPointerSet 1 3).
Proof.
  apply (murmurhash64_bijective 42 (ItemPointerSet 1 1) (ItemPointerSet 1 3)); [lia| |]; by vm_compute.
Defined.
