(* ===== verification/SimpleHash.v ===== *)
(** * Hash tables

    The hash tables of the visited sets, as src/pgvec/src/include/lib/simplehash.h
    generates them: open addressing with Robin Hood hashing.  The class
    [SimpleHash] has the parameters of the template; hnswutils.c includes it
    three times, for TIDs, pointers and offsets, without SH_STORE_HASH.  Assertions are
    [UndefinedBehaviour] when they fail. *)

From Stdlib Require Import SpecFloat.
From S2P Require Import Prelude CFloat ItemPtr Hash.

(** ** The template's parameters and data *)

Class SimpleHash (K : Type) := {
  SH_HASH_KEY : K -> Z;
  SH_EQUAL : K -> K -> bool;
  (** sizeof(SH_ELEMENT_TYPE): the key and a status byte, aligned. *)
  sizeof_element : Z
}.

(** A bucket that is not in use is [None]. *)
Record SH_TYPE (K : Type) : Type := mkTable {
  sh_size : Z;
  sh_members : Z;
  sh_sizemask : Z;
  sh_grow_threshold : Z;
  sh_data : list (option K)
}.

Arguments mkTable {K}.
Arguments sh_size {K}.
Arguments sh_members {K}.
Arguments sh_sizemask {K}.
Arguments sh_grow_threshold {K}.
Arguments sh_data {K}.

Definition set_data {K} (data : list (option K)) (tb : SH_TYPE K) : SH_TYPE K :=
  mkTable (sh_size tb) (sh_members tb) (sh_sizemask tb) (sh_grow_threshold tb) data.
Definition add_member {K} (tb : SH_TYPE K) : SH_TYPE K :=
  mkTable (sh_size tb) (u32 (sh_members tb + 1)) (sh_sizemask tb) (sh_grow_threshold tb) (sh_data tb).
(** So that the next check finds the table too full. *)
Definition force_grow {K} (tb : SH_TYPE K) : SH_TYPE K :=
  mkTable (sh_size tb) (sh_members tb) (sh_sizemask tb) 0 (sh_data tb).

Definition SH_MAX_SIZE : Z := 2 ^ 32.
(** The literals 0.9, 0.98 and 0.1. *)
Definition SH_FILLFACTOR : double := ddiv (double_of_Z 9) (double_of_Z 10).
Definition SH_MAX_FILLFACTOR : double := ddiv (double_of_Z 98) (double_of_Z 100).
Definition SH_GROW_MIN_FILLFACTOR : double := ddiv (double_of_Z 1) (double_of_Z 10).
Definition SH_GROW_MAX_DIB : Z := 25.
Definition SH_GROW_MAX_MOVE : Z := 150.

(** The conversion of a [double] to an unsigned type of [w] bits: truncation,
    undefined out of range. *)
Definition uint_of_double (w : Z) (d : double) : res Z :=
  match d with
  | S754_zero _ => Ok 0
  | S754_finite s m e =>
      let a := if 0 <=? e then Z.pos m * 2 ^ e else Z.pos m / 2 ^ (- e) in
      let z := if s then - a else a in
      if (0 <=? z) && (z <? 2 ^ w) then Ok z else Err UndefinedBehaviour
  | _ => Err UndefinedBehaviour
  end.

Definition pg_nextpower2_64 (num : Z) : res Z :=
  raise_if ((num <=? 0) || (2 ^ 63 <? num)) UndefinedBehaviour ;;
  Ok (if Z.land num (num - 1) =? 0 then num else u64 (Z.shiftl 1 (Z.log2 num + 1))).

Definition bucket_at {K} (data : list (option K)) (i : Z) : res (option K) :=
  if i <? 0 then Err UndefinedBehaviour else of_option UndefinedBehaviour (data !! Z.to_nat i).

Definition SH_INITIAL_BUCKET {K} (tb : SH_TYPE K) (hash : Z) : Z := Z.land hash (sh_sizemask tb).

Definition SH_NEXT {K} (tb : SH_TYPE K) (curelem startelem : Z) : res Z :=
  let curelem := Z.land (u32 (curelem + 1)) (sh_sizemask tb) in
  raise_if (curelem =? startelem) UndefinedBehaviour ;; Ok curelem.

Definition SH_PREV {K} (tb : SH_TYPE K) (curelem startelem : Z) : res Z :=
  let curelem := Z.land (u32 (curelem - 1)) (sh_sizemask tb) in
  raise_if (curelem =? startelem) UndefinedBehaviour ;; Ok curelem.

Definition SH_DISTANCE_FROM_OPTIMAL {K} (tb : SH_TYPE K) (optimal bucket : Z) : Z :=
  if optimal <=? bucket then bucket - optimal else u32 (sh_size tb + bucket - optimal).

(** (double) members / size >= SH_GROW_MIN_FILLFACTOR *)
Definition filled_enough {K} (tb : SH_TYPE K) : bool :=
  fle SH_GROW_MIN_FILLFACTOR (ddiv (double_of_Z (sh_members tb)) (double_of_Z (sh_size tb))).

(** What a search for a bucket ends with: the bucket of the key and whether the key
    was there, or [goto restart]. *)
Inductive insertion (K : Type) : Type :=
  | Inserted (tb : SH_TYPE K) (bucket : Z) (found : bool)
  | Restart (tb : SH_TYPE K).

Arguments Inserted {K}.
Arguments Restart {K}.

Section SimpleHash.
Context {K : Type} `{SimpleHash K}.

(** ** Size *)

Definition SH_COMPUTE_SIZE (newsize : Z) : res Z :=
  let size := Z.max newsize 2 in
  size ← pg_nextpower2_64 size ;
  raise_if (SH_MAX_SIZE <? size) UndefinedBehaviour ;;
  raise_if ((2 ^ 64 - 1) / 2 <=? u64 (sizeof_element * size)) ERR_hash_table_too_large ;;
  Ok size.

Definition SH_UPDATE_PARAMETERS (tb : SH_TYPE K) (newsize : Z) : res (SH_TYPE K) :=
  size ← SH_COMPUTE_SIZE newsize ;
  threshold ← uint_of_double 32 (dmul (double_of_Z size) (if size =? SH_MAX_SIZE then SH_MAX_FILLFACTOR else SH_FILLFACTOR)) ;
  Ok (mkTable size (sh_members tb) (u32 (size - 1)) threshold (sh_data tb)).

Definition SH_ALLOCATE (size : Z) : list (option K) := replicate (Z.to_nat size) None.

Definition SH_CREATE (nelements : Z) : res (SH_TYPE K) :=
  let wanted := ddiv (double_of_Z nelements) SH_FILLFACTOR in
  size ← uint_of_double 64 (if flt (double_of_Z SH_MAX_SIZE) wanted then double_of_Z SH_MAX_SIZE else wanted) ;
  size ← SH_COMPUTE_SIZE size ;
  SH_UPDATE_PARAMETERS (mkTable 0 0 0 0 (SH_ALLOCATE size)) size.

(** ** Growing *)

(** The first bucket that is empty or has an entry at its optimal position; the
    parameters are those of the new table already. *)
Fixpoint find_start (tb : SH_TYPE K) (olddata : list (option K)) (i : Z) : Z :=
  match olddata with
  | [] => 0
  | None :: _ => i
  | Some key :: olddata => if SH_INITIAL_BUCKET tb (SH_HASH_KEY key) =? i then i else find_start tb olddata (i + 1)
  end.

Fixpoint find_empty (fuel : nat) (tb : SH_TYPE K) (startelem2 curelem : Z) : res Z :=
  entry ← bucket_at (sh_data tb) curelem ;
  match entry with
  | None => Ok curelem
  | Some _ =>
      match fuel with
      | O => Err OutOfFuel
      | S fuel => curelem ← SH_NEXT tb curelem startelem2 ; find_empty fuel tb startelem2 curelem
      end
  end.

(** [n] more buckets of the old table are to be copied. *)
Fixpoint copy_entries (n : nat) (olddata : list (option K)) (oldsize copyelem : Z) (tb : SH_TYPE K) : res (SH_TYPE K) :=
  match n with
  | O => Ok tb
  | S n =>
      oldentry ← bucket_at olddata copyelem ;
      tb ← (match oldentry with
            | None => Ok tb
            | Some key =>
                let startelem2 := SH_INITIAL_BUCKET tb (SH_HASH_KEY key) in
                curelem ← find_empty (Z.to_nat (sh_size tb)) tb startelem2 startelem2 ;
                Ok (set_data (<[Z.to_nat curelem := oldentry]> (sh_data tb)) tb)
            end) ;
      let copyelem := u32 (copyelem + 1) in
      copy_entries n olddata oldsize (if oldsize <=? copyelem then 0 else copyelem) tb
  end.

Definition SH_GROW (tb : SH_TYPE K) (newsize : Z) : res (SH_TYPE K) :=
  let oldsize := sh_size tb in
  let olddata := sh_data tb in
  power ← pg_nextpower2_64 oldsize ;
  raise_if (negb (oldsize =? power) || (oldsize =? SH_MAX_SIZE) || (newsize <=? oldsize)) UndefinedBehaviour ;;
  newsize ← SH_COMPUTE_SIZE newsize ;
  tb ← SH_UPDATE_PARAMETERS (set_data (SH_ALLOCATE newsize) tb) newsize ;
  copy_entries (Z.to_nat oldsize) olddata oldsize (find_start tb olddata 0) tb.

(** ** Insertion *)

(** The next empty bucket, or [None] for [goto restart]. *)
Fixpoint find_shift (fuel : nat) (tb : SH_TYPE K) (startelem emptyelem emptydist : Z) : res (option Z) :=
  emptyelem ← SH_NEXT tb emptyelem startelem ;
  entry ← bucket_at (sh_data tb) emptyelem ;
  match entry with
  | None => Ok (Some emptyelem)
  | Some _ =>
      let emptydist := emptydist + 1 in
      if (SH_GROW_MAX_MOVE <? emptydist) && filled_enough tb then Ok None
      else
        match fuel with
        | O => Err OutOfFuel
        | S fuel => find_shift fuel tb startelem emptyelem emptydist
        end
  end.

(** Entries are moved forward, from the bucket before [lastentry] down to [curelem]. *)
Fixpoint shift_entries (fuel : nat) (tb : SH_TYPE K) (startelem curelem lastentry moveelem : Z) (data : list (option K))
    : res (list (option K)) :=
  if moveelem =? curelem then Ok data
  else
    match fuel with
    | O => Err OutOfFuel
    | S fuel =>
        moveelem ← SH_PREV tb moveelem startelem ;
        entry ← bucket_at data moveelem ;
        shift_entries fuel tb startelem curelem moveelem moveelem (<[Z.to_nat lastentry := entry]> data)
    end.

Fixpoint insert_loop (fuel : nat) (tb : SH_TYPE K) (key : K) (startelem curelem insertdist : Z) : res (insertion K) :=
  entry ← bucket_at (sh_data tb) curelem ;
  match entry with
  | None => Ok (Inserted (add_member (set_data (<[Z.to_nat curelem := Some key]> (sh_data tb)) tb)) curelem false)
  | Some k =>
      if SH_EQUAL k key then Ok (Inserted tb curelem true)
      else
        let curdist := SH_DISTANCE_FROM_OPTIMAL tb (SH_INITIAL_BUCKET tb (SH_HASH_KEY k)) curelem in
        if curdist <? insertdist then
          emptyelem ← find_shift (Z.to_nat (sh_size tb)) tb startelem curelem 0 ;
          match emptyelem with
          | None => Ok (Restart (force_grow tb))
          | Some emptyelem =>
              data ← shift_entries (Z.to_nat (sh_size tb)) tb startelem curelem emptyelem emptyelem (sh_data tb) ;
              Ok (Inserted (add_member (set_data (<[Z.to_nat curelem := Some key]> data) tb)) curelem false)
          end
        else
          curelem ← SH_NEXT tb curelem startelem ;
          let insertdist := insertdist + 1 in
          if (SH_GROW_MAX_DIB <? insertdist) && filled_enough tb then Ok (Restart (force_grow tb))
          else
            match fuel with
            | O => Err OutOfFuel
            | S fuel => insert_loop fuel tb key startelem curelem insertdist
            end
  end.

(** [restarts] bounds the number of times the table grows. *)
Fixpoint SH_INSERT_HASH_INTERNAL (restarts : nat) (tb : SH_TYPE K) (key : K) (hash : Z) : res (SH_TYPE K * Z * bool) :=
  tb ← (if sh_grow_threshold tb <=? sh_members tb then
          raise_if (sh_size tb =? SH_MAX_SIZE) ERR_hash_table_size_exceeded ;;
          SH_GROW tb (sh_size tb * 2)
        else Ok tb) ;
  let startelem := SH_INITIAL_BUCKET tb hash in
  outcome ← insert_loop (Z.to_nat (sh_size tb)) tb key startelem startelem 0 ;
  match outcome with
  | Inserted tb bucket found => Ok (tb, bucket, found)
  | Restart tb =>
      match restarts with
      | O => Err OutOfFuel
      | S restarts => SH_INSERT_HASH_INTERNAL restarts tb key hash
      end
  end.

(** A table doubles at most 32 times. *)
Definition SH_INSERT (tb : SH_TYPE K) (key : K) : res (SH_TYPE K * Z * bool) := SH_INSERT_HASH_INTERNAL 32 tb key (SH_HASH_KEY key).
Definition SH_INSERT_HASH (tb : SH_TYPE K) (key : K) (hash : Z) : res (SH_TYPE K * Z * bool) := SH_INSERT_HASH_INTERNAL 32 tb key hash.

(** ** Lookup *)

Fixpoint lookup_loop (fuel : nat) (tb : SH_TYPE K) (key : K) (startelem curelem : Z) : res (option Z) :=
  entry ← bucket_at (sh_data tb) curelem ;
  match entry with
  | None => Ok None
  | Some k =>
      if SH_EQUAL k key then Ok (Some curelem)
      else
        match fuel with
        | O => Err OutOfFuel
        | S fuel => curelem ← SH_NEXT tb curelem startelem ; lookup_loop fuel tb key startelem curelem
        end
  end.

Definition SH_LOOKUP_HASH_INTERNAL (tb : SH_TYPE K) (key : K) (hash : Z) : res (option Z) :=
  let startelem := SH_INITIAL_BUCKET tb hash in
  lookup_loop (Z.to_nat (sh_size tb)) tb key startelem startelem.

Definition SH_LOOKUP (tb : SH_TYPE K) (key : K) : res (option Z) := SH_LOOKUP_HASH_INTERNAL tb key (SH_HASH_KEY key).
End SimpleHash.

(** ** The three tables of hnswutils.c *)

Definition tidhash : SimpleHash ItemPointerData :=
  {| SH_HASH_KEY := hash_tid; SH_EQUAL := ItemPointerEquals; sizeof_element := 8 |}.
Definition pointerhash : SimpleHash Z := {| SH_HASH_KEY := hash_pointer; SH_EQUAL := Z.eqb; sizeof_element := 16 |}.
Definition offsethash : SimpleHash Z := {| SH_HASH_KEY := hash_offset; SH_EQUAL := Z.eqb; sizeof_element := 16 |}.
