(* ===== verification/SimpleHashSpec.v ===== *)
(** * Hash tables are finite sets

    SimpleHash.v refines a set of keys.  The invariant of Robin Hood hashing is
    local: going to the next bucket, the distance from the optimal bucket grows by
    at most one (an empty bucket has distance -1).  Buckets are numbered by
    integers modulo the size, so that runs that wrap around need no case of their
    own. *)

From Stdlib Require Import SpecFloat.
From S2P Require Import Prelude CFloat ItemPtr Hash SimpleHash.

(** ** Numbers modulo the size *)

Lemma mod_diff a b n : 0 < n -> a mod n = b mod n -> exists q, a = b + n * q.
Proof. intros Hn Heq. exists (a / n - b / n). pose proof (Z.div_mod a n ltac:(lia)). pose proof (Z.div_mod b n ltac:(lia)). lia. Qed.

Lemma mod_near a b n : 0 < n -> a mod n = b mod n -> - n < a - b < n -> a = b.
Proof. intros Hn Heq Hr. destruct (mod_diff a b n Hn Heq) as [q ->]. assert (q = 0) as -> by nia. lia. Qed.

Lemma mod_plus_eq a b c n : a mod n = b mod n -> (a + c) mod n = (b + c) mod n.
Proof. intros Heq. by rewrite <- (Zplus_mod_idemp_l a), Heq, Zplus_mod_idemp_l. Qed.

Lemma mod_minus_eq a b c n : a mod n = b mod n -> (a - c) mod n = (b - c) mod n.
Proof. apply (mod_plus_eq a b (- c)). Qed.

(** A representative in a window of [n] numbers. *)
Lemma mod_window i lo n : 0 < n -> exists j, lo <= j < lo + n /\ i mod n = j mod n.
Proof.
  intros Hn. exists (lo + (i - lo) mod n). pose proof (Z.mod_pos_bound (i - lo) n Hn). split; [lia|].
  rewrite Zplus_mod_idemp_r. f_equal. lia.
Qed.

Lemma least (P : nat -> Prop) `{!forall n, Decision (P n)} n : P n -> exists m, (m <= n)%nat /\ P m /\ forall t, (t < m)%nat -> ~ P t.
Proof.
  induction n as [n IH] using lt_wf_ind. intros Hn.
  destruct (decide (Exists P (seq 0 n))) as [Hex|Hno].
  - apply list.Exists_exists in Hex as (m & Hin & Hm). apply elem_of_seq in Hin. destruct (IH m ltac:(lia) Hm) as (m' & H1 & H2). exists m'. split; [lia|done].
  - exists n. split; [done|]. split; [done|]. intros t Ht HP. apply Hno, list.Exists_exists. exists t. split; [apply elem_of_seq; lia|done].
Qed.

(** ** Buckets *)

Section Circle.
Context {K : Type} `{SimpleHash K}.

Definition buckets (data : list (option K)) : Z := Z.of_nat (length data).
Definition at_bucket (data : list (option K)) (i : Z) : option K := mjoin (data !! Z.to_nat (i mod buckets data)).
Definition distance (data : list (option K)) (i : Z) : Z :=
  match at_bucket data i with None => -1 | Some key => (i - SH_HASH_KEY key) mod buckets data end.

Lemma distance_at data i key : at_bucket data i = Some key -> distance data i = (i - SH_HASH_KEY key) mod buckets data.
Proof using Type. intros Hi. unfold distance. by rewrite Hi. Qed.

(** The invariant of the buckets. *)
Definition robin_hood (data : list (option K)) : Prop := forall i, distance data (i + 1) <= distance data i + 1.
Definition unique_keys (data : list (option K)) : Prop := forall i j key, at_bucket data i = Some key -> at_bucket data j = Some key ->
  i mod buckets data = j mod buckets data.
Definition stored (data : list (option K)) (key : K) : Prop := exists i, at_bucket data i = Some key.
Definition has_empty (data : list (option K)) : Prop := exists e, at_bucket data e = None.

Section Data.
Context (data : list (option K)) (HN : 0 < buckets data).

#[local] Abbreviation N := (buckets data).
#[local] Abbreviation at_ := (at_bucket data).
#[local] Abbreviation dist := (distance data).

Lemma at_same i j : i mod N = j mod N -> at_ i = at_ j.
Proof using Type. intros Heq. unfold at_bucket. by rewrite Heq. Qed.

Lemma dist_same i j : i mod N = j mod N -> dist i = dist j.
Proof using Type. intros Heq. unfold distance. rewrite (at_same i j Heq). destruct (at_ j); [|done]. by apply mod_minus_eq. Qed.

Lemma dist_bounds i : -1 <= dist i < N.
Proof using HN. unfold distance. destruct (at_ i) as [key|]; [|lia]. pose proof (Z.mod_pos_bound (i - SH_HASH_KEY key) N HN). lia. Qed.

Lemma dist_empty i : at_ i = None <-> dist i = -1.
Proof using HN.
  unfold distance. destruct (at_ i) as [key|]; [|done]. pose proof (Z.mod_pos_bound (i - SH_HASH_KEY key) N HN). split; [done|lia].
Qed.

Lemma dist_used i : at_ i <> None <-> 0 <= dist i.
Proof using HN. rewrite dist_empty. pose proof (dist_bounds i). lia. Qed.

Lemma bucket_at_mod i : bucket_at data (i mod N) = Ok (at_ i).
Proof using HN.
  unfold bucket_at, at_bucket. pose proof (Z.mod_pos_bound i N HN) as Hi. destruct (Z.ltb_spec (i mod N) 0); [lia|].
  assert (Hlt : (Z.to_nat (i mod N) < length data)%nat) by (apply Nat2Z.inj_lt; rewrite Z2Nat.id by lia; apply Hi).
  destruct (lookup_lt_is_Some_2 data _ Hlt) as [b Hb]. by rewrite Hb.
Qed.

(** The buckets before an entry, back to its optimal one, are in use. *)
Lemma dist_back i t : robin_hood data -> 0 <= t -> dist i - t <= dist (i - t).
Proof using Type.
  intros Hr Ht. revert t Ht. refine (natlike_ind _ _ _); [rewrite !Z.sub_0_r; lia|]. intros t Ht IH.
  specialize (Hr (i - Z.succ t)). replace (i - Z.succ t + 1) with (i - t) in Hr by lia. lia.
Qed.

Lemma dist_room i : robin_hood data -> has_empty data -> dist i <= N - 2.
Proof using HN.
  intros Hr [e He]. apply Z.nlt_ge. intros Hlt. pose proof (dist_bounds i) as Hb. destruct (mod_window e (i - (N - 1)) N HN) as (j & Hj & Hm).
  pose proof (dist_back i (i - j) Hr ltac:(lia)) as Hback. replace (i - (i - j)) with j in Hback by lia.
  apply dist_empty in He. rewrite (dist_same _ _ Hm) in He. lia.
Qed.

(** An entry is found from its optimal bucket [s] on. *)
Lemma stored_path s key : robin_hood data -> s mod N = SH_HASH_KEY key mod N -> stored data key ->
  exists d, 0 <= d < N /\ at_ (s + d) = Some key /\ dist (s + d) = d /\ forall t, 0 <= t <= d -> t <= dist (s + t).
Proof using HN.
  intros Hr Hs [i Hi]. set (d := (i - s) mod N). pose proof (Z.mod_pos_bound (i - s) N HN) as Hd. fold d in Hd.
  assert (Hsd : (s + d) mod N = i mod N) by (unfold d; rewrite Zplus_mod_idemp_r; f_equal; lia).
  assert (Hdist : dist (s + d) = d).
  { unfold distance. rewrite (at_same _ _ Hsd), Hi. rewrite (mod_minus_eq (s + d) i) by done.
    unfold d. by rewrite <- (Zminus_mod_idemp_r i s), Hs, Zminus_mod_idemp_r. }
  exists d. split; [done|]. split; [by rewrite (at_same _ _ Hsd)|]. split; [done|]. intros t Ht.
  pose proof (dist_back (s + d) (d - t) Hr ltac:(lia)) as Hb. replace (s + d - (d - t)) with (s + t) in Hb by lia. lia.
Qed.

Lemma first_empty a : has_empty data -> exists n, 0 <= n < N /\ at_ (a + n) = None /\ forall t, 0 <= t < n -> at_ (a + t) <> None.
Proof using HN.
  intros [e He]. destruct (mod_window e a N HN) as (j & Hj & Hm). rewrite (at_same _ _ Hm) in He.
  destruct (least (fun n => at_ (a + Z.of_nat n) = None) (Z.to_nat (j - a))) as (m & Hle & Hm2 & Hbefore).
  { rewrite Z2Nat.id by lia. by replace (a + (j - a)) with j by lia. }
  exists (Z.of_nat m). split; [lia|]. split; [done|]. intros t Ht. specialize (Hbefore (Z.to_nat t) ltac:(lia)). by rewrite Z2Nat.id in Hbefore by lia.
Qed.
End Data.

(** ** The keys *)

Definition keys (data : list (option K)) : list K := omap id data.

Lemma at_bucket_nat data i : (i < length data)%nat -> at_bucket data (Z.of_nat i) = mjoin (data !! i).
Proof using Type. intros Hi. unfold at_bucket, buckets. rewrite Z.mod_small by lia. by rewrite Nat2Z.id. Qed.

Lemma stored_lookup data key : stored data key <-> exists i, data !! i = Some (Some key).
Proof using Type.
  split.
  - intros [i Hi]. unfold at_bucket in Hi. destruct (data !! Z.to_nat (i mod buckets data)) as [b|] eqn:E; [|done].
    cbn in Hi. subst b. by exists (Z.to_nat (i mod buckets data)).
  - intros [i Hi]. pose proof (lookup_lt_Some _ _ _ Hi). exists (Z.of_nat i). by rewrite at_bucket_nat, Hi by done.
Qed.

Lemma elem_of_keys data key : key ∈ keys data <-> stored data key.
Proof using Type.
  rewrite stored_lookup. unfold keys. rewrite list_elem_of_omap. split.
  - intros (b & Hb & Heq). cbn in Heq. subst b. by apply list_elem_of_lookup in Hb.
  - intros [i Hi]. exists (Some key). split; [|done]. by apply list_elem_of_lookup_2 in Hi.
Qed.

Lemma unique_keys_NoDup data : unique_keys data -> NoDup (keys data).
Proof using Type.
  intros Hu. assert (Hpos : forall i j key, data !! i = Some (Some key) -> data !! j = Some (Some key) -> i = j).
  { intros i j key Hi Hj. pose proof (lookup_lt_Some _ _ _ Hi). pose proof (lookup_lt_Some _ _ _ Hj).
    assert (Hm : Z.of_nat i mod buckets data = Z.of_nat j mod buckets data) by (apply (Hu _ _ key); by rewrite at_bucket_nat, ?Hi, ?Hj by done).
    unfold buckets in Hm. rewrite !Z.mod_small in Hm by lia. lia. }
  clear Hu. unfold keys. induction data as [|[x|] data IH]; [constructor| |].
  - cbn. apply list.NoDup_cons. split.
    + intros Hin. apply list_elem_of_omap in Hin as (b & Hb & Heq). cbn in Heq. subst b. apply list_elem_of_lookup in Hb as [j Hj].
      by pose proof (Hpos 0%nat (S j) x eq_refl Hj).
    + apply IH. intros i j key Hi Hj. by pose proof (Hpos (S i) (S j) key Hi Hj) as [= ->].
  - cbn. apply IH. intros i j key Hi Hj. by pose proof (Hpos (S i) (S j) key Hi Hj) as [= ->].
Qed.

Lemma keys_length_le data : (length (keys data) <= length data)%nat.
Proof using Type. unfold keys. induction data as [|[x|] data IH]; cbn; lia. Qed.

Lemma has_empty_length data : (length (keys data) < length data)%nat -> has_empty data.
Proof using Type.
  intros Hlt. assert (Hex : exists i, data !! i = Some None).
  { unfold keys in Hlt. induction data as [|[x|] data IH]; cbn in Hlt; [lia| |by exists 0%nat]. destruct IH as [i Hi]; [lia|]. by exists (S i). }
  destruct Hex as [i Hi]. pose proof (lookup_lt_Some _ _ _ Hi). exists (Z.of_nat i). by rewrite at_bucket_nat, Hi by done.
Qed.

(** ** A new entry

    [key] goes to bucket [s + t], where [s] is its optimal one; the [n] entries from
    there to the next empty bucket are moved by one. *)
Section Insert.
Context (data data' : list (option K)) (key : K) (s t n : Z).

#[local] Abbreviation N := (buckets data).
#[local] Abbreviation c := (s + t).

Record moved : Prop := {
  mv_two : 2 <= N;
  mv_buckets : buckets data' = N;
  mv_optimal : s mod N = SH_HASH_KEY key mod N;
  mv_range : 0 <= t /\ 0 <= n /\ t + n < N;
  mv_before : 0 < t -> t - 1 <= distance data (c - 1);
  mv_poorer : distance data c < t;
  mv_empty : at_bucket data (c + n) = None;
  mv_used : forall m, 0 <= m < n -> at_bucket data (c + m) <> None;
  mv_data i : c + n - N < i <= c + n ->
    at_bucket data' i = if decide (i < c) then at_bucket data i else if decide (i = c) then Some key else at_bucket data (i - 1)
}.

Context (Hm : moved) (Hr : robin_hood data) (He : has_empty data).

Lemma moved_before i : c + n - N < i < c -> distance data' i = distance data i.
Proof using Hm. intros Hi. unfold distance. destruct (mv_range Hm) as (? & ? & ?). rewrite (mv_data Hm i) by lia. rewrite decide_True by lia. by rewrite (mv_buckets Hm). Qed.

Lemma moved_here : distance data' c = t.
Proof using Hm.
  destruct (mv_range Hm) as (? & ? & ?). unfold distance. rewrite (mv_data Hm c) by lia. rewrite decide_False, decide_True, (mv_buckets Hm) by lia.
  rewrite <- (Zminus_mod_idemp_r c), <- (mv_optimal Hm), Zminus_mod_idemp_r. replace (c - s) with t by lia. apply Z.mod_small. lia.
Qed.

Lemma moved_after i : c < i <= c + n -> distance data' i = distance data (i - 1) + 1.
Proof using Hm Hr He.
  intros Hi. destruct (mv_range Hm) as (? & ? & ?). pose proof (mv_two Hm). assert (HN : 0 < N) by lia.
  pose proof (dist_room data HN (i - 1) Hr He) as Hroom. pose proof (mv_used Hm (i - 1 - c) ltac:(lia)) as Hu. replace (c + (i - 1 - c)) with (i - 1) in Hu by lia.
  unfold distance in *. rewrite (mv_data Hm i) by lia. rewrite !decide_False, (mv_buckets Hm) by lia. destruct (at_bucket data (i - 1)) as [k|]; [|done].
  replace (i - SH_HASH_KEY k) with (i - 1 - SH_HASH_KEY k + 1) by lia. rewrite <- Zplus_mod_idemp_l.
  apply Z.mod_small. pose proof (Z.mod_pos_bound (i - 1 - SH_HASH_KEY k) N HN). lia.
Qed.

Lemma moved_window i : exists j, c + n - N < j <= c + n /\ i mod N = j mod N.
Proof using Hm. pose proof (mv_two Hm). destruct (mod_window i (c + n - N + 1) N ltac:(lia)) as (j & Hj & Heq). exists j. split; [lia|done]. Qed.

Lemma moved_robin_hood : robin_hood data'.
Proof using Hm Hr He.
  intros i. destruct (mv_range Hm) as (H0 & H1 & H2). pose proof (mv_two Hm). assert (HN' : 0 < buckets data') by (rewrite (mv_buckets Hm); lia).
  destruct (moved_window i) as (j & Hj & Heq). rewrite <- (mv_buckets Hm) in Heq.
  rewrite (dist_same data' i j Heq), (dist_same data' (i + 1) (j + 1)) by (by apply mod_plus_eq).
  destruct (decide (j = c + n)) as [->|Hne].
  - assert (Hw : (c + n + 1) mod buckets data' = (c + n + 1 - N) mod buckets data').
    { rewrite (mv_buckets Hm). rewrite <- (Z.mod_add (c + n + 1 - N) 1 N) by lia. f_equal. lia. }
    rewrite (dist_same data' _ _ Hw). pose proof (mv_poorer Hm) as Hp.
    assert (Hlt : c + n + 1 - N < c).
    { destruct (decide (0 < t)) as [Ht|Ht]; [lia|]. destruct (decide (n = 0)) as [->|Hn0]; [lia|].
      pose proof (mv_used Hm 0 ltac:(lia)) as Hu. rewrite Z.add_0_r in Hu. apply (dist_used data ltac:(lia)) in Hu. lia. }
    rewrite moved_before by lia. assert (Hw' : (c + n + 1 - N) mod N = (c + n + 1) mod N) by (rewrite (mv_buckets Hm) in Hw; done).
    rewrite (dist_same data _ _ Hw'). pose proof (Hr (c + n)) as Hrn. pose proof (mv_empty Hm) as Hemp. apply (dist_empty data ltac:(lia)) in Hemp.
    pose proof (dist_bounds data' HN' (c + n)). lia.
  - destruct (decide (j + 1 < c)) as [Hlt|Hge]; [rewrite !moved_before by lia; apply Hr|].
    destruct (decide (j + 1 = c)) as [Hjc|Hgt].
    + rewrite Hjc, moved_here, moved_before by lia. replace j with (c - 1) by lia. destruct (decide (0 < t)) as [Ht|Ht].
      * pose proof (mv_before Hm Ht). lia.
      * pose proof (dist_bounds data ltac:(lia) (c - 1)). lia.
    + destruct (decide (j = c)) as [->|Hjc2].
      * rewrite moved_here, moved_after by lia. replace (c + 1 - 1) with c by lia. pose proof (mv_poorer Hm). lia.
      * rewrite !moved_after by lia. replace (j + 1 - 1) with (j - 1 + 1) by lia. pose proof (Hr (j - 1)). lia.
Qed.

(** Where an entry of the new table comes from. *)
Lemma moved_source i k : at_bucket data' i = Some k ->
  (k = key /\ i mod N = c mod N) \/ exists j, c + n - N < j < c + n /\ at_bucket data j = Some k /\ i mod N = (if decide (j < c) then j else j + 1) mod N.
Proof using Hm.
  intros Hi. destruct (mv_range Hm) as (H0 & H1 & H2). destruct (moved_window i) as (j & Hj & Heq). pose proof Heq as Heq'. rewrite <- (mv_buckets Hm) in Heq.
  rewrite (at_same data' i j Heq), (mv_data Hm j Hj) in Hi. destruct (decide (j < c)) as [Hlt|Hge].
  - right. exists j. split; [lia|]. split; [done|]. by rewrite decide_True.
  - destruct (decide (j = c)) as [->|Hne]; [injection Hi as <-; by left|]. right. exists (j - 1). split; [lia|]. split; [done|].
    rewrite decide_False by lia. by replace (j - 1 + 1) with j by lia.
Qed.

Lemma moved_stored k : stored data' k <-> k = key \/ stored data k.
Proof using Hm.
  destruct (mv_range Hm) as (H0 & H1 & H2). split.
  - intros [i Hi]. destruct (moved_source i k Hi) as [[-> _]|(j & _ & Hj & _)]; [by left|right]. by exists j.
  - intros [->|[i Hi]].
    + exists c. rewrite (mv_data Hm c) by lia. by rewrite decide_False, decide_True by lia.
    + destruct (moved_window i) as (j & Hj & Heq). rewrite (at_same data i j Heq) in Hi. destruct (decide (j < c)) as [Hlt|Hge].
      * exists j. rewrite (mv_data Hm j) by lia. by rewrite decide_True by lia.
      * destruct (decide (j = c + n)) as [->|Hne]; [by rewrite (mv_empty Hm) in Hi|].
        exists (j + 1). rewrite (mv_data Hm (j + 1)) by lia. rewrite !decide_False by lia. by replace (j + 1 - 1) with j by lia.
Qed.

Lemma moved_unique : unique_keys data -> ~ stored data key -> unique_keys data'.
Proof using Hm.
  intros Hu Hnot i j k Hi Hj. rewrite (mv_buckets Hm). pose proof (mv_two Hm).
  destruct (moved_source i k Hi) as [[-> Hi2]|(i' & Ri & Hi' & Hi2)]; destruct (moved_source j _ Hj) as [[Hk Hj2]|(j' & Rj & Hj' & Hj2)].
  - congruence.
  - destruct Hnot. by exists j'.
  - subst k. destruct Hnot. by exists i'.
  - rewrite Hi2, Hj2. pose proof (mod_near i' j' N ltac:(lia) (Hu _ _ _ Hi' Hj') ltac:(lia)) as ->. done.
Qed.

Lemma moved_keys : unique_keys data -> ~ stored data key -> keys data' ≡ₚ key :: keys data.
Proof using Hm.
  intros Hu Hnot. apply NoDup_Permutation.
  - apply unique_keys_NoDup. by apply moved_unique.
  - apply list.NoDup_cons. split; [by rewrite elem_of_keys|]. by apply unique_keys_NoDup.
  - intros k. rewrite elem_of_cons, !elem_of_keys. apply moved_stored.
Qed.
End Insert.
End Circle.

(** ** Sizes *)

Class SimpleHashLaws (K : Type) `{SimpleHash K} := {
  key_ok : K -> Prop;
  SH_EQUAL_spec a b : key_ok a -> key_ok b -> SH_EQUAL a b = true <-> a = b;
  sizeof_element_range : 1 <= sizeof_element <= 2 ^ 16
}.

Lemma land_pred_pos n : 0 < n -> Z.land n (n - 1) = 0 -> n = 2 ^ Z.log2 n.
Proof.
  intros Hn Hl. pose proof (Z.log2_spec n Hn) as [H1 H2]. destruct (Z.eq_dec n (2 ^ Z.log2 n)) as [|Hne]; [done|].
  assert (Hlog : Z.log2 (n - 1) = Z.log2 n) by (apply Z.log2_unique; [apply Z.log2_nonneg|lia]).
  pose proof (Z.bit_log2 n Hn) as B1. pose proof (Z.log2_nonneg n). assert (0 < 2 ^ Z.log2 n) by (apply Z.pow_pos_nonneg; lia).
  pose proof (Z.bit_log2 (n - 1) ltac:(lia)) as B2. rewrite Hlog in B2. pose proof (f_equal (fun z => Z.testbit z (Z.log2 n)) Hl) as B.
  cbn beta in B. by rewrite Z.land_spec, B1, B2, Z.bits_0 in B.
Qed.

(** The powers of two are sizes, with their growth thresholds. *)
Definition size_check (k : Z) : bool :=
  (Z.land (2 ^ k) (2 ^ k - 1) =? 0) &&
  match uint_of_double 32 (dmul (double_of_Z (2 ^ k)) (if 2 ^ k =? SH_MAX_SIZE then SH_MAX_FILLFACTOR else SH_FILLFACTOR)) with
  | Ok threshold => (2 ^ k <=? 2 * threshold) && (threshold <? 2 ^ k)
  | Err _ => false
  end.

Lemma size_checked k : 1 <= k <= 32 -> size_check k = true.
Proof.
  intros Hk. assert (Hall : forallb size_check (map Z.of_nat (seq 1 32)) = true) by (vm_compute; reflexivity).
  rewrite forallb_forall in Hall. apply Hall. apply in_map_iff. exists (Z.to_nat k). split; [lia|]. apply in_seq. lia.
Qed.

Section Size.
Context {K : Type} `{SimpleHashLaws K}.

Lemma small_enough k : 0 <= k <= 32 -> ((2 ^ 64 - 1) / 2 <=? u64 (sizeof_element * 2 ^ k)) = false.
Proof.
  intros Hk. pose proof sizeof_element_range as [S1 S2]. assert (2 ^ k <= 2 ^ 32) by (apply Z.pow_le_mono_r; lia). assert (0 < 2 ^ k) by (apply Z.pow_pos_nonneg; lia).
  assert (Hp : 0 <= sizeof_element * 2 ^ k <= 2 ^ 48) by (split; [nia|]; change (2 ^ 48) with (2 ^ 16 * 2 ^ 32); nia).
  apply Z.leb_gt. unfold u64. rewrite Z.mod_small by lia. change ((2 ^ 64 - 1) / 2) with (2 ^ 63 - 1). lia.
Qed.

Lemma compute_size_power k : 1 <= k <= 32 -> SH_COMPUTE_SIZE (2 ^ k) = Ok (2 ^ k).
Proof.
  intros Hk. assert (Hp : 2 ^ 1 <= 2 ^ k <= 2 ^ 32) by (split; apply Z.pow_le_mono_r; lia).
  unfold SH_COMPUTE_SIZE, pg_nextpower2_64. replace (Z.max (2 ^ k) 2) with (2 ^ k) by lia.
  pose proof (size_checked k Hk) as Hc. unfold size_check in Hc. apply andb_true_iff in Hc as [Hl _]. rewrite Hl.
  destruct (Z.leb_spec (2 ^ k) 0); [lia|]. destruct (Z.ltb_spec (2 ^ 63) (2 ^ k)); [lia|]. cbn [orb raise_if]. rewrite !bind_Ok. unfold SH_MAX_SIZE.
  destruct (Z.ltb_spec (2 ^ 32) (2 ^ k)); [lia|]. cbn [raise_if]. rewrite bind_Ok, small_enough by lia. done.
Qed.

Lemma compute_size n : n <= 2 ^ 32 -> exists k, 1 <= k <= 32 /\ SH_COMPUTE_SIZE n = Ok (2 ^ k).
Proof.
  intros Hn. set (m := Z.max n 2). assert (Hm : 2 <= m <= 2 ^ 32) by lia. pose proof (Z.log2_spec m ltac:(lia)) as [L1 L2].
  assert (Hlog : 1 <= Z.log2 m <= 32).
  { split; [apply Z.log2_le_pow2; lia|]. pose proof (Z.log2_le_mono m (2 ^ 32) ltac:(lia)) as Hl. by rewrite Z.log2_pow2 in Hl by lia. }
  assert (Hk : exists k, 1 <= k <= 32 /\ pg_nextpower2_64 m = Ok (2 ^ k)).
  { unfold pg_nextpower2_64. destruct (Z.leb_spec m 0); [lia|]. destruct (Z.ltb_spec (2 ^ 63) m); [lia|]. cbn [orb raise_if]. rewrite bind_Ok.
    destruct (Z.eqb_spec (Z.land m (m - 1)) 0) as [Hl|Hl].
    - exists (Z.log2 m). split; [lia|]. f_equal. apply land_pred_pos; [lia|done].
    - exists (Z.log2 m + 1). assert (Z.log2 m <> 32).
      { intros H32. rewrite H32 in L1. assert (Hm32 : m = 2 ^ 32) by lia. apply Hl. by rewrite Hm32. }
      split; [lia|]. f_equal. rewrite Z.shiftl_mul_pow2, Z.mul_1_l by lia. unfold u64. apply Z.mod_small. split; [apply Z.pow_nonneg; lia|].
      apply Z.pow_lt_mono_r; lia. }
  destruct Hk as (k & Hk & E). exists k. split; [done|]. unfold SH_COMPUTE_SIZE. fold m. rewrite E, bind_Ok.
  assert (2 ^ k <= 2 ^ 32) by (apply Z.pow_le_mono_r; lia). unfold SH_MAX_SIZE. destruct (Z.ltb_spec (2 ^ 32) (2 ^ k)); [lia|]. cbn [raise_if].
  rewrite bind_Ok, small_enough by lia. done.
Qed.

Lemma update_parameters k tb : 1 <= k <= 32 -> exists threshold, SH_UPDATE_PARAMETERS tb (2 ^ k) =
  Ok (mkTable (2 ^ k) (sh_members tb) (2 ^ k - 1) threshold (sh_data tb)) /\ 2 ^ k <= 2 * threshold /\ threshold < 2 ^ k.
Proof.
  intros Hk. pose proof (size_checked k Hk) as Hc. unfold size_check in Hc. apply andb_true_iff in Hc as [_ Hc].
  unfold SH_UPDATE_PARAMETERS. rewrite compute_size_power, bind_Ok by done. destruct (uint_of_double 32 _) as [threshold|]; [|done].
  apply andb_true_iff in Hc as [H1%Z.leb_le H2%Z.ltb_lt]. exists threshold. rewrite bind_Ok. split; [|done]. do 2 f_equal. unfold u32. apply Z.mod_small.
  assert (2 ^ k <= 2 ^ 32) by (apply Z.pow_le_mono_r; lia). assert (0 < 2 ^ k) by (apply Z.pow_pos_nonneg; lia). lia.
Qed.
End Size.

(** A table that is grown because of its collisions is at least 1/32 full. *)
Lemma filled_enough_members {K} (tb : SH_TYPE K) k : 1 <= k <= 32 -> sh_size tb = 2 ^ k -> 0 <= sh_members tb < 2 ^ 32 -> filled_enough tb = true ->
  2 ^ k <= 32 * sh_members tb.
Proof.
  intros Hk Hs Hm Hf. unfold filled_enough in Hf. rewrite Hs in Hf.
  destruct (Z.eq_dec (sh_members tb) 0) as [H0|H0].
  { rewrite H0 in Hf. assert (Hall : forallb (fun k => negb (fle SH_GROW_MIN_FILLFACTOR (ddiv (double_of_Z 0) (double_of_Z (2 ^ k))))) (map Z.of_nat (seq 1 32)) = true)
      by (vm_compute; reflexivity).
    rewrite forallb_forall in Hall. specialize (Hall k). cbn beta in Hall. rewrite Hf in Hall. discriminate Hall. apply in_map_iff.
    exists (Z.to_nat k). split; [lia|]. apply in_seq. lia. }
  destruct (double_of_Z_small (sh_members tb) ltac:(lia)) as (mx & ex & Ex & Dx & Hex).
  assert (Hp : 0 < 2 ^ k <= 2 ^ 32) by (split; [apply Z.pow_pos_nonneg; lia|apply Z.pow_le_mono_r; lia]).
  destruct (double_of_Z_small (2 ^ k) ltac:(lia)) as (my & ey & Ey & Dy & Hey).
  assert (Dk : Zdigits2 (2 ^ k) = k + 1).
  { apply Z.le_antisymm.
    - apply Zdigits2_le; [lia|]. split; [lia|]. apply Z.pow_lt_mono_r; lia.
    - pose proof (Zdigits2_lt (2 ^ k) ltac:(lia)) as Hlt. apply Z.pow_lt_mono_r_iff in Hlt; [lia|lia|].
      pose proof (Zdigits2_le (2 ^ k) 33 ltac:(lia) ltac:(lia)). lia. }
  pose proof (Zdigits2_le (sh_members tb) 32 ltac:(lia) ltac:(lia)) as Dm.
  pose proof (ddiv_at_most mx ex my ey Dx Dy ltac:(lia)) as Hq. rewrite Ex, Ey in Hf.
  change SH_GROW_MIN_FILLFACTOR with (S754_finite false 7205759403792794 (-56)) in Hf.
  assert (He : -56 <= ex - ey - 51).
  { destruct (ddiv _ _) as [s|s| |s q e]; [done|done|done|]. destruct Hq as (-> & _ & Hle).
    unfold fle, SFleb, SFcompare in Hf. destruct (Z.compare_spec (-56) e); [lia|lia|done]. }
  assert (Hd : 2 ^ (Zdigits2 (sh_members tb) - 1) <= sh_members tb).
  { destruct (sh_members tb) as [|p|p]; [lia| |lia]. apply digits2_pos_bounds. }
  assert (Hkd : k <= Zdigits2 (sh_members tb) - 1 + 5) by lia.
  assert (2 ^ k <= 2 ^ (Zdigits2 (sh_members tb) - 1 + 5)) by (apply Z.pow_le_mono_r; lia).
  assert (1 <= Zdigits2 (sh_members tb)) by (destruct (sh_members tb); cbn; lia).
  rewrite Z.pow_add_r in * by lia. change (2 ^ 5) with 32 in *. lia.
Qed.

(** ** Walking over the buckets of a table *)

Section Table.
Context {K : Type} `{SimpleHashLaws K} (tb : SH_TYPE K) (k : Z).

#[local] Abbreviation N := (sh_size tb).
#[local] Abbreviation data := (sh_data tb).

Record params_ok : Prop := {
  po_range : 1 <= k <= 32;
  po_size : sh_size tb = 2 ^ k;
  po_mask : sh_sizemask tb = 2 ^ k - 1;
  po_data : buckets (sh_data tb) = sh_size tb
}.

Context (Hp : params_ok).

Lemma size_bounds : 2 <= N <= 2 ^ 32.
Proof using Hp.
  destruct (po_range Hp). rewrite (po_size Hp). change 2 with (2 ^ 1) at 1. split; apply Z.pow_le_mono_r; lia.
Qed.

Lemma land_mask i : Z.land i (sh_sizemask tb) = i mod N.
Proof using Hp.
  destruct (po_range Hp). rewrite (po_mask Hp), (po_size Hp). replace (2 ^ k - 1) with (Z.ones k) by (rewrite Z.ones_equiv; lia).
  apply Z.land_ones. lia.
Qed.

Lemma u32_mod i : u32 i mod N = i mod N.
Proof using Hp.
  destruct (po_range Hp). unfold u32. assert (H32 : 2 ^ 32 = N * 2 ^ (32 - k)) by (rewrite (po_size Hp), <- Z.pow_add_r by lia; f_equal; lia).
  rewrite H32. pose proof size_bounds. assert (0 < 2 ^ (32 - k)) by (apply Z.pow_pos_nonneg; lia).
  rewrite Z.rem_mul_r by lia. rewrite Z.mul_comm, Z_mod_plus_full. apply Z.mod_mod. lia.
Qed.

Lemma next_run i s : (i + 1 - s) mod N <> 0 -> SH_NEXT tb (i mod N) (s mod N) = Ok ((i + 1) mod N).
Proof using Hp.
  intros Hne. pose proof size_bounds. unfold SH_NEXT. rewrite land_mask, u32_mod, Zplus_mod_idemp_l.
  destruct (Z.eqb_spec ((i + 1) mod N) (s mod N)) as [Heq|_]; [|done]. destruct Hne. rewrite Zminus_mod, Heq, Z.sub_diag. done.
Qed.

Lemma prev_run i s : (i - 1 - s) mod N <> 0 -> SH_PREV tb (i mod N) (s mod N) = Ok ((i - 1) mod N).
Proof using Hp.
  intros Hne. pose proof size_bounds. unfold SH_PREV. rewrite land_mask, u32_mod, Zminus_mod_idemp_l.
  destruct (Z.eqb_spec ((i - 1) mod N) (s mod N)) as [Heq|_]; [|done]. destruct Hne. rewrite Zminus_mod, Heq, Z.sub_diag. done.
Qed.

(** Not once around. *)
Lemma mod_small_ne x : 0 < x < N -> x mod N <> 0.
Proof using Type. intros Hx. rewrite Z.mod_small; lia. Qed.

Lemma bucket_run i : bucket_at data (i mod N) = Ok (at_bucket data i).
Proof using Hp. pose proof size_bounds. rewrite <- (po_data Hp). apply bucket_at_mod. rewrite (po_data Hp). lia. Qed.

Lemma distance_run i key : at_bucket data i = Some key ->
  SH_DISTANCE_FROM_OPTIMAL tb (SH_INITIAL_BUCKET tb (SH_HASH_KEY key)) (i mod N) = distance data i.
Proof using Hp.
  intros Hi. pose proof size_bounds. unfold SH_INITIAL_BUCKET, distance. rewrite Hi, land_mask, (po_data Hp).
  rewrite <- Zminus_mod_idemp_l, <- Zminus_mod_idemp_r. pose proof (Z.mod_pos_bound i N ltac:(lia)). pose proof (Z.mod_pos_bound (SH_HASH_KEY key) N ltac:(lia)).
  unfold SH_DISTANCE_FROM_OPTIMAL. destruct (Z.leb_spec (SH_HASH_KEY key mod N) (i mod N)).
  - symmetry. apply Z.mod_small. lia.
  - unfold u32. rewrite (Z.mod_small (N + _ - _)) by lia. apply (Z.mod_unique _ _ (- 1)); lia.
Qed.

Lemma length_data : Z.of_nat (length data) = N.
Proof using Hp. exact (po_data Hp). Qed.

(** A write to a bucket. *)
Lemma at_insert (d : list (option K)) j b i : buckets d = N ->
  at_bucket (<[Z.to_nat (j mod N) := b]> d) i = if decide (i mod N = j mod N) then b else at_bucket d i.
Proof using Hp.
  intros Hd. pose proof size_bounds. unfold at_bucket, buckets in *. rewrite length_insert, Hd.
  pose proof (Z.mod_pos_bound i N ltac:(lia)). pose proof (Z.mod_pos_bound j N ltac:(lia)). destruct (decide (i mod N = j mod N)) as [->|Hne].
  - by rewrite list_lookup_insert_eq by lia.
  - rewrite list_lookup_insert_ne by lia. done.
Qed.

Section Shift.
Context (s t n : Z) (Ht : 0 < t) (Hn : 0 <= n) (Htn : t + n < N).
Context (Hempty : at_bucket data (s + t + n) = None) (Hused : forall m, 0 <= m < n -> at_bucket data (s + t + m) <> None).

#[local] Abbreviation c := (s + t).

Lemma find_shift_run fuel : forall m dist, 0 <= m < n -> n - m <= Z.of_nat fuel ->
  find_shift fuel tb (s mod N) ((c + m) mod N) dist = Ok (Some ((c + n) mod N)) \/
  find_shift fuel tb (s mod N) ((c + m) mod N) dist = Ok None /\ filled_enough tb = true.
Proof using Hp Ht Hn Htn Hempty Hused.
  induction fuel as [|fuel IH]; intros m dist Hm Hf; [lia|]. cbn [find_shift].
  rewrite next_run by (apply mod_small_ne; lia). rewrite bind_Ok, bucket_run, bind_Ok. destruct (decide (m + 1 = n)) as [Hmn|Hmn].
  - replace (c + m + 1) with (c + n) by lia. rewrite Hempty. by left.
  - pose proof (Hused (m + 1) ltac:(lia)) as Hu. replace (c + (m + 1)) with (c + m + 1) in Hu by lia.
    destruct (at_bucket data (c + m + 1)) as [key|]; [|done]. destruct (_ && _) eqn:E; [right|].
    + apply andb_true_iff in E as [_ E]. done.
    + replace (c + m + 1) with (c + (m + 1)) by lia. apply IH; lia.
Qed.

Lemma shift_entries_run fuel : forall m d, 0 <= m <= n -> m <= Z.of_nat fuel -> buckets d = N ->
  (forall i, c + n - N < i <= c + n -> at_bucket d i = at_bucket data (if decide (i <= c + m) then i else i - 1)) ->
  exists d', shift_entries fuel tb (s mod N) (c mod N) ((c + m) mod N) ((c + m) mod N) d = Ok d' /\ buckets d' = N /\
    forall i, c + n - N < i <= c + n -> at_bucket d' i = at_bucket data (if decide (i <= c) then i else i - 1).
Proof using Hp Ht Hn Htn.
  pose proof size_bounds as Hsz. induction fuel as [|fuel IH]; intros m d Hm Hf Hb Hd; cbn [shift_entries];
    destruct (Z.eqb_spec ((c + m) mod N) (c mod N)) as [Heq|Hne].
  - apply mod_near in Heq; [|lia|lia]. exists d. split; [done|]. split; [done|]. intros i Hi. rewrite (Hd i Hi). by replace (c + m) with c by lia.
  - destruct Hne. f_equal. lia.
  - apply mod_near in Heq; [|lia|lia]. exists d. split; [done|]. split; [done|]. intros i Hi. rewrite (Hd i Hi). by replace (c + m) with c by lia.
  - assert (m <> 0) by (intros ->; apply Hne; f_equal; lia). rewrite prev_run by (apply mod_small_ne; lia). rewrite bind_Ok.
    assert (Hbk : bucket_at d ((c + m - 1) mod N) = Ok (at_bucket d (c + m - 1))) by (rewrite <- Hb; apply bucket_at_mod; lia).
    rewrite Hbk, bind_Ok. replace (c + m - 1) with (c + (m - 1)) by lia. apply IH; [lia|lia| |].
    + unfold buckets in *. by rewrite length_insert.
    + intros i Hi. rewrite at_insert by done. rewrite !Hd by lia. destruct (decide (i mod N = (c + m) mod N)) as [Him|Him].
      * apply mod_near in Him; [|lia|lia]. subst i. rewrite !decide_True, decide_False by lia. f_equal. lia.
      * assert (i <> c + m) by (intros ->; done). destruct (decide (i <= c + m)) as [Hle|Hgt].
        -- rewrite decide_True by lia. done.
        -- rewrite decide_False by lia. done.
Qed.
End Shift.

(** What a search for a bucket ends with. *)
Definition insertion_ok (key : K) (outcome : insertion K) : Prop :=
  match outcome with
  | Inserted tb' b true => tb' = tb /\ stored data key /\ bucket_at data b = Ok (Some key)
  | Inserted tb' b false => ~ stored data key /\ exists data' t n, moved data data' key (SH_HASH_KEY key) t n /\
      tb' = add_member (set_data data' tb) /\ bucket_at data' b = Ok (Some key)
  | Restart tb' => tb' = force_grow tb /\ filled_enough tb = true
  end.

Section Search.
Context (Hrobin : robin_hood data) (Hkeys : forall key, stored data key -> key_ok key) (key : K) (Hkey : key_ok key).

#[local] Abbreviation s := (SH_HASH_KEY key).

Context (e : Z) (He : 0 <= e < N) (Hempty : at_bucket data (s + e) = None) (Hused : forall t, 0 <= t < e -> at_bucket data (s + t) <> None).

(** The search has passed [t] buckets. *)
Definition passed (t : Z) : Prop := forall t', 0 <= t' < t -> t' <= distance data (s + t') /\ at_bucket data (s + t') <> Some key.

Lemma not_stored t : passed t -> distance data (s + t) < t -> ~ stored data key.
Proof using Hp Hrobin He.
  intros Hpass Hd Hst. pose proof size_bounds. assert (HN : 0 < buckets data) by (rewrite (po_data Hp); lia).
  destruct (stored_path data HN s key Hrobin eq_refl Hst) as (d & Hdr & Hat & Hdist & Hpath).
  destruct (decide (d < t)) as [Hlt|Hge]; [by destruct (Hpass d ltac:(lia))|].
  destruct (decide (0 <= t)); [specialize (Hpath t ltac:(lia)); lia|]. pose proof (dist_bounds data HN (s + t)). lia.
Qed.

Lemma insert_here t : 0 <= t -> t = e -> passed t ->
  moved data (<[Z.to_nat ((s + t) mod N) := Some key]> data) key s t 0.
Proof using Hp Hrobin He Hempty.
  intros Ht -> Hpass. pose proof size_bounds. pose proof (po_data Hp) as Hd. split; rewrite ?Hd.
  - lia.
  - unfold buckets in *. by rewrite length_insert.
  - done.
  - lia.
  - intros Ht'. replace (s + e - 1) with (s + (e - 1)) by lia. apply Hpass. lia.
  - apply dist_empty in Hempty; [|lia]. lia.
  - by rewrite Z.add_0_r.
  - lia.
  - intros i Hi. rewrite at_insert by done. destruct (decide (i = s + e)) as [->|Hne].
    + rewrite decide_True by done. rewrite decide_False by lia. done.
    + rewrite decide_False by (intros Hm; apply mod_near in Hm; lia). by rewrite decide_True by lia.
Qed.

Lemma insert_shift t d : 0 < t -> t < e -> passed t -> distance data (s + t) < t -> buckets d = N ->
  (forall i, s + e - N < i <= s + e -> at_bucket d i = at_bucket data (if decide (i <= s + t) then i else i - 1)) ->
  moved data (<[Z.to_nat ((s + t) mod N) := Some key]> d) key s t (e - t).
Proof using Hp Hrobin He Hempty Hused.
  intros Ht Hte Hpass Hpoor Hb Hd. pose proof size_bounds. pose proof (po_data Hp) as Hdata. split; rewrite ?Hdata.
  - lia.
  - unfold buckets in *. by rewrite length_insert.
  - done.
  - lia.
  - intros _. replace (s + t - 1) with (s + (t - 1)) by lia. apply Hpass. lia.
  - done.
  - by replace (s + t + (e - t)) with (s + e) by lia.
  - intros m Hm. replace (s + t + m) with (s + (t + m)) by lia. apply Hused. lia.
  - replace (s + t + (e - t)) with (s + e) by lia. intros i Hi. rewrite at_insert by done. destruct (decide (i = s + t)) as [->|Hne].
    + rewrite decide_True by done. rewrite decide_False by lia. done.
    + rewrite decide_False by (intros Hm; apply mod_near in Hm; lia). rewrite Hd by done. destruct (decide (i < s + t)).
      * by rewrite decide_True by lia.
      * by rewrite decide_False by lia.
Qed.

Lemma insert_loop_run fuel : forall t, 0 <= t <= e -> e - t <= Z.of_nat fuel -> passed t ->
  exists outcome, insert_loop fuel tb key (s mod N) ((s + t) mod N) t = Ok outcome /\ insertion_ok key outcome.
Proof using Hp Hrobin Hkeys Hkey He Hempty Hused.
  pose proof size_bounds as Hsz. pose proof (po_data Hp) as Hdata.
  assert (Hbk : forall d i, buckets d = N -> at_bucket d i = Some key -> bucket_at d (i mod N) = Ok (Some key)).
  { intros d i Hb Hi. rewrite <- Hb, bucket_at_mod by lia. by rewrite Hi. }
  assert (Hnone : forall t, 0 <= t <= e -> passed t -> at_bucket data (s + t) = None ->
    insertion_ok key (Inserted (add_member (set_data (<[Z.to_nat ((s + t) mod N) := Some key]> data) tb)) ((s + t) mod N) false)).
  { intros t Ht Hpass Hx. assert (Hte : t = e) by (destruct (decide (t = e)) as [|Hne]; [done|]; by destruct (Hused t ltac:(lia))).
    assert (Hd : distance data (s + t) = -1) by (by apply dist_empty; [lia|]).
    split; [apply (not_stored t Hpass); lia|]. pose proof (insert_here t ltac:(lia) Hte Hpass) as Hm.
    eexists _, t, 0. split; [exact Hm|]. split; [done|].
    apply Hbk; [exact (eq_trans (mv_buckets _ _ _ _ _ _ Hm) Hdata)|]. rewrite at_insert by done. by rewrite decide_True. }
  induction fuel as [|fuel IH]; intros t Ht Hf Hpass; cbn [insert_loop]; rewrite bucket_run, bind_Ok;
    (destruct (at_bucket data (s + t)) as [x|] eqn:Hx; [|by eexists; split; [reflexivity|apply Hnone]]).
  { assert (t = e) as -> by lia. congruence. }
  assert (Hte : t < e) by (destruct (decide (t = e)) as [->|]; [congruence|lia]).
  assert (Hxok : key_ok x) by (apply Hkeys; by exists (s + t)).
  destruct (SH_EQUAL x key) eqn:Heq.
  { apply SH_EQUAL_spec in Heq as ->; [|done|done]. eexists. split; [reflexivity|]. split; [done|]. split; [by exists (s + t)|by apply Hbk]. }
  assert (Hxne : x <> key) by (intros ->; rewrite (proj2 (SH_EQUAL_spec key key Hkey Hkey) eq_refl) in Heq; done).
  rewrite (distance_run (s + t) x Hx). destruct (Z.ltb_spec (distance data (s + t)) t) as [Hpoor|Hrich].
  - assert (Ht0 : 0 < t) by (assert (Hu : at_bucket data (s + t) <> None) by congruence; apply dist_used in Hu; lia).
    assert (Hem : at_bucket data (s + t + (e - t)) = None) by (by replace (s + t + (e - t)) with (s + e) by lia).
    assert (Hus : forall m, 0 <= m < e - t -> at_bucket data (s + t + m) <> None)
      by (intros m Hm; replace (s + t + m) with (s + (t + m)) by lia; apply Hused; lia).
    pose proof length_data as Hlen.
    destruct (find_shift_run s t (e - t) Ht0 ltac:(lia) ltac:(lia) Hem Hus (Z.to_nat N) 0 0 ltac:(lia) ltac:(lia)) as [E|[E Hfull]];
      replace (s + t + 0) with (s + t) in E by lia; rewrite E, bind_Ok; [|by eexists].
    replace (s + t + (e - t)) with (s + e) by lia.
    destruct (shift_entries_run s t (e - t) Ht0 ltac:(lia) ltac:(lia) (Z.to_nat N) (e - t) data ltac:(lia) ltac:(lia) Hdata) as (d' & E2 & Hb' & Hd').
    { intros i Hi. rewrite decide_True by lia. done. }
    replace (s + t + (e - t)) with (s + e) in E2, Hd' by lia. rewrite E2, bind_Ok. eexists. split; [reflexivity|]. split; [by apply (not_stored t)|].
    pose proof (insert_shift t d' Ht0 Hte Hpass Hpoor Hb' Hd') as Hm. eexists _, t, (e - t). split; [exact Hm|]. split; [done|].
    apply Hbk; [exact (eq_trans (mv_buckets _ _ _ _ _ _ Hm) Hdata)|]. rewrite at_insert by done. by rewrite decide_True.
  - rewrite next_run by (apply mod_small_ne; lia). rewrite bind_Ok. destruct (_ && _) eqn:Hg.
    + apply andb_true_iff in Hg as [_ Hg]. by eexists.
    + replace (s + t + 1) with (s + (t + 1)) by lia. apply IH; [lia|lia|]. intros t' Ht'. destruct (decide (t' = t)) as [->|Hne]; [|apply Hpass; lia].
      split; [done|]. rewrite Hx. congruence.
Qed.

Lemma lookup_loop_run fuel : forall t, 0 <= t <= e -> e - t <= Z.of_nat fuel -> (forall t', 0 <= t' < t -> at_bucket data (s + t') <> Some key) ->
  exists r, lookup_loop fuel tb key (s mod N) ((s + t) mod N) = Ok r /\
    match r with Some b => bucket_at data b = Ok (Some key) /\ stored data key | None => ~ stored data key end.
Proof using Hp Hrobin Hkeys Hkey He Hempty Hused.
  pose proof size_bounds as Hsz. pose proof (po_data Hp) as Hdata. assert (HN : 0 < buckets data) by lia.
  assert (Hnone : forall t, (forall t', 0 <= t' < t -> at_bucket data (s + t') <> Some key) -> t = e -> ~ stored data key).
  { intros t Hpass -> Hst. destruct (stored_path data HN s key Hrobin eq_refl Hst) as (d & Hdr & Hat & Hdist & Hpath).
    destruct (decide (d < e)) as [Hlt|Hge]; [by apply (Hpass d ltac:(lia))|]. specialize (Hpath e ltac:(lia)). apply dist_empty in Hempty; lia. }
  induction fuel as [|fuel IH]; intros t Ht Hf Hpass; cbn [lookup_loop]; rewrite bucket_run, bind_Ok;
    (destruct (at_bucket data (s + t)) as [x|] eqn:Hx;
      [|exists None; split; [done|]; apply (Hnone t Hpass); destruct (decide (t = e)) as [|Hne]; [done|]; by destruct (Hused t ltac:(lia))]).
  { assert (t = e) as -> by lia. congruence. }
  assert (Hxok : key_ok x) by (apply Hkeys; by exists (s + t)). destruct (SH_EQUAL x key) eqn:Heq.
  - apply SH_EQUAL_spec in Heq as ->; [|done|done]. exists (Some ((s + t) mod N)). split; [done|]. split; [by rewrite bucket_run, Hx|by exists (s + t)].
  - assert (Hte : t < e) by (destruct (decide (t = e)) as [->|]; [congruence|lia]).
    rewrite next_run by (apply mod_small_ne; lia). rewrite bind_Ok. replace (s + t + 1) with (s + (t + 1)) by lia. apply IH; [lia|lia|].
    intros t' Ht'. destruct (decide (t' = t)) as [->|Hne]; [|apply Hpass; lia]. rewrite Hx. intros [= ->].
    rewrite (proj2 (SH_EQUAL_spec key key Hkey Hkey) eq_refl) in Heq. done.
Qed.
End Search.
End Table.

(** ** Growing

    The buckets of the old table from [s] on, an empty bucket or an entry at its
    optimal place, are copied in order.  An entry whose optimal bucket is [o] in the
    old table has [o] or [o] plus the old size in the new one, and never gets
    further from there than it was; so the two halves do not meet. *)
Section Grow.
Context {K : Type} `{SimpleHashLaws K} (old : list (option K)) (tbn : SH_TYPE K) (k s : Z).
Context (Hk : 1 <= k <= 31) (Hold : buckets old = 2 ^ k) (Hsize : sh_size tbn = 2 ^ (k + 1)) (Hmask : sh_sizemask tbn = 2 ^ (k + 1) - 1).
Context (Hrobin : robin_hood old) (Hunique : unique_keys old) (Hs : distance old s <= 0).

#[local] Abbreviation N := (2 ^ k).
#[local] Abbreviation optimal q := (q - distance old q).

Lemma old_size : 2 <= N <= 2 ^ 31 /\ 2 ^ (k + 1) = 2 * N.
Proof using Hk.
  split; [change 2 with (2 ^ 1) at 1; split; apply Z.pow_le_mono_r; lia|]. rewrite Z.pow_add_r by lia. lia.
Qed.

Lemma optimal_mono q q' : q <= q' -> optimal q <= optimal q'.
Proof using Hk Hrobin.
  intros Hq. assert (Hall : forall t, 0 <= t -> optimal q <= optimal (q + t)).
  { refine (natlike_ind _ _ _); [rewrite Z.add_0_r; lia|]. intros t Ht IH. specialize (Hrobin (q + t)).
    replace (q + Z.succ t) with (q + t + 1) by lia. lia. }
  specialize (Hall (q' - q) ltac:(lia)). by replace (q + (q' - q)) with q' in Hall by lia.
Qed.

Lemma optimal_range q key : s <= q -> at_bucket old q = Some key -> s <= optimal q <= q /\ optimal q mod N = SH_HASH_KEY key mod N.
Proof using Hk Hold Hrobin Hs.
  intros Hq Hat. destruct old_size as [Hn _]. pose proof (optimal_mono s q Hq) as Hmono.
  assert (Hd : distance old q = (q - SH_HASH_KEY key) mod N) by (unfold distance; by rewrite Hat, Hold).
  pose proof (Z.mod_pos_bound (q - SH_HASH_KEY key) N ltac:(lia)). split; [lia|]. rewrite Hd, Zminus_mod_idemp_r. f_equal. lia.
Qed.

(** The half of the new table an entry goes to. *)
Lemma half q key : s <= q -> at_bucket old q = Some key ->
  exists h, (h = 0 \/ h = 1) /\ (optimal q + h * N) mod (2 * N) = SH_HASH_KEY key mod (2 * N).
Proof using Hk Hold Hrobin Hs.
  intros Hq Hat. destruct old_size as [Hn _]. destruct (optimal_range q key Hq Hat) as [_ Hm]. destruct (mod_diff _ _ N ltac:(lia) Hm) as [x Hx].
  pose proof (Z.div_mod x 2 ltac:(lia)) as Hd. pose proof (Z.mod_pos_bound x 2 ltac:(lia)) as Hb. destruct (Z.eq_dec (x mod 2) 0) as [Hev|Hodd].
  - exists 0. split; [by left|]. rewrite Hx, <- (Z.mod_add (SH_HASH_KEY key) (x / 2) (2 * N)) by lia. f_equal. nia.
  - exists 1. split; [by right|]. rewrite Hx, <- (Z.mod_add (SH_HASH_KEY key) (x / 2 + 1) (2 * N)) by lia. f_equal. nia.
Qed.

(** The new table when the buckets before [q] are copied. *)
Record copied (q : Z) (d : list (option K)) : Prop := {
  cp_buckets : buckets d = 2 * N;
  cp_from i key : at_bucket d i = Some key -> exists q' h j, s <= q' < q /\ (h = 0 \/ h = 1) /\ at_bucket old q' = Some key /\
    i mod (2 * N) = j mod (2 * N) /\ optimal q' + h * N <= j <= q' + h * N /\ (optimal q' + h * N) mod (2 * N) = SH_HASH_KEY key mod (2 * N);
  cp_robin : robin_hood d;
  cp_unique : unique_keys d;
  cp_all q' key : s <= q' < q -> at_bucket old q' = Some key -> stored d key
}.

(** An entry between [s] and [s + N] of half [h] was copied to that half. *)
Lemma copied_half q d h i key : copied q d -> q <= s + N -> (h = 0 \/ h = 1) -> s + h * N <= i < s + N + h * N -> at_bucket d i = Some key ->
  exists q', s <= q' < q /\ at_bucket old q' = Some key /\ optimal q' + h * N <= i <= q' + h * N /\
    (optimal q' + h * N) mod (2 * N) = SH_HASH_KEY key mod (2 * N).
Proof using Hk Hold Hrobin Hs.
  intros Hc Hq Hh Hi Hat. destruct old_size as [Hn _]. destruct (cp_from _ _ Hc i key Hat) as (q' & h' & j & H1 & H2 & H3 & H4 & H5 & H6).
  destruct (optimal_range q' key ltac:(lia) H3) as [Ho _]. pose proof (mod_near i j (2 * N) ltac:(lia) H4 ltac:(nia)) as <-.
  assert (h' = h) as -> by nia. by exists q'.
Qed.

Section Entry.
Context (q : Z) (d : list (option K)) (key : K) (h : Z) (Hq : s <= q < s + N) (Hc : copied q d) (Hat : at_bucket old q = Some key).
Context (Hh : h = 0 \/ h = 1) (Hopt : (optimal q + h * N) mod (2 * N) = SH_HASH_KEY key mod (2 * N)).

#[local] Abbreviation o := (optimal q + h * N).

Lemma entry_free : at_bucket d (q + h * N) = None.
Proof using Hk Hold Hrobin Hs Hq Hc Hh.
  destruct (at_bucket d (q + h * N)) as [key'|] eqn:E; [|done]. destruct (copied_half q d h (q + h * N) key' Hc ltac:(lia) Hh ltac:(lia) E) as (q' & H1 & _ & H3 & _). lia.
Qed.

Lemma entry_place : exists n, 0 <= n /\ o + n <= q + h * N /\ n < 2 * N /\ at_bucket d (o + n) = None /\ forall t, 0 <= t < n -> at_bucket d (o + t) <> None.
Proof using Hk Hold Hrobin Hs Hq Hc Hh Hat.
  destruct old_size as [Hn _]. destruct (optimal_range q key ltac:(lia) Hat) as [Ho _]. pose proof entry_free as Hfree.
  assert (HN : 0 < buckets d) by (rewrite (cp_buckets _ _ Hc); lia).
  destruct (first_empty d HN o) as (n & Hn1 & Hn2 & Hn3); [by exists (q + h * N)|]. rewrite (cp_buckets _ _ Hc) in Hn1.
  exists n. split; [lia|]. split; [|by split; [lia|]]. destruct (decide (o + n <= q + h * N)) as [|Hgt]; [done|].
  assert (Hback : 0 <= q + h * N - o < n) by lia. destruct (Hn3 _ Hback). by replace (o + (q + h * N - o)) with (q + h * N) by lia.
Qed.

Lemma entry_copied n : 0 <= n -> o + n <= q + h * N -> at_bucket d (o + n) = None -> (forall t, 0 <= t < n -> at_bucket d (o + t) <> None) ->
  copied (q + 1) (<[Z.to_nat ((o + n) mod (2 * N)) := Some key]> d).
Proof using Hk Hold Hrobin Hunique Hs Hq Hc Hat Hh Hopt.
  intros Hn Hle Hempty Hused. destruct old_size as [HN _]. destruct (optimal_range q key ltac:(lia) Hat) as [Ho _].
  pose proof (cp_buckets _ _ Hc) as Hb. set (d' := <[Z.to_nat ((o + n) mod (2 * N)) := Some key]> d).
  assert (Hb' : buckets d' = 2 * N) by (unfold d', buckets in *; by rewrite length_insert).
  assert (HNd : 0 < buckets d) by lia. assert (HNd' : 0 < buckets d') by lia.
  assert (Hins : forall i, at_bucket d' i = if decide (i mod (2 * N) = (o + n) mod (2 * N)) then Some key else at_bucket d i).
  { intros i. unfold at_bucket, d', buckets in *. rewrite length_insert, Hb. pose proof (Z.mod_pos_bound i (2 * N) ltac:(lia)). pose proof (Z.mod_pos_bound (o + n) (2 * N) ltac:(lia)).
    destruct (decide (i mod (2 * N) = (o + n) mod (2 * N))) as [->|Hne]; [by rewrite list_lookup_insert_eq by lia|]. by rewrite list_lookup_insert_ne by lia. }
  assert (Hold' : forall i, i mod (2 * N) <> (o + n) mod (2 * N) -> distance d' i = distance d i).
  { intros i Hne. unfold distance. rewrite Hins, decide_False by done. by rewrite Hb, Hb'. }
  assert (Hnew : forall i, i mod (2 * N) = (o + n) mod (2 * N) -> distance d' i = n).
  { intros i Heq. rewrite (dist_same d' i (o + n)) by (by rewrite Hb'). rewrite (distance_at d' (o + n) key) by (by rewrite Hins, decide_True). rewrite Hb'.
    rewrite <- Zminus_mod_idemp_r, <- Hopt, Zminus_mod_idemp_r. replace (o + n - o) with n by lia. apply Z.mod_small. nia. }
  assert (Hnot : ~ stored d key).
  { intros [i Hi]. destruct (cp_from _ _ Hc i key Hi) as (q' & h' & j & H1 & _ & H3 & _).
    pose proof (Hunique q' q key H3 Hat) as Hm. rewrite Hold in Hm. apply mod_near in Hm; lia. }
  assert (Hpred : 0 < n -> n - 1 <= distance d (o + n - 1)).
  { intros Hn0. destruct (at_bucket d (o + n - 1)) as [key'|] eqn:E; [|by destruct (Hused (n - 1) ltac:(lia)); replace (o + (n - 1)) with (o + n - 1) by lia].
    assert (Hq1 : q <= s + N) by lia. assert (Hin : s + h * N <= o + n - 1 < s + N + h * N) by lia.
    destruct (copied_half q d h (o + n - 1) key' Hc Hq1 Hh Hin E) as (q' & H1 & H2 & H3 & H4).
    pose proof (optimal_mono q' q ltac:(lia)) as Hmono. rewrite (distance_at d _ key') by done. rewrite Hb. rewrite <- Zminus_mod_idemp_r, <- H4, Zminus_mod_idemp_r.
    destruct (optimal_range q' key' ltac:(lia) H2) as [Ho' _]. rewrite Z.mod_small by nia. lia. }
  split; [done| | | |].
  - intros i key' Hi. rewrite Hins in Hi. destruct (decide _) as [Heq|Hne].
    + injection Hi as <-. exists q, h, (o + n). split_and!; try done; lia.
    + destruct (cp_from _ _ Hc i key' Hi) as (q' & h' & j & H1 & H2). exists q', h', j. split; [lia|done].
  - intros i. destruct (decide (i mod (2 * N) = (o + n) mod (2 * N))) as [Hi|Hi].
    + rewrite (Hnew i Hi). assert (Hi1 : (i + 1) mod (2 * N) <> (o + n) mod (2 * N)).
      { intros Heq. rewrite <- Hi in Heq. apply mod_near in Heq; lia. }
      rewrite (Hold' _ Hi1). pose proof (cp_robin _ _ Hc i) as Hr. assert (Hd : distance d i = -1).
      { apply dist_empty; [lia|]. by rewrite (at_same d i (o + n)) by (by rewrite Hb). }
      lia.
    + rewrite (Hold' _ Hi). destruct (decide ((i + 1) mod (2 * N) = (o + n) mod (2 * N))) as [Hi1|Hi1]; [|rewrite (Hold' _ Hi1); apply (cp_robin _ _ Hc)].
      rewrite (Hnew _ Hi1). pose proof (dist_bounds d HNd i). destruct (decide (0 < n)) as [Hn0|Hn0]; [|lia].
      assert (Hsame : distance d i = distance d (o + n - 1)).
      { apply dist_same. rewrite Hb. apply (mod_minus_eq _ _ 1) in Hi1. by replace (i + 1 - 1) with i in Hi1 by lia. }
      specialize (Hpred Hn0). lia.
  - intros i j key' Hi Hj. rewrite Hb'. rewrite !Hins in *. destruct (decide _) as [Hi1|Hi1] in Hi; destruct (decide _) as [Hj1|Hj1] in Hj.
    + congruence.
    + injection Hi as <-. destruct Hnot. by exists j.
    + injection Hj as <-. destruct Hnot. by exists i.
    + rewrite <- Hb. by apply (cp_unique _ _ Hc i j key').
  - intros q' key' Hq' Hat'. destruct (decide (q' = q)) as [->|Hne].
    + exists (o + n). rewrite Hins, decide_True by done. congruence.
    + destruct (cp_all _ _ Hc q' key' ltac:(lia) Hat') as [i Hi]. exists i. rewrite Hins, decide_False; [done|].
      intros Heq. rewrite (at_same d i (o + n)) in Hi by (by rewrite Hb). congruence.
Qed.
End Entry.

Context (Hs0 : 0 <= s).

Lemma new_params d : buckets d = 2 * N -> params_ok (set_data d tbn) (k + 1).
Proof using Hk Hsize Hmask. intros Hd. destruct old_size as [_ H2]. split; cbn; [lia|done|done|congruence]. Qed.

Lemma find_empty_run d o n : buckets d = 2 * N -> 0 <= n < 2 * N -> at_bucket d (o + n) = None -> (forall t, 0 <= t < n -> at_bucket d (o + t) <> None) ->
  forall fuel t, 0 <= t <= n -> n - t <= Z.of_nat fuel ->
  find_empty fuel (set_data d tbn) (o mod (2 * N)) ((o + t) mod (2 * N)) = Ok ((o + n) mod (2 * N)).
Proof using Hk Hsize Hmask.
  intros Hd Hn Hempty Hused. pose proof (new_params d Hd) as Hp. destruct old_size as [HN H2].
  assert (Hsz : sh_size (set_data d tbn) = 2 * N) by (cbn; congruence).
  induction fuel as [|fuel IH]; intros t Ht Hf; cbn [find_empty]; rewrite <- Hsz, (bucket_run _ _ Hp), Hsz, bind_Ok; cbn [sh_data set_data];
    destruct (decide (t = n)) as [->|Hne]; try (by rewrite Hempty); [lia|].
  destruct (at_bucket d (o + t)) as [key|] eqn:E; [|by destruct (Hused t ltac:(lia))].
  rewrite <- Hsz, (next_run _ _ Hp), bind_Ok, Hsz.
  - replace (o + t + 1) with (o + (t + 1)) by lia. apply IH; lia.
  - rewrite Hsz. rewrite Z.mod_small; lia.
Qed.

Lemma copy_entries_run n : forall q d, s <= q -> q + Z.of_nat n = s + N -> copied q d ->
  exists d', copy_entries n old N (q mod N) (set_data d tbn) = Ok (set_data d' tbn) /\ copied (s + N) d'.
Proof using All.
  destruct old_size as [HN H2]. induction n as [|n IH]; intros q d Hq Hqn Hc; cbn [copy_entries].
  { exists d. split; [done|]. by replace (s + N) with q by lia. }
  assert (Hbk : bucket_at old (q mod N) = Ok (at_bucket old q)) by (rewrite <- Hold; apply bucket_at_mod; lia). rewrite Hbk, bind_Ok.
  assert (Hnext : (if N <=? u32 (q mod N + 1) then 0 else u32 (q mod N + 1)) = (q + 1) mod N).
  { pose proof (Z.mod_pos_bound q N ltac:(lia)). unfold u32. rewrite Z.mod_small by lia. rewrite <- (Zplus_mod_idemp_l q 1).
    destruct (Z.leb_spec N (q mod N + 1)).
    - replace (q mod N + 1) with N by lia. by rewrite Z_mod_same_full.
    - symmetry. apply Z.mod_small. lia. }
  rewrite Hnext. destruct (at_bucket old q) as [key|] eqn:Hat.
  - destruct (half q key Hq Hat) as (h & Hh & Hopt). assert (Hq1 : s <= q < s + N) by lia.
    destruct (entry_place q d key h Hq1 Hc Hat Hh) as (m & Hm1 & Hm2 & Hm3 & Hm4 & Hm5).
    pose proof (entry_copied q d key h Hq1 Hc Hat Hh Hopt m Hm1 Hm2 Hm4 Hm5) as Hc'.
    assert (Hsz : sh_size (set_data d tbn) = 2 * N) by (cbn; congruence).
    assert (Hinit : SH_INITIAL_BUCKET (set_data d tbn) (SH_HASH_KEY key) = (optimal q + h * N) mod (2 * N)).
    { unfold SH_INITIAL_BUCKET. rewrite (land_mask _ _ (new_params d (cp_buckets _ _ Hc))), Hsz. done. }
    rewrite Hinit, Hsz.
    pose proof (find_empty_run d (optimal q + h * N) m (cp_buckets _ _ Hc) ltac:(lia) Hm4 Hm5 (Z.to_nat (2 * N)) 0 ltac:(lia) ltac:(lia)) as Hfind.
    rewrite Z.add_0_r in Hfind. rewrite Hfind, !bind_Ok. apply (IH (q + 1) _ ltac:(lia) ltac:(lia) Hc').
  - rewrite bind_Ok. apply (IH (q + 1) d); [lia|lia|]. destruct Hc as [C1 C2 C3 C4 C5]. split; try done.
    + intros i key Hi. destruct (C2 i key Hi) as (q' & h & j & H3 & H4). exists q', h, j. split; [lia|done].
    + intros q' key Hq' Hat'. destruct (decide (q' = q)) as [->|]; [congruence|]. apply (C5 q'); [lia|done].
Qed.

Lemma copied_none d : buckets d = 2 * N -> (forall i, at_bucket d i = None) -> copied s d.
Proof using Type.
  intros Hb Hnone. split; [done| | | |lia].
  - intros i key. by rewrite Hnone.
  - intros i. unfold distance. rewrite !Hnone. lia.
  - intros i j key. by rewrite Hnone.
Qed.

Lemma copied_stored d key : copied (s + N) d -> stored d key <-> stored old key.
Proof using Hk Hold.
  intros Hc. destruct old_size as [HN _]. split.
  - intros [i Hi]. destruct (cp_from _ _ Hc i key Hi) as (q' & h & j & _ & _ & H3 & _). by exists q'.
  - intros [i Hi]. destruct (mod_window i s N ltac:(lia)) as (j & Hj & Heq). rewrite <- Hold in Heq. apply (cp_all _ _ Hc j key); [lia|].
    by rewrite <- (at_same old i j Heq).
Qed.
End Grow.

Lemma find_start_run {K} `{SimpleHash K} (tb : SH_TYPE K) l : forall i, (exists j, l !! j = Some None) ->
  exists j, find_start tb l i = i + Z.of_nat j /\ (j < length l)%nat /\
    (l !! j = Some None \/ exists key, l !! j = Some (Some key) /\ SH_INITIAL_BUCKET tb (SH_HASH_KEY key) = i + Z.of_nat j).
Proof.
  induction l as [|[key|] l IH]; intros i [j Hj]; [done| |]; cbn [find_start].
  - destruct (Z.eqb_spec (SH_INITIAL_BUCKET tb (SH_HASH_KEY key)) i) as [Heq|Hne].
    + exists 0%nat. split; [lia|]. split; [cbn; lia|]. right. exists key. split; [done|lia].
    + destruct j as [|j]; [done|]. destruct (IH (i + 1)) as (j' & H1 & H2 & H3); [by exists j|]. exists (S j'). split; [lia|]. split; [cbn; lia|].
      destruct H3 as [H3|(key' & H3 & H4)]; [by left|right]. exists key'. split; [done|lia].
  - exists 0%nat. split; [lia|]. split; [cbn; lia|by left].
Qed.

(** ** The table *)

Section Spec.
Context {K : Type} `{EqDecision K} `{SimpleHashLaws K}.

Record table_wf (tb : SH_TYPE K) : Prop := {
  tw_params : exists k, params_ok tb k;
  tw_robin : robin_hood (sh_data tb);
  tw_unique : unique_keys (sh_data tb);
  tw_keys key : stored (sh_data tb) key -> key_ok key;
  tw_members : sh_members tb = Z.of_nat (length (keys (sh_data tb)));
  tw_room : sh_members tb < sh_size tb;
  tw_threshold : sh_grow_threshold tb < sh_size tb
}.

(** The table is not much larger than its members need. *)
Definition dense (tb : SH_TYPE K) : Prop := sh_size tb <= 2 * sh_grow_threshold tb \/ sh_size tb <= 32 * sh_members tb.

Lemma wf_has_empty tb : table_wf tb -> has_empty (sh_data tb).
Proof.
  intros Hw. destruct (tw_params _ Hw) as [k Hp]. apply has_empty_length. pose proof (tw_room _ Hw) as Hr. rewrite (tw_members _ Hw) in Hr.
  pose proof (po_data _ _ Hp) as Hd. unfold buckets in Hd. lia.
Qed.

Lemma nextpower_power k : 1 <= k <= 32 -> pg_nextpower2_64 (2 ^ k) = Ok (2 ^ k).
Proof.
  intros Hk. pose proof (size_checked k Hk) as Hc. unfold size_check in Hc. apply andb_true_iff in Hc as [Hl _].
  assert (0 < 2 ^ k <= 2 ^ 32) by (split; [apply Z.pow_pos_nonneg; lia|apply Z.pow_le_mono_r; lia]).
  unfold pg_nextpower2_64. rewrite Hl. destruct (Z.leb_spec (2 ^ k) 0); [lia|]. by destruct (Z.ltb_spec (2 ^ 63) (2 ^ k)); [lia|].
Qed.

Lemma allocate_none n i : at_bucket (SH_ALLOCATE (K := K) n) i = None.
Proof.
  unfold at_bucket, SH_ALLOCATE. destruct (replicate _ _ !! _) as [b|] eqn:E; [|done]. apply lookup_replicate in E as [-> _]. done.
Qed.

Lemma SH_GROW_run tb k : table_wf tb -> params_ok tb k -> k <= 31 ->
  exists tb', SH_GROW tb (sh_size tb * 2) = Ok tb' /\ table_wf tb' /\ params_ok tb' (k + 1) /\ sh_members tb' = sh_members tb /\
    (forall key, stored (sh_data tb') key <-> stored (sh_data tb) key) /\ sh_size tb' <= 2 * sh_grow_threshold tb'.
Proof.
  intros Hw Hp Hk. destruct Hp as [Hk1 Hsize Hmask Hdata]. assert (H2 : 2 ^ (k + 1) = 2 * 2 ^ k) by (rewrite Z.pow_add_r by lia; lia).
  assert (Hn : 2 <= 2 ^ k <= 2 ^ 31) by (change 2 with (2 ^ 1) at 1; split; apply Z.pow_le_mono_r; lia). rewrite Hsize in Hdata.
  unfold SH_GROW. rewrite Hsize, nextpower_power, bind_Ok by lia. unfold SH_MAX_SIZE.
  destruct (Z.eqb_spec (2 ^ k) (2 ^ k)); [|done]. destruct (Z.eqb_spec (2 ^ k) (2 ^ 32)); [lia|]. destruct (Z.leb_spec (2 ^ k * 2) (2 ^ k)); [lia|].
  cbn [negb orb raise_if]. rewrite bind_Ok. replace (2 ^ k * 2) with (2 ^ (k + 1)) by lia. rewrite compute_size_power, bind_Ok by lia.
  destruct (update_parameters (k + 1) (set_data (SH_ALLOCATE (2 ^ (k + 1))) tb) ltac:(lia)) as (threshold & E & T1 & T2). rewrite E, bind_Ok.
  cbn [sh_members sh_data set_data]. set (tbn := mkTable (2 ^ (k + 1)) (sh_members tb) (2 ^ (k + 1) - 1) threshold (SH_ALLOCATE (2 ^ (k + 1)))).
  assert (Hex : exists j, sh_data tb !! j = Some None).
  { destruct (wf_has_empty tb Hw) as [e0 He]. unfold at_bucket in He. pose proof (Z.mod_pos_bound e0 (buckets (sh_data tb)) ltac:(lia)).
    destruct (lookup_lt_is_Some_2 (sh_data tb) (Z.to_nat (e0 mod buckets (sh_data tb)))) as [b Hb]; [unfold buckets in *; lia|].
    exists (Z.to_nat (e0 mod buckets (sh_data tb))). rewrite Hb in He |- *. cbn in He. by rewrite He. }
  destruct (find_start_run tbn (sh_data tb) 0 Hex) as (j & Ej & Lj & Hj). rewrite Ej, Z.add_0_l. unfold buckets in Hdata.
  assert (Hat : at_bucket (sh_data tb) (Z.of_nat j) = mjoin (sh_data tb !! j)) by (by apply at_bucket_nat).
  assert (Hs : distance (sh_data tb) (Z.of_nat j) <= 0).
  { unfold distance. rewrite Hat. destruct Hj as [->|(key & -> & Hi)]; cbn; [lia|]. unfold SH_INITIAL_BUCKET in Hi. cbn [tbn sh_sizemask] in Hi.
    replace (2 ^ (k + 1) - 1) with (Z.ones (k + 1)) in Hi by (rewrite Z.ones_equiv; lia). rewrite Z.land_ones, H2, Z.add_0_l in Hi by lia.
    unfold buckets. rewrite Hdata, <- Hi, Zminus_mod. rewrite (Z.mul_comm 2), Z.rem_mul_r, (Z.mul_comm (2 ^ k)), Z_mod_plus_full, Z.mod_mod, Z.sub_diag by lia. done. }
  assert (Hb0 : buckets (SH_ALLOCATE (K := K) (2 ^ (k + 1))) = 2 * 2 ^ k) by (unfold buckets, SH_ALLOCATE; rewrite length_replicate; lia).
  destruct (copy_entries_run (sh_data tb) tbn k (Z.of_nat j) ltac:(lia) Hdata eq_refl eq_refl (tw_robin _ Hw) (tw_unique _ Hw) Hs ltac:(lia)
    (Z.to_nat (2 ^ k)) (Z.of_nat j) (SH_ALLOCATE (2 ^ (k + 1))) ltac:(lia) ltac:(lia)) as (d & E2 & Hc).
  { apply copied_none; [done|apply allocate_none]. }
  rewrite Z.mod_small in E2 by lia. change (set_data (SH_ALLOCATE (2 ^ (k + 1))) tbn) with tbn in E2. rewrite E2.
  assert (Hst : forall key, stored d key <-> stored (sh_data tb) key).
  { intros key. apply (copied_stored (sh_data tb) k (Z.of_nat j)); [lia|done|done]. }
  assert (Hkeys : keys d ≡ₚ keys (sh_data tb)).
  { apply NoDup_Permutation; [apply unique_keys_NoDup, (cp_unique _ _ _ _ _ Hc)|apply unique_keys_NoDup, Hw|]. intros key. by rewrite !elem_of_keys. }
  assert (Hp' : params_ok (set_data d tbn) (k + 1)) by (split; [lia|done|done|cbn; rewrite (cp_buckets _ _ _ _ _ Hc); lia]).
  exists (set_data d tbn). split; [done|]. split; [|split; [done|split; [done|split; [done|done]]]].
  split; cbn.
  - by exists (k + 1).
  - apply (cp_robin _ _ _ _ _ Hc).
  - apply (cp_unique _ _ _ _ _ Hc).
  - intros key Hkey. apply (tw_keys _ Hw). by apply Hst.
  - by rewrite Hkeys, (tw_members _ Hw).
  - pose proof (tw_room _ Hw). lia.
  - done.
Qed.

(** A search starts at the optimal bucket and ends before it is back there. *)
Lemma search_bounds tb k s : table_wf tb -> params_ok tb k -> exists e, 0 <= e < sh_size tb /\ at_bucket (sh_data tb) (s + e) = None /\
  forall t, 0 <= t < e -> at_bucket (sh_data tb) (s + t) <> None.
Proof.
  intros Hw Hp. pose proof (size_bounds tb k Hp). pose proof (po_data _ _ Hp) as Hd.
  destruct (first_empty (sh_data tb) ltac:(lia) s (wf_has_empty tb Hw)) as (e & F1 & F2 & F3). rewrite Hd in F1. by exists e.
Qed.

Lemma SH_LOOKUP_run tb key : table_wf tb -> key_ok key ->
  exists r, SH_LOOKUP tb key = Ok r /\ (is_Some r <-> key ∈ keys (sh_data tb)) /\ forall b, r = Some b -> bucket_at (sh_data tb) b = Ok (Some key).
Proof.
  intros Hw Hkey. destruct (tw_params _ Hw) as [k Hp]. destruct (search_bounds tb k (SH_HASH_KEY key) Hw Hp) as (e & F1 & F2 & F3).
  unfold SH_LOOKUP, SH_LOOKUP_HASH_INTERNAL, SH_INITIAL_BUCKET. rewrite (land_mask tb k Hp).
  destruct (lookup_loop_run tb k Hp (tw_robin _ Hw) (tw_keys _ Hw) key Hkey e F1 F2 F3 (Z.to_nat (sh_size tb)) 0 ltac:(lia) ltac:(lia) ltac:(lia)) as (r & E & Hr).
  rewrite Z.add_0_r in E. exists r. split; [done|]. rewrite elem_of_keys. destruct r as [b|].
  - destruct Hr as [Hb Hst]. split; [split; [done|by exists b]|]. by intros b' [= <-].
  - split; [split; [by intros [b Hb]|done]|done].
Qed.

(** The result of an insertion into [tb]. *)
Record inserted (tb : SH_TYPE K) (key : K) (tb' : SH_TYPE K) (b : Z) (found : bool) : Prop := {
  in_wf : table_wf tb';
  in_dense : dense tb';
  in_found : found = true <-> key ∈ keys (sh_data tb);
  in_keys k : k ∈ keys (sh_data tb') <-> k = key \/ k ∈ keys (sh_data tb);
  in_members : sh_members tb' = sh_members tb + (if found then 0 else 1);
  in_bucket : bucket_at (sh_data tb') b = Ok (Some key)
}.

(** One search in a table with room. *)
Lemma insert_once tb k key : table_wf tb -> params_ok tb k -> key_ok key -> sh_members tb < sh_grow_threshold tb -> dense tb ->
  exists outcome, insert_loop (Z.to_nat (sh_size tb)) tb key (SH_INITIAL_BUCKET tb (SH_HASH_KEY key)) (SH_INITIAL_BUCKET tb (SH_HASH_KEY key)) 0 = Ok outcome /\
    match outcome with
    | Inserted tb' b found => inserted tb key tb' b found
    | Restart tb' => tb' = force_grow tb /\ filled_enough tb = true
    end.
Proof.
  intros Hw Hp Hkey Hroom Hdense. destruct (search_bounds tb k (SH_HASH_KEY key) Hw Hp) as (e & F1 & F2 & F3). pose proof (size_bounds tb k Hp) as Hsz.
  unfold SH_INITIAL_BUCKET. rewrite (land_mask tb k Hp).
  destruct (insert_loop_run tb k Hp (tw_robin _ Hw) (tw_keys _ Hw) key Hkey e F1 F2 F3 (Z.to_nat (sh_size tb)) 0 ltac:(lia) ltac:(lia)) as (outcome & E & Ho).
  { intros t Ht. lia. }
  rewrite Z.add_0_r in E. exists outcome. split; [done|]. destruct outcome as [tb' b [|]|tb']; [| |done].
  - destruct Ho as (-> & Hst & Hb). apply elem_of_keys in Hst. split; try done. + intros k'. split; [by right|]. by intros [->|]. + lia.
  - destruct Ho as (Hnot & data' & t & n & Hm & -> & Hb).
    pose proof (moved_keys _ _ _ _ _ _ Hm (tw_unique _ Hw) Hnot) as Hkeys. pose proof (tw_members _ Hw) as Hmem.
    assert (Hadd : u32 (sh_members tb + 1) = sh_members tb + 1) by (unfold u32; apply Z.mod_small; pose proof (tw_threshold _ Hw); lia).
    assert (Hst : forall k', k' ∈ keys data' <-> k' = key \/ k' ∈ keys (sh_data tb)) by (intros k'; by rewrite Hkeys, elem_of_cons).
    split; [|destruct Hdense as [Hd|Hd]; [left|right]; cbn; rewrite ?Hadd; lia| |done|cbn; lia|done].
    + split; cbn; rewrite ?Hadd.
      * exists k. destruct Hp as [P1 P2 P3 P4]. split; cbn; try done. by rewrite (mv_buckets _ _ _ _ _ _ Hm).
      * apply (moved_robin_hood _ _ _ _ _ _ Hm); [apply Hw|by apply wf_has_empty].
      * by apply (moved_unique _ _ _ _ _ _ Hm); [apply Hw|].
      * intros k' Hk'. apply (moved_stored _ _ _ _ _ _ Hm) in Hk' as [->|Hk']; [done|by apply Hw].
      * rewrite Hkeys. cbn. lia.
      * pose proof (tw_threshold _ Hw). lia.
      * apply Hw.
    + split; [done|]. intros Hin. apply elem_of_keys in Hin. done.
Qed.

Lemma inserted_grown tb tb1 key tb' b found : (forall k, stored (sh_data tb1) k <-> stored (sh_data tb) k) -> sh_members tb1 = sh_members tb ->
  inserted tb1 key tb' b found -> inserted tb key tb' b found.
Proof.
  intros Hst Hmem [I1 I2 I3 I4 I5 I6]. assert (Hin : forall k, k ∈ keys (sh_data tb1) <-> k ∈ keys (sh_data tb)) by (intros k; by rewrite !elem_of_keys).
  split; try done; [by rewrite <- Hin|intros k; by rewrite <- Hin|congruence].
Qed.

(** The check for room, and growing. *)
Lemma make_room tb k : table_wf tb -> params_ok tb k -> sh_members tb < 2 ^ 27 -> dense tb ->
  exists tb1 k1, (if sh_grow_threshold tb <=? sh_members tb
      then raise_if (sh_size tb =? SH_MAX_SIZE) ERR_hash_table_size_exceeded ;; SH_GROW tb (sh_size tb * 2) else Ok tb) = Ok tb1 /\
    table_wf tb1 /\ params_ok tb1 k1 /\ sh_members tb1 = sh_members tb /\ (forall key, stored (sh_data tb1) key <-> stored (sh_data tb) key) /\
    sh_members tb1 < sh_grow_threshold tb1 /\ dense tb1 /\ k <= k1 /\ (sh_grow_threshold tb <= sh_members tb -> k1 = k + 1).
Proof.
  intros Hw Hp Hm Hdense. destruct (Z.leb_spec (sh_grow_threshold tb) (sh_members tb)) as [Hle|Hlt].
  - pose proof (po_size _ _ Hp) as Hsize. pose proof (po_range _ _ Hp).
    assert (Hm0 : 0 <= sh_members tb) by (rewrite (tw_members _ Hw); lia).
    assert (Hlt : 2 ^ k < 2 ^ 32) by (destruct Hdense as [Hd|Hd]; lia). apply Z.pow_lt_mono_r_iff in Hlt; [|lia|lia].
    unfold SH_MAX_SIZE. destruct (Z.eqb_spec (sh_size tb) (2 ^ 32)) as [Heq|_]; [destruct Hdense; lia|]. cbn [raise_if]. rewrite bind_Ok.
    destruct (SH_GROW_run tb k Hw Hp ltac:(lia)) as (tb1 & E & Hw1 & Hp1 & Hm1 & Hst & Hd1).
    exists tb1, (k + 1). split; [done|]. split; [done|]. split; [done|]. split; [done|]. split; [done|]. split; [|split; [by left|split; [lia|done]]].
    pose proof (po_size _ _ Hp1) as Hs1. rewrite Z.pow_add_r in Hs1 by lia. pose proof (tw_room _ Hw). lia.
  - exists tb, k. split_and!; try done; lia.
Qed.

Lemma force_grow_wf tb : table_wf tb -> table_wf (force_grow tb).
Proof.
  intros [[k [P1 P2 P3 P4]] W2 W3 W4 W5 W6 W7]. split; try done; [exists k; by split|]. cbn. lia.
Qed.

Lemma insert_internal_run key restarts : key_ok key -> forall tb k, table_wf tb -> params_ok tb k -> sh_members tb < 2 ^ 27 -> dense tb ->
  32 - k <= Z.of_nat restarts \/ sh_grow_threshold tb <= sh_members tb /\ 31 - k <= Z.of_nat restarts ->
  exists tb' b found, SH_INSERT_HASH_INTERNAL restarts tb key (SH_HASH_KEY key) = Ok (tb', b, found) /\ inserted tb key tb' b found.
Proof.
  intros Hkey. induction restarts as [|restarts IH]; intros tb k Hw Hp Hm Hdense Hr; cbn [SH_INSERT_HASH_INTERNAL];
    destruct (make_room tb k Hw Hp Hm Hdense) as (tb1 & k1 & E1 & Hw1 & Hp1 & Hm1 & Hst1 & Hroom1 & Hd1 & Hk1 & Hk1');
    rewrite E1, bind_Ok; destruct (insert_once tb1 k1 key Hw1 Hp1 Hkey Hroom1 Hd1) as (outcome & E2 & Ho); rewrite E2, bind_Ok;
    (destruct outcome as [tb' b found|tb']; [exists tb', b, found; split; [done|]; by apply (inserted_grown tb tb1)|]);
    destruct Ho as [-> Hfull]; pose proof (po_range _ _ Hp1) as Hr1;
    assert (Hm0 : 0 <= sh_members tb1) by (rewrite (tw_members _ Hw1); lia);
    pose proof (filled_enough_members tb1 k1 Hr1 (po_size _ _ Hp1) ltac:(lia) Hfull) as Hlow;
    (assert (Hlt : 2 ^ k1 < 2 ^ 32) by lia); (apply Z.pow_lt_mono_r_iff in Hlt; [|lia|lia]).
  - destruct Hr as [Hr|[Hr1' Hr]]; [lia|]. specialize (Hk1' Hr1'). lia.
  - destruct (IH (force_grow tb1) k1) as (tb' & b & found & E & Hin).
    + by apply force_grow_wf.
    + destruct Hp1. by split.
    + cbn. lia.
    + right. cbn. rewrite (po_size _ _ Hp1). lia.
    + right. cbn. split; [done|]. destruct Hr as [Hr|[Hr1' Hr]]; [lia|]. specialize (Hk1' Hr1'). lia.
    + exists tb', b, found. split; [done|]. by apply (inserted_grown tb (force_grow tb1)).
Qed.

Lemma SH_INSERT_run tb key : table_wf tb -> dense tb -> sh_members tb < 2 ^ 27 -> key_ok key ->
  exists tb' b found, SH_INSERT tb key = Ok (tb', b, found) /\ inserted tb key tb' b found.
Proof.
  intros Hw Hd Hm Hkey. destruct (tw_params _ Hw) as [k Hp]. apply (insert_internal_run key 32 Hkey tb k); try done. left. pose proof (po_range _ _ Hp). lia.
Qed.

(** ** A new table *)

(** A number that is not greater than 2^32 is truncated to at most 2^32. *)
Lemma truncated_bound q e : Zpos q < 2 ^ 53 -> flt (S754_finite false 4503599627370496 (-20)) (S754_finite false q e) = false ->
  e < 0 /\ 0 <= Zpos q / 2 ^ (- e) <= 2 ^ 32.
Proof.
  intros Hq Hlt. unfold flt, SFltb, SFcompare in Hlt. destruct (Z.compare_spec (-20) e) as [<-|Hlt'|Hgt]; [|done|].
  - split; [lia|]. split; [apply Z.div_pos; lia|]. change (2 ^ (- -20)) with 1048576. apply Z.div_le_upper_bound; [lia|].
    change (1048576 * 2 ^ 32) with (Zpos 4503599627370496). change (Pos.compare_cont Eq 4503599627370496 q) with (Pos.compare 4503599627370496 q) in Hlt.
    destruct (Pos.compare_spec 4503599627370496 q) as [<-|Hc|Hc]; [done|done|]. apply Pos2Z.pos_le_pos. by apply Pos.lt_le_incl.
  - split; [lia|]. split; [apply Z.div_pos; [lia|apply Z.pow_pos_nonneg; lia]|].
    assert (2 ^ 21 <= 2 ^ (- e)) by (apply Z.pow_le_mono_r; lia). apply Z.div_le_upper_bound; [lia|]. change (2 ^ 53) with (2 ^ 21 * 2 ^ 32) in Hq. nia.
Qed.

Lemma SH_CREATE_run n : 0 <= n < 2 ^ 32 -> exists tb, SH_CREATE n = Ok tb /\ table_wf tb /\ dense tb /\ sh_members tb = 0 /\ keys (sh_data tb) = [].
Proof.
  intros Hn.
  assert (Hsize : exists size, size <= 2 ^ 32 /\ uint_of_double 64 (if flt (double_of_Z SH_MAX_SIZE) (ddiv (double_of_Z n) SH_FILLFACTOR)
    then double_of_Z SH_MAX_SIZE else ddiv (double_of_Z n) SH_FILLFACTOR) = Ok size).
  { destruct (Z.eq_dec n 0) as [->|Hn0]; [exists 0; split; [lia|by vm_compute]|].
    destruct (double_of_Z_small n ltac:(lia)) as (m & e & Em & Dm & He). rewrite Em.
    pose proof (Zdigits2_le n 32 ltac:(lia) ltac:(lia)) as Hdig.
    change SH_FILLFACTOR with (S754_finite false 8106479329266893 (-53)).
    pose proof (ddiv_at_most m e 8106479329266893 (-53) Dm eq_refl ltac:(lia)) as Hq.
    change (double_of_Z SH_MAX_SIZE) with (S754_finite false 4503599627370496 (-20)).
    destruct (ddiv _ _) as [s|s| |s q e']; [|done|done|].
    - exists 0. split; [lia|]. cbn in Hq. subst s. done.
    - destruct Hq as (-> & Hq & _). destruct (flt _ _) eqn:Hlt; [exists (2 ^ 32); split; [lia|by vm_compute]|].
      cbn [uint_of_double].
      assert (Hbound : e' < 0 /\ 0 <= Zpos q / 2 ^ (- e') <= 2 ^ 32) by (apply truncated_bound; [exact Hq|exact Hlt]).
      destruct Hbound as [He' Hb]. exists (Zpos q / 2 ^ (- e')). split; [lia|]. destruct (Z.leb_spec 0 e'); [lia|].
      destruct (Z.leb_spec 0 (Zpos q / 2 ^ (- e'))); [|lia]. by destruct (Z.ltb_spec (Zpos q / 2 ^ (- e')) (2 ^ 64)); [|lia]. }
  destruct Hsize as (size & Hs & E). unfold SH_CREATE. cbn zeta. rewrite E, bind_Ok. destruct (compute_size size Hs) as (k & Hk & Ek). rewrite Ek, bind_Ok.
  destruct (update_parameters k (mkTable 0 0 0 0 (SH_ALLOCATE (K := K) (2 ^ k))) Hk) as (threshold & Eu & T1 & T2). rewrite Eu.
  cbn [sh_members sh_data]. eexists. split; [done|].
  assert (Hnone : forall n, keys (SH_ALLOCATE (K := K) n) = []) by (intros n'; unfold keys, SH_ALLOCATE; induction (Z.to_nat n'); done).
  assert (Hp2 : 0 < 2 ^ k) by (apply Z.pow_pos_nonneg; lia).
  split; [|split; [by left|split; [done|apply Hnone]]]. split; cbn [sh_data sh_members sh_size sh_grow_threshold].
  - exists k. split; cbn; try done. unfold buckets, SH_ALLOCATE. rewrite length_replicate. lia.
  - intros i. unfold distance. rewrite !allocate_none. lia.
  - intros i j key. by rewrite allocate_none.
  - intros key [i Hi]. by rewrite allocate_none in Hi.
  - by rewrite Hnone.
  - done.
  - done.
Qed.
End Spec.

(** ** The tables of the index *)

#[export] Instance tidhash_laws : @SimpleHashLaws ItemPointerData tidhash.
Proof.
  refine {| key_ok := ItemPointer_ok |}; [|done].
  intros a b Ha Hb. cbn. by destruct (ItemPointer_roundtrip a b 0 0 Ha Hb) as (_ & _ & _ & H & _); [done|].
Defined.

#[export] Instance pointerhash_laws : @SimpleHashLaws Z pointerhash.
Proof. refine {| key_ok := fun _ => True |}; [|done]. intros a b _ _. apply Z.eqb_eq. Defined.

#[export] Instance offsethash_laws : @SimpleHashLaws Z offsethash.
Proof. refine {| key_ok := fun _ => True |}; [|done]. intros a b _ _. apply Z.eqb_eq. Defined.

Section Set_.
Context {K : Type} `{EqDecision K} `{SimpleHashLaws K}.

(** Insertions one after another, and what [found] is set to. *)
Fixpoint insert_all (tb : SH_TYPE K) (l : list K) : res (SH_TYPE K * list bool) :=
  match l with
  | [] => Ok (tb, [])
  | key :: l =>
      '(tb, _, found) ← SH_INSERT tb key ;
      '(tb, founds) ← insert_all tb l ;
      Ok (tb, found :: founds)
  end.

(** The same of a set: which of the keys came before. *)
Fixpoint seen (visited : list K) (l : list K) : list bool :=
  match l with [] => [] | key :: l => bool_decide (key ∈ visited) :: seen (key :: visited) l end.

Lemma insert_all_run l : forall tb visited, table_wf tb -> dense tb -> Forall key_ok l -> sh_members tb + Z.of_nat (length l) <= 2 ^ 27 ->
  (forall key, key ∈ keys (sh_data tb) <-> key ∈ visited) ->
  exists tb', insert_all tb l = Ok (tb', seen visited l) /\ table_wf tb' /\ forall key, key ∈ keys (sh_data tb') <-> key ∈ visited \/ key ∈ l.
Proof.
  induction l as [|key l IH]; intros tb visited Hw Hd Hok Hlen Hv; cbn [insert_all seen].
  - exists tb. split; [done|]. split; [done|]. intros key. rewrite Hv. split; [by left|]. intros [|Hin]; [done|by apply elem_of_nil in Hin].
  - apply list.Forall_cons in Hok as [Hkey Hok]. cbn [length] in Hlen.
    destruct (SH_INSERT_run tb key Hw Hd ltac:(lia) Hkey) as (tb' & b & found & E & [I1 I2 I3 I4 I5 _]).
    destruct (IH tb' (key :: visited) I1 I2 Hok) as (tb2 & E2 & Hw2 & Hin2).
    + rewrite I5. destruct found; lia.
    + intros k. rewrite I4, elem_of_cons, Hv. done.
    + exists tb2. rewrite E, bind_Ok, E2, bind_Ok. split; [|split; [done|]].
      * do 3 f_equal. destruct found; symmetry; [apply bool_decide_eq_true|apply bool_decide_eq_false]; rewrite <- Hv, <- I3; done.
      * intros k. rewrite Hin2, !elem_of_cons. tauto.
Qed.
End Set_.

(** C23: a hash table is a set.  For a table that SH_CREATE makes for any number of
    elements, and any sequence of at most 2^27 insertions, whatever the hash
    function: creation and insertions succeed (a loop ends, no assertion fails, the table never
    gets too large, also when it grows because of collisions), [found] says of each
    key whether it was inserted before, and afterwards a lookup finds exactly the
    inserted keys, in a bucket that has the key. *)
Theorem simplehash_is_set {K} `{EqDecision K} `{SimpleHashLaws K} n : 0 <= n < 2 ^ 32 ->
  exists tb0, SH_CREATE n = Ok tb0 /\ forall l, Forall key_ok l -> Z.of_nat (length l) <= 2 ^ 27 ->
    exists tb, insert_all tb0 l = Ok (tb, seen [] l) /\
      sh_members tb = Z.of_nat (length (remove_dups l)) /\
      forall key, key_ok key -> exists r, SH_LOOKUP tb key = Ok r /\ (is_Some r <-> key ∈ l) /\
        forall b, r = Some b -> bucket_at (sh_data tb) b = Ok (Some key).
Proof.
  intros Hn. destruct (SH_CREATE_run n Hn) as (tb0 & E0 & Hw & Hd & Hm & Hk). exists tb0. split; [done|]. intros l Hok Hlen.
  destruct (insert_all_run l tb0 [] Hw Hd Hok ltac:(lia)) as (tb & E & Hw' & Hin); [by rewrite Hk|]. exists tb. split; [done|]. split.
  - rewrite (tw_members _ Hw'). f_equal. apply Permutation_length, NoDup_Permutation; [by apply unique_keys_NoDup, Hw'|apply NoDup_remove_dups|].
    intros key. rewrite Hin, elem_of_remove_dups, elem_of_nil. tauto.
  - intros key Hkey. destruct (SH_LOOKUP_run tb key Hw' Hkey) as (r & Er & Hr & Hb). exists r. split; [done|]. split; [|done].
    rewrite Hr, Hin, elem_of_nil. tauto.
Qed.

Lemma simplehash_is_set_witness :
  exists tb0 tb, @SH_CREATE _ tidhash 3 = Ok tb0 /\
    @insert_all _ tidhash tb0 [ItemPointerSet 1 1; ItemPointerSet 1 2; ItemPointerSet 1 1; ItemPointerSet 2 1] = Ok (tb, [false; false; true; false]) /\
    sh_members tb = 3 /\ exists b, @SH_LOOKUP _ tidhash tb (ItemPointerSet 1 2) = Ok (Some b).
Proof.
  destruct (@simplehash_is_set ItemPointerData _ tidhash tidhash_laws 3) as (tb0 & H1 & H2); [lia|].
  destruct (H2 [ItemPointerSet 1 1; ItemPointerSet 1 2; ItemPointerSet 1 1; ItemPointerSet 2 1]) as (tb & H3 & H4 & H5).
  - repeat (apply list.Forall_cons; split; [apply ItemPointerSet_ok; vm_compute; split; congruence|]). apply list.Forall_nil. exact I.
  - cbn. lia.
  - exists tb0, tb. split; [exact H1|]. split; [exact H3|]. split; [exact H4|].
    destruct (H5 (ItemPointerSet 1 2)) as (r & H6 & H7 & _); [apply ItemPointerSet_ok; vm_compute; split; congruence|].
    destruct (proj2 H7) as [b Hb]; [by right; left|]. exists b. by rewrite H6, Hb.
Defined.
