(* ===== verification/HnswData.v ===== *)
(** * The data of the HNSW index

    src/pgvec/src/include/access/hnsw.h: constants, sizes, the structures in
    memory and on pages, and the pointer macros.

    A [HnswElementPtr] is the address or the relative offset the union holds
    (see ItemPtr.v); its elements are kept in a map from addresses.  The
    neighbor arrays of an element belong to it alone, so they are part of its
    record; [heaptids] is the used prefix of the array, so [heaptidsLength] is
    its length. *)

From Stdlib Require Import SpecFloat.
From S2P Require Import Prelude CFloat VectorType ItemPtr.

(** ** Constants *)

Definition HNSW_MAX_DIM : Z := 2000.
Definition HNSW_VERSION : Z := 1.
Definition HNSW_MAGIC_NUMBER : Z := 0xA953A953.
Definition HNSW_PAGE_ID : Z := 0xFF90.
Definition HNSW_METAPAGE_BLKNO : BlockNumber := 0.
Definition HNSW_HEAD_BLKNO : BlockNumber := 1.
Definition HNSW_UPDATE_LOCK : BlockNumber := 0.
Definition HNSW_SCAN_LOCK : BlockNumber := 1.
Definition HNSW_DEFAULT_M : Z := 16.
Definition HNSW_MIN_M : Z := 2.
Definition HNSW_MAX_M : Z := 100.
Definition HNSW_DEFAULT_EF_CONSTRUCTION : Z := 64.
Definition HNSW_MIN_EF_CONSTRUCTION : Z := 4.
Definition HNSW_MAX_EF_CONSTRUCTION : Z := 1000.
Definition HNSW_DEFAULT_EF_SEARCH : Z := 40.
Definition HNSW_MIN_EF_SEARCH : Z := 1.
Definition HNSW_MAX_EF_SEARCH : Z := 1000.
Definition HNSW_HEAPTIDS : Z := 10.
Definition HNSW_UPDATE_ENTRY_GREATER : Z := 1.
Definition HNSW_UPDATE_ENTRY_ALWAYS : Z := 2.

(** Sizes of C structures, for MAXIMUM_ALIGNOF = 8. *)
Definition MAXALIGN (len : Z) : Z := Z.land (len + 7) (Z.lnot 7).
Definition SizeOfPageHeaderData : Z := 24.
Definition sizeof_ItemIdData : Z := 4.
Definition sizeof_ItemPointerData : Z := 6.
Definition sizeof_HnswPageOpaqueData : Z := 8.
Definition sizeof_HnswMetaPageData : Z := 28.
Definition offsetof_element_data : Z := 72.
Definition offsetof_neighbor_indextids : Z := 4.

Definition HNSW_MAX_SIZE : Z :=
  BLCKSZ - MAXALIGN SizeOfPageHeaderData - MAXALIGN sizeof_HnswPageOpaqueData - sizeof_ItemIdData.
Definition HNSW_ELEMENT_TUPLE_SIZE (size : Z) : Z := MAXALIGN (offsetof_element_data + size).
Definition HNSW_NEIGHBOR_TUPLE_SIZE (level m : Z) : Z :=
  MAXALIGN (offsetof_neighbor_indextids + (level + 2) * m * sizeof_ItemPointerData).

Definition HnswGetLayerM (m layer : Z) : Z := if layer =? 0 then m * 2 else m.

(** The arithmetic is that of [size_t]. *)
Definition HnswGetMaxLevel (m : Z) : Z :=
  Z.min
    (((BLCKSZ - MAXALIGN SizeOfPageHeaderData - MAXALIGN sizeof_HnswPageOpaqueData
       - offsetof_neighbor_indextids - sizeof_ItemIdData) / sizeof_ItemPointerData / m - 2) mod 2 ^ 64)
    255.

(** ** Structures in memory *)

(** Pointers to elements, absolute or relative. *)
Abbreviation HnswElementPtr := addr (only parsing).

Record HnswCandidate := mkHnswCandidate {
  hc_element : HnswElementPtr;
  hc_distance : float;
  hc_closer : bool
}.

Record HnswNeighborArray := mkHnswNeighborArray {
  na_closerSet : bool;
  na_items : list HnswCandidate
}.
Definition na_length (a : HnswNeighborArray) : Z := Z.of_nat (length (na_items a)).

(** The spinlock-protected list pointer [next], the heap TIDs and the counters
    of an element; [neighbors] and [value] are [None] for NULL. *)
Record HnswElementData := mkHnswElement {
  el_next : HnswElementPtr;
  el_heaptids : list ItemPointerData;
  el_level : Z;
  el_deleted : Z;
  el_version : Z;
  el_hash : Z;
  el_neighbors : option (list HnswNeighborArray);
  el_blkno : BlockNumber;
  el_offno : OffsetNumber;
  el_neighborOffno : OffsetNumber;
  el_neighborPage : BlockNumber;
  el_value : option Vector
}.

Definition el_heaptidsLength (e : HnswElementData) : Z := Z.of_nat (length (el_heaptids e)).

Record HnswSearchCandidate := mkHnswSearchCandidate {
  sc_element : HnswElementPtr;
  sc_distance : double
}.

Record HnswOptions := mkHnswOptions { opt_m : Z; opt_efConstruction : Z }.

(** The functions of the operator class, and of the type. *)
Record HnswSupport := mkHnswSupport {
  procinfo : Vector -> Vector -> res double;
  normprocinfo : option (Vector -> res double)
}.

Record HnswTypeInfo := mkHnswTypeInfo {
  maxDimensions : Z;
  normalize : option (Vector -> res Vector);
  checkValue : option (Vector -> res unit)
}.

(** A query with a NULL value has none. *)
Record HnswQuery := mkHnswQuery { q_value : option Vector }.

Inductive HnswIterativeScanMode :=
  | HNSW_ITERATIVE_SCAN_OFF
  | HNSW_ITERATIVE_SCAN_RELAXED
  | HNSW_ITERATIVE_SCAN_STRICT.

(** ** Structures on pages *)

Record HnswMetaPageData := mkHnswMetaPage {
  mp_magicNumber : Z;
  mp_version : Z;
  mp_dimensions : Z;
  mp_m : Z;
  mp_efConstruction : Z;
  mp_entryBlkno : BlockNumber;
  mp_entryOffno : OffsetNumber;
  mp_entryLevel : Z;
  mp_insertPage : BlockNumber
}.

Record HnswPageOpaqueData := mkHnswPageOpaque {
  op_nextblkno : BlockNumber;
  op_unused : Z;
  op_page_id : Z
}.

Record HnswElementTupleData := mkHnswElementTuple {
  et_level : Z;
  et_deleted : Z;
  et_version : Z;
  et_heaptids : list ItemPointerData;
  et_neighbortid : ItemPointerData;
  et_unused : Z;
  et_data : Vector
}.

Record HnswNeighborTupleData := mkHnswNeighborTuple {
  nt_version : Z;
  nt_count : Z;
  nt_indextids : list ItemPointerData
}.

(** A tuple of a page; the constructor is the [type] field both structures
    start with (HNSW_ELEMENT_TUPLE_TYPE, HNSW_NEIGHBOR_TUPLE_TYPE). *)
Inductive HnswTuple :=
  | ElementTuple (etup : HnswElementTupleData)
  | NeighborTuple (ntup : HnswNeighborTupleData).

Definition HnswIsElementTuple (tup : HnswTuple) : bool :=
  match tup with ElementTuple _ => true | NeighborTuple _ => false end.
Definition HnswIsNeighborTuple (tup : HnswTuple) : bool :=
  match tup with ElementTuple _ => false | NeighborTuple _ => true end.

(** Casts of an item: reading a tuple of the other type is not defined. *)
Definition as_element (tup : HnswTuple) : res HnswElementTupleData :=
  match tup with ElementTuple etup => Ok etup | NeighborTuple _ => Err UndefinedBehaviour end.
Definition as_neighbor (tup : HnswTuple) : res HnswNeighborTupleData :=
  match tup with NeighborTuple ntup => Ok ntup | ElementTuple _ => Err UndefinedBehaviour end.

(** Some unvisited neighbor: its element in memory, its TID on disk. *)
Inductive HnswUnvisited :=
  | UnvisitedElement (element : addr)
  | UnvisitedTid (indextid : ItemPointerData).

(** ** Pointer macros *)

Definition HnswPtrAccess (base : addr) (hp : HnswElementPtr) : addr :=
  if (base =? NULL)%N then hp else relptr_access base hp.
Definition HnswPtrStore (base : addr) (value : addr) : HnswElementPtr :=
  if (base =? NULL)%N then value else relptr_store_eval base value.
Definition HnswPtrIsNull (base : addr) (hp : HnswElementPtr) : bool :=
  if (base =? NULL)%N then (hp =? NULL)%N else (hp =? 0)%N.
Definition HnswPtrEqual (base : addr) (hp1 hp2 : HnswElementPtr) : bool :=
  if (base =? NULL)%N then (hp1 =? hp2)%N else relptr_offset hp1 =? relptr_offset hp2.
Definition HnswPtrPointer (hp : HnswElementPtr) : addr := hp.
Definition HnswPtrOffset (hp : HnswElementPtr) : Z := relptr_offset hp.

(** ** Updates of single fields *)

Definition el_set_heaptids (l : list ItemPointerData) (e : HnswElementData) : HnswElementData :=
  mkHnswElement (el_next e) l (el_level e) (el_deleted e) (el_version e) (el_hash e)
    (el_neighbors e) (el_blkno e) (el_offno e) (el_neighborOffno e) (el_neighborPage e) (el_value e).
Definition el_set_next (p : HnswElementPtr) (e : HnswElementData) : HnswElementData :=
  mkHnswElement p (el_heaptids e) (el_level e) (el_deleted e) (el_version e) (el_hash e)
    (el_neighbors e) (el_blkno e) (el_offno e) (el_neighborOffno e) (el_neighborPage e) (el_value e).
Definition el_set_status (level deleted version : Z) (e : HnswElementData) : HnswElementData :=
  mkHnswElement (el_next e) (el_heaptids e) level deleted version (el_hash e)
    (el_neighbors e) (el_blkno e) (el_offno e) (el_neighborOffno e) (el_neighborPage e) (el_value e).
Definition el_set_level (level : Z) (e : HnswElementData) : HnswElementData :=
  el_set_status level (el_deleted e) (el_version e) e.
Definition el_set_hash (hash : Z) (e : HnswElementData) : HnswElementData :=
  mkHnswElement (el_next e) (el_heaptids e) (el_level e) (el_deleted e) (el_version e) hash
    (el_neighbors e) (el_blkno e) (el_offno e) (el_neighborOffno e) (el_neighborPage e) (el_value e).
Definition el_set_neighbors (n : option (list HnswNeighborArray)) (e : HnswElementData) : HnswElementData :=
  mkHnswElement (el_next e) (el_heaptids e) (el_level e) (el_deleted e) (el_version e) (el_hash e)
    n (el_blkno e) (el_offno e) (el_neighborOffno e) (el_neighborPage e) (el_value e).
Definition el_set_tid (blkno : BlockNumber) (offno : OffsetNumber) (e : HnswElementData) : HnswElementData :=
  mkHnswElement (el_next e) (el_heaptids e) (el_level e) (el_deleted e) (el_version e) (el_hash e)
    (el_neighbors e) blkno offno (el_neighborOffno e) (el_neighborPage e) (el_value e).
Definition el_set_neighbortid (page : BlockNumber) (offno : OffsetNumber) (e : HnswElementData) : HnswElementData :=
  mkHnswElement (el_next e) (el_heaptids e) (el_level e) (el_deleted e) (el_version e) (el_hash e)
    (el_neighbors e) (el_blkno e) (el_offno e) offno page (el_value e).
Definition el_set_value (v : option Vector) (e : HnswElementData) : HnswElementData :=
  mkHnswElement (el_next e) (el_heaptids e) (el_level e) (el_deleted e) (el_version e) (el_hash e)
    (el_neighbors e) (el_blkno e) (el_offno e) (el_neighborOffno e) (el_neighborPage e) v.

(** ** Lemmas: sizes *)

Lemma MAXALIGN_spec len : 0 <= len -> len <= MAXALIGN len < len + 8 /\ MAXALIGN len mod 8 = 0.
Proof.
  intros H. unfold MAXALIGN.
  assert (Z.land (len + 7) (Z.lnot 7) = (len + 7) - (len + 7) mod 8) as ->.
  { change 7 with (Z.ones 3) at 2. rewrite <- Z.ldiff_land, Z.ldiff_ones_r by lia.
    rewrite Z.shiftr_div_pow2, Z.shiftl_mul_pow2 by lia. change (2 ^ 3) with 8.
    pose proof (Z.div_mod (len + 7) 8). lia. }
  pose proof (Z.mod_pos_bound (len + 7) 8). split; [lia|].
  rewrite Zminus_mod_idemp_r. rewrite Z.sub_diag. reflexivity.
Qed.

Lemma MAXALIGN_le a b : 0 <= a -> a <= b -> b mod 8 = 0 -> MAXALIGN a <= b.
Proof.
  intros Ha Hab Hb. destruct (MAXALIGN_spec a Ha) as [Hr Hm].
  apply Z.mod_divide in Hb as [q Hb], Hm as [r Hm]; lia.
Qed.

Lemma MAXALIGN_id a : 0 <= a -> a mod 8 = 0 -> MAXALIGN a = a.
Proof.
  intros Ha Hm. destruct (MAXALIGN_spec a Ha) as [[H _] _].
  pose proof (MAXALIGN_le a a Ha ltac:(lia) Hm). lia.
Qed.

Lemma HNSW_MAX_SIZE_eq : HNSW_MAX_SIZE = 8156.
Proof. reflexivity. Qed.

Lemma maxlevel_bound m level : HNSW_MIN_M <= m <= HNSW_MAX_M -> 0 <= level <= HnswGetMaxLevel m ->
  (level + 2) * m <= 1358 /\ level <= 255.
Proof.
  unfold HNSW_MIN_M, HNSW_MAX_M, HnswGetMaxLevel. intros Hm.
  change ((BLCKSZ - MAXALIGN SizeOfPageHeaderData - MAXALIGN sizeof_HnswPageOpaqueData
    - offsetof_neighbor_indextids - sizeof_ItemIdData) / sizeof_ItemPointerData) with 1358.
  assert (13 <= 1358 / m) by (apply Z.div_le_lower_bound; lia).
  assert (1358 / m <= 1358) by (apply Z.div_le_upper_bound; lia).
  rewrite Z.mod_small by lia. intros Hl. split; [|lia].
  pose proof (Z.mul_div_le 1358 m ltac:(lia)). nia.
Qed.

Lemma maxlevel_nonneg m : HNSW_MIN_M <= m <= HNSW_MAX_M -> 11 <= HnswGetMaxLevel m <= 255.
Proof.
  unfold HNSW_MIN_M, HNSW_MAX_M, HnswGetMaxLevel. intros Hm.
  change ((BLCKSZ - MAXALIGN SizeOfPageHeaderData - MAXALIGN sizeof_HnswPageOpaqueData
    - offsetof_neighbor_indextids - sizeof_ItemIdData) / sizeof_ItemPointerData) with 1358.
  assert (13 <= 1358 / m) by (apply Z.div_le_lower_bound; lia).
  assert (1358 / m <= 1358) by (apply Z.div_le_upper_bound; lia).
  rewrite Z.mod_small by lia. lia.
Qed.

Lemma neighbor_size_bound m level : HNSW_MIN_M <= m <= HNSW_MAX_M -> 0 <= level <= HnswGetMaxLevel m ->
  0 < HNSW_NEIGHBOR_TUPLE_SIZE level m <= 8152.
Proof.
  intros Hm Hl. destruct (maxlevel_bound m level Hm Hl) as [H _].
  unfold HNSW_NEIGHBOR_TUPLE_SIZE, offsetof_neighbor_indextids, sizeof_ItemPointerData.
  unfold HNSW_MIN_M in Hm. split.
  - destruct (MAXALIGN_spec (4 + (level + 2) * m * 6)); [nia|]. nia.
  - apply MAXALIGN_le; [nia|lia|reflexivity].
Qed.

Lemma element_size_bound v : Vector_ok v -> dim v <= HNSW_MAX_DIM ->
  72 < HNSW_ELEMENT_TUPLE_SIZE (VARSIZE_ANY v) <= 8080.
Proof.
  intros Hv Hd. pose proof (ok_dim v Hv). pose proof (ok_size v Hv) as Hvl. unfold HNSW_MAX_DIM in Hd.
  unfold HNSW_ELEMENT_TUPLE_SIZE, VARSIZE_ANY, offsetof_element_data. rewrite Hvl.
  unfold VECTOR_SIZE. split.
  - destruct (MAXALIGN_spec (72 + (8 + 4 * dim v))); lia.
  - apply MAXALIGN_le; [lia|lia|reflexivity].
Qed.

(** ** Lemmas: pointers *)

(** The value of a pointer union is a 64-bit word. *)
Definition ptr_ok (hp : HnswElementPtr) : Prop := Z.of_N hp < 2 ^ 64.

Lemma HnswPtrStore_Access base hp : HnswPtrStore base (HnswPtrAccess base hp) = hp.
Proof.
  unfold HnswPtrStore, HnswPtrAccess, NULL. destruct (N.eqb_spec base 0); [done|].
  apply relptr_store_access. lia.
Qed.

Lemma HnswPtrAccess_Store base v : (base <= v)%N -> HnswPtrAccess base (HnswPtrStore base v) = v.
Proof.
  unfold HnswPtrStore, HnswPtrAccess, NULL. intros. destruct (N.eqb_spec base 0); [done|].
  by apply relptr_access_store.
Qed.

(** Relative pointers are compared by the offset they hold. *)
Definition ptr_fits (base : addr) (hp : HnswElementPtr) : Prop := base <> NULL -> ptr_ok hp.

Lemma HnswPtrEqual_spec base hp1 hp2 : ptr_fits base hp1 -> ptr_fits base hp2 ->
  HnswPtrEqual base hp1 hp2 = true <-> hp1 = hp2.
Proof.
  unfold ptr_fits, HnswPtrEqual, relptr_offset. intros H1 H2.
  destruct (N.eqb_spec base NULL) as [|Hb]; [apply N.eqb_eq|]. specialize (H1 Hb). specialize (H2 Hb).
  unfold ptr_ok in *. rewrite Z.eqb_eq.
  split; [|by intros ->]. intros H.
  assert (Z.of_N hp1 = Z.of_N hp2); [|lia].
  apply (f_equal (fun z => (z + 1) mod 2 ^ 64)) in H.
  rewrite !Zplus_mod_idemp_l, !Z.sub_add, !Z.mod_small in H; lia.
Qed.

(** C32: the tuples of an element fit on a page.  For every allowed value of
    [m] and every level up to [HnswGetMaxLevel m], and for every value of at
    most [HNSW_MAX_DIM] dimensions, both tuples are at most [HNSW_MAX_SIZE]
    bytes, the level is a [uint8] and the number of neighbors a [uint16]; for
    the largest [m] one more level would not fit. *)
Theorem tuples_fit m level v :
  HNSW_MIN_M <= m <= HNSW_MAX_M -> 0 <= level <= HnswGetMaxLevel m ->
  Vector_ok v -> dim v <= HNSW_MAX_DIM ->
  HNSW_ELEMENT_TUPLE_SIZE (VARSIZE_ANY v) <= HNSW_MAX_SIZE /\
  HNSW_NEIGHBOR_TUPLE_SIZE level m <= HNSW_MAX_SIZE /\
  level < 2 ^ 8 /\ (level + 2) * m < 2 ^ 16 /\
  HNSW_NEIGHBOR_TUPLE_SIZE (HnswGetMaxLevel HNSW_MAX_M + 1) HNSW_MAX_M > HNSW_MAX_SIZE.
Proof.
  intros Hm Hl Hv Hd. destruct (maxlevel_bound m level Hm Hl) as [H1 H2].
  pose proof (neighbor_size_bound m level Hm Hl). pose proof (element_size_bound v Hv Hd).
  rewrite HNSW_MAX_SIZE_eq. split_and!; try lia. by vm_compute.
Qed.

Lemma tuples_fit_witness :
  HNSW_ELEMENT_TUPLE_SIZE (VARSIZE_ANY v2) <= HNSW_MAX_SIZE /\
  HNSW_NEIGHBOR_TUPLE_SIZE 11 100 <= HNSW_MAX_SIZE /\
  11 < 2 ^ 8 /\ (11 + 2) * 100 < 2 ^ 16 /\
  HNSW_NEIGHBOR_TUPLE_SIZE (HnswGetMaxLevel HNSW_MAX_M + 1) HNSW_MAX_M > HNSW_MAX_SIZE.
Proof.
  apply (tuples_fit 100 11 v2);
    [by vm_compute | by vm_compute | exact v2_ok | by vm_compute].
Defined.
