(* ===== verification/BufPage.v ===== *)
(** * Pages

    src/pgvec/src/include/storage/bufpage.h, itemid.h and
    src/pgvec/src/backend/storage/page/bufpage.c: the page layout and the
    operations the index uses.  A page is its header, its line pointers and
    what its areas hold: the tuple at [lp_off] is kept with the line pointer,
    the structure at [PageGetContents] and the one in the special space are
    fields.  (The contents are those of the metapage, which has no line
    pointers.) *)

From S2P Require Import Prelude ItemPtr VectorType HnswData.

(** ** Data *)

Record ItemIdData := mkItemId {
  lp_off : Z;
  lp_flags : Z;
  lp_len : Z;
  lp_item : option HnswTuple
}.

Record Page := mkPage {
  pd_flags : Z;
  pd_lower : Z;
  pd_upper : Z;
  pd_special : Z;
  pd_linp : list ItemIdData;
  pd_contents : HnswMetaPageData;
  pd_opaque : HnswPageOpaqueData
}.

Definition LP_UNUSED : Z := 0.
Definition LP_NORMAL : Z := 1.
Definition PD_HAS_FREE_LINES : Z := 1.
Definition PAI_OVERWRITE : Z := 1.
Definition PAI_IS_HEAP : Z := 2.
(** (BLCKSZ - 24) / (MAXALIGN 23 + 4) *)
Definition MaxHeapTuplesPerPage : Z := 291.

Definition zero_meta : HnswMetaPageData := mkHnswMetaPage 0 0 0 0 0 0 0 0 0.
Definition zero_opaque : HnswPageOpaqueData := mkHnswPageOpaque 0 0 0.
(** A block that [P_NEW] adds to a relation. *)
Definition zero_page : Page := mkPage 0 0 0 0 [] zero_meta zero_opaque.

(** ** Line pointers *)

Definition ItemIdGetLength (itemId : ItemIdData) : Z := lp_len itemId.
Definition ItemIdGetOffset (itemId : ItemIdData) : Z := lp_off itemId.
Definition ItemIdIsUsed (itemId : ItemIdData) : bool := negb (lp_flags itemId =? LP_UNUSED).
Definition ItemIdHasStorage (itemId : ItemIdData) : bool := negb (lp_len itemId =? 0).

(** ** Page accessors *)

Definition PageHasFreeLinePointers (page : Page) : bool :=
  negb (Z.land (pd_flags page) PD_HAS_FREE_LINES =? 0).

Definition PageGetMaxOffsetNumber (page : Page) : OffsetNumber :=
  if pd_lower page <=? SizeOfPageHeaderData then 0
  else (pd_lower page - SizeOfPageHeaderData) / sizeof_ItemIdData.

(** There is no line pointer at an offset past the array. *)
Definition PageGetItemId (page : Page) (offsetNumber : OffsetNumber) : res ItemIdData :=
  if offsetNumber <? 1 then Err UndefinedBehaviour
  else of_option UndefinedBehaviour (pd_linp page !! Z.to_nat (offsetNumber - 1)).

Definition PageGetItem (itemId : ItemIdData) : res HnswTuple :=
  of_option UndefinedBehaviour (lp_item itemId).

(** [int] arithmetic, 0 when there is no room for a line pointer. *)
Definition PageGetFreeSpace (page : Page) : Z :=
  let space := pd_upper page - pd_lower page in
  if space <? sizeof_ItemIdData then 0 else space - sizeof_ItemIdData.

Definition PageGetExactFreeSpace (page : Page) : Z :=
  let space := pd_upper page - pd_lower page in
  if space <? 0 then 0 else space.

(** ** Updates of fields *)

Definition set_bounds (lower upper : Z) (linp : list ItemIdData) (page : Page) : Page :=
  mkPage (pd_flags page) lower upper (pd_special page) linp (pd_contents page) (pd_opaque page).
Definition set_contents (meta : HnswMetaPageData) (page : Page) : Page :=
  mkPage (pd_flags page) (pd_lower page) (pd_upper page) (pd_special page) (pd_linp page) meta (pd_opaque page).
Definition set_opaque (opaque : HnswPageOpaqueData) (page : Page) : Page :=
  mkPage (pd_flags page) (pd_lower page) (pd_upper page) (pd_special page) (pd_linp page) (pd_contents page) opaque.
Definition PageClearHasFreeLinePointers (page : Page) : Page :=
  mkPage (Z.ldiff (pd_flags page) PD_HAS_FREE_LINES) (pd_lower page) (pd_upper page) (pd_special page)
    (pd_linp page) (pd_contents page) (pd_opaque page).

(** Store into the tuple a line pointer designates, in place. *)
Definition set_item (tup : HnswTuple) (itemId : ItemIdData) : ItemIdData :=
  mkItemId (lp_off itemId) (lp_flags itemId) (lp_len itemId) (Some tup).
Definition PageSetItem (page : Page) (offsetNumber : OffsetNumber) (tup : HnswTuple) : Page :=
  set_bounds (pd_lower page) (pd_upper page)
    (alter (set_item tup) (Z.to_nat (offsetNumber - 1)) (pd_linp page)) page.

(** ** Operations of bufpage.c *)

Definition PageInit (pageSize specialSize : Z) : Page :=
  let specialSize := MAXALIGN specialSize in
  mkPage 0 SizeOfPageHeaderData (pageSize - specialSize) (pageSize - specialSize) []
    zero_meta zero_opaque.

Definition corrupted_pointers (page : Page) : bool :=
  (pd_lower page <? SizeOfPageHeaderData) || (pd_upper page <? pd_lower page) ||
  (pd_special page <? pd_upper page) || (BLCKSZ <? pd_special page).

(** The first line pointer, from [off], that is neither used nor has storage;
    one past the end if there is none. *)
Fixpoint find_unused (linp : list ItemIdData) (off : OffsetNumber) : OffsetNumber :=
  match linp with
  | [] => off
  | itemId :: linp' =>
      if negb (ItemIdIsUsed itemId) && negb (ItemIdHasStorage itemId) then off
      else find_unused linp' (off + 1)
  end.

(** The choice of the offset number: the offset, whether line pointers have to
    move, and the page with its hint corrected; [None] for a used slot. *)
Definition choose_offset (page : Page) (offsetNumber : OffsetNumber) (flags : Z) (limit : OffsetNumber)
    : res (option (OffsetNumber * bool * Page)) :=
  if OffsetNumberIsValid offsetNumber then
    if negb (Z.land flags PAI_OVERWRITE =? 0) then
      if offsetNumber <? limit then
        itemId ← PageGetItemId page offsetNumber ;
        Ok (if ItemIdIsUsed itemId || ItemIdHasStorage itemId then None
            else Some (offsetNumber, false, page))
      else Ok (Some (offsetNumber, false, page))
    else Ok (Some (offsetNumber, offsetNumber <? limit, page))
  else if PageHasFreeLinePointers page then
    let offsetNumber := find_unused (pd_linp page) FirstOffsetNumber in
    Ok (Some (offsetNumber, false,
              if limit <=? offsetNumber then PageClearHasFreeLinePointers page else page))
  else Ok (Some (limit, false, page)).

(** The returned offset number is [InvalidOffsetNumber] on failure. *)
Definition PageAddItemExtended (page : Page) (item : HnswTuple) (size : Z)
    (offsetNumber : OffsetNumber) (flags : Z) : res (OffsetNumber * Page) :=
  raise_if (corrupted_pointers page) ERR_corrupted_page ;;
  let limit := OffsetNumberNext (PageGetMaxOffsetNumber page) in
  choice ← choose_offset page offsetNumber flags limit ;
  match choice with
  | None => Ok (InvalidOffsetNumber, page)
  | Some (offsetNumber, needshuffle, page) =>
      if limit <? offsetNumber then Ok (InvalidOffsetNumber, page)
      else if negb (Z.land flags PAI_IS_HEAP =? 0) && (MaxHeapTuplesPerPage <? offsetNumber) then
        Ok (InvalidOffsetNumber, page)
      else
        let lower := if (offsetNumber =? limit) || needshuffle
                     then pd_lower page + sizeof_ItemIdData else pd_lower page in
        let upper := pd_upper page - MAXALIGN size in
        if upper <? lower then Ok (InvalidOffsetNumber, page)
        else
          let n := Z.to_nat (offsetNumber - 1) in
          let itemId := mkItemId upper LP_NORMAL size (Some item) in
          let linp :=
            if needshuffle || (offsetNumber =? limit)
            then take n (pd_linp page) ++ itemId :: drop n (pd_linp page)
            else <[n := itemId]> (pd_linp page) in
          Ok (offsetNumber, set_bounds lower upper linp page)
  end.

Definition PageAddItem (page : Page) (item : HnswTuple) (size : Z) (offsetNumber : OffsetNumber)
    (overwrite is_heap : bool) : res (OffsetNumber * Page) :=
  PageAddItemExtended page item size offsetNumber
    (Z.lor (if overwrite then PAI_OVERWRITE else 0) (if is_heap then PAI_IS_HEAP else 0)).

(** Line pointers with storage at or before [offset] follow the data that moved. *)
Definition relocate (offset size_diff : Z) (ii : ItemIdData) : ItemIdData :=
  if ItemIdHasStorage ii && (ItemIdGetOffset ii <=? offset)
  then mkItemId (lp_off ii + size_diff) (lp_flags ii) (lp_len ii) (lp_item ii)
  else ii.

Definition PageIndexTupleOverwrite (page : Page) (offnum : OffsetNumber) (newtup : HnswTuple)
    (newsize : Z) : res (bool * Page) :=
  raise_if (corrupted_pointers page || negb (pd_special page =? MAXALIGN (pd_special page)))
    ERR_corrupted_page ;;
  let itemcount := PageGetMaxOffsetNumber page in
  raise_if ((offnum <=? 0) || (itemcount <? offnum)) ERR_invalid_offnum ;;
  tupid ← PageGetItemId page offnum ;
  let oldsize := ItemIdGetLength tupid in
  let offset := ItemIdGetOffset tupid in
  raise_if ((offset <? pd_upper page) || (pd_special page <? offset + oldsize) ||
            negb (offset =? MAXALIGN offset)) ERR_corrupted_line_pointer ;;
  let oldsize := MAXALIGN oldsize in
  let alignednewsize := MAXALIGN newsize in
  if oldsize + (pd_upper page - pd_lower page) <? alignednewsize then Ok (false, page)
  else
    let size_diff := oldsize - alignednewsize in
    let '(upper, linp) :=
      if negb (size_diff =? 0)
      then (pd_upper page + size_diff, relocate offset size_diff <$> pd_linp page)
      else (pd_upper page, pd_linp page) in
    let tupid' := mkItemId (offset + size_diff) (lp_flags tupid) newsize (Some newtup) in
    Ok (true, set_bounds (pd_lower page) upper (<[Z.to_nat (offnum - 1) := tupid']> linp) page).

(** ** Well-formed pages

    Every line pointer is used and designates an aligned range of the tuple
    area, and no two ranges overlap. *)

Definition item_end (it : ItemIdData) : Z := lp_off it + MAXALIGN (lp_len it).

Definition item_ok (upper special : Z) (it : ItemIdData) : Prop :=
  lp_flags it = LP_NORMAL /\ 0 < lp_len it /\ upper <= lp_off it /\ lp_off it mod 8 = 0 /\
  item_end it <= special /\ is_Some (lp_item it).

Definition disjoint_items (a b : ItemIdData) : Prop :=
  item_end a <= lp_off b \/ item_end b <= lp_off a.

Definition separate (l : list ItemIdData) : Prop :=
  forall i j a b, i <> j -> l !! i = Some a -> l !! j = Some b -> disjoint_items a b.

Record page_ok (page : Page) : Prop := {
  po_flags : pd_flags page = 0;
  po_special : pd_special page = BLCKSZ - MAXALIGN sizeof_HnswPageOpaqueData;
  po_lower : pd_lower page = SizeOfPageHeaderData + sizeof_ItemIdData * Z.of_nat (length (pd_linp page));
  po_lower_upper : pd_lower page <= pd_upper page;
  po_upper_special : pd_upper page <= pd_special page;
  po_upper_aligned : pd_upper page mod 8 = 0;
  po_items : Forall (item_ok (pd_upper page) (pd_special page)) (pd_linp page);
  po_separate : separate (pd_linp page)
}.

Ltac page_consts :=
  unfold SizeOfPageHeaderData, sizeof_ItemIdData, BLCKSZ in *.

Lemma special_eq : BLCKSZ - MAXALIGN sizeof_HnswPageOpaqueData = 8184.
Proof. reflexivity. Qed.

Lemma PageInit_ok : page_ok (PageInit BLCKSZ sizeof_HnswPageOpaqueData).
Proof. by split. Qed.

Section PageLemmas.
Context (page : Page) (Hok : page_ok page).

#[local] Abbreviation nitems := (Z.of_nat (length (pd_linp page))).

Lemma nitems_bound : nitems <= 2040.
Proof using Hok.
  destruct Hok as [_ Hs Hl Hlu Hus _ _ _]. rewrite special_eq in Hs. page_consts. lia.
Qed.

Lemma PageGetMaxOffsetNumber_eq : PageGetMaxOffsetNumber page = nitems.
Proof using Hok.
  unfold PageGetMaxOffsetNumber. rewrite (po_lower _ Hok). page_consts.
  destruct (Z.leb_spec (24 + 4 * nitems) 24); [lia|].
  replace (24 + 4 * nitems - 24) with (nitems * 4) by lia. by rewrite Z.div_mul.
Qed.

Lemma PageNextOffset_eq : OffsetNumberNext (PageGetMaxOffsetNumber page) = nitems + 1.
Proof using Hok.
  rewrite PageGetMaxOffsetNumber_eq. unfold OffsetNumberNext. pose proof nitems_bound.
  rewrite u16_small by lia. lia.
Qed.

Lemma not_corrupted : corrupted_pointers page = false.
Proof using Hok.
  destruct Hok as [_ Hs Hl Hlu Hus _ _ _]. rewrite special_eq in Hs.
  unfold corrupted_pointers. page_consts. rewrite !orb_false_iff, !Z.ltb_ge. lia.
Qed.

Lemma PageGetExactFreeSpace_eq : PageGetExactFreeSpace page = pd_upper page - pd_lower page.
Proof using Hok.
  unfold PageGetExactFreeSpace. pose proof (po_lower_upper _ Hok). case_cmp; lia.
Qed.

Lemma PageGetItemId_ok i it : pd_linp page !! i = Some it -> PageGetItemId page (Z.of_nat i + 1) = Ok it.
Proof using Type.
  intros H. unfold PageGetItemId. case_cmp; [lia|].
  replace (Z.to_nat (Z.of_nat i + 1 - 1)) with i by lia. by rewrite H.
Qed.

Lemma page_item i it : pd_linp page !! i = Some it -> item_ok (pd_upper page) (pd_special page) it.
Proof using Hok. intros H. eapply (list.Forall_lookup_1 _ _ _ _ (po_items _ Hok) H). Qed.
End PageLemmas.

Lemma item_ok_mono u u' s it : u' <= u -> item_ok u s it -> item_ok u' s it.
Proof. unfold item_ok. intuition lia. Qed.

Lemma separate_snoc l it : separate l -> Forall (disjoint_items it) l -> separate (l ++ [it]).
Proof.
  intros Hs Hd i j a b Hij Ha Hb. rewrite list.Forall_forall in Hd.
  apply lookup_app_Some in Ha as [Ha|[Hi Ha]]; apply lookup_app_Some in Hb as [Hb|[Hj Hb]].
  - eauto.
  - apply list_lookup_singleton_Some in Hb as [_ <-].
    destruct (Hd a); [by eapply list_elem_of_lookup_2|by right|by left].
  - apply list_lookup_singleton_Some in Ha as [_ <-]. apply Hd. by eapply list_elem_of_lookup_2.
  - apply list_lookup_singleton_Some in Ha as [? _]. apply list_lookup_singleton_Some in Hb as [? _]. lia.
Qed.

(** ** [PageAddItem] at the end of the page *)

Definition new_item (page : Page) (tup : HnswTuple) (size : Z) : ItemIdData :=
  mkItemId (pd_upper page - MAXALIGN size) LP_NORMAL size (Some tup).

(** The page with one more tuple, under the next line pointer. *)
Definition page_with (page : Page) (tup : HnswTuple) (size : Z) : Page :=
  set_bounds (pd_lower page + sizeof_ItemIdData) (pd_upper page - MAXALIGN size)
    (pd_linp page ++ [new_item page tup size]) page.

Lemma free_space_room page size : page_ok page -> 0 < size -> MAXALIGN size <= PageGetFreeSpace page ->
  pd_lower page + sizeof_ItemIdData <= pd_upper page - MAXALIGN size.
Proof.
  intros Hok Hs. unfold PageGetFreeSpace. destruct (MAXALIGN_spec size) as [? _]; [lia|].
  case_cmp; lia.
Qed.

Lemma choose_offset_end page flags limit : page_ok page ->
  choose_offset page InvalidOffsetNumber flags limit = Ok (Some (limit, false, page)).
Proof. intros Hok. unfold choose_offset, PageHasFreeLinePointers. by rewrite (po_flags _ Hok). Qed.

Lemma PageAddItem_eq page tup size : page_ok page -> 0 < size ->
  PageAddItem page tup size InvalidOffsetNumber false false =
  if pd_lower page + sizeof_ItemIdData <=? pd_upper page - MAXALIGN size
  then Ok (Z.of_nat (length (pd_linp page)) + 1, page_with page tup size)
  else Ok (InvalidOffsetNumber, page).
Proof.
  intros Hok Hs. unfold PageAddItem, PageAddItemExtended.
  rewrite (not_corrupted page Hok). cbn [raise_if]. rewrite bind_Ok.
  rewrite PageNextOffset_eq, choose_offset_end, bind_Ok by done.
  set (n := Z.of_nat (length (pd_linp page))).
  rewrite Z.ltb_irrefl, !Z.eqb_refl. cbn [negb orb andb].
  replace (Z.to_nat (n + 1 - 1)) with (length (pd_linp page)) by lia.
  rewrite Z.leb_antisym. destruct (_ <? _); [done|]. simpl.
  unfold page_with, new_item. by rewrite take_ge, drop_ge by lia.
Qed.

Lemma page_with_ok page tup size : page_ok page -> 0 < size ->
  pd_lower page + sizeof_ItemIdData <= pd_upper page - MAXALIGN size ->
  page_ok (page_with page tup size).
Proof.
  intros Hok Hs Hroom. destruct (MAXALIGN_spec size) as [Ha Hm]; [lia|].
  destruct Hok as [Hf Hsp Hl Hlu Hus Hua Hit Hsep].
  assert (Hal : (pd_upper page - MAXALIGN size) mod 8 = 0).
  { rewrite Zminus_mod, Hua, Hm. reflexivity. }
  split; cbn; try done; try (page_consts; lia).
  - rewrite length_app. simpl. page_consts. lia.
  - apply Forall_app. split.
    + eapply List.Forall_impl; [|exact Hit]. intros it. apply item_ok_mono. lia.
    + constructor; [|constructor]. unfold item_ok, item_end. simpl. split_and!; try done; lia.
  - apply separate_snoc; [done|]. eapply List.Forall_impl; [|exact Hit].
    intros it (_ & _ & Hoff & _). left. unfold item_end. simpl. lia.
Qed.

(** ** [PageIndexTupleOverwrite] *)

(** The page with tuple [n] replaced, the tuples stored before it moved by the
    difference of the sizes. *)
Definition page_overwritten (page : Page) (n : nat) (old : ItemIdData) (tup : HnswTuple) (size : Z) : Page :=
  let d := MAXALIGN (lp_len old) - MAXALIGN size in
  set_bounds (pd_lower page) (pd_upper page + d)
    (<[n := mkItemId (lp_off old + d) (lp_flags old) size (Some tup)]>
       (relocate (lp_off old) d <$> pd_linp page)) page.

Lemma relocate_0 o it : relocate o 0 it = it.
Proof. unfold relocate. destruct (_ && _); [|done]. rewrite Z.add_0_r. by destruct it. Qed.

Lemma PageIndexTupleOverwrite_eq page n old tup size :
  page_ok page -> pd_linp page !! n = Some old -> 0 < size ->
  PageIndexTupleOverwrite page (Z.of_nat n + 1) tup size =
  if MAXALIGN size <=? MAXALIGN (lp_len old) + PageGetExactFreeSpace page
  then Ok (true, page_overwritten page n old tup size)
  else Ok (false, page).
Proof.
  intros Hok Hn Hs. unfold PageIndexTupleOverwrite.
  pose proof (page_item page Hok n old Hn) as (_ & Hlen & Hoff & Hal & Hend & _).
  pose proof (lookup_lt_Some _ _ _ Hn) as Hlt. unfold item_end in Hend.
  rewrite (not_corrupted page Hok), PageGetMaxOffsetNumber_eq, PageGetExactFreeSpace_eq by done.
  rewrite (po_special _ Hok), special_eq in *. change (negb (8184 =? MAXALIGN 8184)) with false.
  destruct (MAXALIGN_spec (lp_len old)) as [? _]; [lia|].
  cbn [orb raise_if]. rewrite bind_Ok.
  destruct (Z.leb_spec (Z.of_nat n + 1) 0); [lia|].
  destruct (Z.ltb_spec (Z.of_nat (length (pd_linp page))) (Z.of_nat n + 1)); [lia|].
  cbn [orb raise_if]. rewrite bind_Ok, (PageGetItemId_ok page n old Hn), bind_Ok.
  unfold ItemIdGetLength, ItemIdGetOffset.
  assert (0 <= lp_off old).
  { pose proof (po_lower _ Hok). pose proof (po_lower_upper _ Hok). page_consts. lia. }
  rewrite (MAXALIGN_id (lp_off old)) by done. rewrite Z.eqb_refl.
  destruct (Z.ltb_spec (lp_off old) (pd_upper page)); [lia|].
  destruct (Z.ltb_spec 8184 (lp_off old + lp_len old)); [lia|].
  cbn [orb negb raise_if]. rewrite bind_Ok.
  replace (Z.to_nat (Z.of_nat n + 1 - 1)) with n by lia. unfold page_overwritten.
  rewrite Z.leb_antisym. destruct (_ <? _); [done|]. cbn [negb].
  destruct (Z.eqb_spec (MAXALIGN (lp_len old) - MAXALIGN size) 0) as [->|]; [|done]. cbn [negb].
  do 3 f_equal; [lia|]. f_equal. rewrite <- (list_fmap_id (pd_linp page)) at 1.
  apply list_fmap_ext. intros. by rewrite relocate_0.
Qed.

Lemma relocate_fields o d it :
  lp_flags (relocate o d it) = lp_flags it /\ lp_len (relocate o d it) = lp_len it /\
  lp_item (relocate o d it) = lp_item it.
Proof. unfold relocate. by destruct (_ && _). Qed.

Section Overwrite.
Context (page : Page) (n : nat) (old : ItemIdData) (tup : HnswTuple) (size : Z).
Context (Hok : page_ok page) (Hn : pd_linp page !! n = Some old) (Hsize : 0 < size).
Context (Hroom : MAXALIGN size <= MAXALIGN (lp_len old) + PageGetExactFreeSpace page).

#[local] Abbreviation d := (MAXALIGN (lp_len old) - MAXALIGN size).
#[local] Abbreviation page' := (page_overwritten page n old tup size).

(** Where the other tuples are after the move. *)
Lemma relocate_position j it : j <> n -> pd_linp page !! j = Some it ->
  item_ok (pd_upper page) (pd_special page) it /\
  ((lp_off (relocate (lp_off old) d it) = lp_off it + d /\ item_end it <= lp_off old) \/
   (lp_off (relocate (lp_off old) d it) = lp_off it /\ item_end old <= lp_off it)).
Proof using Hok Hn.
  intros Hj Hit. pose proof (page_item page Hok j it Hit) as Hi.
  pose proof (page_item page Hok n old Hn) as Ho. split; [done|].
  destruct (po_separate _ Hok j n it old Hj Hit Hn) as [Hd|Hd].
  - left. split; [|done]. destruct Hi as (_ & Hl & _). unfold relocate, ItemIdHasStorage, ItemIdGetOffset.
    unfold item_end in Hd. destruct (MAXALIGN_spec (lp_len it)); [lia|].
    case_cmp; simpl; lia.
  - right. split; [|done]. destruct Ho as (_ & Hl & _). unfold relocate, ItemIdGetOffset.
    unfold item_end in Hd. destruct (MAXALIGN_spec (lp_len old)); [lia|].
    destruct (Z.leb_spec (lp_off it) (lp_off old)); [lia|]. by rewrite andb_false_r.
Qed.

Lemma page_overwritten_lookup j :
  pd_linp page' !! j =
  if decide (j = n) then Some (mkItemId (lp_off old + d) (lp_flags old) size (Some tup))
  else relocate (lp_off old) d <$> pd_linp page !! j.
Proof using Hn.
  unfold page_overwritten. cbn. pose proof (lookup_lt_Some _ _ _ Hn). destruct (decide (j = n)) as [->|].
  - rewrite list_lookup_insert_eq; [done|]. by rewrite length_fmap.
  - by rewrite list_lookup_insert_ne, list_lookup_fmap by congruence.
Qed.

Lemma d_aligned : d mod 8 = 0.
Proof using Hsize Hn Hok.
  pose proof (page_item page Hok n old Hn) as (_ & Hl & _).
  destruct (MAXALIGN_spec (lp_len old)) as [_ H1]; [lia|].
  destruct (MAXALIGN_spec size) as [_ H2]; [lia|]. by rewrite Zminus_mod, H1, H2.
Qed.

Lemma add_aligned z : z mod 8 = 0 -> (z + d) mod 8 = 0.
Proof using Hsize Hn Hok. intros H. by rewrite Zplus_mod, H, d_aligned. Qed.

Lemma separate_overwritten i j a b : i <> j ->
  (if decide (i = n) then Some (mkItemId (lp_off old + d) (lp_flags old) size (Some tup))
   else relocate (lp_off old) d <$> pd_linp page !! i) = Some a ->
  (if decide (j = n) then Some (mkItemId (lp_off old + d) (lp_flags old) size (Some tup))
   else relocate (lp_off old) d <$> pd_linp page !! j) = Some b ->
  disjoint_items a b.
Proof using Hok Hn Hsize.
  intros Hij. pose proof (page_item page Hok n old Hn) as (_ & Hl & _).
  destruct (MAXALIGN_spec size) as [Hms _]; [lia|].
  destruct (MAXALIGN_spec (lp_len old)) as [Hmo _]; [lia|].
  assert (Hother : forall k c, k <> n -> relocate (lp_off old) d <$> pd_linp page !! k = Some c ->
     exists it, pd_linp page !! k = Some it /\ lp_len c = lp_len it /\
       ((lp_off c = lp_off it + d /\ item_end it <= lp_off old) \/
        (lp_off c = lp_off it /\ item_end old <= lp_off it))).
  { intros k c Hk Hc. destruct (pd_linp page !! k) as [it|] eqn:E; [|done]. injection Hc as <-.
    exists it. split; [done|]. split; [apply relocate_fields|]. by eapply relocate_position. }
  unfold disjoint_items, item_end in *.
  destruct (decide (i = n)) as [->|Hi]; destruct (decide (j = n)) as [->|Hj]; [done| | |].
  - intros [= <-] Hb. destruct (Hother j b Hj Hb) as (it & _ & -> & Hp). cbn. lia.
  - intros Ha [= <-]. destruct (Hother i a Hi Ha) as (it & _ & -> & Hp). cbn. lia.
  - intros Ha Hb. destruct (Hother i a Hi Ha) as (ia & Eia & Hla & Hpa).
    destruct (Hother j b Hj Hb) as (ib & Eib & Hlb & Hpb). rewrite Hla, Hlb.
    pose proof (po_separate _ Hok i j ia ib Hij Eia Eib) as Hd. unfold disjoint_items, item_end in Hd. lia.
Qed.

Lemma page_overwritten_ok : page_ok page'.
Proof using Hok Hn Hsize Hroom.
  pose proof (page_item page Hok n old Hn) as Hold.
  pose proof Hold as (Hfl & Hl & Hlo & Ha & He & _). unfold item_end in He.
  rewrite (PageGetExactFreeSpace_eq page Hok) in Hroom.
  destruct (MAXALIGN_spec size) as [Hms _]; [lia|].
  destruct (MAXALIGN_spec (lp_len old)) as [Hmo _]; [lia|].
  pose proof (po_lower_upper _ Hok). pose proof (po_upper_special _ Hok).
  assert (Hitems : forall j it, pd_linp page' !! j = Some it ->
     item_ok (pd_upper page + d) (pd_special page) it).
  { intros j it. rewrite page_overwritten_lookup. destruct (decide (j = n)) as [->|Hne].
    - intros [= <-]. unfold item_ok, item_end. cbn. split_and!; try done; try lia. by apply add_aligned.
    - destruct (pd_linp page !! j) as [it0|] eqn:E; [|done]. intros [= <-].
      destruct (relocate_position j it0 Hne E) as ((Hf & Hl0 & Hu & Ha0 & He0 & Hs) & Hpos).
      destruct (relocate_fields (lp_off old) d it0) as (E1 & E2 & E3).
      unfold item_ok, item_end in *. rewrite E1, E2, E3.
      destruct Hpos as [[-> ?]|[-> ?]]; split_and!; try done; try lia. by apply add_aligned. }
  split; cbn.
  - apply Hok.
  - apply Hok.
  - rewrite length_insert, length_fmap. apply Hok.
  - lia.
  - lia.
  - apply add_aligned, Hok.
  - apply Forall_lookup. exact Hitems.
  - intros i j a b Hij Ha' Hb'.
    change (pd_linp page' !! i = Some a) in Ha'. change (pd_linp page' !! j = Some b) in Hb'.
    rewrite page_overwritten_lookup in Ha', Hb'. by eapply separate_overwritten.
Qed.
End Overwrite.

Lemma page_with_free page tup size : page_ok page -> 0 < size ->
  pd_lower page + sizeof_ItemIdData <= pd_upper page - MAXALIGN size ->
  PageGetExactFreeSpace (page_with page tup size) =
  PageGetExactFreeSpace page - sizeof_ItemIdData - MAXALIGN size.
Proof.
  intros Hok Hs Hr. rewrite (PageGetExactFreeSpace_eq page Hok).
  rewrite (PageGetExactFreeSpace_eq _ (page_with_ok page tup size Hok Hs Hr)). cbn. lia.
Qed.

Lemma page_overwritten_free page n old tup size : page_ok page -> pd_linp page !! n = Some old ->
  0 < size -> MAXALIGN size <= MAXALIGN (lp_len old) + PageGetExactFreeSpace page ->
  PageGetExactFreeSpace (page_overwritten page n old tup size) =
  PageGetExactFreeSpace page + MAXALIGN (lp_len old) - MAXALIGN size.
Proof.
  intros Hok Hn Hs Hr. rewrite (PageGetExactFreeSpace_eq page Hok).
  rewrite (PageGetExactFreeSpace_eq _ (page_overwritten_ok page n old tup size Hok Hn Hs Hr)). cbn. lia.
Qed.

Lemma free_space_iff page size : page_ok page -> 0 < size ->
  MAXALIGN size <= PageGetFreeSpace page <->
  pd_lower page + sizeof_ItemIdData <= pd_upper page - MAXALIGN size.
Proof.
  intros Hok Hs. split; [by apply free_space_room|].
  unfold PageGetFreeSpace. destruct (MAXALIGN_spec size) as [? _]; [lia|]. case_cmp; lia.
Qed.

(** The tuple at an offset number. *)
Definition page_tuple (page : Page) (off : OffsetNumber) : res HnswTuple :=
  itemId ← PageGetItemId page off ; PageGetItem itemId.

(** ** Properties *)

(** C25: [PageAddItem] on a well-formed page with room for the aligned tuple
    and a line pointer puts the tuple at the next offset number, where it can
    be read back, changes no other tuple and keeps the page well formed;
    without the room it fails and leaves the page alone.  [PageGetFreeSpace]
    is the exact bound. *)
Theorem PageAddItem_correct page tup size :
  page_ok page -> 0 < size ->
  if decide (MAXALIGN size <= PageGetFreeSpace page) then
    exists page', let off := PageGetMaxOffsetNumber page + 1 in
      PageAddItem page tup size InvalidOffsetNumber false false = Ok (off, page') /\
      page_ok page' /\ PageGetMaxOffsetNumber page' = off /\
      page_tuple page' off = Ok tup /\
      (forall o, o < off -> page_tuple page' o = page_tuple page o) /\
      PageGetExactFreeSpace page' = PageGetExactFreeSpace page - MAXALIGN size - sizeof_ItemIdData
  else PageAddItem page tup size InvalidOffsetNumber false false = Ok (InvalidOffsetNumber, page).
Proof.
  intros Hok Hs. rewrite PageAddItem_eq by done. pose proof (free_space_iff page size Hok Hs) as Hiff.
  destruct (decide _) as [Hd|Hd]; [|by destruct (Z.leb_spec (pd_lower page + sizeof_ItemIdData) (pd_upper page - MAXALIGN size)); [tauto|]].
  apply Hiff in Hd. rewrite (proj2 (Z.leb_le _ _) Hd). exists (page_with page tup size).
  pose proof (page_with_ok page tup size Hok Hs Hd) as Hok'. cbn zeta.
  rewrite (PageGetMaxOffsetNumber_eq _ Hok), (PageGetMaxOffsetNumber_eq _ Hok'), page_with_free by done.
  split_and!; [done|done| | |intros o Ho|lia].
  - cbn. rewrite length_app. simpl. lia.
  - unfold page_tuple. rewrite (PageGetItemId_ok _ (length (pd_linp page)) (new_item page tup size)); [done|].
    cbn. by apply list_lookup_middle.
  - unfold page_tuple, PageGetItemId. destruct (Z.ltb_spec o 1); [done|]. cbn.
    by rewrite lookup_app_l by lia.
Qed.

(** C24: [PageIndexTupleOverwrite] on a tuple of a well-formed page succeeds
    exactly when the new tuple fits in the old one and the free space: the new
    tuple can then be read back, every other tuple reads as before even though
    its bytes may have moved, the free space changes by the difference of the
    aligned sizes and the page stays well formed; otherwise nothing changes. *)
Theorem PageIndexTupleOverwrite_correct page off old tup size :
  page_ok page -> PageGetItemId page off = Ok old -> 0 < size ->
  if decide (MAXALIGN size <= MAXALIGN (ItemIdGetLength old) + PageGetExactFreeSpace page) then
    exists page', PageIndexTupleOverwrite page off tup size = Ok (true, page') /\
      page_ok page' /\ PageGetMaxOffsetNumber page' = PageGetMaxOffsetNumber page /\
      page_tuple page' off = Ok tup /\
      (forall o, o <> off -> page_tuple page' o = page_tuple page o) /\
      PageGetExactFreeSpace page' =
        PageGetExactFreeSpace page + MAXALIGN (ItemIdGetLength old) - MAXALIGN size
  else PageIndexTupleOverwrite page off tup size = Ok (false, page).
Proof.
  intros Hok Hold Hs. unfold PageGetItemId in Hold. destruct (Z.ltb_spec off 1) as [|Ho]; [done|].
  destruct (pd_linp page !! Z.to_nat (off - 1)) as [it|] eqn:E; [|done]. injection Hold as ->.
  set (n := Z.to_nat (off - 1)) in *. replace off with (Z.of_nat n + 1) by lia.
  rewrite (PageIndexTupleOverwrite_eq page n old tup size Hok E Hs). unfold ItemIdGetLength.
  destruct (decide _) as [Hd|Hd]; [|by destruct (Z.leb_spec (MAXALIGN size) (MAXALIGN (lp_len old) + PageGetExactFreeSpace page))].
  rewrite (proj2 (Z.leb_le _ _) Hd). exists (page_overwritten page n old tup size).
  pose proof (page_overwritten_ok page n old tup size Hok E Hs Hd) as Hok'.
  pose proof (page_overwritten_lookup page n old tup size E) as Hl.
  rewrite (PageGetMaxOffsetNumber_eq _ Hok), (PageGetMaxOffsetNumber_eq _ Hok').
  split_and!; [done|done| | |intros o Hne|by apply page_overwritten_free].
  - unfold page_overwritten. cbn. by rewrite length_insert, length_fmap.
  - unfold page_tuple. erewrite (PageGetItemId_ok _ n); [|by rewrite Hl, decide_True]. done.
  - unfold page_tuple, PageGetItemId. destruct (Z.ltb_spec o 1); [done|].
    rewrite Hl, decide_False by lia.
    destruct (pd_linp page !! Z.to_nat (o - 1)) as [it|]; [|done]. cbn.
    unfold PageGetItem. by destruct (relocate_fields (lp_off old) (MAXALIGN (lp_len old) - MAXALIGN size) it) as (_ & _ & ->).
Qed.

(** ** Witnesses *)

Definition sample_ntup : HnswTuple := NeighborTuple (mkHnswNeighborTuple 1 1 [ItemPointerSetInvalid]).
Definition empty_page : Page := PageInit BLCKSZ sizeof_HnswPageOpaqueData.
Definition page2 : Page := page_with (page_with empty_page sample_ntup 16) sample_ntup 10.

Lemma page2_ok : page_ok page2.
Proof.
  apply page_with_ok; [apply page_with_ok; [exact PageInit_ok|lia|] |lia|]; vm_compute; discriminate.
Qed.

Lemma PageAddItem_correct_witness :
  exists page', PageAddItem empty_page sample_ntup 10 InvalidOffsetNumber false false = Ok (1, page') /\
    page_ok page'.
Proof.
  pose proof (PageAddItem_correct empty_page sample_ntup 10 PageInit_ok ltac:(lia)) as H.
  rewrite decide_True in H by (vm_compute; discriminate).
  destruct H as (page' & H1 & H2 & _). exists page'. split; [exact H1|exact H2].
Defined.

(** Growing the first tuple moves the second. *)
Lemma PageIndexTupleOverwrite_correct_witness :
  exists page', PageIndexTupleOverwrite page2 1 sample_ntup 24 = Ok (true, page') /\
    page_ok page' /\ page_tuple page' 1 = Ok sample_ntup /\
    page_tuple page' 2 = page_tuple page2 2.
Proof.
  pose proof (PageIndexTupleOverwrite_correct page2 1 (new_item empty_page sample_ntup 16) sample_ntup 24
    page2_ok ltac:(reflexivity) ltac:(lia)) as H.
  rewrite decide_True in H by (vm_compute; discriminate).
  destruct H as (page' & H1 & H2 & _ & H4 & H5 & _). exists page'.
  split; [exact H1|]. split; [exact H2|]. split; [exact H4|]. apply H5. lia.
Defined.
