(* ===== verification/Backend.v ===== *)
(** * Relations, buffers and the generic write-ahead log

    The state the index code works on: the elements allocated in memory, the
    index relation, and the pages a generic xlog record is being built from
    (src/pgvec/src/backend/access/transam/generic_xlog.c).

    A [Buffer] is the number of the block it holds, and the shared buffer of a
    block is the block of the relation: pins and buffer locks do not show in a
    run of one backend.  A C pointer to a page is either into a shared buffer
    or into an image of the xlog state, so stores through it are visible to
    the readers of that copy only. *)

From S2P Require Import Prelude ItemPtr VectorType HnswData BufPage.

Inductive ForkNumber := MAIN_FORKNUM | INIT_FORKNUM.

(** The reloptions are [None] when [rd_options] is NULL; [rd_typmod] is the
    type modifier of the indexed column. *)
Record Relation := mkRelation {
  rd_main : list Page;
  rd_init : list Page;
  rd_options : option HnswOptions;
  rd_typmod : Z;
  rd_needs_wal : bool;
  rd_support : HnswSupport;
  rd_typeInfo : option HnswTypeInfo
}.

Definition MAX_GENERIC_XLOG_PAGES : nat := 4.

(** Registered buffers with their images, in the order of registration. *)
Record GenericXLogState := mkXLogState {
  isLogged : bool;
  xl_pages : list (BlockNumber * Page)
}.

Record Backend := mkBackend {
  mem : gmap addr HnswElementData;
  index : Relation;
  xlog : option GenericXLogState
}.

Inductive PageRef :=
  | BufferPage (buf : BlockNumber)
  | ImagePage (buf : BlockNumber).

(** The allocator gives a fresh address that is not NULL and an element whose
    fields are not initialised. *)
Class Palloc := {
  palloc_addr : gmap addr HnswElementData -> addr;
  uninit : HnswElementData;
  palloc_fresh m : m !! palloc_addr m = None;
  palloc_not_null m : palloc_addr m <> NULL
}.

(** ** Elements in memory *)

(** Dereferencing a pointer to an element. *)
Definition load_element (p : addr) : M Backend HnswElementData :=
  fun s => match mem s !! p with Some e => Ok (e, s) | None => Err UndefinedBehaviour end.

Definition store_element (p : addr) (e : HnswElementData) : M Backend unit :=
  fun s => match mem s !! p with
           | Some _ => Ok (tt, mkBackend (<[p := e]> (mem s)) (index s) (xlog s))
           | None => Err UndefinedBehaviour
           end.

Definition modify_element (p : addr) (f : HnswElementData -> HnswElementData) : M Backend unit :=
  e ← load_element p ; store_element p (f e).

Definition palloc_element `{Palloc} (e : HnswElementData) : M Backend addr :=
  fun s => let p := palloc_addr (mem s) in
           Ok (p, mkBackend (<[p := e]> (mem s)) (index s) (xlog s)).

(** ** Buffers *)

Definition rd_pages (rel : Relation) (forkNum : ForkNumber) : list Page :=
  match forkNum with MAIN_FORKNUM => rd_main rel | INIT_FORKNUM => rd_init rel end.

Definition with_pages (rel : Relation) (forkNum : ForkNumber) (pages : list Page) : Relation :=
  match forkNum with
  | MAIN_FORKNUM => mkRelation pages (rd_init rel) (rd_options rel) (rd_typmod rel) (rd_needs_wal rel)
                      (rd_support rel) (rd_typeInfo rel)
  | INIT_FORKNUM => mkRelation (rd_main rel) pages (rd_options rel) (rd_typmod rel) (rd_needs_wal rel)
                      (rd_support rel) (rd_typeInfo rel)
  end.

Definition with_index (s : Backend) (rel : Relation) : Backend := mkBackend (mem s) rel (xlog s).
Definition with_xlog (s : Backend) (x : option GenericXLogState) : Backend := mkBackend (mem s) (index s) x.

(** The page of a block; reading past the end of the fork is an error. *)
Definition block (pages : list Page) (blkno : BlockNumber) : option Page :=
  if blkno <? 0 then None else pages !! Z.to_nat blkno.

Section Fork.
Context (forkNum : ForkNumber).

Definition ReadBufferFork (blkno : BlockNumber) : M Backend BlockNumber :=
  fun s => match block (rd_pages (index s) forkNum) blkno with
           | Some _ => Ok (blkno, s)
           | None => Err ERR_read_past_end
           end.

(** [ReadBufferExtended(index, forkNum, P_NEW, ...)]: a new block of zeroes at
    the end of the fork. *)
Definition ReadBufferNew : M Backend BlockNumber :=
  fun s => let pages := rd_pages (index s) forkNum in
           Ok (Z.of_nat (length pages),
               with_index s (with_pages (index s) forkNum (pages ++ [zero_page]))).

Definition read_page (r : PageRef) : M Backend Page :=
  fun s =>
    match r with
    | BufferPage buf =>
        match block (rd_pages (index s) forkNum) buf with
        | Some p => Ok (p, s)
        | None => Err UndefinedBehaviour
        end
    | ImagePage buf =>
        match xlog s with
        | None => Err UndefinedBehaviour
        | Some st =>
            match list_find (fun x => x.1 = buf) (xl_pages st) with
            | Some (_, (_, p)) => Ok (p, s)
            | None => Err UndefinedBehaviour
            end
        end
    end.

Definition set_image (buf : BlockNumber) (page : Page) (l : list (BlockNumber * Page)) : list (BlockNumber * Page) :=
  (fun x => if decide (x.1 = buf) then (buf, page) else x) <$> l.

Definition write_page (r : PageRef) (page : Page) : M Backend unit :=
  fun s =>
    match r with
    | BufferPage buf =>
        let pages := rd_pages (index s) forkNum in
        match block pages buf with
        | Some _ => Ok (tt, with_index s (with_pages (index s) forkNum (<[Z.to_nat buf := page]> pages)))
        | None => Err UndefinedBehaviour
        end
    | ImagePage buf =>
        match xlog s with
        | None => Err UndefinedBehaviour
        | Some st =>
            Ok (tt, with_xlog s (Some (mkXLogState (isLogged st) (set_image buf page (xl_pages st)))))
        end
    end.

Definition modify_page (r : PageRef) (f : Page -> Page) : M Backend unit :=
  page ← read_page r ; write_page r (f page).

(** ** Generic xlog *)

(** One record is under construction at a time. *)
Definition GenericXLogStart : M Backend unit :=
  fun s => Ok (tt, with_xlog s (Some (mkXLogState (rd_needs_wal (index s)) []))).

Definition GenericXLogRegisterBuffer (buf : BlockNumber) : M Backend PageRef :=
  fun s =>
    match xlog s with
    | None => Err UndefinedBehaviour
    | Some st =>
        match list_find (fun x => x.1 = buf) (xl_pages st) with
        | Some _ => Ok (ImagePage buf, s)
        | None =>
            if Nat.ltb (length (xl_pages st)) MAX_GENERIC_XLOG_PAGES then
              match block (rd_pages (index s) forkNum) buf with
              | Some page =>
                  Ok (ImagePage buf,
                      with_xlog s (Some (mkXLogState (isLogged st) (xl_pages st ++ [(buf, page)]))))
              | None => Err UndefinedBehaviour
              end
            else Err ERR_too_many_xlog_buffers
        end
    end.

Definition apply_images (l : list (BlockNumber * Page)) (pages : list Page) : list Page :=
  fold_left (fun pages x => <[Z.to_nat x.1 := x.2]> pages) l pages.

(** Both for logged and unlogged relations every image replaces its page (the
    bytes between [pd_lower] and [pd_upper] hold nothing of the model). *)
Definition GenericXLogFinish : M Backend unit :=
  fun s =>
    match xlog s with
    | None => Err UndefinedBehaviour
    | Some st =>
        Ok (tt, mkBackend (mem s)
                  (with_pages (index s) forkNum
                     (apply_images (xl_pages st) (rd_pages (index s) forkNum))) None)
    end.

Definition GenericXLogAbort : M Backend unit :=
  fun s => match xlog s with None => Err UndefinedBehaviour | Some _ => Ok (tt, with_xlog s None) end.

(** The pattern of every page update: while building the shared buffer is
    modified directly, otherwise an image registered with a new record. *)
Definition open_page (building : bool) (buf : BlockNumber) : M Backend PageRef :=
  if building then mret (BufferPage buf)
  else GenericXLogStart ;; GenericXLogRegisterBuffer buf.
Definition commit_page (building : bool) : M Backend unit :=
  if building then mret tt else GenericXLogFinish.
Definition abort_page (building : bool) : M Backend unit :=
  if building then mret tt else GenericXLogAbort.
End Fork.

(** [ReadBuffer] reads the main fork. *)
Definition ReadBuffer : BlockNumber -> M Backend BlockNumber := ReadBufferFork MAIN_FORKNUM.

(** The tuple at an offset of a page. *)
Definition get_tuple (page : Page) (offno : OffsetNumber) : M Backend HnswTuple :=
  lift_res (page_tuple page offno).

(** ** An allocator, for the concrete runs of the witnesses *)

Definition first_free (m : gmap addr HnswElementData) : addr := fresh ({[NULL]} ∪ dom m : gset addr).

#[refine] Instance sample_palloc : Palloc := {
  palloc_addr := first_free;
  uninit := mkHnswElement NULL [] 0 0 0 0 None 0 0 0 0 None
}.
Proof.
  - intros m. apply not_elem_of_dom. unfold first_free.
    pose proof (is_fresh ({[NULL]} ∪ dom m : gset addr)) as Hf. intros Hin. apply Hf, elem_of_union. by right.
  - intros m. unfold first_free. pose proof (is_fresh ({[NULL]} ∪ dom m : gset addr)) as Hf. intros Heq.
    apply Hf, elem_of_union. left. rewrite Heq. by apply elem_of_singleton.
Defined.

Example first_free_example : first_free {[ 1%N := uninit; 2%N := uninit ]} = 3%N.
Proof. by vm_compute. Qed.
