(* ===== verification/GenericXLog.v ===== *)
(** * Generic xlog records: the deltas between pages and their replay

    The bytes behind Backend.v:
    src/pgvec/src/backend/access/transam/generic_xlog.c logs a change of a page as
    the fragments of the new image that differ from the old page, and recovery
    writes the fragments over the old page.  This file has the bytes of one page:
    the delta fits in its array, and its replay gives the page
    [GenericXLogFinish] leaves in the buffer.  XLogRecord.v has the records.

    A page is here the list of its bytes.  The byte order of the machine is a
    parameter. *)

From S2P Require Import Prelude ItemPtr.

(** ** Bytes *)

Abbreviation RawPage := (list Z) (only parsing).

Definition byte_at (l : list Z) (i : Z) : res Z :=
  if i <? 0 then Err UndefinedBehaviour else of_option UndefinedBehaviour (l !! Z.to_nat i).

(** [memcpy] of [length] bytes from [data]: reading past its end is not defined. *)
Definition memcpy_from (data : list Z) (length : Z) : res (list Z) :=
  raise_if (Z.of_nat (List.length data) <? length) UndefinedBehaviour ;;
  Ok (take (Z.to_nat length) data).

(** [memcpy] to an offset of a page: writing past its end is not defined. *)
Definition memcpy_to (page : RawPage) (offset : Z) (data : list Z) : res RawPage :=
  raise_if ((offset <? 0) || (Z.of_nat (List.length page) <? offset + Z.of_nat (List.length data))) UndefinedBehaviour ;;
  Ok (take (Z.to_nat offset) page ++ data ++ drop (Z.to_nat offset + List.length data) page).

Definition memset_zero (page : RawPage) (offset length : Z) : res RawPage :=
  raise_if (length <? 0) UndefinedBehaviour ;;
  memcpy_to page offset (replicate (Z.to_nat length) 0).

Section Machine.
Context (big_endian : bool).

Definition order (l : list Z) : list Z := if big_endian then rev l else l.

(** The bytes of a [uint16] and of a [uint32]. *)
Definition bytes16 (n : Z) : list Z := order [n mod 2 ^ 8; n / 2 ^ 8 mod 2 ^ 8].
Definition bytes32 (n : Z) : list Z := order [n mod 2 ^ 8; n / 2 ^ 8 mod 2 ^ 8; n / 2 ^ 16 mod 2 ^ 8; n / 2 ^ 24 mod 2 ^ 8].

Definition value_of (l : list Z) : Z := foldr (fun b v => b + 2 ^ 8 * v) 0 (order l).

Definition uint16_at (l : list Z) (i : Z) : res Z :=
  raise_if (i <? 0) UndefinedBehaviour ;; b ← memcpy_from (drop (Z.to_nat i) l) 2 ; Ok (value_of b).
Definition uint32_at (l : list Z) (i : Z) : res Z :=
  raise_if (i <? 0) UndefinedBehaviour ;; b ← memcpy_from (drop (Z.to_nat i) l) 4 ; Ok (value_of b).

(** The header of a page: [pd_lsn] is two [uint32], the high half first; after
    the checksum and the flags come [pd_lower] and [pd_upper]. *)
Definition raw_lower (page : RawPage) : res Z := uint16_at page 12.
Definition raw_upper (page : RawPage) : res Z := uint16_at page 14.

Definition PageGetLSN (page : RawPage) : res Z :=
  hi ← uint32_at page 0 ; lo ← uint32_at page 4 ; Ok (Z.lor (Z.shiftl hi 32) lo).
Definition PageSetLSN (page : RawPage) (lsn : Z) : res RawPage :=
  page ← memcpy_to page 0 (bytes32 (u32 (Z.shiftr lsn 32))) ; memcpy_to page 4 (bytes32 (u32 lsn)).

(** ** The delta of a region *)

Definition FRAGMENT_HEADER_SIZE : Z := 4.
Definition MATCH_THRESHOLD : Z := FRAGMENT_HEADER_SIZE.
Definition MAX_DELTA_SIZE : Z := BLCKSZ + 2 * FRAGMENT_HEADER_SIZE.

(** [data] is where the bytes are copied from; writing past the array is not
    defined. *)
Definition writeFragment (delta : list Z) (offset length : Z) (data : list Z) : res (list Z) :=
  let offset := u16 offset in
  let length := u16 length in
  raise_if (MAX_DELTA_SIZE <? Z.of_nat (List.length delta) + 4 + length) UndefinedBehaviour ;;
  data ← memcpy_from data length ;
  Ok (delta ++ bytes16 offset ++ bytes16 length ++ data).

Section Region.
Context (curpage targetpage : RawPage) (targetEnd validEnd : Z).

#[local] Abbreviation loopEnd := (Z.min targetEnd validEnd).

(** The tight loops: the next byte from [i] on that matches, or that does not. *)
Fixpoint next_byte (matches : bool) (fuel : nat) (i : Z) : res Z :=
  if i <? loopEnd then
    match fuel with
    | O => Err OutOfFuel
    | S fuel =>
        a ← byte_at curpage i ;
        b ← byte_at targetpage i ;
        if Bool.eqb (a =? b) matches then Ok i else next_byte matches fuel (i + 1)
    end
  else Ok i.

(** The loop over the bytes that can match; the result is the fragment that is
    not written yet and the delta. *)
Fixpoint region_loop (fuel : nat) (i fragmentBegin fragmentEnd : Z) (delta : list Z) : res (Z * Z * list Z) :=
  if i <? loopEnd then
    match fuel with
    | O => Err OutOfFuel
    | S fuel =>
        a ← byte_at curpage i ;
        b ← byte_at targetpage i ;
        '(i, fragmentBegin, fragmentEnd, stop) ←
          (if negb (a =? b) then
             i' ← next_byte true fuel (i + 1) ;
             Ok (i', if fragmentBegin <? 0 then i else fragmentBegin, -1, loopEnd <=? i')
           else Ok (i, fragmentBegin, fragmentEnd, false)) ;
        if (stop : bool) then Ok (fragmentBegin, fragmentEnd, delta)
        else
          let fragmentEnd := i in
          i ← next_byte false fuel (i + 1) ;
          if (0 <=? fragmentBegin) && (MATCH_THRESHOLD <? i - fragmentEnd) then
            delta ← writeFragment delta fragmentBegin (fragmentEnd - fragmentBegin) (drop (Z.to_nat fragmentBegin) targetpage) ;
            region_loop fuel i (-1) (-1) delta
          else region_loop fuel i fragmentBegin fragmentEnd delta
    end
  else Ok (fragmentBegin, fragmentEnd, delta).

Definition computeRegionDelta (delta : list Z) (targetStart validStart : Z) : res (list Z) :=
  let '(fragmentBegin, targetStart) := if targetStart <? validStart then (targetStart, validStart) else (-1, targetStart) in
  '(fragmentBegin, fragmentEnd, delta) ← region_loop (Z.to_nat (loopEnd - targetStart)) targetStart fragmentBegin (-1) delta ;
  let '(fragmentBegin, fragmentEnd) :=
    if loopEnd <? targetEnd then (if fragmentBegin <? 0 then loopEnd else fragmentBegin, targetEnd) else (fragmentBegin, fragmentEnd) in
  if 0 <=? fragmentBegin then
    let fragmentEnd := if fragmentEnd <? 0 then targetEnd else fragmentEnd in
    writeFragment delta fragmentBegin (fragmentEnd - fragmentBegin) (drop (Z.to_nat fragmentBegin) targetpage)
  else Ok delta.
End Region.

Definition computeDelta (curpage targetpage : RawPage) : res (list Z) :=
  targetLower ← raw_lower targetpage ;
  targetUpper ← raw_upper targetpage ;
  curLower ← raw_lower curpage ;
  curUpper ← raw_upper curpage ;
  delta ← computeRegionDelta curpage targetpage targetLower curLower [] 0 0 ;
  computeRegionDelta curpage targetpage BLCKSZ BLCKSZ delta targetUpper curUpper.

(** ** Images *)

(** The hole between [pd_lower] and [pd_upper], zeroed. *)
Definition zero_hole (page : RawPage) : res RawPage :=
  lower ← raw_lower page ; upper ← raw_upper page ; memset_zero page lower (upper - lower).

(** What [GenericXLogFinish] leaves in a buffer. *)
Definition apply_image (page image : RawPage) : res RawPage :=
  lower ← raw_lower image ;
  upper ← raw_upper image ;
  head ← memcpy_from image lower ;
  page ← memcpy_to page 0 head ;
  page ← memset_zero page lower (upper - lower) ;
  raise_if (upper <? 0) UndefinedBehaviour ;;
  tail ← memcpy_from (drop (Z.to_nat upper) image) (BLCKSZ - upper) ;
  memcpy_to page upper tail.

(** ** Replay *)

(** [fuel] bounds the number of fragments. *)
Fixpoint applyPageRedo (fuel : nat) (page : RawPage) (delta : list Z) : res RawPage :=
  match delta with
  | [] => Ok page
  | _ :: _ =>
      match fuel with
      | O => Err OutOfFuel
      | S fuel =>
          offset ← uint16_at delta 0 ;
          length ← uint16_at delta 2 ;
          data ← memcpy_from (drop 4 delta) length ;
          page ← memcpy_to page offset data ;
          applyPageRedo fuel page (drop (4 + Z.to_nat length) delta)
      end
  end.

End Machine.

(** ** Bytes and copies *)

Definition splice (offset : Z) (data : list Z) (page : RawPage) : RawPage :=
  take (Z.to_nat offset) page ++ data ++ drop (Z.to_nat offset + length data) page.

Definition slice (l : list Z) (b e : Z) : list Z := take (Z.to_nat (e - b)) (drop (Z.to_nat b) l).

Lemma memcpy_from_ok data n : n <= Z.of_nat (length data) -> memcpy_from data n = Ok (take (Z.to_nat n) data).
Proof. intros H. unfold memcpy_from. by destruct (Z.ltb_spec (Z.of_nat (length data)) n); [lia|]. Qed.

Lemma memcpy_to_ok page offset data : 0 <= offset -> offset + Z.of_nat (length data) <= Z.of_nat (length page) ->
  memcpy_to page offset data = Ok (splice offset data page).
Proof.
  intros H0 H. unfold memcpy_to. destruct (Z.ltb_spec offset 0); [lia|].
  by destruct (Z.ltb_spec (Z.of_nat (length page)) (offset + Z.of_nat (length data))); [lia|].
Qed.

Lemma memset_zero_ok page offset n : 0 <= offset -> 0 <= n -> offset + n <= Z.of_nat (length page) ->
  memset_zero page offset n = Ok (splice offset (replicate (Z.to_nat n) 0) page).
Proof.
  intros H0 H1 H2. unfold memset_zero. destruct (Z.ltb_spec n 0); [lia|]. cbn [raise_if]. rewrite bind_Ok.
  apply memcpy_to_ok; rewrite ?length_replicate; lia.
Qed.

Section Splice.
Context (offset : Z) (data : list Z) (page : RawPage) (H0 : 0 <= offset) (H1 : offset + Z.of_nat (length data) <= Z.of_nat (length page)).

Lemma length_splice : length (splice offset data page) = length page.
Proof using H0 H1. unfold splice. rewrite !length_app, length_take, length_drop. lia. Qed.

Lemma lookup_splice j : splice offset data page !! j =
  if decide (Z.to_nat offset <= j < Z.to_nat offset + length data)%nat then data !! (j - Z.to_nat offset)%nat else page !! j.
Proof using H0 H1.
  unfold splice. assert (Hl : length (take (Z.to_nat offset) page) = Z.to_nat offset) by (rewrite length_take; lia).
  destruct (decide (j < Z.to_nat offset)%nat) as [Hj|Hj].
  - rewrite decide_False by lia. rewrite lookup_app_l by lia. by rewrite lookup_take_lt.
  - rewrite lookup_app_r by lia. rewrite Hl. destruct (decide _) as [Hd|Hd].
    + by rewrite lookup_app_l by lia.
    + rewrite lookup_app_r by lia. rewrite lookup_drop. f_equal. lia.
Qed.
End Splice.

Lemma length_slice l b e : 0 <= b -> b <= e -> e <= Z.of_nat (length l) -> length (slice l b e) = Z.to_nat (e - b).
Proof. intros H0 H1 H2. unfold slice. rewrite length_take, length_drop. lia. Qed.

Lemma lookup_slice l b e j : 0 <= b -> (j < Z.to_nat (e - b))%nat -> slice l b e !! j = l !! (Z.to_nat b + j)%nat.
Proof. intros H0 Hj. unfold slice. by rewrite lookup_take_lt, lookup_drop by lia. Qed.

Section Endian.
Context (big_endian : bool).

#[local] Abbreviation bytes16 := (bytes16 big_endian).
#[local] Abbreviation bytes32 := (bytes32 big_endian).
#[local] Abbreviation value_of := (value_of big_endian).

Lemma length_order l : length (order big_endian l) = length l.
Proof. unfold order. destruct big_endian; [apply length_rev|done]. Qed.

Lemma order_order l : order big_endian (order big_endian l) = l.
Proof. unfold order. destruct big_endian; [apply rev_involutive|done]. Qed.

Lemma length_bytes16 n : length (bytes16 n) = 2%nat.
Proof. unfold bytes16. by rewrite length_order. Qed.

Lemma length_bytes32 n : length (bytes32 n) = 4%nat.
Proof. unfold bytes32. by rewrite length_order. Qed.

Lemma value_bytes16 n : 0 <= n < 2 ^ 16 -> value_of (bytes16 n) = n.
Proof. intros Hn. unfold value_of, bytes16. rewrite order_order. cbn [foldr]. Z.div_mod_to_equations. lia. Qed.

Lemma value_bytes32 n : 0 <= n < 2 ^ 32 -> value_of (bytes32 n) = n.
Proof. intros Hn. unfold value_of, bytes32. rewrite order_order. cbn [foldr]. Z.div_mod_to_equations. lia. Qed.

(** A field is read back, and depends on its bytes only. *)
Lemma uint16_at_bytes pre n post : 0 <= n < 2 ^ 16 -> uint16_at big_endian (pre ++ bytes16 n ++ post) (Z.of_nat (length pre)) = Ok n.
Proof.
  intros Hn. unfold uint16_at. destruct (Z.ltb_spec (Z.of_nat (length pre)) 0); [lia|]. cbn [raise_if]. rewrite bind_Ok, Nat2Z.id, drop_app_length.
  rewrite memcpy_from_ok by (rewrite length_app, length_bytes16; lia). rewrite bind_Ok.
  change (Z.to_nat 2) with 2%nat. rewrite take_app_length' by (by rewrite length_bytes16). by rewrite value_bytes16.
Qed.

Lemma memcpy_from_same n l l' i : (length l = length l')%nat ->
  (forall j, (i <= j < i + Z.to_nat n)%nat -> l !! j = l' !! j) -> memcpy_from (drop i l) n = memcpy_from (drop i l') n.
Proof.
  intros Hlen Heq. unfold memcpy_from. rewrite !length_drop, Hlen. destruct (Z.of_nat (length l' - i) <? n); [done|]. cbn [raise_if].
  rewrite !bind_Ok. f_equal. apply list_eq. intros j. destruct (decide (j < Z.to_nat n)%nat) as [Hj|Hj].
  - rewrite !lookup_take_lt, !lookup_drop by lia. apply Heq. lia.
  - by rewrite !lookup_take_ge by lia.
Qed.

Lemma uint16_at_same l l' i : (length l = length l')%nat ->
  (forall j, (Z.to_nat i <= j < Z.to_nat i + 2)%nat -> l !! j = l' !! j) -> uint16_at big_endian l i = uint16_at big_endian l' i.
Proof. intros Hlen Heq. unfold uint16_at. by rewrite (memcpy_from_same 2 l l' (Z.to_nat i) Hlen Heq). Qed.

Lemma uint32_at_same l l' i : (length l = length l')%nat ->
  (forall j, (Z.to_nat i <= j < Z.to_nat i + 4)%nat -> l !! j = l' !! j) -> uint32_at big_endian l i = uint32_at big_endian l' i.
Proof. intros Hlen Heq. unfold uint32_at. by rewrite (memcpy_from_same 4 l l' (Z.to_nat i) Hlen Heq). Qed.

(** A whole page has its fields. *)
Lemma uint16_at_ok l i : 0 <= i -> i + 2 <= Z.of_nat (length l) -> exists n, uint16_at big_endian l i = Ok n.
Proof.
  intros Hi Hl. unfold uint16_at. destruct (Z.ltb_spec i 0); [lia|]. cbn [raise_if]. rewrite bind_Ok, memcpy_from_ok by (rewrite length_drop; lia).
  rewrite bind_Ok. eauto.
Qed.

Lemma uint32_at_ok l i : 0 <= i -> i + 4 <= Z.of_nat (length l) -> exists n, uint32_at big_endian l i = Ok n.
Proof.
  intros Hi Hl. unfold uint32_at. destruct (Z.ltb_spec i 0); [lia|]. cbn [raise_if]. rewrite bind_Ok, memcpy_from_ok by (rewrite length_drop; lia).
  rewrite bind_Ok. eauto.
Qed.
End Endian.

(** ** Fragments *)

(** The positions a fragment writes. *)
Definition in_fragment (j : nat) (f : Z * Z) : Prop := f.1 <= Z.of_nat j < f.2.
Definition covered (fr : list (Z * Z)) (j : nat) : Prop := Exists (in_fragment j) fr.

#[export] Instance in_fragment_dec j f : Decision (in_fragment j f).
Proof. apply _. Defined.

Definition fragment_ok (f : Z * Z) : Prop := 0 <= f.1 /\ f.1 <= f.2 /\ f.2 <= BLCKSZ.

Section Fragments.
Context (big_endian : bool) (target : list Z) (Hlen : length target = Z.to_nat BLCKSZ).

(** The bytes of fragments of the target page. *)
Definition encode (fr : list (Z * Z)) : list Z :=
  fr ≫= fun f => bytes16 big_endian f.1 ++ bytes16 big_endian (f.2 - f.1) ++ slice target f.1 f.2.

Lemma encode_app fr fr' : encode (fr ++ fr') = encode fr ++ encode fr'.
Proof using Type. apply bind_app. Qed.

Lemma length_encode_one f : fragment_ok f -> Z.of_nat (length (encode [f])) = 4 + (f.2 - f.1).
Proof using Hlen.
  intros (H0 & H1 & H2). unfold encode. cbn. rewrite app_nil_r, !length_app, !length_bytes16, length_slice; unfold BLCKSZ in *; lia.
Qed.

Lemma length_encode_le fr : Forall fragment_ok fr -> (length fr <= length (encode fr))%nat.
Proof using Hlen.
  induction 1 as [|f fr Hf Hfr IH]; [done|]. change (f :: fr) with ([f] ++ fr). rewrite encode_app, !length_app.
  pose proof (length_encode_one f Hf). destruct Hf as (? & ? & ?). simpl length at 1. lia.
Qed.

Lemma writeFragment_ok delta b e : fragment_ok (b, e) -> Z.of_nat (length delta) + 4 + (e - b) <= MAX_DELTA_SIZE ->
  writeFragment big_endian delta b (e - b) (drop (Z.to_nat b) target) = Ok (delta ++ encode [(b, e)]).
Proof using Hlen.
  intros (H0 & H1 & H2) Hsz. cbn [fst snd] in *. unfold writeFragment. unfold BLCKSZ in *. rewrite !u16_small by lia.
  destruct (Z.ltb_spec MAX_DELTA_SIZE (Z.of_nat (length delta) + 4 + (e - b))); [lia|]. cbn [raise_if]. rewrite bind_Ok.
  rewrite memcpy_from_ok by (rewrite length_drop; lia). rewrite bind_Ok. unfold encode. cbn. by rewrite app_nil_r.
Qed.

Lemma applyPageRedo_S fuel page delta : delta <> [] -> applyPageRedo big_endian (S fuel) page delta =
  (offset ← uint16_at big_endian delta 0 ;
   length ← uint16_at big_endian delta 2 ;
   data ← memcpy_from (drop 4 delta) length ;
   page ← memcpy_to page offset data ;
   applyPageRedo big_endian fuel page (drop (4 + Z.to_nat length) delta)).
Proof using Type. by destruct delta. Qed.

(** Replay of fragments writes the target at their positions. *)
Lemma redo_fragments fr : Forall fragment_ok fr -> forall page fuel, length page = Z.to_nat BLCKSZ -> (length fr <= fuel)%nat ->
  exists page', applyPageRedo big_endian fuel page (encode fr) = Ok page' /\ length page' = Z.to_nat BLCKSZ /\
    forall j, page' !! j = if decide (covered fr j) then target !! j else page !! j.
Proof using Hlen.
  induction 1 as [|[b e] fr (H0 & H1 & H2) Hfr IH]; intros page fuel Hp Hf.
  { exists page. split; [by destruct fuel|]. split; [done|]. intros j. rewrite decide_False; [done|]. intros Hc. inversion Hc. }
  cbn [fst snd] in *. destruct fuel as [|fuel]; [simpl in Hf; lia|]. unfold BLCKSZ in H2, Hlen, Hp, IH |- *.
  assert (Hsl : length (slice target b e) = Z.to_nat (e - b)) by (apply length_slice; lia).
  destruct (IH (splice b (slice target b e) page) fuel) as (page' & E1 & Hp' & Hj).
  { rewrite length_splice; [done|lia|lia]. }
  { simpl in Hf. lia. }
  assert (Henc : encode ((b, e) :: fr) = bytes16 big_endian b ++ bytes16 big_endian (e - b) ++ slice target b e ++ encode fr)
    by (unfold encode; rewrite bind_cons; cbn [fst snd]; by rewrite <- !app_assoc).
  exists page'. split; [|split; [done|]].
  - rewrite Henc, applyPageRedo_S.
    2: { intros Ez. apply (f_equal length) in Ez. rewrite length_app, length_bytes16 in Ez. simpl in Ez. lia. }
    rewrite (uint16_at_bytes big_endian [] b _ ltac:(lia) : uint16_at _ (bytes16 _ b ++ _) 0 = _), bind_Ok.
    assert (E2 : uint16_at big_endian (bytes16 big_endian b ++ bytes16 big_endian (e - b) ++ slice target b e ++ encode fr) 2 = Ok (e - b)).
    { pose proof (uint16_at_bytes big_endian (bytes16 big_endian b) (e - b) (slice target b e ++ encode fr) ltac:(lia)) as Hu.
      by rewrite length_bytes16 in Hu. }
    rewrite E2, bind_Ok.
    assert (Hd : drop 4 (bytes16 big_endian b ++ bytes16 big_endian (e - b) ++ slice target b e ++ encode fr) = slice target b e ++ encode fr).
    { rewrite app_assoc. apply drop_app_length'. by rewrite length_app, !length_bytes16. }
    rewrite <- drop_drop, Hd. rewrite memcpy_from_ok by (rewrite length_app, Hsl; lia). rewrite bind_Ok.
    rewrite take_app_length' by done. rewrite memcpy_to_ok by (rewrite ?Hsl; lia). rewrite bind_Ok, drop_app_length' by done. exact E1.
  - intros j. rewrite Hj, lookup_splice, Hsl by (rewrite ?Hsl; lia).
    destruct (decide (covered fr j)) as [Hc|Hc].
    + rewrite decide_True; [done|]. by apply Exists_cons_tl.
    + destruct (decide (covered ((b, e) :: fr) j)) as [Hc'|Hc'].
      * apply Exists_cons in Hc' as [Hin|Hc']; [|done]. unfold in_fragment in Hin. cbn [fst snd] in Hin. rewrite decide_True by lia.
        rewrite lookup_slice by lia. f_equal. lia.
      * rewrite decide_False; [done|]. intros Hin. apply Hc', Exists_cons_hd. unfold in_fragment. cbn [fst snd]. lia.
Qed.
End Fragments.

(** ** The delta of a region, in fragments *)

Lemma byte_at_ok l i : length l = Z.to_nat BLCKSZ -> 0 <= i < BLCKSZ -> exists b, byte_at l i = Ok b /\ l !! Z.to_nat i = Some b.
Proof.
  intros Hl Hi. destruct (lookup_lt_is_Some_2 l (Z.to_nat i) ltac:(lia)) as [b Hb]. exists b. split; [|done].
  unfold byte_at. destruct (Z.ltb_spec i 0); [lia|]. by rewrite Hb.
Qed.

Section RegionDelta.
Context (big_endian : bool) (cur target : list Z) (Hcur : length cur = Z.to_nat BLCKSZ) (Htarget : length target = Z.to_nat BLCKSZ).
Context (start targetEnd validStart validEnd : Z).
Context (Hstart : 0 <= start) (Hvalid : 0 <= validStart) (Hend : targetEnd <= BLCKSZ).
Context (Hregion : Z.max start validStart <= Z.min targetEnd validEnd).

#[local] Abbreviation loopEnd := (Z.min targetEnd validEnd).
#[local] Abbreviation enc := (encode big_endian target).

(** The old page has the byte already. *)
Definition same_byte (j : Z) : Prop := validStart <= j < validEnd /\ cur !! Z.to_nat j = target !! Z.to_nat j.

Lemma next_byte_run matches fuel : forall i, Z.max start validStart <= i <= loopEnd -> loopEnd - i <= Z.of_nat fuel ->
  exists i', next_byte cur target targetEnd validEnd matches fuel i = Ok i' /\ i <= i' <= loopEnd /\
    (matches = false -> forall j, i <= j < i' -> same_byte j) /\
    (matches = true -> i' < loopEnd -> same_byte i').
Proof using Hcur Htarget Hstart Hvalid Hend Hregion.
  induction fuel as [|fuel IH]; intros i Hi Hf; cbn [next_byte]; destruct (Z.ltb_spec i loopEnd) as [Hlt|Hge]; try lia.
  1, 3: exists i; split; [done|]; split; [lia|]; split; [intros _ j Hj; lia|lia].
  destruct (byte_at_ok cur i Hcur ltac:(lia)) as (a & Ea & Ha). destruct (byte_at_ok target i Htarget ltac:(lia)) as (b & Eb & Hb).
  rewrite Ea, bind_Ok, Eb, bind_Ok. assert (Hsame : a = b -> same_byte i) by (intros ->; split; [lia|congruence]).
  destruct (IH (i + 1) ltac:(lia) ltac:(lia)) as (i' & E & Hr & H1 & H2).
  destruct (Z.eqb_spec a b) as [Hab|Hab]; destruct matches; cbn [Bool.eqb].
  - exists i. split; [done|]. split; [lia|]. split; [done|]. auto.
  - exists i'. split; [done|]. split; [lia|]. split; [|done]. intros _ j Hj. destruct (decide (j = i)) as [->|Hne]; [auto|]. apply H1; [done|lia].
  - exists i'. split; [done|]. split; [lia|]. split; [done|auto].
  - exists i. split; [done|]. split; [lia|]. split; [|done]. intros _ j Hj. lia.
Qed.

(** Up to [i] every byte is in a written fragment, in the one that is not
    written yet, or in the old page. *)
Record region_inv (i fragmentBegin fragmentEnd : Z) (fr : list (Z * Z)) : Prop := {
  rv_frags : Forall fragment_ok fr;
  rv_begin : 0 <= fragmentBegin -> start <= fragmentBegin <= i;
  rv_end : 0 <= fragmentBegin -> 0 <= fragmentEnd -> fragmentBegin <= fragmentEnd <= i /\ forall j, fragmentEnd <= j < i -> same_byte j;
  rv_bytes j : start <= j < (if fragmentBegin <? 0 then i else fragmentBegin) -> covered fr (Z.to_nat j) \/ same_byte j;
  rv_size : Z.of_nat (length (enc fr)) <= (if fragmentBegin <? 0 then i else fragmentBegin) - start
}.

Lemma region_write i fragmentBegin fragmentEnd i' fr delta0 : Z.of_nat (length delta0) + (targetEnd - start) + 4 <= MAX_DELTA_SIZE ->
  region_inv i fragmentBegin fragmentEnd fr -> 0 <= fragmentBegin -> fragmentBegin <= fragmentEnd -> fragmentEnd + 4 < i' -> i' <= loopEnd ->
  (forall j, fragmentEnd <= j < i' -> same_byte j) ->
  writeFragment big_endian (delta0 ++ enc fr) fragmentBegin (fragmentEnd - fragmentBegin) (drop (Z.to_nat fragmentBegin) target) =
    Ok (delta0 ++ enc (fr ++ [(fragmentBegin, fragmentEnd)])) /\
  region_inv i' (-1) (-1) (fr ++ [(fragmentBegin, fragmentEnd)]).
Proof using Hcur Htarget Hstart Hvalid Hend Hregion.
  intros Hsz [H1 H2 H3 H4 H5] Hb He Hi Hl Hsame. destruct (Z.ltb_spec fragmentBegin 0); [lia|].
  assert (Hf : fragment_ok (fragmentBegin, fragmentEnd)) by (unfold fragment_ok; cbn; lia).
  pose proof (length_encode_one big_endian target Htarget _ Hf) as Hone. cbn [fst snd] in Hone. specialize (H2 Hb). split.
  - rewrite (writeFragment_ok big_endian target Htarget) by (rewrite ?length_app; done || lia). rewrite encode_app. by rewrite app_assoc.
  - split.
    + apply Forall_app. split; [done|by apply list.Forall_singleton].
    + lia.
    + lia.
    + cbn. intros j Hj. destruct (decide (j < fragmentBegin)) as [Hlt|Hge].
      * destruct (H4 j ltac:(lia)) as [Hc|Hs]; [left|by right]. apply Exists_app. by left.
      * destruct (decide (j < fragmentEnd)) as [Hlt|Hge2]; [left|right; apply Hsame; lia].
        apply Exists_app. right. apply Exists_cons_hd. unfold in_fragment. cbn [fst snd]. lia.
    + cbn. rewrite encode_app, length_app. lia.
Qed.

Lemma region_loop_run delta0 fuel : Z.of_nat (length delta0) + (targetEnd - start) + 4 <= MAX_DELTA_SIZE ->
  forall i fragmentBegin fragmentEnd fr, Z.max start validStart <= i <= loopEnd -> loopEnd - i <= Z.of_nat fuel ->
  region_inv i fragmentBegin fragmentEnd fr ->
  exists fragmentBegin' fragmentEnd' fr',
    region_loop big_endian cur target targetEnd validEnd fuel i fragmentBegin fragmentEnd (delta0 ++ enc fr) =
      Ok (fragmentBegin', fragmentEnd', delta0 ++ enc fr') /\
    region_inv loopEnd fragmentBegin' fragmentEnd' fr'.
Proof using Hcur Htarget Hstart Hvalid Hend Hregion.
  intros Hsz. induction fuel as [|fuel IH]; intros i fB fE fr Hi Hf Hinv; cbn [region_loop]; destruct (Z.ltb_spec i loopEnd) as [Hlt|Hge]; try lia.
  1, 3: exists fB, fE, fr; split; [done|]; by replace loopEnd with i by lia.
  destruct (byte_at_ok cur i Hcur ltac:(lia)) as (a & Ea & Ha). destruct (byte_at_ok target i Htarget ltac:(lia)) as (b & Eb & Hb).
  rewrite Ea, bind_Ok, Eb, bind_Ok.
  (* the unmatched bytes *)
  assert (Hnext : exists i1 fB1 fE1, (if negb (a =? b) then
       i' ← next_byte cur target targetEnd validEnd true fuel (i + 1) ;
       Ok (i', if fB <? 0 then i else fB, -1, loopEnd <=? i')
     else Ok (i, fB, fE, false)) = Ok (i1, fB1, fE1, loopEnd <=? i1) /\ i <= i1 <= loopEnd /\ region_inv i1 fB1 fE1 fr /\
     (i1 < loopEnd -> same_byte i1) /\ (fB1 < 0 -> i1 = i) /\ (loopEnd <= i1 -> fE1 = -1)).
  { destruct (Z.eqb_spec a b) as [->|Hab]; cbn [negb].
    - exists i, fB, fE. destruct (Z.leb_spec loopEnd i); [lia|]. split; [done|]. split; [lia|]. split; [done|].
      split; [intros _; split; [lia|congruence]|]. split; [done|lia].
    - destruct (next_byte_run true fuel (i + 1) ltac:(lia) ltac:(lia)) as (i1 & E1 & Hr & _ & Hs). rewrite E1, bind_Ok.
      exists i1, (if fB <? 0 then i else fB), (-1). split; [done|]. split; [lia|]. split; [|split; [auto|split; [|done]]].
      + destruct Hinv as [H1 H2 H3 H4 H5]. split; [done|destruct (Z.ltb_spec fB 0); lia|lia| |].
        * destruct (Z.ltb_spec fB 0) as [Hneg|Hpos]; [destruct (Z.ltb_spec i 0); [lia|done]|destruct (Z.ltb_spec fB 0); [lia|done]].
        * destruct (Z.ltb_spec fB 0) as [Hneg|Hpos]; [destruct (Z.ltb_spec i 0); lia|destruct (Z.ltb_spec fB 0); lia].
      + destruct (Z.ltb_spec fB 0); lia. }
  destruct Hnext as (i1 & fB1 & fE1 & E1 & Hr1 & Hinv1 & Hs1 & Hi1 & Hstop). rewrite E1, bind_Ok. cbv beta iota zeta.
  destruct (Z.leb_spec loopEnd i1) as [Hle|Hgt].
  { exists fB1, fE1, fr. split; [done|]. by replace loopEnd with i1 by lia. }
  destruct (next_byte_run false fuel (i1 + 1) ltac:(lia) ltac:(lia)) as (i2 & E2 & Hr2 & Hs2 & _). rewrite E2, bind_Ok.
  assert (Hsame : forall j, i1 <= j < i2 -> same_byte j).
  { intros j Hj. destruct (decide (j = i1)) as [->|Hne]; [by apply Hs1|]. apply (Hs2 eq_refl). lia. }
  unfold MATCH_THRESHOLD, FRAGMENT_HEADER_SIZE. destruct (Z.leb_spec 0 fB1) as [Hpos|Hneg]; cbn [andb].
  - pose proof (rv_begin _ _ _ _ Hinv1 Hpos) as Hbeg. destruct (Z.ltb_spec 4 (i2 - i1)) as [Hlong|Hshort].
    + destruct (region_write i1 fB1 i1 i2 fr delta0 Hsz) as [E3 Hinv3]; try done; try lia.
      { destruct Hinv1 as [H1 H2 H3 H4 H5]. split; [done|done| |done|done]. intros _ _. split; [lia|intros j Hj; lia]. }
      rewrite E3, bind_Ok. apply IH; [lia|lia|done].
    + apply IH; [lia|lia|]. destruct Hinv1 as [H1 H2 H3 H4 H5]. destruct (Z.ltb_spec fB1 0); [lia|].
      split; [done|lia| |by destruct (Z.ltb_spec fB1 0); [lia|]|by destruct (Z.ltb_spec fB1 0); [lia|]]. intros _ _. split; [lia|done].
  - apply IH; [lia|lia|]. destruct Hinv1 as [H1 H2 H3 H4 H5]. rewrite (proj2 (Z.ltb_lt _ _) Hneg) in H4, H5.
    split; [done|lia|lia| |]; rewrite (proj2 (Z.ltb_lt _ _) Hneg); [|lia]. intros j Hj.
    destruct (decide (j < i1)) as [Hji|Hji]; [by apply H4; lia|right; apply Hsame; lia].
Qed.

(** The whole region: its bytes are in the delta or in the old page. *)
Lemma computeRegionDelta_run delta0 : Z.of_nat (length delta0) + (targetEnd - start) + 4 <= MAX_DELTA_SIZE ->
  exists fr, computeRegionDelta big_endian cur target targetEnd validEnd delta0 start validStart = Ok (delta0 ++ enc fr) /\
    Forall fragment_ok fr /\ (forall j, start <= j < targetEnd -> covered fr (Z.to_nat j) \/ same_byte j) /\
    Z.of_nat (length (enc fr)) <= targetEnd - start + 4.
Proof using Hcur Htarget Hstart Hvalid Hend Hregion.
  intros Hsz. unfold computeRegionDelta. set (i := Z.max start validStart).
  assert (Hinit : exists fB, (if start <? validStart then (start, validStart) else (-1, start)) = (fB, i) /\ region_inv i fB (-1) []).
  { unfold i. destruct (Z.ltb_spec start validStart).
    - exists start. split; [f_equal; lia|]. assert (Hneg : (start <? 0) = false) by lia.
      split; rewrite ?Hneg; [done|lia|lia|intros j Hj; lia|simpl; lia].
    - exists (-1). split; [f_equal; lia|]. split; [done|lia|lia|cbn; intros j Hj; lia|simpl; lia]. }
  destruct Hinit as (fB0 & -> & Hinv0).
  destruct (region_loop_run delta0 (Z.to_nat (loopEnd - i)) Hsz i fB0 (-1) [] ltac:(lia) ltac:(lia) Hinv0) as (fB & fE & fr & E1 & [H1 H2 H3 H4 H5]).
  change (enc []) with (@nil Z) in E1. rewrite app_nil_r in E1. rewrite E1, bind_Ok. clear E1 Hinv0.
  assert (Hlast : forall b e, 0 <= b -> start <= b <= e -> e <= targetEnd -> Z.of_nat (length (enc fr)) <= b - start ->
    (forall j, start <= j < targetEnd -> covered fr (Z.to_nat j) \/ same_byte j \/ b <= j < e) ->
    exists fr', writeFragment big_endian (delta0 ++ enc fr) b (e - b) (drop (Z.to_nat b) target) = Ok (delta0 ++ enc fr') /\
      Forall fragment_ok fr' /\ (forall j, start <= j < targetEnd -> covered fr' (Z.to_nat j) \/ same_byte j) /\
      Z.of_nat (length (enc fr')) <= targetEnd - start + 4).
  { intros b e Hb Hbe He Hs Hj. assert (Hf : fragment_ok (b, e)) by (unfold fragment_ok; cbn; lia).
    pose proof (length_encode_one big_endian target Htarget _ Hf) as Hone. cbn [fst snd] in Hone. exists (fr ++ [(b, e)]). split; [|split; [|split]].
    - rewrite (writeFragment_ok big_endian target Htarget) by (rewrite ?length_app; done || lia). by rewrite encode_app, app_assoc.
    - apply Forall_app. split; [done|by apply list.Forall_singleton].
    - intros j Hj'. destruct (Hj j Hj') as [Hc|[Hs'|Hin]]; [left|by right|left]; apply Exists_app; [by left|right].
      apply Exists_cons_hd. unfold in_fragment. cbn [fst snd]. lia.
    - rewrite encode_app, length_app. lia. }
  destruct (Z.ltb_spec loopEnd targetEnd) as [Hlt|Hge].
  - destruct (Z.leb_spec 0 (if fB <? 0 then loopEnd else fB)) as [Hpos|]; [|destruct (Z.ltb_spec fB 0); lia].
    destruct (Z.ltb_spec targetEnd 0); [lia|]. apply Hlast; [done|destruct (Z.ltb_spec fB 0); [lia|specialize (H2 ltac:(lia)); lia]|lia|done|].
    intros j Hj. destruct (decide (j < (if fB <? 0 then loopEnd else fB))) as [Hji|Hji]; [|right; right; lia].
    destruct (H4 j ltac:(lia)) as [|]; auto.
  - destruct (Z.leb_spec 0 fB) as [Hpos|Hneg].
    + destruct (Z.ltb_spec fB 0); [lia|]. specialize (H2 Hpos). destruct (Z.ltb_spec fE 0) as [HfE|HfE].
      * apply Hlast; [done|lia|lia|done|]. intros j Hj. destruct (decide (j < fB)) as [Hji|Hji]; [|right; right; lia].
        destruct (H4 j ltac:(lia)) as [|]; auto.
      * destruct (H3 Hpos HfE) as [Hfe Hs]. apply Hlast; [done|lia|lia|done|]. intros j Hj. destruct (decide (j < fB)) as [Hji|Hji].
        { destruct (H4 j ltac:(lia)) as [|]; auto. }
        destruct (decide (j < fE)) as [Hje|Hje]; [right; right; lia|]. right; left. apply Hs. lia.
    + destruct (Z.ltb_spec fB 0); [|lia]. exists fr. split; [done|]. split; [done|]. split; [|lia]. intros j Hj. apply H4. lia.
Qed.
End RegionDelta.

(** ** One page *)

(** The bytes of a page with a valid header. *)
Record raw_ok (big_endian : bool) (page : list Z) (lower upper : Z) : Prop := {
  ro_length : length page = Z.to_nat BLCKSZ;
  ro_lower : raw_lower big_endian page = Ok lower;
  ro_upper : raw_upper big_endian page = Ok upper;
  ro_range : 24 <= lower /\ lower <= upper /\ upper <= BLCKSZ
}.

Section Page.
Context (big_endian : bool) (cur image : list Z) (cl cu lower upper : Z).
Context (Himage : raw_ok big_endian image lower upper).

Lemma image_bounds : 24 <= lower /\ lower <= upper /\ upper <= 8192.
Proof using Himage. apply (ro_range _ _ _ _ Himage). Qed.

(** The page that [apply_image] and replay make. *)
Definition is_applied (page : list Z) : Prop :=
  length page = Z.to_nat BLCKSZ /\
  forall j, (j < Z.to_nat BLCKSZ)%nat -> page !! j = if decide (lower <= Z.of_nat j < upper) then Some 0 else image !! j.

Lemma is_applied_unique page page' : is_applied page -> is_applied page' -> page = page'.
Proof using Type.
  intros [L1 H1] [L2 H2]. apply list_eq. intros j. destruct (decide (j < Z.to_nat BLCKSZ)%nat) as [Hj|Hj].
  - by rewrite H1, H2.
  - by rewrite !lookup_ge_None_2 by lia.
Qed.

(** The header of the image is in the page. *)
Lemma is_applied_header page : is_applied page ->
  raw_ok big_endian page lower upper /\ PageGetLSN big_endian page = PageGetLSN big_endian image.
Proof using Himage.
  pose proof image_bounds as Hb. pose proof (ro_length _ _ _ _ Himage) as Li. intros [L Hj].
  assert (Hsame : forall j, (j < 16)%nat -> page !! j = image !! j) by (intros j H; rewrite Hj by (unfold BLCKSZ; lia); by rewrite decide_False by lia).
  assert (Hll : length page = length image) by congruence. split.
  - split; [done| | |apply Himage].
    + rewrite <- (ro_lower _ _ _ _ Himage). apply uint16_at_same; [done|]. intros j H. apply Hsame. lia.
    + rewrite <- (ro_upper _ _ _ _ Himage). apply uint16_at_same; [done|]. intros j H. apply Hsame. lia.
  - unfold PageGetLSN. rewrite (uint32_at_same big_endian page image 0), (uint32_at_same big_endian page image 4); [done|done| |done|];
      intros j H; apply Hsame; lia.
Qed.

Context (Lc : length cur = Z.to_nat BLCKSZ).

Lemma apply_image_run : exists page, apply_image big_endian cur image = Ok page /\ is_applied page.
Proof using Lc Himage.
  pose proof image_bounds as Hb. pose proof (ro_length _ _ _ _ Himage) as Li. unfold BLCKSZ in *.
  unfold apply_image. rewrite (ro_lower _ _ _ _ Himage), bind_Ok, (ro_upper _ _ _ _ Himage), bind_Ok.
  rewrite (memcpy_from_ok image lower) by lia. rewrite bind_Ok. set (head := take (Z.to_nat lower) image).
  assert (Lh : length head = Z.to_nat lower) by (unfold head; rewrite length_take; lia).
  rewrite memcpy_to_ok by (rewrite ?Lh; lia). rewrite bind_Ok. set (p1 := splice 0 head cur).
  assert (L1 : length p1 = Z.to_nat 8192) by (unfold p1; rewrite length_splice; rewrite ?Lh; lia).
  rewrite memset_zero_ok by lia. rewrite bind_Ok. set (zs := replicate (Z.to_nat (upper - lower)) 0). set (p2 := splice lower zs p1).
  assert (Lz : length zs = Z.to_nat (upper - lower)) by (unfold zs; by rewrite length_replicate).
  assert (L2 : length p2 = Z.to_nat 8192) by (unfold p2; rewrite length_splice; rewrite ?Lz; lia).
  destruct (Z.ltb_spec upper 0); [lia|]. cbn [raise_if]. rewrite bind_Ok. rewrite memcpy_from_ok by (rewrite length_drop; unfold BLCKSZ; lia).
  rewrite bind_Ok. set (tail := take _ (drop (Z.to_nat upper) image)).
  assert (Lt : length tail = Z.to_nat (8192 - upper)) by (unfold tail, BLCKSZ; rewrite length_take, length_drop; lia).
  rewrite memcpy_to_ok by (rewrite ?Lt; lia). eexists. split; [done|]. split; [rewrite length_splice; rewrite ?Lt; unfold BLCKSZ; lia|].
  intros j Hj. unfold BLCKSZ in Hj. rewrite lookup_splice, Lt by (rewrite ?Lt; lia). destruct (decide (Z.to_nat upper <= j)%nat) as [Hu|Hu].
  - rewrite decide_True, decide_False by lia. unfold tail. rewrite lookup_take_lt by (unfold BLCKSZ; lia). rewrite lookup_drop. f_equal. lia.
  - rewrite decide_False by lia. unfold p2. rewrite lookup_splice, Lz by (rewrite ?Lz; lia). destruct (decide (Z.to_nat lower <= j)%nat) as [Hl|Hl].
    + rewrite !decide_True by lia. unfold zs. apply lookup_replicate. lia.
    + rewrite !decide_False by lia. unfold p1. rewrite lookup_splice, Lh by (rewrite ?Lh; lia). rewrite decide_True by lia.
      unfold head. rewrite lookup_take_lt by lia. f_equal. lia.
Qed.

Context (Hcur : raw_ok big_endian cur cl cu).

Lemma computeDelta_run : exists fr, computeDelta big_endian cur image = Ok (encode big_endian image fr) /\ Forall fragment_ok fr /\
  Z.of_nat (length (encode big_endian image fr)) <= MAX_DELTA_SIZE /\
  forall j, (j < Z.to_nat BLCKSZ)%nat -> Z.of_nat j < lower \/ upper <= Z.of_nat j -> covered fr j \/ cur !! j = image !! j.
Proof using Hcur Lc Himage.
  pose proof image_bounds as Hb. pose proof (ro_length _ _ _ _ Himage) as Li.
  destruct (ro_range _ _ _ _ Hcur) as (C1 & C2 & C3). unfold BLCKSZ in C3. unfold computeDelta.
  rewrite (ro_lower _ _ _ _ Himage), bind_Ok, (ro_upper _ _ _ _ Himage), bind_Ok, (ro_lower _ _ _ _ Hcur), bind_Ok, (ro_upper _ _ _ _ Hcur), bind_Ok.
  destruct (computeRegionDelta_run big_endian cur image Lc Li 0 lower 0 cl ltac:(lia) ltac:(lia) ltac:(unfold BLCKSZ; lia) ltac:(lia) [])
    as (fr1 & E1 & F1 & B1 & S1); [unfold MAX_DELTA_SIZE, BLCKSZ, FRAGMENT_HEADER_SIZE; simpl; lia|].
  rewrite E1, bind_Ok. cbn [app].
  destruct (computeRegionDelta_run big_endian cur image Lc Li upper BLCKSZ cu BLCKSZ ltac:(lia) ltac:(lia) ltac:(unfold BLCKSZ; lia)
    ltac:(unfold BLCKSZ; lia) (encode big_endian image fr1)) as (fr2 & E2 & F2 & B2 & S2); [unfold MAX_DELTA_SIZE, FRAGMENT_HEADER_SIZE, BLCKSZ; lia|].
  exists (fr1 ++ fr2). rewrite encode_app. split; [done|]. split; [by apply Forall_app|]. split.
  - rewrite length_app. unfold MAX_DELTA_SIZE, FRAGMENT_HEADER_SIZE, BLCKSZ in *. lia.
  - intros j Hj Hreg. unfold BLCKSZ in Hj, B2. destruct Hreg as [Hlo|Hhi].
    + destruct (B1 (Z.of_nat j) ltac:(lia)) as [Hc|[_ Hs]]; rewrite Nat2Z.id in *; [left|by right]. apply Exists_app. by left.
    + destruct (B2 (Z.of_nat j) ltac:(lia)) as [Hc|[_ Hs]]; rewrite Nat2Z.id in *; [left|by right]. apply Exists_app. by right.
Qed.

(** Replay of the delta on the old page. *)
Lemma redo_run : exists delta page, computeDelta big_endian cur image = Ok delta /\ apply_image big_endian cur image = Ok page /\
  is_applied page /\ Z.of_nat (length delta) <= MAX_DELTA_SIZE /\
  (page' ← applyPageRedo big_endian (length delta) cur delta ; zero_hole big_endian page') = Ok page.
Proof using Hcur Lc Himage.
  pose proof image_bounds as Hb. pose proof (ro_length _ _ _ _ Himage) as Li.
  destruct computeDelta_run as (fr & E1 & F1 & Hsz & Hcov). destruct apply_image_run as (page & E2 & Happ).
  exists (encode big_endian image fr), page. split; [done|]. split; [done|]. split; [done|]. split; [done|].
  destruct (redo_fragments big_endian image Li fr F1 cur (length (encode big_endian image fr)) Lc) as (page' & E3 & L3 & Hj);
    [by apply length_encode_le|].
  rewrite E3, bind_Ok. assert (Hsame : forall j, (j < Z.to_nat BLCKSZ)%nat -> Z.of_nat j < lower \/ upper <= Z.of_nat j -> page' !! j = image !! j).
  { intros j Hj1 Hj2. rewrite Hj. case_decide as Hc; [done|]. destruct (Hcov j Hj1 Hj2); done. }
  unfold zero_hole, raw_lower, raw_upper. unfold BLCKSZ in L3, Li, Hsame.
  rewrite (uint16_at_same big_endian page' image 12) by (try lia; intros j Hj1; apply Hsame; lia).
  rewrite (uint16_at_same big_endian page' image 14) by (try lia; intros j Hj1; apply Hsame; lia).
  change (uint16_at big_endian image 12) with (raw_lower big_endian image). change (uint16_at big_endian image 14) with (raw_upper big_endian image).
  rewrite (ro_lower _ _ _ _ Himage), bind_Ok, (ro_upper _ _ _ _ Himage), bind_Ok. rewrite memset_zero_ok by lia. f_equal.
  apply is_applied_unique; [|done]. assert (Lz : length (replicate (Z.to_nat (upper - lower)) 0) = Z.to_nat (upper - lower)) by apply length_replicate.
  split; [rewrite length_splice; rewrite ?Lz; unfold BLCKSZ; lia|]. intros j Hj1. unfold BLCKSZ in Hj1.
  rewrite lookup_splice, Lz by (rewrite ?Lz; lia). destruct (decide (lower <= Z.of_nat j < upper)) as [Hd|Hd].
  - rewrite decide_True by lia. apply lookup_replicate. lia.
  - rewrite decide_False by lia. apply Hsame; lia.
Qed.
End Page.

(** ** The LSN of a page *)

Section Lsn.
Context (big_endian : bool) (page : list Z) (lsn : Z) (Hlen : length page = Z.to_nat BLCKSZ) (Hlsn : 0 <= lsn < 2 ^ 64).

Lemma PageSetLSN_run : exists page', PageSetLSN big_endian page lsn = Ok page' /\ length page' = Z.to_nat BLCKSZ /\
  PageGetLSN big_endian page' = Ok lsn /\ forall j, (8 <= j)%nat -> page' !! j = page !! j.
Proof using Hlen Hlsn.
  unfold BLCKSZ in *. set (hi := u32 (Z.shiftr lsn 32)). set (lo := u32 lsn).
  assert (Hhi : hi = lsn / 2 ^ 32) by (unfold hi, u32; rewrite Z.shiftr_div_pow2 by lia; apply Z.mod_small; Z.div_mod_to_equations; lia).
  assert (Hlo : lo = lsn mod 2 ^ 32) by done.
  assert (Rhi : 0 <= hi < 2 ^ 32) by (rewrite Hhi; Z.div_mod_to_equations; lia).
  assert (Rlo : 0 <= lo < 2 ^ 32) by (rewrite Hlo; apply Z.mod_pos_bound; lia).
  assert (E : PageSetLSN big_endian page lsn = Ok (bytes32 big_endian hi ++ bytes32 big_endian lo ++ drop 8 page)).
  { unfold PageSetLSN. fold hi lo. rewrite memcpy_to_ok by (rewrite ?length_bytes32; lia). rewrite bind_Ok.
    assert (L1 : length (splice 0 (bytes32 big_endian hi) page) = Z.to_nat 8192) by (rewrite length_splice; rewrite ?length_bytes32; lia).
    rewrite memcpy_to_ok by (rewrite ?length_bytes32; lia). f_equal. unfold splice. rewrite !length_bytes32.
    change (Z.to_nat 0) with 0%nat. change (Z.to_nat 4) with 4%nat. rewrite take_0. cbn [app Nat.add].
    rewrite take_app_length' by (by rewrite length_bytes32). do 2 f_equal.
    rewrite drop_app_ge by (rewrite length_bytes32; lia). rewrite length_bytes32, drop_drop. f_equal. }
  eexists. split; [exact E|]. split; [rewrite !length_app, !length_bytes32, length_drop; lia|]. split.
  2: { intros j Hj. rewrite app_assoc, lookup_app_r; rewrite length_app, !length_bytes32; [|lia]. rewrite lookup_drop. f_equal. lia. }
  unfold PageGetLSN, uint32_at. cbn [Z.ltb Z.compare raise_if]. rewrite !bind_Ok.
  change (Z.to_nat 0) with 0%nat. rewrite drop_0. change (Z.to_nat 4) with 4%nat.
  rewrite (memcpy_from_ok (bytes32 big_endian hi ++ _)) by (rewrite !length_app, !length_bytes32; lia). rewrite bind_Ok.
  rewrite drop_app_length' by (by rewrite length_bytes32).
  rewrite (memcpy_from_ok (bytes32 big_endian lo ++ _)) by (rewrite length_app, length_bytes32; lia). rewrite !bind_Ok. change (Z.to_nat 4) with 4%nat.
  rewrite !take_app_length' by (by rewrite length_bytes32). rewrite !value_bytes32 by done. f_equal.
  rewrite lor_shiftl_low by lia. rewrite Hhi, Hlo. Z.div_mod_to_equations. lia.
Qed.

Lemma PageGetLSN_ok : exists l, PageGetLSN big_endian page = Ok l.
Proof using Hlen.
  unfold BLCKSZ in Hlen. destruct (uint32_at_ok big_endian page 0) as [hi E1]; [lia|lia|]. destruct (uint32_at_ok big_endian page 4) as [lo E2]; [lia|lia|].
  unfold PageGetLSN. rewrite E1, bind_Ok, E2, bind_Ok. eauto.
Qed.
End Lsn.
