(* ===== verification/XLogRecord.v ===== *)
(** * Log records and crash recovery

    The records of generic_xlog.c as they go through the log: [GenericXLogFinish]
    registers the changed pages, [XLogRecordAssemble] of xloginsert.c decides for
    every page whether the record has a full image of it or the delta, and
    recovery ([generic_redo] with [XLogReadBufferForRedo] of xlogutils.c and
    [RestoreBlockImage] of xlogreader.c) brings the pages up to date.  Replay of the
    log after a crash gives exactly the pages before it.

    Blocks are the blocks of one relation, by number.  Compression of images and
    the images of wal_consistency_checking (both off by default) are not modelled,
    nor is the layout of a record in the log. *)

From S2P Require Import Prelude ItemPtr HnswData GenericXLog.

(** ** Data *)

Record GenericXLogPageData : Type := { gx_buffer : Z; gx_full_image : bool; gx_image : list Z }.

(** A buffer registered with XLogRegisterBuffer, all of them with REGBUF_STANDARD,
    and the data of XLogRegisterBufData, empty when there is none. *)
Record registered_buffer : Type := { rb_block : Z; rb_force_image : bool; rb_rdata : list Z }.

Record BlockImage : Type := { bi_hole_offset : Z; bi_hole_length : Z; bi_data : list Z }.

(** A block reference of a record: its image, if it has one that is to be applied,
    and its data, empty when it has none. *)
Record BlockRef : Type := { br_block : Z; br_image : option BlockImage; br_data : list Z }.

Inductive XLogRedoAction : Type := BLK_NEEDS_REDO | BLK_DONE | BLK_RESTORED | BLK_NOTFOUND.

Definition raw_page (pages : list RawPage) (buf : Z) : res RawPage :=
  if buf <? 0 then Err UndefinedBehaviour else of_option UndefinedBehaviour (pages !! Z.to_nat buf).

Section Machine.
Context (big_endian : bool).

(** ** Making a record *)

(** The first loop of [GenericXLogFinish]: block ids are positions in the list. *)
Fixpoint finish_blocks (slots : list (option GenericXLogPageData)) (pages : list RawPage)
    : res (list RawPage * list (option registered_buffer)) :=
  match slots with
  | [] => Ok (pages, [])
  | None :: slots => '(pages, regs) ← finish_blocks slots pages ; Ok (pages, None :: regs)
  | Some d :: slots =>
      page ← raw_page pages (gx_buffer d) ;
      delta ← (if gx_full_image d then Ok [] else computeDelta big_endian page (gx_image d)) ;
      page ← apply_image big_endian page (gx_image d) ;
      '(pages, regs) ← finish_blocks slots (<[Z.to_nat (gx_buffer d) := page]> pages) ;
      Ok (pages, Some {| rb_block := gx_buffer d; rb_force_image := gx_full_image d; rb_rdata := delta |} :: regs)
  end.

Fixpoint set_lsns (slots : list (option GenericXLogPageData)) (lsn : Z) (pages : list RawPage) : res (list RawPage) :=
  match slots with
  | [] => Ok pages
  | None :: slots => set_lsns slots lsn pages
  | Some d :: slots =>
      page ← raw_page pages (gx_buffer d) ;
      page ← PageSetLSN big_endian page lsn ;
      set_lsns slots lsn (<[Z.to_nat (gx_buffer d) := page]> pages)
  end.

(** The hole of a page with the standard layout: offset and length. *)
Definition hole (page : RawPage) : res (Z * Z) :=
  lower ← raw_lower big_endian page ;
  upper ← raw_upper big_endian page ;
  Ok (if (SizeOfPageHeaderData <=? lower) && (lower <? upper) && (upper <=? BLCKSZ) then (lower, upper - lower) else (0, 0)).

Definition backup_image (page : RawPage) : res BlockImage :=
  '(off, len) ← hole page ;
  if len =? 0 then
    data ← memcpy_from page BLCKSZ ;
    Ok {| bi_hole_offset := off; bi_hole_length := len; bi_data := data |}
  else
    head ← memcpy_from page off ;
    tail ← memcpy_from (drop (Z.to_nat (off + len)) page) (BLCKSZ - (off + len)) ;
    Ok {| bi_hole_offset := off; bi_hole_length := len; bi_data := head ++ tail |}.

Section Assemble.
Context (RedoRecPtr : Z) (doPageWrites : bool).

Definition needs_backup (reg : registered_buffer) (page : RawPage) : res bool :=
  if rb_force_image reg then Ok true
  else if negb doPageWrites then Ok false
  else page_lsn ← PageGetLSN big_endian page ; Ok (page_lsn <=? RedoRecPtr).

Definition assemble_block (reg : registered_buffer) (page : RawPage) : res BlockRef :=
  backup ← needs_backup reg page ;
  image ← (if (backup : bool) then img ← backup_image page ; Ok (Some img) else Ok None) ;
  let needs_data := match rb_rdata reg with [] => false | _ :: _ => negb backup end in
  Ok {| br_block := rb_block reg; br_image := image; br_data := if needs_data then rb_rdata reg else [] |}.

Fixpoint XLogRecordAssemble (regs : list (option registered_buffer)) (pages : list RawPage) : res (list (option BlockRef)) :=
  match regs with
  | [] => Ok []
  | None :: regs => record ← XLogRecordAssemble regs pages ; Ok (None :: record)
  | Some reg :: regs =>
      page ← raw_page pages (rb_block reg) ;
      ref ← assemble_block reg page ;
      record ← XLogRecordAssemble regs pages ;
      Ok (Some ref :: record)
  end.

(** A logged [GenericXLogFinish]; [lsn] is what XLogInsert returns. *)
Definition finish_record (slots : list (option GenericXLogPageData)) (lsn : Z) (pages : list RawPage)
    : res (list RawPage * list (option BlockRef)) :=
  '(pages, regs) ← finish_blocks slots pages ;
  record ← XLogRecordAssemble regs pages ;
  pages ← set_lsns slots lsn pages ;
  Ok (pages, record).

(** Changes one after another, each with the LSN of its record, and their log. *)
Fixpoint log_changes (changes : list (Z * list (option GenericXLogPageData))) (pages : list RawPage)
    : res (list RawPage * list (Z * list (option BlockRef))) :=
  match changes with
  | [] => Ok (pages, [])
  | (lsn, slots) :: changes =>
      '(pages, record) ← finish_record slots lsn pages ;
      '(pages, log) ← log_changes changes pages ;
      Ok (pages, (lsn, record) :: log)
  end.
End Assemble.

(** ** Replay *)

Definition RestoreBlockImage (img : BlockImage) (page : RawPage) : res RawPage :=
  let off := bi_hole_offset img in
  let len := bi_hole_length img in
  if len =? 0 then
    data ← memcpy_from (bi_data img) BLCKSZ ; memcpy_to page 0 data
  else
    head ← memcpy_from (bi_data img) off ;
    page ← memcpy_to page 0 head ;
    page ← memset_zero page off len ;
    raise_if ((off <? 0) || (off + len <? 0)) UndefinedBehaviour ;;
    tail ← memcpy_from (drop (Z.to_nat off) (bi_data img)) (BLCKSZ - (off + len)) ;
    memcpy_to page (off + len) tail.

Definition raw_is_new (page : RawPage) : res bool := upper ← raw_upper big_endian page ; Ok (upper =? 0).

(** With mode RBM_NORMAL: what is to be done, and the page in the buffer. *)
Definition XLogReadBufferForRedo (lsn : Z) (page : RawPage) (ref : BlockRef) : res (XLogRedoAction * RawPage) :=
  match br_image ref with
  | Some img =>
      page ← RestoreBlockImage img page ;
      new ← raw_is_new page ;
      page ← (if (new : bool) then Ok page else PageSetLSN big_endian page lsn) ;
      Ok (BLK_RESTORED, page)
  | None =>
      new ← raw_is_new page ;
      if (new : bool) then Ok (BLK_NOTFOUND, page)
      else
        old ← PageGetLSN big_endian page ;
        Ok (if lsn <=? old then BLK_DONE else BLK_NEEDS_REDO, page)
  end.

Definition redo_block (lsn : Z) (page : RawPage) (ref : BlockRef) : res RawPage :=
  '(action, page) ← XLogReadBufferForRedo lsn page ref ;
  match action with
  | BLK_NEEDS_REDO =>
      page ← applyPageRedo big_endian (List.length (br_data ref)) page (br_data ref) ;
      page ← zero_hole big_endian page ;
      PageSetLSN big_endian page lsn
  | _ => Ok page
  end.

Fixpoint generic_redo (lsn : Z) (record : list (option BlockRef)) (pages : list RawPage) : res (list RawPage) :=
  match record with
  | [] => Ok pages
  | None :: record => generic_redo lsn record pages
  | Some ref :: record =>
      page ← raw_page pages (br_block ref) ;
      page ← redo_block lsn page ref ;
      generic_redo lsn record (<[Z.to_nat (br_block ref) := page]> pages)
  end.

(** The records of the log from the redo point on. *)
Fixpoint replay_log (log : list (Z * list (option BlockRef))) (pages : list RawPage) : res (list RawPage) :=
  match log with
  | [] => Ok pages
  | (lsn, record) :: log => pages ← generic_redo lsn record pages ; replay_log log pages
  end.
End Machine.

(** ** One block *)

Lemma raw_page_lookup pages buf page : 0 <= buf -> pages !! Z.to_nat buf = Some page -> raw_page pages buf = Ok page.
Proof. intros H0 H. unfold raw_page. destruct (Z.ltb_spec buf 0); [lia|]. by rewrite H. Qed.

Section Block.
Context (big_endian : bool) (RedoRecPtr : Z) (doPageWrites : bool) (lsn : Z) (Hlsn : 0 <= lsn < 2 ^ 64).

(** A page with the LSN of a record, or a later one. *)
Record at_least (page : list Z) : Prop := {
  al_header : exists lower upper, raw_ok big_endian page lower upper;
  al_lsn : exists l, PageGetLSN big_endian page = Ok l /\ lsn <= l
}.

Lemma raw_not_new page lower upper : raw_ok big_endian page lower upper -> raw_is_new big_endian page = Ok false.
Proof using Type.
  intros Hp. unfold raw_is_new. rewrite (ro_upper _ _ _ _ Hp), bind_Ok. destruct (ro_range _ _ _ _ Hp) as (H1 & H2 & _).
  by destruct (Z.eqb_spec upper 0); [lia|].
Qed.

(** A page without anything in its hole is restored from its full image, whatever
    the block holds. *)
Lemma image_restored page lower upper : raw_ok big_endian page lower upper -> is_applied page lower upper page ->
  exists img, backup_image big_endian page = Ok img /\
    forall c, length c = Z.to_nat BLCKSZ -> RestoreBlockImage img c = Ok page.
Proof using Type.
  intros Hp Happ. pose proof (ro_length _ _ _ _ Hp) as Lp. destruct (ro_range _ _ _ _ Hp) as (H1 & H2 & H3). unfold BLCKSZ in *.
  unfold backup_image, hole, BLCKSZ. rewrite (ro_lower _ _ _ _ Hp), bind_Ok, (ro_upper _ _ _ _ Hp), !bind_Ok.
  destruct (Z.leb_spec SizeOfPageHeaderData lower) as [_|]; [|unfold SizeOfPageHeaderData in *; lia].
  destruct (Z.leb_spec upper 8192) as [_|]; [|lia]. destruct (Z.ltb_spec lower upper) as [Hlt|Hge]; cbn [andb].
  - destruct (Z.eqb_spec (upper - lower) 0); [lia|]. replace (lower + (upper - lower)) with upper by lia.
    rewrite (memcpy_from_ok page lower) by lia. rewrite bind_Ok, memcpy_from_ok by (rewrite length_drop; lia). rewrite bind_Ok.
    eexists. split; [done|]. intros c Lc. unfold RestoreBlockImage. cbn [bi_hole_offset bi_hole_length bi_data].
    destruct (Z.eqb_spec (upper - lower) 0); [lia|]. replace (lower + (upper - lower)) with upper by lia.
    set (head := take (Z.to_nat lower) page). set (tail := take (Z.to_nat (8192 - upper)) (drop (Z.to_nat upper) page)).
    assert (Lh : length head = Z.to_nat lower) by (unfold head; rewrite length_take; lia).
    assert (Lt : length tail = Z.to_nat (8192 - upper)) by (unfold tail; rewrite length_take, length_drop; lia).
    destruct (apply_image_run big_endian c page lower upper Hp Lc) as (p & E & Hpa).
    rewrite (is_applied_unique page lower upper p page Hpa Happ) in E. rewrite <- E. unfold apply_image.
    rewrite (ro_lower _ _ _ _ Hp), bind_Ok, (ro_upper _ _ _ _ Hp), bind_Ok.
    rewrite (memcpy_from_ok (head ++ tail)) by (rewrite length_app; lia). rewrite bind_Ok, take_app_length' by lia.
    rewrite (memcpy_from_ok page lower) by lia. rewrite bind_Ok. fold head.
    destruct (memcpy_to c 0 head) as [p1|]; [|done]. rewrite !bind_Ok. destruct (memset_zero p1 lower (upper - lower)) as [p2|]; [|done].
    rewrite !bind_Ok. destruct (Z.ltb_spec lower 0); [lia|]. destruct (Z.ltb_spec upper 0); [lia|]. cbn [orb raise_if]. rewrite !bind_Ok.
    rewrite drop_app_length' by lia. unfold BLCKSZ. rewrite (memcpy_from_ok tail) by lia. rewrite take_ge by lia. rewrite bind_Ok.
    rewrite memcpy_from_ok by (rewrite length_drop; lia). by rewrite bind_Ok.
  - cbn [Z.eqb]. rewrite memcpy_from_ok by lia. rewrite bind_Ok. eexists. split; [done|]. intros c Lc.
    unfold RestoreBlockImage. cbn [bi_hole_offset bi_hole_length bi_data Z.eqb]. rewrite take_ge by lia. unfold BLCKSZ.
    rewrite memcpy_from_ok by lia. rewrite take_ge by lia. rewrite bind_Ok, memcpy_to_ok by lia. f_equal. unfold splice.
    change (Z.to_nat 0) with 0%nat. rewrite take_0, drop_ge by lia. cbn [app]. apply app_nil_r.
Qed.

(** A block reference replayed on the old page, on later versions of the page and,
    when full pages are written, on anything. *)
Record ref_ok (old : Z) (cur page' : list Z) (ref : BlockRef) : Prop := {
  rf_old : redo_block big_endian lsn cur ref = Ok page';
  rf_later c : at_least c -> redo_block big_endian lsn c ref = Ok c \/ redo_block big_endian lsn c ref = Ok page';
  rf_torn c : doPageWrites = true -> old <= RedoRecPtr -> length c = Z.to_nat BLCKSZ -> redo_block big_endian lsn c ref = Ok page';
  rf_data : Z.of_nat (length (br_data ref)) <= MAX_DELTA_SIZE
}.

Lemma image_ref_ok old cur page page' ref lower upper : raw_ok big_endian page lower upper -> is_applied page lower upper page ->
  length cur = Z.to_nat BLCKSZ -> PageSetLSN big_endian page lsn = Ok page' ->
  (exists img, backup_image big_endian page = Ok img /\ br_image ref = Some img) -> br_data ref = [] -> ref_ok old cur page' ref.
Proof using Type.
  intros Hp Happ Lc Eset (img & Eimg & Href) Hdata. destruct (image_restored page lower upper Hp Happ) as (img' & E & Hres).
  rewrite Eimg in E. injection E as <-.
  assert (Hall : forall c, length c = Z.to_nat BLCKSZ -> redo_block big_endian lsn c ref = Ok page').
  { intros c Hc. unfold redo_block, XLogReadBufferForRedo. rewrite Href, (Hres c Hc), bind_Ok, (raw_not_new page lower upper Hp), bind_Ok.
    by rewrite Eset, !bind_Ok. }
  split; [by apply Hall| | |by rewrite Hdata]. - intros c [(lo & up & Hc) _]. right. apply Hall, Hc. - intros c _ _. apply Hall.
Qed.

Lemma delta_ref_ok old cur page page' ref cl cu : raw_ok big_endian cur cl cu -> PageGetLSN big_endian cur = Ok old -> old < lsn ->
  PageSetLSN big_endian page lsn = Ok page' -> br_image ref = None -> Z.of_nat (length (br_data ref)) <= MAX_DELTA_SIZE ->
  (p ← applyPageRedo big_endian (length (br_data ref)) cur (br_data ref) ; zero_hole big_endian p) = Ok page ->
  (doPageWrites = true -> RedoRecPtr < old) -> ref_ok old cur page' ref.
Proof using Type.
  intros Hcur Hold Hlt Eset Href Hsz Hredo Hfpw. split; [| | |done].
  - unfold redo_block, XLogReadBufferForRedo. rewrite Href, (raw_not_new cur cl cu Hcur), bind_Ok, Hold, !bind_Ok. destruct (Z.leb_spec lsn old); [lia|].
    destruct (applyPageRedo big_endian _ cur _) as [p|e]; [|done]. rewrite bind_Ok in Hredo |- *. by rewrite Hredo, bind_Ok.
  - intros c [(lo & up & Hc) (l & Hl & Hge)]. left. unfold redo_block, XLogReadBufferForRedo. rewrite Href, (raw_not_new c lo up Hc), bind_Ok, Hl, !bind_Ok.
    by destruct (Z.leb_spec lsn l); [|lia].
  - intros c Hd Hle. specialize (Hfpw Hd). lia.
Qed.

(** A registered page and an image of it. *)
Record slot_data_ok (d : GenericXLogPageData) (cur : list Z) (old lower upper : Z) : Prop := {
  sd_cur : length cur = Z.to_nat BLCKSZ;
  sd_lsn : PageGetLSN big_endian cur = Ok old;
  sd_image : raw_ok big_endian (gx_image d) lower upper;
  sd_image_lsn : exists l, PageGetLSN big_endian (gx_image d) = Ok l /\ l <= old;
  sd_new : gx_full_image d = true \/ exists cl cu, raw_ok big_endian cur cl cu
}.

Definition registered (d : GenericXLogPageData) (delta : list Z) : registered_buffer :=
  {| rb_block := gx_buffer d; rb_force_image := gx_full_image d; rb_rdata := delta |}.

Lemma set_lsn_ok page lower upper : raw_ok big_endian page lower upper ->
  exists page', PageSetLSN big_endian page lsn = Ok page' /\ raw_ok big_endian page' lower upper /\ PageGetLSN big_endian page' = Ok lsn.
Proof using Hlsn.
  intros Hp. pose proof (ro_length _ _ _ _ Hp) as Lp. destruct (PageSetLSN_run big_endian page lsn Lp Hlsn) as (page' & E & L & El & Hj).
  exists page'. split; [done|]. split; [|done]. split; [done| | |apply Hp].
  - rewrite <- (ro_lower _ _ _ _ Hp). apply uint16_at_same; [congruence|]. intros j Hj'. apply Hj. lia.
  - rewrite <- (ro_upper _ _ _ _ Hp). apply uint16_at_same; [congruence|]. intros j Hj'. apply Hj. lia.
Qed.

Lemma block_run d cur old lower upper : slot_data_ok d cur old lower upper -> old < lsn ->
  exists delta page page' ref,
    (if gx_full_image d then Ok [] else computeDelta big_endian cur (gx_image d)) = Ok delta /\
    apply_image big_endian cur (gx_image d) = Ok page /\ is_applied (gx_image d) lower upper page /\
    assemble_block big_endian RedoRecPtr doPageWrites (registered d delta) page = Ok ref /\ br_block ref = gx_buffer d /\
    PageSetLSN big_endian page lsn = Ok page' /\ raw_ok big_endian page' lower upper /\ PageGetLSN big_endian page' = Ok lsn /\
    ref_ok old cur page' ref.
Proof using Hlsn.
  intros [Lc Hold Himage (li & Hli & Hle) Hnew] Hlt.
  destruct (apply_image_run big_endian cur _ lower upper Himage Lc) as (page & Eapply & Happ).
  destruct (is_applied_header big_endian _ lower upper Himage page Happ) as [Hp Hplsn].
  assert (Happ' : is_applied page lower upper page).
  { split; [apply Happ|]. intros j Hj. case_decide as Hd; [|done]. by rewrite (proj2 Happ j Hj), decide_True. }
  destruct (set_lsn_ok page lower upper Hp) as (page' & Eset & Hp' & Hl').
  destruct (image_restored page lower upper Hp Happ') as (img & Eimg & _).
  assert (Hdelta : exists delta, (if gx_full_image d then Ok [] else computeDelta big_endian cur (gx_image d)) = Ok delta /\
    (gx_full_image d = false -> exists cl cu, raw_ok big_endian cur cl cu /\ Z.of_nat (length delta) <= MAX_DELTA_SIZE /\
      (p ← applyPageRedo big_endian (length delta) cur delta ; zero_hole big_endian p) = Ok page)).
  { destruct (gx_full_image d); [by exists []|]. destruct Hnew as [|(cl & cu & Hcur)]; [done|].
    destruct (redo_run big_endian cur _ cl cu lower upper Himage Lc Hcur) as (delta & p & E1 & E2 & _ & Hsz & E3).
    exists delta. split; [done|]. intros _. rewrite Eapply in E2. injection E2 as <-. eauto. }
  destruct Hdelta as (delta & Edelta & Hdelta).
  set (backup := gx_full_image d || (doPageWrites && (li <=? RedoRecPtr))).
  assert (Hb : needs_backup big_endian RedoRecPtr doPageWrites (registered d delta) page = Ok backup).
  { unfold needs_backup, backup. cbn [registered rb_force_image]. destruct (gx_full_image d); [done|]. destruct doPageWrites; [|done]. cbn [negb orb andb].
    by rewrite Hplsn, Hli, bind_Ok. }
  exists delta, page, page', {| br_block := gx_buffer d; br_image := if backup then Some img else None; br_data := if backup then [] else delta |}.
  split; [done|]. split; [done|]. split; [done|]. split; [|split; [done|split; [done|split; [done|split; [done|]]]]].
  - unfold assemble_block. rewrite Hb, bind_Ok. destruct backup; rewrite ?Eimg, ?bind_Ok; cbn [registered rb_rdata rb_block negb]; by destruct delta.
  - destruct backup eqn:Hback.
    + apply (image_ref_ok old cur page page' _ lower upper); eauto.
    + unfold backup in Hback. apply orb_false_iff in Hback as [Hfull Hfpw]. destruct (Hdelta Hfull) as (cl & cu & Hcur & Hsz & Hredo).
      apply (delta_ref_ok old cur page page' _ cl cu); try done. intros Hd. rewrite Hd in Hfpw. cbn [andb] in Hfpw. apply Z.leb_gt in Hfpw. lia.
Qed.
End Block.

(** ** One record *)

Definition buffers (slots : list (option GenericXLogPageData)) : list Z := omap (fmap gx_buffer) slots.
Definition ref_blocks (record : list (option BlockRef)) : list Z := omap (fmap br_block) record.

(** Pages written over blocks. *)
Fixpoint writes (ws : list (option (Z * list Z))) (pages : list (list Z)) : list (list Z) :=
  match ws with
  | [] => pages
  | None :: ws => writes ws pages
  | Some (b, p) :: ws => writes ws (<[Z.to_nat b := p]> pages)
  end.

Definition written (ws : list (option (Z * list Z))) : list Z := omap (fmap fst) ws.

Lemma length_writes ws pages : length (writes ws pages) = length pages.
Proof. revert pages. induction ws as [|[[b p]|] ws IH]; intros pages; cbn [writes]; rewrite ?IH, ?length_insert; done. Qed.

Lemma writes_out ws pages k : Forall (fun b => 0 <= b) (written ws) -> Z.of_nat k ∉ written ws -> writes ws pages !! k = pages !! k.
Proof.
  revert pages. induction ws as [|[[b p]|] ws IH]; intros pages Hpos Hk; cbn [writes]; [done| |by apply IH].
  unfold written in Hpos, Hk. cbn in Hpos, Hk. fold (written ws) in Hpos, Hk. apply list.Forall_cons in Hpos as [Hb Hpos].
  apply not_elem_of_cons in Hk as [Hne Hk]. rewrite IH by done. apply list_lookup_insert_ne. lia.
Qed.

Lemma writes_in ws : forall pages b p, Forall (fun b => 0 <= b) (written ws) -> NoDup (written ws) -> Some (b, p) ∈ ws ->
  (Z.to_nat b < length pages)%nat -> writes ws pages !! Z.to_nat b = Some p.
Proof.
  induction ws as [|[[b' p']|] ws IH]; intros pages b p Hpos Hnd Hin Hlt; cbn [writes]; [by apply elem_of_nil in Hin| |].
  - unfold written in Hpos, Hnd. cbn in Hpos, Hnd. fold (written ws) in Hpos, Hnd.
    apply list.Forall_cons in Hpos as [Hb Hpos]. apply list.NoDup_cons in Hnd as [Hnot Hnd]. apply elem_of_cons in Hin as [Heq|Hin].
    + injection Heq as -> ->. rewrite writes_out; [by apply list_lookup_insert_eq|done|by rewrite Z2Nat.id].
    + apply IH; [done|done|done|]. by rewrite length_insert.
  - apply elem_of_cons in Hin as [|Hin]; [done|]. by apply IH.
Qed.

Section Record.
Context (big_endian : bool) (RedoRecPtr : Z) (doPageWrites : bool) (lsn : Z) (Hlsn : 0 <= lsn < 2 ^ 64).

(** A registered buffer: a page with an older LSN and an image of it. *)
Definition slot_ok (pages : list (list Z)) (slot : option GenericXLogPageData) : Prop :=
  match slot with
  | None => True
  | Some d => 0 <= gx_buffer d /\ exists cur old lower upper, pages !! Z.to_nat (gx_buffer d) = Some cur /\
      slot_data_ok big_endian d cur old lower upper /\ old < lsn
  end.

(** The page the record makes of it: the image without anything in its hole, with
    the LSN of the record. *)
Definition slot_done (pages' : list (list Z)) (slot : option GenericXLogPageData) : Prop :=
  match slot with
  | None => True
  | Some d => exists lower upper page page', raw_ok big_endian (gx_image d) lower upper /\ is_applied (gx_image d) lower upper page /\
      PageSetLSN big_endian page lsn = Ok page' /\ pages' !! Z.to_nat (gx_buffer d) = Some page' /\
      raw_ok big_endian page' lower upper /\ PageGetLSN big_endian page' = Ok lsn
  end.

(** What becomes of a slot: the old page, the delta, the page, the page with its
    LSN, the block reference. *)
Record outcome : Type := { o_old : Z; o_cur : list Z; o_delta : list Z; o_page : list Z; o_page' : list Z; o_ref : BlockRef }.

Record outcome_ok (pages : list (list Z)) (d : GenericXLogPageData) (o : outcome) : Prop := {
  oc_pos : 0 <= gx_buffer d;
  oc_cur : pages !! Z.to_nat (gx_buffer d) = Some (o_cur o);
  oc_old : PageGetLSN big_endian (o_cur o) = Ok (o_old o);
  oc_lt : o_old o < lsn;
  oc_delta : (if gx_full_image d then Ok [] else computeDelta big_endian (o_cur o) (gx_image d)) = Ok (o_delta o);
  oc_apply : apply_image big_endian (o_cur o) (gx_image d) = Ok (o_page o);
  oc_assemble : assemble_block big_endian RedoRecPtr doPageWrites (registered d (o_delta o)) (o_page o) = Ok (o_ref o);
  oc_block : br_block (o_ref o) = gx_buffer d;
  oc_set : PageSetLSN big_endian (o_page o) lsn = Ok (o_page' o);
  oc_ref : ref_ok big_endian RedoRecPtr doPageWrites lsn (o_old o) (o_cur o) (o_page' o) (o_ref o);
  oc_done : exists lower upper, raw_ok big_endian (gx_image d) lower upper /\ is_applied (gx_image d) lower upper (o_page o) /\
    raw_ok big_endian (o_page' o) lower upper /\ PageGetLSN big_endian (o_page' o) = Ok lsn
}.

Lemma slot_outcome pages slot : slot_ok pages slot -> exists o, option_Forall2 (outcome_ok pages) slot o.
Proof using Hlsn.
  destruct slot as [d|]; [|by exists None; constructor]. intros (Hpos & cur & old & lower & upper & Hcur & Hd & Hlt).
  destruct (block_run big_endian RedoRecPtr doPageWrites lsn Hlsn d cur old lower upper Hd Hlt)
    as (delta & page & page' & ref & E1 & E2 & E3 & E4 & E5 & E6 & E7 & E8 & E9).
  exists (Some {| o_old := old; o_cur := cur; o_delta := delta; o_page := page; o_page' := page'; o_ref := ref |}).
  constructor. split; cbn; try done; [by destruct Hd|]. exists lower, upper. split; [by destruct Hd|done].
Qed.

Lemma slots_outcomes pages slots : Forall (slot_ok pages) slots -> exists os, Forall2 (option_Forall2 (outcome_ok pages)) slots os.
Proof using Hlsn.
  induction 1 as [|slot slots Hs _ (os & IH)]; [by exists []; constructor|]. destruct (slot_outcome pages slot Hs) as [o Ho].
  exists (o :: os). by constructor.
Qed.

Definition writes_of (f : outcome -> list Z) (os : list (option outcome)) : list (option (Z * list Z)) :=
  option_map (fun o => (br_block (o_ref o), f o)) <$> os.

Lemma outcome_ok_same pages pages' d o : outcome_ok pages d o -> pages' !! Z.to_nat (gx_buffer d) = pages !! Z.to_nat (gx_buffer d) ->
  outcome_ok pages' d o.
Proof using Type. intros [] Heq. split; try done. by rewrite Heq. Qed.

Lemma written_of pages slots os f : Forall2 (option_Forall2 (outcome_ok pages)) slots os ->
  written (writes_of f os) = buffers slots /\ Forall (fun b => 0 <= b) (buffers slots).
Proof using Type.
  induction 1 as [|? ? slots os [d o Ho|] _ [IH1 IH2]]; [done| |done]. unfold written, buffers, writes_of in *. cbn. rewrite IH1.
  split; [by rewrite (oc_block _ _ _ Ho)|]. constructor; [apply Ho|done].
Qed.

(** Outcomes of the other slots are not touched by a write. *)
Lemma outcomes_insert pages b p slots os : 0 <= b -> b ∉ buffers slots -> Forall2 (option_Forall2 (outcome_ok pages)) slots os ->
  Forall2 (option_Forall2 (outcome_ok (<[Z.to_nat b := p]> pages))) slots os.
Proof using Type.
  intros Hb Hnot. induction 1 as [|? ? slots os [d o Ho|] _ IH]; [done| |constructor; [constructor|by apply IH]].
  unfold buffers in Hnot. cbn in Hnot. fold (buffers slots) in Hnot. apply not_elem_of_cons in Hnot as [Hne Hnot].
  constructor; [|by apply IH]. constructor. apply (outcome_ok_same pages); [done|]. apply list_lookup_insert_ne.
  pose proof (oc_pos _ _ _ Ho). lia.
Qed.

Lemma finish_blocks_run slots os : forall pages, Forall2 (option_Forall2 (outcome_ok pages)) slots os -> NoDup (buffers slots) ->
  exists regs, finish_blocks big_endian slots pages = Ok (writes (writes_of o_page os) pages, regs) /\
    forall pages1, (forall d o, Some d ∈ slots -> Some o ∈ os -> outcome_ok pages d o -> pages1 !! Z.to_nat (gx_buffer d) = Some (o_page o)) ->
      XLogRecordAssemble big_endian RedoRecPtr doPageWrites regs pages1 = Ok (option_map o_ref <$> os).
Proof using Type.
  revert os. induction slots as [|slot slots IH]; intros os pages Hos Hnd; inversion Hos as [|? o ? os' Ho Hrest]; subst.
  { by exists []. }
  destruct Ho as [d o Ho|]; cbn [finish_blocks writes_of list_fmap fmap option_map writes].
  - unfold buffers in Hnd. cbn in Hnd. fold (buffers slots) in Hnd. apply list.NoDup_cons in Hnd as [Hnot Hnd].
    pose proof (oc_pos _ _ _ Ho) as Hpos. rewrite (raw_page_lookup _ _ _ Hpos (oc_cur _ _ _ Ho)), bind_Ok, (oc_delta _ _ _ Ho), bind_Ok, (oc_apply _ _ _ Ho), bind_Ok.
    destruct (IH os' (<[Z.to_nat (gx_buffer d) := o_page o]> pages)) as (regs & E & Hasm); [by apply outcomes_insert|done|].
    rewrite E, bind_Ok. fold (writes_of o_page os'). rewrite (oc_block _ _ _ Ho). eexists. split; [done|]. intros pages1 Hp1. cbn [XLogRecordAssemble].
    fold (registered d (o_delta o)). change (rb_block (registered d (o_delta o))) with (gx_buffer d).
    rewrite (raw_page_lookup _ _ (o_page o) Hpos) by (apply Hp1; [by left|by left|done]).
    rewrite bind_Ok, (oc_assemble _ _ _ Ho), bind_Ok. rewrite Hasm; [done|]. intros d' o' Hd' Ho' Hok. apply Hp1; [by right|by right|].
    apply (outcome_ok_same _ _ _ _ Hok). symmetry. apply list_lookup_insert_ne. intros Heq. apply Hnot.
    assert (gx_buffer d = gx_buffer d') as -> by (pose proof (oc_pos _ _ _ Hok); lia). apply list_elem_of_omap. by exists (Some d').
  - destruct (IH os' pages Hrest Hnd) as (regs & E & Hasm). rewrite E, bind_Ok. eexists. split; [done|]. intros pages1 Hp1. cbn [XLogRecordAssemble].
    rewrite Hasm; [done|]. intros d o Hd Ho. apply Hp1; by right.
Qed.

Lemma set_lsns_run pages slots os : Forall2 (option_Forall2 (outcome_ok pages)) slots os -> NoDup (buffers slots) -> forall pages1,
  (forall d o, Some d ∈ slots -> Some o ∈ os -> outcome_ok pages d o -> pages1 !! Z.to_nat (gx_buffer d) = Some (o_page o)) ->
  set_lsns big_endian slots lsn pages1 = Ok (writes (writes_of o_page' os) pages1).
Proof using Type.
  induction 1 as [|? ? slots os [d o Ho|] Hrest IH]; intros Hnd pages1 Hp1; cbn [set_lsns writes_of list_fmap fmap option_map writes]; [done| |].
  - unfold buffers in Hnd. cbn in Hnd. fold (buffers slots) in Hnd. apply list.NoDup_cons in Hnd as [Hnot Hnd].
    pose proof (oc_pos _ _ _ Ho) as Hpos. rewrite (raw_page_lookup _ _ (o_page o) Hpos) by (apply Hp1; [by left|by left|done]).
    rewrite bind_Ok, (oc_set _ _ _ Ho), bind_Ok, (oc_block _ _ _ Ho). apply IH; [done|]. intros d' o' Hd' Ho' Hok.
    rewrite list_lookup_insert_ne; [apply Hp1; [by right|by right|done]|]. intros Heq. apply Hnot.
    assert (gx_buffer d = gx_buffer d') as -> by (pose proof (oc_pos _ _ _ Hok); lia). apply list_elem_of_omap. by exists (Some d').
  - apply IH; [done|]. intros d o Hd Ho. apply Hp1; by right.
Qed.

(** The record of a change: one block reference for every slot. *)
Definition record_ok (pages pages' : list (list Z)) (slot : option GenericXLogPageData) (ref : option BlockRef) : Prop :=
  match slot, ref with
  | None, None => True
  | Some d, Some ref => br_block ref = gx_buffer d /\ exists cur page' old, pages !! Z.to_nat (gx_buffer d) = Some cur /\
      PageGetLSN big_endian cur = Ok old /\ old < lsn /\
      pages' !! Z.to_nat (gx_buffer d) = Some page' /\ at_least big_endian lsn page' /\
      ref_ok big_endian RedoRecPtr doPageWrites lsn old cur page' ref
  | _, _ => False
  end.

Lemma finish_record_run pages slots : Forall (slot_ok pages) slots -> NoDup (buffers slots) ->
  exists pages' record, finish_record big_endian RedoRecPtr doPageWrites slots lsn pages = Ok (pages', record) /\
    length pages' = length pages /\ (forall k, Z.of_nat k ∉ buffers slots -> pages' !! k = pages !! k) /\
    Forall (slot_done pages') slots /\ Forall2 (record_ok pages pages') slots record.
Proof using Hlsn.
  intros Hslots Hnd. destruct (slots_outcomes pages slots Hslots) as [os Hos].
  destruct (finish_blocks_run slots os pages Hos Hnd) as (regs & E1 & Hasm).
  set (pages1 := writes (writes_of o_page os) pages) in *. set (pages' := writes (writes_of o_page' os) pages1).
  assert (Hin : forall f P d o, length P = length pages -> Some o ∈ os -> outcome_ok pages d o ->
    writes (writes_of f os) P !! Z.to_nat (gx_buffer d) = Some (f o)).
  { intros f P d o Hlen Ho Hok. destruct (written_of pages slots os f Hos) as [Hw Hpos]. rewrite <- Hw in Hpos, Hnd.
    apply (writes_in _ P (gx_buffer d) (f o) Hpos Hnd).
    - apply list_elem_of_fmap. exists (Some o). split; [|done]. cbn. by rewrite (oc_block _ _ _ Hok).
    - rewrite Hlen. exact (lookup_lt_Some _ _ _ (oc_cur _ _ _ Hok)). }
  assert (L1 : length pages1 = length pages) by apply length_writes.
  assert (Hdone : forall i d o, slots !! i = Some (Some d) -> os !! i = Some o -> exists o', o = Some o' /\ outcome_ok pages d o' /\
    pages' !! Z.to_nat (gx_buffer d) = Some (o_page' o')).
  { intros i d o Hd Ho. pose proof (Forall2_lookup_lr _ _ _ _ _ _ Hos Hd Ho) as Hok. inversion Hok as [? o' Hok'|]; subst.
    exists o'. split; [done|]. split; [done|]. apply (Hin o_page'); [done|by apply list_elem_of_lookup_2 in Ho|done]. }
  exists pages', (option_map o_ref <$> os). split; [|split; [|split; [|split]]].
  - unfold finish_record. rewrite E1, bind_Ok, Hasm, bind_Ok by (intros d o _ Ho Hok; by apply Hin).
    fold pages1. rewrite (set_lsns_run pages slots os Hos Hnd), bind_Ok by (intros d o _ Ho Hok; by apply Hin). done.
  - unfold pages'. by rewrite length_writes.
  - intros k Hk. destruct (written_of pages slots os o_page Hos) as [Hw1 Hpos]. destruct (written_of pages slots os o_page' Hos) as [Hw2 _].
    unfold pages', pages1. by rewrite !writes_out by (rewrite ?Hw1, ?Hw2; done).
  - apply Forall_lookup. intros i [d|] Hd; [|done]. destruct (Forall2_lookup_l _ _ _ _ _ Hos Hd) as (o & Ho & _).
    destruct (Hdone i d o Hd Ho) as (o' & -> & Hok & Hp). destruct (oc_done _ _ _ Hok) as (lower & upper & D1 & D2 & D3 & D4).
    exists lower, upper, (o_page o'), (o_page' o'). split_and!; try done. apply Hok.
  - apply Forall2_same_length_lookup_2; [rewrite length_fmap; by apply Forall2_length in Hos|]. intros i slot ref Hs Href.
    rewrite list_lookup_fmap in Href. destruct (os !! i) as [o|] eqn:Ho; [|done]. injection Href as <-.
    destruct slot as [d|]; [|pose proof (Forall2_lookup_lr _ _ _ _ _ _ Hos Hs Ho) as Hok; by inversion Hok].
    destruct (Hdone i d o Hs Ho) as (o' & -> & Hok & Hp). split; [apply Hok|]. exists (o_cur o'), (o_page' o'), (o_old o').
    destruct (oc_done _ _ _ Hok) as (lower & upper & D1 & D2 & D3 & D4). split_and!; try apply Hok; try done.
    split; [by exists lower, upper|]. exists lsn. split; [done|lia].
Qed.

(** Replay of a record, block by block. *)
Lemma generic_redo_run record : forall crashed, NoDup (ref_blocks record) -> Forall (fun b => 0 <= b) (ref_blocks record) ->
  (forall ref, Some ref ∈ record -> exists c c', crashed !! Z.to_nat (br_block ref) = Some c /\ redo_block big_endian lsn c ref = Ok c') ->
  exists crashed', generic_redo big_endian lsn record crashed = Ok crashed' /\ length crashed' = length crashed /\
    (forall k, Z.of_nat k ∉ ref_blocks record -> crashed' !! k = crashed !! k) /\
    forall ref, Some ref ∈ record -> exists c c', crashed !! Z.to_nat (br_block ref) = Some c /\ redo_block big_endian lsn c ref = Ok c' /\
      crashed' !! Z.to_nat (br_block ref) = Some c'.
Proof using Type.
  induction record as [|[ref|] record IH]; intros crashed Hnd Hpos Hred; cbn [generic_redo].
  - exists crashed. split_and!; try done. intros ref Hin. by apply elem_of_nil in Hin.
  - unfold ref_blocks in Hnd, Hpos. cbn in Hnd, Hpos. fold (ref_blocks record) in Hnd, Hpos.
    apply list.NoDup_cons in Hnd as [Hnot Hnd]. apply list.Forall_cons in Hpos as [Hb Hpos].
    destruct (Hred ref) as (c & c' & Hc & Hc'); [by left|]. pose proof (lookup_lt_Some _ _ _ Hc) as Hlt.
    assert (Hother : forall ref', Some ref' ∈ record -> Z.to_nat (br_block ref') <> Z.to_nat (br_block ref)).
    { intros ref' Hin Heq. apply Hnot. assert (Hin' : br_block ref' ∈ ref_blocks record) by (apply list_elem_of_omap; by exists (Some ref')).
      rewrite list.Forall_forall in Hpos. specialize (Hpos _ Hin'). by assert (br_block ref = br_block ref') as -> by lia. }
    destruct (IH (<[Z.to_nat (br_block ref) := c']> crashed) Hnd Hpos) as (crashed' & E & L & Hout & Hall).
    { intros ref' Hin. rewrite list_lookup_insert_ne by (specialize (Hother _ Hin); lia). apply Hred. by right. }
    rewrite (raw_page_lookup _ _ c Hb Hc), bind_Ok, Hc', bind_Ok. exists crashed'. rewrite length_insert in L. split; [done|]. split; [done|]. split.
    + intros k Hk. unfold ref_blocks in Hk. cbn in Hk. fold (ref_blocks record) in Hk. apply not_elem_of_cons in Hk as [Hne Hk].
      rewrite Hout by done. apply list_lookup_insert_ne. lia.
    + intros ref' Hin. apply elem_of_cons in Hin as [Heq|Hin].
      * injection Heq as ->. exists c, c'. split; [done|]. split; [done|]. rewrite Hout by (by rewrite Z2Nat.id).
        by apply list_lookup_insert_eq.
      * destruct (Hall ref' Hin) as (d & d' & Hd & Hd'). rewrite list_lookup_insert_ne in Hd by (specialize (Hother _ Hin); lia).
        by exists d, d'.
  - destruct (IH crashed Hnd Hpos) as (crashed' & E & L & Hout & Hall); [intros ref Hin; apply Hred; by right|].
    exists crashed'. split_and!; try done. intros ref Hin. apply elem_of_cons in Hin as [|Hin]; [done|by apply Hall].
Qed.
End Record.

(** ** The log *)

Section Log.
Context (big_endian : bool) (RedoRecPtr : Z) (doPageWrites : bool).

#[local] Abbreviation log_changes := (log_changes big_endian RedoRecPtr doPageWrites).
#[local] Abbreviation finish := (finish_record big_endian RedoRecPtr doPageWrites).

(** Every change is made on the pages as they are then. *)
Fixpoint changes_ok (pages : list (list Z)) (changes : list (Z * list (option GenericXLogPageData))) : Prop :=
  match changes with
  | [] => True
  | (lsn, slots) :: changes => 0 <= lsn < 2 ^ 64 /\ Forall (slot_ok big_endian lsn pages) slots /\ NoDup (buffers slots) /\
      forall pages' record, finish slots lsn pages = Ok (pages', record) -> changes_ok pages' changes
  end.

Definition touched (changes : list (Z * list (option GenericXLogPageData))) (k : nat) : Prop :=
  Exists (fun change => Z.of_nat k ∈ buffers change.2) changes.

(** A block after a crash: as some of the changes left it, or, when full pages are
    written, anything if it was changed at all. *)
Definition on_disk (changes : list (Z * list (option GenericXLogPageData))) (pages crashed : list (list Z)) (k : nat) : Prop :=
  (exists n P log, log_changes (take n changes) pages = Ok (P, log) /\ crashed !! k = P !! k) \/
  (doPageWrites = true /\ touched changes k /\ exists c, crashed !! k = Some c /\ length c = Z.to_nat BLCKSZ).

Lemma buffers_record lsn pages pages' slots record :
  Forall2 (record_ok big_endian RedoRecPtr doPageWrites lsn pages pages') slots record -> ref_blocks record = buffers slots.
Proof using Type.
  unfold ref_blocks, buffers. induction 1 as [|[d|] [ref|] slots record Hr _ IH]; cbn in *; try done. destruct Hr as [-> _]. by f_equal.
Qed.

Lemma buffers_positive lsn pages slots : Forall (slot_ok big_endian lsn pages) slots -> Forall (fun b => 0 <= b) (buffers slots).
Proof using Type.
  unfold buffers. induction 1 as [|[d|] slots Hs _ IH]; cbn; [done| |done]. constructor; [apply Hs|done].
Qed.

(** What a change does to a block. *)
Lemma change_block lsn pages pages' slots record k : Forall (slot_ok big_endian lsn pages) slots ->
  (forall k, Z.of_nat k ∉ buffers slots -> pages' !! k = pages !! k) ->
  Forall2 (record_ok big_endian RedoRecPtr doPageWrites lsn pages pages') slots record ->
  (Z.of_nat k ∉ buffers slots) /\ pages' !! k = pages !! k \/
  Z.of_nat k ∈ buffers slots /\ exists ref cur page' old, Some ref ∈ record /\ Z.to_nat (br_block ref) = k /\ pages !! k = Some cur /\
    PageGetLSN big_endian cur = Ok old /\ old < lsn /\ pages' !! k = Some page' /\ at_least big_endian lsn page' /\
    ref_ok big_endian RedoRecPtr doPageWrites lsn old cur page' ref.
Proof using Type.
  intros Hslots Hout Hrec. destruct (decide (Z.of_nat k ∈ buffers slots)) as [Hin|Hin]; [right|left; auto]. split; [done|].
  apply list_elem_of_omap in Hin as ([d|] & Hd & Hk); [|done]. injection Hk as Hk. apply list_elem_of_lookup in Hd as [i Hi].
  destruct (Forall2_lookup_l _ _ _ _ _ Hrec Hi) as ([ref|] & Href & Hr); [|done]. destruct Hr as (Hb & cur & page' & old & H1 & H2 & H3 & H4 & H5 & H6).
  assert (Z.to_nat (gx_buffer d) = k) as <- by lia. exists ref, cur, page', old. split; [by apply list_elem_of_lookup_2 in Href|]. rewrite Hb. split_and!; done.
Qed.

(** A page never gets an older LSN. *)
Lemma versions_later lsn k changes : forall n pages P log page, changes_ok pages changes -> log_changes (take n changes) pages = Ok (P, log) ->
  pages !! k = Some page -> at_least big_endian lsn page -> exists q, P !! k = Some q /\ at_least big_endian lsn q.
Proof using Type.
  induction changes as [|[lsn' slots] changes IH]; intros n pages P log page Hok Hrun Hpage Hal.
  { rewrite take_nil in Hrun. injection Hrun as <- <-. eauto. }
  destruct n as [|n]; [injection Hrun as <- <-; eauto|]. destruct Hok as (Hlsn & Hslots & Hnd & Hok).
  destruct (finish_record_run big_endian RedoRecPtr doPageWrites lsn' Hlsn pages slots Hslots Hnd) as (pages' & record & E & Hlen & Hout & _ & Hrec).
  cbn [take firstn XLogRecord.log_changes] in Hrun. rewrite E, bind_Ok in Hrun.
  destruct (log_changes (take n changes) pages') as [[P' log']|] eqn:E2; [|done]. rewrite bind_Ok in Hrun. injection Hrun as <- <-.
  destruct (change_block lsn' pages pages' slots record k Hslots Hout Hrec) as [[_ Hs]|(_ & ref & cur & page' & old & _ & _ & H1 & H2 & H3 & H4 & H5 & _)].
  - apply (IH n pages' P' log' page (Hok _ _ E) E2); congruence.
  - apply (IH n pages' P' log' page' (Hok _ _ E) E2 H4). assert (cur = page) as -> by congruence.
    destruct H5 as [Hh (l' & Hl' & Hge)]. split; [done|]. exists l'. split; [done|]. destruct Hal as [_ (l & Hl & Hle)]. assert (l = old) by congruence. lia.
Qed.

(** The same of one block reference. *)
Lemma ref_block lsn pages pages' slots record ref : Forall (slot_ok big_endian lsn pages) slots ->
  Forall2 (record_ok big_endian RedoRecPtr doPageWrites lsn pages pages') slots record -> Some ref ∈ record ->
  0 <= br_block ref /\ exists cur page' old, pages !! Z.to_nat (br_block ref) = Some cur /\ PageGetLSN big_endian cur = Ok old /\ old < lsn /\
    pages' !! Z.to_nat (br_block ref) = Some page' /\ at_least big_endian lsn page' /\
    ref_ok big_endian RedoRecPtr doPageWrites lsn old cur page' ref.
Proof using Type.
  intros Hslots Hrec Hin. apply list_elem_of_lookup in Hin as [i Hi]. destruct (Forall2_lookup_r _ _ _ _ _ Hrec Hi) as ([d|] & Hd & Hr); [|done].
  destruct Hr as [Hb Hr]. rewrite Hb. split; [|exact Hr]. apply (Forall_lookup_1 _ _ _ _ Hslots Hd).
Qed.

(** [on_disk] with the LSN that makes the first record have a full image. *)
Definition disk_ok (changes : list (Z * list (option GenericXLogPageData))) (pages crashed : list (list Z)) (k : nat) : Prop :=
  (exists n P log, log_changes (take n changes) pages = Ok (P, log) /\ crashed !! k = P !! k) \/
  (doPageWrites = true /\ touched changes k /\ (exists p old, pages !! k = Some p /\ PageGetLSN big_endian p = Ok old /\ old <= RedoRecPtr) /\
    exists c, crashed !! k = Some c /\ length c = Z.to_nat BLCKSZ).

Section Step.
Context (lsn : Z) (slots : list (option GenericXLogPageData)) (changes : list (Z * list (option GenericXLogPageData))).
Context (pages pages' : list (list Z)) (record : list (option BlockRef)) (crashed : list (list Z)).
Context (Hrun : finish slots lsn pages = Ok (pages', record)) (Hrest : changes_ok pages' changes).

#[local] Abbreviation version n P := (exists log, log_changes (take n changes) pages' = Ok (P, log)).

(** A version of the whole sequence: the pages before the change, or a version of the rest. *)
Lemma version_cases n P log : log_changes (take n ((lsn, slots) :: changes)) pages = Ok (P, log) -> P = pages \/ exists n, version n P.
Proof using Hrun.
  destruct n as [|n]; intros H; [injection H as <- <-; by left|right]. cbn [take firstn XLogRecord.log_changes] in H. rewrite Hrun, bind_Ok in H.
  destruct (log_changes (take n changes) pages') as [[P' log']|] eqn:E; [|done]. rewrite bind_Ok in H. injection H as <- <-. by exists n, log'.
Qed.

(** A block of the record is brought to a version after the change. *)
Lemma redo_disk ref cur page' old : disk_ok ((lsn, slots) :: changes) pages crashed (Z.to_nat (br_block ref)) ->
  pages !! Z.to_nat (br_block ref) = Some cur -> PageGetLSN big_endian cur = Ok old ->
  pages' !! Z.to_nat (br_block ref) = Some page' -> at_least big_endian lsn page' ->
  ref_ok big_endian RedoRecPtr doPageWrites lsn old cur page' ref ->
  exists c c' n P, crashed !! Z.to_nat (br_block ref) = Some c /\ redo_block big_endian lsn c ref = Ok c' /\
    version n P /\ P !! Z.to_nat (br_block ref) = Some c'.
Proof using Hrun Hrest.
  intros Hdisk Hcur Hold Hpage' Hal Href. assert (H0 : version 0%nat pages') by (by exists []).
  destruct Hdisk as [(n & P & log & E & Hc)|(Hd & _ & (p & old' & Hp & Hold' & Hle) & c & Hc & Lc)].
  - destruct (version_cases n P log E) as [->|(m & log' & E')].
    + exists cur, page', 0%nat, pages'. split; [congruence|]. split; [apply Href|]. split; [exact H0|exact Hpage'].
    + destruct (versions_later lsn (Z.to_nat (br_block ref)) changes m pages' P log' page' Hrest E' Hpage' Hal) as (q & Hq & Hqal).
      destruct (rf_later _ _ _ _ _ _ _ _ Href q Hqal) as [Hr|Hr].
      * exists q, q, m, P. split; [congruence|]. split; [done|]. split; [by exists log'|done].
      * exists q, page', 0%nat, pages'. split; [congruence|]. split; [done|]. split; [exact H0|exact Hpage'].
  - assert (p = cur) as -> by congruence. assert (old' = old) as -> by congruence. exists c, page', 0%nat, pages'. split; [done|].
    split; [by apply Href|]. split; [exact H0|exact Hpage'].
Qed.

(** A block that is not in the record stays as good as it was. *)
Lemma disk_ok_other k : (Z.of_nat k ∉ buffers slots) -> pages' !! k = pages !! k ->
  disk_ok ((lsn, slots) :: changes) pages crashed k -> disk_ok changes pages' crashed k.
Proof using Hrun.
  intros Hk Hsame [(n & P & log & E & Hc)|(Hd & Ht & (p & old & Hp & Hold) & Hc)].
  - left. destruct (version_cases n P log E) as [->|(m & log' & E')]; [|by exists m, P, log'].
    exists 0%nat, pages', []. split; [done|congruence].
  - right. split; [done|]. split; [|split; [|done]].
    + unfold touched in Ht. apply Exists_cons in Ht as [Ht|Ht]; [by destruct Hk|exact Ht].
    + exists p, old. by rewrite Hsame.
Qed.
End Step.

Lemma log_run changes : forall pages, changes_ok pages changes ->
  exists pages' log, log_changes changes pages = Ok (pages', log) /\ length pages' = length pages /\
    (forall n lsn slots, changes !! n = Some (lsn, slots) -> exists P P' logP logP',
      log_changes (take n changes) pages = Ok (P, logP) /\ log_changes (take (S n) changes) pages = Ok (P', logP') /\
      Forall (slot_done big_endian lsn P') slots /\ forall k, Z.of_nat k ∉ buffers slots -> P' !! k = P !! k) /\
    forall crashed, length crashed = length pages -> (forall k, (k < length pages)%nat -> disk_ok changes pages crashed k) ->
      replay_log big_endian log crashed = Ok pages'.
Proof using Type.
  induction changes as [|[lsn slots] changes IH]; intros pages Hok.
  - exists pages, []. split; [done|]. split; [done|]. split; [done|]. intros crashed Hlen Hdisk. cbn [replay_log]. f_equal. apply list_eq. intros k.
    destruct (decide (k < length pages)%nat) as [Hk|Hk]; [|by rewrite !lookup_ge_None_2 by lia].
    destruct (Hdisk k Hk) as [(n & P & log & E & Hc)|(_ & Ht & _)]; [|by apply Exists_nil in Ht].
    rewrite take_nil in E. by injection E as <- <-.
  - destruct Hok as (Hlsn & Hslots & Hnd & Hok).
    destruct (finish_record_run big_endian RedoRecPtr doPageWrites lsn Hlsn pages slots Hslots Hnd) as (pages1 & record & E & Hlen & Hout & Hdone & Hrec).
    specialize (Hok _ _ E). destruct (IH pages1 Hok) as (pages' & log & E2 & Hlen2 & Heff & Hreplay).
    assert (Hcons : forall n P L, log_changes (take n changes) pages1 = Ok (P, L) ->
      log_changes (take (S n) ((lsn, slots) :: changes)) pages = Ok (P, (lsn, record) :: L)).
    { intros n P L H. cbn [take firstn XLogRecord.log_changes]. by rewrite E, bind_Ok, H, bind_Ok. }
    exists pages', ((lsn, record) :: log). split; [|split; [congruence|split]].
    + cbn [XLogRecord.log_changes]. by rewrite E, bind_Ok, E2, bind_Ok.
    + intros [|n] lsn' slots' Hn.
      * injection Hn as <- <-. exists pages, pages1, [], [(lsn, record)]. split; [done|]. split; [by apply (Hcons 0%nat)|]. split; [done|exact Hout].
      * destruct (Heff n lsn' slots' Hn) as (P & P' & L & L' & H1 & H2 & H3 & H4). exists P, P', ((lsn, record) :: L), ((lsn, record) :: L'). split; [by apply Hcons|].
        split; [by apply Hcons|]. split; [done|exact H4].
    + intros crashed Hcl Hdisk. cbn [replay_log].
      assert (Href : forall ref, Some ref ∈ record -> exists c c' n P L, crashed !! Z.to_nat (br_block ref) = Some c /\
        redo_block big_endian lsn c ref = Ok c' /\ log_changes (take n changes) pages1 = Ok (P, L) /\ P !! Z.to_nat (br_block ref) = Some c').
      { intros ref Hin. destruct (ref_block lsn pages pages1 slots record ref Hslots Hrec Hin) as (Hb & cur & page' & old & H1 & H2 & _ & H4 & H5 & H6).
        destruct (redo_disk lsn slots changes pages pages1 record crashed E Hok ref cur page' old) as (c & c' & n & P & Hc & Hc' & [L HL] & HP); try done.
        - apply Hdisk. by apply lookup_lt_Some in H1.
        - by exists c, c', n, P, L. }
      pose proof (buffers_record lsn pages pages1 slots record Hrec) as Hbuf.
      destruct (generic_redo_run big_endian lsn record crashed) as (crashed' & E3 & Hcl' & Hout' & Hall).
      { by rewrite Hbuf. }
      { rewrite Hbuf. by apply (buffers_positive lsn pages). }
      { intros ref Hin. destruct (Href ref Hin) as (c & c' & _ & _ & _ & Hc & Hc' & _). by exists c, c'. }
      rewrite E3, bind_Ok. apply Hreplay; [congruence|]. intros k Hk. rewrite Hbuf in Hout'.
      destruct (change_block lsn pages pages1 slots record k Hslots Hout Hrec) as [[Hk1 Hk2]|(_ & ref & _ & _ & _ & Hin & Hk1 & _)].
      * assert (Hd : disk_ok ((lsn, slots) :: changes) pages crashed' k).
        { unfold disk_ok. rewrite (Hout' k Hk1). apply Hdisk. lia. }
        by apply (disk_ok_other lsn slots changes pages pages1 record crashed' E).
      * subst k. destruct (Href ref Hin) as (c & c' & n & P & L & Hc & Hc' & HL & HP). destruct (Hall ref Hin) as (d & d' & Hd & Hd' & Hd'').
        left. exists n, P, L. split; [done|]. congruence.
Qed.
End Log.

(** C22: crash recovery.  Pages whose LSN is not after the redo point [RedoRecPtr],
    and any sequence of logged changes ([GenericXLogFinish] with images of the
    pages as they are then; a page that is new is registered with
    GENERIC_XLOG_FULL_IMAGE).  The changes run without an error: a delta needs no
    more than its array.  Each makes its pages their images with the hole
    zeroed and the LSN of the record, and leaves the others.  After a crash every
    block may be on disk in the version of any point of the sequence, each its own,
    and with full_page_writes a block that was changed may hold anything (a torn
    page); replay of the log gives byte for byte the pages before the crash. *)
Theorem generic_xlog_recovery big_endian RedoRecPtr doPageWrites changes pages :
  Forall (fun page => exists l, PageGetLSN big_endian page = Ok l /\ l <= RedoRecPtr) pages ->
  changes_ok big_endian RedoRecPtr doPageWrites pages changes ->
  exists pages' log, log_changes big_endian RedoRecPtr doPageWrites changes pages = Ok (pages', log) /\ length pages' = length pages /\
    (forall n lsn slots, changes !! n = Some (lsn, slots) -> exists P P' logP logP',
      log_changes big_endian RedoRecPtr doPageWrites (take n changes) pages = Ok (P, logP) /\
      log_changes big_endian RedoRecPtr doPageWrites (take (S n) changes) pages = Ok (P', logP') /\
      Forall (slot_done big_endian lsn P') slots /\ forall k, Z.of_nat k ∉ buffers slots -> P' !! k = P !! k) /\
    forall crashed, length crashed = length pages ->
      (forall k, (k < length pages)%nat -> on_disk big_endian RedoRecPtr doPageWrites changes pages crashed k) ->
      replay_log big_endian log crashed = Ok pages'.
Proof.
  intros Hpages Hok. destruct (log_run big_endian RedoRecPtr doPageWrites changes pages Hok) as (pages' & log & H1 & H2 & H3 & H4).
  exists pages', log. split; [done|]. split; [done|]. split; [done|]. intros crashed Hlen Hdisk. apply H4; [done|].
  intros k Hk. destruct (Hdisk k Hk) as [Hv|(Hd & Ht & Hc)]; [by left|right]. split; [done|]. split; [done|]. split; [|done].
  destruct (lookup_lt_is_Some_2 pages k Hk) as [p Hp]. exists p. rewrite list.Forall_forall in Hpages.
  destruct (Hpages p (list_elem_of_lookup_2 _ _ _ Hp)) as (l & Hl & Hle). by exists l.
Qed.

(** ** Witness: a page is changed, then a page is added and the first one changed again *)

Definition sample_raw : list Z :=
  replicate 12 0 ++ bytes16 false 24 ++ bytes16 false 8184 ++ replicate (Z.to_nat 8176) 0.
Definition sample_image : list Z :=
  replicate 12 0 ++ bytes16 false 28 ++ bytes16 false 8180 ++ replicate 8 0 ++ [1; 2; 3; 4] ++ replicate (Z.to_nat 8163) 0 ++ [5].
Definition sample_new : list Z := replicate (Z.to_nat 8192) 0.
Definition sample_torn : list Z := replicate (Z.to_nat 4096) 0 ++ replicate (Z.to_nat 4096) 255.

Definition sample_changes : list (Z * list (option GenericXLogPageData)) :=
  [(7, [Some {| gx_buffer := 1; gx_full_image := false; gx_image := sample_image |}; None]);
   (9, [Some {| gx_buffer := 0; gx_full_image := true; gx_image := sample_raw |};
        Some {| gx_buffer := 1; gx_full_image := false; gx_image := sample_raw |}])].

Lemma sample_raw_ok : raw_ok false sample_raw 24 8184.
Proof. split; by vm_compute. Qed.

Lemma sample_image_ok : raw_ok false sample_image 28 8180.
Proof. split; by vm_compute. Qed.

Lemma slot_done_ok lsn lsn' pages d d' lower upper l : slot_done false lsn pages (Some d) -> 0 <= gx_buffer d -> gx_buffer d' = gx_buffer d ->
  raw_ok false (gx_image d') lower upper -> PageGetLSN false (gx_image d') = Ok l -> l <= lsn -> lsn < lsn' -> slot_ok false lsn' pages (Some d').
Proof.
  intros (lo & up & _ & page & _ & _ & _ & Hp & Hraw & Hl) Hb Heq Hi Hil Hle Hlt. split; [lia|].
  exists page, lsn, lower, upper. rewrite Heq. split; [done|]. split; [|done]. split; [apply Hraw|done|done|by exists l|].
  right. by exists lo, up.
Qed.

Lemma sample_changes_ok : changes_ok false 0 true [sample_new; sample_raw] sample_changes.
Proof.
  unfold sample_changes. cbn [changes_ok].
  assert (H1 : Forall (slot_ok false 7 [sample_new; sample_raw]) [Some {| gx_buffer := 1; gx_full_image := false; gx_image := sample_image |}; None]).
  { apply list.Forall_cons. split; [|by apply list.Forall_singleton]. split; [done|]. exists sample_raw, 0, 28, 8180. split; [done|]. split; [|lia].
    split; [by vm_compute|by vm_compute|exact sample_image_ok|by exists 0; vm_compute|]. right. exists 24, 8184. exact sample_raw_ok. }
  assert (Hl1 : 0 <= 7 < 2 ^ 64) by lia.
  split; [done|]. split; [exact H1|]. split; [apply NoDup_singleton|]. intros pages' record E.
  destruct (finish_record_run false 0 true 7 Hl1 [sample_new; sample_raw] _ H1 (NoDup_singleton 1)) as (p & r & E' & _ & Hout & Hdone & _).
  rewrite E in E'. injection E' as <- <-. apply list.Forall_cons in Hdone as [Hdone _].
  split; [lia|]. split; [|split; [|done]].
  - apply list.Forall_cons. split.
    + split; [done|]. exists sample_new, 0, 24, 8184. split; [apply (Hout 0%nat); cbn; intros Hin; by apply list_elem_of_singleton in Hin|]. split; [|lia].
      split; [vm_compute; reflexivity|vm_compute; reflexivity|exact sample_raw_ok|exists 0; split; [vm_compute; reflexivity|lia]|left; reflexivity].
    + apply list.Forall_singleton. apply (slot_done_ok 7 9 _ _ _ 24 8184 0 Hdone); [done|done|exact sample_raw_ok|by vm_compute|lia|lia].
  - apply list.NoDup_cons. split; [intros Hin; by apply list_elem_of_singleton in Hin|apply NoDup_singleton].
Qed.

Lemma generic_xlog_recovery_witness :
  exists pages' log, log_changes false 0 true sample_changes [sample_new; sample_raw] = Ok (pages', log) /\
    replay_log false log [sample_new; sample_raw] = Ok pages' /\ replay_log false log [sample_new; sample_torn] = Ok pages' /\
    replay_log false log pages' = Ok pages'.
Proof.
  destruct (generic_xlog_recovery false 0 true sample_changes [sample_new; sample_raw]) as (pages' & log & H1 & H2 & _ & H4).
  - apply list.Forall_cons. split; [exists 0; split; [by vm_compute|lia]|]. apply list.Forall_singleton. exists 0. split; [by vm_compute|lia].
  - exact sample_changes_ok.
  - exists pages', log. split; [exact H1|]. split; [|split].
    + apply H4; [reflexivity|]. intros k _. left. exists 0%nat, [sample_new; sample_raw], []. split; reflexivity.
    + apply H4; [reflexivity|]. intros [|[|k]] Hk; [left; exists 0%nat, [sample_new; sample_raw], []; split; reflexivity| |simpl in Hk; lia].
      right. split; [reflexivity|]. split; [apply Exists_cons_hd; by left|]. exists sample_torn. split; [reflexivity|vm_compute; reflexivity].
    + apply H4; [exact H2|]. intros k _. left. exists 2%nat, pages', log. split; [exact H1|reflexivity].
Defined.
