(* ===== verification/HnswUtils.v ===== *)
(** * Shared operations of the HNSW index

    src/pgvec/src/backend/access/hnsw/hnswutils.c: options, the metapage,
    elements, the tuples of a page and the loading of elements and neighbors.
    [base] is NULL, except in parallel builds, where it is the start of the
    shared memory the elements are in. *)

From Stdlib Require Import SpecFloat.
From S2P Require Import Prelude CFloat VectorType ItemPtr HnswData BufPage Backend.

(** ** Options and support functions *)

Definition HnswGetM (rel : Relation) : Z :=
  match rd_options rel with Some opts => opt_m opts | None => HNSW_DEFAULT_M end.

Definition HnswGetEfConstruction (rel : Relation) : Z :=
  match rd_options rel with Some opts => opt_efConstruction opts | None => HNSW_DEFAULT_EF_CONSTRUCTION end.

Definition HnswInitSupport (rel : Relation) : HnswSupport := rd_support rel.

Definition hnsw_default_type_info : HnswTypeInfo := mkHnswTypeInfo HNSW_MAX_DIM (Some l2_normalize) None.

Definition hnsw_bit_support : HnswTypeInfo := mkHnswTypeInfo (HNSW_MAX_DIM * 32) None None.

Definition HnswGetTypeInfo (rel : Relation) : HnswTypeInfo :=
  match rd_typeInfo rel with None => hnsw_default_type_info | Some t => t end.

Definition HnswNormValue (typeInfo : HnswTypeInfo) (value : Vector) : res Vector :=
  match normalize typeInfo with Some f => f value | None => Err UndefinedBehaviour end.

Definition HnswCheckNorm (support : HnswSupport) (value : Vector) : res bool :=
  match normprocinfo support with
  | Some f => n ← f value ; Ok (fgt n dzero)
  | None => Err UndefinedBehaviour
  end.

(** The value to index; [None] when the function returns false. *)
Definition HnswFormIndexValue (value : Vector) (typeInfo : HnswTypeInfo) (support : HnswSupport)
    : res (option Vector) :=
  match checkValue typeInfo with Some f => f value | None => Ok tt end ;;
  match normprocinfo support with
  | None => Ok (Some value)
  | Some _ =>
      ok ← HnswCheckNorm support value ;
      if (ok : bool) then v ← HnswNormValue typeInfo value ; Ok (Some v) else Ok None
  end.

(** ** Pages *)

Definition HnswNewBuffer (forkNum : ForkNumber) : M Backend BlockNumber := ReadBufferNew forkNum.

Definition HnswInitPage : Page :=
  set_opaque (mkHnswPageOpaque InvalidBlockNumber 0 HNSW_PAGE_ID)
    (PageInit BLCKSZ sizeof_HnswPageOpaqueData).

(** ** Levels

    [log] is that of libm; [RandomDouble()] is an input of the run. *)

(** The conversion of a [double] to [int]: truncation, undefined out of range. *)
Definition int_of_double (d : double) : res Z :=
  match d with
  | S754_zero _ => Ok 0
  | S754_finite s m e =>
      let a := if 0 <=? e then Z.pos m * 2 ^ e else Z.pos m / 2 ^ (- e) in
      let z := if s then - a else a in
      if (- 2 ^ 31 <=? z) && (z <? 2 ^ 31) then Ok z else Err UndefinedBehaviour
  | _ => Err UndefinedBehaviour
  end.

Class Libm := { log : double -> double }.

Definition HnswGetMl `{Libm} (m : Z) : double := ddiv done_ (log (double_of_Z m)).

Definition draw_level `{Libm} (ml random : double) (maxLevel : Z) : res Z :=
  level ← int_of_double (dmul (SFopp (log random)) ml) ;
  Ok (if maxLevel <? level then maxLevel else level).

(** ** Elements *)

Definition HnswInitNeighborArray : HnswNeighborArray := mkHnswNeighborArray false [].

Definition HnswInitNeighbors (e : HnswElementData) : HnswElementData :=
  el_set_neighbors (Some (replicate (Z.to_nat (el_level e + 1)) HnswInitNeighborArray)) e.

(** Writing past the end of [heaptids] is not defined. *)
Definition HnswAddHeapTid (e : HnswElementData) (heaptid : ItemPointerData) : res HnswElementData :=
  raise_if (HNSW_HEAPTIDS <=? el_heaptidsLength e) UndefinedBehaviour ;;
  Ok (el_set_heaptids (el_heaptids e ++ [heaptid]) e).

Section Elements.
Context `{Palloc}.

Definition HnswInitElement `{Libm} (heaptid : ItemPointerData) (ml random : double) (maxLevel : Z)
    : M Backend addr :=
  level ← lift_res (draw_level ml random maxLevel) ;
  e ← lift_res (HnswAddHeapTid (el_set_heaptids [] uninit) heaptid) ;
  palloc_element
    (el_set_value None (HnswInitNeighbors (el_set_status (u8 level) 0 1 e))).

Definition HnswInitElementFromBlock (blkno : BlockNumber) (offno : OffsetNumber) : M Backend addr :=
  palloc_element (el_set_value None (el_set_neighbors None (el_set_tid blkno offno uninit))).
End Elements.

(** ** Metapage *)

Definition read_meta (blkno : BlockNumber) : M Backend HnswMetaPageData :=
  buf ← ReadBuffer blkno ;
  page ← read_page MAIN_FORKNUM (BufferPage buf) ;
  mret (pd_contents page).

(** [m] and the entry point, NULL if there is none. *)
Definition HnswGetMetaPageInfo `{Palloc} : M Backend (Z * addr) :=
  metap ← read_meta HNSW_METAPAGE_BLKNO ;
  lift_res (raise_if (negb (mp_magicNumber metap =? HNSW_MAGIC_NUMBER)) ERR_hnsw_index_not_valid) ;;
  if BlockNumberIsValid (mp_entryBlkno metap) then
    p ← HnswInitElementFromBlock (mp_entryBlkno metap) (mp_entryOffno metap) ;
    modify_element p (el_set_level (u8 (mp_entryLevel metap))) ;;
    mret (mp_m metap, p)
  else mret (mp_m metap, NULL).

(** The call with a NULL [entryPoint]. *)
Definition HnswGetMetaPageM : M Backend Z :=
  metap ← read_meta HNSW_METAPAGE_BLKNO ;
  lift_res (raise_if (negb (mp_magicNumber metap =? HNSW_MAGIC_NUMBER)) ERR_hnsw_index_not_valid) ;;
  mret (mp_m metap).

Definition HnswGetEntryPoint `{Palloc} : M Backend addr :=
  '(_, entryPoint) ← HnswGetMetaPageInfo ; mret entryPoint.

Definition mp_set_entry (blkno : BlockNumber) (offno : OffsetNumber) (level : Z) (mp : HnswMetaPageData) : HnswMetaPageData :=
  mkHnswMetaPage (mp_magicNumber mp) (mp_version mp) (mp_dimensions mp) (mp_m mp) (mp_efConstruction mp)
    blkno offno level (mp_insertPage mp).
Definition mp_set_insertPage (blkno : BlockNumber) (mp : HnswMetaPageData) : HnswMetaPageData :=
  mkHnswMetaPage (mp_magicNumber mp) (mp_version mp) (mp_dimensions mp) (mp_m mp) (mp_efConstruction mp)
    (mp_entryBlkno mp) (mp_entryOffno mp) (mp_entryLevel mp) blkno.

(** [updateEntry] 0 leaves the entry point alone. *)
Definition HnswUpdateMetaPageInfo (updateEntry : Z) (entryPoint : option HnswElementData)
    (insertPage : BlockNumber) (metap : HnswMetaPageData) : HnswMetaPageData :=
  let metap :=
    if negb (updateEntry =? 0) then
      match entryPoint with
      | None => mp_set_entry InvalidBlockNumber InvalidOffsetNumber (-1) metap
      | Some e =>
          if (mp_entryLevel metap <? el_level e) || (updateEntry =? HNSW_UPDATE_ENTRY_ALWAYS)
          then mp_set_entry (el_blkno e) (el_offno e) (el_level e) metap
          else metap
      end
    else metap in
  if BlockNumberIsValid insertPage then mp_set_insertPage insertPage metap else metap.

(** The pointer [entryPoint] is only followed when the entry is updated. *)
Definition HnswUpdateMetaPage (updateEntry : Z) (entryPoint : addr) (insertPage : BlockNumber)
    (forkNum : ForkNumber) (building : bool) : M Backend unit :=
  buf ← ReadBufferFork forkNum HNSW_METAPAGE_BLKNO ;
  page ← open_page forkNum building buf ;
  e ← (if negb (updateEntry =? 0) && negb (entryPoint =? NULL)%N
       then e ← load_element entryPoint ; mret (Some e) else mret None) ;
  modify_page forkNum page
    (fun p => set_contents (HnswUpdateMetaPageInfo updateEntry e insertPage (pd_contents p)) p) ;;
  commit_page forkNum building.

(** ** Tuples *)

(** The neighbors of an element at layer [lc]. *)
Definition neighbors_of (e : HnswElementData) (lc : Z) : res HnswNeighborArray :=
  match el_neighbors e with
  | None => Err UndefinedBehaviour
  | Some l => if lc <? 0 then Err UndefinedBehaviour
              else of_option UndefinedBehaviour (l !! Z.to_nat lc)
  end.

Definition HnswGetNeighbors (base : addr) (element : addr) (lc : Z) : M Backend HnswNeighborArray :=
  e ← load_element element ; lift_res (neighbors_of e lc).

Definition HnswGetValue (base : addr) (element : addr) : M Backend (option Vector) :=
  e ← load_element element ; mret (el_value e).

(** The data of a value; a NULL pointer has none. *)
Definition deref_value (v : option Vector) : res Vector := of_option UndefinedBehaviour v.

(** The element tuple of an element; [neighbortid] stays as [palloc0] left it. *)
Definition HnswSetElementTuple (e : HnswElementData) : res HnswElementTupleData :=
  v ← deref_value (el_value e) ;
  Ok (mkHnswElementTuple (el_level e) 0 (el_version e)
        (take 10 (el_heaptids e) ++ replicate (10 - length (el_heaptids e)) ItemPointerSetInvalid)
        (ItemPointerSet 0 0) 0 v).

(** The TIDs of one layer: those of the neighbors, then invalid ones up to [lm]. *)
Fixpoint set_layer_tids (base : addr) (lm : nat) (items : list HnswCandidate) : M Backend (list ItemPointerData) :=
  match lm with
  | O => mret []
  | S lm' =>
      match items with
      | [] => rest ← set_layer_tids base lm' [] ; mret (ItemPointerSetInvalid :: rest)
      | hc :: items' =>
          hce ← load_element (HnswPtrAccess base (hc_element hc)) ;
          rest ← set_layer_tids base lm' items' ;
          mret (ItemPointerSet (el_blkno hce) (el_offno hce) :: rest)
      end
  end.

(** Layers [lc], ..., 0. *)
Fixpoint set_tids (base e : addr) (m : Z) (lc : nat) : M Backend (list ItemPointerData) :=
  neighbors ← HnswGetNeighbors base e (Z.of_nat lc) ;
  tids ← set_layer_tids base (Z.to_nat (HnswGetLayerM m (Z.of_nat lc))) (na_items neighbors) ;
  match lc with
  | O => mret tids
  | S lc' => rest ← set_tids base e m lc' ; mret (tids ++ rest)
  end.

Definition HnswSetNeighborTuple (base e : addr) (m : Z) : M Backend HnswNeighborTupleData :=
  el ← load_element e ;
  tids ← set_tids base e m (Z.to_nat (el_level el)) ;
  mret (mkHnswNeighborTuple (el_version el) (u16 (Z.of_nat (length tids))) tids).

(** The heap TIDs up to the first invalid one. *)
Fixpoint valid_prefix (l : list ItemPointerData) : list ItemPointerData :=
  match l with
  | [] => []
  | t :: l' => if negb (ItemPointerIsValid t) then [] else t :: valid_prefix l'
  end.

Definition HnswLoadElementFromTuple (e : HnswElementData) (etup : HnswElementTupleData)
    (loadHeaptids loadVec : bool) : HnswElementData :=
  let e := el_set_status (et_level etup) (et_deleted etup) (et_version etup) e in
  let e := el_set_neighbortid (ItemPointerGetBlockNumber (et_neighbortid etup))
             (ItemPointerGetOffsetNumber (et_neighbortid etup)) e in
  let e := el_set_heaptids (if loadHeaptids then valid_prefix (et_heaptids etup) else []) e in
  if loadVec then el_set_value (Some (et_data etup)) e else e.

(** ** Distances and loading of elements *)

Definition HnswGetDistance (a b : option Vector) (support : HnswSupport) : res double :=
  a ← deref_value a ; b ← deref_value b ; procinfo support a b.

Definition GetElementDistance (base element : addr) (q : HnswQuery) (support : HnswSupport) : M Backend double :=
  value ← HnswGetValue base element ;
  lift_res (HnswGetDistance (q_value q) value support).

(** The distance from the query to a tuple; 0 if the query is NULL. *)
Definition tuple_distance (q : HnswQuery) (etup : HnswElementTupleData) (support : HnswSupport) : res double :=
  match q_value q with
  | None => Ok dzero
  | Some _ => HnswGetDistance (q_value q) (Some (et_data etup)) support
  end.

(** [distance] is wanted for the query [Some q]; the result is the distance
    and the element, NULL when it was not loaded. *)
Definition HnswLoadElementImpl `{Palloc} (blkno : BlockNumber) (offno : OffsetNumber) (q : option HnswQuery)
    (support : HnswSupport) (loadVec : bool) (maxDistance : option double) (element : addr)
    : M Backend (option double * addr) :=
  buf ← ReadBuffer blkno ;
  page ← read_page MAIN_FORKNUM (BufferPage buf) ;
  tup ← get_tuple page offno ;
  etup ← lift_res (as_element tup) ;
  distance ← lift_res (match q with
                       | None => Ok None
                       | Some q => d ← tuple_distance q etup support ; Ok (Some d)
                       end) ;
  if match distance, maxDistance with Some d, Some max => flt d max | _, _ => true end then
    element ← (if (element =? NULL)%N then HnswInitElementFromBlock blkno offno else mret element) ;
    modify_element element (fun e => HnswLoadElementFromTuple e etup true loadVec) ;;
    mret (distance, element)
  else mret (distance, element).

Definition HnswLoadElement `{Palloc} (element : addr) (q : option HnswQuery) (support : HnswSupport)
    (loadVec : bool) (maxDistance : option double) : M Backend (option double) :=
  e ← load_element element ;
  '(distance, _) ← HnswLoadElementImpl (el_blkno e) (el_offno e) q support loadVec maxDistance element ;
  mret distance.

Definition HnswInitSearchCandidate (base element : addr) (distance : double) : HnswSearchCandidate :=
  mkHnswSearchCandidate (HnswPtrStore base element) distance.

Definition HnswEntryCandidate `{Palloc} (inMemory : bool) (base entryPoint : addr) (q : HnswQuery)
    (support : HnswSupport) (loadVec : bool) : M Backend HnswSearchCandidate :=
  distance ← (if inMemory then GetElementDistance base entryPoint q support
              else d ← HnswLoadElement entryPoint (Some q) support loadVec None ;
                   lift_res (of_option UndefinedBehaviour d)) ;
  mret (HnswInitSearchCandidate base entryPoint distance).

(** The neighbor TIDs of an element at layer [lc], [None] when its neighbor
    tuple has been deleted or replaced.  Copying past the TIDs of the tuple is
    not defined. *)
Definition HnswLoadNeighborTids (e : HnswElementData) (m lm lc : Z) : M Backend (option (list ItemPointerData)) :=
  buf ← ReadBuffer (el_neighborPage e) ;
  page ← read_page MAIN_FORKNUM (BufferPage buf) ;
  tup ← get_tuple page (el_neighborOffno e) ;
  ntup ← lift_res (as_neighbor tup) ;
  if negb (nt_version ntup =? el_version e) || negb (nt_count ntup =? (el_level e + 2) * m) then mret None
  else
    let start := (el_level e - lc) * m in
    lift_res (raise_if ((start <? 0) || (Z.of_nat (length (nt_indextids ntup)) <? start + lm)) UndefinedBehaviour) ;;
    mret (Some (take (Z.to_nat lm) (drop (Z.to_nat start) (nt_indextids ntup)))).
