(* ===== verification/SearchLayer.v ===== *)
(** * The layer search

    [HnswSearchLayer] of src/pgvec/src/backend/access/hnsw/hnswutils.c
    (algorithm 2 of the HNSW paper) with the functions it calls, in its two
    modes: on elements in memory and on the pages of an index.

    The candidates are in two pairing heaps: [C], nearest first, of those still
    to expand, and [W], furthest first, of the results so far. *)

From Stdlib Require Import SpecFloat.
From S2P Require Import Prelude CFloat VectorType ItemPtr PairingHeap Hash HnswData BufPage Backend HnswUtils.

Abbreviation candidate_heap := (pairingheap HnswSearchCandidate) (only parsing).

(** ** Comparators *)

Definition CompareNearestCandidates (a b : HnswSearchCandidate) : Z :=
  if flt (sc_distance a) (sc_distance b) then 1
  else if fgt (sc_distance a) (sc_distance b) then -1 else 0.

Definition CompareNearestDiscardedCandidates (a b : HnswSearchCandidate) : Z :=
  if flt (sc_distance a) (sc_distance b) then 1
  else if fgt (sc_distance a) (sc_distance b) then -1 else 0.

Definition CompareFurthestCandidates (a b : HnswSearchCandidate) : Z :=
  if flt (sc_distance a) (sc_distance b) then -1
  else if fgt (sc_distance a) (sc_distance b) then 1 else 0.

(** ** The visited set: one of three hash tables, as sets of their keys

    SimpleHashSpec.v shows that the tables are sets. *)

Inductive visited_hash :=
  | pointers (s : gset addr)
  | offsets (s : gset Z)
  | tids (s : gset ItemPointerData).

Definition InitVisited (base : addr) (inMemory : bool) : visited_hash :=
  if negb inMemory then tids ∅
  else if negb (base =? NULL)%N then offsets ∅
  else pointers ∅.

(** An insertion into a hash table: the set with the key and whether it was
    there before. *)
Definition hash_insert {K} `{Countable K} (s : gset K) (k : K) : gset K * bool :=
  ({[k]} ∪ s, bool_decide (k ∈ s)).

Definition tidhash_insert (v : visited_hash) (tid : ItemPointerData) : res (visited_hash * bool) :=
  match v with
  | tids s => let '(s', found) := hash_insert s tid in Ok (tids s', found)
  | _ => Err UndefinedBehaviour
  end.

(** These two take the hash of the key from the caller.  The tables look a key up by
    the hash they are given and compute it anew when they move entries, so that
    they are sets only when it is the hash of the key; with any other there
    is no result here. *)
Definition pointerhash_insert_hash (v : visited_hash) (key : addr) (hash : Z) : res (visited_hash * bool) :=
  match v with
  | pointers s =>
      raise_if (negb (hash =? hash_pointer (Z.of_N key))) UndefinedBehaviour ;;
      let '(s', found) := hash_insert s key in Ok (pointers s', found)
  | _ => Err UndefinedBehaviour
  end.

Definition offsethash_insert_hash (v : visited_hash) (key hash : Z) : res (visited_hash * bool) :=
  match v with
  | offsets s =>
      raise_if (negb (hash =? hash_offset key)) UndefinedBehaviour ;;
      let '(s', found) := hash_insert s key in Ok (offsets s', found)
  | _ => Err UndefinedBehaviour
  end.

Definition AddToVisited (base : addr) (v : visited_hash) (elementPtr : HnswElementPtr) (inMemory : bool)
    : M Backend (visited_hash * bool) :=
  element ← load_element (HnswPtrAccess base elementPtr) ;
  if negb inMemory then
    lift_res (tidhash_insert v (ItemPointerSet (el_blkno element) (el_offno element)))
  else if negb (base =? NULL)%N then
    lift_res (offsethash_insert_hash v (HnswPtrOffset elementPtr) (el_hash element))
  else lift_res (pointerhash_insert_hash v (HnswPtrPointer elementPtr) (el_hash element)).

(** The element [e] is not read when there is no element to skip. *)
Definition CountElement (skipElement e : addr) : M Backend bool :=
  if (skipElement =? NULL)%N then mret true
  else el ← load_element e ; mret (negb (el_heaptidsLength el =? 0)).

(** ** Unvisited neighbors *)

Definition visit_neighbor (base : addr) (hc : HnswCandidate) (acc : list HnswUnvisited * visited_hash)
    : M Backend (list HnswUnvisited * visited_hash) :=
  let '(unvisited, v) := acc in
  '(v, found) ← AddToVisited base v (hc_element hc) true ;
  mret (if found : bool then (unvisited, v)
        else (unvisited ++ [UnvisitedElement (HnswPtrAccess base (hc_element hc))], v)).

(** The arrays [unvisited] and [localNeighborhood] have [lm] items. *)
Definition HnswLoadUnvisitedFromMemory (base element : addr) (v : visited_hash) (lm lc : Z)
    : M Backend (list HnswUnvisited * visited_hash) :=
  neighborhood ← HnswGetNeighbors base element lc ;
  lift_res (raise_if (lm <? na_length neighborhood) UndefinedBehaviour) ;;
  mfor (na_items neighborhood) ([], v) (visit_neighbor base).

(** The TIDs up to the first invalid one, those inserted for the first time. *)
Fixpoint unvisited_tids (indextids : list ItemPointerData) (v : visited_hash)
    : res (list HnswUnvisited * visited_hash) :=
  match indextids with
  | [] => Ok ([], v)
  | indextid :: rest =>
      if negb (ItemPointerIsValid indextid) then Ok ([], v)
      else
        '(v, found) ← tidhash_insert v indextid ;
        '(unvisited, v) ← unvisited_tids rest v ;
        Ok (if found : bool then (unvisited, v) else (UnvisitedTid indextid :: unvisited, v))
  end.

(** [indextids] has room for [HNSW_MAX_M * 2] TIDs. *)
Definition HnswLoadUnvisitedFromDisk (element : addr) (v : visited_hash) (m lm lc : Z)
    : M Backend (list HnswUnvisited * visited_hash) :=
  e ← load_element element ;
  lift_res (raise_if (HNSW_MAX_M * 2 <? lm) UndefinedBehaviour) ;;
  indextids ← HnswLoadNeighborTids e m lm lc ;
  match indextids with
  | None => mret ([], v)
  | Some l => lift_res (unvisited_tids l v)
  end.

(** ** The search *)

Record SearchState := mkSearchState {
  ss_C : candidate_heap;
  ss_W : candidate_heap;
  ss_wlen : Z;
  ss_v : visited_hash;
  ss_discarded : option candidate_heap;
  ss_tuples : option Z
}.

Definition ss_set_C (C : candidate_heap) (s : SearchState) : SearchState :=
  mkSearchState C (ss_W s) (ss_wlen s) (ss_v s) (ss_discarded s) (ss_tuples s).
Definition ss_set_v (v : visited_hash) (s : SearchState) : SearchState :=
  mkSearchState (ss_C s) (ss_W s) (ss_wlen s) v (ss_discarded s) (ss_tuples s).
(** [if (tuples != NULL) ( *tuples) += n;] *)
Definition ss_count_tuples (n : Z) (s : SearchState) : SearchState :=
  mkSearchState (ss_C s) (ss_W s) (ss_wlen s) (ss_v s) (ss_discarded s) (Z.add n <$> ss_tuples s).
(** [if (discarded != NULL) pairingheap_add( *discarded, ...);] *)
Definition ss_discard (e : HnswSearchCandidate) (s : SearchState) : SearchState :=
  mkSearchState (ss_C s) (ss_W s) (ss_wlen s) (ss_v s)
    ((fun d => pairingheap_add d e) <$> ss_discarded s) (ss_tuples s).
Definition ss_add (e : HnswSearchCandidate) (s : SearchState) : SearchState :=
  mkSearchState (pairingheap_add (ss_C s) e) (pairingheap_add (ss_W s) e) (ss_wlen s) (ss_v s)
    (ss_discarded s) (ss_tuples s).
Definition ss_incr_wlen (s : SearchState) : SearchState :=
  mkSearchState (ss_C s) (ss_W s) (ss_wlen s + 1) (ss_v s) (ss_discarded s) (ss_tuples s).
Definition ss_set_W (W : candidate_heap) (s : SearchState) : SearchState :=
  mkSearchState (ss_C s) W (ss_wlen s) (ss_v s) (ss_discarded s) (ss_tuples s).

Section Search.
Context `{Palloc}.
Context (base : addr) (q : HnswQuery) (ef lc : Z) (inMemory : bool) (support : HnswSupport) (m : Z).
Context (inserting : bool) (skipElement : addr).

Definition load_unvisited (cElement : addr) (v : visited_hash) : M Backend (list HnswUnvisited * visited_hash) :=
  let lm := HnswGetLayerM m lc in
  if inMemory then HnswLoadUnvisitedFromMemory base cElement v lm lc
  else HnswLoadUnvisitedFromDisk cElement v m lm lc.

(** The element, NULL when it was not loaded, and its distance. *)
Definition load_candidate (u : HnswUnvisited) (maxDistance : option double) : M Backend (addr * double) :=
  match inMemory, u with
  | true, UnvisitedElement eElement =>
      eDistance ← GetElementDistance base eElement q support ;
      mret (eElement, eDistance)
  | false, UnvisitedTid indextid =>
      '(d, eElement) ← HnswLoadElementImpl (ItemPointerGetBlockNumber indextid)
                         (ItemPointerGetOffsetNumber indextid) (Some q) support inserting maxDistance NULL ;
      eDistance ← lift_res (of_option UndefinedBehaviour d) ;
      mret (eElement, eDistance)
  | _, _ => throw UndefinedBehaviour
  end.

(** The body of the loop over the unvisited neighbors. *)
Definition visit (u : HnswUnvisited) (s : SearchState) : M Backend SearchState :=
  let alwaysAdd := ss_wlen s <? ef in
  f ← lift_res (pairingheap_first (ss_W s)) ;
  '(eElement, eDistance) ←
    load_candidate u (if alwaysAdd || bool_decide (is_Some (ss_discarded s)) then None else Some (sc_distance f)) ;
  if negb inMemory && (eElement =? NULL)%N then mret s
  else if (eElement =? NULL)%N || negb (flt eDistance (sc_distance f) || alwaysAdd) then
    mret (ss_discard (HnswInitSearchCandidate base eElement eDistance) s)
  else
    el ← load_element eElement ;
    if el_level el <? lc then mret s
    else
      let s := ss_add (HnswInitSearchCandidate base eElement eDistance) s in
      counted ← CountElement skipElement eElement ;
      if (counted : bool) then
        let s := ss_incr_wlen s in
        if ef <? ss_wlen s then
          '(d, W) ← lift_res (pairingheap_remove_first (ss_W s)) ;
          mret (ss_discard d (ss_set_W W s))
        else mret s
      else mret s.

Fixpoint search_loop (fuel : nat) (s : SearchState) : M Backend SearchState :=
  if pairingheap_is_empty (ss_C s) then mret s
  else
    match fuel with
    | O => throw OutOfFuel
    | S fuel =>
        '(c, C) ← lift_res (pairingheap_remove_first (ss_C s)) ;
        f ← lift_res (pairingheap_first (ss_W s)) ;
        let s := ss_set_C C s in
        if fgt (sc_distance c) (sc_distance f) then mret s
        else
          '(unvisited, v) ← load_unvisited (HnswPtrAccess base (sc_element c)) (ss_v s) ;
          s ← mfor unvisited (ss_count_tuples (Z.of_nat (length unvisited)) (ss_set_v v s)) visit ;
          search_loop fuel s
    end.

(** Entry points to v, C and W. *)
Definition add_entry (initVisited : bool) (sc : HnswSearchCandidate) (s : SearchState) : M Backend SearchState :=
  s ← (if initVisited then
         '(v, _) ← AddToVisited base (ss_v s) (sc_element sc) inMemory ;
         mret (ss_count_tuples 1 (ss_set_v v s))
       else mret s) ;
  let s := ss_add sc s in
  counted ← CountElement skipElement (HnswPtrAccess base (sc_element sc)) ;
  mret (if counted : bool then ss_incr_wlen s else s).

(** [v], [discarded] and [tuples] are [None] for NULL; their new contents are
    returned with the list, which goes from the furthest to the nearest. *)
Definition HnswSearchLayer (fuel : nat) (ep : list HnswSearchCandidate) (v : option visited_hash)
    (discarded : option candidate_heap) (initVisited : bool) (tuples : option Z)
    : M Backend (list HnswSearchCandidate * visited_hash * option candidate_heap * option Z) :=
  let initVisited := match v with None => true | Some _ => initVisited end in
  let '(v, discarded) :=
    match v, initVisited with
    | Some v, false => (v, discarded)
    | _, _ => (InitVisited base inMemory,
               (fun _ => pairingheap_allocate CompareNearestDiscardedCandidates) <$> discarded)
    end in
  let s := mkSearchState (pairingheap_allocate CompareNearestCandidates)
             (pairingheap_allocate CompareFurthestCandidates) 0 v discarded tuples in
  s ← mfor ep s (add_entry initVisited) ;
  s ← search_loop fuel s ;
  w ← lift_res (pairingheap_drain (heap_size (ss_W s)) (ss_W s)) ;
  mret (w, ss_v s, ss_discarded s, ss_tuples s).
End Search.
