(* ===== verification/LayerRefinement.v ===== *)
(** * The layer search refines the best-first search

    [HnswSearchLayer] (SearchLayer.v) computes [g_search] (GraphSearch.v) on
    the graph that the elements in memory, or the tuples on the pages, form.
    The simulation is proved once, from what the two modes have in common
    (the class [LayerView]), and instantiated for each. *)

From Stdlib Require Import SpecFloat.
From S2P Require Import Prelude CFloat VectorType PairingHeap GraphSearch ItemPtr Hash HnswData BufPage Backend.
From S2P Require Import HnswUtils SearchLayer.

(** The states a search goes through: elements are allocated, nothing else
    changes. *)
Definition extends (s s' : Backend) : Prop :=
  mem s ⊆ mem s' /\ index s' = index s /\ xlog s' = xlog s.

#[export] Instance extends_preorder : PreOrder extends.
Proof.
  split; [by intros s|]. intros s1 s2 s3 (H1 & H2 & H3) (H4 & H5 & H6).
  split; [by etrans|]. by rewrite H5, H6.
Qed.

(** In memory nothing changes at all. *)
Definition search_step (inMemory : bool) (s s' : Backend) : Prop :=
  if inMemory then s' = s else extends s s'.

#[export] Instance search_step_preorder inMemory : PreOrder (search_step inMemory).
Proof.
  unfold search_step. destruct inMemory; [|apply _]. split; [by intros s|].
  by intros s1 s2 s3 -> ->.
Qed.

Lemma search_step_extends inMemory s s' : search_step inMemory s s' -> extends s s'.
Proof. unfold search_step. destruct inMemory; [by intros ->|done]. Qed.

(** How a mode of the search presents a graph. *)
Class LayerView `{Palloc} {K} `{Countable K} (G : SearchGraph K) (U : gset K)
    (base : addr) (q : HnswQuery) (lc : Z) (inMemory : bool) (support : HnswSupport) (m : Z)
    (inserting : bool) (skipElement : addr) (s0 : Backend) := {
  lv_cand : gmap addr HnswElementData -> HnswSearchCandidate -> K -> Prop;
  lv_visited : visited_hash -> gset K -> Prop;
  lv_unvisited : HnswUnvisited -> K -> Prop;
  lv_cand_mono m1 m2 c k : m1 ⊆ m2 -> lv_cand m1 c k -> lv_cand m2 c k;
  lv_cand_inside m1 c k : lv_cand m1 c k -> k ∈ U;
  lv_cand_distance m1 c k : lv_cand m1 c k -> sc_distance c = g_distance G k;
  lv_closed k k' : k ∈ U -> k' ∈ g_neighbors G k -> k' ∈ U;
  lv_init : lv_visited (InitVisited base inMemory) ∅;
  lv_load_unvisited s c k v gv u gv' :
    extends s0 s -> lv_cand (mem s) c k -> lv_visited v gv ->
    g_unvisited (g_neighbors G k) gv = (u, gv') ->
    exists l v', load_unvisited base lc inMemory m (HnswPtrAccess base (sc_element c)) v s = Ok ((l, v'), s) /\
      Forall2 lv_unvisited l u /\ lv_visited v' gv';
  lv_load_candidate s x k max :
    extends s0 s -> lv_unvisited x k -> k ∈ U ->
    exists p s', load_candidate base q inMemory support inserting x max s = Ok ((p, g_distance G k), s') /\
      search_step inMemory s s' /\
      if inMemory || match max with None => true | Some mx => flt (g_distance G k) mx end
      then p <> NULL /\ HnswPtrAccess base (HnswPtrStore base p) = p /\
           lv_cand (mem s') (HnswInitSearchCandidate base p (g_distance G k)) k /\
           (exists el, mem s' !! p = Some el /\ (el_level el <? lc) = negb (g_level_ok G k))
      else p = NULL;
  lv_count s c k : extends s0 s -> lv_cand (mem s) c k ->
    CountElement skipElement (HnswPtrAccess base (sc_element c)) s = Ok (g_counted G k, s);
  lv_add_visited s c k v gv : extends s0 s -> lv_cand (mem s) c k -> lv_visited v gv ->
    exists v' found, AddToVisited base v (sc_element c) inMemory s = Ok ((v', found), s) /\
      lv_visited v' ({[k]} ∪ gv)
}.

Section Simulation.
Context `{Palloc} {K} `{Countable K} (G : SearchGraph K) (U : gset K).
Context (base : addr) (q : HnswQuery) (ef lc : Z) (inMemory : bool) (support : HnswSupport) (m : Z).
Context (inserting : bool) (skipElement : addr) (s0 : Backend).
Context `{LV : !LayerView G U base q lc inMemory support m inserting skipElement s0}.

#[local] Abbreviation dist := (g_distance G).
#[local] Abbreviation R s := (lv_cand (mem s)).

Record state_rel (s : Backend) (ss : SearchState) (gs : GState K) : Prop := {
  sl_C : heap_rel (R s) CompareNearestCandidates (cmp_near dist) (ss_C ss) (gs_C gs);
  sl_W : heap_rel (R s) CompareFurthestCandidates (cmp_far dist) (ss_W ss) (gs_W gs);
  sl_wlen : ss_wlen ss = gs_wlen gs;
  sl_v : lv_visited (ss_v ss) (gs_visited gs);
  sl_discarded : option_Forall2 (heap_rel (R s) CompareNearestDiscardedCandidates (cmp_near dist))
                   (ss_discarded ss) (gs_discarded gs);
  sl_tuples : ss_tuples ss = gs_tuples gs
}.

Lemma near_agree s a b a' b' : R s a b -> R s a' b' -> CompareNearestCandidates a a' = cmp_near dist b b'.
Proof using Type.
  intros Ha Hb. unfold CompareNearestCandidates, cmp_near.
  by rewrite (lv_cand_distance _ _ _ Ha), (lv_cand_distance _ _ _ Hb).
Qed.

Lemma discarded_agree s a b a' b' : R s a b -> R s a' b' ->
  CompareNearestDiscardedCandidates a a' = cmp_near dist b b'.
Proof using Type. apply near_agree. Qed.

Lemma far_agree s a b a' b' : R s a b -> R s a' b' -> CompareFurthestCandidates a a' = cmp_far dist b b'.
Proof using Type.
  intros Ha Hb. unfold CompareFurthestCandidates, cmp_far.
  by rewrite (lv_cand_distance _ _ _ Ha), (lv_cand_distance _ _ _ Hb).
Qed.

Lemma state_rel_mono s s' ss gs : search_step inMemory s s' -> state_rel s ss gs -> state_rel s' ss gs.
Proof using Type.
  intros (Hm & _)%search_step_extends [HC HW Hl Hv Hd Ht].
  assert (HR : forall c k, R s c k -> R s' c k) by (intros; by eapply lv_cand_mono).
  split; try done; try by eapply heap_rel_mono.
  destruct Hd; constructor. by eapply heap_rel_mono.
Qed.

Lemma state_rel_discard s ss gs c k : state_rel s ss gs -> R s c k ->
  state_rel s (ss_discard c ss) (gs_discard k gs).
Proof using Type.
  intros [HC HW Hl Hv Hd Ht] Hck. split; try done. cbn.
  destruct Hd; constructor. by apply heap_rel_add; [intros; by eapply discarded_agree|..].
Qed.

Lemma state_rel_add s ss gs c k : state_rel s ss gs -> R s c k ->
  state_rel s (ss_add c ss) (gs_add k gs).
Proof using Type.
  intros [HC HW Hl Hv Hd Ht] Hck. split; try done; cbn.
  - by apply heap_rel_add; [intros; by eapply near_agree|..].
  - by apply heap_rel_add; [intros; by eapply far_agree|..].
Qed.

Lemma state_rel_incr s ss gs : state_rel s ss gs -> state_rel s (ss_incr_wlen ss) (gs_incr_wlen gs).
Proof using Type. intros [HC HW Hl Hv Hd Ht]. split; try done. cbn. lia. Qed.

Lemma state_rel_first s ss gs f : state_rel s ss gs -> pairingheap_first (gs_W gs) = Ok f ->
  exists cf, pairingheap_first (ss_W ss) = Ok cf /\ R s cf f.
Proof using Type.
  intros Hr Hf. pose proof (heap_rel_first _ _ _ _ _ (sl_W _ _ _ Hr)) as Hx. rewrite Hf in Hx.
  destruct (pairingheap_first (ss_W ss)); [eauto|done].
Qed.

Lemma state_rel_remove_W s ss gs d W' : state_rel s ss gs -> pairingheap_remove_first (gs_W gs) = Ok (d, W') ->
  exists cd cW', pairingheap_remove_first (ss_W ss) = Ok (cd, cW') /\ R s cd d /\
    state_rel s (ss_set_W cW' ss) (gs_set_W W' gs).
Proof using Type.
  intros Hr Hf. pose proof (heap_rel_remove_first _ _ _ (far_agree s) _ _ (sl_W _ _ _ Hr)) as Hx.
  rewrite Hf in Hx. destruct (pairingheap_remove_first (ss_W ss)) as [[cd cW']|]; [|done].
  destruct Hx as [Hd HW']. exists cd, cW'. split_and!; [done|done|]. destruct Hr. by split.
Qed.

Lemma state_rel_remove_C s ss gs c C' : state_rel s ss gs -> pairingheap_remove_first (gs_C gs) = Ok (c, C') ->
  exists cc cC', pairingheap_remove_first (ss_C ss) = Ok (cc, cC') /\ R s cc c /\
    state_rel s (ss_set_C cC' ss) (gs_set_C C' gs).
Proof using Type.
  intros Hr Hf. pose proof (heap_rel_remove_first _ _ _ (near_agree s) _ _ (sl_C _ _ _ Hr)) as Hx.
  rewrite Hf in Hx. destruct (pairingheap_remove_first (ss_C ss)) as [[cd cW']|]; [|done].
  destruct Hx as [Hd HW']. exists cd, cW'. split_and!; [done|done|]. destruct Hr. by split.
Qed.

#[local] Abbreviation c_visit := (visit base q ef lc inMemory support inserting skipElement).

Lemma visit_sim s ss gs gs' x k :
  extends s0 s -> state_rel s ss gs -> lv_unvisited x k -> k ∈ U -> g_visit G ef k gs = Ok gs' ->
  exists ss' s', c_visit x ss s = Ok (ss', s') /\ search_step inMemory s s' /\ state_rel s' ss' gs'.
Proof using Type.
  intros Hs0 Hr Hx HkU Hv. unfold g_visit in Hv. apply res_bind_ok in Hv as (f & Hf & Hv).
  destruct (state_rel_first _ _ _ _ Hr Hf) as (cf & Hcf & HRf).
  set (max := if (ss_wlen ss <? ef) || bool_decide (is_Some (ss_discarded ss)) then None
              else Some (sc_distance cf)).
  destruct (lv_load_candidate s x k max Hs0 Hx HkU) as (p & s1 & Hl & Hext & Hp).
  assert (Hr1 : state_rel s1 ss gs) by (by eapply state_rel_mono).
  assert (Hs1 : extends s0 s1) by (etrans; [done|by eapply search_step_extends]).
  unfold visit. cbn zeta. unfold mbind, M_bind, lift_res. rewrite Hcf. fold max. rewrite Hl.
  assert (Hf' : sc_distance cf = dist f) by (by eapply lv_cand_distance).
  rewrite <- (sl_wlen _ _ _ Hr1) in Hv.
  destruct (inMemory || _) eqn:Eload.
  2: { (* not loaded: the distance is not smaller and nothing is collected *)
    apply orb_false_iff in Eload as [Em Emax]. rewrite Em in Hext. rewrite Hp, Em. simpl.
    unfold max in Emax. destruct (_ || bool_decide _) eqn:Ed; [done|].
    apply orb_false_iff in Ed as [El Ed]. apply bool_decide_eq_false in Ed.
    rewrite Hf' in Emax. rewrite Emax, El in Hv. simpl in Hv. injection Hv as <-.
    exists ss, s1. split_and!; [done|done|].
    rewrite gs_discard_none; [done|]. pose proof (sl_discarded _ _ _ Hr1) as Hd.
    inversion Hd as [? ? ? E1 E2|]; [|done]. rewrite <- E1 in Ed. destruct Ed. by eexists. }
  destruct Hp as (Hnull & Hacc & HR & el & Hel & Hlev).
  apply N.eqb_neq in Hnull. rewrite Hnull, andb_false_r. cbn [orb].
  rewrite Hf'. destruct (negb (flt (dist k) (dist f) || (ss_wlen ss <? ef))).
  { injection Hv as <-. exists (ss_discard (HnswInitSearchCandidate base p (dist k)) ss), s1.
    split_and!; [done|done|]. by apply state_rel_discard. }
  unfold load_element. rewrite Hel, Hlev.
  destruct (negb (g_level_ok G k)).
  { injection Hv as <-. by exists ss, s1. }
  pose proof (lv_count s1 _ _ Hs1 HR) as Hcnt. cbn [sc_element HnswInitSearchCandidate] in Hcnt.
  rewrite Hacc in Hcnt. rewrite Hcnt.
  pose proof (state_rel_add _ _ _ _ _ Hr1 HR) as Hr2.
  destruct (g_counted G k).
  2: { injection Hv as <-. eexists _, s1. by split_and!. }
  pose proof (state_rel_incr _ _ _ Hr2) as Hr3.
  cbn zeta in Hv. rewrite <- (sl_wlen _ _ _ Hr3) in Hv. destruct (_ <? _).
  2: { injection Hv as <-. eexists _, s1. by split_and!. }
  apply res_bind_ok in Hv as ((d & W') & HW & Hv). injection Hv as <-.
  destruct (state_rel_remove_W _ _ _ _ _ Hr3 HW) as (cd & cW' & HcW & HRd & Hr4).
  rewrite HcW. eexists _, s1. split_and!; [done|done|]. by apply state_rel_discard.
Qed.

Lemma visit_all_sim l u s ss gs gs' :
  extends s0 s -> state_rel s ss gs -> Forall2 lv_unvisited l u -> (forall k, k ∈ u -> k ∈ U) ->
  g_visit_all G ef u gs = Ok gs' ->
  exists ss' s', mfor l ss c_visit s = Ok (ss', s') /\ search_step inMemory s s' /\ state_rel s' ss' gs'.
Proof using Type.
  intros Hs0 Hr Hl. revert s ss gs Hs0 Hr. induction Hl as [|x k l u Hx Hl IH]; intros s ss gs Hs0 Hr HU Hv.
  - injection Hv as <-. by exists ss, s.
  - simpl in Hv. apply res_bind_ok in Hv as (gs1 & H1 & H2).
    destruct (visit_sim s ss gs gs1 x k Hs0 Hr Hx (HU k ltac:(left)) H1) as (ss1 & s1 & E1 & X1 & R1).
    destruct (IH s1 ss1 gs1) as (ss' & s' & E' & X' & R'); [etrans; [done|by eapply search_step_extends]|done| |done|].
    { intros k' Hk'. apply HU. by right. }
    exists ss', s'. split_and!; [|by etrans|done]. simpl. unfold mbind, M_bind. by rewrite E1.
Qed.

Lemma count_tuples_rel s ss gs n : state_rel s ss gs -> state_rel s (ss_count_tuples n ss) (gs_count_tuples n gs).
Proof using Type. intros []. split; try done. cbn. by f_equal. Qed.

Lemma loop_sim fuel s ss gs gs' :
  extends s0 s -> state_rel s ss gs -> g_loop G ef fuel gs = Ok gs' ->
  exists ss' s', search_loop base q ef lc inMemory support m inserting skipElement fuel ss s = Ok (ss', s') /\
    search_step inMemory s s' /\ state_rel s' ss' gs'.
Proof using Type.
  revert s ss gs. induction fuel as [|fuel IH]; intros s ss gs Hs0 Hr Hl; simpl in Hl |- *;
    rewrite (heap_rel_is_empty _ _ _ _ _ (sl_C _ _ _ Hr)); destruct (pairingheap_is_empty (gs_C gs)).
  1, 3: injection Hl as <-; by exists ss, s.
  { done. }
  apply res_bind_ok in Hl as ((c & C') & HC & Hl). apply res_bind_ok in Hl as (f & Hf & Hl).
  destruct (state_rel_remove_C _ _ _ _ _ Hr HC) as (cc & cC' & HcC & HRc & Hr1).
  destruct (state_rel_first _ _ _ _ Hr Hf) as (cf & Hcf & HRf).
  unfold mbind, M_bind, lift_res. rewrite HcC, Hcf.
  rewrite (lv_cand_distance _ _ _ HRc), (lv_cand_distance _ _ _ HRf).
  destruct (fgt _ _); [injection Hl as <-; by exists (ss_set_C cC' ss), s|].
  destruct (g_unvisited (g_neighbors G c) (gs_visited gs)) as [u gv'] eqn:Eu.
  destruct (lv_load_unvisited s cc c (ss_v ss) (gs_visited gs) u gv' Hs0 HRc (sl_v _ _ _ Hr) Eu)
    as (l & v' & Hlu & Hlu2 & Hv'). cbn [ss_set_C ss_v]. rewrite Hlu.
  apply res_bind_ok in Hl as (gs2 & H3 & Hl).
  rewrite (Forall2_length Hlu2).
  assert (Hr2 : state_rel s (ss_count_tuples (Z.of_nat (length u)) (ss_set_v v' (ss_set_C cC' ss)))
                  (gs_count_tuples (Z.of_nat (length u)) (gs_set_visited gv' (gs_set_C C' gs)))).
  { apply count_tuples_rel. destruct Hr1. by split. }
  assert (HU : forall k, k ∈ u -> k ∈ U).
  { intros k Hk. apply (proj1 (proj2 (g_unvisited_spec _ _ _ _ Eu))) in Hk as [Hk _].
    eapply lv_closed; [|exact Hk]. by eapply lv_cand_inside. }
  destruct (visit_all_sim _ _ _ _ _ _ Hs0 Hr2 Hlu2 HU H3) as (ss2 & s2 & E2 & X2 & R2).
  unfold ss_count_tuples, ss_set_v, ss_set_C in E2 |- *. cbn in E2 |- *. rewrite E2.
  destruct (IH s2 ss2 gs2) as (ss' & s' & E' & X' & R'); [etrans; [done|by eapply search_step_extends]|done|done|].
  exists ss', s'. split_and!; [done|by etrans|done].
Qed.

Lemma entries_sim init ep ks s ss gs :
  extends s0 s -> state_rel s ss gs -> Forall2 (R s) ep ks ->
  exists ss', mfor ep ss (add_entry base inMemory skipElement init) s = Ok (ss', s) /\
    state_rel s ss' (fold_left (g_entry G init) ks gs).
Proof using Type.
  intros Hs0 Hr Hep. revert ss gs Hr. induction Hep as [|c k ep ks Hck Hep IH]; intros ss gs Hr.
  { by exists ss. }
  assert (Hone : exists ss1, add_entry base inMemory skipElement init c ss s = Ok (ss1, s) /\
                 state_rel s ss1 (g_entry G init gs k)).
  { assert (Hvis : exists ss1, (if init then
         '(v, _) ← AddToVisited base (ss_v ss) (sc_element c) inMemory ;
         mret (ss_count_tuples 1 (ss_set_v v ss)) else mret ss) s = Ok (ss1, s) /\
       state_rel s ss1 (if init then gs_count_tuples 1 (gs_set_visited ({[k]} ∪ gs_visited gs) gs) else gs)).
    { destruct init; [|by exists ss].
      destruct (lv_add_visited s c k _ _ Hs0 Hck (sl_v _ _ _ Hr)) as (v' & found & E & Hv').
      unfold mbind, M_bind. rewrite E. eexists. split; [done|]. apply count_tuples_rel.
      destruct Hr. by split. }
    destruct Hvis as (ss1 & E1 & Hr1). unfold add_entry. unfold mbind at 1, M_bind at 1. rewrite E1.
    cbn zeta. unfold mbind, M_bind. rewrite (lv_count s c k Hs0 Hck).
    pose proof (state_rel_add _ _ _ _ _ Hr1 Hck) as Hr2. unfold g_entry. cbn zeta.
    destruct (g_counted G k); (eexists; split; [reflexivity|]); [by apply state_rel_incr|done]. }
  destruct Hone as (ss1 & E1 & Hr1). destruct (IH ss1 _ Hr1) as (ss' & E' & Hr').
  exists ss'. split; [|done]. simpl. unfold mbind, M_bind. by rewrite E1.
Qed.

(** The arguments [v], [discarded] of a first call and of a resumed one. *)
Inductive search_start (s : Backend) : option visited_hash -> option (pairingheap HnswSearchCandidate) -> bool ->
    bool -> gset K -> option (pairingheap K) -> Prop :=
  | start_fresh v discarded init :
      v = None \/ init = true ->
      search_start s v discarded init true ∅
        ((fun _ => pairingheap_allocate (cmp_near dist)) <$> discarded)
  | start_resume v discarded gv gd :
      lv_visited v gv ->
      option_Forall2 (heap_rel (R s) CompareNearestDiscardedCandidates (cmp_near dist)) discarded gd ->
      search_start s (Some v) discarded false false gv gd.

Lemma search_sim fuel s ep ks v discarded init ginit gv gd tuples w gs' :
  extends s0 s -> Forall2 (R s) ep ks -> search_start s v discarded init ginit gv gd ->
  g_search G ef fuel ks ginit gv gd tuples = Ok (w, gs') ->
  exists cw v' d' s',
    HnswSearchLayer base q ef lc inMemory support m inserting skipElement fuel ep v discarded init tuples s
      = Ok ((cw, v', d', gs_tuples gs'), s') /\
    search_step inMemory s s' /\ Forall2 (R s') cw w /\ lv_visited v' (gs_visited gs') /\
    option_Forall2 (heap_rel (R s') CompareNearestDiscardedCandidates (cmp_near dist)) d' (gs_discarded gs').
Proof using Type.
  intros Hs0 Hep Hst Hg. unfold g_search in Hg.
  apply res_bind_ok in Hg as (gs1 & Hloop & Hg). apply res_bind_ok in Hg as (w1 & Hd & Hg).
  injection Hg as -> ->.
  set (ss0 := mkSearchState (pairingheap_allocate CompareNearestCandidates)
    (pairingheap_allocate CompareFurthestCandidates) 0).
  assert (Hstart : exists v1 d1, HnswSearchLayer base q ef lc inMemory support m inserting skipElement
       fuel ep v discarded init tuples =
     (s ← mfor ep (ss0 v1 d1 tuples) (add_entry base inMemory skipElement ginit) ;
      s ← search_loop base q ef lc inMemory support m inserting skipElement fuel s ;
      w ← lift_res (pairingheap_drain (heap_size (ss_W s)) (ss_W s)) ;
      mret (w, ss_v s, ss_discarded s, ss_tuples s)) /\
     state_rel s (ss0 v1 d1 tuples) (g_start G gv gd tuples)).
  { destruct Hst as [v discarded init Hv|v discarded gv gd Hv Hdisc].
    - exists (InitVisited base inMemory),
        ((fun _ => pairingheap_allocate CompareNearestDiscardedCandidates) <$> discarded). split.
      + unfold HnswSearchLayer. destruct v; [destruct Hv as [? | ->]; done|done].
      + split; try constructor; [apply lv_init|destruct discarded; constructor; constructor].
    - exists v, discarded. split; [done|]. by split; try constructor. }
  destruct Hstart as (v1 & d1 & -> & Hr0).
  destruct (entries_sim ginit ep ks s _ _ Hs0 Hr0 Hep) as (ss1 & E1 & Hr1).
  destruct (loop_sim fuel s ss1 _ gs' Hs0 Hr1 Hloop) as (ss2 & s2 & E2 & X2 & Hr2).
  unfold mbind, M_bind. rewrite E1, E2. unfold lift_res.
  pose proof (heap_rel_drain _ _ _ (far_agree s2) (heap_size (gs_W gs')) _ _ (sl_W _ _ _ Hr2)) as Hdr.
  rewrite Hd in Hdr.
  assert (heap_size (ss_W ss2) = heap_size (gs_W gs')) as ->.
  { unfold heap_size. by apply (Forall2_length (heap_rel_elems _ _ _ _ _ (sl_W _ _ _ Hr2))). }
  destruct (pairingheap_drain _ (ss_W ss2)) as [cw|]; [|done].
  exists cw, (ss_v ss2), (ss_discarded ss2), s2. rewrite (sl_tuples _ _ _ Hr2).
  destruct Hr2. split_and!; try done.
Qed.
End Simulation.

(** ** Elements in memory *)

Definition mem_neighbors (base : addr) (lc : Z) (mem0 : gmap addr HnswElementData) (k : addr) : list addr :=
  match mem0 !! HnswPtrAccess base k with
  | Some el => match neighbors_of el lc with Ok a => hc_element <$> na_items a | Err _ => [] end
  | None => []
  end.

Definition mem_distance (base : addr) (q : HnswQuery) (support : HnswSupport)
    (mem0 : gmap addr HnswElementData) (k : addr) : double :=
  match mem0 !! HnswPtrAccess base k with
  | Some el => match HnswGetDistance (q_value q) (el_value el) support with Ok d => d | Err _ => S754_nan end
  | None => S754_nan
  end.

Definition mem_level_ok (base : addr) (lc : Z) (mem0 : gmap addr HnswElementData) (k : addr) : bool :=
  match mem0 !! HnswPtrAccess base k with Some el => lc <=? el_level el | None => false end.

Definition mem_counted (base skipElement : addr) (mem0 : gmap addr HnswElementData) (k : addr) : bool :=
  (skipElement =? NULL)%N ||
  match mem0 !! HnswPtrAccess base k with Some el => negb (el_heaptidsLength el =? 0) | None => false end.

(** The layer as a graph on element pointers. *)
Definition mem_graph base q lc support skipElement mem0 : SearchGraph addr :=
  mkGraph (mem_neighbors base lc mem0) (mem_distance base q support mem0)
    (mem_level_ok base lc mem0) (mem_counted base skipElement mem0).

(** The hash under which the visited sets keep a pointer. *)
Definition key_hash (base : addr) (k : addr) : Z :=
  if (base =? NULL)%N then hash_pointer (Z.of_N (HnswPtrPointer k)) else hash_offset (HnswPtrOffset k).

(** What the in-memory build maintains about the layer [lc] of its graph: the
    elements of [U] are allocated, have the hash of their pointer, reach the
    layer, have at most [lm] neighbors there, all of them in [U], and a
    distance from the query. *)
Record mem_layer_ok (base : addr) (q : HnswQuery) (lc : Z) (support : HnswSupport) (m : Z)
    (mem0 : gmap addr HnswElementData) (U : gset addr) : Prop := {
  ml_ptr k : k ∈ U -> ptr_fits base k /\ HnswPtrAccess base k <> NULL;
  ml_element k : k ∈ U -> exists el a d,
    mem0 !! HnswPtrAccess base k = Some el /\ lc <= el_level el /\
    neighbors_of el lc = Ok a /\ na_length a <= HnswGetLayerM m lc /\
    (forall hc, hc ∈ na_items a -> hc_element hc ∈ U) /\
    HnswGetDistance (q_value q) (el_value el) support = Ok d /\ is_nan d = false;
  ml_hash k el : k ∈ U -> mem0 !! HnswPtrAccess base k = Some el -> el_hash el = key_hash base k
}.

Section InMemory.
Context `{Palloc}.
Context (base : addr) (q : HnswQuery) (lc : Z) (support : HnswSupport) (m : Z).
Context (inserting : bool) (skipElement : addr) (s0 : Backend) (U : gset addr).
Context (Hok : mem_layer_ok base q lc support m (mem s0) U).

#[local] Abbreviation G := (mem_graph base q lc support skipElement (mem s0)).

Definition mem_cand (c : HnswSearchCandidate) (k : addr) : Prop :=
  sc_element c = k /\ k ∈ U /\ sc_distance c = g_distance G k.

Definition mem_visited (v : visited_hash) (gv : gset addr) : Prop :=
  match v with
  | pointers s => base = NULL /\ s = gv
  | offsets s => base <> NULL /\ forall k, ptr_ok k -> HnswPtrOffset k ∈ s <-> k ∈ gv
  | tids _ => False
  end.

Lemma mem_lookup s k el : extends s0 s -> mem s0 !! HnswPtrAccess base k = Some el ->
  mem s !! HnswPtrAccess base k = Some el.
Proof using Type. intros (Hm & _) Hk. by eapply lookup_weaken. Qed.

Lemma offset_inj k k' : base <> NULL -> ptr_ok k -> ptr_ok k' -> HnswPtrOffset k = HnswPtrOffset k' -> k = k'.
Proof using Type.
  intros Hb Hk Hk' Hoff. apply (HnswPtrEqual_spec base k k' (fun _ => Hk) (fun _ => Hk')).
  unfold HnswPtrEqual, HnswPtrOffset in *. apply N.eqb_neq in Hb. rewrite Hb. by apply Z.eqb_eq.
Qed.

Lemma mem_add_visited s k v gv : extends s0 s -> k ∈ U -> mem_visited v gv ->
  exists v', AddToVisited base v k true s = Ok ((v', bool_decide (k ∈ gv)), s) /\ mem_visited v' ({[k]} ∪ gv).
Proof using Hok.
  intros Hs Hk Hv. destruct (ml_element _ _ _ _ _ _ _ Hok k Hk) as (el & a & d & Hel & _).
  pose proof (proj1 (ml_ptr _ _ _ _ _ _ _ Hok k Hk)) as Hp.
  pose proof (ml_hash _ _ _ _ _ _ _ Hok k el Hk Hel) as Hhash. unfold key_hash in Hhash.
  unfold AddToVisited, mbind, M_bind, load_element. rewrite (mem_lookup s k el Hs Hel). cbn [negb]. rewrite Hhash.
  destruct (N.eqb_spec base NULL) as [Hb|Hb]; cbn [negb]; destruct v as [g|g|g]; simpl in Hv; try tauto.
  - destruct Hv as [_ ->]. unfold pointerhash_insert_hash, lift_res. rewrite Z.eqb_refl. by eexists.
  - destruct Hv as [_ Hg]. unfold offsethash_insert_hash, lift_res. rewrite Z.eqb_refl. simpl. eexists. split.
    + rewrite (bool_decide_ext _ (k ∈ gv)) by (apply Hg, Hp, Hb). reflexivity.
    + split; [done|]. intros k' Hk'. rewrite !elem_of_union, !elem_of_singleton, (Hg k' Hk').
      split; (intros [Heq|]; [left|by right]); [by apply offset_inj; [|auto|auto|]|by subst].
Qed.

Lemma mem_items_sim s items acc v gv u gv' :
  extends s0 s -> (forall hc, hc ∈ items -> hc_element hc ∈ U) -> mem_visited v gv ->
  g_unvisited (hc_element <$> items) gv = (u, gv') ->
  exists v', mfor items (acc, v) (visit_neighbor base) s =
    Ok ((acc ++ ((fun k => UnvisitedElement (HnswPtrAccess base k)) <$> u), v'), s) /\ mem_visited v' gv'.
Proof using Hok.
  intros Hs. revert acc v gv u gv'. induction items as [|hc items IH]; intros acc v gv u gv' HU Hv Hg.
  { injection Hg as <- <-. exists v. simpl. by rewrite app_nil_r. }
  simpl in Hg. destruct (g_unvisited _ _) as [rest v1] eqn:E. injection Hg as <- <-.
  destruct (mem_add_visited s (hc_element hc) v gv Hs (HU hc ltac:(left)) Hv) as (v2 & E2 & Hv2).
  rewrite mfor_cons.
  assert (Hstep : visit_neighbor base hc (acc, v) s =
    Ok (if bool_decide (hc_element hc ∈ gv) then (acc, v2)
        else (acc ++ [UnvisitedElement (HnswPtrAccess base (hc_element hc))], v2), s)).
  { unfold visit_neighbor. by rewrite (M_bind_run _ _ _ _ _ E2). }
  rewrite (M_bind_run _ _ _ _ _ Hstep). clear Hstep.
  assert (HU' : forall hc', hc' ∈ items -> hc_element hc' ∈ U) by (intros; apply HU; by right).
  case_bool_decide; [by eapply IH|].
  destruct (IH (acc ++ [UnvisitedElement (HnswPtrAccess base (hc_element hc))]) v2 _ rest v1 HU' Hv2 E)
    as (v3 & E3 & Hv3).
  exists v3. by rewrite E3, fmap_cons, <- app_assoc.
Qed.

#[export, refine] Instance mem_view : LayerView G U base q lc true support m inserting skipElement s0 := {
  lv_cand := fun _ => mem_cand;
  lv_visited := mem_visited;
  lv_unvisited := fun x k => x = UnvisitedElement (HnswPtrAccess base k)
}.
Proof using Hok.
  - done.
  - intros m1 c k (_ & Hk & _). done.
  - intros m1 c k (_ & _ & Hd). done.
  - (* closed *)
    intros k k' Hk. destruct (ml_element _ _ _ _ _ _ _ Hok k Hk) as (el & a & d & Hel & _ & Ha & _ & HU & _).
    simpl. unfold mem_neighbors. rewrite Hel, Ha. intros (hc & -> & Hhc)%list_elem_of_fmap. auto.
  - unfold InitVisited, mem_visited. simpl. destruct (N.eqb_spec base NULL); simpl; [done|].
    split; [done|]. intros k _. by rewrite !elem_of_empty.
  - (* load_unvisited *)
    intros s c k v gv u gv' Hs (Hc & Hk & _) Hv Hg.
    destruct (ml_element _ _ _ _ _ _ _ Hok k Hk) as (el & a & d & Hel & _ & Ha & Hlen & HU & _).
    simpl in Hg. unfold mem_neighbors in Hg. rewrite Hel, Ha in Hg.
    destruct (mem_items_sim s (na_items a) [] v gv u gv' Hs HU Hv Hg) as (v' & E & Hv').
    eexists _, v'. split; [|split; [|exact Hv']].
    + unfold load_unvisited, HnswLoadUnvisitedFromMemory, HnswGetNeighbors. cbn zeta.
      unfold mbind, M_bind, load_element. rewrite Hc, (mem_lookup s k el Hs Hel).
      unfold lift_res at 1. rewrite Ha. unfold lift_res at 1, raise_if.
      destruct (Z.ltb_spec (HnswGetLayerM m lc) (na_length a)); [lia|]. exact E.
    + simpl. clear. induction u; constructor; auto.
  - (* load_candidate *)
    intros s x k max Hs -> Hk.
    destruct (ml_element _ _ _ _ _ _ _ Hok k Hk) as (el & a & d & Hel & Hlev & Ha & Hlen & HU & Hd & Hnan).
    assert (Hdist : g_distance G k = d) by (simpl; unfold mem_distance; by rewrite Hel, Hd).
    exists (HnswPtrAccess base k), s. split_and!; [|done|].
    + unfold load_candidate, GetElementDistance, HnswGetValue, mbind, M_bind, load_element.
      rewrite (mem_lookup s k el Hs Hel). unfold mret, M_ret, lift_res. by rewrite Hd, Hdist.
    + cbn [orb]. split; [by apply (ml_ptr _ _ _ _ _ _ _ Hok)|]. rewrite HnswPtrStore_Access.
      split; [done|]. split.
      * unfold mem_cand, HnswInitSearchCandidate. simpl. by rewrite HnswPtrStore_Access.
      * exists el. split; [by apply mem_lookup|]. simpl. unfold mem_level_ok. rewrite Hel.
        by rewrite Z.leb_antisym, negb_involutive.
  - (* CountElement *)
    intros s c k Hs (-> & Hk & _). destruct (ml_element _ _ _ _ _ _ _ Hok k Hk) as (el & _ & _ & Hel & _).
    unfold CountElement. simpl. unfold mem_counted. rewrite Hel. destruct (_ =? _)%N; [done|].
    unfold mbind, M_bind, load_element. by rewrite (mem_lookup s k el Hs Hel).
  - intros s c k v gv Hs (-> & Hk & _) Hv.
    destruct (mem_add_visited s k v gv Hs Hk Hv) as (v' & E & Hv'). eauto.
Defined.

Lemma mem_numeric k : k ∈ U -> numeric (g_distance G) k.
Proof using Hok.
  intros Hk. destruct (ml_element _ _ _ _ _ _ _ Hok k Hk) as (el & a & d & Hel & _ & _ & _ & _ & Hd & Hnan).
  unfold numeric. simpl. unfold mem_distance. by rewrite Hel, Hd.
Qed.
End InMemory.

(** ** Tuples on the pages of an index *)

Definition tuple_at (rel : Relation) (blkno : BlockNumber) (offno : OffsetNumber) : option HnswTuple :=
  match block (rd_main rel) blkno with
  | Some page => match page_tuple page offno with Ok tup => Some tup | Err _ => None end
  | None => None
  end.

Definition element_at (rel : Relation) (tid : ItemPointerData) : option HnswElementTupleData :=
  match tuple_at rel (ItemPointerGetBlockNumber tid) (ItemPointerGetOffsetNumber tid) with
  | Some (ElementTuple etup) => Some etup
  | _ => None
  end.

Definition neighbor_at (rel : Relation) (tid : ItemPointerData) : option HnswNeighborTupleData :=
  match tuple_at rel (ItemPointerGetBlockNumber tid) (ItemPointerGetOffsetNumber tid) with
  | Some (NeighborTuple ntup) => Some ntup
  | _ => None
  end.

(** The slots of layer [lc] in a neighbor tuple. *)
Definition layer_slots (m lm lc : Z) (etup : HnswElementTupleData) (ntup : HnswNeighborTupleData) : list ItemPointerData :=
  take (Z.to_nat lm) (drop (Z.to_nat ((et_level etup - lc) * m)) (nt_indextids ntup)).

Definition neighbor_current (m : Z) (etup : HnswElementTupleData) (ntup : HnswNeighborTupleData) : bool :=
  (nt_version ntup =? et_version etup) && (nt_count ntup =? (et_level etup + 2) * m).

Definition disk_neighbors (rel : Relation) (m lc : Z) (k : ItemPointerData) : list ItemPointerData :=
  match element_at rel k with
  | Some etup =>
      match neighbor_at rel (et_neighbortid etup) with
      | Some ntup =>
          if neighbor_current m etup ntup
          then valid_prefix (layer_slots m (HnswGetLayerM m lc) lc etup ntup) else []
      | None => []
      end
  | None => []
  end.

Definition disk_distance (rel : Relation) (q : HnswQuery) (support : HnswSupport) (k : ItemPointerData) : double :=
  match element_at rel k with
  | Some etup => match tuple_distance q etup support with Ok d => d | Err _ => S754_nan end
  | None => S754_nan
  end.

Definition disk_graph (rel : Relation) (q : HnswQuery) (lc : Z) (support : HnswSupport) (m : Z)
    (skipElement : addr) : SearchGraph ItemPointerData :=
  mkGraph (disk_neighbors rel m lc) (disk_distance rel q support)
    (fun k => match element_at rel k with Some etup => lc <=? et_level etup | None => false end)
    (fun k => (skipElement =? NULL)%N ||
       match element_at rel k with
       | Some etup => negb (Z.of_nat (length (valid_prefix (et_heaptids etup))) =? 0)
       | None => false
       end).

(** What the index maintains about a layer: the TIDs of [U] are those of
    element tuples that reach the layer, whose neighbor tuple is there and
    whose neighbors at the layer are in [U], at a distance from the query. *)
Record disk_layer_ok (rel : Relation) (q : HnswQuery) (lc : Z) (support : HnswSupport) (m : Z)
    (U : gset ItemPointerData) : Prop := {
  dl_slots : 0 <= HnswGetLayerM m lc <= HNSW_MAX_M * 2;
  dl_tid k : k ∈ U -> ItemPointer_ok k;
  dl_element k : k ∈ U -> exists etup ntup d,
    element_at rel k = Some etup /\ lc <= et_level etup /\
    neighbor_at rel (et_neighbortid etup) = Some ntup /\
    0 <= (et_level etup - lc) * m /\
    (neighbor_current m etup ntup = true ->
       (et_level etup - lc) * m + HnswGetLayerM m lc <= Z.of_nat (length (nt_indextids ntup)) /\
       forall k', k' ∈ valid_prefix (layer_slots m (HnswGetLayerM m lc) lc etup ntup) -> k' ∈ U) /\
    tuple_distance q etup support = Ok d /\ is_nan d = false
}.

Section OnDisk.
Context `{Palloc}.
Context (q : HnswQuery) (lc : Z) (support : HnswSupport) (m : Z).
Context (inserting : bool) (skipElement : addr) (s0 : Backend) (U : gset ItemPointerData).
Context (Hok : disk_layer_ok (index s0) q lc support m U).

#[local] Abbreviation G := (disk_graph (index s0) q lc support m skipElement).

(** An element loaded from a tuple. *)
Record loaded_from (el : HnswElementData) (k : ItemPointerData) (etup : HnswElementTupleData) : Prop := {
  lf_tid : ItemPointerSet (el_blkno el) (el_offno el) = k;
  lf_level : el_level el = et_level etup;
  lf_version : el_version el = et_version etup;
  lf_heaptids : el_heaptids el = valid_prefix (et_heaptids etup);
  lf_neighborPage : el_neighborPage el = ItemPointerGetBlockNumber (et_neighbortid etup);
  lf_neighborOffno : el_neighborOffno el = ItemPointerGetOffsetNumber (et_neighbortid etup)
}.

(** A candidate in memory for a key; [extra] is what a caller knows besides of
    its element. *)
Definition disk_cand_with (extra : addr -> HnswElementData -> HnswElementTupleData -> Prop)
    (m1 : gmap addr HnswElementData) (c : HnswSearchCandidate) (k : ItemPointerData) : Prop :=
  k ∈ U /\ sc_distance c = g_distance G k /\
  exists el etup, m1 !! sc_element c = Some el /\ element_at (index s0) k = Some etup /\ loaded_from el k etup /\
    extra (sc_element c) el etup.

Definition disk_cand : gmap addr HnswElementData -> HnswSearchCandidate -> ItemPointerData -> Prop :=
  disk_cand_with (fun _ _ _ => True).

Lemma tuple_at_run rel blkno offno tup : tuple_at rel blkno offno = Some tup ->
  exists page, block (rd_main rel) blkno = Some page /\ page_tuple page offno = Ok tup.
Proof using Type.
  unfold tuple_at. destruct (block _ _) as [page|]; [|done].
  destruct (page_tuple page offno) as [t|] eqn:E; [|done]. intros [= <-]. by exists page.
Qed.

(** Reading a tuple through its buffer. *)
Lemma read_tuple_run {A} s blkno offno tup (f : HnswTuple -> M Backend A) :
  tuple_at (index s) blkno offno = Some tup ->
  (buf ← ReadBuffer blkno ; page ← read_page MAIN_FORKNUM (BufferPage buf) ;
   tup ← get_tuple page offno ; f tup) s = f tup s.
Proof using Type.
  intros Ht. destruct (tuple_at_run _ _ _ _ Ht) as (page & Hb & Hp).
  rewrite (M_bind_run _ _ s blkno s). 2: { unfold ReadBuffer, ReadBufferFork. simpl. by rewrite Hb. }
  rewrite (M_bind_run _ _ s page s). 2: { simpl. by rewrite Hb. }
  rewrite (M_bind_run _ _ s tup s). 2: { unfold get_tuple, lift_res. by rewrite Hp. }
  done.
Qed.

Lemma valid_prefix_cons t l : valid_prefix (t :: l) = if ItemPointerIsValid t then t :: valid_prefix l else [].
Proof using Type. simpl. by destruct (ItemPointerIsValid t). Qed.

Lemma valid_prefix_sublist l : valid_prefix l `sublist_of` l.
Proof using Type.
  induction l as [|t l IH]; [done|]. rewrite valid_prefix_cons. destruct (ItemPointerIsValid t); [by constructor|].
  apply sublist_nil_l.
Qed.

Lemma unvisited_tids_sim l gv u gv' :
  g_unvisited (valid_prefix l) gv = (u, gv') -> unvisited_tids l (tids gv) = Ok (UnvisitedTid <$> u, tids gv').
Proof using Type.
  revert gv u gv'. induction l as [|t l IH]; intros gv u gv' Hg.
  { injection Hg as <- <-. done. }
  rewrite valid_prefix_cons in Hg. simpl. destruct (ItemPointerIsValid t); cbn [negb].
  2: { injection Hg as <- <-. done. }
  simpl in Hg. destruct (g_unvisited (valid_prefix l) ({[t]} ∪ gv)) as [rest v1] eqn:E. injection Hg as <- <-.
  rewrite (IH _ _ _ E). simpl. by case_bool_decide.
Qed.

Lemma element_at_tuple k etup : element_at (index s0) k = Some etup ->
  tuple_at (index s0) (ItemPointerGetBlockNumber k) (ItemPointerGetOffsetNumber k) = Some (ElementTuple etup).
Proof using Type. unfold element_at. destruct (tuple_at _ _ _) as [[]|]; naive_solver. Qed.

Lemma neighbor_at_tuple k ntup : neighbor_at (index s0) k = Some ntup ->
  tuple_at (index s0) (ItemPointerGetBlockNumber k) (ItemPointerGetOffsetNumber k) = Some (NeighborTuple ntup).
Proof using Type. unfold neighbor_at. destruct (tuple_at _ _ _) as [[]|]; naive_solver. Qed.

Lemma load_tids_sim s k el etup ntup :
  extends s0 s -> element_at (index s0) k = Some etup -> loaded_from el k etup ->
  neighbor_at (index s0) (et_neighbortid etup) = Some ntup ->
  0 <= HnswGetLayerM m lc -> 0 <= (et_level etup - lc) * m ->
  (neighbor_current m etup ntup = true ->
     (et_level etup - lc) * m + HnswGetLayerM m lc <= Z.of_nat (length (nt_indextids ntup))) ->
  HnswLoadNeighborTids el m (HnswGetLayerM m lc) lc s =
  Ok (if neighbor_current m etup ntup then Some (layer_slots m (HnswGetLayerM m lc) lc etup ntup) else None, s).
Proof using Type.
  intros (_ & Hidx & _) Hk [_ Hl Hv _ Hp Ho] Hn Hlm Hst Hlen. unfold HnswLoadNeighborTids.
  etrans. { eapply read_tuple_run. rewrite Hidx, Hp, Ho. by apply neighbor_at_tuple. }
  simpl. rewrite (M_bind_run _ _ s ntup s) by done. rewrite Hl, Hv. unfold neighbor_current in *.
  destruct (nt_version ntup =? et_version etup), (nt_count ntup =? (et_level etup + 2) * m); try done.
  simpl in *. specialize (Hlen eq_refl).
  rewrite (M_bind_run _ _ s tt s); [done|]. unfold lift_res, raise_if.
  destruct (Z.ltb_spec ((et_level etup - lc) * m) 0); [lia|].
  destruct (Z.ltb_spec (Z.of_nat (length (nt_indextids ntup))) ((et_level etup - lc) * m + HnswGetLayerM m lc)); [lia|done].
Qed.

(** The elements the search loads have what the caller wants to know. *)
Context (extra : addr -> HnswElementData -> HnswElementTupleData -> Prop).
Context (Hextra : forall a el etup, mem s0 !! a = None -> a <> NULL -> BlockNumber_ok (el_blkno el) ->
  (inserting = true -> el_value el = Some (et_data etup)) -> extra a el etup).

#[refine] Instance disk_view_with : LayerView G U NULL q lc false support m inserting skipElement s0 := {
  lv_cand := disk_cand_with extra;
  lv_visited := fun v gv => v = tids gv;
  lv_unvisited := fun x k => x = UnvisitedTid k
}.
Proof using Hok Hextra.
  - intros m1 m2 c k Hm (Hk & Hd & el & etup & Hel & Hx). split_and!; try done.
    exists el, etup. split; [by eapply lookup_weaken|done].
  - by intros m1 c k (Hk & _).
  - by intros m1 c k (_ & Hd & _).
  - intros k k' Hk. destruct (dl_element _ _ _ _ _ _ Hok k Hk) as (etup & ntup & d & He & _ & Hn & _ & HU & _).
    simpl. unfold disk_neighbors. rewrite He, Hn. destruct (neighbor_current m etup ntup).
    + by apply HU.
    + intros Hx. by apply elem_of_nil in Hx.
  - done.
  - (* load_unvisited *)
    intros s c k v gv u gv' Hs (Hk & _ & el & etup & Hel & He & Hlf & Hx) -> Hg.
    destruct (dl_element _ _ _ _ _ _ Hok k Hk) as (etup' & ntup & d & He' & Hlev & Hn & Hst & HU & _).
    rewrite He in He'. injection He' as <-.
    pose proof (dl_slots _ _ _ _ _ _ Hok) as Hlm.
    simpl in Hg. unfold disk_neighbors in Hg. rewrite He, Hn in Hg.
    exists (UnvisitedTid <$> u), (tids gv'). split; [|split; [|done]].
    + unfold load_unvisited, HnswLoadUnvisitedFromDisk. cbn zeta.
      rewrite (M_bind_run _ _ s el s). 2: { unfold load_element. change (HnswPtrAccess NULL (sc_element c)) with (sc_element c). by rewrite Hel. }
      rewrite (M_bind_run _ _ s tt s).
      2: { unfold lift_res, raise_if. destruct (Z.ltb_spec (HNSW_MAX_M * 2) (HnswGetLayerM m lc)); [lia|done]. }
      rewrite (M_bind_run _ _ _ _ _ (load_tids_sim s k el etup ntup Hs He Hlf Hn (proj1 Hlm) Hst
                 (fun Hc => proj1 (HU Hc)))).
      destruct (neighbor_current m etup ntup).
      * unfold lift_res. by rewrite (unvisited_tids_sim _ _ _ _ Hg).
      * injection Hg as <- <-. done.
    + clear. induction u; constructor; auto.
  - (* load_candidate *)
    intros s x k max Hs -> Hk.
    destruct (dl_element _ _ _ _ _ _ Hok k Hk) as (etup & ntup & d & He & Hlev & Hn & Hst & HU & Hd & Hnan).
    assert (Hdist : g_distance G k = d) by (simpl; unfold disk_distance; by rewrite He, Hd).
    pose proof (proj1 (proj2 Hs)) as Hidx.
    unfold load_candidate.
    set (load := match max with None => true | Some mx => flt d mx end).
    assert (Himpl : exists p s', HnswLoadElementImpl (ItemPointerGetBlockNumber k) (ItemPointerGetOffsetNumber k)
              (Some q) support inserting max NULL s = Ok ((Some d, p), s') /\ extends s s' /\
              if load then p <> NULL /\ exists el, mem s' !! p = Some el /\ loaded_from el k etup /\ extra p el etup
              else p = NULL).
    { unfold HnswLoadElementImpl.
      assert (Ht : tuple_at (index s) (ItemPointerGetBlockNumber k) (ItemPointerGetOffsetNumber k) = Some (ElementTuple etup))
        by (rewrite Hidx; by apply element_at_tuple).
      rewrite (read_tuple_run s _ _ _ _ Ht). rewrite (M_bind_run _ _ s etup s) by done.
      rewrite (M_bind_run _ _ s (Some d) s) by (unfold lift_res; rewrite Hd; done).
      assert ((match max with Some mx => flt d mx | None => true end) = load) as -> by done.
      destruct load.
      2: { exists NULL, s. split_and!; done. }
      set (p := palloc_addr (mem s)). set (e0 := el_set_value None (el_set_neighbors None (el_set_tid
        (ItemPointerGetBlockNumber k) (ItemPointerGetOffsetNumber k) uninit))).
      set (s1 := mkBackend (<[p := e0]> (mem s)) (index s) (xlog s)).
      rewrite (M_bind_run _ _ s p s1) by done.
      set (e1 := HnswLoadElementFromTuple e0 etup true inserting).
      set (s2 := mkBackend (<[p := e1]> (mem s1)) (index s) (xlog s)).
      rewrite (M_bind_run _ _ s1 tt s2).
      2: { unfold modify_element. rewrite (M_bind_run _ _ s1 e0 s1).
           - unfold store_element. simpl. by rewrite lookup_insert_eq.
           - unfold load_element. simpl. by rewrite lookup_insert_eq. }
      exists p, s2. split; [done|]. split.
      - split; [|done]. simpl. rewrite insert_insert_eq. apply insert_subseteq, palloc_fresh.
      - split; [apply palloc_not_null|]. exists e1. simpl. rewrite lookup_insert_eq. split; [done|].
        split.
        + unfold e1, e0, HnswLoadElementFromTuple.
          destruct inserting; split; cbn; try done; apply ItemPointerSet_Get; by apply (dl_tid _ _ _ _ _ _ Hok).
        + apply Hextra; [|apply palloc_not_null| |unfold e1, HnswLoadElementFromTuple; by intros ->].
          2: { unfold e1, e0, HnswLoadElementFromTuple. destruct inserting; apply ItemPointerGetBlockNumber_ok; by apply (dl_tid _ _ _ _ _ _ Hok). }
          destruct (mem s0 !! p) eqn:Ep; [|done]. exfalso. pose proof (lookup_weaken _ _ _ _ Ep (proj1 Hs)) as Hp.
          unfold p in Hp. by rewrite palloc_fresh in Hp. }
    destruct Himpl as (p & s' & E & Hext & Hp). exists p, s'. split_and!.
    + rewrite (M_bind_run _ _ _ _ _ E). rewrite (M_bind_run _ _ s' d s') by done. by rewrite Hdist.
    + done.
    + rewrite Hdist. cbn [orb]. fold load. destruct load; [|done].
      destruct Hp as (Hnull & el & Hel & Hlf & Hx). split; [done|]. split; [done|]. split.
      * split; [done|]. split; [done|]. exists el, etup. done.
      * exists el. split; [done|]. simpl. rewrite He, (lf_level _ _ _ Hlf).
        by rewrite Z.leb_antisym, negb_involutive.
  - (* CountElement *)
    intros s c k Hs (Hk & _ & el & etup & Hel & He & Hlf & Hx). unfold CountElement. simpl.
    destruct (_ =? _)%N; [done|]. rewrite He. simpl.
    change (HnswPtrAccess NULL (sc_element c)) with (sc_element c).
    rewrite (M_bind_run _ _ s el s). 2: { unfold load_element. by rewrite Hel. }
    unfold el_heaptidsLength. by rewrite (lf_heaptids _ _ _ Hlf).
  - (* AddToVisited *)
    intros s c k v gv Hs (Hk & _ & el & etup & Hel & He & Hlf & Hx) ->.
    unfold AddToVisited. rewrite (M_bind_run _ _ s el s). 2: { unfold load_element. change (HnswPtrAccess NULL (sc_element c)) with (sc_element c). by rewrite Hel. }
    simpl. rewrite (lf_tid _ _ _ Hlf). eexists _, _. split; [reflexivity|]. done.
Defined.

Lemma disk_numeric k : k ∈ U -> numeric (g_distance G) k.
Proof using Hok.
  intros Hk. destruct (dl_element _ _ _ _ _ _ Hok k Hk) as (etup & ntup & d & He & _ & _ & _ & _ & Hd & Hnan).
  unfold numeric. simpl. unfold disk_distance. by rewrite He, Hd.
Qed.
End OnDisk.

#[export] Instance disk_view `{Palloc} q lc support m inserting skipElement s0 U (Hok : disk_layer_ok (index s0) q lc support m U) :
    LayerView (disk_graph (index s0) q lc support m skipElement) U NULL q lc false support m inserting skipElement s0 :=
  disk_view_with q lc support m inserting skipElement s0 U Hok (fun _ _ _ => True) (fun _ _ _ _ _ _ _ => I).

(** ** Properties of the layer search *)

Lemma search_layer_run `{Palloc} {K} `{Countable K} (G : SearchGraph K) (U : gset K)
    base q ef lc inMemory support m inserting skipElement s
    `{LV : !LayerView G U base q lc inMemory support m inserting skipElement s} fuel ep ks init tuples :
  (forall k, k ∈ U -> numeric (g_distance G) k) ->
  Forall2 (lv_cand (mem s)) ep ks -> ks <> [] -> NoDup ks -> (size U <= fuel)%nat ->
  exists w wk v V tuples' s',
    HnswSearchLayer base q ef lc inMemory support m inserting skipElement fuel ep None None init tuples s
      = Ok ((w, v, None, tuples'), s') /\
    search_step inMemory s s' /\ Forall2 (lv_cand (mem s')) w wk /\ search_result G ef U ks wk V.
Proof.
  intros Hnum Hep Hne Hnd Hfuel.
  assert (HU : forall k, k ∈ ks -> k ∈ U).
  { intros k Hk. apply list_elem_of_lookup in Hk as [i Hi].
    destruct (Forall2_lookup_r _ _ _ _ _ Hep Hi) as (c & _ & Hc). by eapply lv_cand_inside. }
  destruct (g_search_fresh G ef U lv_closed Hnum fuel ks None tuples Hne Hnd HU (or_introl eq_refl) Hfuel)
    as (wk & gs & Hg & Hres).
  pose proof (start_fresh G U base q lc inMemory support m inserting skipElement s s None None init
    (or_introl eq_refl)) as Hst.
  destruct (search_sim G U base q ef lc inMemory support m inserting skipElement s fuel s ep ks None None init
    true ∅ None tuples wk gs) as (w & v & d & s' & E & X & Hw & _ & Hd); try done.
  assert (d = None) as ->.
  { assert (Hn : gs_discarded gs = None); [|rewrite Hn in Hd; by inversion Hd].
    clear -Hg. unfold g_search in Hg. apply res_bind_ok in Hg as (s1 & Hl & Hg).
    apply res_bind_ok in Hg as (? & _ & [= _ <-]). eapply g_loop_none; [|exact Hl]. by apply fold_entry_none. }
  exists w, wk, v, (gs_visited gs), (gs_tuples gs), s'. done.
Qed.

(** C26: the layer search on elements in memory.  On a layer as the build
    maintains it, the hash of its pointer in every element ([PrecomputeHash])
    included, [HnswSearchLayer] ends without an error, whatever the number
    [ef], within as many expansions as there are elements, and changes nothing;
    it returns a result that is sorted from the furthest to the nearest,
    contains no element twice, has at most [max ef |ep|] elements, each at its
    distance from the query, and is a local optimum: every neighbor of a result
    was visited, and every visited element that is not returned is at least as
    far as all results, of which there are then at least [ef]. *)
Theorem HnswSearchLayer_memory `{Palloc} base q ef lc support m inserting skipElement (s : Backend) U fuel ep init tuples :
  mem_layer_ok base q lc support m (mem s) U ->
  ep <> [] -> NoDup (sc_element <$> ep) ->
  Forall (fun c => sc_element c ∈ U /\ sc_distance c = mem_distance base q support (mem s) (sc_element c)) ep ->
  (size U <= fuel)%nat ->
  exists w v V tuples',
    HnswSearchLayer base q ef lc true support m inserting skipElement fuel ep None None init tuples s
      = Ok ((w, v, None, tuples'), s) /\
    Forall (fun c => sc_distance c = mem_distance base q support (mem s) (sc_element c)) w /\
    search_result (mem_graph base q lc support skipElement (mem s)) ef U (sc_element <$> ep) (sc_element <$> w) V.
Proof.
  intros Hok Hne Hnd Hep Hfuel.
  destruct (search_layer_run (mem_graph base q lc support skipElement (mem s)) U base q ef lc true support m
    inserting skipElement s (LV := mem_view base q lc support m inserting skipElement s U Hok)
    fuel ep (sc_element <$> ep) init tuples)
    as (w & wk & v & V & t & s' & E & X & Hw & Hres).
  - by eapply mem_numeric.
  - apply Forall2_fmap_r, Forall_Forall2_diag. eapply List.Forall_impl; [|exact Hep].
    intros c [Hc Hd]. split_and!; done.
  - by destruct ep.
  - done.
  - done.
  - simpl in X. subst s'. exists w, v, V, t.
    assert (wk = sc_element <$> w) as ->.
    { clear -Hw. induction Hw as [|c k w wk (Hc & _) _ IH]; simpl; [done|]. by rewrite Hc, IH. }
    split_and!; [done| |done]. clear -Hw. induction w as [|c w IH]; [constructor|].
    rewrite fmap_cons in Hw. inversion Hw as [|? ? ? ? Hc Hw']; subst. destruct Hc as (_ & _ & Hd).
    constructor; auto.
Qed.

(** The search on the pages of an index. *)
Lemma search_layer_disk_run `{Palloc} q ef lc support m inserting skipElement (s : Backend) U fuel ep ks init tuples :
  disk_layer_ok (index s) q lc support m U ->
  Forall2 (disk_cand q lc support m skipElement s U (mem s)) ep ks ->
  ks <> [] -> NoDup ks -> (size U <= fuel)%nat ->
  exists w wk v V tuples' s',
    HnswSearchLayer NULL q ef lc false support m inserting skipElement fuel ep None None init tuples s
      = Ok ((w, v, None, tuples'), s') /\
    extends s s' /\
    Forall2 (disk_cand q lc support m skipElement s U (mem s')) w wk /\
    search_result (disk_graph (index s) q lc support m skipElement) ef U ks wk V.
Proof.
  intros Hok Hep Hne Hnd Hfuel.
  destruct (search_layer_run (disk_graph (index s) q lc support m skipElement) U NULL q ef lc false support m
    inserting skipElement s (LV := disk_view q lc support m inserting skipElement s U Hok)
    fuel ep ks init tuples) as (w & wk & v & V & t & s' & E & X & Hw & Hres); try done.
  - by eapply disk_numeric.
  - exists w, wk, v, V, t, s'. done.
Qed.

(** C8: the layer search on the pages of an index.  On a layer as the index
    maintains it, the search ends without an error within as many expansions as
    there are elements; it allocates elements and changes nothing else; its
    result stands for TIDs of element tuples, each loaded from its tuple and at
    its distance from the query, and has the properties of the in-memory
    search: sorted, no TID twice, bounded length, a local optimum. *)
Theorem HnswSearchLayer_disk `{Palloc} q ef lc support m inserting skipElement (s : Backend) U fuel ep ks init tuples :
  disk_layer_ok (index s) q lc support m U ->
  Forall2 (disk_cand q lc support m skipElement s U (mem s)) ep ks ->
  ks <> [] -> NoDup ks -> (size U <= fuel)%nat ->
  exists w wk v V tuples' s',
    HnswSearchLayer NULL q ef lc false support m inserting skipElement fuel ep None None init tuples s
      = Ok ((w, v, None, tuples'), s') /\
    extends s s' /\
    Forall2 (disk_cand q lc support m skipElement s U (mem s')) w wk /\
    search_result (disk_graph (index s) q lc support m skipElement) ef U ks wk V.
Proof. apply search_layer_disk_run. Qed.

(** C27: the search is exact when [ef] leaves room for every element of the
    layer: every TID that can be reached from an entry point along neighbor
    tuples is returned, and the last one returned is a nearest of them. *)
Theorem HnswSearchLayer_exact `{Palloc} q ef lc support m inserting (s : Backend) U fuel ep ks init tuples :
  disk_layer_ok (index s) q lc support m U ->
  Forall2 (disk_cand q lc support m NULL s U (mem s)) ep ks ->
  ks <> [] -> NoDup ks -> (size U <= fuel)%nat -> Z.of_nat (size U) <= ef ->
  exists w wk v tuples' s',
    HnswSearchLayer NULL q ef lc false support m inserting NULL fuel ep None None init tuples s
      = Ok ((w, v, None, tuples'), s') /\
    Forall2 (disk_cand q lc support m NULL s U (mem s')) w wk /\
    forall e k, e ∈ ks -> rtc (fun a b => b ∈ disk_neighbors (index s) m lc a) e k ->
      k ∈ wk /\ exists w0 nearest, wk = w0 ++ [nearest] /\
        dle (disk_distance (index s) q support nearest) (disk_distance (index s) q support k).
Proof.
  intros Hok Hep Hne Hnd Hfuel Hef.
  set (G := disk_graph (index s) q lc support m NULL).
  destruct (search_layer_run G U NULL q ef lc false support m inserting NULL s
    (LV := disk_view q lc support m inserting NULL s U Hok)
    fuel ep ks init tuples) as (w & wk & v & V & t & s' & E & X & Hw & Hres); try done.
  { by eapply disk_numeric. }
  exists w, wk, v, t, s'. split; [done|]. split; [exact Hw|]. intros e k He Hk.
  assert (Hin : k ∈ wk).
  { eapply (search_result_exact G ef U ks wk V Hres); [by intros ? ?| |done|exact He|exact Hk].
    intros k' Hk'. simpl. destruct (dl_element _ _ _ _ _ _ Hok k' Hk') as (etup & _ & _ & -> & Hl & _).
    by apply Z.leb_le. }
  split; [done|]. pose proof (sr_nonempty _ _ _ _ _ _ Hres) as Hwne.
  destruct wk as [|n0 wk0 _] using rev_ind; [done|]. exists wk0, n0. split; [done|].
  pose proof (sr_sorted _ _ _ _ _ _ Hres) as Hs. unfold furthest_first in Hs.
  apply elem_of_app in Hin as [Hin|Hin].
  - apply (StronglySorted_app_1_elem_of _ _ _ k n0 Hs); [done|by left].
  - apply list_elem_of_singleton in Hin as ->. apply dle_refl.
Qed.

(** C33: with [ef] at most 1, in particular with the value 0 of the
    uninitialised [hnsw_ef_search], a search from one entry point returns
    exactly one element, however many elements the layer has. *)
Theorem HnswSearchLayer_ef_one `{Palloc} q ef support m inserting (s : Backend) U fuel e k init tuples :
  disk_layer_ok (index s) q 0 support m U ->
  disk_cand q 0 support m NULL s U (mem s) e k -> (size U <= fuel)%nat -> ef <= 1 ->
  exists r v tuples' s',
    HnswSearchLayer NULL q ef 0 false support m inserting NULL fuel [e] None None init tuples s
      = Ok (([r], v, None, tuples'), s').
Proof.
  intros Hok He Hfuel Hef. set (G := disk_graph (index s) q 0 support m NULL).
  destruct (search_layer_run G U NULL q ef 0 false support m inserting NULL s
    (LV := disk_view q 0 support m inserting NULL s U Hok)
    fuel [e] [k] init tuples) as (w & wk & v & V & t & s' & E & X & Hw & Hres); try done.
  { by eapply disk_numeric. }
  { constructor; [exact He|constructor]. }
  { apply NoDup_singleton. }
  destruct (search_result_single G ef U k wk V Hres) as [r ->]; [by intros ? ?|done|].
  inversion Hw as [|c ? w0 ? Hc Hw0]; subst. inversion Hw0; subst. by exists c, v, t, s'.
Qed.

(** ** Witnesses: an index of two elements, and the same graph in memory *)

Definition sample_support : HnswSupport := mkHnswSupport vector_l2_distance None.
Definition value1 : Vector := v1_5.
Definition value2 : Vector := with_x (InitVector 1) [f2_0].
Definition sample_query : HnswQuery := mkHnswQuery (Some value1).

Definition tid1 : ItemPointerData := ItemPointerSet 1 1.
Definition tid2 : ItemPointerData := ItemPointerSet 1 3.
Definition sample_etup (offno : Z) (v : Vector) : HnswTuple :=
  ElementTuple (mkHnswElementTuple 0 0 1 (ItemPointerSet 7 offno :: replicate 9 ItemPointerSetInvalid)
    (ItemPointerSet 1 (offno + 1)) 0 v).
Definition sample_neighbors (t : ItemPointerData) : HnswTuple :=
  NeighborTuple (mkHnswNeighborTuple 1 4 (t :: replicate 3 ItemPointerSetInvalid)).

Definition sample_page : Page :=
  page_with (page_with (page_with (page_with HnswInitPage (sample_etup 1 value1) 88)
    (sample_neighbors tid2) 32) (sample_etup 3 value2) 88) (sample_neighbors tid1) 32.
Definition sample_meta : Page :=
  set_contents (mkHnswMetaPage HNSW_MAGIC_NUMBER HNSW_VERSION 1 2 64 1 1 0 1) HnswInitPage.
Definition sample_relation : Relation :=
  mkRelation [sample_meta; sample_page] [] (Some (mkHnswOptions 2 64)) 1 true sample_support None.

(** The first element, loaded as an entry point, is at address 1. *)
Definition sample_element : HnswElementData :=
  mkHnswElement NULL [ItemPointerSet 7 1] 0 0 1 0 None 1 1 2 1 (Some value1).
Definition sample_state : Backend := mkBackend {[ 1%N := sample_element ]} sample_relation None.
Definition sample_entry : HnswSearchCandidate := mkHnswSearchCandidate 1%N dzero.
Definition sample_U : gset ItemPointerData := {[ tid1; tid2 ]}.

Lemma sample_layer_ok : disk_layer_ok sample_relation sample_query 0 sample_support 2 sample_U.
Proof.
  split.
  - by vm_compute.
  - unfold sample_U. intros k [Hk | Hk]%elem_of_union; apply elem_of_singleton in Hk as ->;
      apply ItemPointerSet_ok; by vm_compute.
  - assert (Hn : forall t, t ∈ [tid1; tid2] -> t ∈ sample_U).
    { unfold sample_U. intros t Ht.
      apply elem_of_cons in Ht as [-> | Ht]; [set_solver|]. apply list_elem_of_singleton in Ht as ->. set_solver. }
    unfold sample_U at 1. intros k [Hk | Hk]%elem_of_union; apply elem_of_singleton in Hk as ->;
      (eexists _, _, _; split; [vm_compute; reflexivity|]; split; [done|];
       split; [vm_compute; reflexivity|]; split; [by vm_compute|];
       split; [|split; [vm_compute; reflexivity|done]]; intros _; split; [by vm_compute|];
       intros k' Hk'; apply Hn; revert Hk'; vm_compute valid_prefix; set_solver).
Qed.

Lemma sample_cand skip : disk_cand sample_query 0 sample_support 2 skip sample_state sample_U (mem sample_state) sample_entry tid1.
Proof.
  split; [apply elem_of_union; left; by apply elem_of_singleton|]. split; [by vm_compute|].
  eexists _, _. split; [reflexivity|]. split; [vm_compute; reflexivity|]. split; by vm_compute.
Qed.

(** The result of a run, without the state. *)
Definition result_of {S A} (r : res (A * S)) : option A := match r with Ok (a, _) => Some a | Err _ => None end.

Example sample_search :
  (fun r => r.1.1.1) <$> result_of (HnswSearchLayer (H := sample_palloc) NULL sample_query 64 0 false sample_support 2
    true NULL 2 [sample_entry] None None true None sample_state) =
  Some [mkHnswSearchCandidate 2%N (S754_finite false 4503599627370496 (-53)); sample_entry].
Proof. vm_compute. reflexivity. Qed.

Lemma HnswSearchLayer_disk_witness :
  exists w wk v V tuples' s',
    HnswSearchLayer (H := sample_palloc) NULL sample_query 64 0 false sample_support 2 true NULL 2 [sample_entry]
      None None true None sample_state = Ok ((w, v, None, tuples'), s') /\
    extends sample_state s' /\
    Forall2 (disk_cand sample_query 0 sample_support 2 NULL sample_state sample_U (mem s')) w wk /\
    search_result (disk_graph sample_relation sample_query 0 sample_support 2 NULL) 64 sample_U [tid1] wk V.
Proof.
  apply (HnswSearchLayer_disk (H := sample_palloc) sample_query 64 0 sample_support 2 true NULL sample_state sample_U 2
    [sample_entry] [tid1] true None sample_layer_ok); [| done | apply NoDup_singleton | by vm_compute].
  constructor; [apply sample_cand | constructor].
Defined.

Lemma HnswSearchLayer_exact_witness :
  exists w wk v tuples' s',
    HnswSearchLayer (H := sample_palloc) NULL sample_query 64 0 false sample_support 2 true NULL 2 [sample_entry]
      None None true None sample_state = Ok ((w, v, None, tuples'), s') /\
    Forall2 (disk_cand sample_query 0 sample_support 2 NULL sample_state sample_U (mem s')) w wk /\
    forall e k, e ∈ [tid1] -> rtc (fun a b => b ∈ disk_neighbors sample_relation 2 0 a) e k ->
      k ∈ wk /\ exists w0 nearest, wk = w0 ++ [nearest] /\
        dle (disk_distance sample_relation sample_query sample_support nearest)
            (disk_distance sample_relation sample_query sample_support k).
Proof.
  apply (HnswSearchLayer_exact (H := sample_palloc) sample_query 64 0 sample_support 2 true sample_state sample_U 2
    [sample_entry] [tid1] true None sample_layer_ok);
    [| done | apply NoDup_singleton | by vm_compute | by vm_compute].
  constructor; [apply sample_cand | constructor].
Defined.

(** With the value 0 of [hnsw_ef_search] the second element is not found. *)
Lemma HnswSearchLayer_ef_one_witness :
  exists r v tuples' s',
    HnswSearchLayer (H := sample_palloc) NULL sample_query 0 0 false sample_support 2 false NULL 2 [sample_entry]
      None None true None sample_state = Ok (([r], v, None, tuples'), s').
Proof.
  apply (HnswSearchLayer_ef_one (H := sample_palloc) sample_query 0 sample_support 2 false sample_state sample_U 2
    sample_entry tid1 true None sample_layer_ok (sample_cand NULL)); [by vm_compute | lia].
Defined.

Definition mem_sample (self next : addr) (v : Vector) : HnswElementData :=
  mkHnswElement NULL [ItemPointerSet 7 1] 0 0 1 (key_hash NULL self)
    (Some [mkHnswNeighborArray false [mkHnswCandidate next f2_0 false]]) 0 0 0 0 (Some v).
Definition mem_state : Backend :=
  mkBackend {[ 1%N := mem_sample 1%N 2%N value1; 2%N := mem_sample 2%N 1%N value2 ]} sample_relation None.

Lemma mem_sample_ok :
  mem_layer_ok NULL sample_query 0 sample_support 2 (mem mem_state) {[ 1%N; 2%N ]}.
Proof.
  split; intros k; [| |intros el]; intros [Hk | Hk]%elem_of_union; apply elem_of_singleton in Hk as ->; try done;
    try (by intros [= <-]).
  all: eexists _, _, _; split; [reflexivity|]; split; [done|]; split; [reflexivity|]; split; [by vm_compute|];
    (split; [|split; [vm_compute; reflexivity|done]]);
    intros hc Hhc; apply list_elem_of_singleton in Hhc as ->; set_solver.
Qed.

Lemma HnswSearchLayer_memory_witness :
  exists w v V tuples',
    HnswSearchLayer (H := sample_palloc) NULL sample_query 64 0 true sample_support 2 true NULL 2
      [mkHnswSearchCandidate 1%N dzero] None None true None mem_state = Ok ((w, v, None, tuples'), mem_state) /\
    Forall (fun c => sc_distance c = mem_distance NULL sample_query sample_support (mem mem_state) (sc_element c)) w /\
    search_result (mem_graph NULL sample_query 0 sample_support NULL (mem mem_state)) 64 {[ 1%N; 2%N ]}
      [1%N] (sc_element <$> w) V.
Proof.
  apply (HnswSearchLayer_memory (H := sample_palloc) NULL sample_query 64 0 sample_support 2 true NULL mem_state
    {[ 1%N; 2%N ]} 2 [mkHnswSearchCandidate 1%N dzero] true None mem_sample_ok);
    [done | apply NoDup_singleton | | by vm_compute].
  constructor; [|constructor]. split; [set_solver|by vm_compute].
Defined.
