(* ===== verification/PageUpdate.v ===== *)
(** * Updates of one page

    Every update of the index opens a page, reads it, writes it and commits: on
    the shared buffer while building, through an image and a log record
    otherwise.  The two ways have the same effect; the lemmas give it once for
    both. *)

From S2P Require Import Prelude ItemPtr HnswData BufPage Backend HnswUtils LayerRefinement.

(** ** Single steps *)

Lemma load_element_run s p e : mem s !! p = Some e -> load_element p s = Ok (e, s).
Proof. intros H. unfold load_element. by rewrite H. Qed.

Lemma ReadBuffer_run s b p : block (rd_main (index s)) b = Some p -> ReadBuffer b s = Ok (b, s).
Proof. intros H. unfold ReadBuffer, ReadBufferFork. simpl. by rewrite H. Qed.

Lemma get_tuple_run s p off tup : page_tuple p off = Ok tup -> get_tuple p off s = Ok (tup, s).
Proof. intros H. unfold get_tuple. by apply lift_res_run. Qed.

(** ** Items in place *)

Lemma PageGetItemId_lookup p off it : PageGetItemId p off = Ok it <->
  1 <= off /\ pd_linp p !! Z.to_nat (off - 1) = Some it.
Proof.
  unfold PageGetItemId. destruct (Z.ltb_spec off 1); [split; [done|lia]|].
  destruct (pd_linp p !! Z.to_nat (off - 1)); simpl; split; intros Hx; [split; [lia|congruence]|by destruct Hx as [_ [= ->]]|done|naive_solver].
Qed.

Lemma page_tuple_lookup p off tup : page_tuple p off = Ok tup <->
  exists it, 1 <= off /\ pd_linp p !! Z.to_nat (off - 1) = Some it /\ lp_item it = Some tup.
Proof.
  unfold page_tuple. split.
  - intros H. apply res_bind_ok in H as (it & H1 & H2). apply PageGetItemId_lookup in H1 as [Ho Hl].
    exists it. split; [done|]. split; [done|]. unfold PageGetItem in H2. destruct (lp_item it); simpl in H2; congruence.
  - intros (it & Ho & Hl & Hi). rewrite (proj2 (PageGetItemId_lookup p off it)) by done. simpl. unfold PageGetItem. by rewrite Hi.
Qed.

Lemma PageSetItem_same p off old tup : page_tuple p off = Ok old -> page_tuple (PageSetItem p off tup) off = Ok tup.
Proof.
  intros H. apply page_tuple_lookup in H as (it & Ho & Hl & _). apply page_tuple_lookup.
  exists (set_item tup it). split; [done|]. split; [|done]. simpl. by rewrite list_lookup_alter_eq, Hl.
Qed.

Lemma PageSetItem_other p off off' tup : off <> off' -> 1 <= off ->
  page_tuple (PageSetItem p off tup) off' = page_tuple p off'.
Proof.
  intros Hne Ho. unfold page_tuple, PageGetItemId. destruct (Z.ltb_spec off' 1); [done|]. simpl.
  by rewrite list_lookup_alter_ne by lia.
Qed.

(** The fields of the page that a store into an item does not change. *)
Lemma PageSetItem_lookup p off tup i : pd_linp (PageSetItem p off tup) !! i =
  (fun it => if decide (i = Z.to_nat (off - 1)) then set_item tup it else it) <$> pd_linp p !! i.
Proof.
  simpl. destruct (decide (i = Z.to_nat (off - 1))) as [->|Hne]; [by rewrite list_lookup_alter_eq|].
  rewrite list_lookup_alter_ne by done. by destruct (pd_linp p !! i).
Qed.

Lemma PageSetItem_ok p off tup : page_ok p -> page_ok (PageSetItem p off tup).
Proof.
  intros [H1 H2 H3 H4 H5 H6 H7 H8]. split; try done; [by simpl; rewrite length_alter| |].
  - apply list.Forall_lookup. intros i it. rewrite PageSetItem_lookup. intros (it0 & Hit & ->)%fmap_Some.
    pose proof (list.Forall_lookup_1 _ _ _ _ H7 Hit) as Hok. case_decide; [|exact Hok].
    destruct Hok as (? & ? & ? & ? & ? & ?). split_and!; try done.
  - intros i j a b Hij. rewrite !PageSetItem_lookup.
    intros (a0 & Ha & ->)%fmap_Some (b0 & Hb & ->)%fmap_Some. specialize (H8 i j a0 b0 Hij Ha Hb).
    by repeat case_decide.
Qed.

(** ** One page of a fork *)

Definition update_block (forkNum : ForkNumber) (blkno : BlockNumber) (p : Page) (s : Backend) : Backend :=
  with_index s (with_pages (index s) forkNum (<[Z.to_nat blkno := p]> (rd_pages (index s) forkNum))).

Lemma rd_pages_with rel fork pages : rd_pages (with_pages rel fork pages) fork = pages.
Proof. by destruct fork. Qed.

Lemma with_pages_twice rel fork pages pages' : with_pages (with_pages rel fork pages) fork pages' = with_pages rel fork pages'.
Proof. by destruct fork. Qed.

Lemma with_pages_id rel fork : with_pages rel fork (rd_pages rel fork) = rel.
Proof. by destruct rel, fork. Qed.

Lemma block_lookup pages b p : block pages b = Some p <-> 0 <= b /\ pages !! Z.to_nat b = Some p.
Proof. unfold block. destruct (Z.ltb_spec b 0); split; intros; [done|lia|done|tauto]. Qed.

Lemma block_insert pages b b' p p' : block pages b = Some p' ->
  block (<[Z.to_nat b := p]> pages) b' = if decide (b' = b) then Some p else block pages b'.
Proof.
  intros [Hb Hl]%block_lookup. unfold block. destruct (Z.ltb_spec b' 0); case_decide; subst; try done; [lia|..].
  - apply list_lookup_insert_eq. by eapply lookup_lt_Some.
  - apply list_lookup_insert_ne. lia.
Qed.

Lemma update_block_twice fork b p p' s : update_block fork b p' (update_block fork b p s) = update_block fork b p' s.
Proof.
  unfold update_block, with_index. simpl. by rewrite rd_pages_with, with_pages_twice, list_insert_insert_eq.
Qed.

Lemma update_block_id fork b p s : block (rd_pages (index s) fork) b = Some p -> update_block fork b p s = s.
Proof.
  intros [_ Hl]%block_lookup. unfold update_block. rewrite list_insert_id by done. rewrite with_pages_id. by destruct s.
Qed.

Lemma update_block_block fork b b' p p' s : block (rd_pages (index s) fork) b = Some p' ->
  block (rd_pages (index (update_block fork b p s)) fork) b' =
  if decide (b' = b) then Some p else block (rd_pages (index s) fork) b'.
Proof. intros Hb. unfold update_block. simpl. rewrite rd_pages_with. by eapply block_insert. Qed.

(** ** An open page *)

Definition page_ref (building : bool) (b : BlockNumber) : PageRef :=
  if building then BufferPage b else ImagePage b.

(** The state while [b], which now reads [p], is open in a run that started in [s]. *)
Definition opened (fork : ForkNumber) (building : bool) (b : BlockNumber) (p : Page) (s : Backend) : Backend :=
  if building then update_block fork b p s
  else with_xlog s (Some (mkXLogState (rd_needs_wal (index s)) [(b, p)])).

Section OpenPage.
Context (fork : ForkNumber) (building : bool) (b : BlockNumber) (p0 : Page) (s : Backend).
Context (Hx : xlog s = None) (Hb : block (rd_pages (index s) fork) b = Some p0).

Lemma mem_opened p : mem (opened fork building b p s) = mem s.
Proof. by destruct building. Qed.

Lemma ReadBufferFork_run : ReadBufferFork fork b s = Ok (b, s).
Proof. unfold ReadBufferFork. by rewrite Hb. Qed.

Lemma open_page_run : open_page fork building b s = Ok (page_ref building b, opened fork building b p0 s).
Proof.
  unfold open_page, page_ref, opened. destruct building; [by rewrite update_block_id|].
  unfold GenericXLogStart, GenericXLogRegisterBuffer, mbind, M_bind. simpl. by rewrite Hb.
Qed.

Lemma read_page_run p : read_page fork (page_ref building b) (opened fork building b p s) = Ok (p, opened fork building b p s).
Proof.
  unfold read_page, page_ref, opened. destruct building; simpl.
  - rewrite rd_pages_with, (block_insert _ _ _ _ _ Hb). by rewrite decide_True.
  - by rewrite decide_True.
Qed.

Lemma write_page_run p p' : write_page fork (page_ref building b) p' (opened fork building b p s) =
  Ok (tt, opened fork building b p' s).
Proof.
  unfold write_page, page_ref, opened. destruct building; simpl.
  - rewrite rd_pages_with, (block_insert _ _ _ _ _ Hb), decide_True by done.
    unfold update_block, with_index. simpl. by rewrite with_pages_twice, list_insert_insert_eq.
  - by rewrite decide_True.
Qed.

Lemma commit_page_run p : commit_page fork building (opened fork building b p s) = Ok (tt, update_block fork b p s).
Proof.
  unfold commit_page, opened. destruct building; [done|]. unfold GenericXLogFinish. simpl.
  unfold update_block, with_index. by rewrite <- Hx.
Qed.

Lemma abort_page_run : abort_page building (opened fork building b p0 s) = Ok (tt, s).
Proof.
  unfold abort_page, opened. destruct building; [by rewrite update_block_id|].
  unfold GenericXLogAbort, with_xlog. simpl. rewrite <- Hx. by destruct s.
Qed.
End OpenPage.

(** ** Several open pages *)

(** The images of a record, or the pages changed on the buffers. *)
Record images_ok (pages : list Page) (l : list (BlockNumber * Page)) : Prop := {
  im_nodup : NoDup l.*1;
  im_range : Forall (fun x => 0 <= x.1 < Z.of_nat (length pages)) l
}.

Lemma images_ok_cons pages b p l : images_ok pages ((b, p) :: l) <->
  (b ∉ l.*1) /\ 0 <= b < Z.of_nat (length pages) /\ images_ok pages l.
Proof.
  split.
  - intros [Hn Hr]. rewrite fmap_cons in Hn. apply list.NoDup_cons in Hn as [H1 H2]. inversion Hr; subst. done.
  - intros (H1 & H2 & H3 & H4). split; [rewrite fmap_cons; by apply list.NoDup_cons|by constructor].
Qed.

Lemma length_apply_images l pages : length (apply_images l pages) = length pages.
Proof.
  unfold apply_images. revert pages. induction l as [|x l IH]; intros pages; simpl; [done|]. by rewrite IH, length_insert.
Qed.

Lemma images_ok_length pages pages' l : length pages' = length pages -> images_ok pages l -> images_ok pages' l.
Proof. intros Hl [H1 H2]. split; [done|]. by rewrite Hl. Qed.

Lemma apply_images_insert l pages b p : images_ok pages ((b, p) :: l) ->
  apply_images l (<[Z.to_nat b := p]> pages) = <[Z.to_nat b := p]> (apply_images l pages).
Proof.
  unfold apply_images. revert pages. induction l as [|[b' p'] l IH]; intros pages Hok; [done|]. simpl.
  apply images_ok_cons in Hok as (Hb & Hr & Hok). apply images_ok_cons in Hok as (Hb' & Hr' & Hok).
  rewrite fmap_cons, not_elem_of_cons in Hb. destruct Hb as [Hne Hb]. simpl in Hne.
  rewrite list_insert_insert_ne by lia. apply IH.
  apply images_ok_cons. rewrite length_insert. split; [done|]. split; [done|].
  by apply (images_ok_length pages); [apply length_insert|].
Qed.

Lemma apply_images_app l pages p : images_ok pages l -> apply_images l (pages ++ [p]) = apply_images l pages ++ [p].
Proof.
  unfold apply_images. revert pages. induction l as [|[b' p'] l IH]; intros pages Hok; [done|]. simpl.
  apply images_ok_cons in Hok as (_ & Hr & Hok). rewrite insert_app_l by lia. apply IH.
  by apply (images_ok_length pages); [apply length_insert|].
Qed.

(** The image of a block, and its page after the images are applied. *)
Fixpoint image (l : list (BlockNumber * Page)) (b : BlockNumber) : option Page :=
  match l with
  | [] => None
  | (b', p) :: l' => if decide (b' = b) then Some p else image l' b
  end.
Definition image_or (l : list (BlockNumber * Page)) (pages : list Page) (b : BlockNumber) : option Page :=
  match image l b with Some p => Some p | None => block pages b end.

Lemma image_or_cons b' p l pages b : image_or ((b', p) :: l) pages b = if decide (b' = b) then Some p else image_or l pages b.
Proof. unfold image_or. simpl. by case_decide. Qed.

Lemma list_find_image l b : list_find (fun x => x.1 = b) l = None <-> image l b = None.
Proof.
  induction l as [|[b' p] l IH]; simpl; [done|]. case_decide; [done|]. rewrite <- IH.
  destruct (list_find _ l) as [[]|]; done.
Qed.

Lemma image_list_find l b p : image l b = Some p -> exists n, list_find (fun x => x.1 = b) l = Some (n, (b, p)).
Proof.
  induction l as [|[b' p'] l IH]; simpl; [done|]. case_decide as Hd; [intros [= ->]; subst b'; by exists 0%nat|].
  intros (n & Hn)%IH. exists (S n). by rewrite Hn.
Qed.

Lemma image_elem l b : is_Some (image l b) <-> b ∈ l.*1.
Proof.
  induction l as [|[b' p'] l IH]; simpl; [split; [by intros []|by intros ?%elem_of_nil]|].
  rewrite elem_of_cons. case_decide; naive_solver.
Qed.

Lemma block_apply_images l pages b : images_ok pages l -> block (apply_images l pages) b = image_or l pages b.
Proof.
  induction l as [|[b' p] l IH]; intros Hok; [done|]. apply images_ok_cons in Hok as Hok'. destruct Hok' as (Hb & Hr & Hok').
  unfold apply_images. simpl. fold (apply_images l (<[Z.to_nat b' := p]> pages)).
  rewrite apply_images_insert by done. rewrite image_or_cons.
  destruct (lookup_lt_is_Some_2 (apply_images l pages) (Z.to_nat b') ltac:(rewrite length_apply_images; lia)) as [q Hq].
  rewrite (block_insert _ _ _ _ q) by (apply block_lookup; split; [lia|done]). rewrite <- IH by done. repeat case_decide; congruence.
Qed.

Lemma set_image_other b p l : b ∉ l.*1 -> set_image b p l = l.
Proof.
  intros Hb. unfold set_image. rewrite <- (list_fmap_id l) at 2. apply list_fmap_ext. intros i [b' p'] Hi. simpl.
  rewrite decide_False; [done|]. intros ->. apply Hb. apply list_elem_of_lookup_2 in Hi. by apply (list_elem_of_fmap_2' fst l (b, p') b).
Qed.

Lemma set_image_fst b p l : (set_image b p l).*1 = l.*1.
Proof. unfold set_image. rewrite <- list_fmap_compose. apply list_fmap_ext. intros i [b' p'] _. simpl. case_decide; simpl; congruence. Qed.

Lemma image_set_same l b p q : image l b = Some q -> image (set_image b p l) b = Some p.
Proof.
  induction l as [|[b' p'] l IH]; [done|]. unfold set_image. rewrite fmap_cons. fold (set_image b p l).
  simpl. destruct (decide (b' = b)) as [->|Hne]; simpl; [by rewrite decide_True|]. by rewrite decide_False.
Qed.

Lemma image_set_other l b b' p : b' <> b -> image (set_image b p l) b' = image l b'.
Proof.
  intros Hb. induction l as [|[c q] l IH]; [done|]. unfold set_image. rewrite fmap_cons. fold (set_image b p l).
  simpl. destruct (decide (c = b)) as [->|Hne]; simpl; [by rewrite !decide_False|]. by rewrite IH.
Qed.

Lemma set_image_twice b p p' l : set_image b p (set_image b p' l) = set_image b p l.
Proof.
  unfold set_image. rewrite <- list_fmap_compose. apply list_fmap_ext. intros i [c q] _. simpl.
  destruct (decide (c = b)) as [->|Hne]; simpl; [by rewrite decide_True|by rewrite decide_False].
Qed.

Lemma set_image_ok pages b p l : images_ok pages l -> images_ok pages (set_image b p l).
Proof.
  intros [H1 H2]. split; [by rewrite set_image_fst|]. unfold set_image. apply list.Forall_fmap.
  eapply List.Forall_impl; [|exact H2]. intros [b' p'] Hr. simpl in *. case_decide; subst; done.
Qed.

Lemma apply_set_image b p l pages : images_ok pages l -> b ∈ l.*1 ->
  apply_images (set_image b p l) pages = <[Z.to_nat b := p]> (apply_images l pages).
Proof.
  revert pages. induction l as [|[b' p'] l IH]; intros pages Hok Hb; [by apply elem_of_nil in Hb|].
  apply images_ok_cons in Hok as Hok'. destruct Hok' as (Hb' & Hr & Hok').
  unfold set_image. rewrite fmap_cons. fold (set_image b p l). cbn [fst]. unfold apply_images at 1 2. cbn [fold_left].
  fold (apply_images l (<[Z.to_nat b' := p']> pages)). destruct (decide (b' = b)) as [->|Hne]; cbn [fst snd].
  - rewrite set_image_other by done. fold (apply_images l (<[Z.to_nat b := p]> pages)).
    assert (images_ok pages ((b, p) :: l)) by (by apply images_ok_cons).
    rewrite !apply_images_insert by done. by rewrite list_insert_insert_eq.
  - fold (apply_images (set_image b p l) (<[Z.to_nat b' := p']> pages)).
    rewrite fmap_cons, elem_of_cons in Hb. destruct Hb as [->|Hb]; [done|]. apply IH; [|done].
    by apply (images_ok_length pages); [apply length_insert|].
Qed.

(** The state while the pages of [l] are open in a run that started in [s]. *)
Definition commit_state (fork : ForkNumber) (l : list (BlockNumber * Page)) (s : Backend) : Backend :=
  with_index s (with_pages (index s) fork (apply_images l (rd_pages (index s) fork))).
Definition session (fork : ForkNumber) (building : bool) (l : list (BlockNumber * Page)) (s : Backend) : Backend :=
  if building then commit_state fork l s else with_xlog s (Some (mkXLogState (rd_needs_wal (index s)) l)).

Definition with_mem (m : gmap addr HnswElementData) (s : Backend) : Backend := mkBackend m (index s) (xlog s).
Definition extended (fork : ForkNumber) (s : Backend) : Backend :=
  with_index s (with_pages (index s) fork (rd_pages (index s) fork ++ [zero_page])).

Section Session.
Context (fork : ForkNumber) (building : bool) (l : list (BlockNumber * Page)) (s : Backend).
Context (Hx : xlog s = None) (Hok : images_ok (rd_pages (index s) fork) l).

Lemma mem_session : mem (session fork building l s) = mem s.
Proof. by destruct building. Qed.

Lemma session_with_mem m : with_mem m (session fork building l s) = session fork building l (with_mem m s).
Proof. by destruct building. Qed.

Lemma session_open b p : block (rd_pages (index s) fork) b = Some p ->
  open_page fork building b s = Ok (page_ref building b, session fork building [(b, p)] s).
Proof. intros Hb. rewrite (open_page_run fork building b p s Hb). by destruct building. Qed.

Lemma session_read b p : image l b = Some p ->
  read_page fork (page_ref building b) (session fork building l s) = Ok (p, session fork building l s).
Proof.
  intros Hb. unfold read_page, page_ref, session. destruct building; simpl.
  - rewrite rd_pages_with, block_apply_images by done. unfold image_or. by rewrite Hb.
  - destruct (image_list_find _ _ _ Hb) as [n ->]. done.
Qed.

Lemma session_read_other b p : image l b = None -> block (rd_pages (index s) fork) b = Some p ->
  read_page fork (BufferPage b) (session fork building l s) = Ok (p, session fork building l s).
Proof.
  intros Hb Hp. unfold read_page, session. destruct building; simpl; [|by rewrite Hp].
  rewrite rd_pages_with, block_apply_images by done. unfold image_or. by rewrite Hb, Hp.
Qed.

Lemma session_write b p : is_Some (image l b) ->
  write_page fork (page_ref building b) p (session fork building l s) = Ok (tt, session fork building (set_image b p l) s).
Proof.
  intros Hb. unfold write_page, page_ref, session. destruct building; simpl; [|done].
  rewrite rd_pages_with, block_apply_images by done. unfold image_or. destruct Hb as [q Hq]. rewrite Hq.
  unfold commit_state, with_index. simpl. rewrite with_pages_twice, apply_set_image; [done|done|]. apply image_elem. by eexists.
Qed.

Lemma session_register b p : image l b = None -> block (rd_pages (index s) fork) b = Some p -> (length l < 4)%nat ->
  (if building then mret (BufferPage b) else GenericXLogRegisterBuffer fork b) (session fork building l s) =
  Ok (page_ref building b, session fork building (l ++ [(b, p)]) s).
Proof.
  intros Hb Hp Hl. unfold session, page_ref. destruct building.
  - assert (block (apply_images l (rd_pages (index s) fork)) b = Some p) as Hblock
      by (rewrite block_apply_images by done; unfold image_or; by rewrite Hb).
    unfold commit_state. assert (apply_images (l ++ [(b, p)]) (rd_pages (index s) fork) = apply_images l (rd_pages (index s) fork)) as ->; [|done].
    unfold apply_images at 1. rewrite fold_left_app. simpl. apply list_insert_id. by apply block_lookup in Hblock as [_ ?].
  - unfold GenericXLogRegisterBuffer. simpl. rewrite (proj2 (list_find_image l b) Hb), Hp.
    destruct (Nat.ltb_spec (length (A := BlockNumber * Page) l) MAX_GENERIC_XLOG_PAGES) as [|Hge]; [done|unfold MAX_GENERIC_XLOG_PAGES in Hge; lia].
Qed.

Lemma session_register_ok b p : image l b = None -> block (rd_pages (index s) fork) b = Some p ->
  images_ok (rd_pages (index s) fork) (l ++ [(b, p)]).
Proof.
  intros Hb [H0 Hp]%block_lookup. destruct Hok as [H1 H2]. split.
  - rewrite fmap_app. apply list.NoDup_app. split_and!; [done| |apply NoDup_singleton].
    intros b' Hb' ->%list_elem_of_singleton. apply image_elem in Hb' as [? ?]. simpl in *. congruence.
  - apply Forall_app. split; [done|]. constructor; [|constructor]. simpl. apply lookup_lt_Some in Hp. lia.
Qed.

Lemma session_new : ReadBufferNew fork (session fork building l s) =
  Ok (Z.of_nat (length (rd_pages (index s) fork)), session fork building l (extended fork s)).
Proof.
  unfold ReadBufferNew, session, extended, commit_state. destruct building; simpl.
  - rewrite !rd_pages_with, length_apply_images. unfold with_index. simpl. by rewrite !with_pages_twice, apply_images_app.
  - unfold with_index, with_xlog. simpl. do 4 f_equal. by destruct fork.
Qed.

Lemma session_new_ok : images_ok (rd_pages (index (extended fork s)) fork) l.
Proof.
  unfold extended. simpl. rewrite rd_pages_with. destruct Hok as [H1 H2]. split; [done|].
  eapply List.Forall_impl; [|exact H2]. intros [b p] Hr. rewrite length_app. simpl in *. lia.
Qed.

Lemma session_ReadBuffer b p : block (rd_pages (index s) fork) b = Some p ->
  ReadBufferFork fork b (session fork building l s) = Ok (b, session fork building l s).
Proof.
  intros Hp. unfold ReadBufferFork, session. destruct building; simpl; [|by rewrite Hp].
  rewrite rd_pages_with, block_apply_images by done. unfold image_or. destruct (image l b); [done|]. by rewrite Hp.
Qed.

Lemma session_commit : commit_page fork building (session fork building l s) = Ok (tt, commit_state fork l s).
Proof.
  unfold commit_page, session. destruct building; [done|]. unfold GenericXLogFinish, commit_state, with_index. simpl. by rewrite <- Hx.
Qed.

Lemma session_modify e f el : mem s !! e = Some el ->
  modify_element e f (session fork building l s) = Ok (tt, session fork building l (with_mem (<[e := f el]> (mem s)) s)).
Proof.
  intros He. unfold modify_element. assert (mem (session fork building l s) !! e = Some el) as He' by (by rewrite mem_session).
  run (load_element_run _ _ _ He').
  unfold store_element. rewrite He'. by destruct building.
Qed.
End Session.

Lemma session_abort fork building b p s : xlog s = None -> block (rd_pages (index s) fork) b = Some p ->
  abort_page building (session fork building [(b, p)] s) = Ok (tt, s).
Proof. intros Hx Hb. rewrite <- (abort_page_run fork building b p s Hx Hb). by destruct building. Qed.

(** ** One tuple of the main fork *)

Lemma tuple_at_lookup rel b off tup : tuple_at rel b off = Some tup <->
  exists p, block (rd_main rel) b = Some p /\ page_tuple p off = Ok tup.
Proof.
  unfold tuple_at. destruct (block (rd_main rel) b) as [p|] eqn:E.
  - destruct (page_tuple p off) as [t|] eqn:Ep; split.
    + intros [= ->]. by exists p.
    + intros (p' & [= ->] & Hp). congruence.
    + done.
    + intros (p' & [= ->] & Hp). congruence.
  - split; [done|]. by intros (p & ? & _).
Qed.

(** The line pointer of an offset has this length. *)
Definition item_length (rel : Relation) (b : BlockNumber) (off : OffsetNumber) (n : Z) : Prop :=
  exists p it, block (rd_main rel) b = Some p /\ PageGetItemId p off = Ok it /\ ItemIdGetLength it = n.

(** The line pointers there were keep their lengths. *)
Definition items_kept (rel rel' : Relation) : Prop :=
  forall b off n, item_length rel b off n -> item_length rel' b off n.

#[export] Instance items_kept_preorder : PreOrder items_kept.
Proof. split; [by intros rel b off n|]. intros r1 r2 r3 H1 H2 b off n Hn. by apply H2, H1. Qed.

(** The effect of an operation that changes one tuple in place. *)
Record tuple_replaced (s s' : Backend) (b : BlockNumber) (off : OffsetNumber) (tup : HnswTuple) : Prop := {
  tr_mem : mem s' = mem s;
  tr_xlog : xlog s' = xlog s;
  tr_tuple : tuple_at (index s') b off = Some tup;
  tr_others b' off' : (b', off') <> (b, off) -> tuple_at (index s') b' off' = tuple_at (index s) b' off';
  tr_pages b' p' : block (rd_main (index s')) b' = Some p' -> exists p, block (rd_main (index s)) b' = Some p /\
    (page_ok p -> page_ok p') /\ pd_opaque p' = pd_opaque p /\ PageGetMaxOffsetNumber p' = PageGetMaxOffsetNumber p /\
    pd_contents p' = pd_contents p;
  tr_items : items_kept (index s) (index s');
  tr_length : length (rd_main (index s')) = length (rd_main (index s));
  tr_rel : index s' = with_pages (index s) MAIN_FORKNUM (rd_main (index s'))
}.

Lemma update_block_replaced s b p off old tup :
  block (rd_main (index s)) b = Some p -> page_tuple p off = Ok old ->
  tuple_replaced s (update_block MAIN_FORKNUM b (PageSetItem p off tup) s) b off tup.
Proof.
  intros Hb Hp. assert (forall b', block (rd_main (index (update_block MAIN_FORKNUM b (PageSetItem p off tup) s))) b' =
    if decide (b' = b) then Some (PageSetItem p off tup) else block (rd_main (index s)) b') as Hub
    by (intros b'; by apply (update_block_block MAIN_FORKNUM _ _ _ p)).
  apply page_tuple_lookup in Hp as Hp'. destruct Hp' as (it & Ho & _).
  split; try done.
  - unfold tuple_at. rewrite Hub, decide_True by done. by rewrite (PageSetItem_same _ _ old).
  - intros b' off' Hne. unfold tuple_at. rewrite Hub. case_decide as Hd; [|done]. subst b'.
    rewrite Hb, PageSetItem_other by (done || congruence). done.
  - intros b' p'. rewrite Hub. case_decide; [|naive_solver].
    intros [= <-]. subst b'. exists p. split; [done|]. split; [apply PageSetItem_ok|]. done.
  - intros c o n (q & it' & Hq & [H1 Hl]%PageGetItemId_lookup & Hn). destruct (decide (c = b)) as [->|Hne].
    + rewrite Hb in Hq. injection Hq as <-. eexists _, _. rewrite Hub, decide_True by done. split; [done|].
      rewrite PageGetItemId_lookup, PageSetItem_lookup, Hl. split; [split; [done|reflexivity]|]. rewrite <- Hn. by case_decide.
    + exists q, it'. rewrite Hub, decide_False, PageGetItemId_lookup by done. done.
  - simpl. by rewrite length_insert.
Qed.

(** A tuple is replaced by itself. *)
Lemma tuple_replaced_id s b off tup : tuple_at (index s) b off = Some tup -> tuple_replaced s s b off tup.
Proof. intros Ht. split; try done; [naive_solver|]. by destruct (index s). Qed.
