(* ===== verification/MetaPage.v ===== *)
(** * The metapage

    Reading and updating the metapage: the entry point of the graph and the
    insert page. *)

From S2P Require Import Prelude ItemPtr VectorType HnswData BufPage Backend HnswUtils LayerRefinement PageUpdate.

(** The metapage of a valid index. *)
Definition meta_ok (rel : Relation) (meta : HnswMetaPageData) : Prop :=
  exists p, block (rd_main rel) HNSW_METAPAGE_BLKNO = Some p /\ pd_contents p = meta /\ mp_magicNumber meta = HNSW_MAGIC_NUMBER.

Lemma HnswGetMetaPageInfo_run `{Palloc} s meta : meta_ok (index s) meta ->
  exists ep s', HnswGetMetaPageInfo s = Ok ((mp_m meta, ep), s') /\ extends s s' /\
    if BlockNumberIsValid (mp_entryBlkno meta)
    then ep <> NULL /\ mem s !! ep = None /\ exists el, mem s' !! ep = Some el /\ el_blkno el = mp_entryBlkno meta /\
      el_offno el = mp_entryOffno meta /\ el_level el = u8 (mp_entryLevel meta)
    else ep = NULL /\ s' = s.
Proof.
  intros (p & Hp & Hmeta & Hmagic). unfold HnswGetMetaPageInfo, read_meta.
  assert (read_meta HNSW_METAPAGE_BLKNO s = Ok (meta, s)) as Hread.
  { unfold read_meta. run (ReadBuffer_run _ _ _ Hp).
    assert (read_page MAIN_FORKNUM (BufferPage HNSW_METAPAGE_BLKNO) s = Ok (p, s)) as Hr
      by (unfold read_page; simpl; by rewrite Hp).
    run Hr. by rewrite Hmeta. }
  unfold read_meta in Hread. run Hread. rewrite Hmagic, Z.eqb_refl.
  run (lift_res_run (raise_if (negb true) ERR_hnsw_index_not_valid) _ tt eq_refl).
  destruct (BlockNumberIsValid (mp_entryBlkno meta)); [|by exists NULL, s].
  set (e0 := el_set_value None (el_set_neighbors None (el_set_tid (mp_entryBlkno meta) (mp_entryOffno meta) uninit))).
  set (ep := palloc_addr (mem s)). set (s1 := mkBackend (<[ep := e0]> (mem s)) (index s) (xlog s)).
  assert (HnswInitElementFromBlock (mp_entryBlkno meta) (mp_entryOffno meta) s = Ok (ep, s1)) as Hinit by done.
  run Hinit. assert (mem s1 !! ep = Some e0) as He0 by (simpl; by rewrite lookup_insert_eq).
  assert (modify_element ep (el_set_level (u8 (mp_entryLevel meta))) s1 =
    Ok (tt, mkBackend (<[ep := el_set_level (u8 (mp_entryLevel meta)) e0]> (mem s)) (index s) (xlog s))) as Hmod.
  { unfold modify_element. run (load_element_run _ _ _ He0). unfold store_element. rewrite He0. simpl. by rewrite insert_insert_eq. }
  run Hmod. eexists ep, _. split; [done|]. pose proof (palloc_fresh (mem s)) as Hfresh. split.
  - split; [simpl; by apply insert_subseteq|done].
  - split; [apply palloc_not_null|]. split; [exact Hfresh|]. eexists. split; [simpl; by rewrite lookup_insert_eq|]. done.
Qed.


(** ** Updates *)

(** The element an update is given; NULL and no update give none. *)
Definition update_element (s : Backend) (updateEntry : Z) (entryPoint : addr) (e : option HnswElementData) : Prop :=
  if negb (updateEntry =? 0) && negb (entryPoint =? NULL)%N then exists el, mem s !! entryPoint = Some el /\ e = Some el
  else e = None.

(** Only the metapage changes, and there only its contents. *)
Record meta_updated (s s' : Backend) (meta' : HnswMetaPageData) : Prop := {
  mu_mem : mem s' = mem s;
  mu_xlog : xlog s' = xlog s;
  mu_meta : exists p, block (rd_main (index s)) HNSW_METAPAGE_BLKNO = Some p /\
    block (rd_main (index s')) HNSW_METAPAGE_BLKNO = Some (set_contents meta' p);
  mu_blocks b : b <> HNSW_METAPAGE_BLKNO -> block (rd_main (index s')) b = block (rd_main (index s)) b;
  mu_tuples b off : tuple_at (index s') b off = tuple_at (index s) b off;
  mu_items : items_kept (index s) (index s');
  mu_length : length (rd_main (index s')) = length (rd_main (index s));
  mu_rel : index s' = with_pages (index s) MAIN_FORKNUM (rd_main (index s'))
}.

(** A store into a tuple leaves the metapage. *)
Lemma tuple_replaced_meta s s' b off tup meta : tuple_replaced s s' b off tup -> meta_ok (index s) meta -> meta_ok (index s') meta.
Proof.
  intros Hr (p & Hp & Hm & Hmagic). apply block_lookup in Hp as Hl. destruct Hl as [H0 Hl]. apply lookup_lt_Some in Hl.
  rewrite <- (tr_length _ _ _ _ _ Hr) in Hl. destruct (lookup_lt_is_Some_2 _ _ Hl) as [p' Hp'].
  assert (block (rd_main (index s')) HNSW_METAPAGE_BLKNO = Some p') as Hb' by (by apply block_lookup).
  destruct (tr_pages _ _ _ _ _ Hr _ p' Hb') as (q & Hq & _ & _ & _ & Hc). exists p'. split; [done|]. split; [congruence|done].
Qed.

Lemma HnswUpdateMetaPage_run s meta updateEntry entryPoint e insertPage :
  meta_ok (index s) meta -> xlog s = None -> update_element s updateEntry entryPoint e ->
  exists s', (forall building, HnswUpdateMetaPage updateEntry entryPoint insertPage MAIN_FORKNUM building s = Ok (tt, s')) /\
    meta_updated s s' (HnswUpdateMetaPageInfo updateEntry e insertPage meta) /\
    meta_ok (index s') (HnswUpdateMetaPageInfo updateEntry e insertPage meta).
Proof.
  intros (p & Hp & Hmeta & Hmagic) Hx He. set (meta' := HnswUpdateMetaPageInfo updateEntry e insertPage meta).
  set (s' := update_block MAIN_FORKNUM HNSW_METAPAGE_BLKNO (set_contents meta' p) s).
  assert (forall b, block (rd_main (index s')) b = if decide (b = HNSW_METAPAGE_BLKNO) then Some (set_contents meta' p)
    else block (rd_main (index s)) b) as Hblk by (intros b; by apply (update_block_block MAIN_FORKNUM _ _ _ p)).
  exists s'. split; [|split].
  - intros building. unfold HnswUpdateMetaPage.
    run (ReadBufferFork_run MAIN_FORKNUM HNSW_METAPAGE_BLKNO p s Hp). run (open_page_run MAIN_FORKNUM building _ p s Hp).
    assert ((if negb (updateEntry =? 0) && negb (entryPoint =? NULL)%N then e ← load_element entryPoint ; mret (Some e) else mret None)
      (opened MAIN_FORKNUM building HNSW_METAPAGE_BLKNO p s) = Ok (e, opened MAIN_FORKNUM building HNSW_METAPAGE_BLKNO p s)) as Hload.
    { unfold update_element in He. destruct (_ && _); [|by rewrite He]. destruct He as (el & Hel & ->).
      assert (mem (opened MAIN_FORKNUM building HNSW_METAPAGE_BLKNO p s) !! entryPoint = Some el) as Hel' by (by rewrite mem_opened).
      by run (load_element_run _ _ _ Hel'). }
    run Hload. unfold modify_page. unfold mbind at 1, M_bind at 1.
    run (read_page_run MAIN_FORKNUM building _ p s Hp p). rewrite (write_page_run MAIN_FORKNUM building _ p s Hp p _), Hmeta.
    by rewrite (commit_page_run MAIN_FORKNUM building _ s Hx).
  - split; try done.
    + exists p. split; [done|]. rewrite Hblk. by rewrite decide_True.
    + intros b Hb. rewrite Hblk. by rewrite decide_False.
    + intros b off. unfold tuple_at. rewrite Hblk. destruct (decide (b = HNSW_METAPAGE_BLKNO)) as [->|]; [|done]. by rewrite Hp.
    + intros b off n (q & it & Hq & Hit). destruct (decide (b = HNSW_METAPAGE_BLKNO)) as [->|Hne].
      * rewrite Hp in Hq. injection Hq as <-. exists (set_contents meta' p), it. by rewrite Hblk, decide_True.
      * exists q, it. by rewrite Hblk, decide_False.
    + unfold s'. simpl. by rewrite length_insert.
  - exists (set_contents meta' p). rewrite Hblk, decide_True by done. split; [done|]. split; [done|].
    unfold meta', HnswUpdateMetaPageInfo. repeat case_match; done.
Qed.

(** an update of the metapage.  [HnswUpdateMetaPage] raises no error and
    changes the contents of the metapage only, the same way through the log as on
    the buffers of a build: the insert page is set if a valid one is given; the
    entry point is cleared for a NULL element, replaced under
    HNSW_UPDATE_ENTRY_ALWAYS, and otherwise only by an element of a higher
    level, so that the entry level never decreases under
    HNSW_UPDATE_ENTRY_GREATER. *)
Theorem HnswUpdateMetaPage_correct s meta updateEntry entryPoint e insertPage :
  meta_ok (index s) meta -> xlog s = None -> update_element s updateEntry entryPoint e ->
  exists s' meta', (forall building, HnswUpdateMetaPage updateEntry entryPoint insertPage MAIN_FORKNUM building s = Ok (tt, s')) /\
    meta_updated s s' meta' /\ meta_ok (index s') meta' /\
    mp_insertPage meta' = (if BlockNumberIsValid insertPage then insertPage else mp_insertPage meta) /\
    mp_m meta' = mp_m meta /\ mp_dimensions meta' = mp_dimensions meta /\
    match e with
    | None => if updateEntry =? 0
              then (mp_entryBlkno meta', mp_entryOffno meta', mp_entryLevel meta') =
                   (mp_entryBlkno meta, mp_entryOffno meta, mp_entryLevel meta)
              else (mp_entryBlkno meta', mp_entryOffno meta', mp_entryLevel meta') = (InvalidBlockNumber, InvalidOffsetNumber, -1)
    | Some el =>
        (mp_entryBlkno meta', mp_entryOffno meta', mp_entryLevel meta') =
          (if (mp_entryLevel meta <? el_level el) || (updateEntry =? HNSW_UPDATE_ENTRY_ALWAYS)
           then (el_blkno el, el_offno el, el_level el) else (mp_entryBlkno meta, mp_entryOffno meta, mp_entryLevel meta)) /\
        (updateEntry = HNSW_UPDATE_ENTRY_GREATER -> mp_entryLevel meta <= mp_entryLevel meta')
    end.
Proof.
  intros Hmeta Hx He. destruct (HnswUpdateMetaPage_run s meta updateEntry entryPoint e insertPage Hmeta Hx He) as (s' & H1 & H2 & H3).
  set (meta' := HnswUpdateMetaPageInfo updateEntry e insertPage meta) in *. exists s', meta'. split; [done|]. split; [done|]. split; [done|].
  unfold meta', HnswUpdateMetaPageInfo, update_element in *. split; [by repeat case_match|]. split; [by repeat case_match|].
  split; [by repeat case_match|]. destruct e as [el|].
    + destruct (updateEntry =? 0); [done|]. cbn [negb]. unfold HNSW_UPDATE_ENTRY_GREATER.
      destruct (Z.ltb_spec (mp_entryLevel meta) (el_level el)) as [Hlt|Hge]; cbn [orb].
      * destruct (BlockNumberIsValid insertPage); simpl; (split; [done|lia]).
      * destruct (Z.eqb_spec updateEntry HNSW_UPDATE_ENTRY_ALWAYS) as [->|]; destruct (BlockNumberIsValid insertPage); simpl; (split; [done|done || lia]).
    + destruct (updateEntry =? 0); simpl; by destruct (BlockNumberIsValid insertPage).
Qed.

Lemma HnswUpdateMetaPage_correct_witness :
  exists s' meta', (forall building, HnswUpdateMetaPage HNSW_UPDATE_ENTRY_ALWAYS 1%N 1 MAIN_FORKNUM building sample_state = Ok (tt, s')) /\
    meta_updated sample_state s' meta' /\ mp_insertPage meta' = 1 /\ mp_entryBlkno meta' = 1 /\ mp_entryOffno meta' = 1.
Proof.
  destruct (HnswUpdateMetaPage_correct sample_state (pd_contents sample_meta) HNSW_UPDATE_ENTRY_ALWAYS 1%N (Some sample_element) 1)
    as (s' & meta' & H1 & H2 & _ & H4 & _ & _ & H7 & _).
  - exists sample_meta. split; [reflexivity|]. split; reflexivity.
  - reflexivity.
  - exists sample_element. split; reflexivity.
  - exists s', meta'. split; [exact H1|]. split; [exact H2|]. split; [exact H4|].
    vm_compute in H7. injection H7 as E1 E2 E3. split; [exact E1|exact E2].
Defined.
