(* ===== verification/DiskGraph.v ===== *)
(** * The layered graph of an index on its pages

    What the metapage and the layers of an index have to do with each other,
    the entry point as a candidate of the search, and the descent to a lower
    layer that scans and insertions start with. *)

From Stdlib Require Import SpecFloat.
From S2P Require Import Prelude CFloat VectorType GraphSearch ItemPtr HnswData BufPage Backend.
From S2P Require Import HnswUtils SearchLayer LayerRefinement PageUpdate MetaPage.

Definition entry_tid (meta : HnswMetaPageData) : ItemPointerData :=
  ItemPointerSet (mp_entryBlkno meta) (mp_entryOffno meta).

(** A valid index with an entry point: its tuple [etup] reaches the layers [0],
    ..., the entry level; [U lc] are elements of layer [lc] that its edges do
    not leave, each layer inside the one below. *)
Record disk_index_ok (rel : Relation) (q : HnswQuery) (support : HnswSupport) (meta : HnswMetaPageData)
    (etup : HnswElementTupleData) (U : nat -> gset ItemPointerData) : Prop := {
  di_meta : meta_ok rel meta;
  di_valid : BlockNumberIsValid (mp_entryBlkno meta) = true;
  di_block : BlockNumber_ok (mp_entryBlkno meta);
  di_offset : OffsetNumber_ok (mp_entryOffno meta);
  di_entry : element_at rel (entry_tid meta) = Some etup;
  di_level : 0 <= et_level etup;
  di_inside : entry_tid meta ∈ U (Z.to_nat (et_level etup));
  di_layer lc : (lc <= Z.to_nat (et_level etup))%nat -> disk_layer_ok rel q (Z.of_nat lc) support (mp_m meta) (U lc);
  di_nested lc : (lc < Z.to_nat (et_level etup))%nat -> U (S lc) ⊆ U lc
}.

(** The greedy descent: a search with one result at each layer above [lc]. *)
Inductive descent (rel : Relation) (q : HnswQuery) (support : HnswSupport) (m : Z) (U : nat -> gset ItemPointerData)
    (skipElement : addr) (bottom : nat) : nat -> ItemPointerData -> ItemPointerData -> Prop :=
  | descent_end k : descent rel q support m U skipElement bottom bottom k k
  | descent_layer lc k k1 k2 V : (bottom <= lc)%nat ->
      search_result (disk_graph rel q (Z.of_nat (S lc)) support m skipElement) 1 (U (S lc)) [k] [k1] V ->
      descent rel q support m U skipElement bottom lc k1 k2 ->
      descent rel q support m U skipElement bottom (S lc) k k2.

(** The heap TIDs of an element, in the order of its tuple. *)
Definition heap_tids (rel : Relation) (k : ItemPointerData) : list ItemPointerData :=
  match element_at rel k with Some etup => valid_prefix (et_heaptids etup) | None => [] end.

(** A candidate of one layer is a candidate of another. *)
Lemma disk_cand_move q support extra lc lc' m m' skip skip' s s' U1 U2 m1 c k :
  disk_cand_with q lc support m skip s U1 extra m1 c k -> index s = index s' -> k ∈ U2 ->
  disk_cand_with q lc' support m' skip' s' U2 extra m1 c k.
Proof.
  intros (_ & Hd & Hx) E Hk. unfold disk_cand_with. rewrite <- E. split; [done|]. split; [exact Hd|done].
Qed.

(** ** Loading an element from its tuple *)

Section Load.
Context `{Palloc} (q : HnswQuery) (support : HnswSupport) (loadVec : bool) (s : Backend) (p : addr).
Context (el : HnswElementData) (k : ItemPointerData) (etup : HnswElementTupleData) (d : double).
Context (Hnull : p <> NULL) (Hel : mem s !! p = Some el).
Context (Hb : BlockNumber_ok (el_blkno el)) (Hk : ItemPointerSet (el_blkno el) (el_offno el) = k).
Context (He : element_at (index s) k = Some etup) (Hd : tuple_distance q etup support = Ok d).

#[local] Abbreviation el2 := (HnswLoadElementFromTuple el etup true loadVec).
#[local] Abbreviation s2 := (mkBackend (<[p := el2]> (mem s)) (index s) (xlog s)).

Lemma loaded_element : loaded_from el2 k etup.
Proof using Hk. destruct loadVec; by split. Qed.

Lemma loaded_value : loadVec = true -> el_value el2 = Some (et_data etup).
Proof using Type. by intros ->. Qed.

Lemma HnswLoadElement_run : HnswLoadElement p (Some q) support loadVec None s = Ok (Some d, s2).
Proof using All.
  unfold HnswLoadElement. run (load_element_run _ _ _ Hel).
  assert (Himpl : HnswLoadElementImpl (el_blkno el) (el_offno el) (Some q) support loadVec None p s
    = Ok ((Some d, p), s2)); [|by run Himpl].
  unfold HnswLoadElementImpl. destruct (ItemPointerGet_Set (el_blkno el) (el_offno el) Hb) as [Gb Go].
  assert (Ht : tuple_at (index s) (el_blkno el) (el_offno el) = Some (ElementTuple etup)).
  { pose proof He as He'. rewrite <- Hk in He'. unfold element_at in He'. rewrite Gb, Go in He'.
    by destruct (tuple_at _ _ _) as [[]|]; simplify_eq. }
  rewrite (read_tuple_run s _ _ _ _ Ht). run (lift_res_run (as_element (ElementTuple etup)) s etup eq_refl).
  run (lift_res_run (d ← tuple_distance q etup support ; Ok (Some d)) s (Some d) ltac:(by rewrite Hd)).
  pose proof Hnull as Hn. apply N.eqb_neq in Hn. rewrite Hn. run (mret_run p s).
  assert (Hmod : modify_element p (fun e => HnswLoadElementFromTuple e etup true loadVec) s = Ok (tt, s2)).
  { unfold modify_element. run (load_element_run _ _ _ Hel). unfold store_element. by rewrite Hel. }
  by run Hmod.
Qed.

Lemma HnswEntryCandidate_run :
  HnswEntryCandidate false NULL p q support loadVec s = Ok (HnswInitSearchCandidate NULL p d, s2) /\
  loaded_from el2 k etup /\ (loadVec = true -> el_value el2 = Some (et_data etup)).
Proof using All.
  split; [|split; [exact loaded_element|exact loaded_value]]. unfold HnswEntryCandidate.
  rewrite (M_bind_run _ _ s d s2); [done|]. by run HnswLoadElement_run.
Qed.
End Load.

Section Index.
Context `{Palloc}.
Context (rel : Relation) (q : HnswQuery) (support : HnswSupport) (meta : HnswMetaPageData).
Context (etup : HnswElementTupleData) (U : nat -> gset ItemPointerData).
Context (Hok : disk_index_ok rel q support meta etup U).

#[local] Abbreviation m := (mp_m meta).
#[local] Abbreviation top := (Z.to_nat (et_level etup)).

Lemma layers_nested lc lc' k : (lc' <= lc)%nat -> (lc <= top)%nat -> k ∈ U lc -> k ∈ U lc'.
Proof.
  induction 1 as [|lc Hle IH]; [done|]. intros Hl Hk. apply IH; [lia|]. by apply (di_nested _ _ _ _ _ _ Hok).
Qed.

(** The entry point, read from the metapage and loaded from its tuple. *)
Lemma disk_entry_run s loadVec :
  index s = rel ->
  exists ep s1 c s2 el, HnswGetMetaPageInfo s = Ok ((m, ep), s1) /\ extends s s1 /\ ep <> NULL /\
    HnswEntryCandidate false NULL ep q support loadVec s1 = Ok (c, s2) /\ extends s s2 /\
    disk_cand q (et_level etup) support m NULL s (U top) (mem s2) c (entry_tid meta) /\
    sc_element c = ep /\ mem s2 !! ep = Some el /\ el_level el = et_level etup /\
    (loadVec = true -> el_value el = Some (et_data etup)).
Proof.
  intros Hidx. pose proof (di_meta _ _ _ _ _ _ Hok) as Hmeta. rewrite <- Hidx in Hmeta.
  destruct (HnswGetMetaPageInfo_run s meta Hmeta) as (ep & s1 & E1 & X1 & Hep).
  rewrite (di_valid _ _ _ _ _ _ Hok) in Hep. destruct Hep as (Hnull & Hnone & el & Hel & Hb & Ho & _).
  destruct (dl_element _ _ _ _ _ _ (di_layer _ _ _ _ _ _ Hok top (le_n _)) _ (di_inside _ _ _ _ _ _ Hok))
    as (etup' & ntup & d & He & _ & _ & _ & _ & Hd & _).
  rewrite (di_entry _ _ _ _ _ _ Hok) in He. injection He as <-.
  pose proof (proj1 (proj2 X1)) as Hidx1. rewrite Hidx in Hidx1.
  assert (Hk : ItemPointerSet (el_blkno el) (el_offno el) = entry_tid meta) by (unfold entry_tid; by rewrite Hb, Ho).
  pose proof (di_entry _ _ _ _ _ _ Hok) as He. rewrite <- Hidx1 in He.
  assert (Hbk : BlockNumber_ok (el_blkno el)) by (rewrite Hb; apply Hok).
  destruct (HnswEntryCandidate_run q support loadVec s1 ep el _ etup d Hnull Hel Hbk Hk He Hd)
    as (E2 & Hlf & Hv).
  set (el2 := HnswLoadElementFromTuple el etup true loadVec) in *. set (s2 := mkBackend _ _ _) in *.
  assert (Hext2 : extends s s2).
  { destruct X1 as (Hm & Hi & Hx). split; [|done]. simpl. etrans; [|apply insert_subseteq_r; [exact Hnone|exact Hm]]. done. }
  exists ep, s1, (HnswInitSearchCandidate NULL ep d), s2, el2. split_and!; try done.
  - split; [apply Hok|]. split; [simpl; unfold disk_distance; by rewrite Hidx, (di_entry _ _ _ _ _ _ Hok), Hd|].
    exists el2, etup. split; [simpl; by rewrite lookup_insert_eq|]. split; [by rewrite Hidx; apply Hok|done].
  - simpl. by rewrite lookup_insert_eq.
  - apply (lf_level _ _ _ Hlf).
Qed.
End Index.
