(* ===== verification/Tuples.v ===== *)
(** * Tuples: what is written is read back

    The neighbor tuple of an element keeps the TIDs of its neighbors layer after
    layer, from the highest to layer 0, which has twice as many slots.
    [HnswSetNeighborTuple] and [HnswLoadNeighborTids] agree on this layout, as
    do [HnswSetElementTuple] and [HnswLoadElementFromTuple] on the element
    tuple. *)

From Stdlib Require Import SpecFloat.
From S2P Require Import Prelude CFloat VectorType ItemPtr HnswData BufPage Backend HnswUtils SearchLayer LayerRefinement.

(** ** The layout of the slots *)

Section Layout.
Context (m : Z) (slots : nat -> list ItemPointerData).
Context (Hm : 0 <= m) (Hslots : forall lc, Z.of_nat (length (slots lc)) = HnswGetLayerM m (Z.of_nat lc)).

(** Layers [lc], ..., 0. *)
Fixpoint all_slots (lc : nat) : list ItemPointerData :=
  match lc with
  | O => slots 0
  | S lc' => slots lc ++ all_slots lc'
  end.

Lemma length_slots_S lc : Z.of_nat (length (slots (S lc))) = m.
Proof. rewrite Hslots. unfold HnswGetLayerM. destruct (Z.eqb_spec (Z.of_nat (S lc)) 0); lia. Qed.

Lemma length_slots_0 : Z.of_nat (length (slots 0)) = m * 2.
Proof. by rewrite Hslots. Qed.

Lemma length_all_slots lc : Z.of_nat (length (all_slots lc)) = (Z.of_nat lc + 2) * m.
Proof.
  induction lc as [|lc IH]; cbn [all_slots].
  - rewrite length_slots_0. lia.
  - rewrite length_app. pose proof (length_slots_S lc). lia.
Qed.

Lemma drop_all_slots top lc : (lc <= top)%nat ->
  drop (Z.to_nat ((Z.of_nat top - Z.of_nat lc) * m)) (all_slots top) = all_slots lc.
Proof.
  intros Hle. induction Hle as [|top Hle IH].
  - rewrite Z.sub_diag. done.
  - cbn [all_slots]. pose proof (length_slots_S top) as Hl.
    assert (Z.to_nat ((Z.of_nat (S top) - Z.of_nat lc) * m) =
      (length (slots (S top)) + Z.to_nat ((Z.of_nat top - Z.of_nat lc) * m))%nat) as ->.
    { rewrite <- (Nat2Z.id (length (slots (S top)))), Hl, <- Z2Nat.inj_add by nia. f_equal. lia. }
    by rewrite drop_app_add, IH.
Qed.

Lemma take_all_slots lc : take (Z.to_nat (HnswGetLayerM m (Z.of_nat lc))) (all_slots lc) = slots lc.
Proof.
  rewrite <- Hslots, Nat2Z.id. destruct lc; cbn [all_slots]; [by rewrite firstn_all|by rewrite take_app_length].
Qed.

(** The slots of layer [lc] are where [HnswLoadNeighborTids] looks. *)
Lemma layer_of_all_slots top lc : (lc <= top)%nat ->
  take (Z.to_nat (HnswGetLayerM m (Z.of_nat lc))) (drop (Z.to_nat ((Z.of_nat top - Z.of_nat lc) * m)) (all_slots top)) =
  slots lc.
Proof. intros Hle. by rewrite drop_all_slots, take_all_slots. Qed.
End Layout.

(** ** The neighbor tuple of an element *)

Section NeighborTuple.
Context (base : addr) (m : Z) (s : Backend).

(** The TID of a neighbor. *)
Definition neighbor_tid (hc : HnswCandidate) : ItemPointerData :=
  match mem s !! HnswPtrAccess base (hc_element hc) with
  | Some hce => ItemPointerSet (el_blkno hce) (el_offno hce)
  | None => ItemPointerSetInvalid
  end.

Definition padded (lm : nat) (items : list HnswCandidate) : list ItemPointerData :=
  (neighbor_tid <$> items) ++ replicate (lm - length items) ItemPointerSetInvalid.

(** The neighbors of an element are in memory and fit in its arrays. *)
Record neighbors_ok (el : HnswElementData) (ns : list HnswNeighborArray) : Prop := {
  nk_level : 0 <= el_level el;
  nk_neighbors : el_neighbors el = Some ns;
  nk_layers : Z.of_nat (length ns) = el_level el + 1;
  nk_array lc a : ns !! lc = Some a -> na_length a <= HnswGetLayerM m (Z.of_nat lc) /\
    forall hc, hc ∈ na_items a -> is_Some (mem s !! HnswPtrAccess base (hc_element hc))
}.

Lemma set_layer_tids_run lm items : (length items <= lm)%nat ->
  (forall hc, hc ∈ items -> is_Some (mem s !! HnswPtrAccess base (hc_element hc))) ->
  set_layer_tids base lm items s = Ok (padded lm items, s).
Proof.
  revert items. induction lm as [|lm IH]; intros items Hl Hin.
  - destruct items; [done|simpl in Hl; lia].
  - destruct items as [|hc items]; cbn [set_layer_tids].
    + rewrite (M_bind_run _ _ s _ s (IH [] ltac:(simpl; lia) ltac:(by intros hc Hhc%elem_of_nil))).
      unfold padded. simpl. by rewrite Nat.sub_0_r.
    + destruct (Hin hc ltac:(left)) as [hce Hhce].
      rewrite (M_bind_run _ _ s hce s) by (unfold load_element; by rewrite Hhce).
      rewrite (M_bind_run _ _ s _ s (IH items ltac:(simpl in Hl; lia) ltac:(intros h Hh; apply Hin; by right))).
      unfold padded, neighbor_tid at 2. rewrite fmap_cons. simpl. by rewrite Hhce.
Qed.

Definition layer_items (ns : list HnswNeighborArray) (lc : nat) : list HnswCandidate :=
  match ns !! lc with Some a => na_items a | None => [] end.

Definition layer_padded (ns : list HnswNeighborArray) (lc : nat) : list ItemPointerData :=
  padded (Z.to_nat (HnswGetLayerM m (Z.of_nat lc))) (layer_items ns lc).

Lemma layer_items_ok el ns lc : neighbors_ok el ns -> 0 <= m ->
  (length (layer_items ns lc) <= Z.to_nat (HnswGetLayerM m (Z.of_nat lc)))%nat /\
  forall hc, hc ∈ layer_items ns lc -> is_Some (mem s !! HnswPtrAccess base (hc_element hc)).
Proof.
  intros Hok Hm. unfold layer_items. destruct (ns !! lc) as [a|] eqn:E.
  - destruct (nk_array _ _ Hok lc a E) as [Hl Hin]. split; [|done]. unfold na_length in Hl. lia.
  - split; [simpl; lia|]. by intros hc Hhc%elem_of_nil.
Qed.

Lemma length_layer_padded el ns lc : neighbors_ok el ns -> 0 <= m ->
  Z.of_nat (length (layer_padded ns lc)) = HnswGetLayerM m (Z.of_nat lc).
Proof.
  intros Hok Hm. destruct (layer_items_ok el ns lc Hok Hm) as [Hl _].
  unfold layer_padded, padded. rewrite length_app, length_fmap, length_replicate.
  unfold HnswGetLayerM in *. destruct (_ =? _); lia.
Qed.

Lemma get_neighbors_run e el ns lc : mem s !! e = Some el -> neighbors_ok el ns -> Z.of_nat lc <= el_level el ->
  exists a, HnswGetNeighbors base e (Z.of_nat lc) s = Ok (a, s) /\ na_items a = layer_items ns lc.
Proof.
  intros He Hok Hlc. destruct (lookup_lt_is_Some_2 ns lc) as [a Ha]; [pose proof (nk_layers _ _ Hok); lia|].
  exists a. unfold layer_items. rewrite Ha. split; [|done]. unfold HnswGetNeighbors.
  rewrite (M_bind_run _ _ s el s) by (unfold load_element; by rewrite He).
  unfold lift_res, neighbors_of. rewrite (nk_neighbors _ _ Hok).
  destruct (Z.ltb_spec (Z.of_nat lc) 0); [lia|]. by rewrite Nat2Z.id, Ha.
Qed.

Lemma set_tids_run e el ns lc : mem s !! e = Some el -> neighbors_ok el ns -> 0 <= m -> Z.of_nat lc <= el_level el ->
  set_tids base e m lc s = Ok (all_slots (layer_padded ns) lc, s).
Proof.
  intros He Hok Hm. induction lc as [|lc IH]; intros Hlc; cbn [set_tids all_slots].
  - destruct (get_neighbors_run e el ns 0 He Hok Hlc) as (a & E & Ha). destruct (layer_items_ok el ns 0 Hok Hm) as [Hl Hin].
    rewrite (M_bind_run _ _ _ _ _ E), Ha. by rewrite (M_bind_run _ _ _ _ _ (set_layer_tids_run _ _ Hl Hin)).
  - destruct (get_neighbors_run e el ns (S lc) He Hok Hlc) as (a & E & Ha).
    destruct (layer_items_ok el ns (S lc) Hok Hm) as [Hl Hin].
    rewrite (M_bind_run _ _ _ _ _ E), Ha, (M_bind_run _ _ _ _ _ (set_layer_tids_run _ _ Hl Hin)).
    by rewrite (M_bind_run _ _ _ _ _ (IH ltac:(lia))).
Qed.

Lemma HnswSetNeighborTuple_run e el ns : mem s !! e = Some el -> neighbors_ok el ns -> 0 <= m ->
  (el_level el + 2) * m < 2 ^ 16 ->
  HnswSetNeighborTuple base e m s =
    Ok (mkHnswNeighborTuple (el_version el) ((el_level el + 2) * m) (all_slots (layer_padded ns) (Z.to_nat (el_level el))), s).
Proof.
  intros He Hok Hm Hc. pose proof (nk_level _ _ Hok) as Hl. unfold HnswSetNeighborTuple.
  rewrite (M_bind_run _ _ s el s) by (unfold load_element; by rewrite He).
  rewrite (M_bind_run _ _ _ _ _ (set_tids_run e el ns (Z.to_nat (el_level el)) He Hok Hm ltac:(lia))).
  rewrite (length_all_slots m _ Hm (fun lc => length_layer_padded el ns lc Hok Hm)). rewrite Z2Nat.id by lia.
  rewrite u16_small by nia. done.
Qed.
End NeighborTuple.

Lemma valid_prefix_padded l n : Forall (fun t => ItemPointerIsValid t = true) l ->
  valid_prefix (l ++ replicate n ItemPointerSetInvalid) = l.
Proof.
  induction 1 as [|t l Ht Hl IH]; simpl; [by destruct n|]. by rewrite Ht, IH.
Qed.

(** C21: the neighbor tuple of an element holds its neighbors.
    [HnswSetNeighborTuple] writes a tuple with [(level + 2) * m] slots and the
    version of the element; once this tuple is on a page,
    [HnswLoadNeighborTids] with an element loaded from there finds, for every
    layer up to the level, the TIDs of exactly the neighbors of that layer in
    their order, and nothing if the version is another one. *)
Theorem neighbor_tuple_roundtrip base m s e el ns :
  mem s !! e = Some el -> neighbors_ok base m s el ns -> 0 <= m -> (el_level el + 2) * m < 2 ^ 16 ->
  (forall lc hc, hc ∈ layer_items ns lc -> ItemPointerIsValid (neighbor_tid base s hc) = true) ->
  exists ntup, HnswSetNeighborTuple base e m s = Ok (ntup, s) /\
    nt_count ntup = (el_level el + 2) * m /\ nt_version ntup = el_version el /\
    forall s2 el2 lc, tuple_at (index s2) (el_neighborPage el2) (el_neighborOffno el2) = Some (NeighborTuple ntup) ->
      el_level el2 = el_level el -> 0 <= lc <= el_level el ->
      if decide (el_version el2 = el_version el) then
        exists l, HnswLoadNeighborTids el2 m (HnswGetLayerM m lc) lc s2 = Ok (Some l, s2) /\
          valid_prefix l = neighbor_tid base s <$> layer_items ns (Z.to_nat lc)
      else HnswLoadNeighborTids el2 m (HnswGetLayerM m lc) lc s2 = Ok (None, s2).
Proof.
  intros He Hok Hm Hc Hval. eexists. split; [by apply HnswSetNeighborTuple_run|]. split; [done|]. split; [done|].
  intros s2 el2 lc Ht Hl2 Hlc. unfold HnswLoadNeighborTids.
  rewrite (read_tuple_run s2 _ _ _ _ Ht). simpl. rewrite (M_bind_run _ _ s2 _ s2 eq_refl). simpl. rewrite Hl2, Z.eqb_refl.
  destruct (decide (el_version el2 = el_version el)) as [->|Hne].
  2: { destruct (Z.eqb_spec (el_version el) (el_version el2)); [congruence|done]. }
  rewrite Z.eqb_refl. simpl.
  assert (forall k, Z.of_nat (length (layer_padded base m s ns k)) = HnswGetLayerM m (Z.of_nat k)) as Hlp
    by (intros k; by eapply length_layer_padded).
  assert (0 <= HnswGetLayerM m lc <= (lc + 2) * m) as Hlm by (unfold HnswGetLayerM; destruct (Z.eqb_spec lc 0); nia).
  assert (raise_if (((el_level el - lc) * m <? 0)
    || (Z.of_nat (length (all_slots (layer_padded base m s ns) (Z.to_nat (el_level el)))) <?
        (el_level el - lc) * m + HnswGetLayerM m lc)) UndefinedBehaviour = Ok tt) as ->.
  { unfold raise_if. rewrite (length_all_slots m _ Hm Hlp). rewrite Z2Nat.id by lia.
    destruct (Z.ltb_spec ((el_level el - lc) * m) 0); [nia|].
    destruct (Z.ltb_spec ((el_level el + 2) * m) ((el_level el - lc) * m + HnswGetLayerM m lc)); [nia|done]. }
  eexists. split; [done|].
  pose proof (layer_of_all_slots m (layer_padded base m s ns) Hm Hlp (Z.to_nat (el_level el)) (Z.to_nat lc) ltac:(lia)) as Hlay.
  rewrite !Z2Nat.id in Hlay by lia. rewrite Hlay. unfold layer_padded, padded. apply valid_prefix_padded.
  apply list.Forall_fmap, list.Forall_forall. intros hc Hhc. by eapply Hval.
Qed.

(** the element tuple of an element holds it.  From the tuple that
    [HnswSetElementTuple] makes, with the place of the neighbor tuple set,
    [HnswLoadElementFromTuple] restores the level, the version, the heap TIDs
    and the value, and the place of the neighbor tuple; the element is not
    deleted. *)
Theorem element_tuple_roundtrip el v tid e0 :
  el_value el = Some v -> el_heaptidsLength el <= HNSW_HEAPTIDS ->
  Forall (fun t => ItemPointerIsValid t = true) (el_heaptids el) ->
  exists etup, HnswSetElementTuple el = Ok etup /\
    length (et_heaptids etup) = 10%nat /\
    let e := HnswLoadElementFromTuple e0
               (mkHnswElementTuple (et_level etup) (et_deleted etup) (et_version etup) (et_heaptids etup) tid
                  (et_unused etup) (et_data etup)) true true in
    el_level e = el_level el /\ el_version e = el_version el /\ el_deleted e = 0 /\
    el_heaptids e = el_heaptids el /\ el_value e = el_value el /\
    el_neighborPage e = ItemPointerGetBlockNumber tid /\ el_neighborOffno e = ItemPointerGetOffsetNumber tid /\
    el_blkno e = el_blkno e0 /\ el_offno e = el_offno e0.
Proof.
  intros Hv Hl Hval. unfold el_heaptidsLength, HNSW_HEAPTIDS in Hl. unfold HnswSetElementTuple. rewrite Hv.
  eexists. split; [done|]. cbn [et_heaptids]. split; [rewrite length_app, length_take, length_replicate; lia|].
  split_and!; try done.
  cbn [HnswLoadElementFromTuple el_heaptids el_set_value el_set_heaptids et_heaptids].
  rewrite take_ge by lia. by apply valid_prefix_padded.
Qed.

(** ** Witnesses: an element with one neighbor *)

Definition written_neighbor : HnswElementData :=
  mkHnswElement NULL [ItemPointerSet 7 3] 0 0 1 0 None 1 3 4 1 (Some value2).
Definition written_element : HnswElementData :=
  mkHnswElement NULL [ItemPointerSet 7 1; ItemPointerSet 8 2] 0 0 1 0
    (Some [mkHnswNeighborArray false [mkHnswCandidate 2%N f2_0 false]]) 1 1 2 1 (Some value1).
Definition written_state : Backend :=
  mkBackend {[ 1%N := written_element; 2%N := written_neighbor ]} sample_relation None.
Definition written_arrays : list HnswNeighborArray := [mkHnswNeighborArray false [mkHnswCandidate 2%N f2_0 false]].

Lemma neighbor_tuple_roundtrip_witness :
  exists ntup, HnswSetNeighborTuple NULL 1%N 2 written_state = Ok (ntup, written_state) /\
    nt_count ntup = 4 /\ nt_version ntup = 1 /\
    forall s2 el2 lc, tuple_at (index s2) (el_neighborPage el2) (el_neighborOffno el2) = Some (NeighborTuple ntup) ->
      el_level el2 = 0 -> 0 <= lc <= 0 ->
      if decide (el_version el2 = 1) then
        exists l, HnswLoadNeighborTids el2 2 (HnswGetLayerM 2 lc) lc s2 = Ok (Some l, s2) /\
          valid_prefix l = neighbor_tid NULL written_state <$> layer_items written_arrays (Z.to_nat lc)
      else HnswLoadNeighborTids el2 2 (HnswGetLayerM 2 lc) lc s2 = Ok (None, s2).
Proof.
  apply (neighbor_tuple_roundtrip NULL 2 written_state 1%N written_element written_arrays); [done| |lia|done|].
  - split; [done|done|done|]. intros [|lc] a Ha; [|done]. injection Ha as <-. split; [by vm_compute|].
    intros hc Hhc. apply list_elem_of_singleton in Hhc as ->. by eexists.
  - intros [|lc] hc Hhc; [|by apply elem_of_nil in Hhc]. apply list_elem_of_singleton in Hhc as ->. by vm_compute.
Defined.

Lemma element_tuple_roundtrip_witness :
  exists etup, HnswSetElementTuple written_element = Ok etup /\
    length (et_heaptids etup) = 10%nat /\
    let e := HnswLoadElementFromTuple written_neighbor
               (mkHnswElementTuple (et_level etup) (et_deleted etup) (et_version etup) (et_heaptids etup) (ItemPointerSet 1 2)
                  (et_unused etup) (et_data etup)) true true in
    el_level e = 0 /\ el_version e = 1 /\ el_deleted e = 0 /\
    el_heaptids e = [ItemPointerSet 7 1; ItemPointerSet 8 2] /\ el_value e = Some value1 /\
    el_neighborPage e = ItemPointerGetBlockNumber (ItemPointerSet 1 2) /\
    el_neighborOffno e = ItemPointerGetOffsetNumber (ItemPointerSet 1 2) /\
    el_blkno e = 1 /\ el_offno e = 3.
Proof.
  apply (element_tuple_roundtrip written_element value1 (ItemPointerSet 1 2) written_neighbor); [done|by vm_compute|].
  repeat constructor; by vm_compute.
Defined.
