(* ===== verification/LWLock.v ===== *)
(** * Lightweight locks

    What the parallel build uses of src/pgvec/src/backend/storage/lmgr/lwlock.c:
    the word of a lock, an attempt to take it, its release and the list of the locks
    a backend holds.  A backend that cannot have a lock tries
    again later; how it waits is in LWLockQueue.v.

    [locks_ok] says that the words count the holders; from it follow mutual
    exclusion and that a lock that cannot be had is held by someone. *)

From stdpp Require Import functions.
From S2P Require Import Prelude.

(** ** The code *)

Inductive LWLockMode : Type := LW_EXCLUSIVE | LW_SHARED.

#[export] Instance LWLockMode_eq_dec : EqDecision LWLockMode.
Proof. solve_decision. Defined.

Definition MAX_BACKENDS : Z := Z.shiftl 1 18 - 1.
Definition LW_FLAG_RELEASE_OK : Z := Z.shiftl 1 30.
Definition LW_VAL_EXCLUSIVE : Z := MAX_BACKENDS + 1.
Definition LW_VAL_SHARED : Z := 1.
Definition LW_LOCK_MASK : Z := Z.lor MAX_BACKENDS LW_VAL_EXCLUSIVE.
Definition MAX_SIMUL_LWLOCKS : nat := 200.

Definition LWLockInitialize : Z := LW_FLAG_RELEASE_OK.

(** The new word, or [None] if the backend must wait. *)
Definition LWLockAttemptLock (old_state : Z) (mode : LWLockMode) : option Z :=
  match mode with
  | LW_EXCLUSIVE => if Z.land old_state LW_LOCK_MASK =? 0 then Some (u32 (old_state + LW_VAL_EXCLUSIVE)) else None
  | LW_SHARED => if Z.land old_state LW_VAL_EXCLUSIVE =? 0 then Some (u32 (old_state + LW_VAL_SHARED)) else None
  end.

Definition LWLockReleaseInternal (state : Z) (mode : LWLockMode) : Z :=
  match mode with LW_EXCLUSIVE => u32 (state - LW_VAL_EXCLUSIVE) | LW_SHARED => u32 (state - LW_VAL_SHARED) end.

Section Held.
Context {K : Type} `{EqDecision K}.

(** [held_lwlocks], the lock taken last first. *)
Definition held_lwlocks : Type := list (K * LWLockMode).

Fixpoint LWLockDisownInternal (held : held_lwlocks) (lock : K) : res (LWLockMode * held_lwlocks) :=
  match held with
  | [] => Err ERR_lock_not_held
  | (l, mode) :: held =>
      if decide (lock = l) then Ok (mode, held)
      else '(mode', held') ← LWLockDisownInternal held lock ; Ok (mode', (l, mode) :: held')
  end.

(** [None]: the backend waits. *)
Definition LWLockAcquire (words : K -> Z) (held : held_lwlocks) (lock : K) (mode : LWLockMode)
    : res (option ((K -> Z) * held_lwlocks)) :=
  raise_if (MAX_SIMUL_LWLOCKS <=? length held)%nat ERR_too_many_lwlocks ;;
  match LWLockAttemptLock (words lock) mode with
  | Some w => Ok (Some (<[lock := w]> words, (lock, mode) :: held))
  | None => Ok None
  end.

Definition LWLockRelease (words : K -> Z) (held : held_lwlocks) (lock : K) : res ((K -> Z) * held_lwlocks) :=
  '(mode, held') ← LWLockDisownInternal held lock ;
  Ok (<[lock := LWLockReleaseInternal (words lock) mode]> words, held').
End Held.
Arguments held_lwlocks : clear implicits.

(** ** The word of one lock *)

Definition mode_value (mode : LWLockMode) : Z :=
  match mode with LW_EXCLUSIVE => LW_VAL_EXCLUSIVE | LW_SHARED => LW_VAL_SHARED end.
Definition modes_value (modes : list LWLockMode) : Z := foldr (fun m => Z.add (mode_value m)) 0 modes.

(** The word of a lock that is held in these modes. *)
Record LWLock_ok (state : Z) (modes : list LWLockMode) : Prop := {
  lw_state : state = LW_FLAG_RELEASE_OK + modes_value modes;
  lw_count : Z.of_nat (length modes) <= MAX_BACKENDS;
  lw_exclusive : LW_EXCLUSIVE ∈ modes -> modes = [LW_EXCLUSIVE]
}.

#[export] Instance modes_value_proper : Proper (Permutation ==> eq) modes_value.
Proof.
  intros l l'. induction 1 as [|m l l' _ IH|m n l|l l' l'' _ IH1 _ IH2]; [done| | |by rewrite IH1].
  - cbn. fold (modes_value l) (modes_value l'). by rewrite IH.
  - cbn. fold (modes_value l). lia.
Qed.

#[export] Instance LWLock_ok_proper : Proper (eq ==> Permutation ==> iff) LWLock_ok.
Proof.
  assert (forall s l l', l ≡ₚ l' -> LWLock_ok s l -> LWLock_ok s l') as Himp.
  { intros s l l' Hp [H1 H2 H3]. split; [by rewrite <- Hp|by rewrite <- Hp|]. intros Hin. rewrite <- Hp in Hin.
    rewrite (H3 Hin) in Hp. by apply Permutation_singleton_l in Hp. }
  intros s ? <- l l' Hp. split; apply Himp; [done|by symmetry].
Qed.

Lemma modes_value_shared modes : LW_EXCLUSIVE ∉ modes -> modes_value modes = Z.of_nat (length modes).
Proof.
  induction modes as [|[] modes IH]; intros Hn; [done|exfalso; apply Hn; left|].
  cbn [modes_value foldr length mode_value] in *. unfold LW_VAL_SHARED. fold (modes_value modes). rewrite IH; [lia|]. intros Hin. apply Hn. by right.
Qed.

Lemma modes_value_exclusive : modes_value [LW_EXCLUSIVE] = LW_VAL_EXCLUSIVE.
Proof. done. Qed.

(** The constants as numbers, for [lia]. *)
Ltac lock_numbers :=
  rewrite ?modes_value_exclusive in *; change LW_VAL_EXCLUSIVE with 262144 in *; change MAX_BACKENDS with 262143 in *;
  change LW_FLAG_RELEASE_OK with 1073741824 in *; change LW_VAL_SHARED with 1 in *.

Lemma LWLock_ok_range state modes : LWLock_ok state modes -> LW_FLAG_RELEASE_OK <= state <= LW_FLAG_RELEASE_OK + LW_VAL_EXCLUSIVE.
Proof.
  intros [-> Hc He]. destruct (decide (LW_EXCLUSIVE ∈ modes)) as [Hin|Hout].
  - rewrite (He Hin). lock_numbers. lia.
  - rewrite modes_value_shared by done. lock_numbers. lia.
Qed.

Lemma land_exclusive v : 0 <= v <= LW_VAL_EXCLUSIVE -> (Z.land (LW_FLAG_RELEASE_OK + v) LW_VAL_EXCLUSIVE = 0 <-> v < LW_VAL_EXCLUSIVE).
Proof.
  intros Hv. change LW_VAL_EXCLUSIVE with (2 ^ 18) in *. change LW_FLAG_RELEASE_OK with (2 ^ 30).
  assert (Z.testbit (2 ^ 30 + v) 18 = Z.testbit v 18) as Hb.
  { rewrite !Z.testbit_odd, !Z.shiftr_div_pow2 by lia. replace (2 ^ 30 + v) with (v + 2 ^ 12 * 2 ^ 18) by lia.
    rewrite Z.div_add by lia. rewrite Z.odd_add. change (Z.odd (2 ^ 12)) with false. by rewrite xorb_false_r. }
  destruct (Z.eq_dec v (2 ^ 18)) as [->|Hne].
  - split; [intros H; by vm_compute in H|lia].
  - split; [lia|]. intros _. apply Z.bits_inj'. intros n Hn. rewrite Z.land_spec, Z.pow2_bits_eqb, Z.bits_0 by lia.
    destruct (Z.eqb_spec 18 n) as [<-|]; [|by rewrite andb_false_r]. rewrite Hb, andb_true_r. apply Z.bits_above_log2; [lia|].
    destruct (Z.eq_dec v 0) as [->|]; [by cbn|]. apply Z.log2_lt_pow2; lia.
Qed.

Lemma land_lock_mask v : 0 <= v <= LW_VAL_EXCLUSIVE -> Z.land (LW_FLAG_RELEASE_OK + v) LW_LOCK_MASK = v.
Proof.
  intros Hv. change LW_LOCK_MASK with (Z.ones 19). rewrite Z.land_ones by lia. change LW_VAL_EXCLUSIVE with (2 ^ 18) in *.
  change LW_FLAG_RELEASE_OK with (2 ^ 11 * 2 ^ 19). rewrite Z.add_comm, Z.mod_add by lia. apply Z.mod_small. lia.
Qed.

Lemma LWLockInitialize_ok : LWLock_ok LWLockInitialize [].
Proof. split; [done|by vm_compute|by intros ?%elem_of_nil]. Qed.

Lemma attempt_shared state modes : LWLock_ok state modes -> Z.of_nat (length modes) < MAX_BACKENDS ->
  match LWLockAttemptLock state LW_SHARED with
  | Some state' => (LW_EXCLUSIVE ∉ modes) /\ LWLock_ok state' (LW_SHARED :: modes)
  | None => modes = [LW_EXCLUSIVE]
  end.
Proof.
  intros Hok Hlt. pose proof (LWLock_ok_range _ _ Hok) as Hr. destruct Hok as [Hs Hc He]. unfold LWLockAttemptLock.
  destruct (land_exclusive (state - LW_FLAG_RELEASE_OK)) as [H1 H2]; [lia|].
  replace (LW_FLAG_RELEASE_OK + (state - LW_FLAG_RELEASE_OK)) with state in H1, H2 by lia.
  destruct (decide (LW_EXCLUSIVE ∈ modes)) as [Hin|Hout].
  - pose proof (He Hin) as ->. rewrite (proj2 (Z.eqb_neq _ _)); [done|]. intros Heq. specialize (H1 Heq). lock_numbers. lia.
  - pose proof (modes_value_shared modes Hout) as Hv. rewrite (proj2 (Z.eqb_eq _ _)) by (apply H2; rewrite Hs, Hv; lock_numbers; lia).
    split; [done|]. split.
    + cbn [modes_value foldr mode_value]. fold (modes_value modes). unfold u32. rewrite Z.mod_small; [rewrite Hs; lia|].
      lock_numbers. lia.
    + cbn [length]. lia.
    + intros [?|Hin]%elem_of_cons; [done|by destruct Hout].
Qed.

Lemma attempt_exclusive state modes : LWLock_ok state modes ->
  match LWLockAttemptLock state LW_EXCLUSIVE with
  | Some state' => modes = [] /\ LWLock_ok state' [LW_EXCLUSIVE]
  | None => modes <> []
  end.
Proof.
  intros Hok. pose proof (LWLock_ok_range _ _ Hok) as Hr. destruct Hok as [Hs Hc He]. unfold LWLockAttemptLock.
  pose proof (land_lock_mask (state - LW_FLAG_RELEASE_OK) ltac:(lia)) as Hm.
  replace (LW_FLAG_RELEASE_OK + (state - LW_FLAG_RELEASE_OK)) with state in Hm by lia. rewrite Hm.
  destruct (Z.eqb_spec (state - LW_FLAG_RELEASE_OK) 0) as [Hz|Hnz].
  - assert (modes = []) as ->.
    { destruct (decide (LW_EXCLUSIVE ∈ modes)) as [Hin|Hout].
      - rewrite (He Hin) in Hs. lock_numbers. lia.
      - rewrite modes_value_shared in Hs by done. destruct modes; [done|cbn [length] in Hs; lia]. }
    split; [done|]. split; [|by vm_compute|done]. cbn in Hs. unfold u32. rewrite Hs. by vm_compute.
  - intros ->. cbn in Hs. lia.
Qed.

Lemma release_ok state mode modes : LWLock_ok state (mode :: modes) -> LWLock_ok (LWLockReleaseInternal state mode) modes.
Proof.
  intros Hok. pose proof (LWLock_ok_range _ _ Hok) as Hr. destruct Hok as [Hs Hc He]. cbn [modes_value foldr length] in *. fold (modes_value modes) in Hs.
  assert (LW_EXCLUSIVE ∉ modes) as Hout.
  { intros Hin. assert (LW_EXCLUSIVE ∈ mode :: modes) as Hin' by by right. specialize (He Hin'). injection He as _ ->. by apply elem_of_nil in Hin. }
  split; [|lia|done].
  assert (LWLockReleaseInternal state mode = u32 (state - mode_value mode)) as -> by by destruct mode.
  unfold u32. rewrite Hs, modes_value_shared by done. rewrite Z.mod_small; [lia|].
  destruct mode; cbn [mode_value] in *; lock_numbers; lia.
Qed.

(** ** The locks of all backends *)

Section System.
Context {K : Type} `{EqDecision K}.

Definition modes_of (lock : K) (held : held_lwlocks K) : list LWLockMode := (filter (fun x => x.1 = lock) held).*2.
Definition holders (lock : K) (hs : list (held_lwlocks K)) : list LWLockMode := hs ≫= modes_of lock.

(** The words count the holders. *)
Definition locks_ok (words : K -> Z) (hs : list (held_lwlocks K)) : Prop := forall lock, LWLock_ok (words lock) (holders lock hs).

Lemma elem_of_modes_of lock mode held : mode ∈ modes_of lock held <-> (lock, mode) ∈ held.
Proof.
  unfold modes_of. rewrite list_elem_of_fmap. split.
  - intros ([l m] & -> & [Hl Hin]%list_elem_of_filter). cbn in *. by subst.
  - intros Hin. exists (lock, mode). split; [done|]. by apply list_elem_of_filter.
Qed.

Lemma modes_of_cons lock l mode held : modes_of lock ((l, mode) :: held) = if decide (l = lock) then mode :: modes_of lock held else modes_of lock held.
Proof. unfold modes_of. unfold filter. cbn. by case_decide. Qed.

Lemma modes_of_absent (lock : K) held : lock ∉ held.*1 -> modes_of lock held = [].
Proof.
  intros Hn. destruct (modes_of lock held) as [|m l] eqn:Hm; [done|]. destruct Hn.
  assert ((lock, m) ∈ held) as Hin by (apply elem_of_modes_of; rewrite Hm; left). by apply (list_elem_of_fmap_2 fst) in Hin.
Qed.

Lemma modes_of_once (lock : K) held : NoDup held.*1 -> (length (modes_of lock held) <= 1)%nat.
Proof.
  induction held as [|[l m] held IH]; intros Hnd; [cbn; lia|]. rewrite modes_of_cons. cbn in Hnd. apply list.NoDup_cons in Hnd as [Hn Hnd].
  case_decide as Hl; [|by apply IH]. subst l. rewrite modes_of_absent by done. cbn. lia.
Qed.

Lemma holders_insert lock hs i h h' : hs !! i = Some h -> exists rest,
  holders lock hs ≡ₚ modes_of lock h ++ rest /\ holders lock (<[i := h']> hs) ≡ₚ modes_of lock h' ++ rest.
Proof. apply bind_insert. Qed.

Lemma holders_length lock hs : (forall h, h ∈ hs -> length (modes_of lock h) <= 1)%nat -> (length (holders lock hs) <= length hs)%nat.
Proof.
  induction hs as [|h hs IH]; intros Hle; [done|]. unfold holders in *. cbn. rewrite length_app.
  pose proof (Hle h ltac:(left)). assert (length (hs ≫= modes_of lock) <= length hs)%nat; [|lia]. apply IH. intros h' Hh. apply Hle. by right.
Qed.

(** Who holds a lock exclusively holds it alone. *)
Lemma exclusive_alone words hs lock i j h h' mode : locks_ok words hs -> hs !! i = Some h -> (lock, LW_EXCLUSIVE) ∈ h ->
  hs !! j = Some h' -> (lock, mode) ∈ h' -> i = j.
Proof.
  intros Hok Hi Hex Hj Hm. destruct (decide (i = j)) as [|Hne]; [done|exfalso].
  destruct (holders_insert lock hs i h [] Hi) as (rest & Hp & Hrest). cbn in Hrest.
  assert (mode ∈ rest) as Hin.
  { rewrite <- Hrest. unfold holders. apply list_elem_of_bind. exists h'. split; [by apply elem_of_modes_of|].
    apply (list_elem_of_lookup_2 _ j). by rewrite list_lookup_insert_ne. }
  pose proof (Hok lock) as Hl. rewrite Hp in Hl. apply elem_of_modes_of in Hex.
  assert (modes_of lock h ++ rest = [LW_EXCLUSIVE]) as He by (apply (lw_exclusive _ _ Hl), elem_of_app; by left).
  destruct (modes_of lock h) as [|m l]; [by apply elem_of_nil in Hex|]. injection He as _ [-> ->]%app_eq_nil. by apply elem_of_nil in Hin.
Qed.

Lemma LWLockAcquire_ok words hs i h lock mode : locks_ok words hs -> hs !! i = Some h -> modes_of lock h = [] ->
  (forall h, h ∈ hs -> length (modes_of lock h) <= 1)%nat -> Z.of_nat (length hs) <= MAX_BACKENDS -> (length h < MAX_SIMUL_LWLOCKS)%nat ->
  match LWLockAcquire words h lock mode with
  | Ok (Some (words', h')) => h' = (lock, mode) :: h /\ locks_ok words' (<[i := h']> hs)
  | Ok None => exists j h' mode', hs !! j = Some h' /\ (lock, mode') ∈ h'
  | Err _ => False
  end.
Proof.
  intros Hok Hi Hnone Hone Hn Hlen. unfold LWLockAcquire. destruct (Nat.leb_spec MAX_SIMUL_LWLOCKS (length h)); [lia|]. cbn [raise_if]. rewrite bind_Ok.
  assert (forall w', LWLock_ok w' (mode :: holders lock hs) -> locks_ok (<[lock := w']> words) (<[i := (lock, mode) :: h]> hs)) as Hnew.
  { intros w' Hw l. destruct (holders_insert l hs i h ((lock, mode) :: h) Hi) as (rest & Hp & Hp'). rewrite modes_of_cons in Hp'.
    destruct (decide (lock = l)) as [<-|Hne].
    - rewrite fn_lookup_insert, Hp'. cbn. by rewrite <- Hp.
    - rewrite fn_lookup_insert_ne by done. rewrite Hp', <- Hp. apply Hok. }
  assert (holders lock hs <> [] -> exists j h' mode', hs !! j = Some h' /\ (lock, mode') ∈ h') as Hsome.
  { intros Hne. destruct (holders lock hs) as [|m l] eqn:E; [done|]. assert (m ∈ holders lock hs) as Hin by (rewrite E; left).
    apply list_elem_of_bind in Hin as (h' & Hm & [j Hj]%list_elem_of_lookup). exists j, h', m. split; [done|]. by apply elem_of_modes_of. }
  assert (length (holders lock hs) < length hs)%nat as Hlt.
  { assert (holders lock hs ≡ₚ holders lock (delete i hs)) as Hp.
    { transitivity ((h :: delete i hs) ≫= modes_of lock); [unfold holders; by rewrite <- (delete_Permutation hs i h Hi)|]. cbn. by rewrite Hnone. }
    rewrite (Permutation_length Hp).
    apply Nat.le_lt_trans with (length (delete i hs)).
    - apply holders_length. intros h' Hh'. apply Hone. by eapply list_elem_of_delete_inv.
    - pose proof (lookup_lt_Some _ _ _ Hi). rewrite length_delete by (eexists; exact Hi). lia. }
  destruct mode.
  - pose proof (attempt_exclusive _ _ (Hok lock)) as Ha. destruct (LWLockAttemptLock _ _) as [w'|]; [|by apply Hsome].
    destruct Ha as [He Hw]. split; [done|]. apply Hnew. by rewrite He.
  - pose proof (attempt_shared _ _ (Hok lock)) as Ha. destruct (LWLockAttemptLock _ _) as [w'|]; [split; [done|]; apply Hnew, Ha; lia|].
    apply Hsome. rewrite Ha by lia. done.
Qed.

Lemma disown_Permutation (h : held_lwlocks K) lock mode h' : LWLockDisownInternal h lock = Ok (mode, h') -> h ≡ₚ (lock, mode) :: h'.
Proof.
  revert h'. induction h as [|[l m] h IH]; intros h' Hd; [done|]. cbn in Hd. case_decide as Hl.
  - injection Hd as -> ->. by subst.
  - destruct (LWLockDisownInternal h lock) as [[m' h2]|]; [|done]. cbn in Hd. injection Hd as -> <-. rewrite (IH h2) by done. constructor.
Qed.

Lemma LWLockRelease_ok words hs i h lock mode h' : locks_ok words hs -> hs !! i = Some h -> LWLockDisownInternal h lock = Ok (mode, h') ->
  exists words', LWLockRelease words h lock = Ok (words', h') /\ locks_ok words' (<[i := h']> hs).
Proof.
  intros Hok Hi Hd. unfold LWLockRelease. rewrite Hd, bind_Ok. eexists. split; [done|]. intros l.
  pose proof (disown_Permutation _ _ _ _ Hd) as Hh. destruct (holders_insert l hs i h h' Hi) as (rest & Hp & Hp').
  assert (modes_of l h ≡ₚ modes_of l ((lock, mode) :: h')) as Hm by (unfold modes_of; by rewrite Hh). rewrite Hm, modes_of_cons in Hp.
  destruct (decide (lock = l)) as [<-|Hne].
  - rewrite fn_lookup_insert, Hp'. apply release_ok. pose proof (Hok lock) as Hl. by rewrite Hp in Hl.
  - rewrite fn_lookup_insert_ne by done. rewrite Hp', <- Hp. apply Hok.
Qed.
End System.
