(* ===== verification/LWLockQueue.v ===== *)
(** * The wait queue of a lightweight lock

    What LWLockAcquire and LWLockRelease of src/pgvec/src/backend/storage/lmgr/lwlock.c
    do when processes wait for each other, as a machine: [lwlock_step] is one
    access of a process to shared memory or to a semaphore, and any process may do the
    next one.  Every process takes and releases one lock in the modes of its list.

    A loop around a compare-and-exchange is one access, the one that succeeds.
    The queue is only read and written by the process that has set
    [LW_FLAG_LOCKED], so going through it is one step, too.  Waiters in the mode
    LW_WAIT_UNTIL_FREE, which wait without taking the lock, are not modelled. *)

From stdpp Require Import functions.
From S2P Require Import Prelude LWLock.

(** ** Shared memory *)

Inductive LWLockWaitState : Type := LW_WS_NOT_WAITING | LW_WS_WAITING | LW_WS_PENDING_WAKEUP.

#[export] Instance LWLockWaitState_eq_dec : EqDecision LWLockWaitState.
Proof. solve_decision. Defined.

Definition LW_FLAG_HAS_WAITERS : Z := Z.shiftl 1 31.
Definition LW_FLAG_LOCKED : Z := Z.shiftl 1 29.

(** The lock, and of the [PGPROC] of every process what the lock uses. *)
Record LockShared := mkLockShared {
  lk_state : Z;
  lk_waiters : list nat;
  lwWaiting : nat -> LWLockWaitState;
  lwWaitMode : nat -> LWLockMode;
  pg_sem : nat -> nat
}.

Definition set_lk_state w s := mkLockShared w (lk_waiters s) (lwWaiting s) (lwWaitMode s) (pg_sem s).
Definition set_lk_waiters l s := mkLockShared (lk_state s) l (lwWaiting s) (lwWaitMode s) (pg_sem s).
Definition set_lwWaiting f s := mkLockShared (lk_state s) (lk_waiters s) f (lwWaitMode s) (pg_sem s).
Definition set_lwWaitMode f s := mkLockShared (lk_state s) (lk_waiters s) (lwWaiting s) f (pg_sem s).
Definition set_pg_sem f s := mkLockShared (lk_state s) (lk_waiters s) (lwWaiting s) (lwWaitMode s) f.

(** ** The operations on the word *)

Definition fetch_or (flag : Z) (s : LockShared) : LockShared := set_lk_state (Z.lor (lk_state s) flag) s.
Definition fetch_and_not (flag : Z) (s : LockShared) : LockShared := set_lk_state (Z.land (lk_state s) (2 ^ 32 - 1 - flag)) s.

(** [None]: the list is locked by another process. *)
Definition LWLockWaitListLock (s : LockShared) : option LockShared :=
  if Z.land (lk_state s) LW_FLAG_LOCKED =? 0 then Some (fetch_or LW_FLAG_LOCKED s) else None.
Definition LWLockWaitListUnlock (s : LockShared) : LockShared := fetch_and_not LW_FLAG_LOCKED s.

Definition check_waiters (oldstate : Z) : bool :=
  (Z.land oldstate (Z.lor LW_FLAG_HAS_WAITERS LW_FLAG_RELEASE_OK) =? Z.lor LW_FLAG_HAS_WAITERS LW_FLAG_RELEASE_OK)
  && (Z.land oldstate LW_LOCK_MASK =? 0).

(** The loop of LWLockWakeup over the queue: who is woken, who stays. *)
Fixpoint collect_waiters (mode : nat -> LWLockMode) (wokeup_somebody : bool) (waiters : list nat) : list nat * list nat :=
  match waiters with
  | [] => ([], [])
  | waiter :: waiters =>
      let exclusive := bool_decide (mode waiter = LW_EXCLUSIVE) in
      if wokeup_somebody && exclusive then
        let '(wakeup, rest) := collect_waiters mode wokeup_somebody waiters in (wakeup, waiter :: rest)
      else if exclusive then ([waiter], waiters)
      else let '(wakeup, rest) := collect_waiters mode true waiters in (waiter :: wakeup, rest)
  end.

(** The flags after it: a new wakeup must wait until one of those woken has run. *)
Definition wakeup_flags (wakeup : list nat) (s : LockShared) : LockShared :=
  let new_release_ok := match wakeup with [] => true | _ => false end in
  let s := if new_release_ok then fetch_or LW_FLAG_RELEASE_OK s else fetch_and_not LW_FLAG_RELEASE_OK s in
  let s := match wakeup with [] => fetch_and_not LW_FLAG_HAS_WAITERS s | _ => s end in
  fetch_and_not LW_FLAG_LOCKED s.

(** ** The places of a process *)

Inductive LockPC : Type :=
  (* LWLockAcquire and LWLockQueueSelf *)
  | AttemptFirst
  | QueueLock
  | QueueFlag
  | QueuePush
  | QueueUnlock
  | AttemptSecond
  | SleepDown
  | SleepTest
  | SetReleaseOk
  (* LWLockDequeueSelf *)
  | DequeueLock
  | DequeueRemove
  | DequeueTest (on_waitlist : bool)
  | DequeueClear (on_waitlist : bool)
  | DequeueUnlock (on_waitlist : bool)
  | DequeueDone (on_waitlist : bool)
  | DequeueDown (absorbed : nat)
  | DequeueTestWait (absorbed : nat)
  | DequeueUp (absorbed : nat)
  (* the end of LWLockAcquire *)
  | RestoreSem
  (* the section the lock protects, and LWLockRelease *)
  | InLock
  (* LWLockWakeup *)
  | WakeLock
  | WakeCollect
  | WakeFlags (wakeup : list nat)
  | WakeNext (wakeup : list nat)
  | WakeUp (waiter : nat) (wakeup : list nat).

#[export] Instance LockPC_eq_dec : EqDecision LockPC.
Proof. solve_decision. Defined.

(** The modes in which the process still takes the lock, the first one now, and
    [extraWaits] of LWLockAcquire. *)
Record LockProc := mkLockProc { lp_pc : LockPC; lp_todo : list LWLockMode; lp_extraWaits : nat }.

Definition lp_goto pc p := mkLockProc pc (lp_todo p) (lp_extraWaits p).
Definition lp_set_extraWaits n p := mkLockProc (lp_pc p) (lp_todo p) n.
Definition lp_set_todo todo p := mkLockProc (lp_pc p) todo (lp_extraWaits p).

(** ** The steps *)

Definition lp_continue (pc : LockPC) (s : LockShared) (p : LockProc) : res (option (LockShared * LockProc)) := Ok (Some (s, lp_goto pc p)).

Definition lp_attempt (got failed : LockPC) (s : LockShared) (p : LockProc) : res (option (LockShared * LockProc)) :=
  match lp_todo p with
  | [] => Ok None
  | mode :: _ =>
      match LWLockAttemptLock (lk_state s) mode with
      | Some w => lp_continue got (set_lk_state w s) p
      | None => lp_continue failed s p
      end
  end.

Definition lp_list_lock (next : LockPC) (s : LockShared) (p : LockProc) : res (option (LockShared * LockProc)) :=
  match LWLockWaitListLock s with Some s => lp_continue next s p | None => Ok None end.

Definition PGSemaphoreLock (i : nat) (s : LockShared) : option LockShared :=
  match pg_sem s i with O => None | S n => Some (set_pg_sem (<[i := n]> (pg_sem s)) s) end.
Definition PGSemaphoreUnlock (i : nat) (s : LockShared) : LockShared := set_pg_sem (<[i := S (pg_sem s i)]> (pg_sem s)) s.

Definition lp_down (i : nat) (next : LockPC) (s : LockShared) (p : LockProc) : res (option (LockShared * LockProc)) :=
  match PGSemaphoreLock i s with Some s => lp_continue next s p | None => Ok None end.

Definition not_waiting (i : nat) (s : LockShared) : bool := bool_decide (lwWaiting s i = LW_WS_NOT_WAITING).

(** [None]: the process waits, or has nothing left to do. *)
Definition lwlock_step (i : nat) (s : LockShared) (p : LockProc) : res (option (LockShared * LockProc)) :=
  match lp_pc p with
  | AttemptFirst => lp_attempt RestoreSem QueueLock s p
  | QueueLock => raise_if (negb (not_waiting i s)) ERR_queueing_while_waiting ;; lp_list_lock QueueFlag s p
  | QueueFlag => lp_continue QueuePush (fetch_or LW_FLAG_HAS_WAITERS s) p
  | QueuePush =>
      let s := set_lwWaiting (<[i := LW_WS_WAITING]> (lwWaiting s)) s in
      let s := match lp_todo p with mode :: _ => set_lwWaitMode (<[i := mode]> (lwWaitMode s)) s | [] => s end in
      lp_continue QueueUnlock (set_lk_waiters (lk_waiters s ++ [i]) s) p
  | QueueUnlock => lp_continue AttemptSecond (LWLockWaitListUnlock s) p
  | AttemptSecond => lp_attempt DequeueLock SleepDown s p
  | SleepDown => lp_down i SleepTest s p
  | SleepTest =>
      if not_waiting i s then lp_continue SetReleaseOk s p
      else lp_continue SleepDown s (lp_set_extraWaits (S (lp_extraWaits p)) p)
  | SetReleaseOk => lp_continue AttemptFirst (fetch_or LW_FLAG_RELEASE_OK s) p
  | DequeueLock => lp_list_lock DequeueRemove s p
  | DequeueRemove =>
      if bool_decide (lwWaiting s i = LW_WS_WAITING)
      then lp_continue (DequeueTest true) (set_lk_waiters (filter (fun j => j <> i) (lk_waiters s)) s) p
      else lp_continue (DequeueTest false) s p
  | DequeueTest on_waitlist =>
      lp_continue (if bool_decide (lk_waiters s = []) && negb (Z.land (lk_state s) LW_FLAG_HAS_WAITERS =? 0)
                   then DequeueClear on_waitlist else DequeueUnlock on_waitlist) s p
  | DequeueClear on_waitlist => lp_continue (DequeueUnlock on_waitlist) (fetch_and_not LW_FLAG_HAS_WAITERS s) p
  | DequeueUnlock on_waitlist => lp_continue (DequeueDone on_waitlist) (LWLockWaitListUnlock s) p
  | DequeueDone on_waitlist =>
      if on_waitlist then lp_continue RestoreSem (set_lwWaiting (<[i := LW_WS_NOT_WAITING]> (lwWaiting s)) s) p
      else lp_continue (DequeueDown 0) (fetch_or LW_FLAG_RELEASE_OK s) p
  | DequeueDown absorbed => lp_down i (DequeueTestWait absorbed) s p
  | DequeueTestWait absorbed => lp_continue (if not_waiting i s then DequeueUp absorbed else DequeueDown (S absorbed)) s p
  | DequeueUp absorbed =>
      match absorbed with
      | O => lp_continue RestoreSem s p
      | S absorbed => lp_continue (DequeueUp absorbed) (PGSemaphoreUnlock i s) p
      end
  | RestoreSem =>
      match lp_extraWaits p with
      | O => lp_continue InLock s p
      | S n => lp_continue RestoreSem (PGSemaphoreUnlock i s) (lp_set_extraWaits n p)
      end
  | InLock =>
      match lp_todo p with
      | [] => Ok None
      | mode :: todo =>
          let oldstate := LWLockReleaseInternal (lk_state s) mode in
          lp_continue (if check_waiters oldstate then WakeLock else AttemptFirst) (set_lk_state oldstate s) (lp_set_todo todo p)
      end
  | WakeLock => lp_list_lock WakeCollect s p
  | WakeCollect =>
      let '(wakeup, rest) := collect_waiters (lwWaitMode s) false (lk_waiters s) in
      let waiting := fun j => if bool_decide (j ∈ wakeup) then LW_WS_PENDING_WAKEUP else lwWaiting s j in
      lp_continue (WakeFlags wakeup) (set_lk_waiters rest (set_lwWaiting waiting s)) p
  | WakeFlags wakeup => lp_continue (WakeNext wakeup) (wakeup_flags wakeup s) p
  | WakeNext wakeup =>
      match wakeup with
      | [] => lp_continue AttemptFirst s p
      | waiter :: wakeup => lp_continue (WakeUp waiter wakeup) (set_lwWaiting (<[waiter := LW_WS_NOT_WAITING]> (lwWaiting s)) s) p
      end
  | WakeUp waiter wakeup => lp_continue (WakeNext wakeup) (PGSemaphoreUnlock waiter s) p
  end.

(** Any process that can do a step may do it. *)
Inductive locks_step : LockShared * list LockProc -> LockShared * list LockProc -> Prop :=
  | locks_step_intro i s p s' p' procs : procs !! i = Some p -> lwlock_step i s p = Ok (Some (s', p')) ->
      locks_step (s, procs) (s', <[i := p']> procs).

(** A new lock; the semaphores may have been signaled before. *)
Definition locks_init (sem : nat -> nat) (programs : list (list LWLockMode)) : LockShared * list LockProc :=
  (mkLockShared LWLockInitialize [] (fun _ => LW_WS_NOT_WAITING) (fun _ => LW_SHARED) sem,
   (fun todo => mkLockProc AttemptFirst todo 0) <$> programs).

(** The run of a schedule. *)
Fixpoint run_locks (schedule : list nat) (c : LockShared * list LockProc) : res (LockShared * list LockProc) :=
  match schedule with
  | [] => Ok c
  | i :: schedule =>
      match c.2 !! i with
      | None => run_locks schedule c
      | Some p =>
          r ← lwlock_step i c.1 p ;
          run_locks schedule (match r with Some (s', p') => (s', <[i := p']> c.2) | None => c end)
      end
  end.
