(* ===== verification/LWLockQueueSpec.v ===== *)
(** * The wait queue of a lightweight lock: correctness

    In every interleaving of the machine of LWLockQueue.v a process that holds the lock
    exclusively holds it alone, no step fails, no wakeup is lost, and every process gets
    the lock as often as it wants it.

    The invariant says that the word counts the holders, that one process at a time
    has the queue, that the queue, [lwWaiting] and the wakeups on their way agree for
    every process, that no signal of a semaphore is lost, and that with
    waiters and a free lock somebody is going to look at the lock again. *)

From stdpp Require Import functions relations.
From S2P Require Import Prelude LWLock LWLockQueue.

(** ** The word *)

Record LockFlags := mkLockFlags { fl_waiters : bool; fl_release_ok : bool; fl_locked : bool }.

Definition flag_bits (fl : LockFlags) : Z :=
  (if fl_waiters fl then 4 else 0) + (if fl_release_ok fl then 2 else 0) + (if fl_locked fl then 1 else 0).
Definition lock_word (fl : LockFlags) (v : Z) : Z := flag_bits fl * 2 ^ 29 + v.

Lemma flag_bits_range fl : 0 <= flag_bits fl < 8.
Proof. destruct fl as [[] [] []]; unfold flag_bits; cbn [fl_waiters fl_release_ok fl_locked]; lia. Qed.

Lemma lock_word_land a v b c : 0 <= v < 2 ^ 29 -> 0 <= c < 2 ^ 29 ->
  Z.land (a * 2 ^ 29 + v) (b * 2 ^ 29 + c) = Z.land a b * 2 ^ 29 + Z.land v c.
Proof.
  intros Hv Hc. rewrite <- !lor_shiftl_low by lia.
  assert (0 <= Z.land v c < 2 ^ 29) as Hvc.
  { split; [apply Z.land_nonneg; lia|]. destruct (Z.eq_dec (Z.land v c) 0) as [->|Hne]; [done|].
    apply Z.log2_lt_pow2; [pose proof (proj2 (Z.land_nonneg v c)); lia|]. eapply Z.le_lt_trans; [apply Z.log2_land; lia|].
    apply Z.min_lt_iff. left. destruct (Z.eq_dec v 0) as [->|]; [by rewrite Z.land_0_l in Hne|apply Z.log2_lt_pow2; lia]. }
  rewrite <- lor_shiftl_low by lia. apply Z.bits_inj'. intros n Hn. rewrite !Z.land_spec, !Z.lor_spec, !Z.shiftl_spec, !Z.land_spec by lia.
  destruct (Z_lt_le_dec n 29) as [Hlt|Hge].
  - rewrite !(Z.testbit_neg_r _ (n - 29)) by lia. done.
  - rewrite <- (Z.mod_small v (2 ^ 29)), <- (Z.mod_small c (2 ^ 29)) by lia. rewrite !Z.mod_pow2_bits_high by lia. by rewrite !orb_false_r.
Qed.

Lemma lock_word_lor a v b : 0 <= v < 2 ^ 29 -> Z.lor (a * 2 ^ 29 + v) (b * 2 ^ 29) = Z.lor a b * 2 ^ 29 + v.
Proof.
  intros Hv. rewrite <- !lor_shiftl_low by lia. rewrite <- (Z.shiftl_mul_pow2 b) by lia. rewrite Z.shiftl_lor, <- !Z.lor_assoc.
  f_equal. apply Z.lor_comm.
Qed.

Section Word.
Context (v : Z) (Hv : 0 <= v < 2 ^ 29).

Lemma word_low fl m : 0 <= m < 2 ^ 29 -> Z.land (lock_word fl v) m = Z.land v m.
Proof using Hv. intros Hm. change m with (0 * 2 ^ 29 + m). unfold lock_word. rewrite lock_word_land by lia. by rewrite Z.land_0_r. Qed.

(** Flags one at a time; both operands are 32-bit words. *)
Lemma word_or fl k : Z.lor (lock_word fl v) (k * 2 ^ 29) = Z.lor (flag_bits fl) k * 2 ^ 29 + v.
Proof using Hv. by apply lock_word_lor. Qed.

Lemma word_and_not fl k : 2 ^ 32 - 1 - k * 2 ^ 29 = (7 - k) * 2 ^ 29 + (2 ^ 29 - 1) ->
  Z.land (lock_word fl v) (2 ^ 32 - 1 - k * 2 ^ 29) = Z.land (flag_bits fl) (7 - k) * 2 ^ 29 + v.
Proof using Hv.
  intros ->. unfold lock_word. rewrite lock_word_land by lia. f_equal. change (2 ^ 29 - 1) with (Z.ones 29). rewrite Z.land_ones by lia. by apply Z.mod_small.
Qed.

Lemma word_flag fl k : Z.land (lock_word fl v) (k * 2 ^ 29) = Z.land (flag_bits fl) k * 2 ^ 29.
Proof using Hv.
  replace (k * 2 ^ 29) with (k * 2 ^ 29 + 0) at 1 by lia. unfold lock_word. rewrite lock_word_land by lia. rewrite Z.land_0_r. lia.
Qed.
End Word.

Definition with_waiters b fl := mkLockFlags b (fl_release_ok fl) (fl_locked fl).
Definition with_release_ok b fl := mkLockFlags (fl_waiters fl) b (fl_locked fl).
Definition with_locked b fl := mkLockFlags (fl_waiters fl) (fl_release_ok fl) b.

(** What [s] looks like: flags and the value of the holders. *)
Definition word_is (s : LockShared) (fl : LockFlags) (v : Z) : Prop := lk_state s = lock_word fl v /\ 0 <= v < 2 ^ 29.

Ltac flag_op := intros [Hw Hv]; (split; [|done]); cbn [fetch_or fetch_and_not set_lk_state lk_state]; rewrite Hw.

Lemma or_waiters s fl v : word_is s fl v -> word_is (fetch_or LW_FLAG_HAS_WAITERS s) (with_waiters true fl) v.
Proof. flag_op. change LW_FLAG_HAS_WAITERS with (4 * 2 ^ 29). rewrite word_or by done. by destruct fl as [[] [] []]. Qed.
Lemma or_release_ok s fl v : word_is s fl v -> word_is (fetch_or LW_FLAG_RELEASE_OK s) (with_release_ok true fl) v.
Proof. flag_op. change LW_FLAG_RELEASE_OK with (2 * 2 ^ 29). rewrite word_or by done. by destruct fl as [[] [] []]. Qed.
Lemma or_locked s fl v : word_is s fl v -> word_is (fetch_or LW_FLAG_LOCKED s) (with_locked true fl) v.
Proof. flag_op. change LW_FLAG_LOCKED with (1 * 2 ^ 29). rewrite word_or by done. by destruct fl as [[] [] []]. Qed.
Lemma and_waiters s fl v : word_is s fl v -> word_is (fetch_and_not LW_FLAG_HAS_WAITERS s) (with_waiters false fl) v.
Proof. flag_op. change LW_FLAG_HAS_WAITERS with (4 * 2 ^ 29). rewrite word_and_not by done. by destruct fl as [[] [] []]. Qed.
Lemma and_release_ok s fl v : word_is s fl v -> word_is (fetch_and_not LW_FLAG_RELEASE_OK s) (with_release_ok false fl) v.
Proof. flag_op. change LW_FLAG_RELEASE_OK with (2 * 2 ^ 29). rewrite word_and_not by done. by destruct fl as [[] [] []]. Qed.
Lemma and_locked s fl v : word_is s fl v -> word_is (fetch_and_not LW_FLAG_LOCKED s) (with_locked false fl) v.
Proof. flag_op. change LW_FLAG_LOCKED with (1 * 2 ^ 29). rewrite word_and_not by done. by destruct fl as [[] [] []]. Qed.

Lemma locked_test s fl v : word_is s fl v -> (Z.land (lk_state s) LW_FLAG_LOCKED =? 0) = negb (fl_locked fl).
Proof. intros [Hw Hv]. rewrite Hw. change LW_FLAG_LOCKED with (1 * 2 ^ 29). rewrite word_flag by done. by destruct fl as [[] [] []]. Qed.

Lemma has_waiters_test s fl v : word_is s fl v -> (Z.land (lk_state s) LW_FLAG_HAS_WAITERS =? 0) = negb (fl_waiters fl).
Proof. intros [Hw Hv]. rewrite Hw. change LW_FLAG_HAS_WAITERS with (4 * 2 ^ 29). rewrite word_flag by done. by destruct fl as [[] [] []]. Qed.

Lemma wakeup_flags_ok wakeup s fl v : word_is s fl v ->
  word_is (wakeup_flags wakeup s)
    (match wakeup with [] => mkLockFlags false true false | _ => mkLockFlags (fl_waiters fl) false false end) v.
Proof.
  intros Hw. unfold wakeup_flags. destruct wakeup.
  - by apply (and_locked _ (with_waiters false (with_release_ok true fl))), and_waiters, or_release_ok.
  - by apply (and_locked _ (with_release_ok false fl)), and_release_ok.
Qed.

Lemma wakeup_flags_same wakeup s : lk_waiters (wakeup_flags wakeup s) = lk_waiters s /\ lwWaiting (wakeup_flags wakeup s) = lwWaiting s /\
  pg_sem (wakeup_flags wakeup s) = pg_sem s.
Proof. unfold wakeup_flags. by destruct wakeup. Qed.

(** ** The holders *)

(** Modes in which the lock can be held together. *)
Definition modes_fine (modes : list LWLockMode) : Prop := LWLock_ok (LW_FLAG_RELEASE_OK + modes_value modes) modes.

#[export] Instance modes_fine_proper : Proper (Permutation ==> iff) modes_fine.
Proof. intros l l' Hp. unfold modes_fine. by rewrite Hp. Qed.

Lemma modes_fine_range modes : modes_fine modes -> 0 <= modes_value modes <= LW_VAL_EXCLUSIVE.
Proof. intros Hm. pose proof (LWLock_ok_range _ _ Hm). lia. Qed.

Lemma word_low_same fl v m : 0 <= v < 2 ^ 29 -> 0 <= m < 2 ^ 29 -> Z.land (lock_word fl v) m = Z.land (LW_FLAG_RELEASE_OK + v) m.
Proof.
  intros Hv Hm. rewrite word_low by done. change LW_FLAG_RELEASE_OK with (2 * 2 ^ 29). symmetry. apply (word_low v Hv (mkLockFlags false true false) m Hm).
Qed.

Lemma attempt_word s fl modes mode : word_is s fl (modes_value modes) -> modes_fine modes -> Z.of_nat (length modes) < MAX_BACKENDS ->
  match LWLockAttemptLock (lk_state s) mode with
  | Some w => word_is (set_lk_state w s) fl (modes_value (mode :: modes)) /\ modes_fine (mode :: modes)
  | None => modes <> []
  end.
Proof.
  intros [Hw Hv] Hm Hlt. rewrite Hw. pose proof (attempt_shared _ _ Hm Hlt) as Hs. pose proof (attempt_exclusive _ _ Hm) as He.
  assert (forall state', LWLock_ok state' (mode :: modes) -> word_is (set_lk_state (u32 (lock_word fl (modes_value modes) + mode_value mode)) s) fl (modes_value (mode :: modes)) /\ modes_fine (mode :: modes)) as Hnew.
  { intros state' Hok. assert (modes_fine (mode :: modes)) as Hf by (unfold modes_fine; rewrite <- (lw_state _ _ Hok); done).
    split; [|done]. pose proof (modes_fine_range _ Hf) as Hr. lock_numbers. pose proof (flag_bits_range fl).
    assert (modes_value (mode :: modes) = modes_value modes + mode_value mode) as Hadd by (cbn; fold (modes_value modes); lia).
    split; [|lia]. cbn [set_lk_state lk_state]. rewrite Hadd in *. unfold u32, lock_word in *. rewrite Z.mod_small; lia. }
  destruct mode; unfold LWLockAttemptLock in *; rewrite word_low_same by done.
  - clear Hs. destruct (_ =? 0); [|exact He]. destruct He as [-> Hok]. by apply (Hnew _ Hok).
  - clear He. destruct (_ =? 0); [|by rewrite Hs]. destruct Hs as [_ Hok]. by apply (Hnew _ Hok).
Qed.

Lemma modes_value_cons mode modes : modes_value (mode :: modes) = mode_value mode + modes_value modes.
Proof. done. Qed.

Lemma mode_value_pos mode : 0 < mode_value mode.
Proof. by destruct mode. Qed.

Lemma modes_value_nonneg modes : 0 <= modes_value modes.
Proof. induction modes as [|mode modes IH]; [done|]. rewrite modes_value_cons. pose proof (mode_value_pos mode). lia. Qed.

Lemma modes_value_zero modes : modes_value modes = 0 -> modes = [].
Proof.
  destruct modes as [|mode modes]; [done|]. rewrite modes_value_cons. pose proof (mode_value_pos mode). pose proof (modes_value_nonneg modes). lia.
Qed.

Lemma check_word s fl modes : word_is s fl (modes_value modes) -> modes_fine modes ->
  check_waiters (lk_state s) = fl_waiters fl && fl_release_ok fl && bool_decide (modes = []).
Proof.
  intros [Hw Hv] Hm. unfold check_waiters. rewrite Hw. f_equal.
  - change (Z.lor LW_FLAG_HAS_WAITERS LW_FLAG_RELEASE_OK) with (6 * 2 ^ 29). rewrite word_flag by done. by destruct fl as [[] [] []].
  - rewrite word_low_same by done. rewrite land_lock_mask by by apply modes_fine_range.
    destruct (Z.eqb_spec (modes_value modes) 0) as [Hz|Hz].
    + by rewrite (modes_value_zero _ Hz).
    + rewrite bool_decide_false; [done|]. intros ->. by apply Hz.
Qed.

Lemma release_word s fl modes mode : word_is s fl (modes_value (mode :: modes)) -> modes_fine (mode :: modes) ->
  word_is (set_lk_state (LWLockReleaseInternal (lk_state s) mode) s) fl (modes_value modes) /\ modes_fine modes.
Proof.
  intros [Hw Hv] Hm. pose proof (release_ok _ _ _ Hm) as Hr.
  assert (LW_EXCLUSIVE ∉ modes) as Hout.
  { intros Hin. assert (LW_EXCLUSIVE ∈ mode :: modes) as Hin' by by right. pose proof (lw_exclusive _ _ Hm Hin') as He. injection He as _ ->. by apply elem_of_nil in Hin. }
  assert (modes_fine modes) as Hf by (unfold modes_fine; rewrite <- (lw_state _ _ Hr); done).
  split; [|done]. pose proof (modes_fine_range _ Hf) as Hmr. lock_numbers. pose proof (flag_bits_range fl).
  assert (modes_value (mode :: modes) = modes_value modes + mode_value mode) as Hadd by (cbn; fold (modes_value modes); lia).
  assert (LWLockReleaseInternal (lk_state s) mode = u32 (lk_state s - mode_value mode)) as -> by by destruct mode.
  split; [|lia]. cbn [set_lk_state lk_state]. rewrite Hw, Hadd. unfold u32, lock_word in *. rewrite Z.mod_small; lia.
Qed.

(** ** Where a process is *)

(** It has locked the queue. *)
Definition list_locked (pc : LockPC) : bool :=
  match pc with
  | QueueFlag | QueuePush | QueueUnlock | DequeueRemove | DequeueTest _ | DequeueClear _ | DequeueUnlock _ | WakeCollect | WakeFlags _ => true
  | _ => false
  end.
(** It holds the lock. *)
Definition has_lock (pc : LockPC) : bool :=
  match pc with
  | DequeueLock | DequeueRemove | DequeueTest _ | DequeueClear _ | DequeueUnlock _ | DequeueDone _ | DequeueDown _ | DequeueTestWait _ | DequeueUp _
  | RestoreSem | InLock => true
  | _ => false
  end.
Definition held_modes (p : LockProc) : list LWLockMode := if has_lock (lp_pc p) then take 1 (lp_todo p) else [].
(** It has put itself into the queue; it has taken itself out; somebody else has. *)
Definition queued (pc : LockPC) : bool :=
  match pc with QueueUnlock | AttemptSecond | SleepDown | SleepTest | DequeueLock | DequeueRemove => true | _ => false end.
Definition removed (pc : LockPC) : bool :=
  match pc with DequeueTest b | DequeueClear b | DequeueUnlock b | DequeueDone b => b | _ => false end.
Definition lost (pc : LockPC) : bool :=
  match pc with DequeueTest b | DequeueClear b | DequeueUnlock b | DequeueDone b => negb b | DequeueDown _ | DequeueTestWait _ => true | _ => false end.
Definition needs_mode (pc : LockPC) : bool :=
  match pc with AttemptFirst | WakeLock | WakeCollect | WakeFlags _ | WakeNext _ | WakeUp _ _ => false | _ => true end.

(** Signals of its semaphore that it has taken and will give back, and the one it has just
    taken. *)
Definition absorbed_by (p : LockProc) : nat :=
  (lp_extraWaits p + match lp_pc p with DequeueDown n | DequeueTestWait n | DequeueUp n => n | _ => 0 end)%nat.
(** It has given all of them back. *)
Definition drained (p : LockProc) : bool :=
  match lp_pc p with
  | InLock | WakeLock | WakeCollect | WakeFlags _ | WakeNext _ | WakeUp _ _ => true
  | AttemptFirst => bool_decide (lp_todo p = [])
  | _ => false
  end.
Definition in_hand (pc : LockPC) : Z := match pc with SleepTest | DequeueTestWait _ => 1 | _ => 0 end.

(** The processes it will signal; those of them it has not marked as woken yet. *)
Definition unlocks (p : LockProc) : list nat :=
  match lp_pc p with WakeFlags l | WakeNext l => l | WakeUp j l => j :: l | _ => [] end.
Definition pendings (p : LockProc) : list nat :=
  match lp_pc p with WakeFlags l | WakeNext l | WakeUp _ l => l | _ => [] end.

Definition cnt (i : nat) (l : list nat) : Z := total (fun j => if decide (j = i) then 1 else 0) l.

Definition waits (i : nat) (s : LockShared) : bool := bool_decide (lwWaiting s i = LW_WS_WAITING).
(** A signal is on its way to it or has come. *)
Definition owed (s : LockShared) (i : nat) (pc : LockPC) : Z := if lost pc || queued pc && negb (waits i s) then 1 else 0.
(** It will set [LW_FLAG_RELEASE_OK]. *)
Definition will_release (s : LockShared) (i : nat) (pc : LockPC) : bool :=
  match pc with
  | SetReleaseOk => true
  | DequeueTest b | DequeueClear b | DequeueUnlock b | DequeueDone b => negb b
  | _ => queued pc && negb (waits i s)
  end.
(** It will look at the lock, or wake those who will. *)
Definition guards (s : LockShared) (i : nat) (p : LockProc) : bool :=
  match lp_pc p with
  | AttemptFirst => negb (bool_decide (lp_todo p = []))
  | QueueUnlock | AttemptSecond | SetReleaseOk | WakeLock | WakeCollect => true
  | SleepDown | SleepTest => negb (waits i s)
  | _ => false
  end.

(** The flags after a step. *)
Definition next_flags (pc : LockPC) (fl : LockFlags) : LockFlags :=
  match pc with
  | QueueLock | DequeueLock | WakeLock => with_locked true fl
  | QueueFlag => with_waiters true fl
  | QueueUnlock | DequeueUnlock _ => with_locked false fl
  | SetReleaseOk | DequeueDone false => with_release_ok true fl
  | DequeueClear _ => with_waiters false fl
  | WakeFlags [] => mkLockFlags false true false
  | WakeFlags _ => mkLockFlags (fl_waiters fl) false false
  | _ => fl
  end.

Definition locked_value (p : LockProc) : Z := if list_locked (lp_pc p) then 1 else 0.

Lemma locked_value_nonneg p : 0 <= locked_value p.
Proof. unfold locked_value. destruct (list_locked _); lia. Qed.

Section Invariant.
Context (sem0 : nat -> nat) (n : nat).

(** What holds of one process. *)
Record lock_local (fl : LockFlags) (s : LockShared) (procs : list LockProc) (i : nat) (p : LockProc) : Prop := {
  lo_todo : needs_mode (lp_pc p) = true -> lp_todo p <> [];
  lo_queue : cnt i (lk_waiters s) = if queued (lp_pc p) && waits i s then 1 else 0;
  lo_waiting : match lwWaiting s i with
    | LW_WS_NOT_WAITING => removed (lp_pc p) = false
    | LW_WS_WAITING => queued (lp_pc p) || removed (lp_pc p) = true
    | LW_WS_PENDING_WAKEUP => queued (lp_pc p) || lost (lp_pc p) = true
    end;
  lo_push : lp_pc p = QueuePush -> fl_waiters fl = true;
  lo_clear : (exists b, lp_pc p = DequeueClear b) \/ lp_pc p = WakeFlags [] -> lk_waiters s = [];
  lo_absorbed : (absorbed_by p <= sem0 i)%nat;
  lo_drained : drained p = true -> lp_extraWaits p = O;
  lo_sem : Z.of_nat (pg_sem s i) + total (fun q => cnt i (unlocks q)) procs + Z.of_nat (absorbed_by p) + in_hand (lp_pc p) =
    Z.of_nat (sem0 i) + owed s i (lp_pc p);
  lo_pending : total (fun q => cnt i (pendings q)) procs = if bool_decide (lwWaiting s i = LW_WS_PENDING_WAKEUP) then 1 else 0;
  lo_woken wakeup j : lp_pc p = WakeFlags wakeup -> j ∈ wakeup -> exists q, procs !! j = Some q /\ queued (lp_pc q) = true
}.

Record lock_inv (fl : LockFlags) (c : LockShared * list LockProc) : Prop := {
  li_length : length c.2 = n;
  li_word : word_is c.1 fl (modes_value (c.2 ≫= held_modes));
  li_modes : modes_fine (c.2 ≫= held_modes);
  li_locked : total locked_value c.2 = if fl_locked fl then 1 else 0;
  li_has : lk_waiters c.1 <> [] -> fl_waiters fl = true;
  li_range j : j ∈ lk_waiters c.1 -> (j < n)%nat;
  li_local i p : c.2 !! i = Some p -> lock_local fl c.1 c.2 i p;
  li_release : fl_release_ok fl = false -> exists i p, c.2 !! i = Some p /\ will_release c.1 i (lp_pc p) = true;
  li_guard : c.2 ≫= held_modes = [] -> lk_waiters c.1 <> [] -> exists i p, c.2 !! i = Some p /\ guards c.1 i p = true
}.

(** *** Counting *)

Lemma cnt_nonneg i l : 0 <= cnt i l.
Proof using Type. apply total_nonneg. intros j. case_decide; lia. Qed.

Lemma cnt_app i l k : cnt i (l ++ k) = cnt i l + cnt i k.
Proof using Type. unfold cnt. induction l as [|j l IH]; [done|]. cbn [app]. rewrite !total_cons, IH. lia. Qed.

Lemma cnt_cons i j l : cnt i (j :: l) = (if decide (j = i) then 1 else 0) + cnt i l.
Proof using Type. done. Qed.

Lemma cnt_elem i l : i ∈ l <-> 1 <= cnt i l.
Proof using Type.
  induction l as [|j l IH]; [split; [by intros ?%elem_of_nil|by cbn]|]. rewrite cnt_cons, elem_of_cons. pose proof (cnt_nonneg i l).
  case_decide; [subst; split; [lia|by left]|]. rewrite IH. split; [intros [->|]; [done|lia]|right; lia].
Qed.

Lemma cnt_absent i l : i ∉ l <-> cnt i l = 0.
Proof using Type. rewrite cnt_elem. pose proof (cnt_nonneg i l). lia. Qed.

Lemma cnt_filter_ne i j l : cnt i (filter (fun k => k <> j) l) = if decide (i = j) then 0 else cnt i l.
Proof using Type.
  induction l as [|k l IH]; [by case_decide|]. rewrite filter_cons. destruct (decide (k <> j)) as [Hk|Hk].
  - rewrite !cnt_cons, IH. repeat case_decide; subst; try done; lia.
  - rewrite IH, cnt_cons. repeat case_decide; subst; try done; lia.
Qed.

(** *** Who is woken *)

Lemma collect_cnt mode b waiters wakeup rest i : collect_waiters mode b waiters = (wakeup, rest) -> cnt i waiters = cnt i wakeup + cnt i rest.
Proof using Type.
  revert b wakeup rest. induction waiters as [|j l IH]; intros b wakeup rest Hc; [by injection Hc as <- <-|]. cbn in Hc.
  destruct (b && _); [|destruct (bool_decide _)].
  - destruct (collect_waiters mode b l) as [w r] eqn:He. injection Hc as <- <-. rewrite !cnt_cons, (IH _ _ _ He). lia.
  - injection Hc as <- <-. rewrite !cnt_cons. change (cnt i []) with 0. lia.
  - destruct (collect_waiters mode true l) as [w r] eqn:He. injection Hc as <- <-. rewrite !cnt_cons, (IH _ _ _ He). lia.
Qed.

Lemma collect_some mode waiters wakeup rest : collect_waiters mode false waiters = (wakeup, rest) -> waiters <> [] -> wakeup <> [].
Proof using Type.
  destruct waiters as [|j l]; [done|]. cbn. destruct (bool_decide _); [by intros [= <- <-]|].
  destruct (collect_waiters mode true l). by intros [= <- <-].
Qed.

Lemma collect_sub mode b waiters wakeup rest i : collect_waiters mode b waiters = (wakeup, rest) -> i ∈ wakeup \/ i ∈ rest -> i ∈ waiters.
Proof using Type.
  intros Hc Hi. rewrite !cnt_elem in *. rewrite (collect_cnt _ _ _ _ _ i Hc). pose proof (cnt_nonneg i wakeup). pose proof (cnt_nonneg i rest). lia.
Qed.
End Invariant.

Ltac lock_simpl :=
  cbn [lk_state lk_waiters lwWaiting lwWaitMode pg_sem set_lk_state set_lk_waiters set_lwWaiting set_lwWaitMode set_pg_sem fetch_or fetch_and_not
    LWLockWaitListUnlock PGSemaphoreUnlock lp_pc lp_todo lp_extraWaits lp_goto lp_set_extraWaits lp_set_todo next_flags
    queued removed lost has_lock list_locked needs_mode in_hand fst snd] in *.

Ltac wait_states :=
  change (bool_decide (LW_WS_PENDING_WAKEUP = LW_WS_WAITING)) with false in *;
  change (bool_decide (LW_WS_NOT_WAITING = LW_WS_NOT_WAITING)) with true in *;
  change (bool_decide (LW_WS_WAITING = LW_WS_NOT_WAITING)) with false in *;
  change (bool_decide (LW_WS_PENDING_WAKEUP = LW_WS_NOT_WAITING)) with false in *;
  change (bool_decide (LW_WS_NOT_WAITING = LW_WS_WAITING)) with false in *;
  change (bool_decide (LW_WS_WAITING = LW_WS_WAITING)) with true in *;
  change (bool_decide (LW_WS_PENDING_WAKEUP = LW_WS_PENDING_WAKEUP)) with true in *;
  change (bool_decide (LW_WS_NOT_WAITING = LW_WS_PENDING_WAKEUP)) with false in *;
  change (bool_decide (LW_WS_WAITING = LW_WS_PENDING_WAKEUP)) with false in *;
  rewrite ?andb_false_r, ?andb_true_r, ?orb_false_r, ?orb_true_r in *; cbn [negb] in *.

Lemma queued_only pc : queued pc = true -> lost pc = false /\ removed pc = false.
Proof. by destruct pc. Qed.

Lemma not_removed pc : queued pc || lost pc = true -> removed pc = false.
Proof. destruct pc; try done; by destruct on_waitlist. Qed.

(** One case for every step. *)
Ltac lock_cases Hs Hpc :=
  unfold lwlock_step in Hs;
  match type of Hs with context [lp_pc ?p] => destruct (lp_pc p) eqn:Hpc end;
  unfold lp_attempt, lp_list_lock, lp_down, LWLockWaitListLock, PGSemaphoreLock, lp_continue, raise_if, mbind, res_bind in Hs;
  repeat first
    [ discriminate Hs
    | match type of Hs with context [match ?x with _ => _ end] =>
        lazymatch x with context [match _ with _ => _ end] => fail | _ => idtac end; first [is_var x; destruct x|let E := fresh "E" in destruct x eqn:E] end ];
  injection Hs as <- <-.

Section Step.
Context (sem0 : nat -> nat) (n : nat).

(** ** The word after a step *)

Lemma held_modes_length p : 0 <= Z.of_nat (length (held_modes p)) <= 1.
Proof using Type. unfold held_modes. destruct (has_lock _); [|cbn; lia]. rewrite length_take. lia. Qed.

Lemma holders_total procs : Z.of_nat (length (procs ≫= held_modes)) = total (fun p => Z.of_nat (length (held_modes p))) procs.
Proof using Type. induction procs as [|p procs IH]; [done|]. rewrite total_cons, <- IH. cbn. rewrite length_app. lia. Qed.

Lemma holders_room procs i p : procs !! i = Some p -> held_modes p = [] -> Z.of_nat (length (procs ≫= held_modes)) < Z.of_nat (length procs).
Proof using Type.
  intros Hi Hh. rewrite holders_total. set (f := fun p => Z.of_nat (length (held_modes p))).
  pose proof (total_insert f procs i p (mkLockProc InLock [LW_SHARED] 0) Hi) as Ht.
  pose proof (total_bounds f (<[i := mkLockProc InLock [LW_SHARED] 0]> procs) held_modes_length) as Hb. rewrite length_insert in Hb.
  assert (f p = 0) as Hp by (unfold f; by rewrite Hh). assert (f (mkLockProc InLock [LW_SHARED] 0) = 1) as Hq by done. lia.
Qed.

Lemma holders_same procs i p p' : procs !! i = Some p -> held_modes p' = held_modes p -> <[i := p']> procs ≫= held_modes ≡ₚ procs ≫= held_modes.
Proof using Type. intros Hi Hh. destruct (bind_insert held_modes procs i p p' Hi) as (rest & -> & ->). by rewrite Hh. Qed.

Lemma word_eq s s' fl v : lk_state s = lk_state s' -> word_is s fl v -> word_is s' fl v.
Proof using Type. intros He [H1 H2]. split; [by rewrite <- He|done]. Qed.

Context (Hbackends : Z.of_nat n <= MAX_BACKENDS).

Lemma step_word fl s procs i p s' p' : lock_inv sem0 n fl (s, procs) -> procs !! i = Some p -> lwlock_step i s p = Ok (Some (s', p')) ->
  word_is s' (next_flags (lp_pc p) fl) (modes_value (<[i := p']> procs ≫= held_modes)) /\ modes_fine (<[i := p']> procs ≫= held_modes).
Proof using Hbackends.
  intros Hinv Hi Hs. pose proof (li_word _ _ _ _ Hinv) as Hw. pose proof (li_modes _ _ _ _ Hinv) as Hm. cbn [fst snd] in Hw, Hm.
  assert (held_modes p' = held_modes p -> word_is s' (next_flags (lp_pc p) fl) (modes_value (procs ≫= held_modes)) ->
    word_is s' (next_flags (lp_pc p) fl) (modes_value (<[i := p']> procs ≫= held_modes)) /\ modes_fine (<[i := p']> procs ≫= held_modes)) as Hsame.
  { intros Hh Hw'. by rewrite (holders_same procs i p p' Hi Hh). }
  assert (forall mode w, LWLockAttemptLock (lk_state s) mode = Some w -> held_modes p = [] -> held_modes p' = [mode] ->
    s' = set_lk_state w s -> word_is s' fl (modes_value (<[i := p']> procs ≫= held_modes)) /\ modes_fine (<[i := p']> procs ≫= held_modes)) as Hgot.
  { intros mode w Ha Hh Hh' ->. pose proof (holders_room procs i p Hi Hh) as Hr. pose proof (li_length _ _ _ _ Hinv) as Hn. cbn [snd] in Hn.
    pose proof (attempt_word s fl _ mode Hw Hm ltac:(lia)) as Hat. rewrite Ha in Hat.
    destruct (bind_insert held_modes procs i p p' Hi) as (rest & Hp & Hp'). rewrite Hh in Hp. rewrite Hh' in Hp'. cbn [app] in Hp, Hp'.
    assert (<[i := p']> procs ≫= held_modes ≡ₚ mode :: procs ≫= held_modes) as -> by by rewrite Hp, Hp'. exact Hat. }
  assert (forall mode, held_modes p = [mode] -> held_modes p' = [] -> s' = set_lk_state (LWLockReleaseInternal (lk_state s) mode) s ->
    word_is s' fl (modes_value (<[i := p']> procs ≫= held_modes)) /\ modes_fine (<[i := p']> procs ≫= held_modes)) as Hrel.
  { intros mode Hh Hh' ->. destruct (bind_insert held_modes procs i p p' Hi) as (rest & Hp & Hp'). rewrite Hh in Hp. rewrite Hh' in Hp'. cbn [app] in Hp, Hp'.
    rewrite Hp'. apply release_word; by rewrite <- Hp. }
  lock_cases Hs Hpc.
  all: try (apply Hsame; [unfold held_modes; by rewrite Hpc|cbn [next_flags]]).
  all: try (exact Hw).
  all: try (by apply or_locked).
  all: try (by apply or_waiters).
  all: try (by apply or_release_ok).
  all: try (by apply and_waiters).
  all: try (by apply and_locked).
  all: try (by apply wakeup_flags_ok).
  all: try (eapply Hgot; [done| | |reflexivity]; unfold held_modes; rewrite ?Hpc; cbn; by rewrite ?E).
  all: eapply Hrel; [| |reflexivity]; unfold held_modes; rewrite ?Hpc; cbn; by rewrite ?E.
Qed.

End Step.

Section Others.
Context (sem0 : nat -> nat) (n : nat).

(** ** The lock of the queue *)


Lemma locked_me fl c i p : lock_inv sem0 n fl c -> c.2 !! i = Some p -> list_locked (lp_pc p) = true -> fl_locked fl = true.
Proof using Type.
  intros Hinv Hi Hl. pose proof (li_locked _ _ _ _ Hinv) as Ht. destruct (fl_locked fl); [done|].
  pose proof (total_ge locked_value c.2 i p locked_value_nonneg Hi) as Hge. unfold locked_value at 1 in Hge. rewrite Hl in Hge. lia.
Qed.

Lemma locked_alone fl c i j p q : lock_inv sem0 n fl c -> c.2 !! i = Some p -> c.2 !! j = Some q -> i <> j ->
  list_locked (lp_pc p) = true -> list_locked (lp_pc q) = false.
Proof using Type.
  intros Hinv Hi Hj Hij Hp. apply not_true_is_false. intros Hq. pose proof (li_locked _ _ _ _ Hinv) as Ht. rewrite (locked_me fl c i p Hinv Hi Hp) in Ht.
  pose proof (total_two locked_value c.2 i j p q locked_value_nonneg Hi Hj Hij) as Hge. unfold locked_value at 1 2 in Hge. rewrite Hp, Hq in Hge. lia.
Qed.

Lemma step_locked fl s procs i p s' p' : lock_inv sem0 n fl (s, procs) -> procs !! i = Some p -> lwlock_step i s p = Ok (Some (s', p')) ->
  total locked_value (<[i := p']> procs) = (if fl_locked (next_flags (lp_pc p) fl) then 1 else 0) /\
  (fl_locked fl = true -> list_locked (lp_pc p) = false -> list_locked (lp_pc p') = false).
Proof using Type.
  intros Hinv Hi Hs. pose proof (li_locked _ _ _ _ Hinv) as Ht. cbn [snd] in Ht. rewrite (total_insert _ _ _ _ _ Hi), Ht.
  pose proof (locked_me fl (s, procs) i p Hinv Hi) as Hme.
  pose proof (locked_test _ _ _ (li_word _ _ _ _ Hinv)) as Htest. cbn [fst snd] in *. unfold locked_value.
  lock_cases Hs Hpc; cbn [lp_goto lp_pc lp_set_todo lp_set_extraWaits list_locked next_flags] in *.
  all: try (by split; [lia|]).
  all: try (rewrite Hme by done; cbn; by split; [lia|]).
  all: try (rewrite Htest in *; destruct (fl_locked fl); [done|cbn; by split; [lia|]]).
  all: try (cbn; by split; [lia|]).
  rewrite Hme by done. by destruct wakeup.
Qed.

(** ** What a step does to another process *)

(** Nothing; it is taken from the queue; it is marked as woken; it is signaled. *)
Inductive other_change (j : nat) (s : LockShared) (p : LockProc) (s' : LockShared) (p' : LockProc) : Prop :=
  | other_same : lwWaiting s' j = lwWaiting s j -> cnt j (lk_waiters s') = cnt j (lk_waiters s) -> pg_sem s' j = pg_sem s j ->
      cnt j (unlocks p') = cnt j (unlocks p) -> cnt j (pendings p') = cnt j (pendings p) -> other_change j s p s' p'
  | other_taken : lwWaiting s' j = LW_WS_PENDING_WAKEUP -> 1 <= cnt j (lk_waiters s) -> cnt j (lk_waiters s') = cnt j (lk_waiters s) - 1 ->
      pg_sem s' j = pg_sem s j -> cnt j (unlocks p') = cnt j (unlocks p) + 1 -> cnt j (pendings p') = cnt j (pendings p) + 1 -> other_change j s p s' p'
  | other_marked : lwWaiting s' j = LW_WS_NOT_WAITING -> 1 <= cnt j (pendings p) -> cnt j (lk_waiters s') = cnt j (lk_waiters s) ->
      pg_sem s' j = pg_sem s j -> cnt j (unlocks p') = cnt j (unlocks p) -> cnt j (pendings p') = cnt j (pendings p) - 1 -> other_change j s p s' p'
  | other_signaled : lwWaiting s' j = lwWaiting s j -> cnt j (lk_waiters s') = cnt j (lk_waiters s) -> pg_sem s' j = S (pg_sem s j) ->
      cnt j (unlocks p') = cnt j (unlocks p) - 1 -> cnt j (pendings p') = cnt j (pendings p) -> other_change j s p s' p'.

Lemma step_other i j s p s' p' : lwlock_step i s p = Ok (Some (s', p')) -> j <> i -> cnt j (lk_waiters s) <= 1 -> other_change j s p s' p'.
Proof using Type.
  intros Hs Hj Hc. unfold unlocks, pendings.
  lock_cases Hs Hpc; cbn [lp_goto lp_pc lp_set_todo lp_set_extraWaits].
  all: try (apply other_same; unfold unlocks, pendings; lock_simpl; rewrite ?Hpc; try done; by rewrite ?fn_lookup_insert_ne by done).
  - apply other_same; unfold unlocks, pendings; lock_simpl; rewrite ?Hpc; try done; [by rewrite fn_lookup_insert_ne|].
    rewrite cnt_app, cnt_cons, decide_False by done. change (cnt j []) with 0. lia.
  - apply other_same; unfold unlocks, pendings; lock_simpl; rewrite ?Hpc; try done; [by rewrite fn_lookup_insert_ne|].
    rewrite cnt_app, cnt_cons, decide_False by done. change (cnt j []) with 0. lia.
  - apply other_same; unfold unlocks, pendings; lock_simpl; rewrite ?Hpc; try done. rewrite cnt_filter_ne. by rewrite decide_False.
  - pose proof (collect_cnt _ _ _ _ _ j E) as Hcnt. pose proof (cnt_nonneg j l0).
    destruct (bool_decide_reflect (j ∈ l)) as [Hin|Hout].
    + apply cnt_elem in Hin as Hl. apply other_taken; unfold unlocks, pendings; lock_simpl; rewrite ?Hpc; change (cnt j []) with 0; try lia. by rewrite bool_decide_true.
    + apply cnt_absent in Hout as Hl. apply other_same; unfold unlocks, pendings; lock_simpl; rewrite ?Hpc; change (cnt j []) with 0; try done; try lia. by rewrite bool_decide_false.
  - destruct (wakeup_flags_same wakeup s) as (H1 & H2 & H3).
    apply other_same; unfold unlocks, pendings; rewrite ?H1, ?H2, ?H3, ?Hpc; done.
  - destruct (decide (j = n0)) as [->|Hne].
    + apply other_marked; unfold unlocks, pendings; lock_simpl; rewrite ?Hpc, ?fn_lookup_insert, ?cnt_cons, ?decide_True by done; try done; pose proof (cnt_nonneg n0 wakeup); lia.
    + apply other_same; unfold unlocks, pendings; lock_simpl; rewrite ?Hpc, ?cnt_cons; try done; [by rewrite fn_lookup_insert_ne|]. rewrite decide_False by done. lia.
  - destruct (decide (j = waiter)) as [->|Hne].
    + apply other_signaled; unfold unlocks, pendings; lock_simpl; rewrite ?Hpc, ?fn_lookup_insert, ?cnt_cons, ?decide_True by done; try done; lia.
    + apply other_same; unfold unlocks, pendings; lock_simpl; rewrite ?Hpc, ?cnt_cons; try done; [by rewrite fn_lookup_insert_ne|]. rewrite decide_False by done. lia.
Qed.

(** Without the queue locked, a step leaves the queue and its flag alone, and a process
    that waits in it stays in it. *)
Lemma step_queue fl s procs i p s' p' : lock_inv sem0 n fl (s, procs) -> procs !! i = Some p -> lwlock_step i s p = Ok (Some (s', p')) ->
  list_locked (lp_pc p) = false -> fl_locked fl = true ->
  lk_waiters s' = lk_waiters s /\ fl_waiters (next_flags (lp_pc p) fl) = fl_waiters fl /\
  (queued (lp_pc p) = true -> lwWaiting s i <> LW_WS_NOT_WAITING -> queued (lp_pc p') = true).
Proof using Type.
  intros Hinv Hi Hs Hl Hfl. pose proof (locked_test _ _ _ (li_word _ _ _ _ Hinv)) as Htest. rewrite Hfl in Htest. cbn [fst snd] in *.
  lock_cases Hs Hpc; try done; cbn [lp_goto lp_pc next_flags].
  all: try (by rewrite Htest in *).
  all: try (split_and!; [done|done|]; unfold not_waiting in *; by case_bool_decide).
Qed.

(** *** Another process after a step *)

Lemma local_other fl s procs i p s' p' j q : lock_inv sem0 n fl (s, procs) -> procs !! i = Some p -> procs !! j = Some q -> j <> i ->
  lwlock_step i s p = Ok (Some (s', p')) -> lock_local sem0 (next_flags (lp_pc p) fl) s' (<[i := p']> procs) j q.
Proof using Type.
  intros Hinv Hi Hj Hji Hs. pose proof (li_local _ _ _ _ Hinv j q Hj) as [H1 H2 H3 H4 H5 H6 Hd H7 H8 H9]. cbn [fst snd] in *.
  assert (cnt j (lk_waiters s) <= 1) as Hc by (rewrite H2; destruct (queued _ && _); lia).
  pose proof (step_other i j s p s' p' Hs Hji Hc) as Ho.
  assert (list_locked (lp_pc q) = true -> lk_waiters s' = lk_waiters s /\ fl_waiters (next_flags (lp_pc p) fl) = fl_waiters fl /\
    (queued (lp_pc p) = true -> lwWaiting s i <> LW_WS_NOT_WAITING -> queued (lp_pc p') = true)) as Hq.
  { intros Hq. apply (step_queue fl s procs i p s' p' Hinv Hi Hs).
    - by apply (locked_alone fl (s, procs) j i q p Hinv Hj Hi Hji Hq).
    - by apply (locked_me fl (s, procs) j q Hinv Hj Hq). }
  assert (total (fun r => cnt j (unlocks r)) (<[i := p']> procs) = total (fun r => cnt j (unlocks r)) procs - cnt j (unlocks p) + cnt j (unlocks p')) as Hu
    by exact (total_insert _ _ _ _ _ Hi).
  assert (total (fun r => cnt j (pendings r)) (<[i := p']> procs) = total (fun r => cnt j (pendings r)) procs - cnt j (pendings p) + cnt j (pendings p')) as Hp
    by exact (total_insert _ _ _ _ _ Hi).
  assert (1 <= cnt j (pendings p) -> lwWaiting s j = LW_WS_PENDING_WAKEUP) as Hpend.
  { intros Hge. pose proof (total_ge (fun r => cnt j (pendings r)) procs i p (fun r => cnt_nonneg j (pendings r)) Hi) as Ht.
    cbn beta in Ht. rewrite H8 in Ht. case_bool_decide; [done|lia]. }
  assert (1 <= cnt j (lk_waiters s) -> lwWaiting s j = LW_WS_WAITING /\ queued (lp_pc q) = true) as Hwait.
  { intros Hge. rewrite H2 in Hge. unfold waits in Hge. destruct (queued (lp_pc q)); [|cbn in Hge; lia]. case_bool_decide; [done|cbn in Hge; lia]. }
  assert (forall wakeup k, lp_pc q = WakeFlags wakeup -> k ∈ wakeup -> exists r, <[i := p']> procs !! k = Some r /\ queued (lp_pc r) = true) as Hwoken.
  { intros wakeup k Hpc Hk. destruct (H9 wakeup k Hpc Hk) as (r & Hr & Hqr). destruct (decide (k = i)) as [->|Hki]; [|exists r; by rewrite list_lookup_insert_ne].
    rewrite Hi in Hr. injection Hr as <-. exists p'. split; [apply list_lookup_insert_eq; by eapply lookup_lt_Some|].
    apply Hq; [by rewrite Hpc|done|]. intros Hn. pose proof (lo_pending _ _ _ _ _ _ (li_local _ _ _ _ Hinv i p Hi)) as Hpi. cbn [fst snd] in Hpi. rewrite Hn, bool_decide_false in Hpi by done.
    pose proof (total_ge (fun r => cnt i (pendings r)) procs j q (fun r => cnt_nonneg i (pendings r)) Hj) as Ht. cbn beta in Ht.
    unfold pendings in Ht at 1. rewrite Hpc in Ht. apply cnt_elem in Hk. lia. }
  clear Hinv Hs.
  assert (lp_pc q = QueuePush -> fl_waiters (next_flags (lp_pc p) fl) = true) as Hpush.
  { intros Hpc. rewrite (proj1 (proj2 (Hq ltac:(by rewrite Hpc)))). by apply H4. }
  assert ((exists b, lp_pc q = DequeueClear b) \/ lp_pc q = WakeFlags [] -> lk_waiters s' = []) as Hclear.
  { intros Hpc. rewrite (proj1 (Hq ltac:(destruct Hpc as [[b Hpc]|Hpc]; by rewrite Hpc))). by apply H5. }
  unfold owed, waits in *.
  destruct Ho as [Hw Hcn Hsem Hun Hpe|Hw Hge Hcn Hsem Hun Hpe|Hw Hge Hcn Hsem Hun Hpe|Hw Hcn Hsem Hun Hpe].
  - split; unfold owed, waits; rewrite ?Hw, ?Hcn, ?Hsem, ?Hu, ?Hp, ?Hun, ?Hpe; try done; lia.
  - destruct (Hwait Hge) as [Hws Hqu]. destruct (queued_only _ Hqu) as [Hlo Hre]. rewrite Hws, Hqu, Hlo in *. clear Hpend Hwait.
    split; unfold owed, waits; rewrite ?Hw, ?Hcn, ?Hsem, ?Hu, ?Hp, ?Hun, ?Hpe, ?Hqu, ?Hlo; wait_states; try done; try lia.
  - rewrite (Hpend Hge) in *. clear Hpend Hwait. apply not_removed in H3 as Hre.
    split; unfold owed, waits; rewrite ?Hw, ?Hcn, ?Hsem, ?Hu, ?Hp, ?Hun, ?Hpe; wait_states; try done; try lia.
  - split; unfold owed, waits; rewrite ?Hw, ?Hcn, ?Hsem, ?Hu, ?Hp, ?Hun, ?Hpe; try done; lia.
Qed.

(** [lock_local] after a step, with the sums before it as numbers. *)
Lemma local_intro fl s procs i p p' U P : procs !! i = Some p ->
  total (fun r => cnt i (unlocks r)) procs = U -> total (fun r => cnt i (pendings r)) procs = P ->
  (needs_mode (lp_pc p') = true -> lp_todo p' <> []) /\
  cnt i (lk_waiters s) = (if queued (lp_pc p') && bool_decide (lwWaiting s i = LW_WS_WAITING) then 1 else 0) /\
  match lwWaiting s i with
  | LW_WS_NOT_WAITING => removed (lp_pc p') = false
  | LW_WS_WAITING => queued (lp_pc p') || removed (lp_pc p') = true
  | LW_WS_PENDING_WAKEUP => queued (lp_pc p') || lost (lp_pc p') = true
  end /\
  (lp_pc p' = QueuePush -> fl_waiters fl = true) /\
  ((exists b, lp_pc p' = DequeueClear b) \/ lp_pc p' = WakeFlags [] -> lk_waiters s = []) /\
  (absorbed_by p' <= sem0 i)%nat /\
  (drained p' = true -> lp_extraWaits p' = O) /\
  Z.of_nat (pg_sem s i) + (U - cnt i (unlocks p) + cnt i (unlocks p')) + Z.of_nat (absorbed_by p') + in_hand (lp_pc p') = Z.of_nat (sem0 i) + owed s i (lp_pc p') /\
  P - cnt i (pendings p) + cnt i (pendings p') = (if bool_decide (lwWaiting s i = LW_WS_PENDING_WAKEUP) then 1 else 0) /\
  (forall wakeup j, lp_pc p' = WakeFlags wakeup -> j ∈ wakeup -> exists q, <[i := p']> procs !! j = Some q /\ queued (lp_pc q) = true) ->
  lock_local sem0 fl s (<[i := p']> procs) i p'.
Proof using Type.
  intros Hi HU HP (H1 & H2 & H3 & H4 & H5 & H6 & Hd & H7 & H8 & H9). split; try done.
  - rewrite (total_insert _ _ _ _ _ Hi), HU. done.
  - rewrite (total_insert _ _ _ _ _ Hi), HP. done.
Qed.

Ltac local_done := split_and!; first [done|lia|congruence|by intros [[? ?]|?]|by intros; congruence].

Lemma local_self fl s procs i p s' p' : lock_inv sem0 n fl (s, procs) -> procs !! i = Some p -> lwlock_step i s p = Ok (Some (s', p')) ->
  lock_local sem0 (next_flags (lp_pc p) fl) s' (<[i := p']> procs) i p'.
Proof using Type.
  intros Hinv Hi Hs. pose proof (li_local _ _ _ _ Hinv i p Hi) as [H1 H2 H3 H4 H5 H6 Hd H7 H8 H9]. cbn [fst snd] in *.
  assert (forall wakeup rest j, collect_waiters (lwWaitMode s) false (lk_waiters s) = (wakeup, rest) -> j ∈ wakeup -> queued (lp_pc p) = false ->
    exists q, <[i := p']> procs !! j = Some q /\ queued (lp_pc q) = true) as Hcoll.
  { intros wakeup rest j Hcw Hj Hnq. pose proof (collect_sub _ _ _ _ _ j Hcw (or_introl Hj)) as Hin.
    destruct (lookup_lt_is_Some_2 procs j) as [q Hq]; [pose proof (li_length _ _ _ _ Hinv) as Hn; cbn in Hn; rewrite Hn; apply (li_range _ _ _ _ Hinv j Hin)|].
    pose proof (lo_queue _ _ _ _ _ _ (li_local _ _ _ _ Hinv j q Hq)) as Hlq. cbn [fst snd] in Hlq. apply cnt_elem in Hin. rewrite Hlq in Hin.
    assert (queued (lp_pc q) = true) as Hqq by (destruct (queued (lp_pc q)); [done|cbn in Hin; lia]).
    exists q. split; [|done]. rewrite list_lookup_insert_ne; [done|]. intros ->. rewrite Hi in Hq. injection Hq as ->. by rewrite Hnq in Hqq. }
  assert (cnt i (pendings p) <= total (fun r => cnt i (pendings r)) procs) as Hpge by exact (total_ge (fun r => cnt i (pendings r)) procs i p (fun r => cnt_nonneg i (pendings r)) Hi).
  assert (total (fun r => cnt i (pendings r)) procs <= total (fun r => cnt i (unlocks r)) procs) as Hup.
  { clear. induction procs as [|r procs IH]; [done|]. rewrite !total_cons. assert (cnt i (pendings r) <= cnt i (unlocks r)); [|lia].
    unfold pendings, unlocks. destruct (lp_pc r); try lia. rewrite cnt_cons. case_decide; lia. }
  clear Hinv. apply (local_intro _ _ _ _ _ _ _ _ Hi eq_refl eq_refl).
  generalize dependent (total (fun r => cnt i (unlocks r)) procs). generalize dependent (total (fun r => cnt i (pendings r)) procs). intros P HP Hpge U HU Hup.
  unfold absorbed_by, drained, owed, waits, not_waiting, unlocks, pendings in *.
  destruct (lwWaiting s i) eqn:Hwt; lock_cases Hs Hpc; lock_simpl; clear H9; cbn [andb orb negb] in *; try done.
  all: unfold not_waiting in *; wait_states; rewrite ?fn_lookup_insert, ?Hwt in *; wait_states; change (cnt i []) with 0 in *.
  all: try done.
  all: try (local_done; fail).
  all: try (by destruct (H1 eq_refl)).
  all: try (apply andb_true_iff in E as [E _]; apply bool_decide_eq_true in E; split_and!; first [done|lia|by destruct on_waitlist]; fail).
  all: try (rewrite cnt_app, cnt_cons, decide_True by done; change (cnt i []) with 0; local_done; fail).
  - rewrite bool_decide_false by by apply H1. local_done.
  - pose proof (collect_cnt _ _ _ _ _ i E) as Hcnt. pose proof (cnt_nonneg i l). pose proof (cnt_nonneg i l0).
    assert (cnt i l = 0) as Hl by lia. apply cnt_absent in Hl as Hout. rewrite bool_decide_false by done. wait_states.
    split_and!; try done; try lia.
    + intros [[? ?]|Hw]; [done|]. injection Hw as ->. destruct (lk_waiters s) eqn:Hwl; [by injection E as <-|]. by destruct (collect_some _ _ _ _ E).
    + intros wl j Hw Hj. injection Hw as <-. by apply (Hcoll l l0 j).
  - destruct (wakeup_flags_same wakeup s) as (-> & -> & ->). rewrite Hwt. wait_states. local_done.
  - assert (n0 <> i) as Hne. { intros ->. rewrite cnt_cons, decide_True in Hpge by done. pose proof (cnt_nonneg i wakeup). lia. }
    rewrite fn_lookup_insert_ne, Hwt by done. wait_states. rewrite !cnt_cons, decide_False in * by done. local_done.
  - destruct (decide (waiter = i)) as [->|Hne].
    + rewrite fn_lookup_insert. rewrite cnt_cons, decide_True in * by done. local_done.
    + rewrite fn_lookup_insert_ne by done. rewrite cnt_cons, decide_False in * by done. local_done.
  - rewrite cnt_filter_ne, decide_True by done. local_done.
Qed.

(** *** The queue after a step *)

Lemma step_waiters fl s procs i p s' p' j : lock_inv sem0 n fl (s, procs) -> procs !! i = Some p -> lwlock_step i s p = Ok (Some (s', p')) ->
  j ∈ lk_waiters s' -> (j ∈ lk_waiters s \/ j = i /\ lp_pc p = QueuePush) /\ fl_waiters (next_flags (lp_pc p) fl) = true.
Proof using Type.
  intros Hinv Hi Hs Hj. pose proof (li_local _ _ _ _ Hinv i p Hi) as Hl. pose proof (lo_clear _ _ _ _ _ _ Hl) as Hclear. pose proof (lo_push _ _ _ _ _ _ Hl) as Hpush.
  assert (j ∈ lk_waiters s -> fl_waiters fl = true) as Hhas.
  { intros Hin. apply (li_has _ _ _ _ Hinv). intros He. cbn in He. rewrite He in Hin. by apply elem_of_nil in Hin. }
  clear Hinv Hl. cbn [fst snd] in *. lock_cases Hs Hpc; lock_simpl.
  all: try (split; [by left|first [done|by apply Hhas]]).
  all: try (apply elem_of_app in Hj as [Hj|Hj]; [split; [by left|by apply Hhas]|]; apply elem_of_cons in Hj as [->|Hj]; [split; [by right|by apply Hpush]|by apply elem_of_nil in Hj]).
  - apply list_elem_of_filter in Hj as [_ Hj]. split; [by left|by apply Hhas].
  - rewrite Hclear in Hj by (left; by eexists). by apply elem_of_nil in Hj.
  - pose proof (collect_sub _ _ _ _ _ j E (or_intror Hj)) as Hin. split; [by left|by apply Hhas].
  - destruct (wakeup_flags_same wakeup s) as (Hw & _). rewrite Hw in Hj. split; [by left|]. destruct wakeup; [|by apply Hhas].
    rewrite Hclear in Hj by by right. by apply elem_of_nil in Hj.
Qed.

(** *** Nobody waits in vain *)

Lemma waits_other i j s p s' p' : lwlock_step i s p = Ok (Some (s', p')) -> j <> i -> cnt j (lk_waiters s) <= 1 -> waits j s = false -> waits j s' = false.
Proof using Type.
  intros Hs Hj Hc Hw. unfold waits in *. destruct (step_other i j s p s' p' Hs Hj Hc) as [He _ _ _ _|He _ _ _ _ _|He _ _ _ _ _|He _ _ _ _]; by rewrite He.
Qed.

Lemma cnt_le_one fl c j q : lock_inv sem0 n fl c -> c.2 !! j = Some q -> cnt j (lk_waiters c.1) <= 1.
Proof using Type. intros Hinv Hj. rewrite (lo_queue _ _ _ _ _ _ (li_local _ _ _ _ Hinv j q Hj)). destruct (_ && _); lia. Qed.

(** One that is being woken. *)
Lemma woken_pending fl s procs i p wakeup j q : lock_inv sem0 n fl (s, procs) -> procs !! i = Some p -> lp_pc p = WakeFlags wakeup -> j ∈ wakeup ->
  procs !! j = Some q -> waits j s = false.
Proof using Type.
  intros Hinv Hi Hpc Hj Hq. pose proof (lo_pending _ _ _ _ _ _ (li_local _ _ _ _ Hinv j q Hq)) as Hp. cbn [fst snd] in Hp.
  pose proof (total_ge (fun r => cnt j (pendings r)) procs i p (fun r => cnt_nonneg j (pendings r)) Hi) as Ht. cbn beta in Ht.
  unfold pendings in Ht at 1. rewrite Hpc in Ht. apply cnt_elem in Hj. case_bool_decide as Hw; [|lia]. unfold waits. by rewrite Hw.
Qed.

Lemma release_step fl s procs i p s' p' : lock_inv sem0 n fl (s, procs) -> procs !! i = Some p -> lwlock_step i s p = Ok (Some (s', p')) ->
  fl_release_ok (next_flags (lp_pc p) fl) = false -> exists k q, <[i := p']> procs !! k = Some q /\ will_release s' k (lp_pc q) = true.
Proof using Type.
  intros Hinv Hi Hs Hro. pose proof (lookup_lt_Some _ _ _ Hi) as Hlt.
  assert (forall k q, procs !! k = Some q -> k <> i -> will_release s k (lp_pc q) = true -> will_release s' k (lp_pc q) = true) as Hother.
  { intros k q Hk Hki. pose proof (waits_other i k s p s' p' Hs Hki (cnt_le_one fl (s, procs) k q Hinv Hk)) as Hw. unfold will_release.
    destruct (lp_pc q); try done; cbn; destruct (waits k s); try done; by rewrite Hw. }
  destruct (fl_release_ok fl) eqn:Hfl.
  - assert (exists w wakeup, lp_pc p = WakeFlags (w :: wakeup)) as (w & wakeup & Hpc).
    { destruct (lp_pc p) as [| | | | | | | | | | | | | |[]| | | | | | | |[|w wakeup]| |] eqn:Hpc; cbn in Hro; try congruence. by exists w, wakeup. }
    pose proof (li_local _ _ _ _ Hinv i p Hi) as Hl. destruct (lo_woken _ _ _ _ _ _ Hl _ w Hpc ltac:(left)) as (q & Hq & Hqq). cbn [fst snd] in Hq.
    assert (w <> i) as Hwi. { intros ->. rewrite Hi in Hq. injection Hq as <-. by rewrite Hpc in Hqq. }
    exists w, q. split; [by rewrite list_lookup_insert_ne|]. apply (Hother w q Hq Hwi).
    pose proof (woken_pending fl s procs i p _ w q Hinv Hi Hpc ltac:(left) Hq) as Hw. unfold will_release. rewrite Hw. by destruct (lp_pc q).
  - destruct (li_release _ _ _ _ Hinv Hfl) as (k & q & Hk & Hq). cbn [fst snd] in Hk, Hq. destruct (decide (k = i)) as [->|Hki].
    + rewrite Hi in Hk. injection Hk as <-. exists i, p'. split; [by apply list_lookup_insert_eq|]. clear Hother Hinv.
      unfold will_release, waits, not_waiting in *. lock_cases Hs Hpc; lock_simpl; try done; try congruence.
    + exists k, q. split; [by rewrite list_lookup_insert_ne|by apply Hother].
Qed.

Lemma holder_some procs k q : procs !! k = Some q -> held_modes q <> [] -> procs ≫= held_modes <> [].
Proof using Type.
  intros Hk Hq Hn. pose proof (holders_total procs) as Ht. rewrite Hn in Ht.
  pose proof (total_ge (fun p => Z.of_nat (length (held_modes p))) procs k q (fun r => proj1 (held_modes_length r)) Hk) as Hge. cbn beta in Hge.
  destruct (held_modes q); [done|]. cbn [length] in *. lia.
Qed.

Lemma has_lock_held fl c k q : lock_inv sem0 n fl c -> c.2 !! k = Some q -> has_lock (lp_pc q) = true -> held_modes q <> [].
Proof using Type.
  intros Hinv Hk Hh. pose proof (lo_todo _ _ _ _ _ _ (li_local _ _ _ _ Hinv k q Hk)) as Ht. unfold held_modes. rewrite Hh.
  destruct (lp_todo q); [|done]. destruct Ht; [|done]. by destruct (lp_pc q).
Qed.

(** Who is to release the lock's flag looks at the lock or has it. *)
Lemma will_release_guards s k q : will_release s k (lp_pc q) = true -> guards s k q = true \/ has_lock (lp_pc q) = true.
Proof using Type. unfold will_release, guards. destruct (lp_pc q); try (intros; by left); try (intros; by right); done. Qed.

Lemma guard_step fl s procs i p s' p' : Z.of_nat n <= MAX_BACKENDS -> lock_inv sem0 n fl (s, procs) -> procs !! i = Some p ->
  lwlock_step i s p = Ok (Some (s', p')) -> <[i := p']> procs ≫= held_modes = [] -> lk_waiters s' <> [] ->
  exists k q, <[i := p']> procs !! k = Some q /\ guards s' k q = true.
Proof using Type.
  intros Hbackends Hinv Hi Hs Hnone Hw. pose proof (lookup_lt_Some _ _ _ Hi) as Hlt.
  assert (held_modes p' = []) as Hp'.
  { destruct (held_modes p') eqn:Hh; [done|]. exfalso. apply (holder_some (<[i := p']> procs) i p'); [by apply list_lookup_insert_eq|by rewrite Hh|done]. }
  assert (forall k q, procs !! k = Some q -> k <> i -> held_modes q = []) as Hq0.
  { intros k q Hk Hki. destruct (held_modes q) eqn:Hh; [done|]. exfalso. apply (holder_some (<[i := p']> procs) k q); [by rewrite list_lookup_insert_ne|by rewrite Hh|done]. }
  assert (forall k q, procs !! k = Some q -> k <> i -> guards s k q = true -> exists k q, <[i := p']> procs !! k = Some q /\ guards s' k q = true) as Hother.
  { intros k q Hk Hki Hg. exists k, q. split; [by rewrite list_lookup_insert_ne|].
    pose proof (waits_other i k s p s' p' Hs Hki (cnt_le_one fl (s, procs) k q Hinv Hk)) as Hwk. unfold guards in *.
    destruct (lp_pc q); try done; destruct (waits k s); try done; by rewrite Hwk. }
  assert (forall q, q = p' -> guards s' i q = true -> exists k q, <[i := p']> procs !! k = Some q /\ guards s' k q = true) as Hself.
  { intros q -> Hg. exists i, p'. split; [by apply list_lookup_insert_eq|done]. }
  destruct (decide (held_modes p = [])) as [Hp|Hp].
  - assert (procs ≫= held_modes = []) as Hall.
    { apply bind_nil. intros q (k & Hk)%list_elem_of_lookup. destruct (decide (k = i)) as [->|Hki]; [rewrite Hi in Hk; by injection Hk as <-|by apply (Hq0 k)]. }
    assert (forall mode todo, lp_todo p = mode :: todo -> LWLockAttemptLock (lk_state s) mode <> None) as Hfree.
    { intros mode todo _ Ha. pose proof (attempt_word s fl _ mode (li_word _ _ _ _ Hinv) (li_modes _ _ _ _ Hinv)) as Hat. cbn [fst snd] in Hat.
      rewrite Hall, Ha in Hat. apply Hat; [|done]. by vm_compute. }
    destruct (decide (lk_waiters s = [])) as [He|He].
    + destruct (lk_waiters s') as [|j l] eqn:Hl; [done|].
      assert (j ∈ lk_waiters s') as Hj by (rewrite Hl; left). destruct (step_waiters fl s procs i p s' p' j Hinv Hi Hs Hj) as [[Hin|[-> Hpc]] _].
      * rewrite He in Hin. by apply elem_of_nil in Hin.
      * apply (Hself p' eq_refl). unfold lwlock_step in Hs. rewrite Hpc in Hs. unfold lp_continue in Hs. by injection Hs as _ <-.
    + destruct (li_guard _ _ _ _ Hinv Hall He) as (k & q & Hk & Hg). cbn [fst snd] in Hk, Hg. destruct (decide (k = i)) as [->|Hki]; [|by apply (Hother k q)].
      rewrite Hi in Hk. injection Hk as <-.
      assert (lp_pc p = WakeCollect -> exists k q, <[i := p']> procs !! k = Some q /\ guards s' k q = true) as Hcollect.
      { intros Hpc. pose proof (local_self fl s procs i p s' p' Hinv Hi Hs) as Hl.
        assert (exists w wakeup, lp_pc p' = WakeFlags (w :: wakeup) /\ w ∈ wakeup ++ [w] /\ lwWaiting s' w = LW_WS_PENDING_WAKEUP) as (w & wakeup & Hpc' & _ & Hws).
        { unfold lwlock_step in Hs. rewrite Hpc in Hs. destruct (collect_waiters _ _ _) as [wakeup rest] eqn:Hc. unfold lp_continue in Hs. injection Hs as <- <-.
          pose proof (collect_some _ _ _ _ Hc He) as Hsome. destruct wakeup as [|w wakeup]; [done|]. exists w, wakeup.
          split; [done|]. split; [apply elem_of_app; right; left|]. lock_simpl. by rewrite bool_decide_true by left. }
        destruct (lo_woken _ _ _ _ _ _ Hl _ w Hpc' ltac:(left)) as (q & Hq & Hqq). exists w, q. split; [done|].
        assert (w <> i) as Hwi. { intros ->. rewrite list_lookup_insert_eq in Hq by done. injection Hq as <-. by rewrite Hpc' in Hqq. }
        rewrite list_lookup_insert_ne in Hq by done. pose proof (Hq0 w q Hq Hwi) as Hqh.
        assert (has_lock (lp_pc q) = false) as Hnl by (apply not_true_is_false; intros Hh; by apply (has_lock_held fl (s, procs) w q Hinv Hq Hh)).
        unfold guards, waits. rewrite Hws. by destruct (lp_pc q). }
      pose proof (lo_todo _ _ _ _ _ _ (li_local _ _ _ _ Hinv i p Hi)) as Htodo. clear Hinv Hother Hq0 Hall Hnone He Hw.
      unfold guards, waits, not_waiting, held_modes in *. lock_cases Hs Hpc; lock_simpl; try done; try (by apply Hcollect).
      all: try (by apply (Hself _ eq_refl)).
      all: try (by rewrite E in Hp').
      all: try (exfalso; by apply (Hfree _ _ eq_refl)).
      apply (Hself _ eq_refl). rewrite bool_decide_false; [done|]. by apply Htodo.
  - destruct (step_word sem0 n Hbackends fl s procs i p s' p' Hinv Hi Hs) as [Hword Hfine]. rewrite Hnone in Hword, Hfine.
    assert (lp_pc p = InLock /\ lk_waiters s' = lk_waiters s /\ (check_waiters (lk_state s') = true -> lp_pc p' = WakeLock)) as (Hpc & Hws & Hwake).
    { clear Hinv Hother Hself Hq0 Hnone Hw Hword Hfine. unfold held_modes in *.
      lock_cases Hs Hpc; lock_simpl; try done; try (by rewrite E in Hp'); split_and!; try done; by rewrite E0. }
    pose proof (check_word s' _ [] Hword Hfine) as Hcheck. rewrite Hpc in Hcheck. cbn [next_flags] in Hcheck. rewrite Hws in Hw.
    rewrite (li_has _ _ _ _ Hinv Hw) in Hcheck. destruct (fl_release_ok fl) eqn:Hro.
    + apply (Hself p' eq_refl). unfold guards. by rewrite Hwake.
    + destruct (li_release _ _ _ _ Hinv Hro) as (k & q & Hk & Hwill). cbn [fst snd] in Hk, Hwill.
      assert (k <> i) as Hki. { intros ->. rewrite Hi in Hk. injection Hk as <-. by rewrite Hpc in Hwill. }
      destruct (will_release_guards s k q Hwill) as [Hg|Hh]; [by apply (Hother k q)|].
      by destruct (has_lock_held fl (s, procs) k q Hinv Hk Hh (Hq0 k q Hk Hki)).
Qed.

(** ** The invariant holds *)

Lemma lock_inv_step fl c c' : Z.of_nat n <= MAX_BACKENDS -> lock_inv sem0 n fl c -> locks_step c c' -> exists fl', lock_inv sem0 n fl' c'.
Proof using Type.
  intros Hb Hinv Hst. revert Hinv. destruct Hst as [i s p s' p' procs Hi Hs]. intros Hinv. exists (next_flags (lp_pc p) fl). destruct (step_word sem0 n Hb fl s procs i p s' p' Hinv Hi Hs) as [Hw Hm].
  pose proof (lookup_lt_Some _ _ _ Hi) as Hlt. split; cbn [fst snd].
  - rewrite length_insert. apply (li_length _ _ _ _ Hinv).
  - exact Hw.
  - exact Hm.
  - apply (step_locked fl s procs i p s' p' Hinv Hi Hs).
  - intros Hne. destruct (lk_waiters s') as [|j l] eqn:Hl; [done|]. apply (step_waiters fl s procs i p s' p' j Hinv Hi Hs). rewrite Hl. left.
  - intros j Hj. destruct (step_waiters fl s procs i p s' p' j Hinv Hi Hs Hj) as [[Hin|[-> _]] _]; [by apply (li_range _ _ _ _ Hinv)|].
    pose proof (li_length _ _ _ _ Hinv) as Hn. cbn in Hn. by rewrite <- Hn.
  - intros j q Hj. destruct (decide (j = i)) as [->|Hji].
    + rewrite list_lookup_insert_eq in Hj by done. injection Hj as <-. by apply (local_self fl s).
    + rewrite list_lookup_insert_ne in Hj by done. by apply (local_other fl s procs i p s' p').
  - by apply (release_step fl s procs i p s' p').
  - by apply (guard_step fl s procs i p s' p').
Qed.

Lemma lock_inv_init programs : length programs = n -> lock_inv sem0 n (mkLockFlags false true false) (locks_init sem0 programs).
Proof using Type.
  intros Hn. assert (forall p, p ∈ (locks_init sem0 programs).2 -> exists todo, p = mkLockProc AttemptFirst todo 0) as Hp.
  { intros p (todo & -> & _)%list_elem_of_fmap. by eexists. }
  assert ((locks_init sem0 programs).2 ≫= held_modes = []) as Hheld by (apply bind_nil; by intros p (todo & ->)%Hp).
  split.
  - cbn. by rewrite length_fmap.
  - rewrite Hheld. by split.
  - rewrite Hheld. apply LWLockInitialize_ok.
  - rewrite total_zero; [done|]. by intros p (todo & ->)%Hp.
  - done.
  - intros j Hj. by apply elem_of_nil in Hj.
  - intros i p Hi. assert (p ∈ (locks_init sem0 programs).2) as Hin by by eapply list_elem_of_lookup_2. destruct (Hp p Hin) as (todo & ->).
    split; try done; try (by intros [[? ?]|?]); try (cbn; lia).
    + rewrite total_zero by (by intros p (todo' & ->)%Hp). cbn. lia.
    + rewrite total_zero by (by intros p (todo' & ->)%Hp). done.
  - done.
  - done.
Qed.
End Others.
