(* ===== verification/LWLockServed.v ===== *)
(** * Lightweight locks: everyone is served

    From the invariant of LWLockQueueSpec.v: whoever has not finished, someone can go on,
    and no run is longer than a bound, so every run ends with every process having
    taken and released the lock as often as its list says. *)

From stdpp Require Import functions relations.
From S2P Require Import Prelude LWLock LWLockQueue LWLockQueueSpec.

Definition lock_done (p : LockProc) : bool := match lp_pc p, lp_todo p with AttemptFirst, [] => true | _, _ => false end.

Section Served.
Context (sem0 : nat -> nat) (n : nat).

(** ** Someone can go on *)

(** What stops a process. *)
Inductive lock_stopped (fl : LockFlags) (s : LockShared) (i : nat) (p : LockProc) : Prop :=
  | stopped_done : lock_done p = true -> lock_stopped fl s i p
  | stopped_list : fl_locked fl = true -> list_locked (lp_pc p) = false -> lock_stopped fl s i p
  | stopped_sleep : pg_sem s i = O -> lp_pc p = SleepDown \/ (exists k, lp_pc p = DequeueDown k) -> lock_stopped fl s i p.

Lemma try_lock_step fl s procs i p : lock_inv sem0 n fl (s, procs) -> procs !! i = Some p ->
  (exists s' p', lwlock_step i s p = Ok (Some (s', p'))) \/ lwlock_step i s p = Ok None /\ lock_stopped fl s i p.
Proof using Type.
  intros Hinv Hi. pose proof (li_local _ _ _ _ Hinv i p Hi) as Hl. pose proof (lo_todo _ _ _ _ _ _ Hl) as Ht. pose proof (lo_waiting _ _ _ _ _ _ Hl) as Hw.
  pose proof (locked_test _ _ _ (li_word _ _ _ _ Hinv)) as Htest. cbn [fst snd] in *. clear Hinv Hl.
  unfold lwlock_step, lp_attempt, lp_list_lock, lp_down, LWLockWaitListLock, PGSemaphoreLock, lp_continue. rewrite Htest.
  destruct (lp_pc p) eqn:Hpc; cbn [needs_mode queued removed lost] in *.
  all: try (left; by eexists _, _).
  all: try (destruct (fl_locked fl) eqn:Hfl; [right; split; [done|apply stopped_list; [done|by rewrite Hpc]]|left; by eexists _, _]).
  - destruct (lp_todo p) eqn:Htodo; [right; split; [done|apply stopped_done; unfold lock_done; by rewrite Hpc, Htodo]|]. left.
    destruct (LWLockAttemptLock _ _); by eexists _, _.
  - assert (not_waiting i s = true) as -> by (unfold not_waiting; by destruct (lwWaiting s i)). cbn [negb raise_if]. rewrite bind_Ok.
    destruct (fl_locked fl) eqn:Hfl; [right; split; [done|apply stopped_list; [done|by rewrite Hpc]]|left; by eexists _, _].
  - destruct (lp_todo p) eqn:Htodo; [by destruct Ht|]. left. destruct (LWLockAttemptLock _ _); by eexists _, _.
  - destruct (pg_sem s i) eqn:Hsem; [|left; by eexists _, _]. right. split; [done|]. apply stopped_sleep; [done|]. by left.
  - left. destruct (not_waiting i s); by eexists _, _.
  - left. destruct (bool_decide _); by eexists _, _.
  - left. destruct on_waitlist; by eexists _, _.
  - destruct (pg_sem s i) eqn:Hsem; [|left; by eexists _, _]. right. split; [done|]. apply stopped_sleep; [done|]. right. by eexists.
  - left. destruct absorbed; by eexists _, _.
  - left. destruct (lp_extraWaits p); by eexists _, _.
  - destruct (lp_todo p) eqn:Htodo; [by destruct Ht|]. left. by eexists _, _.
  - left. destruct (collect_waiters _ _ _). by eexists _, _.
  - left. destruct wakeup; by eexists _, _.
Qed.

(** A process that is woken and asleep has a signal to come. *)
Lemma owed_signal fl s procs i p : lock_inv sem0 n fl (s, procs) -> procs !! i = Some p -> pg_sem s i = O ->
  lp_pc p = SleepDown /\ lwWaiting s i <> LW_WS_WAITING \/ (exists k, lp_pc p = DequeueDown k) ->
  exists k q, procs !! k = Some q /\ unlocks q <> [].
Proof using Type.
  intros Hinv Hi Hsem Hpc. pose proof (li_local _ _ _ _ Hinv i p Hi) as Hl.
  pose proof (lo_sem _ _ _ _ _ _ Hl) as Hs. pose proof (lo_absorbed _ _ _ _ _ _ Hl) as Ha. cbn [fst snd] in *.
  assert (owed s i (lp_pc p) = 1 /\ in_hand (lp_pc p) = 0) as [Ho Hh].
  { unfold owed, waits. destruct Hpc as [[-> Hw]|[k ->]]; [|done]. rewrite bool_decide_false by done. done. }
  rewrite Hsem, Ho, Hh in Hs. destruct (total_positive (fun q => cnt i (unlocks q)) procs) as (k & q & Hk & Hq); [lia|].
  exists k, q. split; [done|]. intros He. rewrite He in Hq. by cbn in Hq.
Qed.

Lemma lock_progress fl s procs : lock_inv sem0 n fl (s, procs) ->
  Forall (fun p => lock_done p = true) procs \/ exists c', locks_step (s, procs) c'.
Proof using Type.
  intros Hinv. destruct (decide (Forall (fun p => lock_done p = true) procs)) as [|Hnd]; [by left|right].
  assert (forall i p, procs !! i = Some p -> (exists s' p', lwlock_step i s p = Ok (Some (s', p'))) -> exists c', locks_step (s, procs) c') as Hgo.
  { intros i p Hi (s' & p' & Hs). exists (s', <[i := p']> procs). by apply (locks_step_intro i s p s' p'). }
  destruct (fl_locked fl) eqn:Hfl.
  - pose proof (li_locked _ _ _ _ Hinv) as Ht. rewrite Hfl in Ht. cbn [snd] in Ht.
    destruct (total_positive locked_value procs) as (i & p & Hi & Hp); [lia|]. apply (Hgo i p Hi).
    assert (list_locked (lp_pc p) = true) as Hll by (unfold locked_value in Hp; by destruct (list_locked _)).
    destruct (try_lock_step fl s procs i p Hinv Hi) as [Hs|[_ [Hd|_ Hn|_ Hpc]]]; [done| | |].
    + unfold lock_done in Hd. by destruct (lp_pc p).
    + congruence.
    + destruct Hpc as [Hpc|[k Hpc]]; by rewrite Hpc in Hll.
  - (* a process that is neither done nor asleep can go on *)
    assert (forall i p, procs !! i = Some p -> lock_done p = false -> ~ (lp_pc p = SleepDown \/ exists k, lp_pc p = DequeueDown k) ->
      exists c', locks_step (s, procs) c') as Hactive.
    { intros i p Hi Hd Hns. destruct (try_lock_step fl s procs i p Hinv Hi) as [Hs|[_ [Hd'|Hx _|_ Hpc]]]; [by apply (Hgo i p)|congruence|congruence|done]. }
    assert (forall k q, procs !! k = Some q -> unlocks q <> [] -> exists c', locks_step (s, procs) c') as Hwaker.
    { intros k q Hk Hq. apply (Hactive k q Hk); unfold unlocks, lock_done in *; [by destruct (lp_pc q)|]. intros [Hpc|[m Hpc]]; by rewrite Hpc in Hq. }
    assert (forall i p, procs !! i = Some p -> lp_pc p = SleepDown /\ lwWaiting s i <> LW_WS_WAITING \/ (exists k, lp_pc p = DequeueDown k) ->
      exists c', locks_step (s, procs) c') as Howed.
    { intros i p Hi Hpc. destruct (pg_sem s i) eqn:Hsem.
      - destruct (owed_signal fl s procs i p Hinv Hi Hsem Hpc) as (k & q & Hk & Hq). by apply (Hwaker k q).
      - apply (Hgo i p Hi). unfold lwlock_step, lp_down, PGSemaphoreLock. rewrite Hsem. destruct Hpc as [[-> _]|[k ->]]; by eexists _, _. }
    apply not_Forall_Exists in Hnd; [|apply _]. apply list.Exists_exists in Hnd as (p & [i Hi]%list_elem_of_lookup & Hne). apply not_true_is_false in Hne.
    destruct (decide (lwWaiting s i = LW_WS_WAITING /\ lp_pc p = SleepDown)) as [[Hw Hpc]|Hnw].
    + (* asleep in the queue: the holders, or those who look at the free lock *)
      assert (lk_waiters s <> []) as Hws.
      { intros He. pose proof (lo_queue _ _ _ _ _ _ (li_local _ _ _ _ Hinv i p Hi)) as Hq. cbn [fst snd] in Hq. unfold waits in Hq.
        rewrite He, Hpc, Hw in Hq. by cbn in Hq. }
      assert (forall k q, procs !! k = Some q -> guards s k q = true -> exists c', locks_step (s, procs) c') as Hguard.
      { intros k q Hk Hg. unfold guards, waits in Hg. destruct (decide (lp_pc q = SleepDown)) as [Hs|Hs].
        - rewrite Hs in Hg. apply (Howed k q Hk). left. split; [done|]. intros Hx. by rewrite Hx in Hg.
        - apply (Hactive k q Hk); [|intros [?|[m Hx]]; [done|by rewrite Hx in Hg]]. unfold lock_done. destruct (lp_pc q), (lp_todo q); done. }
      destruct (procs ≫= held_modes) as [|m l] eqn:Hh.
      * destruct (li_guard _ _ _ _ Hinv Hh Hws) as (k & q & Hk & Hg). by apply (Hguard k q).
      * assert (m ∈ procs ≫= held_modes) as Hin by (rewrite Hh; left). apply list_elem_of_bind in Hin as (q & Hm & [k Hk]%list_elem_of_lookup).
        unfold held_modes in Hm. destruct (has_lock (lp_pc q)) eqn:Hhl; [|by apply elem_of_nil in Hm].
        destruct (lp_pc q) eqn:Hqpc; try done; try (apply (Howed k q Hk); right; by eexists);
          (apply (Hactive k q Hk); [unfold lock_done; by rewrite Hqpc|]; rewrite Hqpc; by intros [?|[? ?]]).
    + destruct (decide (lp_pc p = SleepDown)) as [Hs|Hs].
      * apply (Howed i p Hi). left. split; [done|]. intros Hw. by apply Hnw.
      * destruct (lp_pc p) eqn:Hpc; try done; try (apply (Howed i p Hi); right; by eexists);
          (apply (Hactive i p Hi Hne); rewrite Hpc; by intros [?|[? ?]]).
Qed.

(** ** No run is longer than a bound *)

Context (signals : nat) (Hsignals : forall i, (sem0 i <= signals)%nat).

(** How far a process is from the end of an acquisition, a release or a wakeup. *)
Definition lock_rank_pc (pc : LockPC) : nat :=
  match pc with
  | InLock => 1 | RestoreSem => 2 | DequeueUp _ => 3 | DequeueTestWait _ => 4 | DequeueDown _ => 5 | DequeueDone _ => 6
  | DequeueUnlock _ => 7 | DequeueClear _ => 8 | DequeueTest _ => 9 | DequeueRemove => 10 | DequeueLock => 11
  | SleepTest => 12 | SleepDown => 13 | AttemptSecond => 14 | QueueUnlock => 15 | QueuePush => 16 | QueueFlag => 17 | QueueLock => 18
  | AttemptFirst => 19 | SetReleaseOk => 20
  | WakeNext l => 20 + 2 * length l | WakeUp _ l => 21 + 2 * length l | WakeFlags l => 21 + 2 * length l
  | WakeCollect => 22 + 12 * n | WakeLock => 23 + 12 * n
  end.

(** A wakeup buys another round: ten steps. *)
Definition round_cost (pc : LockPC) : Z := if queued pc || lost pc then 10 else 0.

(** Signals it may still absorb, or has to give back. *)
Definition signal_cost (p : LockProc) : Z :=
  match lp_pc p with
  | DequeueUp _ | RestoreSem | InLock => Z.of_nat (absorbed_by p)
  | _ => 5 * Z.of_nat signals - 4 * Z.of_nat (absorbed_by p)
  end.

Definition turn_cost : Z := 30 + 12 * Z.of_nat n + 5 * Z.of_nat signals.
Definition lock_proc_work (p : LockProc) : Z :=
  turn_cost * Z.of_nat (length (lp_todo p)) + Z.of_nat (lock_rank_pc (lp_pc p)) + round_cost (lp_pc p) + signal_cost p.
Definition lock_work (c : LockShared * list LockProc) : Z :=
  total lock_proc_work c.2 + 10 * (Z.of_nat n - Z.of_nat (length (lk_waiters c.1))).

Lemma cnt_NoDup l : (forall i, cnt i l <= 1) -> NoDup l.
Proof using Type.
  induction l as [|j l IH]; intros Hc; [constructor|]. apply list.NoDup_cons. split.
  - intros Hin. apply cnt_elem in Hin. pose proof (Hc j) as Hj. rewrite cnt_cons, decide_True in Hj by done. lia.
  - apply IH. intros i. pose proof (Hc i) as Hi. rewrite cnt_cons in Hi. case_decide; lia.
Qed.

Lemma waiters_length fl c : lock_inv sem0 n fl c -> (length (lk_waiters c.1) <= n)%nat.
Proof using Type.
  intros Hinv. assert (lk_waiters c.1 ⊆+ seq 0 n) as Hs.
  { apply NoDup_submseteq.
    - apply cnt_NoDup. intros i. destruct (decide (i ∈ lk_waiters c.1)) as [Hin|Hout].
      + pose proof (li_range _ _ _ _ Hinv i Hin) as Hlt. rewrite <- (li_length _ _ _ _ Hinv) in Hlt. apply lookup_lt_is_Some_2 in Hlt as [p Hp].
        by apply (cnt_le_one sem0 n fl c i p Hinv Hp).
      + apply cnt_absent in Hout. lia.
    - intros i Hin. apply elem_of_seq. pose proof (li_range _ _ _ _ Hinv i Hin). lia. }
  apply submseteq_length in Hs. by rewrite length_seq in Hs.
Qed.

Lemma collect_length mode b waiters wakeup rest : collect_waiters mode b waiters = (wakeup, rest) -> (length waiters = length wakeup + length rest)%nat.
Proof using Type.
  revert b wakeup rest. induction waiters as [|j l IH]; intros b wakeup rest Hc; [by injection Hc as <- <-|]. cbn in Hc.
  destruct (b && _); [|destruct (bool_decide _)].
  - destruct (collect_waiters mode b l) as [w r] eqn:He. injection Hc as <- <-. cbn. rewrite (IH _ _ _ He). lia.
  - by injection Hc as <- <-.
  - destruct (collect_waiters mode true l) as [w r] eqn:He. injection Hc as <- <-. cbn. rewrite (IH _ _ _ He). lia.
Qed.

Lemma filter_length i l : Z.of_nat (length (filter (fun j => j <> i) l)) = Z.of_nat (length l) - cnt i l.
Proof using Type.
  induction l as [|j l IH]; [done|]. rewrite filter_cons, cnt_cons. destruct (decide (j <> i)) as [Hj|Hj].
  - rewrite decide_False by done. cbn [length]. lia.
  - rewrite decide_True by (destruct (decide (j = i)); done). cbn [length]. lia.
Qed.

Lemma step_lock_work fl s procs i p s' p' : lock_inv sem0 n fl (s, procs) -> procs !! i = Some p -> lwlock_step i s p = Ok (Some (s', p')) ->
  lock_proc_work p' - 10 * Z.of_nat (length (lk_waiters s')) < lock_proc_work p - 10 * Z.of_nat (length (lk_waiters s)).
Proof using Hsignals.
  intros Hinv Hi Hs. pose proof (li_local _ _ _ _ Hinv i p Hi) as Hl. pose proof (lo_absorbed _ _ _ _ _ _ Hl) as Ha.
  pose proof (lo_absorbed _ _ _ _ _ _ (local_self sem0 n fl s procs i p s' p' Hinv Hi Hs)) as Ha'.
  pose proof (waiters_length fl _ Hinv) as Hn. pose proof (lo_queue _ _ _ _ _ _ Hl) as Hq. pose proof (Hsignals i) as Hb. cbn [fst snd] in *. clear Hinv Hl.
  assert (forall k, turn_cost * Z.of_nat (S k) = turn_cost * Z.of_nat k + turn_cost) as Hturn by (intros k; lia).
  assert (turn_cost = 30 + 12 * Z.of_nat n + 5 * Z.of_nat signals) as HT by done. clear Hsignals. unfold lock_proc_work. generalize dependent turn_cost. intros T Hturn HT.
  unfold round_cost, signal_cost, absorbed_by, waits in *.
  lock_cases Hs Hpc; lock_simpl; cbn [lock_rank_pc andb orb negb] in *; try lia.
  all: try rewrite E; cbn [length]; rewrite ?Hturn, ?length_app; cbn [length]; try lia.
  - rewrite filter_length, Hq. case_bool_decide; [lia|done].
  - pose proof (collect_length _ _ _ _ _ E). lia.
  - destruct (wakeup_flags_same wakeup s) as (-> & _). lia.
Qed.

Lemma lock_work_step fl c c' : lock_inv sem0 n fl c -> Z.of_nat n <= MAX_BACKENDS -> locks_step c c' -> 0 <= lock_work c' < lock_work c.
Proof using Hsignals.
  intros Hinv Hb Hst. destruct (lock_inv_step sem0 n fl c c' Hb Hinv Hst) as [fl' Hinv'].
  pose proof (waiters_length fl' c' Hinv') as Hn. revert Hinv Hinv' Hn. destruct Hst as [i s p s' p' procs Hi Hs]. intros Hinv Hinv' Hn.
  unfold lock_work. cbn [fst snd] in *. pose proof (step_lock_work fl s procs i p s' p' Hinv Hi Hs). rewrite (total_insert _ _ _ _ _ Hi).
  split; [|lia]. rewrite <- (total_insert _ _ _ _ _ Hi).
  assert (forall q, q ∈ <[i := p']> procs -> 0 <= lock_proc_work q) as Hpos.
  { intros q [j Hj]%list_elem_of_lookup. pose proof (lo_absorbed _ _ _ _ _ _ (li_local _ _ _ _ Hinv' j q Hj)) as Ha. pose proof (Hsignals j).
    unfold lock_proc_work, round_cost, signal_cost. assert (0 <= turn_cost) by (unfold turn_cost; lia).
    assert (0 <= turn_cost * Z.of_nat (length (lp_todo q))) by nia. destruct (_ || _), (lp_pc q); lia. }
  assert (forall l, (forall q, q ∈ l -> 0 <= lock_proc_work q) -> 0 <= total lock_proc_work l) as Ht.
  { induction l as [|q l IH]; intros Hl; [done|]. rewrite total_cons. pose proof (Hl q ltac:(left)). assert (0 <= total lock_proc_work l) by (apply IH; intros r Hr; apply Hl; by right). lia. }
  pose proof (Ht _ Hpos). lia.
Qed.
End Served.

(** ** Runs *)

Section Runs.
Context (sem0 : nat -> nat) (programs : list (list LWLockMode)).
Context (Hbackends : Z.of_nat (length programs) <= MAX_BACKENDS).

#[local] Abbreviation n := (length programs).
#[local] Abbreviation init := (locks_init sem0 programs).

Lemma locks_reach c : rtc locks_step init c -> exists fl, lock_inv sem0 n fl c.
Proof using Hbackends.
  revert c. apply (rtc_ind_r (R := locks_step) (fun c => exists fl, lock_inv sem0 n fl c) init).
  - eexists. by apply lock_inv_init.
  - intros c1 c2 _ Hst [fl Hinv]. by apply (lock_inv_step sem0 n fl c1 c2).
Qed.

Lemma locks_bound signals k c c' : (forall i, (sem0 i <= signals)%nat) -> rtc locks_step init c -> nsteps locks_step k c c' -> 0 <= lock_work n signals c ->
  Z.of_nat k <= lock_work n signals c - lock_work n signals c' /\ 0 <= lock_work n signals c'.
Proof using Hbackends.
  intros Hsig. induction 2 as [|k c c1 c2 Hst _ IH]; intros Hpos; [lia|].
  destruct (locks_reach c) as [fl Hinv]; [done|]. pose proof (lock_work_step sem0 n signals Hsig fl c c1 Hinv Hbackends Hst) as Hlt.
  destruct IH as [H1 H2]; [by eapply rtc_r|lia|]. lia.
Qed.

Lemma init_work signals : lock_work n signals init = turn_cost n signals * total (fun todo => Z.of_nat (length todo)) programs + (29 + 5 * Z.of_nat signals) * Z.of_nat n.
Proof using Type.
  clear Hbackends. unfold lock_work, locks_init. cbn [fst snd lk_waiters length]. rewrite Z.sub_0_r.
  assert (forall l, total (lock_proc_work n signals) ((fun todo => mkLockProc AttemptFirst todo 0) <$> l) =
    turn_cost n signals * total (fun todo => Z.of_nat (length todo)) l + (19 + 5 * Z.of_nat signals) * Z.of_nat (length l)) as Ht; [|rewrite Ht; lia].
  induction l as [|todo l IH]; [cbn; lia|]. rewrite fmap_cons, !total_cons, IH. cbn [length].
  assert (lock_proc_work n signals (mkLockProc AttemptFirst todo 0) = turn_cost n signals * Z.of_nat (length todo) + 19 + 5 * Z.of_nat signals) as ->; [|lia].
  unfold lock_proc_work, round_cost, signal_cost, absorbed_by. cbn [lp_pc lp_todo lp_extraWaits lock_rank_pc queued lost orb]. lia.
Qed.

(** All have finished. *)
Lemma served_state fl c : lock_inv sem0 n fl c -> Forall (fun p => lock_done p = true) c.2 ->
  lk_waiters c.1 = [] /\ (forall mode, LWLockAttemptLock (lk_state c.1) mode <> None) /\ (forall i, (i < n)%nat -> pg_sem c.1 i = sem0 i).
Proof using Type.
  clear Hbackends. intros Hinv Hend. rewrite list.Forall_forall in Hend.
  assert (forall i p, c.2 !! i = Some p -> lp_pc p = AttemptFirst /\ lp_todo p = []) as Hp.
  { intros i p Hi. pose proof (Hend p (list_elem_of_lookup_2 _ _ _ Hi)) as Hd. unfold lock_done in Hd. by destruct (lp_pc p), (lp_todo p). }
  assert (c.2 ≫= held_modes = []) as Hh by (apply bind_nil; intros p [i Hi]%list_elem_of_lookup; destruct (Hp i p Hi) as [Hpc _]; unfold held_modes; by rewrite Hpc).
  split; [|split].
  - destruct (lk_waiters c.1) as [|j l] eqn:Hw; [done|]. assert (j ∈ lk_waiters c.1) as Hj by (rewrite Hw; left).
    pose proof (li_range _ _ _ _ Hinv j Hj) as Hlt. rewrite <- (li_length _ _ _ _ Hinv) in Hlt. apply lookup_lt_is_Some_2 in Hlt as [q Hq].
    pose proof (lo_queue _ _ _ _ _ _ (li_local _ _ _ _ Hinv j q Hq)) as Hc. destruct (Hp j q Hq) as [Hpc _]. rewrite Hpc in Hc. cbn [queued andb] in Hc.
    apply cnt_elem in Hj. lia.
  - intros mode Ha. pose proof (attempt_word c.1 fl _ mode (li_word _ _ _ _ Hinv) (li_modes _ _ _ _ Hinv)) as Hat. rewrite Hh, Ha in Hat. apply Hat; [by vm_compute|done].
  - intros i Hlt. rewrite <- (li_length _ _ _ _ Hinv) in Hlt. apply lookup_lt_is_Some_2 in Hlt as [p Hi]. destruct (Hp i p Hi) as [Hpc Ht].
    pose proof (li_local _ _ _ _ Hinv i p Hi) as Hl. pose proof (lo_sem _ _ _ _ _ _ Hl) as Hs. pose proof (lo_drained _ _ _ _ _ _ Hl) as Hd.
    unfold drained in Hd. rewrite Hpc, Ht in Hd. specialize (Hd eq_refl).
    rewrite total_zero in Hs by (intros q [j Hj]%list_elem_of_lookup; destruct (Hp j q Hj) as [Hqpc _]; unfold unlocks; by rewrite Hqpc).
    unfold absorbed_by, owed in Hs. rewrite Hpc, Hd in Hs. cbn in Hs. lia.
Qed.

Lemma locks_finish signals fl c : (forall i, (sem0 i <= signals)%nat) -> lock_inv sem0 n fl c -> exists c', rtc locks_step c c' /\ Forall (fun p => lock_done p = true) c'.2.
Proof using Hbackends.
  intros Hsig. remember (Z.to_nat (lock_work n signals c)) as w eqn:Hw. revert fl c Hw. induction w as [w IH] using lt_wf_ind. intros fl [s procs] -> Hinv.
  destruct (lock_progress sem0 n fl s procs Hinv) as [Hend|[c1 Hst]]; [by exists (s, procs)|].
  pose proof (lock_work_step sem0 n signals Hsig fl _ c1 Hinv Hbackends Hst) as Hlt. destruct (lock_inv_step sem0 n fl _ c1 Hbackends Hinv Hst) as [fl1 Hinv1].
  destruct (IH (Z.to_nat (lock_work n signals c1)) ltac:(lia) fl1 c1 eq_refl Hinv1) as (c' & Hr & He). exists c'. split; [|done]. by eapply rtc_l.
Qed.

Lemma exclusive_holder fl c i j p q todo : lock_inv sem0 n fl c -> c.2 !! i = Some p -> c.2 !! j = Some q -> i <> j ->
  has_lock (lp_pc p) = true -> lp_todo p = LW_EXCLUSIVE :: todo -> has_lock (lp_pc q) = false.
Proof using Type.
  clear Hbackends. intros Hinv Hi Hj Hij Hp Ht. apply not_true_is_false. intros Hq. pose proof (has_lock_held sem0 n fl c j q Hinv Hj Hq) as Hne.
  assert (held_modes p = [LW_EXCLUSIVE]) as Hhp by (unfold held_modes; by rewrite Hp, Ht).
  destruct (bind_insert held_modes c.2 i p (mkLockProc AttemptFirst [] 0) Hi) as (rest & Hb & Hb'). rewrite Hhp in Hb. cbn [held_modes lp_pc has_lock app] in Hb'.
  pose proof (li_modes _ _ _ _ Hinv) as Hm. rewrite Hb in Hm. pose proof (lw_exclusive _ _ Hm ltac:(left)) as He. injection He as ->.
  apply (holder_some (<[i := mkLockProc AttemptFirst [] 0]> c.2) j q); [by rewrite list_lookup_insert_ne|done|]. by apply Permutation_nil.
Qed.
End Runs.

(** ** The lock of LWLock.v *)

(** The word without the flags of the queue, and who holds the lock. *)
Definition abstract_word (s : LockShared) : Z := LW_FLAG_RELEASE_OK + Z.land (lk_state s) LW_LOCK_MASK.
Definition lock_holders (c : LockShared * list LockProc) : list LWLockMode := c.2 ≫= held_modes.

Lemma abstract_word_ok s fl modes : word_is s fl (modes_value modes) -> modes_fine modes ->
  abstract_word s = LW_FLAG_RELEASE_OK + modes_value modes /\ LWLock_ok (abstract_word s) modes.
Proof.
  intros [Hw Hv] Hm. assert (abstract_word s = LW_FLAG_RELEASE_OK + modes_value modes) as He; [|split; [done|by rewrite He]].
  unfold abstract_word. rewrite Hw, word_low_same by done. rewrite land_lock_mask by by apply modes_fine_range. done.
Qed.

(** The attempt does not look at the flags. *)
Lemma attempt_abstract s fl modes mode w : word_is s fl (modes_value modes) -> modes_fine modes ->
  Z.of_nat (length modes) < MAX_BACKENDS -> LWLockAttemptLock (lk_state s) mode = Some w ->
  LWLockAttemptLock (abstract_word s) mode = Some (LW_FLAG_RELEASE_OK + modes_value (mode :: modes)).
Proof.
  intros Hw Hm Hlt Ha. destruct (abstract_word_ok s fl modes Hw Hm) as [He _]. pose proof (attempt_word s fl modes mode Hw Hm Hlt) as Hat. rewrite Ha in Hat.
  destruct Hat as [_ Hf]. pose proof (modes_fine_range _ Hf) as Hr. rewrite modes_value_cons in *. rewrite He.
  destruct Hw as [Hw Hv]. unfold LWLockAttemptLock in *. rewrite Hw in Ha. destruct mode; rewrite word_low_same in Ha by done.
  - destruct (_ =? 0); [|done]. f_equal. unfold u32. lock_numbers. cbn [mode_value] in *. change LW_VAL_EXCLUSIVE with 262144 in *. rewrite Z.mod_small; lia.
  - destruct (_ =? 0); [|done]. f_equal. unfold u32. lock_numbers. cbn [mode_value] in *. change LW_VAL_SHARED with 1 in *. rewrite Z.mod_small; lia.
Qed.

Lemma step_abstract sem0 n fl s procs i p s' p' : Z.of_nat n <= MAX_BACKENDS -> lock_inv sem0 n fl (s, procs) -> procs !! i = Some p ->
  lwlock_step i s p = Ok (Some (s', p')) ->
  (lock_holders (s', <[i := p']> procs) ≡ₚ lock_holders (s, procs) /\ abstract_word s' = abstract_word s) \/
  (exists mode, lock_holders (s', <[i := p']> procs) ≡ₚ mode :: lock_holders (s, procs) /\ LWLockAttemptLock (abstract_word s) mode = Some (abstract_word s')) \/
  (exists mode, lock_holders (s, procs) ≡ₚ mode :: lock_holders (s', <[i := p']> procs) /\ abstract_word s' = LWLockReleaseInternal (abstract_word s) mode).
Proof.
  intros Hb Hinv Hi Hs. pose proof (li_word _ _ _ _ Hinv) as Hw. pose proof (li_modes _ _ _ _ Hinv) as Hm. pose proof (li_length _ _ _ _ Hinv) as Hn.
  destruct (step_word sem0 n Hb fl s procs i p s' p' Hinv Hi Hs) as [Hw' Hm']. clear Hinv. unfold lock_holders. cbn [fst snd] in *.
  destruct (abstract_word_ok s _ _ Hw Hm) as [Ha _]. destruct (abstract_word_ok s' _ _ Hw' Hm') as [Ha' _].
  destruct (bind_insert held_modes procs i p p' Hi) as (rest & Hp & Hp').
  assert (held_modes p' = held_modes p -> <[i := p']> procs ≫= held_modes ≡ₚ procs ≫= held_modes /\ abstract_word s' = abstract_word s) as Hsame.
  { intros He. assert (<[i := p']> procs ≫= held_modes ≡ₚ procs ≫= held_modes) as Hperm by (rewrite Hp, Hp', He; done). split; [done|]. rewrite Ha, Ha'. by rewrite Hperm. }
  assert (forall mode w, LWLockAttemptLock (lk_state s) mode = Some w -> held_modes p = [] -> held_modes p' = [mode] ->
    <[i := p']> procs ≫= held_modes ≡ₚ mode :: procs ≫= held_modes /\ LWLockAttemptLock (abstract_word s) mode = Some (abstract_word s')) as Hgot.
  { intros mode w Hat Hh Hh'. assert (<[i := p']> procs ≫= held_modes ≡ₚ mode :: procs ≫= held_modes) as Hperm by (rewrite Hp, Hp', Hh, Hh'; done).
    split; [done|]. pose proof (holders_room procs i p Hi Hh) as Hr. rewrite (attempt_abstract s fl _ mode w Hw Hm ltac:(lia) Hat), Ha'. by rewrite Hperm. }
  assert (forall mode, held_modes p = [mode] -> held_modes p' = [] ->
    procs ≫= held_modes ≡ₚ mode :: <[i := p']> procs ≫= held_modes /\ abstract_word s' = LWLockReleaseInternal (abstract_word s) mode) as Hrel.
  { intros mode Hh Hh'. assert (procs ≫= held_modes ≡ₚ mode :: <[i := p']> procs ≫= held_modes) as Hperm by (rewrite Hp, Hp', Hh, Hh'; done).
    split; [done|]. rewrite Ha', Ha. assert (modes_fine (mode :: <[i := p']> procs ≫= held_modes)) as Hf by (by rewrite <- Hperm).
    rewrite <- (lw_state _ _ (release_ok _ _ _ Hf)). do 2 f_equal. by rewrite Hperm. }
  clear Hw Hm Hw' Hm' Ha Ha' Hp Hp'. lock_cases Hs Hpc.
  all: try (left; apply Hsame; unfold held_modes; by rewrite Hpc).
  all: try (right; left; eexists; eapply Hgot; [done| |]; unfold held_modes; rewrite ?Hpc; cbn; by rewrite ?E).
  all: right; right; eexists; apply Hrel; unfold held_modes; rewrite ?Hpc; cbn; by rewrite ?E.
Qed.

Lemma run_locks_steps schedule c c' : run_locks schedule c = Ok c' -> rtc locks_step c c'.
Proof.
  revert c. induction schedule as [|i schedule IH]; intros c Hr; [cbn in Hr; by injection Hr as <-|]. cbn in Hr.
  destruct (c.2 !! i) as [p|] eqn:Hi; [|by apply IH]. destruct (lwlock_step i c.1 p) as [[[s' p']|]|] eqn:Hs; cbn in Hr; [|by apply IH|done].
  destruct c as [s procs]. eapply rtc_l; [by apply (locks_step_intro i s p s' p')|]. by apply IH.
Qed.

(** Three processes; a signal is pending for the second one. *)
Definition sample_programs : list (list LWLockMode) := [[LW_EXCLUSIVE; LW_SHARED]; [LW_EXCLUSIVE]; [LW_SHARED; LW_EXCLUSIVE]].
Definition sample_sem (i : nat) : nat := if decide (i = 1%nat) then 1 else 0.
Definition lock_turns (rounds : nat) : list nat := concat (replicate rounds [0%nat; 1%nat; 2%nat]).
Definition sample_sleepers : list nat := replicate 2 0%nat ++ replicate 9 1%nat ++ replicate 7 2%nat.

(** ** The theorems *)

(** C5: No process waits in vain for a lightweight lock: whatever the order of the steps, with
    any number of signals pending at the semaphores, a run of processes that take and
    release a lock is not longer than a bound linear in the acquisitions, no step
    raises an error, a run that is not over can go on, and it can end with every process
    served; then the queue is empty, the lock is free and every semaphore has the
    signals it had at the start. *)
Theorem lwlock_served sem signals programs k c :
  Z.of_nat (length programs) <= MAX_BACKENDS -> (forall i, (sem i <= signals)%nat) ->
  nsteps locks_step k (locks_init sem programs) c ->
  Z.of_nat k <= (30 + 12 * Z.of_nat (length programs) + 5 * Z.of_nat signals) * total (fun todo => Z.of_nat (length todo)) programs
    + (29 + 5 * Z.of_nat signals) * Z.of_nat (length programs) /\
  (forall i p, c.2 !! i = Some p -> exists r, lwlock_step i c.1 p = Ok r) /\
  (Forall (fun p => lock_done p = true) c.2 \/ exists c', locks_step c c') /\
  (exists c', rtc locks_step c c' /\ Forall (fun p => lock_done p = true) c'.2) /\
  (Forall (fun p => lock_done p = true) c.2 ->
    lk_waiters c.1 = [] /\ (forall mode, LWLockAttemptLock (lk_state c.1) mode <> None) /\
    (forall i, (i < length programs)%nat -> pg_sem c.1 i = sem i)).
Proof.
  intros Hb Hsig Hk. pose proof (init_work sem programs signals) as Hw. unfold turn_cost in Hw.
  assert (exists fl, lock_inv sem (length programs) fl c) as [fl Hinv] by (apply locks_reach; [done|by eapply rtc_nsteps_2]).
  split; [|split; [|split; [|split]]].
  - apply (locks_bound sem programs Hb signals k _ c Hsig (rtc_refl _ _)) in Hk; [lia|]. rewrite Hw.
    assert (0 <= total (fun todo : list LWLockMode => Z.of_nat (length todo)) programs) by (apply total_nonneg; lia). nia.
  - intros i p Hi. destruct c as [s procs]. destruct (try_lock_step sem _ fl s procs i p Hinv Hi) as [(s' & p' & Hs)|[Hs _]]; by eexists.
  - destruct c as [s procs]. exact (lock_progress sem _ fl s procs Hinv).
  - exact (locks_finish sem programs Hb signals fl c Hsig Hinv).
  - exact (served_state sem programs fl c Hinv).
Qed.

Lemma lwlock_served_witness : exists c, run_locks sample_sleepers (locks_init sample_sem sample_programs) = Ok c /\
  lp_pc <$> c.2 = [InLock; SleepDown; SleepDown] /\ exists c', rtc locks_step c c' /\ Forall (fun p => lock_done p = true) c'.2.
Proof.
  assert (match run_locks sample_sleepers (locks_init sample_sem sample_programs) with
          | Ok c => bool_decide (lp_pc <$> c.2 = [InLock; SleepDown; SleepDown])
          | Err _ => false end = true) as Hpcs by (vm_compute; reflexivity).
  destruct (run_locks sample_sleepers (locks_init sample_sem sample_programs)) as [c|] eqn:Hrun; [|discriminate Hpcs].
  exists c. split; [reflexivity|]. split; [by apply bool_decide_eq_true in Hpcs|].
  apply run_locks_steps in Hrun. apply rtc_nsteps_1 in Hrun as [k Hk].
  destruct (lwlock_served sample_sem 1 sample_programs k c) as (_ & _ & _ & Hend & _).
  - vm_compute. discriminate.
  - intros i. unfold sample_sem. destruct (decide (i = 1%nat)); auto.
  - exact Hk.
  - exact Hend.
Defined.

(** C17: The lock with its queue is the lock of the parallel build: apart from the flags of
    the queue, every step of any process leaves the word and the holders alone, or
    takes the lock as LWLockAttemptLock does, or releases it as LWLockReleaseInternal does;
    and who holds it exclusively holds it alone. *)
Theorem lwlock_refines sem programs c c' :
  Z.of_nat (length programs) <= MAX_BACKENDS -> rtc locks_step (locks_init sem programs) c -> locks_step c c' ->
  (forall i j p q todo, c.2 !! i = Some p -> c.2 !! j = Some q -> i <> j -> has_lock (lp_pc p) = true -> lp_todo p = LW_EXCLUSIVE :: todo ->
    has_lock (lp_pc q) = false) /\
  LWLock_ok (abstract_word c.1) (lock_holders c) /\
  ((lock_holders c' ≡ₚ lock_holders c /\ abstract_word c'.1 = abstract_word c.1) \/
   (exists mode, lock_holders c' ≡ₚ mode :: lock_holders c /\ LWLockAttemptLock (abstract_word c.1) mode = Some (abstract_word c'.1)) \/
   (exists mode, lock_holders c ≡ₚ mode :: lock_holders c' /\ abstract_word c'.1 = LWLockReleaseInternal (abstract_word c.1) mode)).
Proof.
  intros Hb Hr Hst. destruct (locks_reach sem programs Hb c Hr) as [fl Hinv]. split; [|split].
  - intros i j p q todo. by apply (exclusive_holder sem programs fl c i j p q todo).
  - apply (abstract_word_ok c.1 fl); [apply (li_word _ _ _ _ Hinv)|apply (li_modes _ _ _ _ Hinv)].
  - clear Hr. revert Hinv. destruct Hst as [i s p s' p' procs Hi Hs]. intros Hinv. by apply (step_abstract sem (length programs) fl s procs i p s' p').
Qed.

Lemma lwlock_refines_witness : exists c c', locks_step (locks_init sample_sem sample_programs) c /\ locks_step c c' /\
  LWLock_ok (abstract_word c.1) (lock_holders c) /\ lock_holders c = [LW_EXCLUSIVE].
Proof.
  destruct (lwlock_step 0 (locks_init sample_sem sample_programs).1 (mkLockProc AttemptFirst [LW_EXCLUSIVE; LW_SHARED] 0)) as [[[s p]|]|] eqn:H1;
    [|vm_compute in H1; discriminate H1|vm_compute in H1; discriminate H1].
  assert (locks_step (locks_init sample_sem sample_programs) (s, <[0%nat := p]> (locks_init sample_sem sample_programs).2)) as Hst1
    by exact (locks_step_intro 0 _ _ _ _ (locks_init sample_sem sample_programs).2 eq_refl H1).
  assert (p = mkLockProc RestoreSem [LW_EXCLUSIVE; LW_SHARED] 0) as Hp by (vm_compute in H1; by injection H1 as _ <-).
  assert (locks_step (s, <[0%nat := p]> (locks_init sample_sem sample_programs).2)
    (s, <[0%nat := lp_goto InLock p]> (<[0%nat := p]> (locks_init sample_sem sample_programs).2))) as Hst2.
  { apply (locks_step_intro 0 s p s (lp_goto InLock p)); [reflexivity|]. rewrite Hp. reflexivity. }
  eexists _, _. split; [exact Hst1|]. split; [exact Hst2|].
  destruct (lwlock_refines sample_sem sample_programs _ _ ltac:(vm_compute; discriminate) (rtc_once _ _ Hst1) Hst2) as (_ & Hok & _).
  split; [exact Hok|]. rewrite Hp. reflexivity.
Defined.
