(* ===== verification/QSort.v ===== *)
(** * Sorting

    [list_sort] of src/pgvec/src/backend/nodes/list.c and the quicksort under it,
    [pg_qsort] of src/pgvec/src/port/qsort.c, which includes
    src/pgvec/src/include/lib/sort_template.h.  Pointers are positions in the
    array.  The class [ListSort] is what the selection of neighbors needs of a
    sort; [pg_list_sort] shows that the code has it. *)

From S2P Require Import Prelude.

(** ** The code *)

Section Sort.
Context {A : Type} (cmp : A -> A -> Z).

Definition element (l : list A) (i : nat) : res A := of_option UndefinedBehaviour (l !! i).

Definition DO_COMPARE (l : list A) (i j : nat) : res Z := x ← element l i ; y ← element l j ; Ok (cmp x y).

Definition ST_SWAP (l : list A) (a b : nat) : res (list A) :=
  tmp ← element l a ; y ← element l b ; Ok (<[b := tmp]> (<[a := y]> l)).

(** [n] elements. *)
Fixpoint ST_SWAPN (l : list A) (a b n : nat) : res (list A) :=
  match n with O => Ok l | S n => l ← ST_SWAP l a b ; ST_SWAPN l (S a) (S b) n end.

Definition ST_MED3 (l : list A) (a b c : nat) : res nat :=
  ab ← DO_COMPARE l a b ;
  bc ← DO_COMPARE l b c ;
  if ab <? 0 then
    if bc <? 0 then Ok b else ac ← DO_COMPARE l a c ; Ok (if ac <? 0 then c else a)
  else
    if 0 <? bc then Ok b else ac ← DO_COMPARE l a c ; Ok (if ac <? 0 then a else c).

(** *** Few elements: insertion sort *)

Fixpoint insert_down (fuel : nat) (l : list A) (a pl : nat) : res (list A) :=
  if (a <? pl)%nat then
    r ← DO_COMPARE l (pl - 1) pl ;
    if 0 <? r then
      match fuel with
      | O => Err OutOfFuel
      | S fuel => l ← ST_SWAP l pl (pl - 1) ; insert_down fuel l a (pl - 1)
      end
    else Ok l
  else Ok l.

(** [k] more elements from [pm] on. *)
Fixpoint insertion_loop (k : nat) (l : list A) (a pm : nat) : res (list A) :=
  match k with O => Ok l | S k => l ← insert_down pm l a pm ; insertion_loop k l a (S pm) end.

(** *** Many: quicksort, when they are not sorted already *)

Fixpoint is_presorted (k : nat) (l : list A) (pm : nat) : res bool :=
  match k with
  | O => Ok true
  | S k => r ← DO_COMPARE l (pm - 1) pm ; if 0 <? r then Ok false else is_presorted k l (S pm)
  end.

Definition choose_pivot (l : list A) (a n : nat) : res nat :=
  let pm := (a + n / 2)%nat in
  if (7 <? n)%nat then
    let pl := a in
    let pn := (a + (n - 1))%nat in
    '(pl, pm, pn) ←
      (if (40 <? n)%nat then
         let d := (n / 8)%nat in
         pl ← ST_MED3 l pl (pl + d) (pl + 2 * d) ;
         pm ← ST_MED3 l (pm - d) pm (pm + d) ;
         pn ← ST_MED3 l (pn - 2 * d) (pn - d) pn ;
         Ok (pl, pm, pn)
       else Ok (pl, pm, pn)) ;
    ST_MED3 l pl pm pn
  else Ok pm.

Fixpoint left_scan (fuel : nat) (l : list A) (a pa pb pc : nat) : res (list A * nat * nat) :=
  if (pb <=? pc)%nat then
    r ← DO_COMPARE l pb a ;
    if r <=? 0 then
      match fuel with
      | O => Err OutOfFuel
      | S fuel =>
          if r =? 0 then l ← ST_SWAP l pa pb ; left_scan fuel l a (S pa) (S pb) pc
          else left_scan fuel l a pa (S pb) pc
      end
    else Ok (l, pa, pb)
  else Ok (l, pa, pb).

Fixpoint right_scan (fuel : nat) (l : list A) (a pb pc pd : nat) : res (list A * nat * nat) :=
  if (pb <=? pc)%nat then
    r ← DO_COMPARE l pc a ;
    if 0 <=? r then
      match fuel with
      | O => Err OutOfFuel
      | S fuel =>
          if r =? 0 then l ← ST_SWAP l pc pd ; right_scan fuel l a pb (pc - 1) (pd - 1)
          else right_scan fuel l a pb (pc - 1) pd
      end
    else Ok (l, pc, pd)
  else Ok (l, pc, pd).

Fixpoint partition_loop (fuel : nat) (l : list A) (a pa pb pc pd : nat) : res (list A * nat * nat * nat * nat) :=
  match fuel with
  | O => Err OutOfFuel
  | S fuel' =>
      '(l, pa, pb) ← left_scan fuel l a pa pb pc ;
      '(l, pc, pd) ← right_scan fuel l a pb pc pd ;
      if (pc <? pb)%nat then Ok (l, pa, pb, pc, pd)
      else l ← ST_SWAP l pb pc ; partition_loop fuel' l a pa (S pb) (pc - 1) pd
  end.

(** Elements equal to the pivot go from both ends to the middle. *)
Definition partition (l : list A) (a n : nat) : res (list A * nat * nat) :=
  pm ← choose_pivot l a n ;
  l ← ST_SWAP l a pm ;
  '(l, pa, pb, pc, pd) ← partition_loop n l a (S a) (S a) (a + (n - 1)) (a + (n - 1)) ;
  let pn := (a + n)%nat in
  let d1 := ((pa - a) `min` (pb - pa))%nat in
  l ← ST_SWAPN l a (pb - d1) d1 ;
  let d1 := ((pd - pc) `min` (pn - pd - 1))%nat in
  l ← ST_SWAPN l pb (pn - d1) d1 ;
  Ok (l, pb - pa, pd - pc)%nat.

Fixpoint ST_SORT (fuel : nat) (l : list A) (a n : nat) : res (list A) :=
  if (n <? 7)%nat then insertion_loop (n - 1) l a (S a)
  else
    presorted ← is_presorted (n - 1) l (S a) ;
    if (presorted : bool) then Ok l
    else
      match fuel with
      | O => Err OutOfFuel
      | S fuel =>
          '(l, d1, d2) ← partition l a n ;
          let pn := (a + n)%nat in
          if (d1 <=? d2)%nat then
            l ← (if (1 <? d1)%nat then ST_SORT fuel l a d1 else Ok l) ;
            if (1 <? d2)%nat then ST_SORT fuel l (pn - d2) d2 else Ok l
          else
            l ← (if (1 <? d2)%nat then ST_SORT fuel l (pn - d2) d2 else Ok l) ;
            if (1 <? d1)%nat then ST_SORT fuel l a d1 else Ok l
      end.

Definition pg_qsort (l : list A) : res (list A) := ST_SORT (length l) l 0 (length l).

Definition list_sort_run (l : list A) : res (list A) := if (1 <? length l)%nat then pg_qsort l else Ok l.
End Sort.

(** ** The contract *)

(** A comparator that is a total preorder on the elements of a list. *)
Class sort_order {A} (cmp : A -> A -> Z) (l : list A) : Prop := {
  so_flip a b : a ∈ l -> b ∈ l -> 0 <= cmp a b -> cmp b a <= 0;
  so_trans a b c : a ∈ l -> b ∈ l -> c ∈ l -> cmp a b <= 0 -> cmp b c <= 0 -> cmp a c <= 0
}.

Class ListSort := {
  list_sort : forall {A}, (A -> A -> Z) -> list A -> list A;
  list_sort_perm {A} (cmp : A -> A -> Z) l : list_sort cmp l ≡ₚ l;
  list_sort_sorted {A} (cmp : A -> A -> Z) l :
    sort_order cmp l -> StronglySorted (fun a b => cmp a b <= 0) (list_sort cmp l)
}.

(** ** Rearrangements of a range *)

Section Rearranged.
Context {A : Type}.

Inductive rearranged (lo hi : nat) : list A -> list A -> Prop :=
  | re_refl l : rearranged lo hi l l
  | re_swap l i j x y l' : (lo <= i < hi)%nat -> (lo <= j < hi)%nat -> l !! i = Some x -> l !! j = Some y ->
      rearranged lo hi (<[j := x]> (<[i := y]> l)) l' -> rearranged lo hi l l'.

Lemma rearranged_trans lo hi l1 l2 l3 : rearranged lo hi l1 l2 -> rearranged lo hi l2 l3 -> rearranged lo hi l1 l3.
Proof. induction 1 as [|l i j x y l' Hi Hj Hx Hy _ IH]; [done|]. intros Hl. apply (re_swap lo hi l i j x y); auto. Qed.

Lemma rearranged_weaken lo hi lo' hi' l l' : (lo' <= lo)%nat -> (hi <= hi')%nat -> rearranged lo hi l l' -> rearranged lo' hi' l l'.
Proof. intros H1 H2. induction 1 as [|l i j x y l' Hi Hj Hx Hy _ IH]; [constructor|]. apply (re_swap _ _ l i j x y); auto; lia. Qed.

Lemma swap_lookup (l : list A) i j x y k : l !! i = Some x -> l !! j = Some y ->
  <[j := x]> (<[i := y]> l) !! k = if decide (k = j) then Some x else if decide (k = i) then Some y else l !! k.
Proof.
  intros Hi Hj. apply lookup_lt_Some in Hi as Li. apply lookup_lt_Some in Hj as Lj. destruct (decide (k = j)) as [->|Hkj].
  - rewrite list_lookup_insert_eq; [done|]. by rewrite length_insert.
  - rewrite list_lookup_insert_ne by done. destruct (decide (k = i)) as [->|Hki]; [by apply list_lookup_insert_eq|]. by rewrite list_lookup_insert_ne.
Qed.

Lemma swap_permutation (l : list A) i j x y : l !! i = Some x -> l !! j = Some y -> <[j := x]> (<[i := y]> l) ≡ₚ l.
Proof.
  intros Hi Hj. apply Permutation_inj. split; [by rewrite !length_insert|]. exists (fun k => if decide (k = j) then i else if decide (k = i) then j else k). split.
  - intros k k' Heq. repeat case_decide; congruence.
  - intros k. rewrite (swap_lookup _ i j) by done. repeat case_decide; congruence.
Qed.

Lemma rearranged_perm lo hi l l' : rearranged lo hi l l' -> l' ≡ₚ l.
Proof. induction 1 as [|l i j x y l' Hi Hj Hx Hy _ IH]; [done|]. rewrite IH. by apply swap_permutation. Qed.

Lemma rearranged_length lo hi l l' : rearranged lo hi l l' -> length l' = length l.
Proof. intros Hr. by rewrite (rearranged_perm _ _ _ _ Hr). Qed.

Lemma rearranged_outside lo hi l l' k : rearranged lo hi l l' -> (k < lo \/ hi <= k)%nat -> l' !! k = l !! k.
Proof.
  intros Hr Hk. induction Hr as [|l i j x y l' Hi Hj Hx Hy _ IH]; [done|]. rewrite IH, (swap_lookup _ i j) by done. rewrite !decide_False by lia. done.
Qed.

(** What holds of all elements of the range holds after. *)
Definition all_in (P : A -> Prop) (l : list A) (lo hi : nat) : Prop := forall k x, (lo <= k < hi)%nat -> l !! k = Some x -> P x.

Lemma rearranged_all_in P lo hi l l' : rearranged lo hi l l' -> all_in P l lo hi -> all_in P l' lo hi.
Proof.
  intros Hr. induction Hr as [|l i j x y l' Hi Hj Hx Hy _ IH]; intros Hall; [done|]. apply IH. intros k z Hk Hz.
  rewrite (swap_lookup _ i j) in Hz by done. repeat case_decide; simplify_eq; eauto.
Qed.

Lemma rearranged_outside_all_in P lo hi lo' hi' l l' : rearranged lo hi l l' -> (hi' <= lo \/ hi <= lo')%nat -> all_in P l lo' hi' -> all_in P l' lo' hi'.
Proof. intros Hr Hd Hall k x Hk Hx. rewrite (rearranged_outside lo hi l) in Hx by (done || lia). by apply (Hall k). Qed.

Lemma rearranged_swap lo hi (l : list A) i j : (lo <= i < hi)%nat -> (lo <= j < hi)%nat -> (hi <= length l)%nat ->
  exists x y, l !! i = Some x /\ l !! j = Some y /\ ST_SWAP l i j = Ok (<[j := x]> (<[i := y]> l)) /\ rearranged lo hi l (<[j := x]> (<[i := y]> l)).
Proof.
  intros Hi Hj Hl. destruct (lookup_lt_is_Some_2 l i ltac:(lia)) as [x Hx]. destruct (lookup_lt_is_Some_2 l j ltac:(lia)) as [y Hy].
  exists x, y. split; [done|]. split; [done|]. split.
  - unfold ST_SWAP, element. rewrite Hx. cbn [of_option]. rewrite bind_Ok, Hy. done.
  - apply (re_swap lo hi l i j x y); [done|done|done|done|constructor].
Qed.
End Rearranged.


(** ** The sort is correct *)

Section Correct.
Context {A : Type} (cmp : A -> A -> Z) (l0 : list A).

(** In the order, when there is one: with any other comparator the sort stays in
    the array and ends as well. *)
Definition le_elt (x y : A) : Prop := sort_order cmp l0 -> cmp x y <= 0.
Definition eqv_elt (p x : A) : Prop := le_elt x p /\ le_elt p x.
Definition sorted_range (l : list A) (lo hi : nat) : Prop :=
  forall i j x y, (lo <= i < j)%nat -> (j < hi)%nat -> l !! i = Some x -> l !! j = Some y -> le_elt x y.

Lemma member l k x : l ≡ₚ l0 -> l !! k = Some x -> x ∈ l0.
Proof using Type. intros Hp Hk. rewrite <- Hp. by apply list_elem_of_lookup_2 in Hk. Qed.
#[local] Hint Resolve member : core.

Lemma le_elt_refl x : x ∈ l0 -> le_elt x x.
Proof using Type. intros Hx Hso. destruct (Z.le_gt_cases (cmp x x) 0); [done|]. apply (so_flip (l := l0)); [done|done|lia]. Qed.

Lemma le_elt_flip x y : x ∈ l0 -> y ∈ l0 -> 0 <= cmp x y -> le_elt y x.
Proof using Type. intros Hx Hy Hc Hso. by apply (so_flip (l := l0)). Qed.

Lemma le_elt_trans x y z : x ∈ l0 -> y ∈ l0 -> z ∈ l0 -> le_elt x y -> le_elt y z -> le_elt x z.
Proof using Type. intros Hx Hy Hz Hxy Hyz Hso. apply (so_trans (l := l0) x y z); auto. Qed.

Lemma compare_run l i j : (i < length l)%nat -> (j < length l)%nat -> l ≡ₚ l0 ->
  exists x y, l !! i = Some x /\ l !! j = Some y /\ x ∈ l0 /\ y ∈ l0 /\ DO_COMPARE cmp l i j = Ok (cmp x y).
Proof using Type.
  intros Hi Hj Hp. destruct (lookup_lt_is_Some_2 l i Hi) as [x Hx]. destruct (lookup_lt_is_Some_2 l j Hj) as [y Hy].
  exists x, y. split_and!; eauto. unfold DO_COMPARE, element. rewrite Hx. cbn [of_option]. rewrite bind_Ok, Hy. done.
Qed.

(** *** Insertion sort *)

(** The range is sorted but for the element at [p], which may be too far right. *)
Definition sorted_but (l : list A) (lo hi p : nat) : Prop :=
  forall i j x y, (lo <= i < j)%nat -> (j < hi)%nat -> j <> p -> l !! i = Some x -> l !! j = Some y -> le_elt x y.

Lemma sorted_but_swap l lo hi p x y : (lo < p < hi)%nat -> l ≡ₚ l0 -> l !! p = Some x -> l !! (p - 1)%nat = Some y ->
  0 < cmp y x -> sorted_but l lo hi p -> sorted_but (<[(p - 1)%nat := x]> (<[p := y]> l)) lo hi (p - 1).
Proof using Type.
  intros Hlo Hp Hx Hy Hc Hs i j u v Hij Hj Hjp Hu Hv. rewrite (swap_lookup l p (p - 1)) in Hu, Hv by done.
  rewrite (decide_False (P := j = (p - 1)%nat)) in Hv by done.
  assert (le_elt x y) as Hxy by (apply le_elt_flip; eauto; lia).
  repeat case_decide; try lia; try congruence.
  - by simplify_eq.
  - simplify_eq. apply (Hs i (p - 1)%nat); [lia|lia|lia|done|done].
  - simplify_eq. apply (Hs p j); [lia|lia|done|done|done].
  - simplify_eq. apply (Hs (p - 1)%nat j); [lia|lia|done|done|done].
  - by apply (Hs i j).
Qed.

Lemma sorted_but_done l lo hi p : (lo <= p < hi)%nat -> l ≡ₚ l0 -> sorted_but l lo hi p ->
  (lo < p -> forall x y, l !! (p - 1)%nat = Some x -> l !! p = Some y -> le_elt x y)%nat -> sorted_range l lo hi.
Proof using Type.
  intros Hlo Hp Hs Hle i j x y Hij Hj Hx Hy. destruct (decide (j = p)) as [->|Hjp]; [|by apply (Hs i j)].
  destruct (decide (i = (p - 1)%nat)) as [->|Hip]; [apply Hle; [lia|done|done]|].
  apply lookup_lt_Some in Hy as Hlen. destruct (lookup_lt_is_Some_2 l (p - 1) ltac:(lia)) as [z Hz].
  apply (le_elt_trans x z y); eauto.
  - apply (Hs i (p - 1)%nat); [lia|lia|lia|done|done].
  - apply Hle; [lia|done|done].
Qed.

Lemma sorted_but_first l lo hi : sorted_but l lo hi lo -> sorted_range l lo hi.
Proof using Type. intros Hs i j x y Hij Hj. apply (Hs i j); lia. Qed.

Lemma insert_down_ok fuel l a p hi : (a <= p < hi)%nat -> (p - a <= fuel)%nat -> (hi <= length l)%nat -> l ≡ₚ l0 ->
  sorted_but l a hi p ->
  exists l', insert_down cmp fuel l a p = Ok l' /\ rearranged a hi l l' /\ sorted_range l' a hi.
Proof using Type.
  revert l p. induction fuel as [|fuel IH]; intros l p Hap Hf Hl Hp Hs; cbn [insert_down].
  { destruct (Nat.ltb_spec a p) as [Hlt|Hge]; [lia|]. replace p with a in Hs by lia.
    exists l. split; [done|]. split; [constructor|]. by apply sorted_but_first. }
  destruct (Nat.ltb_spec a p) as [Hlt|Hge].
  2: { replace p with a in Hs by lia. exists l. split; [done|]. split; [constructor|]. by apply sorted_but_first. }
  destruct (compare_run l (p - 1) p) as (y & x & Hy & Hx & My & Mx & ->); [lia|lia|done|]. rewrite bind_Ok.
  destruct (Z.ltb_spec 0 (cmp y x)) as [Hc|Hc].
  - destruct (rearranged_swap a hi l p (p - 1)) as (x' & y' & Hx' & Hy' & -> & Hr); [lia|lia|lia|]. simplify_eq. rewrite bind_Ok.
    destruct (IH (<[(p - 1)%nat := x]> (<[p := y]> l)) (p - 1)%nat) as (l' & Hrun & Hr' & Hs'); [lia|lia|by rewrite !length_insert| | |].
    + by rewrite (rearranged_perm _ _ _ _ Hr).
    + apply sorted_but_swap; [lia|done|done|done|done|done].
    + exists l'. split; [done|]. split; [|done]. by eapply rearranged_trans.
  - exists l. split; [done|]. split; [constructor|]. apply (sorted_but_done l a hi p); [lia|done|done|]. intros _ u v Hu Hv _. by simplify_eq.
Qed.

Lemma insertion_loop_ok k l a pm : (a < pm)%nat -> (pm + k <= length l)%nat -> l ≡ₚ l0 -> sorted_range l a pm ->
  exists l', insertion_loop cmp k l a pm = Ok l' /\ rearranged a (pm + k) l l' /\ sorted_range l' a (pm + k).
Proof using Type.
  revert l pm. induction k as [|k IH]; intros l pm Ha Hl Hp Hs; cbn [insertion_loop].
  - exists l. split; [done|]. split; [constructor|]. by rewrite Nat.add_0_r.
  - destruct (insert_down_ok pm l a pm (S pm)) as (l1 & -> & Hr1 & Hs1); [lia|lia|lia|done| |].
    + intros i j x y Hij Hj Hne. apply Hs; lia.
    + rewrite bind_Ok. destruct (IH l1 (S pm)) as (l2 & Hrun & Hr2 & Hs2); [lia|rewrite (rearranged_length _ _ _ _ Hr1); lia|by rewrite (rearranged_perm _ _ _ _ Hr1)|done|].
      exists l2. split; [done|]. rewrite Nat.add_succ_r in *. cbn [Nat.add] in *. split; [|done].
      eapply rearranged_trans; [|exact Hr2]. apply (rearranged_weaken a (S pm)); [lia|lia|done].
Qed.

(** *** The test for a sorted range *)

Lemma is_presorted_ok k l a pm : (a < pm)%nat -> (pm + k <= length l)%nat -> l ≡ₚ l0 -> sorted_range l a pm ->
  exists b : bool, is_presorted cmp k l pm = Ok b /\ (b = true -> sorted_range l a (pm + k)).
Proof using Type.
  revert pm. induction k as [|k IH]; intros pm Ha Hl Hp Hs; cbn [is_presorted].
  - exists true. by rewrite Nat.add_0_r.
  - destruct (compare_run l (pm - 1) pm) as (x & y & Hx & Hy & Mx & My & ->); [lia|lia|done|]. rewrite bind_Ok.
    destruct (Z.ltb_spec 0 (cmp x y)) as [Hc|Hc]; [by exists false|].
    rewrite Nat.add_succ_r. apply (IH (S pm)); [lia|lia|done|].
    apply (sorted_but_done l a (S pm) pm); [lia|done| |].
    + intros i j u v Hij Hj Hne. apply Hs; lia.
    + intros _ u v Hu Hv _. by simplify_eq.
Qed.

(** *** The pivot *)

Lemma ST_MED3_ok l lo hi a b c : (lo <= a < hi)%nat -> (lo <= b < hi)%nat -> (lo <= c < hi)%nat -> (hi <= length l)%nat -> l ≡ₚ l0 ->
  exists m, ST_MED3 cmp l a b c = Ok m /\ (lo <= m < hi)%nat.
Proof using Type.
  intros Ha Hb Hc Hl Hp. unfold ST_MED3.
  destruct (compare_run l a b) as (x & y & _ & _ & _ & _ & ->); [lia|lia|done|].
  destruct (compare_run l b c) as (x' & z & _ & _ & _ & _ & ->); [lia|lia|done|].
  destruct (compare_run l a c) as (x'' & z' & _ & _ & _ & _ & ->); [lia|lia|done|].
  rewrite !bind_Ok. repeat case_match; eexists; (split; [reflexivity|lia]).
Qed.

Lemma choose_pivot_ok l a n : (0 < n)%nat -> (a + n <= length l)%nat -> l ≡ₚ l0 ->
  exists m, choose_pivot cmp l a n = Ok m /\ (a <= m < a + n)%nat.
Proof using Type.
  intros Hn Hl Hp. unfold choose_pivot. assert (n / 2 < n)%nat as H2 by (apply Nat.div_lt; lia).
  destruct (Nat.ltb_spec 7 n) as [H7|H7]; [|eexists; split; [reflexivity|lia]].
  destruct (Nat.ltb_spec 40 n) as [H40|H40]; [|rewrite bind_Ok; apply ST_MED3_ok; (lia || done)].
  assert (8 * (n / 8) <= n)%nat as H8 by (apply Nat.Div0.mul_div_le). assert (n / 8 <= n / 2)%nat as H82 by (apply Nat.div_le_compat_l; lia).
  assert (2 * (n / 2) <= n)%nat as H2' by apply Nat.Div0.mul_div_le.
  destruct (ST_MED3_ok l a (a + n) a (a + n / 8) (a + 2 * (n / 8))) as (pl & -> & Hpl); [lia|lia|lia|done|done|]. rewrite bind_Ok.
  destruct (ST_MED3_ok l a (a + n) (a + n / 2 - n / 8) (a + n / 2) (a + n / 2 + n / 8)) as (pm & -> & Hpm); [lia|lia|lia|done|done|]. rewrite bind_Ok.
  destruct (ST_MED3_ok l a (a + n) (a + (n - 1) - 2 * (n / 8)) (a + (n - 1) - n / 8) (a + (n - 1))) as (pn & -> & Hpn); [lia|lia|lia|done|done|].
  rewrite !bind_Ok. by apply ST_MED3_ok.
Qed.

(** *** The partition *)

(** Equal to the pivot, at most the pivot, not seen yet, at least the pivot,
    equal to the pivot. *)
Record partitioning (p : A) (l : list A) (a pa pb pc pd hi : nat) : Prop := {
  pt_order : (a < pa <= pb /\ pb <= pc + 1 /\ pc <= pd < hi)%nat;
  pt_perm : l ≡ₚ l0;
  pt_length : (hi <= length l)%nat;
  pt_pivot : l !! a = Some p;
  pt_left : all_in (eqv_elt p) l a pa;
  pt_low : all_in (fun x => le_elt x p) l pa pb;
  pt_high : all_in (le_elt p) l (S pc) (S pd);
  pt_right : all_in (eqv_elt p) l (S pd) hi
}.

Lemma all_in_snoc (P : A -> Prop) l lo hi x : l !! hi = Some x -> P x -> all_in P l lo hi -> all_in P l lo (S hi).
Proof using Type. intros Hx HP Hall k y Hk Hy. destruct (decide (k = hi)) as [->|Hne]; [by simplify_eq|]. apply (Hall k); [lia|done]. Qed.

Lemma all_in_cons (P : A -> Prop) l lo hi x : l !! lo = Some x -> P x -> all_in P l (S lo) hi -> all_in P l lo hi.
Proof using Type. intros Hx HP Hall k y Hk Hy. destruct (decide (k = lo)) as [->|Hne]; [by simplify_eq|]. apply (Hall k); [lia|done]. Qed.

(** What a swap does to a predicate on a range: an element comes in that has it,
    at [j], from [i] outside of the range. *)
Lemma all_in_swap_shift (P : A -> Prop) l lo hi i j x y : l !! i = Some x -> l !! j = Some y ->
  (forall k z, (lo <= k < hi)%nat -> k <> i -> k <> j -> l !! k = Some z -> P z) ->
  ((lo <= i < hi)%nat -> P y) -> ((lo <= j < hi)%nat -> P x) -> all_in P (<[j := x]> (<[i := y]> l)) lo hi.
Proof using Type.
  intros Hx Hy Hall Hi Hj k z Hk Hz. rewrite (swap_lookup l i j) in Hz by done. repeat case_decide; simplify_eq; eauto.
Qed.

#[local] Ltac swapped i j x y :=
  apply (all_in_swap_shift _ _ _ _ i j x y); [done|done|intros k z Hk Hki Hkj Hz|intros ?|intros ?].

Lemma partitioning_low p l a pa pb pc pd hi y : partitioning p l a pa pb pc pd hi -> (pb <= pc)%nat ->
  l !! pb = Some y -> le_elt y p -> partitioning p l a pa (S pb) pc pd hi.
Proof using Type. intros [Ho Hp Hl Hv H1 H2 H3 H4] Hbc Hy Hle. split; try done; [lia|]. by eapply all_in_snoc. Qed.

Lemma partitioning_high p l a pa pb pc pd hi y : partitioning p l a pa pb pc pd hi -> (pb <= pc)%nat ->
  l !! pc = Some y -> le_elt p y -> partitioning p l a pa pb (pc - 1) pd hi.
Proof using Type.
  intros [Ho Hp Hl Hv H1 H2 H3 H4] Hbc Hy Hle. split; try done; [lia|]. replace (S (pc - 1)) with pc by lia. by eapply all_in_cons.
Qed.

Lemma partitioning_left p l a pa pb pc pd hi x y : partitioning p l a pa pb pc pd hi -> (pb <= pc)%nat ->
  l !! pa = Some x -> l !! pb = Some y -> eqv_elt p y -> partitioning p (<[pb := x]> (<[pa := y]> l)) a (S pa) (S pb) pc pd hi.
Proof using Type.
  intros [Ho Hp Hl Hv H1 H2 H3 H4] Hbc Hx Hy Heq. split.
  - lia.
  - by rewrite (swap_permutation _ pa pb).
  - by rewrite !length_insert.
  - rewrite (swap_lookup _ pa pb) by done. rewrite !decide_False by lia. done.
  - swapped pa pb x y; [apply (H1 k); [lia|done]|done|]. replace pb with pa in Hy by lia. by simplify_eq.
  - swapped pa pb x y; [apply (H2 k); [lia|done]|lia|]. apply (H2 pa); [lia|done].
  - swapped pa pb x y; [by apply (H3 k)|lia|lia].
  - swapped pa pb x y; [by apply (H4 k)|lia|lia].
Qed.

Lemma partitioning_right p l a pa pb pc pd hi x y : partitioning p l a pa pb pc pd hi -> (pb <= pc)%nat ->
  l !! pc = Some x -> l !! pd = Some y -> eqv_elt p x -> partitioning p (<[pd := x]> (<[pc := y]> l)) a pa pb (pc - 1) (pd - 1) hi.
Proof using Type.
  intros [Ho Hp Hl Hv H1 H2 H3 H4] Hbc Hx Hy Heq. split.
  - lia.
  - by rewrite (swap_permutation _ pc pd).
  - by rewrite !length_insert.
  - rewrite (swap_lookup _ pc pd) by done. rewrite !decide_False by lia. done.
  - swapped pc pd x y; [by apply (H1 k)|lia|lia].
  - swapped pc pd x y; [by apply (H2 k)|lia|lia].
  - swapped pc pd x y; [apply (H3 k); [lia|done]| |lia]. apply (H3 pd); [lia|done].
  - swapped pc pd x y; [apply (H4 k); [lia|done]| |done]. replace pc with pd in Hx by lia. by simplify_eq.
Qed.

Lemma partitioning_cross p l a pa pb pc pd hi x y : partitioning p l a pa pb pc pd hi -> (pb < pc)%nat ->
  l !! pb = Some x -> l !! pc = Some y -> le_elt p x -> le_elt y p ->
  partitioning p (<[pc := x]> (<[pb := y]> l)) a pa (S pb) (pc - 1) pd hi.
Proof using Type.
  intros [Ho Hp Hl Hv H1 H2 H3 H4] Hbc Hx Hy Hge Hle. split.
  - lia.
  - by rewrite (swap_permutation _ pb pc).
  - by rewrite !length_insert.
  - rewrite (swap_lookup _ pb pc) by done. rewrite !decide_False by lia. done.
  - swapped pb pc x y; [by apply (H1 k)|lia|lia].
  - swapped pb pc x y; [apply (H2 k); [lia|done]|done|lia].
  - swapped pb pc x y; [apply (H3 k); [lia|done]|lia|done].
  - swapped pb pc x y; [by apply (H4 k)|lia|lia].
Qed.

Lemma left_scan_ok fuel p l a pa pb pc pd hi : partitioning p l a pa pb pc pd hi -> (pc + 1 - pb <= fuel)%nat ->
  exists l' pa' pb', left_scan cmp fuel l a pa pb pc = Ok (l', pa', pb') /\ rearranged a hi l l' /\
    partitioning p l' a pa' pb' pc pd hi /\ (pb <= pb')%nat /\ ((pb' <= pc)%nat -> exists x, l' !! pb' = Some x /\ 0 < cmp x p).
Proof using Type.
  revert l pa pb. induction fuel as [|fuel IH]; intros l pa pb Hpt Hf; cbn [left_scan].
  { destruct (Nat.leb_spec pb pc) as [Hlt|Hge]; [pose proof (pt_order _ _ _ _ _ _ _ _ Hpt); lia|].
    exists l, pa, pb. split; [done|]. split; [constructor|]. split; [done|]. split; [done|]. lia. }
  destruct (Nat.leb_spec pb pc) as [Hlt|Hge].
  2: { exists l, pa, pb. split; [done|]. split; [constructor|]. split; [done|]. split; [done|]. lia. }
  pose proof (pt_order _ _ _ _ _ _ _ _ Hpt) as Ho. pose proof (pt_length _ _ _ _ _ _ _ _ Hpt) as Hl.
  destruct (compare_run l pb a) as (y & p' & Hy & Hp' & My & Mp & ->); [lia|lia|apply Hpt|]. rewrite bind_Ok.
  rewrite (pt_pivot _ _ _ _ _ _ _ _ Hpt) in Hp'. injection Hp' as <-.
  destruct (Z.leb_spec (cmp y p) 0) as [Hc|Hc].
  2: { exists l, pa, pb. split; [done|]. split; [constructor|]. split; [done|]. split; [done|]. by exists y. }
  destruct (Z.eqb_spec (cmp y p) 0) as [Hz|Hz].
  - destruct (rearranged_swap a hi l pa pb) as (x & y' & Hx & Hy' & -> & Hr); [lia|lia|done|]. rewrite Hy in Hy'. injection Hy' as <-. rewrite bind_Ok.
    destruct (IH (<[pb := x]> (<[pa := y]> l)) (S pa) (S pb)) as (l' & pa' & pb' & -> & Hr' & Hpt' & Hle & Hstop); [|lia|].
    + apply (partitioning_left p l); [done|done|done|done|]. split; [by intros _|]. apply le_elt_flip; [done|done|lia].
    + exists l', pa', pb'. split; [done|]. split; [by eapply rearranged_trans|]. split; [done|]. split; [lia|done].
  - destruct (IH l pa (S pb)) as (l' & pa' & pb' & -> & Hr' & Hpt' & Hle & Hstop); [apply (partitioning_low p l a pa pb pc pd hi y); [done|done|done|by intros _]|lia|].
    exists l', pa', pb'. split; [done|]. split; [done|]. split; [done|]. split; [lia|done].
Qed.

Lemma right_scan_ok fuel p l a pa pb pc pd hi : partitioning p l a pa pb pc pd hi -> (pc + 1 - pb <= fuel)%nat ->
  ((pb <= pc)%nat -> exists x, l !! pb = Some x /\ 0 < cmp x p) ->
  exists l' pc' pd', right_scan cmp fuel l a pb pc pd = Ok (l', pc', pd') /\ rearranged a hi l l' /\
    partitioning p l' a pa pb pc' pd' hi /\ (pc' <= pc)%nat /\
    ((pb <= pc')%nat -> (pb < pc')%nat /\ exists x y, l' !! pb = Some x /\ 0 < cmp x p /\ l' !! pc' = Some y /\ cmp y p < 0).
Proof using Type.
  revert l pc pd. induction fuel as [|fuel IH]; intros l pc pd Hpt Hf Hb; cbn [right_scan].
  { destruct (Nat.leb_spec pb pc) as [Hlt|Hge]; [lia|].
    exists l, pc, pd. split; [done|]. split; [constructor|]. split; [done|]. split; [done|]. lia. }
  destruct (Nat.leb_spec pb pc) as [Hlt|Hge].
  2: { exists l, pc, pd. split; [done|]. split; [constructor|]. split; [done|]. split; [done|]. lia. }
  pose proof (pt_order _ _ _ _ _ _ _ _ Hpt) as Ho. pose proof (pt_length _ _ _ _ _ _ _ _ Hpt) as Hl.
  destruct (Hb Hlt) as (b & Hbx & Hbp).
  destruct (compare_run l pc a) as (x & p' & Hx & Hp' & Mx & Mp & ->); [lia|lia|apply Hpt|]. rewrite bind_Ok.
  rewrite (pt_pivot _ _ _ _ _ _ _ _ Hpt) in Hp'. injection Hp' as <-.
  destruct (Z.leb_spec 0 (cmp x p)) as [Hc|Hc].
  2: { exists l, pc, pd. split; [done|]. split; [constructor|]. split; [done|]. split; [done|]. intros _.
       assert (pb <> pc) by (intros ->; simplify_eq; lia). split; [lia|]. by exists b, x. }
  destruct (Z.eqb_spec (cmp x p) 0) as [Hz|Hz].
  - assert (pb <> pc) as Hne by (intros ->; simplify_eq; lia).
    destruct (rearranged_swap a hi l pc pd) as (x' & y & Hx' & Hy & -> & Hr); [lia|lia|done|]. rewrite Hx in Hx'. injection Hx' as <-. rewrite bind_Ok.
    destruct (IH (<[pd := x]> (<[pc := y]> l)) (pc - 1) (pd - 1))%nat as (l' & pc' & pd' & -> & Hr' & Hpt' & Hle & Hstop); [|lia| |].
    + apply (partitioning_right p l); [done|done|done|done|]. split; [intros _; lia|]. by apply le_elt_flip.
    + intros _. exists b. split; [|done]. rewrite (swap_lookup l pc pd) by done. rewrite !decide_False by lia. done.
    + exists l', pc', pd'. split; [done|]. split; [by eapply rearranged_trans|]. split; [done|]. split; [lia|done].
  - destruct (IH l (pc - 1) pd)%nat as (l' & pc' & pd' & -> & Hr' & Hpt' & Hle & Hstop); [|lia|intros _; by exists b|].
    + eapply partitioning_high; [done|done|done|]. by apply le_elt_flip.
    + exists l', pc', pd'. split; [done|]. split; [done|]. split; [done|]. split; [lia|done].
Qed.

Lemma partition_loop_ok fuel p l a pa pb pc pd hi : partitioning p l a pa pb pc pd hi -> (pc + 1 - pb < fuel)%nat ->
  exists l' pa' pb' pc' pd', partition_loop cmp fuel l a pa pb pc pd = Ok (l', pa', pb', pc', pd') /\ rearranged a hi l l' /\
    partitioning p l' a pa' pb' pc' pd' hi /\ pb' = (pc' + 1)%nat.
Proof using Type.
  revert l pa pb pc pd. induction fuel as [|fuel IH]; intros l pa pb pc pd Hpt Hf; [lia|]. cbn [partition_loop].
  destruct (left_scan_ok (S fuel) p l a pa pb pc pd hi) as (l1 & pa1 & pb1 & -> & Hr1 & Hpt1 & Hle1 & Hs1); [done|lia|]. rewrite bind_Ok.
  destruct (right_scan_ok (S fuel) p l1 a pa1 pb1 pc pd hi) as (l2 & pc2 & pd2 & -> & Hr2 & Hpt2 & Hle2 & Hs2); [done|lia|done|]. rewrite bind_Ok.
  pose proof (pt_order _ _ _ _ _ _ _ _ Hpt2) as Ho. pose proof (rearranged_trans _ _ _ _ _ Hr1 Hr2) as Hr.
  destruct (Nat.ltb_spec pc2 pb1) as [Hlt|Hge].
  - exists l2, pa1, pb1, pc2, pd2. split; [done|]. split; [done|]. split; [done|]. lia.
  - destruct (Hs2 Hge) as (Hlt & x & y & Hx & Hxp & Hy & Hyp).
    destruct (rearranged_swap a hi l2 pb1 pc2) as (x' & y' & Hx' & Hy' & -> & Hr3); [lia|lia|apply Hpt2|].
    rewrite Hx in Hx'. injection Hx' as <-. rewrite Hy in Hy'. injection Hy' as <-. rewrite bind_Ok.
    destruct (IH (<[pc2 := x]> (<[pb1 := y]> l2)) pa1 (S pb1) (pc2 - 1) pd2)%nat as (l' & pa' & pb' & pc' & pd' & Hrun & Hr4 & Hpt' & He); [|lia|].
    + apply (partitioning_cross p l2); [done|done|done|done| |intros _; lia].
      apply le_elt_flip; [apply (member l2 pb1); [apply Hpt2|done]|apply (member l2 a); [apply Hpt2|apply Hpt2]|lia].
    + exists l', pa', pb', pc', pd'. split; [done|]. split; [|done]. eapply rearranged_trans; [exact Hr|]. by eapply rearranged_trans.
Qed.

(** *** The equal elements to the middle *)

Lemma ST_SWAPN_ok (l : list A) a b n : (a + n <= b)%nat -> (b + n <= length l)%nat ->
  exists l', ST_SWAPN l a b n = Ok l' /\ rearranged a (b + n) l l' /\
    (forall k, (a <= k < a + n)%nat -> l' !! k = l !! (k - a + b)%nat) /\
    (forall k, (b <= k < b + n)%nat -> l' !! k = l !! (k - b + a)%nat) /\
    (forall k, (k < a \/ a + n <= k < b \/ b + n <= k)%nat -> l' !! k = l !! k).
Proof using Type.
  revert l a b. induction n as [|n IH]; intros l a b Hab Hl; cbn [ST_SWAPN].
  - exists l. split; [done|]. split; [constructor|]. split; [lia|]. split; [lia|done].
  - destruct (rearranged_swap a (b + S n) l a b) as (x & y & Hx & Hy & -> & Hr); [lia|lia|lia|]. rewrite bind_Ok.
    destruct (IH (<[b := x]> (<[a := y]> l)) (S a) (S b)) as (l' & -> & Hr' & Ha & Hb & Ho); [lia|rewrite !length_insert; lia|].
    exists l'. split; [done|]. split; [|split; [|split]].
    + eapply rearranged_trans; [exact Hr|]. apply (rearranged_weaken (S a) (S b + n)); [lia|lia|done].
    + intros k Hk. destruct (decide (k = a)) as [->|Hka].
      * rewrite Ho, (swap_lookup l a b) by (done || lia). rewrite decide_False, decide_True by lia. by replace (a - a + b)%nat with b by lia.
      * rewrite Ha, (swap_lookup l a b) by (done || lia). rewrite !decide_False by lia. f_equal; lia.
    + intros k Hk. destruct (decide (k = b)) as [->|Hkb].
      * rewrite Ho, (swap_lookup l a b) by (done || lia). rewrite decide_True by done. by replace (b - b + a)%nat with a by lia.
      * rewrite Hb, (swap_lookup l a b) by (done || lia). rewrite !decide_False by lia. f_equal; lia.
    + intros k Hk. rewrite Ho, (swap_lookup l a b) by (done || lia). rewrite !decide_False by lia. done.
Qed.

(** Two neighboring blocks change places, by a swap of as many elements as the
    shorter one has. *)
Lemma block_exchange (l : list A) lo m hi : (lo <= m <= hi)%nat -> (hi <= length l)%nat ->
  let d := ((m - lo) `min` (hi - m))%nat in
  exists l', ST_SWAPN l lo (hi - d) d = Ok l' /\ rearranged lo hi l l' /\
    (forall P, all_in P l m hi -> all_in P l' lo (lo + (hi - m))) /\ (forall P, all_in P l lo m -> all_in P l' (lo + (hi - m)) hi).
Proof using Type.
  intros Hm Hl d. assert (d <= m - lo)%nat by (unfold d; lia). assert (d <= hi - m)%nat by (unfold d; lia).
  assert (d = m - lo \/ d = hi - m)%nat as Hd by (unfold d; lia). clearbody d.
  destruct (ST_SWAPN_ok l lo (hi - d) d) as (l' & Hrun & Hr & Ha & Hb & Ho); [lia|lia|]. replace (hi - d + d)%nat with hi in * by lia.
  exists l'. split; [done|]. split; [done|]. split; intros P HP k x Hk Hx.
  - destruct (decide (k < lo + d)%nat) as [Hin|Hout].
    + rewrite Ha in Hx by lia. apply (HP (k - lo + (hi - d))%nat); [lia|done].
    + destruct (decide (k < hi - d)%nat); [rewrite Ho in Hx by lia|rewrite Hb in Hx by lia; lia]. apply (HP k); [lia|done].
  - destruct (decide (hi - d <= k)%nat) as [Hin|Hout].
    + rewrite Hb in Hx by lia. apply (HP (k - (hi - d) + lo)%nat); [lia|done].
    + destruct (decide (lo + d <= k)%nat); [rewrite Ho in Hx by lia|lia]. apply (HP k); [lia|done].
Qed.

(** The two parts and the elements equal to the pivot between them. *)
Record partitioned (p : A) (l : list A) (a d1 d2 hi : nat) : Prop := {
  pd_size : (a + d1 + d2 < hi)%nat;
  pd_low : all_in (fun x => le_elt x p) l a (a + d1);
  pd_middle : all_in (eqv_elt p) l (a + d1) (hi - d2);
  pd_high : all_in (le_elt p) l (hi - d2) hi
}.

Lemma partition_ok l a n : (1 < n)%nat -> (a + n <= length l)%nat -> l ≡ₚ l0 ->
  exists l' d1 d2 p, partition cmp l a n = Ok (l', d1, d2) /\ rearranged a (a + n) l l' /\ p ∈ l0 /\ partitioned p l' a d1 d2 (a + n).
Proof using Type.
  intros Hn Hl Hp. unfold partition. destruct (choose_pivot_ok l a n) as (pm & -> & Hpm); [lia|done|done|]. rewrite bind_Ok.
  destruct (rearranged_swap a (a + n) l a pm) as (x & p & Hx & Hy & -> & Hr0); [lia|lia|done|]. rewrite bind_Ok. set (l1 := <[pm := x]> (<[a := p]> l)) in *.
  assert (l1 !! a = Some p) as Hpiv.
  { unfold l1. rewrite (swap_lookup l a pm) by done. destruct (decide (a = pm)) as [<-|Hne]; [congruence|]. by rewrite decide_True. }
  pose proof (rearranged_perm _ _ _ _ Hr0) as Hp1. pose proof (rearranged_length _ _ _ _ Hr0) as Hl1. rewrite Hp in Hp1. clearbody l1.
  destruct (partition_loop_ok n p l1 a (S a) (S a) (a + (n - 1)) (a + (n - 1)) (a + n)) as (l2 & pa & pb & pc & pd & -> & Hr2 & Hpt & ->); [|lia|].
  { split; try done; [lia|lia| |intros k z; lia|intros k z; lia|intros k z; lia].
    apply (all_in_snoc _ _ _ _ p); [done| |intros k z; lia]. assert (le_elt p p) by (apply le_elt_refl; eauto). by split. }
  rewrite bind_Ok. destruct Hpt as [Ho Hp2 Hl2 Hv2 H1 H2 H3 H4].
  destruct (block_exchange l2 a pa (pc + 1)) as (l3 & -> & Hr3 & Hlow3 & Hmid3); [lia|lia|]. rewrite bind_Ok.
  pose proof (rearranged_length _ _ _ _ Hr3) as Hl3. specialize (Hlow3 _ H2). specialize (Hmid3 _ H1).
  replace (pc + 1)%nat with (S pc) in * by lia.
  assert (all_in (le_elt p) l3 (S pc) (S pd)) as H3' by (eapply rearranged_outside_all_in; [exact Hr3|lia|done]).
  assert (all_in (eqv_elt p) l3 (S pd) (a + n)) as H4' by (eapply rearranged_outside_all_in; [exact Hr3|lia|done]).
  destruct (block_exchange l3 (S pc) (S pd) (a + n)) as (l4 & Hrun4 & Hr4 & Hmid4 & Hhigh4); [lia|lia|].
  replace (S pd - S pc)%nat with (pd - pc)%nat in Hrun4 by lia. replace (a + n - S pd)%nat with (a + n - pd - 1)%nat in * by lia.
  rewrite Hrun4, bind_Ok. specialize (Hmid4 _ H4'). specialize (Hhigh4 _ H3').
  exists l4, (S pc - pa)%nat, (pd - pc)%nat, p. split; [done|]. split; [|split].
  - eapply rearranged_trans; [exact Hr0|]. eapply rearranged_trans; [exact Hr2|].
    eapply rearranged_trans; [apply (rearranged_weaken a (S pc)); [lia|lia|exact Hr3]|].
    apply (rearranged_weaken (S pc) (a + n)); [lia|lia|exact Hr4].
  - by apply (member l1 a).
  - split; [lia| | |].
    + eapply rearranged_outside_all_in; [exact Hr4|lia|done].
    + assert (all_in (eqv_elt p) l4 (a + (S pc - pa)) (S pc)) as Hm by (eapply rearranged_outside_all_in; [exact Hr4|lia|done]).
      intros k z Hk Hz. destruct (decide (k < S pc)%nat); [apply (Hm k); [lia|done]|apply (Hmid4 k); [lia|done]].
    + intros k z Hk. apply Hhigh4. lia.
Qed.

(** *** The whole *)

Definition sorts (f : list A -> res (list A)) (l : list A) (lo hi : nat) : Prop :=
  exists l', f l = Ok l' /\ rearranged lo hi l l' /\ sorted_range l' lo hi.

Lemma partitioned_rearranged p l l' a d1 d2 hi lo' hi' : rearranged lo' hi' l l' ->
  (lo' = a /\ hi' = a + d1 \/ lo' = hi - d2 /\ hi' = hi)%nat -> partitioned p l a d1 d2 hi -> partitioned p l' a d1 d2 hi.
Proof using Type.
  intros Hr Hd [H1 H2 H3 H4]. split; [done| | |].
  - destruct Hd as [[-> ->]|[-> ->]]; [by eapply rearranged_all_in|]. eapply rearranged_outside_all_in; [exact Hr|lia|done].
  - eapply rearranged_outside_all_in; [exact Hr|lia|done].
  - destruct Hd as [[-> ->]|[-> ->]]; [|by eapply rearranged_all_in]. eapply rearranged_outside_all_in; [exact Hr|lia|done].
Qed.

Lemma sorted_parts p l a d1 d2 hi : l ≡ₚ l0 -> p ∈ l0 -> partitioned p l a d1 d2 hi ->
  sorted_range l a (a + d1) -> sorted_range l (hi - d2) hi -> sorted_range l a hi.
Proof using Type.
  intros Hp Mp [Hd Hlow Hmid Hhigh] H1 H2 i j x y Hij Hj Hx Hy.
  assert (x ∈ l0) as Mx by eauto. assert (y ∈ l0) as My by eauto.
  destruct (decide (j < a + d1)%nat); [apply (H1 i j); (lia || done)|].
  destruct (decide (hi - d2 <= i)%nat); [apply (H2 i j); (lia || done)|].
  apply (le_elt_trans x p y); try done.
  - destruct (decide (i < a + d1)%nat); [apply (Hlow i); [lia|done]|apply (Hmid i); [lia|done]].
  - destruct (decide (hi - d2 <= j)%nat); [apply (Hhigh j); [lia|done]|apply (Hmid j); [lia|done]].
Qed.

Lemma sorted_range_small l lo d : (d <= 1)%nat -> sorted_range l lo (lo + d).
Proof using Type. intros Hd i j x y Hij Hj. lia. Qed.

(** The two recursive calls, in either order. *)
Lemma sort_two (f : nat -> nat -> list A -> res (list A)) p l a d1 d2 hi :
  (forall l b d, (b + d <= length l)%nat -> (d <= d1 `max` d2)%nat -> l ≡ₚ l0 -> sorts (f b d) l b (b + d)) ->
  l ≡ₚ l0 -> p ∈ l0 -> (hi <= length l)%nat -> partitioned p l a d1 d2 hi ->
  sorts (fun l => l ← f a d1 l ; f (hi - d2)%nat d2 l) l a hi /\ sorts (fun l => l ← f (hi - d2)%nat d2 l ; f a d1 l) l a hi.
Proof using Type.
  intros Hf Hp Mp Hl Hpd. pose proof (pd_size _ _ _ _ _ _ Hpd) as Hd. split.
  - destruct (Hf l a d1) as (l1 & Hrun1 & Hr1 & Hs1); [lia|lia|done|].
    pose proof (rearranged_perm _ _ _ _ Hr1) as Hp1. pose proof (rearranged_length _ _ _ _ Hr1) as Hl1. rewrite Hp in Hp1.
    destruct (Hf l1 (hi - d2)%nat d2) as (l2 & Hrun2 & Hr2 & Hs2); [lia|lia|done|]. replace (hi - d2 + d2)%nat with hi in * by lia.
    exists l2. split; [by rewrite Hrun1, bind_Ok|]. split.
    + eapply rearranged_trans; [apply (rearranged_weaken a (a + d1)); [lia|lia|done]|apply (rearranged_weaken (hi - d2) hi); [lia|lia|done]].
    + apply (sorted_parts p l2 a d1 d2 hi); [by rewrite (rearranged_perm _ _ _ _ Hr2)|done| | |done].
      * apply (partitioned_rearranged p l1 l2 _ _ _ _ (hi - d2) hi); [done|by right|].
        apply (partitioned_rearranged p l l1 _ _ _ _ a (a + d1)); [done|by left|done].
      * intros i j x y Hij Hj Hx Hy. rewrite (rearranged_outside _ _ _ _ i Hr2) in Hx by lia. rewrite (rearranged_outside _ _ _ _ j Hr2) in Hy by lia. by apply (Hs1 i j).
  - destruct (Hf l (hi - d2)%nat d2) as (l1 & Hrun1 & Hr1 & Hs1); [lia|lia|done|].
    pose proof (rearranged_perm _ _ _ _ Hr1) as Hp1. pose proof (rearranged_length _ _ _ _ Hr1) as Hl1. rewrite Hp in Hp1.
    destruct (Hf l1 a d1) as (l2 & Hrun2 & Hr2 & Hs2); [lia|lia|done|]. replace (hi - d2 + d2)%nat with hi in * by lia.
    exists l2. split; [by rewrite Hrun1, bind_Ok|]. split.
    + eapply rearranged_trans; [apply (rearranged_weaken (hi - d2) hi); [lia|lia|done]|apply (rearranged_weaken a (a + d1)); [lia|lia|done]].
    + apply (sorted_parts p l2 a d1 d2 hi); [by rewrite (rearranged_perm _ _ _ _ Hr2)|done| |done|].
      * apply (partitioned_rearranged p l1 l2 _ _ _ _ a (a + d1)); [done|by left|].
        apply (partitioned_rearranged p l l1 _ _ _ _ (hi - d2) hi); [done|by right|done].
      * intros i j x y Hij Hj Hx Hy. rewrite (rearranged_outside _ _ _ _ i Hr2) in Hx by lia. rewrite (rearranged_outside _ _ _ _ j Hr2) in Hy by lia. by apply (Hs1 i j).
Qed.

Lemma ST_SORT_ok fuel l a n : (n <= fuel)%nat -> (a + n <= length l)%nat -> l ≡ₚ l0 -> sorts (fun l => ST_SORT cmp fuel l a n) l a (a + n).
Proof using Type.
  revert l a n. induction fuel as [|fuel IH]; intros l a n Hf Hl Hp; unfold sorts; cbn [ST_SORT].
  { replace n with O by lia. exists l. split; [done|]. split; [constructor|]. apply sorted_range_small; lia. }
  destruct (Nat.ltb_spec n 7) as [H7|H7].
  - destruct n as [|n]; [exists l; split; [done|]; split; [constructor|]; apply sorted_range_small; lia|].
    destruct (insertion_loop_ok n l a (S a)) as (l' & Hrun & Hr & Hs); [lia|lia|done|intros i j; lia|].
    replace (S n - 1)%nat with n by lia. rewrite Hrun. exists l'. split; [done|]. by rewrite Nat.add_succ_r.
  - destruct (is_presorted_ok (n - 1) l a (S a)) as ([] & -> & Hs); [lia|lia|done|intros i j; lia| |]; rewrite bind_Ok.
    { exists l. split; [done|]. split; [constructor|]. specialize (Hs eq_refl). by replace (S a + (n - 1))%nat with (a + n)%nat in Hs by lia. }
    destruct (partition_ok l a n) as (l1 & d1 & d2 & p & -> & Hr1 & Mp & Hpd); [lia|done|done|]. rewrite bind_Ok.
    pose proof (pd_size _ _ _ _ _ _ Hpd) as Hd. pose proof (rearranged_perm _ _ _ _ Hr1) as Hp1. pose proof (rearranged_length _ _ _ _ Hr1) as Hl1. rewrite Hp in Hp1.
    destruct (sort_two (fun b d l => if (1 <? d)%nat then ST_SORT cmp fuel l b d else Ok l) p l1 a d1 d2 (a + n)) as [H12 H21]; [|done|done|lia|done|].
    { intros l' b d Hbd Hdm Hp'. unfold sorts. destruct (Nat.ltb_spec 1 d); [apply IH; [lia|done|done]|].
      exists l'. split; [done|]. split; [constructor|]. apply sorted_range_small; lia. }
    destruct (Nat.leb_spec d1 d2) as [Hle|Hle].
    + destruct H12 as (l2 & Hrun & Hr2 & Hs2). exists l2. split; [exact Hrun|]. split; [by eapply rearranged_trans|done].
    + destruct H21 as (l2 & Hrun & Hr2 & Hs2). exists l2. split; [exact Hrun|]. split; [by eapply rearranged_trans|done].
Qed.
End Correct.

Lemma sorted_range_StronglySorted {A} (cmp : A -> A -> Z) l0 l : sort_order cmp l0 -> sorted_range cmp l0 l 0 (length l) ->
  StronglySorted (fun a b => cmp a b <= 0) l.
Proof.
  intros Hso. induction l as [|a l IH]; intros Hs; constructor.
  - apply IH. intros i j x y Hij Hj Hx Hy. apply (Hs (S i) (S j)); [lia|cbn [length]; lia|done|done].
  - apply list.Forall_forall. intros b [j Hj]%list_elem_of_lookup. apply (Hs O (S j)); [lia| |done|done|done].
    apply lookup_lt_Some in Hj. cbn [length]. lia.
Qed.

Lemma list_sort_run_ok {A} (cmp : A -> A -> Z) l :
  exists l', list_sort_run cmp l = Ok l' /\ l' ≡ₚ l /\ (sort_order cmp l -> StronglySorted (fun a b => cmp a b <= 0) l').
Proof.
  unfold list_sort_run, pg_qsort. destruct (Nat.ltb_spec 1 (length l)) as [Hl|Hl].
  - destruct (ST_SORT_ok cmp l (length l) l 0 (length l)) as (l' & Hrun & Hr & Hs); [done|lia|done|]. cbv beta in Hrun.
    exists l'. split; [done|]. pose proof (rearranged_perm _ _ _ _ Hr) as Hp. split; [done|].
    intros Hso. apply (sorted_range_StronglySorted cmp l); [done|]. by rewrite (rearranged_length _ _ _ _ Hr).
  - exists l. split; [done|]. split; [done|]. intros Hso. apply (sorted_range_StronglySorted cmp l); [done|]. intros i j x y Hij Hj. lia.
Qed.

Lemma StronglySorted_lookup {A} (R : A -> A -> Prop) l i j x y : StronglySorted R l -> (i < j)%nat -> l !! i = Some x -> l !! j = Some y -> R x y.
Proof.
  intros Hs. revert i j. induction Hs as [|a l Hs IH Hf]; intros i j Hij Hx Hy; [done|]. destruct j as [|j]; [lia|]. cbn in Hy.
  destruct i as [|i]; [|apply (IH i j); [lia|done|done]]. injection Hx as <-. rewrite list.Forall_forall in Hf. apply Hf. by eapply list_elem_of_lookup_2.
Qed.

(** A sorted array is not touched. *)
Section Presorted.
Context {A : Type} (cmp : A -> A -> Z) (l : list A) (Hs : StronglySorted (fun a b => cmp a b <= 0) l).

Lemma compare_sorted pm : (0 < pm < length l)%nat -> exists r, DO_COMPARE cmp l (pm - 1) pm = Ok r /\ r <= 0.
Proof using Hs.
  intros Hpm. destruct (compare_run cmp l l (pm - 1) pm) as (x & y & Hx & Hy & _ & _ & Hc); [lia|lia|done|].
  exists (cmp x y). split; [done|]. apply (StronglySorted_lookup _ l (pm - 1)%nat pm x y Hs); [lia|done|done].
Qed.

Lemma insertion_loop_sorted k a pm : (a < pm)%nat -> (pm + k <= length l)%nat -> insertion_loop cmp k l a pm = Ok l.
Proof using Hs.
  revert pm. induction k as [|k IH]; intros pm Ha Hl; cbn [insertion_loop]; [done|].
  destruct (compare_sorted pm) as (r & Hc & Hr); [lia|].
  assert (insert_down cmp pm l a pm = Ok l) as ->.
  { destruct pm as [|pm]; [lia|]. unfold insert_down. rewrite Hc, bind_Ok. destruct (Z.ltb_spec 0 r); [lia|]. by destruct (a <? S pm)%nat. }
  rewrite bind_Ok. apply IH; lia.
Qed.

Lemma is_presorted_sorted k pm : (0 < pm)%nat -> (pm + k <= length l)%nat -> is_presorted cmp k l pm = Ok true.
Proof using Hs.
  revert pm. induction k as [|k IH]; intros pm Ha Hl; cbn [is_presorted]; [done|].
  destruct (compare_sorted pm) as (r & -> & Hr); [lia|]. rewrite bind_Ok. destruct (Z.ltb_spec 0 r); [lia|]. apply IH; lia.
Qed.

Lemma list_sort_run_sorted : list_sort_run cmp l = Ok l.
Proof using Hs.
  unfold list_sort_run, pg_qsort. destruct (Nat.ltb_spec 1 (length l)) as [Hl|Hl]; [|done].
  destruct (length l) as [|n] eqn:E; [lia|]. cbn [ST_SORT]. destruct (Nat.ltb_spec (S n) 7).
  - apply insertion_loop_sorted; lia.
  - rewrite is_presorted_sorted by lia. done.
Qed.
End Presorted.

(** The sort of the index: [list_sort]. *)
Definition list_sort_result {A} (cmp : A -> A -> Z) (l : list A) : list A := match list_sort_run cmp l with Ok l' => l' | Err _ => l end.

Lemma list_sort_result_ok {A} (cmp : A -> A -> Z) l : list_sort_run cmp l = Ok (list_sort_result cmp l).
Proof. unfold list_sort_result. by destruct (list_sort_run_ok cmp l) as (l' & -> & _). Qed.

#[refine] Definition pg_list_sort : ListSort := {| list_sort := fun A => list_sort_result |}.
Proof.
  - intros A cmp l. destruct (list_sort_run_ok cmp l) as (l' & Hl' & Hp & _). rewrite list_sort_result_ok in Hl'. by injection Hl' as ->.
  - intros A cmp l Hso. destruct (list_sort_run_ok cmp l) as (l' & Hl' & _ & Hs). rewrite list_sort_result_ok in Hl'. injection Hl' as ->. auto.
Defined.

(** C34: [list_sort] never reads or writes outside of its array, ends, and gives a
    rearrangement of its elements, with any comparator, also one that is no order
    (distances may be NaN); with a total preorder the result is sorted.  A sorted
    array is left as it is. *)
Theorem list_sort_correct {A} (cmp : A -> A -> Z) (l : list A) :
  exists l', list_sort_run cmp l = Ok l' /\ l' ≡ₚ l /\
    (sort_order cmp l -> StronglySorted (fun a b => cmp a b <= 0) l') /\
    (StronglySorted (fun a b => cmp a b <= 0) l -> l' = l).
Proof.
  destruct (list_sort_run_ok cmp l) as (l' & Hrun & Hp & Hs). exists l'. split; [done|]. split; [done|]. split; [done|].
  intros Hsorted. rewrite (list_sort_run_sorted cmp l Hsorted) in Hrun. by injection Hrun as <-.
Qed.

(** Fifty numbers in an order that is not sorted: with the median of medians as
    the pivot. *)
Definition sample_numbers : list Z := (fun i => (Z.of_nat i * 17) mod 23) <$> seq 0 50.

Lemma list_sort_correct_witness : exists l', list_sort_run Z.sub sample_numbers = Ok l' /\
  list.head l' = Some 0 /\ list.last l' = Some 22 /\ sort_order Z.sub sample_numbers /\ StronglySorted (fun a b => a - b <= 0) l'.
Proof.
  assert (sort_order Z.sub sample_numbers) as Hso by (split; lia).
  destruct (list_sort_correct Z.sub sample_numbers) as (l' & Hrun & _ & Hs & _).
  exists l'. split; [exact Hrun|]. specialize (Hs Hso). split; [|split; [|split; [exact Hso|exact Hs]]].
  all: revert Hrun; clear; vm_compute; intros [= <-]; reflexivity.
Defined.
