(* ===== verification/SelectNeighbors.v ===== *)
(** * Selection of neighbors

    [SelectNeighbors] of src/pgvec/src/backend/access/hnsw/hnswutils.c
    (algorithm 4 of the HNSW paper), with its cache of the [closer] flags, and
    [HnswUpdateConnection], which keeps the neighbor array of an element within
    its size.

    The lists of the C code hold pointers to candidates: here they hold indices
    into an array of candidates, so that a store to [e->closer] is seen by every
    holder of the pointer. *)

From Stdlib Require Import SpecFloat.
From S2P Require Import Prelude CFloat VectorType ItemPtr GraphSearch HnswData BufPage Backend HnswUtils QSort.

(** ** Comparators: furthest first, with the pointer as tie-breaker *)

Definition CompareCandidateDistances (hca hcb : HnswCandidate) : Z :=
  if flt (hc_distance hca) (hc_distance hcb) then 1
  else if fgt (hc_distance hca) (hc_distance hcb) then -1
  else if (HnswPtrPointer (hc_element hca) <? HnswPtrPointer (hc_element hcb))%N then 1
  else if (HnswPtrPointer (hc_element hcb) <? HnswPtrPointer (hc_element hca))%N then -1
  else 0.

Definition CompareCandidateDistancesOffset (hca hcb : HnswCandidate) : Z :=
  if flt (hc_distance hca) (hc_distance hcb) then 1
  else if fgt (hc_distance hca) (hc_distance hcb) then -1
  else if HnswPtrOffset (hc_element hca) <? HnswPtrOffset (hc_element hcb) then 1
  else if HnswPtrOffset (hc_element hcb) <? HnswPtrOffset (hc_element hca) then -1
  else 0.

(** ** The selection *)

Record SelectState := mkSelectState {
  sel_cands : list HnswCandidate;
  sel_r : list nat;
  sel_wd : list nat;
  sel_added : list nat;
  sel_removedAny : bool
}.

Definition cand (cands : list HnswCandidate) (i : nat) : res HnswCandidate :=
  of_option UndefinedBehaviour (cands !! i).

Definition with_closer (b : bool) (hc : HnswCandidate) : HnswCandidate :=
  mkHnswCandidate (hc_element hc) (hc_distance hc) b.
Definition set_closer (e : nat) (b : bool) (cands : list HnswCandidate) : list HnswCandidate :=
  alter (with_closer b) e cands.

Section Select.
Context `{ListSort}.
(** The elements in memory are only read. *)
Context (base : addr) (elements : gmap addr HnswElementData) (support : HnswSupport).

Definition candidate_value (hc : HnswCandidate) : res (option Vector) :=
  match elements !! HnswPtrAccess base (hc_element hc) with
  | Some el => Ok (el_value el)
  | None => Err UndefinedBehaviour
  end.

(** The distance between two candidates is stored in a [float]. *)
Definition candidate_distance (e ri : HnswCandidate) : res float :=
  eValue ← candidate_value e ;
  riValue ← candidate_value ri ;
  d ← HnswGetDistance eValue riValue support ;
  Ok (float_of_double d).

Fixpoint CheckElementCloser (cands : list HnswCandidate) (e : nat) (r : list nat) : res bool :=
  match r with
  | [] => Ok true
  | ri :: r' =>
      ec ← cand cands e ; rc ← cand cands ri ;
      distance ← candidate_distance ec rc ;
      if fle distance (hc_distance ec) then Ok false else CheckElementCloser cands e r'
  end.

Definition sel_closer (e : nat) (st : SelectState) : res bool :=
  hc ← cand (sel_cands st) e ; Ok (hc_closer hc).
Definition sel_set_closer (e : nat) (b : bool) (st : SelectState) : SelectState :=
  mkSelectState (set_closer e b (sel_cands st)) (sel_r st) (sel_wd st) (sel_added st) (sel_removedAny st).
Definition sel_add (e : nat) (st : SelectState) : SelectState :=
  mkSelectState (sel_cands st) (sel_r st) (sel_wd st) (sel_added st ++ [e]) (sel_removedAny st).
Definition sel_set_removed (st : SelectState) : SelectState :=
  mkSelectState (sel_cands st) (sel_r st) (sel_wd st) (sel_added st) true.

Section Loop.
Context (lm : Z) (mustCalculate : bool) (newCandidate : option nat).

(** The [closer] flag of the candidate at hand. *)
Definition select_closer (e : nat) (st : SelectState) : res SelectState :=
  if mustCalculate then
    b ← CheckElementCloser (sel_cands st) e (sel_r st) ; Ok (sel_set_closer e b st)
  else if Nat.ltb 0 (length (sel_added st)) then
    closer ← sel_closer e st ;
    if (closer : bool) then
      b ← CheckElementCloser (sel_cands st) e (sel_added st) ;
      let st := sel_set_closer e b st in
      Ok (if (b : bool) then st else sel_set_removed st)
    else if sel_removedAny st then
      b ← CheckElementCloser (sel_cands st) e (sel_r st) ;
      let st := sel_set_closer e b st in
      Ok (if (b : bool) then sel_add e st else st)
    else Ok st
  else if bool_decide (Some e = newCandidate) then
    b ← CheckElementCloser (sel_cands st) e (sel_r st) ;
    let st := sel_set_closer e b st in
    Ok (if (b : bool) then sel_add e st else st)
  else Ok st.

Definition select_step (e : nat) (st : SelectState) : res SelectState :=
  st ← select_closer e st ;
  closer ← sel_closer e st ;
  Ok (if (closer : bool)
      then mkSelectState (sel_cands st) (sel_r st ++ [e]) (sel_wd st) (sel_added st) (sel_removedAny st)
      else mkSelectState (sel_cands st) (sel_r st) (sel_wd st ++ [e]) (sel_added st) (sel_removedAny st)).

(** [w] is taken from its end: the list is given from the nearest. *)
Fixpoint select_loop (nearest : list nat) (st : SelectState) : res (list nat * SelectState) :=
  match nearest with
  | [] => Ok ([], st)
  | e :: nearest' =>
      if Z.of_nat (length (sel_r st)) <? lm then
        st ← select_step e st ; select_loop nearest' st
      else Ok (nearest, st)
  end.
End Loop.

Record Selection := mkSelection {
  s_r : list nat;
  s_cands : list HnswCandidate;
  s_closerSet : bool;
  s_pruned : option nat
}.

(** [pruned] is only stored when the caller wants it; the first of the empty
    list does not exist. *)
Definition SelectNeighbors (cands : list HnswCandidate) (c : list nat) (lm : Z) (closerSet : bool)
    (newCandidate : option nat) (want_pruned sortCandidates : bool) : res Selection :=
  if Z.of_nat (length c) <=? lm then Ok (mkSelection c cands closerSet None)
  else
    let cmp := if (base =? NULL)%N then CompareCandidateDistances else CompareCandidateDistancesOffset in
    hcs ← mapM (fun i => hc ← cand cands i ; Ok (i, hc)) c ;
    let w := if sortCandidates then (list_sort (fun a b => cmp a.2 b.2) hcs).*1 else c in
    '(rest, st) ← select_loop lm (negb closerSet) newCandidate (rev w) (mkSelectState cands [] [] [] false) ;
    let room := Z.to_nat (lm - Z.of_nat (length (sel_r st))) in
    let r := sel_r st ++ take room (sel_wd st) in
    pruned ← (if want_pruned then
                match drop room (sel_wd st) with
                | p :: _ => Ok (Some p)
                | [] => p ← of_option UndefinedBehaviour (head (rev rest)) ; Ok (Some p)
                end
              else Ok None) ;
    Ok (mkSelection r (sel_cands st) sortCandidates pruned).

(** [garbage] is the [closer] field of the new candidate, which is not
    initialised; the index is -2 for a candidate added at the end. *)
Definition HnswUpdateConnection (garbage : bool) (neighbors : HnswNeighborArray) (newElement : addr)
    (distance : float) (lm : Z) (updateIdx : option Z) : res (HnswNeighborArray * option Z) :=
  let newHc := mkHnswCandidate (HnswPtrStore base newElement) distance garbage in
  if na_length neighbors <? lm then
    Ok (mkHnswNeighborArray (na_closerSet neighbors) (na_items neighbors ++ [newHc]),
        (fun _ => -2) <$> updateIdx)
  else
    let n := length (na_items neighbors) in
    sel ← SelectNeighbors (na_items neighbors ++ [newHc]) (seq 0 (S n)) lm (na_closerSet neighbors)
            (Some n) true true ;
    let items := take n (s_cands sel) in
    match s_pruned sel with
    | None => Ok (mkHnswNeighborArray (s_closerSet sel) items, updateIdx)
    | Some p =>
        newHc ← cand (s_cands sel) n ;
        pruned ← cand (s_cands sel) p ;
        match list_find (fun hc => HnswPtrEqual base (hc_element hc) (hc_element pruned) = true) items with
        | Some (i, _) =>
            Ok (mkHnswNeighborArray (s_closerSet sel) (<[i := newHc]> items), (fun _ => Z.of_nat i) <$> updateIdx)
        | None => Ok (mkHnswNeighborArray (s_closerSet sel) items, updateIdx)
        end
    end.
End Select.

(** ** Algorithm 4, without flags

    From the nearest, a candidate is kept if it is closer to the query than to
    every kept one, until [lm] are kept. *)

Section Greedy.
Context {A : Type} (closer : A -> list A -> bool) (lm : Z).

(** The kept, the discarded and the candidates that were not looked at. *)
Fixpoint greedy (r wd l : list A) : list A * list A * list A :=
  match l with
  | [] => (r, wd, [])
  | e :: l' =>
      if Z.of_nat (length r) <? lm
      then if closer e r then greedy (r ++ [e]) wd l' else greedy r (wd ++ [e]) l'
      else (r, wd, l)
  end.

(** The neighbors: the kept, and the first discarded where there is room. *)
Definition algorithm4 (l : list A) : list A :=
  let '(r, wd, _) := greedy [] [] l in
  r ++ take (Z.to_nat (lm - Z.of_nat (length r))) wd.

(** The first candidate that is left out. *)
Definition left_out (l : list A) : option A :=
  let '(r, wd, rest) := greedy [] [] l in
  head (drop (Z.to_nat (lm - Z.of_nat (length r))) wd ++ rev rest).

Lemma greedy_spec : forall l r wd r' wd' rest, 0 <= lm -> Z.of_nat (length r) <= lm ->
  greedy r wd l = (r', wd', rest) ->
  r' ++ wd' ++ rest ≡ₚ r ++ wd ++ l /\ Z.of_nat (length r') <= lm /\
  (rest <> [] -> Z.of_nat (length r') = lm).
Proof.
  induction l as [|e l IH]; intros r wd r' wd' rest H0 Hr; simpl.
  { intros [= <- <- <-]. by split_and!. }
  destruct (Z.ltb_spec (Z.of_nat (length r)) lm).
  2: { intros [= <- <- <-]. split_and!; [done|lia|lia]. }
  destruct (closer e r); intros E; apply IH in E as (Hp & Hl & Hrest); try done; try (rewrite length_app; simpl; lia);
    (split_and!; [|done|done]); rewrite Hp; solve_Permutation.
Qed.

Lemma algorithm4_spec l : 0 <= lm ->
  Z.of_nat (length (algorithm4 l)) <= lm /\ (lm <= Z.of_nat (length l) -> Z.of_nat (length (algorithm4 l)) = lm) /\
  algorithm4 l ⊆+ l.
Proof.
  intros H0. unfold algorithm4. destruct (greedy [] [] l) as [[r wd] rest] eqn:E.
  destruct (greedy_spec l [] [] r wd rest H0 ltac:(simpl; lia) E) as (Hp & Hr & Hrest). simpl in Hp.
  pose proof (Permutation_length Hp) as Hlen. rewrite !length_app in Hlen.
  set (room := Z.to_nat (lm - Z.of_nat (length r))). rewrite length_app, length_take. split_and!; [lia| |].
  - intros Hl. destruct rest as [|x rest]; [|specialize (Hrest ltac:(done)); lia]. simpl in Hlen. lia.
  - rewrite <- Hp. apply submseteq_app; [done|]. rewrite <- (take_drop room wd) at 2. rewrite <- app_assoc.
    apply submseteq_inserts_r. done.
Qed.

(** One candidate too many: one is left out. *)
Lemma left_out_one l : 0 <= lm -> Z.of_nat (length l) = lm + 1 ->
  exists r wd rest p, greedy [] [] l = (r, wd, rest) /\ left_out l = Some p /\
    ((rest = [p] /\ wd = [] /\ Z.of_nat (length r) = lm) \/
     (rest = [] /\ exists k, wd = k ++ [p] /\ Z.of_nat (length k) = lm - Z.of_nat (length r))) /\
    algorithm4 l ++ [p] ≡ₚ l.
Proof.
  intros H0 Hl. unfold left_out, algorithm4. destruct (greedy [] [] l) as [[r wd] rest] eqn:E.
  destruct (greedy_spec l [] [] r wd rest H0 ltac:(simpl; lia) E) as (Hp & Hr & Hrest). simpl in Hp.
  pose proof (Permutation_length Hp) as Hlen. rewrite !length_app in Hlen.
  destruct rest as [|x rest].
  - simpl in Hlen. rewrite app_nil_r in *.
    assert (wd <> []) as Hwd by (intros ->; simpl in *; lia).
    destruct (exists_last Hwd) as (k & p & ->). rewrite length_app in Hlen. simpl in Hlen.
    assert (Z.to_nat (lm - Z.of_nat (length r)) = length k) as Hk by lia.
    exists r, (k ++ [p]), [], p. rewrite Hk, drop_app_length, take_app_length. split_and!; [done|done| |].
    + right. split; [done|]. exists k. split; [done|lia].
    + by rewrite <- app_assoc.
  - specialize (Hrest ltac:(done)). simpl in Hlen.
    assert (rest = []) as -> by (destruct rest; [done|simpl in *; lia]).
    assert (wd = []) as -> by (destruct wd; [done|simpl in *; lia]).
    exists r, [], [x], x. rewrite take_nil, drop_nil, app_nil_r. split_and!; [done|done|by left|done].
Qed.
End Greedy.

Lemma greedy_fmap {A B} (f : A -> B) (ca : A -> list A -> bool) (cb : B -> list B -> bool) lm :
  (forall e r, cb (f e) (f <$> r) = ca e r) -> forall l r wd,
  greedy cb lm (f <$> r) (f <$> wd) (f <$> l) =
  let '(r', wd', rest) := greedy ca lm r wd l in (f <$> r', f <$> wd', f <$> rest).
Proof.
  intros Hc. induction l as [|e l IH]; intros r wd; simpl; [done|].
  rewrite length_fmap. destruct (_ <? _); [|done]. rewrite Hc.
  destruct (ca e r); rewrite <- IH, fmap_app; done.
Qed.

Lemma left_out_fmap {A B} (f : A -> B) (ca : A -> list A -> bool) (cb : B -> list B -> bool) lm l :
  (forall e r, cb (f e) (f <$> r) = ca e r) -> left_out cb lm (f <$> l) = f <$> left_out ca lm l.
Proof.
  intros Hc. unfold left_out. pose proof (greedy_fmap f ca cb lm Hc l [] []) as Hg. simpl in Hg. rewrite Hg.
  destruct (greedy ca lm [] [] l) as [[r wd] rest]. rewrite length_fmap, <- fmap_drop, <- fmap_rev, <- fmap_app.
  by destruct (drop _ wd ++ rev rest).
Qed.

Lemma algorithm4_fmap {A B} (f : A -> B) (ca : A -> list A -> bool) (cb : B -> list B -> bool) lm l :
  (forall e r, cb (f e) (f <$> r) = ca e r) -> algorithm4 cb lm (f <$> l) = f <$> algorithm4 ca lm l.
Proof.
  intros Hc. unfold algorithm4. pose proof (greedy_fmap f ca cb lm Hc l [] []) as Hg. simpl in Hg. rewrite Hg.
  destruct (greedy ca lm [] [] l) as [[r wd] rest]. by rewrite length_fmap, <- fmap_take, <- fmap_app.
Qed.

(** ** The selection loop: the flags it computes *)

Section LoopProof.
Context (base : addr) (elements : gmap addr HnswElementData) (support : HnswSupport).
Context (cands0 : list HnswCandidate) (D : nat -> nat -> float) (dist : nat -> float).

Definition hc_key (hc : HnswCandidate) : addr * float := (hc_element hc, hc_distance hc).

(** The distances between the candidates are defined. *)
Context (D_ok : forall i j a b, cands0 !! i = Some a -> cands0 !! j = Some b ->
  candidate_distance base elements support a b = Ok (D i j)).
Context (dist_ok : forall i a, cands0 !! i = Some a -> hc_distance a = dist i).

(** [e] is nearer to the query than to every candidate of [r]. *)
Definition closerb (e : nat) (r : list nat) : bool := forallb (fun ri => negb (fle (D e ri) (dist e))) r.

Definition flag (cands : list HnswCandidate) (i : nat) : bool :=
  match cands !! i with Some hc => hc_closer hc | None => false end.

Definition same_shape (cands : list HnswCandidate) : Prop := hc_key <$> cands = hc_key <$> cands0.

(** In the order [l], the flags mark the candidates that are nearer to the query
    than to every candidate marked before them. *)
Definition flags_valid (fl : nat -> bool) (l : list nat) : Prop :=
  forall p e t, l = p ++ e :: t -> fl e = closerb e (List.filter fl p).

Definition inside (l : list nat) : Prop := forall i, i ∈ l -> (i < length cands0)%nat.

Lemma closerb_ext e r r' : (forall i, i ∈ r <-> i ∈ r') -> closerb e r = closerb e r'.
Proof using Type.
  intros Hr. unfold closerb. apply eq_true_iff_eq. rewrite !forallb_forall.
  split; intros Hall i Hi; apply Hall; apply list_elem_of_In, Hr, list_elem_of_In; done.
Qed.

Lemma closerb_sub e r r' : (forall i, i ∈ r -> i ∈ r') -> closerb e r' = true -> closerb e r = true.
Proof using Type.
  intros Hr. unfold closerb. rewrite !forallb_forall.
  intros Hall i Hi. apply Hall. apply list_elem_of_In, Hr, list_elem_of_In; done.
Qed.

Lemma closerb_union e r a b : (forall i, i ∈ r -> i ∈ a \/ i ∈ b) ->
  closerb e a = true -> closerb e b = true -> closerb e r = true.
Proof using Type.
  intros Hr. unfold closerb. rewrite !forallb_forall. intros Ha Hb i Hi.
  apply list_elem_of_In, Hr in Hi as [Hi|Hi]; [apply Ha|apply Hb]; by apply list_elem_of_In.
Qed.

Lemma same_shape_lookup cands i : same_shape cands ->
  hc_key <$> cands !! i = hc_key <$> cands0 !! i.
Proof using Type. unfold same_shape. intros Hs. by rewrite <- !list_lookup_fmap, Hs. Qed.

Lemma same_shape_set cands e b : same_shape cands -> same_shape (set_closer e b cands).
Proof using Type.
  unfold same_shape, set_closer. intros <-. apply list_eq. intros i. rewrite !list_lookup_fmap.
  destruct (decide (i = e)) as [->|Hne]; [rewrite list_lookup_alter_eq|by rewrite list_lookup_alter_ne].
  by destruct (cands !! e).
Qed.

Lemma same_shape_some cands i : same_shape cands -> (i < length cands0)%nat ->
  exists a a0, cands !! i = Some a /\ cands0 !! i = Some a0 /\ hc_key a = hc_key a0.
Proof using Type.
  intros Hs Hi. pose proof (same_shape_lookup cands i Hs) as Hl.
  destruct (lookup_lt_is_Some_2 cands0 i Hi) as [a0 Ha0]. rewrite Ha0 in Hl.
  destruct (cands !! i) as [a|]; [|done]. injection Hl as He Hd. exists a, a0.
  split_and!; try done. unfold hc_key. by rewrite He, Hd.
Qed.

Lemma CheckElementCloser_eq cands e r : same_shape cands -> (e < length cands0)%nat -> inside r ->
  CheckElementCloser base elements support cands e r = Ok (closerb e r).
Proof using D_ok dist_ok.
  intros Hs He. induction r as [|ri r IH]; intros Hr; [done|]. simpl.
  destruct (same_shape_some cands e Hs He) as (ec & ec0 & E1 & E2 & E3).
  destruct (same_shape_some cands ri Hs (Hr ri ltac:(left))) as (rc & rc0 & F1 & F2 & F3).
  unfold cand. rewrite E1, F1. simpl. unfold hc_key in E3, F3. injection E3 as E3 E4. injection F3 as F3 F4.
  assert (candidate_distance base elements support ec rc = Ok (D e ri)) as ->.
  { rewrite <- (D_ok _ _ _ _ E2 F2). unfold candidate_distance, candidate_value. by rewrite E3, F3. }
  simpl. rewrite E4, (dist_ok _ _ E2). destruct (fle _ _); simpl; [done|]. apply IH.
  intros i Hi. apply Hr. by right.
Qed.

Lemma flag_set cands e b i : same_shape cands -> (e < length cands0)%nat ->
  flag (set_closer e b cands) i = if decide (i = e) then b else flag cands i.
Proof using Type.
  intros Hs He. unfold flag, set_closer. destruct (decide (i = e)) as [->|Hne].
  - rewrite list_lookup_alter_eq. destruct (same_shape_some cands e Hs He) as (a & _ & -> & _). done.
  - by rewrite list_lookup_alter_ne.
Qed.

Lemma sel_closer_eq st e : same_shape (sel_cands st) -> (e < length cands0)%nat ->
  sel_closer e st = Ok (flag (sel_cands st) e).
Proof using Type.
  intros Hs He. unfold sel_closer, cand, flag.
  destruct (same_shape_some _ e Hs He) as (a & _ & -> & _). done.
Qed.

Lemma filter_ext_in (f g : nat -> bool) l : (forall i, i ∈ l -> f i = g i) -> List.filter f l = List.filter g l.
Proof using Type. intros Hfg. apply List.filter_ext_in. intros i Hi. by apply Hfg, list_elem_of_In. Qed.

Lemma elem_of_filterb {A} (f : A -> bool) l i : i ∈ List.filter f l <-> i ∈ l /\ f i = true.
Proof using Type. rewrite !list_elem_of_In. apply filter_In. Qed.

Lemma flags_valid_ext f g l : (forall i, i ∈ l -> f i = g i) -> flags_valid f l -> flags_valid g l.
Proof using Type.
  intros Hfg Hv p e t ->. rewrite <- (Hfg e) by (apply elem_of_app; right; left).
  rewrite (Hv p e t eq_refl). f_equal. apply filter_ext_in. intros i Hi. apply Hfg, elem_of_app. by left.
Qed.

Lemma flags_valid_snoc f l e : flags_valid f l -> f e = closerb e (List.filter f l) -> flags_valid f (l ++ [e]).
Proof using Type.
  intros Hv He p e' t Heq. destruct t as [|x t _] using rev_ind.
  - apply app_inj_tail in Heq as [-> ->]. done.
  - rewrite app_comm_cons, app_assoc in Heq. apply app_inj_tail in Heq as [-> _]. by eapply Hv.
Qed.

(** *** The invariant of the loop *)

Section Invariant.
Context (new : option nat) (fl0 : nat -> bool).

(** [p] has been processed, [t] is still to be processed. *)
Record select_inv (p t : list nat) (st : SelectState) : Prop := {
  si_shape : same_shape (sel_cands st);
  si_valid : flags_valid (flag (sel_cands st)) p;
  si_r : sel_r st = List.filter (flag (sel_cands st)) p;
  si_wd : sel_wd st = List.filter (fun i => negb (flag (sel_cands st) i)) p;
  si_rest i : i ∈ t -> flag (sel_cands st) i = fl0 i
}.

Definition old (l : list nat) : list nat := List.filter (fun i => bool_decide (Some i ≠ new)) l.

(** What holds of the cached flags: [added] are the new members of [r], and the
    old members are still in it unless one has been removed. *)
Record cache_inv (p t : list nat) (st : SelectState) : Prop := {
  ci_added i : i ∈ sel_added st -> i ∈ sel_r st;
  ci_r i : i ∈ sel_r st -> i ∈ List.filter fl0 (old p) \/ i ∈ sel_added st;
  ci_kept : sel_removedAny st = false -> forall i, i ∈ List.filter fl0 (old p) -> i ∈ sel_r st;
  ci_none : sel_added st = [] -> sel_removedAny st = false;
  ci_new i : new = Some i -> i ∈ t -> sel_added st = []
}.

Definition select_extend (e : nat) (st : SelectState) : SelectState :=
  if flag (sel_cands st) e
  then mkSelectState (sel_cands st) (sel_r st ++ [e]) (sel_wd st) (sel_added st) (sel_removedAny st)
  else mkSelectState (sel_cands st) (sel_r st) (sel_wd st ++ [e]) (sel_added st) (sel_removedAny st).

Lemma select_inv_r_sub p t st i : select_inv p t st -> i ∈ sel_r st -> i ∈ p.
Proof using Type. intros Hi. rewrite (si_r _ _ _ Hi), elem_of_filterb. tauto. Qed.

(** The flag of [e] is decided: [e] joins the processed candidates. *)
Lemma select_extend_inv p e t st st1 : NoDup (p ++ e :: t) -> select_inv p (e :: t) st ->
  same_shape (sel_cands st1) -> sel_r st1 = sel_r st -> sel_wd st1 = sel_wd st ->
  (forall i, flag (sel_cands st1) i = if decide (i = e) then closerb e (sel_r st) else flag (sel_cands st) i) ->
  select_inv (p ++ [e]) t (select_extend e st1).
Proof using Type.
  intros Hnd Hi Hs Hr Hwd Hfl.
  apply list.NoDup_app in Hnd as (_ & Hpe & Het). apply list.NoDup_cons in Het as [Het _].
  assert (forall i, i ∈ p -> flag (sel_cands st1) i = flag (sel_cands st) i) as Hp.
  { intros i Hip. rewrite Hfl. destruct (decide (i = e)) as [->|]; [|done]. exfalso. apply (Hpe _ Hip), elem_of_cons. by left. }
  assert (sel_cands (select_extend e st1) = sel_cands st1) as Hc by (unfold select_extend; by destruct (flag _ e)).
  assert (flag (sel_cands st1) e = closerb e (List.filter (flag (sel_cands st1)) p)) as Hfe.
  { rewrite Hfl, decide_True by done. rewrite (si_r _ _ _ Hi). f_equal. symmetry. by apply filter_ext_in. }
  split; rewrite ?Hc.
  - done.
  - apply flags_valid_snoc; [|done]. eapply flags_valid_ext; [|apply (si_valid _ _ _ Hi)]. intros i Hip. by rewrite Hp.
  - rewrite List.filter_app. simpl. rewrite (filter_ext_in _ _ p Hp), <- (si_r _ _ _ Hi), <- Hr.
    unfold select_extend. destruct (flag _ e); simpl; by rewrite ?app_nil_r.
  - rewrite List.filter_app. simpl.
    rewrite (filter_ext_in _ (fun i => negb (flag (sel_cands st) i)) p) by (intros i Hip; by rewrite Hp).
    rewrite <- (si_wd _ _ _ Hi), <- Hwd. unfold select_extend. destruct (flag _ e); simpl; by rewrite ?app_nil_r.
  - intros i Hit. rewrite Hfl, decide_False by (intros ->; done). apply (si_rest _ _ _ Hi). by right.
Qed.

(** Decided by calculation. *)
Lemma flag_calculated st e i : same_shape (sel_cands st) -> (e < length cands0)%nat ->
  flag (set_closer e (closerb e (sel_r st)) (sel_cands st)) i =
  (if decide (i = e) then closerb e (sel_r st) else flag (sel_cands st) i).
Proof using Type. apply flag_set. Qed.

Lemma select_closer_must p e t st :
  select_inv p (e :: t) st -> inside (p ++ e :: t) ->
  exists st1, select_closer base elements support true new e st = Ok st1 /\
    same_shape (sel_cands st1) /\ sel_r st1 = sel_r st /\ sel_wd st1 = sel_wd st /\
    (forall i, flag (sel_cands st1) i = if decide (i = e) then closerb e (sel_r st) else flag (sel_cands st) i).
Proof using D_ok dist_ok.
  intros Hi Hin. pose proof (si_shape _ _ _ Hi) as Hs.
  assert (e < length cands0)%nat as He by (apply Hin, elem_of_app; right; left).
  exists (sel_set_closer e (closerb e (sel_r st)) st). unfold select_closer.
  rewrite CheckElementCloser_eq; [|done|done|].
  - split_and!; [done|by apply same_shape_set|done|done|]. intros i. by apply flag_calculated.
  - intros i Hir. apply Hin, elem_of_app. left. by eapply select_inv_r_sub.
Qed.

(** Decided with the help of the cached flags. *)
Lemma old_snoc p e : old (p ++ [e]) = old p ++ (if bool_decide (Some e = new) then [] else [e]).
Proof using Type.
  unfold old. rewrite List.filter_app. simpl. f_equal. case_bool_decide as E1; case_bool_decide as E2; naive_solver.
Qed.

Lemma cached_flag p e t : flags_valid fl0 (old (p ++ e :: t)) -> Some e ≠ new ->
  fl0 e = closerb e (List.filter fl0 (old p)).
Proof using Type.
  intros Hv Hne. apply (Hv _ _ (old t)). unfold old. rewrite List.filter_app. simpl. by rewrite bool_decide_true.
Qed.

(** [cache_inv] when [e] joins, by the way its flag was decided. *)
Lemma cache_step p e t st added' removed' st1 :
  select_inv p (e :: t) st -> cache_inv p (e :: t) st -> NoDup (p ++ e :: t) ->
  sel_r st1 = sel_r st -> sel_added st1 = added' -> sel_removedAny st1 = removed' ->
  let b := flag (sel_cands st1) e in
  let was := bool_decide (Some e ≠ new) && fl0 e in
  added' = (if b && negb was then sel_added st ++ [e] else sel_added st) ->
  removed' = (if was && negb b then true else sel_removedAny st) ->
  (Some e ≠ new -> sel_added st = [] -> b = fl0 e) ->
  cache_inv (p ++ [e]) t (select_extend e st1).
Proof using Type.
  intros Hi Hc Hnd Hr Ha Hrm b was -> -> Hne.
  assert (List.filter fl0 (old (p ++ [e])) = List.filter fl0 (old p) ++ (if was then [e] else [])) as Hold.
  { rewrite old_snoc, List.filter_app. f_equal. unfold was.
    case_bool_decide as E1; case_bool_decide as E2; simpl; try congruence; by destruct (fl0 e). }
  assert (sel_r (select_extend e st1) = sel_r st ++ (if b then [e] else [])) as Hr'.
  { unfold select_extend. fold b. rewrite <- Hr. destruct b; simpl; by rewrite ?app_nil_r. }
  assert (sel_added (select_extend e st1) = sel_added st1) as Ha' by (unfold select_extend; by destruct (flag _ e)).
  assert (sel_removedAny (select_extend e st1) = sel_removedAny st1) as Hm' by (unfold select_extend; by destruct (flag _ e)).
  destruct Hc as [C1 C2 C3 C4 C5]. split; rewrite ?Hold, ?Hr', ?Ha', ?Hm', ?Ha, ?Hrm.
  - intros i. rewrite elem_of_app. destruct b, was; simpl; rewrite ?elem_of_app; naive_solver.
  - intros i. rewrite !elem_of_app. intros [Hir|Hir].
    + apply C2 in Hir. destruct b, was; simpl; rewrite ?elem_of_app; naive_solver.
    + destruct b; [|by apply elem_of_nil in Hir]. destruct was; simpl; rewrite ?elem_of_app; naive_solver.
  - intros Hrem i. rewrite !elem_of_app. destruct b, was; simpl in *; try discriminate; intros [Hir|Hir]; eauto;
      by apply elem_of_nil in Hir.
  - intros Hnil. assert (sel_added st = []) as Hnil' by (destruct b, was, (sel_added st); done).
    rewrite (C4 Hnil'). destruct (was && negb b) eqn:Eb; [|done]. unfold was in Eb.
    destruct (bool_decide_reflect (Some e ≠ new)) as [Hen|]; [|done]. simpl in Eb. rewrite (Hne Hen Hnil') in Eb.
    by destruct (fl0 e).
  - intros i Hni Hit. pose proof (C5 i Hni ltac:(by right)) as Hnil.
    assert (Some e ≠ new) as Hen.
    { apply list.NoDup_app in Hnd as (_ & _ & Hnd). apply list.NoDup_cons in Hnd as [? _]. congruence. }
    unfold was. rewrite bool_decide_true by done. rewrite (Hne Hen Hnil). by destruct (fl0 e).
Qed.

Lemma flag_kept p e t st b : select_inv p (e :: t) st -> fl0 e = b -> b = closerb e (sel_r st) ->
  forall i, flag (sel_cands st) i = if decide (i = e) then closerb e (sel_r st) else flag (sel_cands st) i.
Proof using Type.
  intros Hi <- Hb i. destruct (decide (i = e)) as [->|]; [|done]. rewrite <- Hb.
  apply (si_rest _ _ _ Hi). left.
Qed.

Lemma select_closer_cached p e t st :
  select_inv p (e :: t) st -> cache_inv p (e :: t) st -> flags_valid fl0 (old (p ++ e :: t)) ->
  inside (p ++ e :: t) -> NoDup (p ++ e :: t) ->
  exists st1, select_closer base elements support false new e st = Ok st1 /\
    same_shape (sel_cands st1) /\ sel_r st1 = sel_r st /\ sel_wd st1 = sel_wd st /\
    (forall i, flag (sel_cands st1) i = if decide (i = e) then closerb e (sel_r st) else flag (sel_cands st) i) /\
    cache_inv (p ++ [e]) t (select_extend e st1).
Proof using D_ok dist_ok.
  intros Hi Hc Hv Hin Hnd. pose proof (si_shape _ _ _ Hi) as Hs.
  assert (e < length cands0)%nat as He by (apply Hin, elem_of_app; right; left).
  assert (inside (sel_r st)) as Hinr.
  { intros i Hir. apply Hin, elem_of_app. left. by eapply select_inv_r_sub. }
  assert (inside (sel_added st)) as Hina by (intros i Hia; by apply Hinr, (ci_added _ _ _ Hc)).
  assert (flag (sel_cands st) e = fl0 e) as Hfe by (apply (si_rest _ _ _ Hi); left).
  unfold select_closer. destruct (Nat.ltb_spec 0 (length (sel_added st))) as [Hpos|Hnil].
  - (* some candidate has been added: [e] is not the new one *)
    assert (sel_added st ≠ []) as Hne by (intros E; rewrite E in Hpos; simpl in Hpos; lia).
    assert (Some e ≠ new) as Hen by (intros E; apply Hne, (ci_new _ _ _ Hc e); [done|left]).
    pose proof (cached_flag p e t Hv Hen) as Hcf.
    rewrite sel_closer_eq by done. rewrite Hfe. simpl. destruct (fl0 e) eqn:Ef.
    + rewrite CheckElementCloser_eq by done. simpl.
      assert (closerb e (sel_added st) = closerb e (sel_r st)) as Heq.
      { apply eq_true_iff_eq. split; [|apply closerb_sub, (ci_added _ _ _ Hc)]. intros Hb.
        eapply closerb_union; [apply (ci_r _ _ _ Hc)|by rewrite <- Hcf|done]. }
      rewrite Heq. eexists. split; [done|].
      assert (forall i, flag (set_closer e (closerb e (sel_r st)) (sel_cands st)) i =
        if decide (i = e) then closerb e (sel_r st) else flag (sel_cands st) i) as Hfl by (intros i; by apply flag_set).
      destruct (closerb e (sel_r st)) eqn:Eb; (split_and!; [by apply same_shape_set|done|done|exact Hfl|]);
        (eapply cache_step; [exact Hi|exact Hc|exact Hnd|done|done|done|simpl|simpl|simpl]);
        rewrite ?Hfl, ?decide_True, ?Ef, ?bool_decide_true by done; simpl; done.
    + destruct (sel_removedAny st) eqn:Erem.
      * rewrite CheckElementCloser_eq by done. simpl. eexists. split; [done|].
        assert (forall i, flag (set_closer e (closerb e (sel_r st)) (sel_cands st)) i =
          if decide (i = e) then closerb e (sel_r st) else flag (sel_cands st) i) as Hfl by (intros i; by apply flag_set).
        destruct (closerb e (sel_r st)) eqn:Eb; (split_and!; [by apply same_shape_set|done|done|exact Hfl|]);
          (eapply cache_step; [exact Hi|exact Hc|exact Hnd|done|done|done|simpl|simpl|simpl]);
          rewrite ?Hfl, ?decide_True, ?Ef, ?andb_false_r by done; simpl; done.
      * eexists. split; [done|]. split_and!; [done|done|done| |].
        { eapply flag_kept; [exact Hi|exact Ef|]. symmetry. destruct (closerb e (sel_r st)) eqn:Eb; [|done].
          rewrite Hcf. symmetry. eapply closerb_sub; [|exact Eb]. by apply (ci_kept _ _ _ Hc). }
        eapply cache_step; [exact Hi|exact Hc|exact Hnd|done|done|done|..]; rewrite ?Hfe, ?Ef, ?andb_false_r; done.
  - assert (sel_added st = []) as Ha by (destruct (sel_added st); [done|simpl in Hnil; lia]).
    pose proof (ci_none _ _ _ Hc Ha) as Hrem.
    case_bool_decide as Hen.
    + (* the new candidate *)
      rewrite CheckElementCloser_eq by done. simpl. eexists. split; [done|].
      assert (forall i, flag (set_closer e (closerb e (sel_r st)) (sel_cands st)) i =
        if decide (i = e) then closerb e (sel_r st) else flag (sel_cands st) i) as Hfl by (intros i; by apply flag_set).
      destruct (closerb e (sel_r st)) eqn:Eb; (split_and!; [by apply same_shape_set|done|done|exact Hfl|]);
        (eapply cache_step; [exact Hi|exact Hc|exact Hnd|done|done|done|simpl|simpl|done]);
        rewrite ?Hfl, ?decide_True, ?bool_decide_false by (done || naive_solver); simpl; done.
    + (* nothing has changed so far *)
      eexists. split; [done|]. split_and!; [done|done|done| |].
      * eapply flag_kept; [exact Hi|reflexivity|]. rewrite (cached_flag p e t Hv Hen). apply closerb_ext.
        intros i. split; [by apply (ci_kept _ _ _ Hc)|]. intros Hir.
        apply (ci_r _ _ _ Hc) in Hir as [Hir|Hir]; [done|]. rewrite Ha in Hir. by apply elem_of_nil in Hir.
      * eapply cache_step; [exact Hi|exact Hc|exact Hnd|done|done|done|..];
          rewrite ?Hfe, ?bool_decide_true by done; simpl; by destruct (fl0 e).
Qed.

(** The whole loop is algorithm 4, with or without the cached flags. *)
Lemma select_loop_greedy lm must : forall t p st,
  select_inv p t st ->
  (must = false -> cache_inv p t st /\ flags_valid fl0 (old (p ++ t))) ->
  inside (p ++ t) -> NoDup (p ++ t) ->
  exists st' q rest, select_loop base elements support lm must new t st = Ok (rest, st') /\
    t = q ++ rest /\ select_inv (p ++ q) rest st' /\
    greedy closerb lm (sel_r st) (sel_wd st) t = (sel_r st', sel_wd st', rest).
Proof using D_ok dist_ok.
  induction t as [|e t IH]; intros p st Hi Hc Hin Hnd; simpl.
  { exists st, [], []. rewrite (app_nil_r p). by split_and!. }
  destruct (Z.ltb_spec (Z.of_nat (length (sel_r st))) lm) as [Hlt|Hge].
  2: { exists st, [], (e :: t). rewrite (app_nil_r p). by split_and!. }
  assert (e < length cands0)%nat as He by (apply Hin, elem_of_app; right; left).
  assert (exists st1, select_closer base elements support must new e st = Ok st1 /\
    same_shape (sel_cands st1) /\ sel_r st1 = sel_r st /\ sel_wd st1 = sel_wd st /\
    (forall i, flag (sel_cands st1) i = if decide (i = e) then closerb e (sel_r st) else flag (sel_cands st) i) /\
    (must = false -> cache_inv (p ++ [e]) t (select_extend e st1))) as (st1 & E1 & Hs1 & Hr1 & Hw1 & Hf1 & Hc1).
  { destruct must.
    - destruct (select_closer_must p e t st Hi Hin) as (st1 & ? & ? & ? & ? & ?). exists st1. by split_and!.
    - destruct (Hc eq_refl) as [Hc1 Hv].
      destruct (select_closer_cached p e t st Hi Hc1 Hv Hin Hnd) as (st1 & ? & ? & ? & ? & ? & ?). exists st1. by split_and!. }
  pose proof (select_extend_inv p e t st st1 Hnd Hi Hs1 Hr1 Hw1 Hf1) as Hi2.
  rewrite (cons_middle e p t), app_assoc in Hin, Hnd.
  destruct (IH (p ++ [e]) (select_extend e st1) Hi2) as (st' & q & rest & E2 & Ht & Hi3 & Hg).
  { intros Hm. split; [by apply Hc1|]. rewrite <- app_assoc. apply (proj2 (Hc Hm)). }
  { done. }
  { done. }
  exists st', (e :: q), rest. unfold select_step. rewrite E1. simpl. rewrite sel_closer_eq by done. simpl.
  assert ((if flag (sel_cands st1) e
    then mkSelectState (sel_cands st1) (sel_r st1 ++ [e]) (sel_wd st1) (sel_added st1) (sel_removedAny st1)
    else mkSelectState (sel_cands st1) (sel_r st1) (sel_wd st1 ++ [e]) (sel_added st1) (sel_removedAny st1))
    = select_extend e st1) as -> by done.
  split_and!; [exact E2|by rewrite Ht|by rewrite <- app_assoc in Hi3|].
  rewrite <- Hg. unfold select_extend. rewrite Hf1, decide_True by done.
  destruct (closerb e (sel_r st)); simpl; by rewrite Hr1, Hw1.
Qed.
End Invariant.

End LoopProof.
