(* ===== verification/UpdateConnection.v ===== *)
(** * Updates of the neighbors of an element

    [HnswUpdateConnection] of src/pgvec/src/backend/access/hnsw/hnswutils.c keeps
    the neighbor array of an element within its size, and keeps the cache of
    [closer] flags usable: the flags are those algorithm 4 computes on the
    members, from the nearest. *)

From Stdlib Require Import SpecFloat.
From S2P Require Import Prelude CFloat VectorType ItemPtr GraphSearch HnswData BufPage Backend HnswUtils SearchLayer LayerRefinement QSort SelectNeighbors.

(** ** The order of the candidates *)

Section Order.
Context (base : addr).

(** What the tie-breaker compares. *)
Definition ptr_key (hp : HnswElementPtr) : Z :=
  if (base =? NULL)%N then Z.of_N (HnswPtrPointer hp) else HnswPtrOffset hp.

Definition candidate_cmp : HnswCandidate -> HnswCandidate -> Z :=
  if (base =? NULL)%N then CompareCandidateDistances else CompareCandidateDistancesOffset.

(** [a] comes before [b] from the nearest to the furthest. *)
Definition nearer (a b : HnswCandidate) : Prop := candidate_cmp b a <= 0.

Lemma nearer_spec a b : nearer a b <->
  dle (hc_distance a) (hc_distance b) /\
  (flt (hc_distance a) (hc_distance b) = true \/ ptr_key (hc_element a) <= ptr_key (hc_element b)).
Proof.
  unfold nearer, candidate_cmp, ptr_key, CompareCandidateDistances, CompareCandidateDistancesOffset, dle, fgt.
  destruct (base =? NULL)%N; destruct (flt (hc_distance b) (hc_distance a)); try (split; [lia|naive_solver]);
    destruct (flt (hc_distance a) (hc_distance b)); try (split; [by auto|lia]).
  - destruct (N.ltb_spec (HnswPtrPointer (hc_element b)) (HnswPtrPointer (hc_element a)));
      destruct (N.ltb_spec (HnswPtrPointer (hc_element a)) (HnswPtrPointer (hc_element b)));
      split; try lia; intros [_ [|]]; try done; lia.
  - case_cmp; split; try lia; intros [_ [|]]; try done; lia.
Qed.

Lemma candidate_cmp_flip (a b : HnswCandidate) : 0 <= candidate_cmp a b -> candidate_cmp b a <= 0.
Proof.
  unfold candidate_cmp. destruct (flt (hc_distance a) (hc_distance b)) eqn:E; [pose proof (flt_asym _ _ E) as E'|];
    destruct (base =? NULL)%N; unfold CompareCandidateDistances, CompareCandidateDistancesOffset, fgt; rewrite E; try rewrite E'; try lia.
  all: destruct (flt (hc_distance b) (hc_distance a)); [lia|].
  - destruct (N.ltb_spec (HnswPtrPointer (hc_element a)) (HnswPtrPointer (hc_element b)));
      destruct (N.ltb_spec (HnswPtrPointer (hc_element b)) (HnswPtrPointer (hc_element a))); lia.
  - case_cmp; lia.
Qed.

Lemma nearer_trans a b c :
  numeric hc_distance a -> numeric hc_distance b -> numeric hc_distance c -> nearer a b -> nearer b c -> nearer a c.
Proof.
  unfold numeric. rewrite !nearer_spec. intros Ha Hb Hc [D1 K1] [D2 K2]. split; [exact (dle_trans _ _ _ Hb D1 D2)|].
  destruct (flt (hc_distance a) (hc_distance c)) eqn:E; [by left|right].
  assert (dle (hc_distance c) (hc_distance a)) as D3 by done.
  destruct K1 as [K1|K1].
  { pose proof (dle_trans _ _ _ Hc D2 D3) as D. unfold dle in D. congruence. }
  destruct K2 as [K2|K2]; [|lia].
  pose proof (dle_trans _ _ _ Ha D3 D1) as D. unfold dle in D. congruence.
Qed.

Lemma ptr_key_inj p q : ptr_fits base p -> ptr_fits base q -> ptr_key p = ptr_key q -> p = q.
Proof.
  intros Hp Hq Hk. apply (HnswPtrEqual_spec base p q Hp Hq). unfold HnswPtrEqual, ptr_key, HnswPtrOffset in *.
  destruct (base =? NULL)%N; [apply N.eqb_eq; unfold HnswPtrPointer in Hk; lia|by apply Z.eqb_eq].
Qed.

(** The candidates of a list: distinct pointers, distances that are numbers. *)
Record candidates_ok (l : list HnswCandidate) : Prop := {
  co_numeric a : a ∈ l -> numeric hc_distance a;
  co_ptr a : a ∈ l -> ptr_fits base (hc_element a);
  co_distinct : NoDup (hc_element <$> l)
}.

Lemma candidates_ok_perm l k : l ≡ₚ k -> candidates_ok l -> candidates_ok k.
Proof.
  intros Hp [H1 H2 H3]. split; [intros a Ha; apply H1; by rewrite Hp|intros a Ha; apply H2; by rewrite Hp|].
  by rewrite <- Hp.
Qed.

Lemma candidates_ok_keys l k : hc_key <$> l = hc_key <$> k -> candidates_ok l -> candidates_ok k.
Proof.
  intros Hk [H1 H2 H3].
  assert (forall a, a ∈ k -> exists b, b ∈ l /\ hc_key a = hc_key b) as Hex.
  { intros a Ha. apply (list_elem_of_fmap_2 hc_key) in Ha. rewrite <- Hk in Ha.
    apply list_elem_of_fmap in Ha as (b & ? & ?). by exists b. }
  split.
  - intros a (b & Hb & E)%Hex. injection E as _ E. unfold numeric. rewrite E. by apply H1.
  - intros a (b & Hb & E)%Hex. injection E as E _. rewrite E. by apply H2.
  - assert (forall m, hc_element <$> m = fst <$> (hc_key <$> m)) as Hm by (intros m; by rewrite <- list_fmap_compose).
    rewrite Hm, <- Hk, <- Hm. done.
Qed.

Lemma nearer_antisym l a b : candidates_ok l -> a ∈ l -> b ∈ l -> nearer a b -> nearer b a -> a = b.
Proof.
  intros [H1 H2 H3] Ha Hb. rewrite !nearer_spec. unfold dle. intros [D1 K1] [D2 K2].
  assert (hc_element a = hc_element b) as He.
  { apply ptr_key_inj; [by apply H2|by apply H2|]. destruct K1; [congruence|]. destruct K2; [congruence|]. lia. }
  apply list_elem_of_lookup in Ha as [i Hi], Hb as [j Hj].
  assert (i = j) as ->; [|congruence].
  eapply NoDup_lookup; [exact H3|..]; rewrite list_lookup_fmap; [by rewrite Hi|by rewrite Hj; simpl; rewrite He].
Qed.

(** A list has one order from the nearest. *)
Lemma nearest_first_unique l k : candidates_ok l -> l ≡ₚ k ->
  StronglySorted nearer l -> StronglySorted nearer k -> l = k.
Proof.
  intros Hc Hp Hl Hk. eapply (StronglySorted_unique_strong nearer); try done.
  intros a b Ha Hb. apply (nearer_antisym l); [done|done|by rewrite Hp].
Qed.
End Order.

(** ** Candidates and their indices *)

Section Index.
Context (base : addr) (elements : gmap addr HnswElementData) (support : HnswSupport).
(** The distances between elements, as stored in a [float]. *)
Context (Dp : addr -> addr -> float).

(** [e] is nearer to the query than to every candidate of [r]. *)
Definition closer_to (e : HnswCandidate) (r : list HnswCandidate) : bool :=
  forallb (fun ri => negb (fle (Dp (hc_element e) (hc_element ri)) (hc_distance e))) r.

(** From the nearest, the flags mark the candidates that are nearer to the
    query than to every candidate marked before. *)
Definition flags_ok (L : list HnswCandidate) : Prop :=
  forall p e t, L = p ++ e :: t -> hc_closer e = closer_to e (List.filter hc_closer p).

Definition distances_defined (l : list HnswCandidate) : Prop :=
  forall a b, a ∈ l -> b ∈ l ->
    candidate_distance base elements support a b = Ok (Dp (hc_element a) (hc_element b)).

Context (cands0 : list HnswCandidate).

Definition nth_cand (cands : list HnswCandidate) (i : nat) : HnswCandidate :=
  default (mkHnswCandidate NULL dzero false) (cands !! i).
Definition nth_D (i j : nat) : float := Dp (hc_element (nth_cand cands0 i)) (hc_element (nth_cand cands0 j)).
Definition nth_dist (i : nat) : float := hc_distance (nth_cand cands0 i).

Lemma nth_cand_lookup cands i a : cands !! i = Some a -> nth_cand cands i = a.
Proof using Type. unfold nth_cand. by intros ->. Qed.

Lemma nth_cand_app_l l k : nth_cand (l ++ k) <$> seq 0 (length l) = l.
Proof using Type.
  apply list_eq. intros i. rewrite list_lookup_fmap.
  destruct (decide (i < length l)%nat) as [Hi|Hi].
  - rewrite lookup_seq_lt by done. simpl. destruct (lookup_lt_is_Some_2 l i Hi) as [a Ha]. rewrite Ha. f_equal.
    apply nth_cand_lookup. by rewrite lookup_app_l.
  - rewrite lookup_seq_ge, (lookup_ge_None_2 l) by lia. done.
Qed.

Lemma nth_cand_all l : nth_cand l <$> seq 0 (length l) = l.
Proof using Type. rewrite <- (app_nil_r l) at 1. apply nth_cand_app_l. Qed.

Lemma nth_cand_key cands i : same_shape cands0 cands -> hc_key (nth_cand cands i) = hc_key (nth_cand cands0 i).
Proof using Type.
  intros Hs. pose proof (same_shape_lookup _ _ i Hs) as Hl. unfold nth_cand.
  destruct (cands !! i), (cands0 !! i); simpl in *; congruence.
Qed.

Lemma flag_nth cands i : flag cands i = hc_closer (nth_cand cands i).
Proof using Type. unfold flag, nth_cand. by destruct (cands !! i). Qed.

Lemma closerb_nth cands e r : same_shape cands0 cands ->
  closer_to (nth_cand cands e) (nth_cand cands <$> r) = closerb nth_D nth_dist e r.
Proof using Type.
  intros Hs. unfold closer_to, closerb, nth_D, nth_dist.
  pose proof (nth_cand_key cands e Hs) as He. injection He as -> ->.
  induction r as [|i r IH]; [done|]. rewrite fmap_cons. cbn [forallb]. rewrite IH.
  pose proof (nth_cand_key cands i Hs) as Hi. by injection Hi as -> _.
Qed.

Lemma filter_nth cands l :
  List.filter hc_closer (nth_cand cands <$> l) = nth_cand cands <$> List.filter (flag cands) l.
Proof using Type.
  induction l as [|i l IH]; [done|]. rewrite fmap_cons. cbn [List.filter]. rewrite flag_nth, IH. by destruct (hc_closer _).
Qed.

(** The flags of the indices are those of the candidates. *)
Lemma flags_nth cands l : same_shape cands0 cands ->
  flags_valid nth_D nth_dist (flag cands) l <-> flags_ok (nth_cand cands <$> l).
Proof using Type.
  intros Hs. split.
  - intros Hv p e t Heq. apply fmap_app_inv in Heq as (p' & et & -> & Het & ->).
    symmetry in Het. apply fmap_cons_inv in Het as (e' & t' & -> & -> & ->).
    rewrite <- flag_nth, (Hv p' e' t' eq_refl), filter_nth. by rewrite closerb_nth.
  - intros Hv p e t ->. rewrite fmap_app in Hv. specialize (Hv _ _ _ eq_refl).
    rewrite <- flag_nth in Hv. rewrite Hv, filter_nth. by rewrite closerb_nth.
Qed.

(** A candidate without a flag does not matter to the others. *)
Lemma flags_valid_remove (fl : nat -> bool) a p b : fl p = false ->
  flags_valid nth_D nth_dist fl (a ++ p :: b) -> flags_valid nth_D nth_dist fl (a ++ b).
Proof using Type.
  intros Hp Hv q e t Heq. apply app_eq_app in Heq as [k [[-> Hk]|[-> ->]]].
  - destruct k as [|x k]; simpl in Hk.
    + subst b. rewrite app_nil_r in Hv. rewrite (Hv (q ++ [p]) e t) by by rewrite <- app_assoc.
      rewrite List.filter_app. simpl. by rewrite Hp, app_nil_r.
    + injection Hk as -> ->. apply (Hv q x (k ++ p :: b)). by rewrite <- app_assoc.
  - rewrite (Hv (a ++ p :: k) e t) by by rewrite <- app_assoc. rewrite !List.filter_app. simpl. by rewrite Hp.
Qed.

Lemma nth_D_ok : distances_defined cands0 -> forall i j a b, cands0 !! i = Some a -> cands0 !! j = Some b ->
  candidate_distance base elements support a b = Ok (nth_D i j).
Proof using Type.
  intros Hd i j a b Ha Hb. unfold nth_D. rewrite (nth_cand_lookup _ _ _ Ha), (nth_cand_lookup _ _ _ Hb).
  apply Hd; by eapply list_elem_of_lookup_2.
Qed.

Lemma nth_dist_ok i a : cands0 !! i = Some a -> hc_distance a = nth_dist i.
Proof using Type. intros Ha. unfold nth_dist. by rewrite (nth_cand_lookup _ _ _ Ha). Qed.
End Index.

(** ** One candidate too many *)

Section Full.
Context `{ListSort} (base : addr) (elements : gmap addr HnswElementData) (support : HnswSupport)
  (Dp : addr -> addr -> float).

Lemma mapM_cand cands c : (forall i, i ∈ c -> (i < length cands)%nat) ->
  mapM (fun i => hc ← cand cands i ; Ok (i, hc)) c = Ok ((fun i => (i, nth_cand cands i)) <$> c).
Proof using Type.
  induction c as [|i c IH]; intros Hin; [done|]. simpl.
  destruct (lookup_lt_is_Some_2 cands i (Hin i ltac:(left))) as [a Ha].
  assert (cand cands i = Ok (nth_cand cands i)) as -> by (unfold cand, nth_cand; by rewrite Ha). simpl.
  rewrite IH by (intros j Hj; apply Hin; by right). done.
Qed.

(** The order [SelectNeighbors] works in. *)
Lemma sorted_indices cands : candidates_ok base cands ->
  let hcs := (fun i => (i, nth_cand cands i)) <$> seq 0 (length cands) in
  let w := (list_sort (fun a b => candidate_cmp base a.2 b.2) hcs).*1 in
  rev w ≡ₚ seq 0 (length cands) /\ StronglySorted (nearer base) (nth_cand cands <$> rev w).
Proof using Type.
  intros Hc hcs w.
  assert (hcs.*2 = cands) as Hsnd by (unfold hcs; rewrite <- list_fmap_compose; apply nth_cand_all).
  assert (forall a, a ∈ hcs -> a.2 ∈ cands) as Hmem.
  { intros a Ha. rewrite <- Hsnd. by apply list_elem_of_fmap_2. }
  assert (sort_order (fun a b : nat * HnswCandidate => candidate_cmp base a.2 b.2) hcs) as Hso.
  { split.
    - intros a b _ _. apply candidate_cmp_flip.
    - intros a b c Ha Hb Hcc Hab Hbc. apply (nearer_trans base c.2 b.2 a.2); try done; by apply (co_numeric _ _ Hc), Hmem. }
  pose proof (list_sort_perm (fun a b : nat * HnswCandidate => candidate_cmp base a.2 b.2) hcs) as Hp. pose proof (list_sort_sorted _ _ Hso) as Hs.
  fold hcs in Hp, Hs. set (S := list_sort _ _) in *. split.
  - rewrite <- Permutation_rev. unfold w. rewrite Hp. unfold hcs. rewrite <- list_fmap_compose. simpl. by rewrite list_fmap_id.
  - assert (nth_cand cands <$> w = S.*2) as Hw.
    { unfold w. rewrite <- list_fmap_compose. apply list_fmap_ext. intros k a Hk. simpl.
      apply list_elem_of_lookup_2 in Hk. rewrite Hp in Hk. by apply list_elem_of_fmap in Hk as (i & -> & _). }
    rewrite fmap_rev, Hw, <- fmap_rev.
    apply StronglySorted_rev in Hs. clear -Hs. induction Hs as [|a l Hs IH Hf]; simpl; constructor; [done|].
    apply list.Forall_fmap. eapply List.Forall_impl; [|exact Hf]. done.
Qed.

(** The members of the sorted order that are not the new candidate. *)
Lemma old_members items new l : candidates_ok base (items ++ [new]) ->
  l ≡ₚ seq 0 (S (length items)) -> StronglySorted (nearer base) (nth_cand (items ++ [new]) <$> l) ->
  let l' := old (Some (length items)) l in
  nth_cand (items ++ [new]) <$> l' ≡ₚ items /\ StronglySorted (nearer base) (nth_cand (items ++ [new]) <$> l').
Proof using Type.
  intros Hc Hp Hs l'. split.
  - assert (l' ≡ₚ seq 0 (length items)) as ->; [|by rewrite nth_cand_app_l].
    unfold l', old. rewrite Hp, seq_S, List.filter_app. simpl.
    rewrite bool_decide_false, app_nil_r by (intros Hn; by apply Hn).
    rewrite filterb_id; [done|]. intros i Hi. apply elem_of_seq in Hi.
    apply bool_decide_eq_true. intros [= ->]. lia.
  - clear -Hs. subst l'. unfold old. induction l as [|i l IH]; [done|].
    rewrite fmap_cons in Hs. apply StronglySorted_inv in Hs as [Hs Hf]. cbn [List.filter].
    destruct (bool_decide _); [|by apply IH]. rewrite fmap_cons. constructor; [by apply IH|].
    apply list.Forall_forall. intros x Hx. apply (proj1 (list.Forall_forall _ _) Hf).
    apply list_elem_of_fmap in Hx as (k & -> & Hk). apply list_elem_of_fmap_2. apply elem_of_filterb in Hk. tauto.
Qed.

Context (items : list HnswCandidate) (new : HnswCandidate).
Let cs := items ++ [new].
Let n := length items.
Context (Hcs : candidates_ok base cs) (Hdef : distances_defined base elements support Dp cs).

(** The flags of the members are cached. *)
Definition cached (l : list HnswCandidate) : Prop :=
  exists L, L ≡ₚ l /\ StronglySorted (nearer base) L /\ flags_ok Dp L.

Lemma length_cs : length cs = S n.
Proof using Type. unfold cs, n. rewrite length_app. simpl. lia. Qed.

Lemma inside_order l : l ≡ₚ seq 0 (S n) -> inside cs l /\ NoDup l.
Proof using Type.
  intros Hp. split; [|rewrite Hp; apply NoDup_seq]. intros i Hi. rewrite Hp in Hi. apply elem_of_seq in Hi.
  rewrite length_cs. lia.
Qed.

Lemma candidates_ok_items : candidates_ok base items.
Proof using Hcs.
  destruct Hcs as [H1 H2 H3]. split.
  - intros a Ha. apply H1. unfold cs. apply elem_of_app. by left.
  - intros a Ha. apply H2. unfold cs. apply elem_of_app. by left.
  - unfold cs in H3. rewrite fmap_app in H3. by apply list.NoDup_app in H3 as [? _].
Qed.

(** The cached flags are valid on the old members. *)
Lemma cached_valid l : l ≡ₚ seq 0 (S n) -> StronglySorted (nearer base) (nth_cand cs <$> l) -> cached items ->
  flags_valid (nth_D Dp cs) (nth_dist cs) (flag cs) (old (Some n) l).
Proof using Hcs.
  intros Hp Hs (L & HL & HLs & HLf). apply (flags_nth Dp cs cs); [done|].
  destruct (old_members items new l Hcs Hp Hs) as [Hp' Hs'].
  assert (nth_cand cs <$> old (Some n) l = L) as ->; [|done].
  apply (nearest_first_unique base); [|by rewrite HL|done|done].
  eapply candidates_ok_perm; [symmetry; exact Hp'|apply candidates_ok_items].
Qed.

(** One member replaced by the new one, or none. *)
Lemma replace_Permutation p l1 l2 : l1 ++ p :: l2 ≡ₚ seq 0 (S n) ->
  (p = n /\ l1 ++ l2 ≡ₚ seq 0 n) \/ ((p < n)%nat /\ l1 ++ l2 ≡ₚ <[p := n]> (seq 0 n)).
Proof using Type.
  intros Hp. rewrite <- Permutation_middle, seq_S in Hp. simpl in Hp.
  rewrite <- Permutation_cons_append in Hp.
  assert (p ∈ n :: seq 0 n) as Hin by (rewrite <- Hp; left).
  apply elem_of_cons in Hin as [->|Hin]; [left; split; [done|by apply (Permutation_cons_inv Hp)]|right].
  apply elem_of_seq in Hin. split; [lia|]. apply (Permutation_cons_inv (a := p)). rewrite Hp.
  rewrite (insert_swap_Permutation _ p p n); [done|]. rewrite lookup_seq_lt; [done|lia].
Qed.

(** What the remaining members satisfy. *)
Lemma remaining_ok cands' l1 p l2 k : same_shape cs cands' ->
  l1 ++ p :: l2 ≡ₚ seq 0 (S n) -> StronglySorted (nearer base) (nth_cand cs <$> l1 ++ p :: l2) ->
  flags_valid (nth_D Dp cs) (nth_dist cs) (flag cands') (l1 ++ l2) -> k ≡ₚ nth_cand cands' <$> (l1 ++ l2) ->
  candidates_ok base k /\ cached k.
Proof using Hcs.
  intros Hs Hp Hsort Hf Hk. split.
  - apply (candidates_ok_keys base cs cands') in Hcs as Hc; [|done].
    assert (length cands' = S n) as Hlen.
    { rewrite <- length_cs. rewrite <- (length_fmap hc_key cands'), <- (length_fmap hc_key cs). by rewrite Hs. }
    assert (cands' ≡ₚ nth_cand cands' p :: k) as Hperm.
    { rewrite Hk, <- fmap_cons, Permutation_middle, Hp, <- Hlen. by rewrite nth_cand_all. }
    apply (candidates_ok_perm base _ _ Hperm) in Hc as [C1 C2 C3]. split.
    + intros a Ha. apply C1. by right.
    + intros a Ha. apply C2. by right.
    + rewrite fmap_cons in C3. by apply list.NoDup_cons in C3 as [_ ?].
  - exists (nth_cand cands' <$> (l1 ++ l2)). split_and!; [done| |by apply (flags_nth Dp cs)].
    assert (StronglySorted (nearer base) (nth_cand cs <$> (l1 ++ l2))) as Hs2.
    { rewrite fmap_app, fmap_cons in Hsort. rewrite fmap_app. apply StronglySorted_app in Hsort as (H1 & H2 & H3).
      apply StronglySorted_app. apply StronglySorted_inv in H3 as [H3 _]. split_and!; try done.
      intros a b Ha Hb. apply H1; [done|by right]. }
    clear -Hs Hs2. induction (l1 ++ l2) as [|i l IH]; [constructor|]. rewrite fmap_cons in Hs2 |- *.
    apply StronglySorted_inv in Hs2 as [Hs2 Hf]. constructor; [by apply IH|].
    apply list.Forall_forall. intros x Hx. apply list_elem_of_fmap in Hx as (j & -> & Hj).
    assert (nearer base (nth_cand cs i) (nth_cand cs j)) as Hij.
    { apply (proj1 (list.Forall_forall _ _) Hf). by apply list_elem_of_fmap_2. }
    pose proof (nth_cand_key cs cands' i Hs) as Ei. pose proof (nth_cand_key cs cands' j Hs) as Ej.
    injection Ei as Ei1 Ei2. injection Ej as Ej1 Ej2. rewrite nearer_spec in Hij |- *. by rewrite Ei1, Ei2, Ej1, Ej2.
Qed.

Lemma select_full lm closerSet : lm = Z.of_nat n -> (closerSet = true -> cached items) ->
  exists r cands' l1 p l2,
    SelectNeighbors base elements support cs (seq 0 (S n)) lm closerSet (Some n) true true =
      Ok (mkSelection r cands' true (Some p)) /\
    l1 ++ p :: l2 ≡ₚ seq 0 (S n) /\ StronglySorted (nearer base) (nth_cand cs <$> l1 ++ p :: l2) /\
    same_shape cs cands' /\ flags_valid (nth_D Dp cs) (nth_dist cs) (flag cands') (l1 ++ l2) /\
    left_out (closerb (nth_D Dp cs) (nth_dist cs)) lm (l1 ++ p :: l2) = Some p.
Proof using Hcs Hdef.
  intros Hlm Hcache. unfold SelectNeighbors. rewrite length_seq.
  destruct (Z.leb_spec (Z.of_nat (S n)) lm); [lia|].
  rewrite mapM_cand by (intros i Hi; apply elem_of_seq in Hi; rewrite length_cs; lia). rewrite bind_Ok.
  destruct (sorted_indices cs Hcs) as [Hp Hs]. rewrite length_cs in Hp, Hs. unfold candidate_cmp in Hp, Hs.
  set (l := rev (list_sort _ _).*1) in *. clearbody l.
  destruct (inside_order l Hp) as [Hin Hnd].
  set (st0 := mkSelectState cs [] [] [] false).
  assert (select_inv cs (nth_D Dp cs) (nth_dist cs) (flag cs) [] l st0) as Hi0.
  { split; try done. intros p e t Heq. by destruct p. }
  destruct (select_loop_greedy base elements support cs (nth_D Dp cs) (nth_dist cs)
    (nth_D_ok base elements support Dp cs Hdef) (nth_dist_ok cs) (Some n) (flag cs) lm (negb closerSet) l [] st0 Hi0)
    as (st & q & rest & E & Hl & Hi & Hg); [|done|done|].
  { intros Hm. split.
    - split; simpl; [intros i Hi; by apply elem_of_nil in Hi|intros i Hi; by apply elem_of_nil in Hi|intros _ i Hi; by apply elem_of_nil in Hi|done|done].
    - apply cached_valid; [done|done|]. apply Hcache. by destruct closerSet. }
  rewrite E, bind_Ok. simpl in Hi, Hg. clear E.
  destruct (left_out_one (closerb (nth_D Dp cs) (nth_dist cs)) lm l) as (r & wd & rest' & p & Hg' & Hlo & Hcase & _).
  { lia. } { rewrite (Permutation_length Hp), length_seq. lia. }
  rewrite Hg' in Hg. injection Hg as Hr Hwd <-.
  destruct Hcase as [(-> & -> & Hlr)|(-> & k & -> & Hk)].
  - exists (sel_r st), (sel_cands st), q, p, [].
    rewrite <- Hwd, take_nil, drop_nil, app_nil_r. simpl. rewrite <- Hl. split_and!; try done.
    + apply (si_shape _ _ _ _ _ _ _ Hi).
    + rewrite app_nil_r. apply (si_valid _ _ _ _ _ _ _ Hi).
  - rewrite app_nil_r in Hl. subst q.
    assert (Z.to_nat (lm - Z.of_nat (length (sel_r st))) = length k) as Hroom by (rewrite <- Hr; lia).
    assert (p ∈ sel_wd st) as Hpw by (rewrite <- Hwd; apply elem_of_app; right; left).
    rewrite (si_wd _ _ _ _ _ _ _ Hi) in Hpw. apply elem_of_filterb in Hpw as [Hpl Hpf]. apply negb_true_iff in Hpf.
    apply list_elem_of_split in Hpl as (l1 & l2 & ->).
    exists (sel_r st ++ take (length k) (sel_wd st)), (sel_cands st), l1, p, l2.
    rewrite Hroom, <- Hwd, drop_app_length. simpl. split_and!; try done.
    + apply (si_shape _ _ _ _ _ _ _ Hi).
    + eapply flags_valid_remove; [exact Hpf|]. apply (si_valid _ _ _ _ _ _ _ Hi).
Qed.
End Full.

(** ** The neighbor array of an element *)

(** At most [lm] candidates, whose flags may be cached only when it is full. *)
Record array_ok (base : addr) (Dp : addr -> addr -> float) (lm : Z) (a : HnswNeighborArray) : Prop := {
  ao_length : na_length a <= lm;
  ao_cands : candidates_ok base (na_items a);
  ao_cache : na_closerSet a = true -> na_length a = lm /\ cached base Dp (na_items a)
}.

Section Connection.
Context `{ListSort} (base : addr) (elements : gmap addr HnswElementData) (support : HnswSupport)
  (Dp : addr -> addr -> float).

(** The pruned candidate is found where it is. *)
Lemma find_pruned (items : list HnswCandidate) i hc : candidates_ok base items -> ptr_fits base (hc_element hc) ->
  (forall j a, items !! j = Some a -> hc_element a = hc_element hc <-> j = i) ->
  list_find (fun a => HnswPtrEqual base (hc_element a) (hc_element hc) = true) items =
    (fun a => (i, a)) <$> items !! i.
Proof using Type.
  intros Hc Hp Hi. destruct (items !! i) as [a|] eqn:E; simpl.
  - apply list_find_Some. split_and!; [done| |].
    + apply HnswPtrEqual_spec; [apply (co_ptr _ _ Hc); by eapply list_elem_of_lookup_2|done|]. by apply (Hi _ _ E).
    + intros j y Hy Hlt Heq. apply HnswPtrEqual_spec in Heq; [|apply (co_ptr _ _ Hc); by eapply list_elem_of_lookup_2|done].
      apply (Hi _ _ Hy) in Heq. lia.
  - apply list_find_None, list.Forall_forall. intros a Ha Heq. apply list_elem_of_lookup in Ha as [j Hj].
    apply HnswPtrEqual_spec in Heq; [|apply (co_ptr _ _ Hc); by eapply list_elem_of_lookup_2|done].
    apply (Hi _ _ Hj) in Heq. congruence.
Qed.

Lemma same_pointer cs i j a b : candidates_ok base cs -> cs !! i = Some a -> cs !! j = Some b ->
  hc_element a = hc_element b <-> i = j.
Proof using Type.
  intros Hc Ha Hb. split; [|intros ->; congruence]. intros He.
  eapply NoDup_lookup; [apply (co_distinct _ _ Hc)|..]; rewrite list_lookup_fmap; [by rewrite Ha|by rewrite Hb; simpl; rewrite He].
Qed.

Lemma same_shape_split items new cands' : same_shape (items ++ [new]) cands' ->
  exists items' new', cands' = items' ++ [new'] /\ hc_key <$> items' = hc_key <$> items /\ hc_key new' = hc_key new.
Proof using Type.
  unfold same_shape. rewrite fmap_app. intros Hs. apply fmap_app_inv in Hs as (items' & k & Hi & Hk & ->).
  symmetry in Hk. apply fmap_cons_inv in Hk as (new' & k' & Hn & Hk & ->).
  symmetry in Hk. apply fmap_nil_inv in Hk as ->. by exists items', new'.
Qed.

Lemma nth_cand_insert items new p : (p < length items)%nat ->
  nth_cand (items ++ [new]) <$> <[p := length items]> (seq 0 (length items)) = <[p := new]> items.
Proof using Type.
  intros Hp. rewrite list_fmap_insert, nth_cand_app_l. f_equal. apply nth_cand_lookup.
  by rewrite lookup_app_r, Nat.sub_diag by lia.
Qed.

(** The replacement of the candidate at [p] by the last one. *)
Lemma replace_pruned (items : list HnswCandidate) new p pc (updateIdx : option Z) (closerSet : bool) :
  candidates_ok base (items ++ [new]) -> (items ++ [new]) !! p = Some pc ->
  match list_find (fun hc => HnswPtrEqual base (hc_element hc) (hc_element pc) = true) items with
  | Some (i, _) => Ok (mkHnswNeighborArray closerSet (<[i := new]> items), (fun _ => Z.of_nat i) <$> updateIdx)
  | None => Ok (mkHnswNeighborArray closerSet items, updateIdx)
  end =
  if decide (p < length items)%nat
  then Ok (mkHnswNeighborArray closerSet (<[p := new]> items), (fun _ => Z.of_nat p) <$> updateIdx)
  else Ok (mkHnswNeighborArray closerSet items, updateIdx).
Proof using Type.
  intros Hc Hp. rewrite (find_pruned items p pc).
  - destruct (decide (p < length items)%nat) as [Hlt|Hge].
    + rewrite lookup_app_l in Hp by done. by rewrite Hp.
    + by rewrite lookup_ge_None_2 by lia.
  - by eapply candidates_ok_items.
  - apply (co_ptr _ _ Hc). by eapply list_elem_of_lookup_2.
  - intros j a Hj. eapply (same_pointer (items ++ [new])); [done| |done].
    rewrite lookup_app_l; [done|]. by eapply lookup_lt_Some.
Qed.

Lemma closer_to_closerb cs e r : closer_to Dp (nth_cand cs e) (nth_cand cs <$> r) =
  closerb (nth_D Dp cs) (nth_dist cs) e r.
Proof using Type. by apply closerb_nth. Qed.

Lemma left_out_indices cs lm l L p : candidates_ok base cs -> l ≡ₚ seq 0 (length cs) ->
  StronglySorted (nearer base) (nth_cand cs <$> l) -> L ≡ₚ cs -> StronglySorted (nearer base) L ->
  left_out (closerb (nth_D Dp cs) (nth_dist cs)) lm l = Some p ->
  left_out (closer_to Dp) lm L = Some (nth_cand cs p).
Proof using Type.
  intros Hc Hl Hs HL HLs Hlo.
  assert (L = nth_cand cs <$> l) as ->.
  { apply (nearest_first_unique base); [by eapply candidates_ok_perm; [symmetry|]| |done|done].
    by rewrite HL, Hl, nth_cand_all. }
  rewrite (left_out_fmap (nth_cand cs) (closerb (nth_D Dp cs) (nth_dist cs))), Hlo; [done|].
  intros. apply closer_to_closerb.
Qed.

Lemma HnswUpdateConnection_run garbage a newElement distance lm idx :
  let new := mkHnswCandidate (HnswPtrStore base newElement) distance garbage in
  let cs := na_items a ++ [new] in
  array_ok base Dp lm a -> candidates_ok base cs -> distances_defined base elements support Dp cs ->
  exists a' idx',
    HnswUpdateConnection base elements support garbage a newElement distance lm idx = Ok (a', idx') /\
    array_ok base Dp lm a' /\ (forall x, x ∈ hc_key <$> na_items a' -> x ∈ hc_key <$> cs) /\
    (na_length a < lm -> na_items a' = cs /\ idx' = (fun _ => -2) <$> idx) /\
    (na_length a = lm -> forall L, L ≡ₚ cs -> StronglySorted (nearer base) L ->
       exists p, left_out (closer_to Dp) lm L = Some p /\
         (p = new /\ hc_key <$> na_items a' = hc_key <$> na_items a /\ idx' = idx \/
          exists i, na_items a !! i = Some p /\
            hc_key <$> na_items a' = <[i := hc_key new]> (hc_key <$> na_items a) /\
            idx' = (fun _ => Z.of_nat i) <$> idx)).
Proof using Type.
  intros new cs Ha Hcs Hdef. pose proof (ao_length _ _ _ _ Ha) as Hlen. unfold HnswUpdateConnection.
  destruct (Z.ltb_spec (na_length a) lm) as [Hlt|Hge].
  { eexists _, _. split; [done|]. split_and!; [|done|done|lia]. split; simpl.
    - unfold na_length in *. simpl. rewrite length_app. simpl. lia.
    - done.
    - intros Hc. apply (ao_cache _ _ _ _ Ha) in Hc as [Hc _]. lia. }
  set (n := length (na_items a)).
  assert (lm = Z.of_nat n) as Hlm by (unfold na_length in *; lia).
  destruct (select_full base elements support Dp (na_items a) new Hcs Hdef lm (na_closerSet a) Hlm
    (fun Hc => proj2 (ao_cache _ _ _ _ Ha Hc))) as (r & cands' & l1 & p & l2 & E & Hp & Hs & Hsh & Hf & Hlo).
  cbv zeta. fold new n. fold new in E. fold n in E, Hp. rewrite E, bind_Ok. clear E. cbn [s_cands s_pruned s_closerSet].
  destruct (same_shape_split _ _ _ Hsh) as (items' & new' & -> & Hitems & Hnew).
  assert (length items' = n) as Hn'.
  { rewrite <- (length_fmap hc_key items'), Hitems. apply length_fmap. }
  pose proof (candidates_ok_keys base _ _ (eq_sym Hsh) Hcs) as Hc'.
  assert (p < S n)%nat as Hpn by (assert (p ∈ seq 0 (S n)) as H1 by (rewrite <- Hp; apply elem_of_app; right; left); apply elem_of_seq in H1; lia).
  assert (p < length (items' ++ [new']))%nat as Hpl by (rewrite length_app; simpl; lia).
  destruct (lookup_lt_is_Some_2 (items' ++ [new']) p Hpl) as [pc Hpc].
  assert (cand (items' ++ [new']) n = Ok new') as ->.
  { unfold cand. by rewrite lookup_app_r, <- Hn', Nat.sub_diag by lia. }
  assert (cand (items' ++ [new']) p = Ok pc) as -> by (unfold cand; by rewrite Hpc). rewrite !bind_Ok.
  rewrite <- Hn', take_app_length, (replace_pruned _ _ _ _ _ _ Hc' Hpc), Hn'.
  assert (forall L, L ≡ₚ cs -> StronglySorted (nearer base) L ->
    left_out (closer_to Dp) lm L = Some (nth_cand cs p)) as HL.
  { intros L HL HLs. apply (left_out_indices cs lm (l1 ++ p :: l2)); try done.
    unfold cs. by rewrite length_cs. }
  destruct (replace_Permutation (na_items a) p l1 l2 Hp) as [[-> Hp']|[Hlt Hp']]; fold n in Hp'.
  - rewrite decide_False by lia. eexists _, _. split; [done|].
    destruct (remaining_ok base Dp (na_items a) new Hcs (items' ++ [new']) l1 n l2 items' Hsh Hp Hs Hf) as [Hok Hcach].
    { by rewrite Hp', <- Hn', nth_cand_app_l. }
    split_and!; [split; simpl; [unfold na_length; simpl; lia|done|]| |lia|].
    { intros _. split; [unfold na_length; simpl; lia|done]. }
    { simpl. intros x Hx. unfold cs. rewrite fmap_app, elem_of_app. left. by rewrite <- Hitems. }
    intros _ L HLp HLs. exists new. split; [|by left]. rewrite (HL L HLp HLs). f_equal. apply nth_cand_lookup.
    unfold cs, n. by rewrite lookup_app_r, Nat.sub_diag by lia.
  - rewrite decide_True by lia. eexists _, _. split; [done|].
    destruct (remaining_ok base Dp (na_items a) new Hcs (items' ++ [new']) l1 p l2 (<[p := new']> items') Hsh Hp Hs Hf)
      as [Hok Hcach].
    { rewrite Hp', <- Hn', nth_cand_insert by lia. done. }
    split_and!; [split; simpl; [unfold na_length; simpl; rewrite length_insert; lia|done|]| |lia|].
    { intros _. split; [unfold na_length; simpl; rewrite length_insert; lia|done]. }
    { simpl. intros x Hx. unfold cs. rewrite list_fmap_insert, Hitems, Hnew in Hx. rewrite fmap_app, elem_of_app.
      apply list_elem_of_lookup in Hx as [j Hj]. destruct (decide (j = p)) as [->|Hne].
      - rewrite list_lookup_insert_eq in Hj by (rewrite length_fmap; lia). injection Hj as <-. right. by left.
      - rewrite list_lookup_insert_ne in Hj by done. left. by eapply list_elem_of_lookup_2. }
    intros _ L HLp HLs. destruct (lookup_lt_is_Some_2 (na_items a) p Hlt) as [x Hx].
    exists x. split; [|right; exists p; split_and!; [done| |done]].
    + rewrite (HL L HLp HLs). f_equal. apply nth_cand_lookup. unfold cs. by rewrite lookup_app_l.
    + simpl. by rewrite list_fmap_insert, Hitems, Hnew.
Qed.

(** C10: [HnswUpdateConnection] connects an element to a new one.  While there
    is room the new candidate is added at the end; in a full array it takes the
    place of the candidate algorithm 4 leaves out of the members and the new
    one, or the array keeps its members if that is the new one itself.  The
    result does not depend on whether the flags were cached, nor on the
    uninitialised flag of the new candidate; the array stays within [lm] and its
    cached flags stay valid. *)
Theorem HnswUpdateConnection_correct garbage a newElement distance lm idx :
  let new := mkHnswCandidate (HnswPtrStore base newElement) distance garbage in
  let cs := na_items a ++ [new] in
  array_ok base Dp lm a -> candidates_ok base cs -> distances_defined base elements support Dp cs ->
  exists a' idx',
    HnswUpdateConnection base elements support garbage a newElement distance lm idx = Ok (a', idx') /\
    array_ok base Dp lm a' /\
    (na_length a < lm -> na_items a' = cs /\ idx' = (fun _ => -2) <$> idx) /\
    (na_length a = lm -> forall L, L ≡ₚ cs -> StronglySorted (nearer base) L ->
       exists p, left_out (closer_to Dp) lm L = Some p /\
         (p = new /\ hc_key <$> na_items a' = hc_key <$> na_items a /\ idx' = idx \/
          exists i, na_items a !! i = Some p /\
            hc_key <$> na_items a' = <[i := hc_key new]> (hc_key <$> na_items a) /\
            idx' = (fun _ => Z.of_nat i) <$> idx)).
Proof using Type.
  intros new cs Ha Hcs Hdef.
  destruct (HnswUpdateConnection_run garbage a newElement distance lm idx Ha Hcs Hdef) as (a' & idx' & H1 & H2 & _ & H3). by exists a', idx'.
Qed.
End Connection.

(** ** A concrete array *)

Definition connect_elements : gmap addr HnswElementData :=
  {[ 1%N := el_set_value (Some value1) sample_element; 2%N := el_set_value (Some value2) sample_element ]}.
Definition connect_D (p q : addr) : float :=
  match candidate_distance NULL connect_elements sample_support (mkHnswCandidate p dzero false) (mkHnswCandidate q dzero false) with
  | Ok d => d
  | Err _ => dzero
  end.
Definition connect_old : HnswCandidate := mkHnswCandidate 1%N done_ true.
Definition connect_array : HnswNeighborArray := mkHnswNeighborArray true [connect_old].
Definition connect_new (garbage : bool) : HnswCandidate := mkHnswCandidate 2%N dzero garbage.

Lemma connect_array_ok : array_ok NULL connect_D 1 connect_array.
Proof.
  split; [by vm_compute| |].
  - split; [intros a Ha; apply list_elem_of_singleton in Ha as ->; by vm_compute..|apply NoDup_singleton].
  - intros _. split; [done|]. exists [connect_old]. split_and!; [done|repeat constructor|].
    intros [|? [|]] e t Heq; simplify_eq/=; by vm_compute.
Qed.

Lemma HnswUpdateConnection_correct_witness :
  exists a' idx',
    HnswUpdateConnection (H := pg_list_sort) NULL connect_elements sample_support false connect_array 2%N dzero 1 (Some 0) = Ok (a', idx') /\
    array_ok NULL connect_D 1 a' /\
    (na_length connect_array < 1 -> na_items a' = [connect_old; connect_new false] /\ idx' = Some (-2)) /\
    (na_length connect_array = 1 -> forall L, L ≡ₚ [connect_old; connect_new false] -> StronglySorted (nearer NULL) L ->
       exists p, left_out (closer_to connect_D) 1 L = Some p /\
         (p = connect_new false /\ hc_key <$> na_items a' = hc_key <$> [connect_old] /\ idx' = Some 0 \/
          exists i, [connect_old] !! i = Some p /\
            hc_key <$> na_items a' = <[i := hc_key (connect_new false)]> (hc_key <$> [connect_old]) /\
            idx' = (fun _ => Z.of_nat i) <$> Some 0)).
Proof.
  apply (HnswUpdateConnection_correct (H := pg_list_sort) NULL connect_elements sample_support connect_D false connect_array 2%N
    dzero 1 (Some 0)).
  - apply connect_array_ok.
  - split.
    + intros a [->|Ha]%elem_of_cons; [by vm_compute|]. apply list_elem_of_singleton in Ha as ->. by vm_compute.
    + intros a [->|Ha]%elem_of_cons; [by vm_compute|]. apply list_elem_of_singleton in Ha as ->. by vm_compute.
    + apply (bool_decide_unpack _). by vm_compute.
  - intros a b [->|Ha]%elem_of_cons [->|Hb]%elem_of_cons; try apply list_elem_of_singleton in Ha as ->;
      try apply list_elem_of_singleton in Hb as ->; by vm_compute.
Defined.
