(* ===== verification/FindNeighbors.v ===== *)
(** * The neighbors of a new element

    [HnswFindElementNeighbors] of src/pgvec/src/backend/access/hnsw/hnswutils.c
    (algorithm 1 of the HNSW paper) with the functions it calls: the descent to
    the level of the element, then the search and the selection of neighbors in
    each of its layers. *)

From Stdlib Require Import SpecFloat.
From S2P Require Import Prelude CFloat VectorType ItemPtr PairingHeap GraphSearch Hash HnswData BufPage Backend HnswUtils.
From S2P Require Import SearchLayer LayerRefinement QSort SelectNeighbors UpdateConnection.

(** ** Neighbor arrays of an element *)

Definition alter_layer (lc : Z) (f : HnswNeighborArray -> HnswNeighborArray) (e : HnswElementData) : HnswElementData :=
  el_set_neighbors (alter f (Z.to_nat lc) <$> el_neighbors e) e.

(** A layer the element does not have is past the end of its arrays. *)
Definition modify_neighbors (element : addr) (lc : Z) (f : HnswNeighborArray -> HnswNeighborArray) : M Backend unit :=
  e ← load_element element ;
  a ← lift_res (neighbors_of e lc) ;
  store_element element (alter_layer lc f e).

Definition AddConnections (element : addr) (neighbors : list HnswCandidate) (lc : Z) : M Backend unit :=
  modify_neighbors element lc (fun a => mkHnswNeighborArray (na_closerSet a) (na_items a ++ neighbors)).

Definition same_tid (a b : HnswElementData) : bool :=
  (el_blkno a =? el_blkno b) && (el_offno a =? el_offno b).

(** Elements being deleted, and the element itself, are left out. *)
Definition keep_element (base skipElement : addr) (hc : HnswCandidate) (w2 : list HnswCandidate)
    : M Backend (list HnswCandidate) :=
  hce ← load_element (HnswPtrAccess base (hc_element hc)) ;
  skip ← (if (skipElement =? NULL)%N then mret false
          else sk ← load_element skipElement ; mret (same_tid hce sk)) ;
  mret (if skip : bool then w2
        else if negb (el_heaptidsLength hce =? 0) then w2 ++ [hc] else w2).

Definition RemoveElements (base : addr) (w : list HnswCandidate) (skipElement : addr) : M Backend (list HnswCandidate) :=
  mfor w [] (keep_element base skipElement).

Definition PrecomputeHash (base element : addr) : M Backend unit :=
  let ptr := HnswPtrStore base element in
  modify_element element
    (el_set_hash (if (base =? NULL)%N then hash_pointer (Z.of_N (HnswPtrPointer ptr))
                  else hash_offset (HnswPtrOffset ptr))).

Section FindNeighbors.
Context `{Palloc} `{ListSort}.
(** [garbage] is the [closer] field of a candidate, which is not initialised. *)
Context (garbage : bool) (fuel : nat).
Context (base element : addr) (inMemory : bool) (support : HnswSupport) (m : Z).

Definition search_layer (q : HnswQuery) (ef lc : Z) (skipElement : addr) (ep : list HnswSearchCandidate)
    : M Backend (list HnswSearchCandidate) :=
  '(w, _, _, _) ← HnswSearchLayer base q ef lc inMemory support m true skipElement fuel ep None None true None ;
  mret w.

(** The descent through layers [lc], [lc - 1], ..., [n] of them. *)
Fixpoint descend (q : HnswQuery) (skipElement : addr) (n : nat) (lc : Z) (ep : list HnswSearchCandidate)
    : M Backend (list HnswSearchCandidate) :=
  match n with
  | O => mret ep
  | S n' => w ← search_layer q 1 lc skipElement ep ; descend q skipElement n' (lc - 1) w
  end.

(** The distance of a candidate is a [float]. *)
Definition candidate_of (sc : HnswSearchCandidate) : HnswCandidate :=
  mkHnswCandidate (sc_element sc) (float_of_double (sc_distance sc)) garbage.

(** Select neighbors for layer [lc] among the candidates [w]. *)
Definition connect_layer (skipElement : addr) (lc : Z) (w : list HnswSearchCandidate) : M Backend unit :=
  let lm := HnswGetLayerM m lc in
  let lw := candidate_of <$> w in
  lw ← (if negb inMemory then RemoveElements base lw skipElement else mret lw) ;
  a ← HnswGetNeighbors base element lc ;
  s ← get_state ;
  sel ← lift_res (SelectNeighbors base (mem s) support lw (seq 0 (length lw)) lm (na_closerSet a) None false false) ;
  modify_neighbors element lc (fun a => mkHnswNeighborArray (s_closerSet sel) (na_items a)) ;;
  neighbors ← lift_res (mapM (cand (s_cands sel)) (s_r sel)) ;
  AddConnections element neighbors lc.

(** Layers [lc], ..., 0. *)
Fixpoint connect_layers (q : HnswQuery) (skipElement : addr) (efConstruction : Z) (lc : nat)
    (ep : list HnswSearchCandidate) : M Backend unit :=
  w ← search_layer q efConstruction (Z.of_nat lc) skipElement ep ;
  connect_layer skipElement (Z.of_nat lc) w ;;
  match lc with O => mret tt | S lc' => connect_layers q skipElement efConstruction lc' w end.

Definition HnswFindElementNeighbors (entryPoint : addr) (efConstruction : Z) (existing : bool) : M Backend unit :=
  el ← load_element element ;
  let level := el_level el in
  let skipElement := if existing then element else NULL in
  let q := mkHnswQuery (el_value el) in
  (if inMemory then PrecomputeHash base element else mret tt) ;;
  if (entryPoint =? NULL)%N then mret tt
  else
    sc ← HnswEntryCandidate inMemory base entryPoint q support true ;
    en ← load_element entryPoint ;
    let entryLevel := el_level en in
    ep ← descend q skipElement (Z.to_nat (entryLevel - level)) entryLevel [sc] ;
    let level := if entryLevel <? level then entryLevel else level in
    let efConstruction := if existing then efConstruction + 1 else efConstruction in
    if level <? 0 then mret tt
    else connect_layers q skipElement efConstruction (Z.to_nat level) ep.
End FindNeighbors.

(** ** The selection among fresh candidates *)

Section Fresh.
Context `{ListSort} (base : addr) (elements : gmap addr HnswElementData) (support : HnswSupport)
  (Dp : addr -> addr -> float).

(** The candidates of a search come furthest first. *)
Definition selected (lm : Z) (lw : list HnswCandidate) : list HnswCandidate :=
  if Z.of_nat (length lw) <=? lm then lw else algorithm4 (closer_to Dp) lm (rev lw).

Lemma selected_spec lm lw : 0 <= lm ->
  Z.of_nat (length (selected lm lw)) = Z.min lm (Z.of_nat (length lw)) /\ selected lm lw ⊆+ lw.
Proof using Type.
  intros H0. unfold selected. destruct (Z.leb_spec (Z.of_nat (length lw)) lm).
  - split; [lia|done].
  - destruct (algorithm4_spec (closer_to Dp) lm (rev lw) H0) as (_ & H2 & H3). rewrite length_rev in H2. split; [lia|].
    etrans; [exact H3|]. by rewrite <- Permutation_rev.
Qed.

Lemma mapM_same_shape cands cands' l : same_shape cands cands' -> (forall i, i ∈ l -> (i < length cands)%nat) ->
  mapM (cand cands') l = Ok (nth_cand cands' <$> l) /\ hc_key <$> (nth_cand cands' <$> l) = hc_key <$> (nth_cand cands <$> l).
Proof using Type.
  intros Hs. induction l as [|i l IH]; intros Hl; [done|].
  destruct (IH (fun j Hj => Hl j ltac:(by right))) as [IH1 IH2]. rewrite !fmap_cons. split.
  - destruct (same_shape_some _ _ i Hs (Hl i ltac:(left))) as (a & _ & Ha & _ & _). cbn [mapM].
    assert (cand cands' i = Ok (nth_cand cands' i)) as -> by (unfold cand, nth_cand; by rewrite Ha).
    rewrite bind_Ok, IH1. done.
  - f_equal; [by apply nth_cand_key|done].
Qed.

Lemma SelectNeighbors_fresh lw lm : 0 <= lm -> distances_defined base elements support Dp lw ->
  exists sel r,
    SelectNeighbors base elements support lw (seq 0 (length lw)) lm false None false false = Ok sel /\
    s_closerSet sel = false /\ mapM (cand (s_cands sel)) (s_r sel) = Ok r /\ hc_key <$> r = hc_key <$> selected lm lw.
Proof using Type.
  intros H0 Hdef. unfold SelectNeighbors, selected. rewrite length_seq.
  assert (forall i, i ∈ seq 0 (length lw) -> (i < length lw)%nat) as Hin by (intros i Hi; apply elem_of_seq in Hi; lia).
  destruct (Z.leb_spec (Z.of_nat (length lw)) lm) as [Hle|Hgt].
  { destruct (mapM_same_shape lw lw (seq 0 (length lw)) eq_refl Hin) as [E _].
    eexists _, _. split; [done|]. split; [done|]. split; [exact E|]. by rewrite nth_cand_all. }
  rewrite mapM_cand by done. rewrite bind_Ok.
  set (st0 := mkSelectState lw [] [] [] false). set (l := rev (seq 0 (length lw))).
  assert (l ≡ₚ seq 0 (length lw)) as Hp by (symmetry; apply Permutation_rev).
  assert (select_inv lw (nth_D Dp lw) (nth_dist lw) (flag lw) [] l st0) as Hi0.
  { split; try done. intros p e t Heq. by destruct p. }
  destruct (select_loop_greedy base elements support lw (nth_D Dp lw) (nth_dist lw)
    (nth_D_ok base elements support Dp lw Hdef) (nth_dist_ok lw) None (flag lw) lm (negb false) l [] st0 Hi0)
    as (st & q & rest & E & Hl & Hi & Hg); [done|intros i Hi; apply Hin; by rewrite <- Hp|simpl; rewrite Hp; apply NoDup_seq|].
  rewrite E, bind_Ok. clear E. simpl in Hg.
  assert (sel_r st ++ take (Z.to_nat (lm - Z.of_nat (length (sel_r st)))) (sel_wd st) =
    algorithm4 (closerb (nth_D Dp lw) (nth_dist lw)) lm l) as Ha by (unfold algorithm4; by rewrite Hg).
  destruct (algorithm4_spec (closerb (nth_D Dp lw) (nth_dist lw)) lm l H0) as (_ & _ & Hsub). rewrite <- Ha in Hsub.
  set (sr := sel_r st ++ _) in *.
  destruct (mapM_same_shape lw (sel_cands st) sr (si_shape _ _ _ _ _ _ _ Hi)) as [E2 E3].
  { intros i Hir. apply Hin. rewrite <- Hp. by eapply elem_of_submseteq. }
  eexists _, _. split; [done|]. split; [done|]. split; [exact E2|]. rewrite E3, Ha. f_equal.
  rewrite <- (algorithm4_fmap (nth_cand lw) _ (closer_to Dp)) by (intros; by apply closerb_nth).
  f_equal. unfold l. by rewrite fmap_rev, nth_cand_all.
Qed.
End Fresh.

(** ** The in-memory insertion *)

(** Memories that differ only at one element. *)
Definition agree_off (element : addr) (m1 m2 : gmap addr HnswElementData) : Prop :=
  forall p, p <> element -> m2 !! p = m1 !! p.

Section Frame.
Context (base : addr) (q : HnswQuery) (lc : Z) (support : HnswSupport) (m : Z) (element : addr).
Context (M0 M : gmap addr HnswElementData) (U : gset addr).
Context (Hoff : agree_off element M0 M) (HU : forall k, k ∈ U -> HnswPtrAccess base k <> element).

Lemma mem_layer_ok_frame : mem_layer_ok base q lc support m M0 U -> mem_layer_ok base q lc support m M U.
Proof using Hoff HU.
  intros [H1 H2 H3]. split; [done| |].
  - intros k Hk. destruct (H2 k Hk) as (el & a & d & He & H'). exists el, a, d. split; [by rewrite Hoff by by apply HU|done].
  - intros k el Hk. rewrite Hoff by by apply HU. by apply H3.
Qed.

Lemma mem_distance_frame k : k ∈ U -> mem_distance base q support M k = mem_distance base q support M0 k.
Proof using Hoff HU. intros Hk. unfold mem_distance. by rewrite Hoff by by apply HU. Qed.

Lemma search_result_frame ef ep w V :
  search_result (mem_graph base q lc support NULL M) ef U ep w V ->
  search_result (mem_graph base q lc support NULL M0) ef U ep w V.
Proof using Hoff HU.
  intros [R1 R2 R3 R4 R5 R6 R7 R8 R9].
  assert (forall k, k ∈ w -> mem_distance base q support M k = mem_distance base q support M0 k) as Hd
    by (intros k Hk; apply mem_distance_frame; auto).
  split; try done.
  - clear -R1 Hd. unfold furthest_first in *. simpl in *. induction R1 as [|a l Hs IH Hf]; constructor.
    + apply IH. intros k Hk. apply Hd. by right.
    + apply list.Forall_forall. intros x Hx. rewrite list.Forall_forall in Hf. specialize (Hf x Hx).
      rewrite (Hd a ltac:(left)), (Hd x ltac:(by right)) in Hf. done.
  - intros k k' Hk Hk'. apply (R7 k k' Hk). simpl in *. unfold mem_neighbors in *. rewrite Hoff; [done|]. apply HU. auto.
  - intros _ k Hk. destruct (R9 ltac:(by intros ? ?) k Hk) as [?|[Hl|[He Hr]]]; [by left|right; left|right; right].
    + simpl in *. unfold mem_level_ok in *. by rewrite <- (Hoff _ (HU _ (R5 _ Hk))).
    + split; [done|]. intros r Hrw. specialize (Hr r Hrw). simpl in *.
      rewrite !mem_distance_frame in Hr by auto. done.
Qed.
End Frame.

Section Memory.
Context `{Palloc} `{ListSort} (garbage : bool) (fuel : nat).
Context (base element entryPoint : addr) (support : HnswSupport) (m efConstruction : Z).
Context (Dp : addr -> addr -> float) (q : HnswQuery) (M0 : gmap addr HnswElementData).
(** The layers of the graph, from 0 to the level of the entry point. *)
Context (entryLevel : Z) (U : Z -> gset addr).

(** The graph the element is inserted into: [U lc] are the elements of layer
    [lc]; the new one is not among them. *)
Record graph_ok : Prop := {
  go_layer lc : 0 <= lc <= entryLevel -> mem_layer_ok base q lc support m M0 (U lc);
  go_nested lc : 0 <= lc < entryLevel -> U (lc + 1) ⊆ U lc;
  go_new lc k : 0 <= lc <= entryLevel -> k ∈ U lc -> HnswPtrAccess base k <> element;
  go_fuel lc : 0 <= lc <= entryLevel -> (size (U lc) <= fuel)%nat;
  go_distances a b : hc_element a ∈ U 0 -> hc_element b ∈ U 0 ->
    candidate_distance base M0 support a b = Ok (Dp (hc_element a) (hc_element b))
}.
Context (Hok : graph_ok).

Definition entries_ok (lc : Z) (ep : list HnswSearchCandidate) : Prop :=
  ep <> [] /\ NoDup (sc_element <$> ep) /\
  Forall (fun c => sc_element c ∈ U lc /\ sc_distance c = mem_distance base q support M0 (sc_element c)) ep.

Definition layer_graph (lc : Z) : SearchGraph addr := mem_graph base q lc support NULL M0.

Lemma U_zero lc k : 0 <= lc <= entryLevel -> k ∈ U lc -> k ∈ U 0.
Proof using Hok.
  intros [Hl0 Hl]. revert k Hl. pattern lc. apply natlike_ind; [done| |done].
  intros x Hx IH k Hle Hk. apply IH; [lia|]. apply (go_nested Hok x); [lia|done].
Qed.

Lemma entries_ok_below lc ep : 0 <= lc < entryLevel -> entries_ok (lc + 1) ep -> entries_ok lc ep.
Proof using Hok.
  intros Hl (Hne & Hnd & Hf). split_and!; try done. eapply List.Forall_impl; [|exact Hf].
  intros c [Hc Hd]. split; [|done]. by apply (go_nested Hok lc).
Qed.

Lemma search_layer_memory s lc ef ep : 0 <= lc <= entryLevel -> agree_off element M0 (mem s) -> entries_ok lc ep ->
  exists w V, search_layer fuel base true support m q ef lc NULL ep s = Ok (w, s) /\ entries_ok lc w /\
    search_result (layer_graph lc) ef (U lc) (sc_element <$> ep) (sc_element <$> w) V.
Proof using Hok.
  intros Hl Hoff (Hne & Hnd & Hf). pose proof (go_layer Hok lc Hl) as Hlay.
  assert (forall k, k ∈ U lc -> HnswPtrAccess base k <> element) as HU by (intros k; by apply (go_new Hok)).
  destruct (search_layer_run (mem_graph base q lc support NULL (mem s)) (U lc) base q ef lc true support m
    true NULL s (LV := mem_view base q lc support m true NULL s (U lc) (mem_layer_ok_frame _ _ _ _ _ _ _ _ _ Hoff HU Hlay))
    fuel ep (sc_element <$> ep) true None)
    as (w & wk & v & V & t & s' & E & X & Hw & Hres).
  - by eapply mem_numeric, mem_layer_ok_frame.
  - apply Forall2_fmap_r, Forall_Forall2_diag. eapply List.Forall_impl; [|exact Hf].
    intros c [Hc Hd]. split_and!; [done|done|]. rewrite Hd. symmetry. by apply (mem_distance_frame _ _ _ element M0 _ (U lc)).
  - by destruct ep.
  - done.
  - by apply (go_fuel Hok).
  - simpl in X. subst s'.
    assert (wk = sc_element <$> w) as ->.
    { clear -Hw. induction Hw as [|c k w wk [Hc _] Hw IH]; [done|]. rewrite fmap_cons. by rewrite Hc, IH. }
    apply (search_result_frame _ _ _ _ element M0 (mem s) (U lc) Hoff HU) in Hres as Hres'.
    exists w, V. split_and!.
    + unfold search_layer. rewrite (M_bind_run _ _ _ _ _ E). done.
    + split_and!; [intros ->; by apply (sr_nonempty _ _ _ _ _ _ Hres)|apply (sr_nodup _ _ _ _ _ _ Hres)|].
      clear -Hw Hoff HU. apply list.Forall_forall. intros c Hc. apply list_elem_of_lookup in Hc as [i Hi].
      destruct (Forall2_lookup_l _ _ _ _ _ Hw Hi) as (k & Hk & (E1 & E2 & E3)). subst k. split; [done|].
      rewrite E3. by apply (mem_distance_frame _ _ _ element M0 _ (U lc)).
    + done.
Qed.

Lemma descend_memory s n : forall lc ep, 0 <= lc - Z.of_nat n -> lc <= entryLevel -> agree_off element M0 (mem s) ->
  entries_ok lc ep ->
  exists w, descend fuel base true support m q NULL n lc ep s = Ok (w, s) /\ entries_ok (lc - Z.of_nat n) w.
Proof using Hok.
  induction n as [|n IH]; intros lc ep H0' Hl Hoff Hep.
  - exists ep. replace (lc - Z.of_nat 0) with lc by lia. done.
  - destruct (search_layer_memory s lc 1 ep ltac:(lia) Hoff Hep) as (w & V & E & Hw & _).
    assert (entries_ok (lc - 1) w) as Hw1.
    { apply entries_ok_below; [lia|]. by replace (lc - 1 + 1) with lc by lia. }
    destruct (IH (lc - 1) w ltac:(lia) ltac:(lia) Hoff Hw1) as (w' & E' & Hw').
    exists w'. cbn [descend]. rewrite (M_bind_run _ _ _ _ _ E). split; [exact E'|].
    by replace (lc - Z.of_nat (S n)) with (lc - 1 - Z.of_nat n) by lia.
Qed.

(** The neighbors of layer [lc] are selected among the results of a search of
    that layer. *)
Definition layer_selected (lc : Z) (a : HnswNeighborArray) : Prop :=
  exists ep w V, search_result (layer_graph lc) efConstruction (U lc) ep (sc_element <$> w) V /\ entries_ok lc w /\
    na_closerSet a = false /\
    hc_key <$> na_items a = hc_key <$> selected Dp (HnswGetLayerM m lc) (candidate_of garbage <$> w) /\
    na_length a <= HnswGetLayerM m lc /\ NoDup (hc_element <$> na_items a) /\
    (forall hc, hc ∈ na_items a -> hc_element hc ∈ U lc).

Definition fresh_arrays (el : HnswElementData) (n : nat) : Prop :=
  exists ns, el_neighbors el = Some ns /\
    forall i, (i < n)%nat -> ns !! i = Some HnswInitNeighborArray.

Lemma same_elements_keys (l k : list HnswCandidate) : hc_key <$> l = hc_key <$> k -> hc_element <$> l = hc_element <$> k.
Proof using Type.
  intros Hk. assert (forall x : list HnswCandidate, hc_element <$> x = fst <$> (hc_key <$> x)) as Hx by (intros x; by rewrite <- list_fmap_compose).
  by rewrite !Hx, Hk.
Qed.

Lemma selected_layer lc w ep V cs a : 0 <= HnswGetLayerM m lc ->
  search_result (layer_graph lc) efConstruction (U lc) ep (sc_element <$> w) V -> entries_ok lc w ->
  hc_key <$> cs = hc_key <$> selected Dp (HnswGetLayerM m lc) (candidate_of garbage <$> w) ->
  a = mkHnswNeighborArray false cs -> layer_selected lc a.
Proof using Type.
  intros Hlm Hres Hw Hcs ->. exists ep, w, V.
  destruct (selected_spec Dp (HnswGetLayerM m lc) (candidate_of garbage <$> w) Hlm) as [Hlen Hsub].
  pose proof (same_elements_keys _ _ Hcs) as Hel.
  assert (hc_element <$> (candidate_of garbage <$> w) = sc_element <$> w) as Hew by (by rewrite <- list_fmap_compose).
  pose proof (fmap_submseteq hc_element _ _ Hsub) as Hsub'. rewrite Hew, <- Hel in Hsub'.
  split_and!; try done; simpl.
  - unfold na_length. simpl. rewrite <- (length_fmap hc_key cs), Hcs, length_fmap. lia.
  - eapply NoDup_of_submseteq; [exact Hsub'|]. apply Hw.
  - intros hc Hhc. apply (list_elem_of_fmap_2 hc_element) in Hhc.
    apply (elem_of_submseteq _ _ _ Hhc) in Hsub'. apply list_elem_of_fmap in Hsub' as (c & -> & Hc).
    destruct Hw as (_ & _ & Hf). rewrite list.Forall_forall in Hf. by apply Hf.
Qed.

Definition put (s : Backend) (el : HnswElementData) : Backend :=
  mkBackend (<[element := el]> (mem s)) (index s) (xlog s).
Definition with_layers (ns : list HnswNeighborArray) (el : HnswElementData) : HnswElementData :=
  el_set_neighbors (Some ns) el.

Lemma put_put s a b : put (put s a) b = put s b.
Proof using Type. unfold put. simpl. by rewrite insert_insert_eq. Qed.

Lemma agree_put s el : agree_off element M0 (mem s) -> agree_off element M0 (mem (put s el)).
Proof using Type. intros Ha p Hp. simpl. rewrite lookup_insert_ne by done. by apply Ha. Qed.

Lemma modify_neighbors_run s el ns lc f a : mem s !! element = Some el -> el_neighbors el = Some ns -> 0 <= lc ->
  ns !! Z.to_nat lc = Some a ->
  modify_neighbors element lc f s = Ok (tt, put s (with_layers (<[Z.to_nat lc := f a]> ns) el)).
Proof using Type.
  intros Hel Hns Hlc Ha. unfold modify_neighbors. rewrite (M_bind_run _ _ s el s) by (unfold load_element; by rewrite Hel).
  assert (neighbors_of el lc = Ok a) as Hn.
  { unfold neighbors_of. rewrite Hns. destruct (Z.ltb_spec lc 0); [lia|]. by rewrite Ha. }
  rewrite (M_bind_run _ _ s a s) by (unfold lift_res; by rewrite Hn).
  unfold store_element. rewrite Hel. unfold put, with_layers, alter_layer. rewrite Hns. simpl.
  repeat f_equal. apply list_eq. intros i. destruct (decide (i = Z.to_nat lc)) as [->|Hne].
  - rewrite list_lookup_alter_eq, list_lookup_insert_eq by (by eapply lookup_lt_Some). by rewrite Ha.
  - by rewrite list_lookup_alter_ne, list_lookup_insert_ne.
Qed.

Lemma distances_memory s lc w : 0 <= lc <= entryLevel -> agree_off element M0 (mem s) -> entries_ok lc w ->
  distances_defined base (mem s) support Dp (candidate_of garbage <$> w).
Proof using Hok.
  intros Hl Hoff (_ & _ & Hf). rewrite list.Forall_forall in Hf.
  assert (forall a, a ∈ candidate_of garbage <$> w -> hc_element a ∈ U lc) as HU.
  { intros a Ha. apply list_elem_of_fmap in Ha as (c & -> & Hc). simpl. by apply Hf. }
  intros a b Ha Hb. rewrite <- (go_distances Hok a b) by (eapply U_zero; [exact Hl|auto]).
  unfold candidate_distance, candidate_value. rewrite !Hoff by (eapply (go_new Hok lc); [exact Hl|auto]). done.
Qed.

Lemma connect_layer_memory s lc ep w V el ns : 0 <= lc <= entryLevel -> 0 <= m ->
  agree_off element M0 (mem s) -> mem s !! element = Some el -> el_neighbors el = Some ns ->
  ns !! Z.to_nat lc = Some HnswInitNeighborArray -> entries_ok lc w ->
  search_result (layer_graph lc) efConstruction (U lc) ep (sc_element <$> w) V ->
  exists a, connect_layer garbage base element true support m NULL lc w s =
      Ok (tt, put s (with_layers (<[Z.to_nat lc := a]> ns) el)) /\ layer_selected lc a.
Proof using Hok.
  intros Hl Hm Hoff Hel Hns Ha Hw Hres.
  assert (0 <= HnswGetLayerM m lc) as Hlm by (unfold HnswGetLayerM; destruct (lc =? 0); lia).
  destruct (SelectNeighbors_fresh base (mem s) support Dp (candidate_of garbage <$> w) (HnswGetLayerM m lc) Hlm
    (distances_memory s lc w Hl Hoff Hw)) as (sel & r & Esel & Ecs & Er & Hr).
  exists (mkHnswNeighborArray false r). split; [|by eapply selected_layer].
  unfold connect_layer. cbn [negb]. cbv zeta. rewrite (M_bind_run _ _ s _ s eq_refl).
  assert (neighbors_of el lc = Ok HnswInitNeighborArray) as Hn.
  { unfold neighbors_of. rewrite Hns. destruct (Z.ltb_spec lc 0); [lia|]. by rewrite Ha. }
  rewrite (M_bind_run _ _ s HnswInitNeighborArray s).
  2: { unfold HnswGetNeighbors. rewrite (M_bind_run _ _ s el s) by (unfold load_element; by rewrite Hel).
       unfold lift_res. by rewrite Hn. }
  rewrite (M_bind_run _ _ s s s) by done.
  rewrite (M_bind_run _ _ s sel s). 2: { unfold lift_res. cbn [na_closerSet HnswInitNeighborArray]. by rewrite Esel. }
  rewrite (M_bind_run _ _ _ _ _ (modify_neighbors_run s el ns lc _ _ Hel Hns ltac:(lia) Ha)).
  rewrite (M_bind_run _ _ _ r (put s (with_layers (<[Z.to_nat lc := mkHnswNeighborArray (s_closerSet sel) []]> ns) el))).
  2: { unfold lift_res. by rewrite Er. }
  pose proof (lookup_lt_Some _ _ _ Ha) as Hlt.
  unfold AddConnections. erewrite modify_neighbors_run; [|simpl; apply lookup_insert_eq|reflexivity|lia|by apply list_lookup_insert_eq].
  rewrite put_put. simpl. rewrite Ecs. unfold with_layers, el_set_neighbors. simpl. rewrite (list_insert_insert_eq ns). reflexivity.
Qed.

(** Layers up to [top] have their neighbors, the others are as in [ns]. *)
Definition layers_selected (top : Z) (ns ns' : list HnswNeighborArray) : Prop :=
  length ns' = length ns /\
  forall i, if decide (Z.of_nat i <= top)
            then exists a, ns' !! i = Some a /\ layer_selected (Z.of_nat i) a
            else ns' !! i = ns !! i.

Lemma connect_layers_memory : forall lc s ep el ns, Z.of_nat lc <= entryLevel -> 0 <= m ->
  agree_off element M0 (mem s) -> mem s !! element = Some el -> el_neighbors el = Some ns ->
  (forall i, (i <= lc)%nat -> ns !! i = Some HnswInitNeighborArray) -> entries_ok (Z.of_nat lc) ep ->
  exists ns', connect_layers garbage fuel base element true support m q NULL efConstruction lc ep s =
      Ok (tt, put s (with_layers ns' el)) /\ layers_selected (Z.of_nat lc) ns ns'.
Proof using Hok.
  induction lc as [|lc IH]; intros s ep el ns Hl Hm Hoff Hel Hns Hfresh Hep.
  - destruct (search_layer_memory s 0 efConstruction ep ltac:(lia) Hoff Hep) as (w & V & E & Hw & Hres).
    destruct (connect_layer_memory s 0 _ w V el ns ltac:(lia) Hm Hoff Hel Hns (Hfresh 0%nat ltac:(lia)) Hw Hres)
      as (a & E2 & Ha). exists (<[0%nat := a]> ns). cbn [connect_layers]. change (Z.of_nat 0) with 0.
    rewrite (M_bind_run _ _ _ _ _ E), (M_bind_run _ _ _ _ _ E2). split; [done|].
    pose proof (lookup_lt_Some _ _ _ (Hfresh 0%nat ltac:(lia))) as Hlt. split; [by rewrite length_insert|].
    intros i. destruct (decide _) as [Hi|Hi].
    + assert (i = 0%nat) as -> by lia. exists a. split; [by apply list_lookup_insert_eq|done].
    + rewrite list_lookup_insert_ne by lia. done.
  - destruct (search_layer_memory s (Z.of_nat (S lc)) efConstruction ep ltac:(lia) Hoff Hep) as (w & V & E & Hw & Hres).
    assert (ns !! Z.to_nat (Z.of_nat (S lc)) = Some HnswInitNeighborArray) as Hlc by (rewrite Nat2Z.id; by apply Hfresh).
    destruct (connect_layer_memory s (Z.of_nat (S lc)) _ w V el ns ltac:(lia) Hm Hoff Hel Hns Hlc Hw Hres)
      as (a & E2 & Ha). rewrite Nat2Z.id in E2. set (ns1 := <[S lc := a]> ns) in *.
    destruct (IH (put s (with_layers ns1 el)) w (with_layers ns1 el) ns1) as (ns' & E3 & Hlen & Hsel).
    + lia.
    + done.
    + by apply agree_put.
    + simpl. apply lookup_insert_eq.
    + done.
    + intros i Hi. unfold ns1. rewrite list_lookup_insert_ne by lia. apply Hfresh. lia.
    + apply entries_ok_below; [lia|]. by replace (Z.of_nat lc + 1) with (Z.of_nat (S lc)) by lia.
    + exists ns'. cbn [connect_layers]. rewrite (M_bind_run _ _ _ _ _ E), (M_bind_run _ _ _ _ _ E2), E3.
      rewrite put_put. split; [done|]. split; [rewrite Hlen; unfold ns1; by rewrite length_insert|].
      intros i. specialize (Hsel i). pose proof (lookup_lt_Some _ _ _ (Hfresh (S lc) ltac:(lia))) as Hlt.
      destruct (decide (i = S lc)) as [->|Hne].
      * rewrite decide_True by lia. rewrite decide_False in Hsel by lia. exists a. split; [|done].
        rewrite Hsel. unfold ns1. by apply list_lookup_insert_eq.
      * destruct (decide (Z.of_nat i <= Z.of_nat lc)).
        -- rewrite decide_True by lia. done.
        -- rewrite decide_False by lia. rewrite Hsel. unfold ns1. rewrite list_lookup_insert_ne by lia. done.
Qed.

(** With the hash of its own pointer, as [mem_layer_ok] asks for. *)
Definition hashed (el : HnswElementData) : HnswElementData := el_set_hash (key_hash base (HnswPtrStore base element)) el.

Lemma PrecomputeHash_run s el : mem s !! element = Some el ->
  PrecomputeHash base element s = Ok (tt, put s (hashed el)).
Proof using Type.
  intros Hel. unfold PrecomputeHash, modify_element.
  rewrite (M_bind_run _ _ s el s) by (unfold load_element; by rewrite Hel). unfold store_element. by rewrite Hel.
Qed.

Lemma entry_candidate_run s en : agree_off element M0 (mem s) ->
  HnswPtrAccess base (HnswPtrStore base entryPoint) = entryPoint -> HnswPtrStore base entryPoint ∈ U entryLevel ->
  0 <= entryLevel -> mem s !! entryPoint = Some en ->
  exists d, HnswEntryCandidate true base entryPoint q support true s = Ok (HnswInitSearchCandidate base entryPoint d, s) /\
    entries_ok entryLevel [HnswInitSearchCandidate base entryPoint d].
Proof using Hok.
  intros Hoff Hacc HU H0' Hen. set (k := HnswPtrStore base entryPoint) in *.
  destruct (ml_element _ _ _ _ _ _ _ (go_layer Hok entryLevel ltac:(lia)) k HU) as (en' & a & d & E1 & _ & _ & _ & _ & E2 & _).
  pose proof (go_new Hok entryLevel k ltac:(lia) HU) as Hnew. rewrite Hacc in E1, Hnew.
  rewrite <- (Hoff _ Hnew), Hen in E1. injection E1 as ->.
  exists d. split.
  - unfold HnswEntryCandidate, GetElementDistance, HnswGetValue, load_element, lift_res, mbind, M_bind, mret, M_ret.
    by rewrite Hen, E2.
  - split_and!; [done|apply NoDup_singleton|]. constructor; [|constructor]. split; [done|]. simpl.
    unfold mem_distance. fold k. by rewrite Hacc, <- (Hoff _ Hnew), Hen, E2.
Qed.

Lemma find_neighbors_memory_run s el ns en :
  mem s = M0 -> mem s !! element = Some el -> 0 <= el_level el -> q = mkHnswQuery (el_value el) ->
  el_neighbors el = Some ns ->
  (forall i, Z.of_nat i <= el_level el -> ns !! i = Some HnswInitNeighborArray) -> 0 <= m ->
  mem s !! entryPoint = Some en -> el_level en = entryLevel -> 0 <= entryLevel -> entryPoint <> NULL ->
  HnswPtrAccess base (HnswPtrStore base entryPoint) = entryPoint -> HnswPtrStore base entryPoint ∈ U entryLevel ->
  exists ns',
    HnswFindElementNeighbors garbage fuel base element true support m entryPoint efConstruction false s =
      Ok (tt, put s (with_layers ns' (hashed el))) /\
    layers_selected (Z.min (el_level el) entryLevel) ns ns'.
Proof using Hok.
  intros HM Hel Hlev Hq Hns Hfresh Hm Hen Henl Hen0 Hnn Hacc HU.
  assert (element <> entryPoint) as Hne.
  { intros Heq. apply (go_new Hok entryLevel (HnswPtrStore base entryPoint)); [lia|done|congruence]. }
  unfold HnswFindElementNeighbors.
  rewrite (M_bind_run _ _ s el s) by (unfold load_element; by rewrite Hel). cbv beta zeta.
  rewrite (M_bind_run _ _ _ _ _ (PrecomputeHash_run s el Hel)).
  destruct (N.eqb_spec entryPoint NULL) as [|_]; [done|].
  set (el1 := hashed el). set (s1 := put s el1).
  assert (agree_off element M0 (mem s1)) as Hoff by (apply agree_put; intros p _; by rewrite HM).
  assert (mem s1 !! entryPoint = Some en) as Hen1 by (rewrite Hoff by done; by rewrite <- HM).
  destruct (entry_candidate_run s1 en Hoff Hacc HU Hen0 Hen1) as (d & Ed & Hep).
  rewrite <- Hq. rewrite (M_bind_run _ _ _ _ _ Ed).
  rewrite (M_bind_run _ _ s1 en s1) by (unfold load_element; by rewrite Hen1). cbv beta zeta. rewrite Henl.
  destruct (descend_memory s1 (Z.to_nat (entryLevel - el_level el)) entryLevel _ ltac:(lia) ltac:(lia) Hoff Hep)
    as (w & Ew & Hw).
  rewrite (M_bind_run _ _ _ _ _ Ew).
  assert ((if entryLevel <? el_level el then entryLevel else el_level el) = Z.min (el_level el) entryLevel) as ->
    by (case_cmp; lia).
  destruct (Z.ltb_spec (Z.min (el_level el) entryLevel) 0); [lia|].
  destruct (connect_layers_memory (Z.to_nat (Z.min (el_level el) entryLevel)) s1 w el1 ns) as (ns' & E & Hsel).
  - lia.
  - done.
  - done.
  - simpl. apply lookup_insert_eq.
  - done.
  - intros i Hi. apply Hfresh. lia.
  - replace (Z.of_nat (Z.to_nat (Z.min (el_level el) entryLevel))) with (entryLevel - Z.of_nat (Z.to_nat (entryLevel - el_level el))) by lia. done.
  - exists ns'. rewrite Z2Nat.id in Hsel by lia. split; [|done]. unfold s1 in E. rewrite put_put in E. exact E.
Qed.

(** Without an entry point there are no neighbors to find. *)
Lemma find_no_neighbors_run s el : mem s !! element = Some el ->
  HnswFindElementNeighbors garbage fuel base element true support m NULL efConstruction false s =
    Ok (tt, put s (hashed el)).
Proof using Type.
  intros Hel. unfold HnswFindElementNeighbors. rewrite (M_bind_run _ _ s el s) by (unfold load_element; by rewrite Hel). cbv beta zeta.
  by rewrite (M_bind_run _ _ _ _ _ (PrecomputeHash_run s el Hel)).
Qed.

(** C20: the in-memory insertion finds the neighbors of a new element in every
    layer it shares with the entry point: the call succeeds and changes only the
    hash of the element, which becomes that of its pointer, and its neighbor arrays.  In each of these layers they
    are the selection (algorithm 4) among the results of a search of the layer
    (a local optimum of the graph), at most [HnswGetLayerM] distinct elements of
    the layer; the arrays of higher layers are untouched. *)
Theorem HnswFindElementNeighbors_memory s el ns en :
  mem s = M0 -> mem s !! element = Some el -> 0 <= el_level el -> q = mkHnswQuery (el_value el) ->
  el_neighbors el = Some ns ->
  (forall i, Z.of_nat i <= el_level el -> ns !! i = Some HnswInitNeighborArray) -> 0 <= m ->
  mem s !! entryPoint = Some en -> el_level en = entryLevel -> 0 <= entryLevel -> entryPoint <> NULL ->
  HnswPtrAccess base (HnswPtrStore base entryPoint) = entryPoint -> HnswPtrStore base entryPoint ∈ U entryLevel ->
  exists ns',
    HnswFindElementNeighbors garbage fuel base element true support m entryPoint efConstruction false s =
      Ok (tt, put s (with_layers ns' (hashed el))) /\
    layers_selected (Z.min (el_level el) entryLevel) ns ns'.
Proof using Hok. exact (find_neighbors_memory_run s el ns en). Qed.
End Memory.

(** ** A third element joins the graph in memory *)

Definition third_element : HnswElementData :=
  HnswInitNeighbors (el_set_value (Some value1) (mkHnswElement NULL [ItemPointerSet 7 3] 0 0 1 0 None 0 0 0 0 None)).
Definition third_state : Backend :=
  mkBackend {[ 1%N := mem_sample 1%N 2%N value1; 2%N := mem_sample 2%N 1%N value2; 3%N := third_element ]} sample_relation None.
Definition third_D (p q : addr) : float :=
  match candidate_distance NULL (mem third_state) sample_support (mkHnswCandidate p dzero false) (mkHnswCandidate q dzero false) with
  | Ok d => d
  | Err _ => dzero
  end.
Definition third_U (lc : Z) : gset addr := {[ 1%N; 2%N ]}.

Lemma third_graph_ok :
  graph_ok 2 NULL 3%N sample_support 2 third_D sample_query (mem third_state) 0 third_U.
Proof.
  split.
  - intros lc Hlc. assert (lc = 0) as -> by lia. unfold third_U.
    split; intros k; [| |intros el]; intros [Hk | Hk]%elem_of_union; apply elem_of_singleton in Hk as ->; try done;
      try (by intros [= <-]).
    all: eexists _, _, _; split; [reflexivity|]; split; [done|]; split; [reflexivity|]; split; [by vm_compute|];
      (split; [|split; [vm_compute; reflexivity|done]]);
      intros hc Hhc; apply list_elem_of_singleton in Hhc as ->; set_solver.
  - intros lc Hlc. lia.
  - intros lc k _ [Hk | Hk]%elem_of_union; apply elem_of_singleton in Hk as ->; done.
  - intros lc _. by vm_compute.
  - intros [ea da ca] [eb db cb]. simpl.
    intros [Ha | Ha]%elem_of_union [Hb | Hb]%elem_of_union; apply elem_of_singleton in Ha as ->;
      apply elem_of_singleton in Hb as ->; by vm_compute.
Qed.

Lemma HnswFindElementNeighbors_memory_witness :
  exists ns',
    HnswFindElementNeighbors (H := sample_palloc) (H0 := pg_list_sort) false 2 NULL 3%N true sample_support 2 1%N 64 false third_state =
      Ok (tt, put 3%N third_state (with_layers ns' (hashed NULL 3%N third_element))) /\
    layers_selected false NULL sample_support 2 64 third_D sample_query (mem third_state) third_U 0 [HnswInitNeighborArray] ns'.
Proof.
  apply (HnswFindElementNeighbors_memory (H := sample_palloc) (H0 := pg_list_sort) false 2 NULL 3%N 1%N sample_support 2 64
    third_D sample_query (mem third_state) 0 third_U third_graph_ok third_state third_element [HnswInitNeighborArray]
    (mem_sample 1%N 2%N value1)); try done.
  - intros i Hi. assert (i = 0%nat) as -> by (simpl in Hi; lia). done.
Defined.
