(* ===== verification/HnswInsert.v ===== *)
(** * Insertion into the index

    src/pgvec/src/backend/access/hnsw/hnswinsert.c: finding pages for the two
    tuples of an element, adding them, connecting the neighbors, duplicates and
    the entry point.

    Locks and memory contexts are not part of this model: an operation runs
    alone, and memory is not freed.  [building] selects direct changes of the
    buffers instead of records of the write-ahead log. *)

From Stdlib Require Import SpecFloat.
From S2P Require Import Prelude CFloat VectorType ItemPtr HnswData BufPage Backend HnswUtils.
From S2P Require Import SearchLayer QSort SelectNeighbors FindNeighbors.

Definition GetInsertPage : M Backend BlockNumber :=
  metap ← read_meta HNSW_METAPAGE_BLKNO ; mret (mp_insertPage metap).

(** ** Free offsets *)

Record FreeOffset := mkFreeOffset {
  fo_nbuf : BlockNumber;
  fo_offno : OffsetNumber;
  fo_neighborOffno : OffsetNumber;
  fo_version : Z
}.

(** Whether the tuples of a deleted element leave enough space: they are
    overwritten one after the other. *)
Definition free_space_fits (page npage : Page) (eitemid nitemid : ItemIdData) (same : bool) (etupSize ntupSize : Z) : bool :=
  let pageFree := ItemIdGetLength eitemid + PageGetExactFreeSpace page in
  let npageFree :=
    if negb same then ItemIdGetLength nitemid + PageGetExactFreeSpace npage
    else if etupSize <=? pageFree then ItemIdGetLength nitemid + (pageFree - etupSize)
    else ItemIdGetLength nitemid in
  (etupSize <=? pageFree) && (ntupSize <=? npageFree).

(** [n] offsets from [offno]; the second result is [newInsertPage]. *)
Fixpoint free_offset_loop (n : nat) (buf : BlockNumber) (page : Page) (etupSize ntupSize : Z) (offno : OffsetNumber)
    (newInsertPage : BlockNumber) : M Backend (option FreeOffset * BlockNumber) :=
  match n with
  | O => mret (None, newInsertPage)
  | S n' =>
      eitemid ← lift_res (PageGetItemId page offno) ;
      tup ← lift_res (PageGetItem eitemid) ;
      match tup with
      | NeighborTuple _ => free_offset_loop n' buf page etupSize ntupSize (OffsetNumberNext offno) newInsertPage
      | ElementTuple etup =>
          if et_deleted etup =? 0 then
            free_offset_loop n' buf page etupSize ntupSize (OffsetNumberNext offno) newInsertPage
          else
            let elementPage := buf in
            let neighborPage := ItemPointerGetBlockNumber (et_neighbortid etup) in
            let neighborOffno := ItemPointerGetOffsetNumber (et_neighbortid etup) in
            let newInsertPage := if negb (BlockNumberIsValid newInsertPage) then elementPage else newInsertPage in
            '(nbuf, npage) ←
              (if neighborPage =? elementPage then mret (buf, page)
               else nbuf ← ReadBuffer neighborPage ; npage ← read_page MAIN_FORKNUM (BufferPage nbuf) ; mret (nbuf, npage)) ;
            nitemid ← lift_res (PageGetItemId npage neighborOffno) ;
            if free_space_fits page npage eitemid nitemid (neighborPage =? elementPage) etupSize ntupSize
            then mret (Some (mkFreeOffset nbuf offno neighborOffno (et_version etup)), newInsertPage)
            else free_offset_loop n' buf page etupSize ntupSize (OffsetNumberNext offno) newInsertPage
      end
  end.

Definition HnswFreeOffset (buf : BlockNumber) (page : Page) (etupSize ntupSize : Z) (newInsertPage : BlockNumber)
    : M Backend (option FreeOffset * BlockNumber) :=
  free_offset_loop (Z.to_nat (PageGetMaxOffsetNumber page)) buf page etupSize ntupSize FirstOffsetNumber newInsertPage.

(** ** New pages *)

Definition set_nextblkno (b : BlockNumber) (page : Page) : Page :=
  set_opaque (mkHnswPageOpaque b (op_unused (pd_opaque page)) (op_page_id (pd_opaque page))) page.
Definition nextblkno (page : Page) : BlockNumber := op_nextblkno (pd_opaque page).

Definition HnswInsertAppendPage (page : PageRef) (building : bool) : M Backend (BlockNumber * PageRef) :=
  nbuf ← HnswNewBuffer MAIN_FORKNUM ;
  npage ← (if building then mret (BufferPage nbuf) else GenericXLogRegisterBuffer MAIN_FORKNUM nbuf) ;
  write_page MAIN_FORKNUM npage HnswInitPage ;;
  modify_page MAIN_FORKNUM page (set_nextblkno nbuf) ;;
  mret (nbuf, npage).

(** ** The place of an element *)

Record Place := mkPlace {
  pl_buf : BlockNumber;
  pl_page : PageRef;
  pl_nbuf : BlockNumber;
  pl_npage : PageRef;
  pl_free : option FreeOffset;
  pl_newInsertPage : BlockNumber
}.

Record TupleSizes := mkTupleSizes {
  etupSize : Z;
  ntupSize : Z;
  combinedSize : Z;
  maxSize : Z;
  minCombinedSize : Z
}.

Definition tuple_sizes (e : HnswElementData) (m : Z) : res TupleSizes :=
  v ← deref_value (el_value e) ;
  let etupSize := HNSW_ELEMENT_TUPLE_SIZE (VARSIZE_ANY v) in
  let ntupSize := HNSW_NEIGHBOR_TUPLE_SIZE (el_level e) m in
  Ok (mkTupleSizes etupSize ntupSize (etupSize + ntupSize + sizeof_ItemIdData) HNSW_MAX_SIZE
        (etupSize + HNSW_NEIGHBOR_TUPLE_SIZE 0 m + sizeof_ItemIdData)).

Section Insert.
Context `{Palloc} `{ListSort} `{Libm}.
(** The fields of a fresh candidate, which are not initialised. *)
Context (garbage : HnswCandidate).

(** The last page has no room: a new page, and another one for the neighbors if
    they do not fit with the element. *)
Definition append_place (building : bool) (sz : TupleSizes) (page : PageRef) (newInsertPage : BlockNumber)
    : M Backend Place :=
  '(newbuf, newpage) ← HnswInsertAppendPage page building ;
  commit_page MAIN_FORKNUM building ;;
  page ← open_page MAIN_FORKNUM building newbuf ;
  p ← read_page MAIN_FORKNUM page ;
  if PageGetFreeSpace p <? combinedSize sz then
    '(nbuf, npage) ← HnswInsertAppendPage page building ;
    mret (mkPlace newbuf page nbuf npage None newInsertPage)
  else mret (mkPlace newbuf page newbuf page None newInsertPage).

(** Find a page (or two if needed) to insert the tuples; [fuel] bounds the
    number of pages looked at. *)
Fixpoint find_place (fuel : nat) (building : bool) (sz : TupleSizes) (currentPage newInsertPage : BlockNumber)
    : M Backend Place :=
  match fuel with
  | O => throw OutOfFuel
  | S fuel =>
      buf ← ReadBuffer currentPage ;
      page ← open_page MAIN_FORKNUM building buf ;
      p ← read_page MAIN_FORKNUM page ;
      let newInsertPage :=
        if negb (BlockNumberIsValid newInsertPage) && (minCombinedSize sz <=? PageGetFreeSpace p)
        then currentPage else newInsertPage in
      if combinedSize sz <=? PageGetFreeSpace p then mret (mkPlace buf page buf page None newInsertPage)
      else
        '(free, newInsertPage) ← HnswFreeOffset buf p (etupSize sz) (ntupSize sz) newInsertPage ;
        match free with
        | Some f =>
            npage ← (if fo_nbuf f =? buf then mret page
                     else if building then mret (BufferPage (fo_nbuf f))
                     else GenericXLogRegisterBuffer MAIN_FORKNUM (fo_nbuf f)) ;
            mret (mkPlace buf page (fo_nbuf f) npage (Some f) newInsertPage)
        | None =>
            if (maxSize sz <? combinedSize sz) && (etupSize sz <=? PageGetFreeSpace p) &&
               negb (BlockNumberIsValid (nextblkno p)) then
              '(nbuf, npage) ← HnswInsertAppendPage page building ;
              mret (mkPlace buf page nbuf npage None newInsertPage)
            else if BlockNumberIsValid (nextblkno p) then
              abort_page building ;;
              find_place fuel building sz (nextblkno p) newInsertPage
            else append_place building sz page newInsertPage
        end
  end.

Definition et_set_version (version : Z) (etup : HnswElementTupleData) : HnswElementTupleData :=
  mkHnswElementTuple (et_level etup) (et_deleted etup) version (et_heaptids etup) (et_neighbortid etup)
    (et_unused etup) (et_data etup).
Definition et_set_neighbortid (tid : ItemPointerData) (etup : HnswElementTupleData) : HnswElementTupleData :=
  mkHnswElementTuple (et_level etup) (et_deleted etup) (et_version etup) (et_heaptids etup) tid
    (et_unused etup) (et_data etup).
Definition nt_set_version (version : Z) (ntup : HnswNeighborTupleData) : HnswNeighborTupleData :=
  mkHnswNeighborTuple version (nt_count ntup) (nt_indextids ntup).

(** Overwrite or add one tuple, at the offset expected. *)
Definition put_tuple (page : PageRef) (free : bool) (offno : OffsetNumber) (tup : HnswTuple) (size : Z) : M Backend unit :=
  p ← read_page MAIN_FORKNUM page ;
  if free then
    '(ok, p) ← lift_res (PageIndexTupleOverwrite p offno tup size) ;
    lift_res (raise_if (negb ok) ERR_failed_to_add_index_item) ;;
    write_page MAIN_FORKNUM page p
  else
    '(o, p) ← lift_res (PageAddItem p tup size InvalidOffsetNumber false false) ;
    lift_res (raise_if (negb (o =? offno)) ERR_failed_to_add_index_item) ;;
    write_page MAIN_FORKNUM page p.

(** The offsets the tuples will have. *)
Definition place_offsets (pl : Place) (p : Page) : OffsetNumber * OffsetNumber :=
  match pl_free pl with
  | Some f => (fo_offno f, fo_neighborOffno f)
  | None =>
      let offno := OffsetNumberNext (PageGetMaxOffsetNumber p) in
      (offno, if pl_nbuf pl =? pl_buf pl then OffsetNumberNext offno else FirstOffsetNumber)
  end.

(** The new insert page, when it is not the given one. *)
Definition AddElementOnDisk (fuel : nat) (e : addr) (m : Z) (insertPage : BlockNumber) (building : bool)
    : M Backend (option BlockNumber) :=
  el ← load_element e ;
  sz ← lift_res (tuple_sizes el m) ;
  etup ← lift_res (HnswSetElementTuple el) ;
  ntup ← HnswSetNeighborTuple NULL e m ;
  pl ← find_place fuel building sz insertPage InvalidBlockNumber ;
  let '(etup, ntup) :=
    match pl_free pl with
    | Some f => (et_set_version (fo_version f) etup, nt_set_version (fo_version f) ntup)
    | None => (etup, ntup)
    end in
  let newInsertPage :=
    if negb (BlockNumberIsValid (pl_newInsertPage pl)) then pl_nbuf pl else pl_newInsertPage pl in
  p ← read_page MAIN_FORKNUM (pl_page pl) ;
  let '(offno, neighborOffno) := place_offsets pl p in
  modify_element e (fun e => el_set_neighbortid (pl_nbuf pl) neighborOffno (el_set_tid (pl_buf pl) offno e)) ;;
  let etup := et_set_neighbortid (ItemPointerSet (pl_nbuf pl) neighborOffno) etup in
  let free := bool_decide (is_Some (pl_free pl)) in
  put_tuple (pl_page pl) free offno (ElementTuple etup) (etupSize sz) ;;
  put_tuple (pl_npage pl) free neighborOffno (NeighborTuple ntup) (ntupSize sz) ;;
  commit_page MAIN_FORKNUM building ;;
  mret (if BlockNumberIsValid newInsertPage && negb (newInsertPage =? insertPage) then Some newInsertPage else None).

(** ** Updates of neighbors *)

Definition with_distance (distance : float) (hc : HnswCandidate) : HnswCandidate :=
  mkHnswCandidate (hc_element hc) distance (hc_closer hc).

Definition load_neighbor (indextid : ItemPointerData) (neighbors : HnswNeighborArray) : M Backend HnswNeighborArray :=
  e ← HnswInitElementFromBlock (ItemPointerGetBlockNumber indextid) (ItemPointerGetOffsetNumber indextid) ;
  mret (mkHnswNeighborArray (na_closerSet neighbors)
          (na_items neighbors ++ [mkHnswCandidate (HnswPtrStore NULL e) (hc_distance garbage) (hc_closer garbage)])).

(** [indextids] has room for [HNSW_MAX_M * 2] TIDs. *)
Definition HnswLoadNeighbors (element : addr) (m lm lc : Z) : M Backend HnswNeighborArray :=
  el ← load_element element ;
  lift_res (raise_if (HNSW_MAX_M * 2 <? lm) UndefinedBehaviour) ;;
  indextids ← HnswLoadNeighborTids el m lm lc ;
  match indextids with
  | None => mret HnswInitNeighborArray
  | Some l => mfor (valid_prefix l) HnswInitNeighborArray load_neighbor
  end.

(** The items from number [i] with their distances, and [idx]. *)
Fixpoint LoadElementsForInsert (items : list HnswCandidate) (q : HnswQuery) (i idx : Z) (support : HnswSupport)
    : M Backend (list HnswCandidate * Z) :=
  match items with
  | [] => mret ([], idx)
  | hc :: rest =>
      let element := HnswPtrAccess NULL (hc_element hc) in
      d ← HnswLoadElement element (Some q) support true None ;
      distance ← lift_res (of_option UndefinedBehaviour d) ;
      let hc := with_distance (float_of_double distance) hc in
      el ← load_element element ;
      if el_heaptidsLength el =? 0 then mret (hc :: rest, i)
      else
        '(rest, idx) ← LoadElementsForInsert rest q (i + 1) idx support ;
        mret (hc :: rest, idx)
  end.

(** -2 for a free slot, -1 when the new element is not selected, else the slot
    of the neighbor to replace. *)
Definition GetUpdateIndex (element newElement : addr) (distance : float) (m lm lc : Z) (support : HnswSupport) : M Backend Z :=
  neighbors ← HnswLoadNeighbors element m lm lc ;
  if na_length neighbors <? lm then mret (-2)
  else
    value ← HnswGetValue NULL element ;
    '(items, idx) ← LoadElementsForInsert (na_items neighbors) (mkHnswQuery value) 0 (-1) support ;
    if idx =? -1 then
      s ← get_state ;
      '(_, idx) ← lift_res (HnswUpdateConnection NULL (mem s) support (hc_closer garbage)
                              (mkHnswNeighborArray (na_closerSet neighbors) items) newElement distance lm (Some idx)) ;
      mret (default (-1) idx)
    else mret idx.

(** The TID at an index of a neighbor tuple; past its end is not defined. *)
Definition indextid_at (ntup : HnswNeighborTupleData) (i : Z) : res ItemPointerData :=
  if i <? 0 then Err UndefinedBehaviour
  else of_option UndefinedBehaviour (nt_indextids ntup !! Z.to_nat i).

(** [n] TIDs from index [i]. *)
Fixpoint ConnectionExists (e : HnswElementData) (ntup : HnswNeighborTupleData) (i : Z) (n : nat) : res bool :=
  match n with
  | O => Ok false
  | S n' =>
      indextid ← indextid_at ntup i ;
      if negb (ItemPointerIsValid indextid) then Ok false
      else if (ItemPointerGetBlockNumber indextid =? el_blkno e) && (ItemPointerGetOffsetNumber indextid =? el_offno e)
      then Ok true
      else ConnectionExists e ntup (i + 1) n'
  end.

(** The first free slot among [n] from index [i]; -2 if there is none. *)
Fixpoint find_free_slot (ntup : HnswNeighborTupleData) (i : Z) (n : nat) : res Z :=
  match n with
  | O => Ok (-2)
  | S n' =>
      indextid ← indextid_at ntup i ;
      if negb (ItemPointerIsValid indextid) then Ok i else find_free_slot ntup (i + 1) n'
  end.

(** The index in the tuple to write to, negative for none. *)
Definition update_slot (newElement : HnswElementData) (ntup : HnswNeighborTupleData) (idx startIdx lm : Z)
    (checkExisting : bool) : res Z :=
  exists_ ← (if checkExisting then ConnectionExists newElement ntup startIdx (Z.to_nat lm) else Ok false) ;
  if (exists_ : bool) then Ok (-1)
  else if idx =? -2 then find_free_slot ntup startIdx (Z.to_nat lm)
  else Ok (idx + startIdx).

Definition nt_set_indextid (i : Z) (tid : ItemPointerData) (ntup : HnswNeighborTupleData) : HnswNeighborTupleData :=
  mkHnswNeighborTuple (nt_version ntup) (nt_count ntup) (<[Z.to_nat i := tid]> (nt_indextids ntup)).

Definition UpdateNeighborOnDisk (element newElement : addr) (idx m lm lc : Z) (checkExisting building : bool)
    : M Backend unit :=
  el ← load_element element ;
  new ← load_element newElement ;
  buf ← ReadBuffer (el_neighborPage el) ;
  page ← open_page MAIN_FORKNUM building buf ;
  p ← read_page MAIN_FORKNUM page ;
  tup ← get_tuple p (el_neighborOffno el) ;
  ntup ← lift_res (as_neighbor tup) ;
  let startIdx := (el_level el - lc) * m in
  idx ← lift_res (update_slot new ntup idx startIdx lm checkExisting) ;
  if (0 <=? idx) && (idx <? nt_count ntup) then
    _ ← lift_res (indextid_at ntup idx) ;
    write_page MAIN_FORKNUM page
      (PageSetItem p (el_neighborOffno el)
         (NeighborTuple (nt_set_indextid idx (ItemPointerSet (el_blkno new) (el_offno new)) ntup))) ;;
    commit_page MAIN_FORKNUM building
  else abort_page building.

Definition update_neighbor (support : HnswSupport) (e : addr) (m lm lc : Z) (checkExisting building : bool)
    (hc : HnswCandidate) (_ : unit) : M Backend unit :=
  let neighborElement := HnswPtrAccess NULL (hc_element hc) in
  idx ← GetUpdateIndex neighborElement e (hc_distance hc) m lm lc support ;
  if idx =? -1 then mret tt
  else UpdateNeighborOnDisk neighborElement e idx m lm lc checkExisting building.

(** Layers [lc], ..., 0. *)
Fixpoint update_layers (support : HnswSupport) (e : addr) (m : Z) (checkExisting building : bool) (lc : nat) : M Backend unit :=
  let lm := HnswGetLayerM m (Z.of_nat lc) in
  neighbors ← HnswGetNeighbors NULL e (Z.of_nat lc) ;
  mfor (na_items neighbors) tt (update_neighbor support e m lm (Z.of_nat lc) checkExisting building) ;;
  match lc with O => mret tt | S lc' => update_layers support e m checkExisting building lc' end.

Definition HnswUpdateNeighborsOnDisk (support : HnswSupport) (e : addr) (m : Z) (checkExisting building : bool)
    : M Backend unit :=
  el ← load_element e ;
  update_layers support e m checkExisting building (Z.to_nat (el_level el)).

(** ** Duplicates *)

(** The number of valid heap TIDs before the first invalid one. *)
Definition heaptids_used (etup : HnswElementTupleData) : nat := length (valid_prefix (et_heaptids etup)).

Definition et_set_heaptid (i : nat) (tid : ItemPointerData) (etup : HnswElementTupleData) : HnswElementTupleData :=
  mkHnswElementTuple (et_level etup) (et_deleted etup) (et_version etup) (<[i := tid]> (et_heaptids etup))
    (et_neighbortid etup) (et_unused etup) (et_data etup).

Definition AddDuplicateOnDisk (element dup : addr) (building : bool) : M Backend bool :=
  el ← load_element element ;
  dupe ← load_element dup ;
  buf ← ReadBuffer (el_blkno dupe) ;
  page ← open_page MAIN_FORKNUM building buf ;
  p ← read_page MAIN_FORKNUM page ;
  tup ← get_tuple p (el_offno dupe) ;
  etup ← lift_res (as_element tup) ;
  let i := heaptids_used etup in
  if (Z.of_nat i =? 0) || (Z.of_nat i =? HNSW_HEAPTIDS) then
    abort_page building ;; mret false
  else
    tid ← lift_res (of_option UndefinedBehaviour (el_heaptids el !! 0%nat)) ;
    write_page MAIN_FORKNUM page
      (PageSetItem p (el_offno dupe) (ElementTuple (et_set_heaptid i tid etup))) ;;
    commit_page MAIN_FORKNUM building ;;
    mret true.

(** The neighbors are ordered by distance: the first different value ends the
    search. *)
Fixpoint find_duplicate (items : list HnswCandidate) (element : addr) (value : Vector) (building : bool) : M Backend bool :=
  match items with
  | [] => mret false
  | neighbor :: rest =>
      let neighborElement := HnswPtrAccess NULL (hc_element neighbor) in
      v ← HnswGetValue NULL neighborElement ;
      neighborValue ← lift_res (deref_value v) ;
      if negb (datumIsEqual value neighborValue) then mret false
      else
        added ← AddDuplicateOnDisk element neighborElement building ;
        if (added : bool) then mret true else find_duplicate rest element value building
  end.

(** The value is only read when there is a neighbor to compare it with. *)
Definition FindDuplicateOnDisk (element : addr) (building : bool) : M Backend bool :=
  neighbors ← HnswGetNeighbors NULL element 0 ;
  v ← HnswGetValue NULL element ;
  match na_items neighbors with
  | [] => mret false
  | items => value ← lift_res (deref_value v) ; find_duplicate items element value building
  end.

(** ** Insertion of a tuple *)

(** The entry point is to be replaced. *)
Definition better_entry (element entryPoint : addr) : M Backend bool :=
  el ← load_element element ;
  if (entryPoint =? NULL)%N then mret true
  else en ← load_element entryPoint ; mret (el_level en <? el_level el).

Definition UpdateGraphOnDisk (fuel : nat) (support : HnswSupport) (element : addr) (m : Z) (entryPoint : addr) (building : bool)
    : M Backend unit :=
  dup ← FindDuplicateOnDisk element building ;
  if (dup : bool) then mret tt
  else
    insertPage ← GetInsertPage ;
    updated ← AddElementOnDisk fuel element m insertPage building ;
    match updated with
    | Some newInsertPage => HnswUpdateMetaPage 0 NULL newInsertPage MAIN_FORKNUM building
    | None => mret tt
    end ;;
    HnswUpdateNeighborsOnDisk support element m false building ;;
    better ← better_entry element entryPoint ;
    if (better : bool)
    then HnswUpdateMetaPage HNSW_UPDATE_ENTRY_GREATER element InvalidBlockNumber MAIN_FORKNUM building
    else mret tt.

(** [random] is what [RandomDouble] returns. *)
Definition HnswInsertTupleOnDisk (fuel : nat) (support : HnswSupport) (value : Vector) (heaptid : ItemPointerData)
    (random : double) (building : bool) : M Backend bool :=
  s ← get_state ;
  let efConstruction := HnswGetEfConstruction (index s) in
  '(m, entryPoint) ← HnswGetMetaPageInfo ;
  element ← HnswInitElement heaptid (HnswGetMl m) random (HnswGetMaxLevel m) ;
  modify_element element (el_set_value (Some value)) ;;
  better ← better_entry element entryPoint ;
  entryPoint ← (if (better : bool) then HnswGetEntryPoint else mret entryPoint) ;
  HnswFindElementNeighbors (hc_closer garbage) fuel NULL element false support m entryPoint efConstruction false ;;
  UpdateGraphOnDisk fuel support element m entryPoint building ;;
  mret true.

Definition HnswInsertTuple (fuel : nat) (value : Vector) (heaptid : ItemPointerData) (random : double) : M Backend unit :=
  s ← get_state ;
  let typeInfo := HnswGetTypeInfo (index s) in
  let support := HnswInitSupport (index s) in
  v ← lift_res (HnswFormIndexValue value typeInfo support) ;
  match v with
  | None => mret tt
  | Some value => HnswInsertTupleOnDisk fuel support value heaptid random false ;; mret tt
  end.

(** A NULL value is [None]. *)
Definition hnswinsert (fuel : nat) (value : option Vector) (heap_tid : ItemPointerData) (random : double) : M Backend bool :=
  match value with
  | None => mret false
  | Some value => HnswInsertTuple fuel value heap_tid random ;; mret false
  end.
End Insert.
