(* ===== verification/InsertSpec.v ===== *)
(** * Insertion: what the updates of the pages do

    The updates of one tuple of HnswInsert.v: the neighbor tuple of an element
    that gets a new neighbor, the element tuple that gets a heap TID. *)

From S2P Require Import Prelude ItemPtr VectorType HnswData BufPage Backend HnswUtils.
From S2P Require Import LayerRefinement PageUpdate Tuples HnswInsert.

(** ** The slots of a layer *)

(** A neighbor is looked for up to the first free slot. *)
Definition has_connection (tid : ItemPointerData) (l : list ItemPointerData) : bool :=
  bool_decide (tid ∈ valid_prefix l).

(** Slots come in blocks: the first free one is the end of the valid ones. *)
Definition fill_slot (tid : ItemPointerData) (l : list ItemPointerData) : list ItemPointerData :=
  let n := length (valid_prefix l) in if decide (n < length l)%nat then <[n := tid]> l else l.

(** What an update does to the slots of the layer. *)
Definition update_slots (check : bool) (idx : Z) (tid : ItemPointerData) (l : list ItemPointerData) : list ItemPointerData :=
  if check && has_connection tid l then l
  else if idx =? -2 then fill_slot tid l
  else <[Z.to_nat idx := tid]> l.

(** The tuple with the slots from [start] on replaced. *)
Definition with_slots (start : Z) (l : list ItemPointerData) (ntup : HnswNeighborTupleData) : HnswNeighborTupleData :=
  mkHnswNeighborTuple (nt_version ntup) (nt_count ntup)
    (take (Z.to_nat start) (nt_indextids ntup) ++ l ++ drop (Z.to_nat start + length l) (nt_indextids ntup)).

Definition slots (start lm : Z) (ntup : HnswNeighborTupleData) : list ItemPointerData :=
  take (Z.to_nat lm) (drop (Z.to_nat start) (nt_indextids ntup)).

Section Slots.
Context (ntup : HnswNeighborTupleData).

Lemma indextid_at_ok i t : nt_indextids ntup !! i = Some t -> indextid_at ntup (Z.of_nat i) = Ok t.
Proof. intros H. unfold indextid_at. destruct (Z.ltb_spec (Z.of_nat i) 0); [lia|]. by rewrite Nat2Z.id, H. Qed.

Lemma slots_cons start n : (start + S n <= length (nt_indextids ntup))%nat ->
  exists t, nt_indextids ntup !! start = Some t /\
    take (S n) (drop start (nt_indextids ntup)) = t :: take n (drop (S start) (nt_indextids ntup)).
Proof.
  intros Hl. destruct (lookup_lt_is_Some_2 (nt_indextids ntup) start ltac:(lia)) as [t Ht].
  exists t. split; [done|]. by rewrite (drop_S _ t).
Qed.

Lemma find_free_slot_run start n : (start + n <= length (nt_indextids ntup))%nat ->
  let l := take n (drop start (nt_indextids ntup)) in let k := length (valid_prefix l) in
  find_free_slot ntup (Z.of_nat start) n = Ok (if decide (k < n)%nat then Z.of_nat (start + k) else -2).
Proof.
  cbn zeta. revert start. induction n as [|n IH]; intros start Hl; [by rewrite decide_False by lia|].
  destruct (slots_cons start n Hl) as (t & Ht & ->). cbn [find_free_slot valid_prefix].
  rewrite (indextid_at_ok _ _ Ht), bind_Ok. destruct (ItemPointerIsValid t); simpl.
  - replace (Z.of_nat start + 1) with (Z.of_nat (S start)) by lia. rewrite IH by lia.
    do 2 case_decide; f_equal; lia.
  - f_equal. lia.
Qed.

Lemma same_tid_iff t b o : ItemPointer_ok t -> BlockNumber_ok b ->
  (ItemPointerGetBlockNumber t =? b) && (ItemPointerGetOffsetNumber t =? o) = bool_decide (t = ItemPointerSet b o).
Proof.
  intros Ht Hb. destruct (ItemPointerGet_Set b o Hb) as [H1 H2]. apply eq_true_iff_eq.
  rewrite andb_true_iff, !Z.eqb_eq, bool_decide_eq_true. split; [|by intros ->].
  intros [E1 E2]. by rewrite <- (ItemPointerSet_Get t Ht), E1, E2.
Qed.

Lemma has_connection_cons tid t l : has_connection tid (t :: l) =
  ItemPointerIsValid t && (bool_decide (t = tid) || has_connection tid l).
Proof.
  unfold has_connection. rewrite valid_prefix_cons. destruct (ItemPointerIsValid t); simpl.
  - apply eq_true_iff_eq. rewrite orb_true_iff, !bool_decide_eq_true, elem_of_cons. naive_solver.
  - done.
Qed.

Lemma ConnectionExists_run e start n : (start + n <= length (nt_indextids ntup))%nat ->
  Forall ItemPointer_ok (nt_indextids ntup) -> BlockNumber_ok (el_blkno e) ->
  ConnectionExists e ntup (Z.of_nat start) n =
    Ok (has_connection (ItemPointerSet (el_blkno e) (el_offno e)) (take n (drop start (nt_indextids ntup)))).
Proof.
  intros Hl Hok Hb. revert start Hl. induction n as [|n IH]; intros start Hl; [done|].
  destruct (slots_cons start n Hl) as (t & Ht & ->). cbn [ConnectionExists].
  rewrite (indextid_at_ok _ _ Ht), bind_Ok, has_connection_cons.
  destruct (ItemPointerIsValid t); cbn [negb andb]; [|done].
  rewrite same_tid_iff; [|by eapply list.Forall_lookup_1|done]. destruct (bool_decide _); [done|].
  replace (Z.of_nat start + 1) with (Z.of_nat (S start)) by lia. by rewrite IH by lia.
Qed.
End Slots.

(** A store into one of the slots of the layer. *)
Lemma set_indextid_slots ntup start lm k tid : 0 <= start -> 0 <= lm ->
  start + lm <= Z.of_nat (length (nt_indextids ntup)) -> Z.of_nat k < lm ->
  nt_set_indextid (Z.of_nat k + start) tid ntup = with_slots start (<[k := tid]> (slots start lm ntup)) ntup.
Proof.
  intros Hs Hm Hl Hk. unfold nt_set_indextid, with_slots, slots. f_equal.
  set (l := nt_indextids ntup) in *. rewrite length_insert, length_take, length_drop.
  replace (min (Z.to_nat lm) (length l - Z.to_nat start)) with (Z.to_nat lm) by lia.
  apply list_eq. intros i. rewrite list_lookup_insert.
  replace (Z.to_nat (Z.of_nat k + start)) with (k + Z.to_nat start)%nat by lia.
  destruct (decide (i < Z.to_nat start)%nat) as [Hi|Hi].
  - rewrite lookup_app_l, lookup_take_lt by (rewrite ?length_take; lia). case_decide; [lia|done].
  - rewrite lookup_app_r by (rewrite length_take; lia). rewrite length_take.
    replace (min (Z.to_nat start) (length l)) with (Z.to_nat start) by lia.
    destruct (decide (i < Z.to_nat start + Z.to_nat lm)%nat) as [Hj|Hj].
    + rewrite lookup_app_l by (rewrite length_insert, length_take, length_drop; lia).
      rewrite list_lookup_insert, length_take, length_drop, lookup_take_lt, lookup_drop by lia.
      repeat case_decide; try lia; try done. f_equal. lia.
    + rewrite lookup_app_r by (rewrite length_insert, length_take, length_drop; lia).
      rewrite length_insert, length_take, length_drop, lookup_drop. case_decide; [lia|]. f_equal. lia.
Qed.

Lemma with_slots_id ntup start lm : 0 <= start -> 0 <= lm ->
  start + lm <= Z.of_nat (length (nt_indextids ntup)) ->
  with_slots start (slots start lm ntup) ntup = ntup.
Proof.
  intros Hs Hm Hl. destruct ntup as [v c l]. unfold with_slots, slots. simpl in *. f_equal.
  rewrite length_take, length_drop. replace (min (Z.to_nat lm) (length l - Z.to_nat start)) with (Z.to_nat lm) by lia.
  rewrite <- drop_drop, take_drop. apply take_drop.
Qed.

(** ** A new neighbor of an element *)

(** The neighbor tuple of [el] in its place, with its slots for layer [lc]. *)
Record slots_at (s : Backend) (el : HnswElementData) (m lm lc : Z) (ntup : HnswNeighborTupleData) : Prop := {
  sa_tuple : tuple_at (index s) (el_neighborPage el) (el_neighborOffno el) = Some (NeighborTuple ntup);
  sa_count : nt_count ntup = Z.of_nat (length (nt_indextids ntup));
  sa_tids : Forall ItemPointer_ok (nt_indextids ntup);
  sa_start : 0 <= (el_level el - lc) * m;
  sa_lm : 0 <= lm;
  sa_end : (el_level el - lc) * m + lm <= nt_count ntup
}.

Lemma update_slot_run new ntup idx start lm check : 0 <= start -> 0 <= lm ->
  start + lm <= Z.of_nat (length (nt_indextids ntup)) -> Forall ItemPointer_ok (nt_indextids ntup) ->
  BlockNumber_ok (el_blkno new) -> idx = -2 \/ 0 <= idx < lm ->
  let tid := ItemPointerSet (el_blkno new) (el_offno new) in
  exists i, update_slot new ntup idx start lm check = Ok i /\
    (i < 0 /\ update_slots check idx tid (slots start lm ntup) = slots start lm ntup \/
     exists k, i = Z.of_nat k + start /\ Z.of_nat k < lm /\
       update_slots check idx tid (slots start lm ntup) = <[k := tid]> (slots start lm ntup)).
Proof.
  intros Hs Hm Hl Hok Hb Hidx tid. unfold update_slot, update_slots.
  assert ((Z.to_nat start + Z.to_nat lm <= length (nt_indextids ntup))%nat) as Hl' by lia.
  pose proof (ConnectionExists_run ntup new _ _ Hl' Hok Hb) as Hc. rewrite Z2Nat.id in Hc by lia.
  pose proof (find_free_slot_run ntup _ _ Hl') as Hf. cbn zeta in Hf. rewrite Z2Nat.id in Hf by lia.
  fold (slots start lm ntup) in Hc, Hf.
  assert (length (slots start lm ntup) = Z.to_nat lm) as Hsl by (unfold slots; rewrite length_take, length_drop; lia).
  assert ((if check then ConnectionExists new ntup start (Z.to_nat lm) else Ok false) =
    Ok (check && has_connection tid (slots start lm ntup))) as -> by (by destruct check).
  rewrite bind_Ok. destruct (check && _); [exists (-1); split; [done|left; done]|].
  destruct Hidx as [->|Hidx]; cbn [Z.eqb Pos.eqb].
  - rewrite Hf. eexists. split; [done|]. unfold fill_slot. rewrite Hsl. case_decide; [|left; done].
    right. eexists. split; [|split; [|done]]; lia.
  - destruct (Z.eqb_spec idx (-2)); [lia|]. eexists. split; [done|]. right. exists (Z.to_nat idx).
    split; [lia|]. split; [lia|done].
Qed.

Lemma UpdateNeighborOnDisk_run s element newElement el new ntup idx m lm lc check :
  mem s !! element = Some el -> mem s !! newElement = Some new -> xlog s = None ->
  slots_at s el m lm lc ntup -> BlockNumber_ok (el_blkno new) -> idx = -2 \/ 0 <= idx < lm ->
  let start := (el_level el - lc) * m in
  let tid := ItemPointerSet (el_blkno new) (el_offno new) in
  exists s', (forall building, UpdateNeighborOnDisk element newElement idx m lm lc check building s = Ok (tt, s')) /\
    tuple_replaced s s' (el_neighborPage el) (el_neighborOffno el)
      (NeighborTuple (with_slots start (update_slots check idx tid (slots start lm ntup)) ntup)).
Proof.
  intros He Hn Hx [Ht Hcount Htids Hstart Hlm Hend] Hb Hidx start tid. rewrite Hcount in Hend.
  apply tuple_at_lookup in Ht as Hp. destruct Hp as (p & Hp & Hpt).
  destruct (update_slot_run new ntup idx start lm check Hstart Hlm Hend Htids Hb Hidx) as (i & Hi & Hcase).
  fold tid in Hcase. set (b := el_neighborPage el) in *. set (off := el_neighborOffno el) in *.
  assert (forall building s', (if (0 <=? i) && (i <? nt_count ntup) then
      exists old, indextid_at ntup i = Ok old /\ s' = update_block MAIN_FORKNUM b (PageSetItem p off (NeighborTuple (nt_set_indextid i tid ntup))) s
      else s' = s) -> UpdateNeighborOnDisk element newElement idx m lm lc check building s = Ok (tt, s')) as Hrun.
  { intros building s' Hs'. unfold UpdateNeighborOnDisk.
    run (load_element_run _ _ _ He). run (load_element_run _ _ _ Hn). run (ReadBuffer_run _ _ _ Hp).
    run (open_page_run MAIN_FORKNUM building b p s Hp). run (read_page_run MAIN_FORKNUM building b p s Hp p).
    run (get_tuple_run _ _ _ _ Hpt). run (lift_res_run (as_neighbor (NeighborTuple ntup)) _ _ eq_refl). cbn zeta.
    run (lift_res_run _ _ _ Hi). destruct ((0 <=? i) && (i <? nt_count ntup)).
    - destruct Hs' as (old & Hold & ->). run (lift_res_run _ _ _ Hold).
      run (write_page_run MAIN_FORKNUM building b p s Hp p _).
      by rewrite (commit_page_run MAIN_FORKNUM building b s Hx).
    - subst s'. by rewrite (abort_page_run MAIN_FORKNUM building b p s Hx Hp). }
  destruct Hcase as [[Hneg Hsame]|(k & -> & Hk & Hupd)].
  - exists s. split; [intros building; apply Hrun; destruct (Z.leb_spec 0 i); [lia|done]|].
    rewrite Hsame, with_slots_id by done. by apply tuple_replaced_id.
  - eexists. split.
    + intros building. apply Hrun. rewrite Hcount. destruct (Z.leb_spec 0 (Z.of_nat k + start)); [|lia].
      destruct (Z.ltb_spec (Z.of_nat k + start) (Z.of_nat (length (nt_indextids ntup)))); [|lia]. simpl.
      destruct (lookup_lt_is_Some_2 (nt_indextids ntup) (Z.to_nat (Z.of_nat k + start)) ltac:(lia)) as [old Hold].
      exists old. split; [|done]. unfold indextid_at. destruct (Z.ltb_spec (Z.of_nat k + start) 0); [lia|]. by rewrite Hold.
    + rewrite Hupd, <- set_indextid_slots by done. by eapply update_block_replaced.
Qed.

(** C19: one update of a neighbor tuple.  [UpdateNeighborOnDisk] changes at most
    one slot, in the layer it is called for: none if the new element is already
    a neighbor there and this is to be checked, the first free one for the
    index -2 (none if the layer is full), the one of the index otherwise.  It
    raises no error, no other tuple changes, pages stay well formed, and the
    result is the same through the log as on the buffers of a build. *)
Theorem UpdateNeighborOnDisk_correct s element newElement el new ntup idx m lm lc check :
  mem s !! element = Some el -> mem s !! newElement = Some new -> xlog s = None ->
  slots_at s el m lm lc ntup -> BlockNumber_ok (el_blkno new) -> idx = -2 \/ 0 <= idx < lm ->
  let start := (el_level el - lc) * m in
  let tid := ItemPointerSet (el_blkno new) (el_offno new) in
  exists s', (forall building, UpdateNeighborOnDisk element newElement idx m lm lc check building s = Ok (tt, s')) /\
    tuple_replaced s s' (el_neighborPage el) (el_neighborOffno el)
      (NeighborTuple (with_slots start (update_slots check idx tid (slots start lm ntup)) ntup)).
Proof. exact (UpdateNeighborOnDisk_run s element newElement el new ntup idx m lm lc check). Qed.

(** ** A duplicate of an element *)

(** The heap TIDs of an element tuple: valid ones first. *)
Definition heaptids_ok (l : list ItemPointerData) : Prop :=
  length l = 10%nat /\ exists tids, l = tids ++ replicate (10 - length tids) ItemPointerSetInvalid /\
    Forall (fun t => ItemPointerIsValid t = true) tids.

Lemma heaptids_ok_valid l : heaptids_ok l ->
  l = valid_prefix l ++ replicate (10 - length (valid_prefix l)) ItemPointerSetInvalid /\ (length (valid_prefix l) <= 10)%nat.
Proof.
  intros (Hl & tids & -> & Hv). rewrite valid_prefix_padded by done. split; [done|].
  rewrite length_app, length_replicate in Hl. lia.
Qed.

Lemma valid_prefix_Forall l : Forall (fun t => ItemPointerIsValid t = true) (valid_prefix l).
Proof.
  induction l as [|t l IH]; simpl; [constructor|]. destruct (ItemPointerIsValid t) eqn:E; simpl; [by constructor|constructor].
Qed.

Lemma heaptids_ok_add l tid : heaptids_ok l -> (length (valid_prefix l) < 10)%nat -> ItemPointerIsValid tid = true ->
  heaptids_ok (<[length (valid_prefix l) := tid]> l) /\
  valid_prefix (<[length (valid_prefix l) := tid]> l) = valid_prefix l ++ [tid].
Proof.
  intros Hok Hlt Ht. destruct (heaptids_ok_valid l Hok) as [Heq _]. set (v := valid_prefix l) in *.
  assert (<[length v := tid]> l = (v ++ [tid]) ++ replicate (10 - length (v ++ [tid])) ItemPointerSetInvalid) as Hl'.
  { rewrite Heq at 1. replace (length v) with (length v + 0)%nat at 1 by lia.
    rewrite insert_app_r, length_app. cbn [length]. replace (10 - length v)%nat with (S (9 - length v)) by lia.
    cbn [replicate]. simpl. rewrite <- app_assoc. simpl. do 3 f_equal. lia. }
  assert (Forall (fun t => ItemPointerIsValid t = true) (v ++ [tid])) as Hv
    by (apply Forall_app; split; [apply valid_prefix_Forall|by repeat constructor]).
  split; [|by rewrite Hl', valid_prefix_padded].
  split; [rewrite length_insert; apply Hok|]. by exists (v ++ [tid]).
Qed.

Lemma AddDuplicateOnDisk_run s element dup el d etup tid rest :
  mem s !! element = Some el -> mem s !! dup = Some d -> xlog s = None ->
  el_heaptids el = tid :: rest -> ItemPointerIsValid tid = true ->
  tuple_at (index s) (el_blkno d) (el_offno d) = Some (ElementTuple etup) -> heaptids_ok (et_heaptids etup) ->
  let n := length (valid_prefix (et_heaptids etup)) in
  exists s' htids, (forall building, AddDuplicateOnDisk element dup building s = Ok (bool_decide (0 < n < 10)%nat, s')) /\
    tuple_replaced s s' (el_blkno d) (el_offno d) (ElementTuple (mkHnswElementTuple (et_level etup) (et_deleted etup)
      (et_version etup) htids (et_neighbortid etup) (et_unused etup) (et_data etup))) /\
    heaptids_ok htids /\
    valid_prefix htids = valid_prefix (et_heaptids etup) ++ (if decide (0 < n < 10)%nat then [tid] else []) /\
    (~ (0 < n < 10)%nat -> s' = s).
Proof.
  intros He Hd Hx Htid Hval Ht Hok n. apply tuple_at_lookup in Ht as Hp. destruct Hp as (p & Hp & Hpt).
  set (b := el_blkno d) in *. set (off := el_offno d) in *.
  set (tup' := ElementTuple (et_set_heaptid n tid etup)).
  pose (s' := if decide (0 < n < 10)%nat then update_block MAIN_FORKNUM b (PageSetItem p off tup') s else s).
  assert ((Z.of_nat n =? 0) || (Z.of_nat n =? HNSW_HEAPTIDS) = negb (bool_decide (0 < n < 10)%nat)) as Hcond.
  { destruct (heaptids_ok_valid _ Hok) as [_ Hle]. fold n in Hle. unfold HNSW_HEAPTIDS.
    destruct (Z.eqb_spec (Z.of_nat n) 0), (Z.eqb_spec (Z.of_nat n) 10); symmetry; simpl;
      rewrite ?negb_true_iff, ?negb_false_iff, ?bool_decide_eq_false, ?bool_decide_eq_true; lia. }
  exists s', (if decide (0 < n < 10)%nat then <[n := tid]> (et_heaptids etup) else et_heaptids etup). split.
  - intros building. unfold AddDuplicateOnDisk.
    run (load_element_run _ _ _ He). run (load_element_run _ _ _ Hd). run (ReadBuffer_run _ _ _ Hp).
    run (open_page_run MAIN_FORKNUM building b p s Hp). run (read_page_run MAIN_FORKNUM building b p s Hp p).
    run (get_tuple_run _ _ _ _ Hpt). run (lift_res_run (as_element (ElementTuple etup)) _ _ eq_refl). cbn zeta.
    fold n. unfold heaptids_used. fold n. rewrite Hcond. unfold s'.
    destruct (decide (0 < n < 10)%nat) as [Hn|Hn]; [rewrite !bool_decide_true by done|rewrite !bool_decide_false by done]; cbn [negb].
    + rewrite Htid. cbn [lookup list_lookup of_option]. run (lift_res_run (Ok tid) _ tid eq_refl).
      run (write_page_run MAIN_FORKNUM building b p s Hp p _). by run (commit_page_run MAIN_FORKNUM building b s Hx _).
    + by run (abort_page_run MAIN_FORKNUM building b p s Hx Hp).
  - unfold s'. destruct (decide _) as [Hn|Hn].
    + destruct (heaptids_ok_add _ tid Hok ltac:(fold n; lia) Hval) as [H1 H2]. split; [|done].
      by eapply update_block_replaced.
    + split; [|split; [done|split; [by rewrite app_nil_r|done]]]. apply tuple_replaced_id. rewrite Ht. by destruct etup.
Qed.

(** a duplicate value on disk.  [AddDuplicateOnDisk] adds the heap TID of
    the new element after those of the element tuple of the duplicate, when
    this has at least one and a free place, and answers whether it did;
    otherwise nothing changes.  No other tuple changes, the heap TIDs stay in
    order, and the result is the same through the log as on the buffers of a
    build. *)
Theorem AddDuplicateOnDisk_correct s element dup el d etup tid rest :
  mem s !! element = Some el -> mem s !! dup = Some d -> xlog s = None ->
  el_heaptids el = tid :: rest -> ItemPointerIsValid tid = true ->
  tuple_at (index s) (el_blkno d) (el_offno d) = Some (ElementTuple etup) -> heaptids_ok (et_heaptids etup) ->
  let n := length (valid_prefix (et_heaptids etup)) in
  exists s' htids, (forall building, AddDuplicateOnDisk element dup building s = Ok (bool_decide (0 < n < 10)%nat, s')) /\
    tuple_replaced s s' (el_blkno d) (el_offno d) (ElementTuple (mkHnswElementTuple (et_level etup) (et_deleted etup)
      (et_version etup) htids (et_neighbortid etup) (et_unused etup) (et_data etup))) /\
    heaptids_ok htids /\
    valid_prefix htids = valid_prefix (et_heaptids etup) ++ (if decide (0 < n < 10)%nat then [tid] else []) /\
    (~ (0 < n < 10)%nat -> s' = s).
Proof. exact (AddDuplicateOnDisk_run s element dup el d etup tid rest). Qed.

(** ** Witnesses *)

Definition new_element : HnswElementData :=
  mkHnswElement NULL [ItemPointerSet 8 5] 0 0 1 0 None 1 5 6 1 (Some value1).
Definition two_state : Backend := mkBackend {[ 1%N := sample_element; 2%N := new_element ]} sample_relation None.
Definition sample_ntup1 : HnswNeighborTupleData := mkHnswNeighborTuple 1 4 (tid2 :: replicate 3 ItemPointerSetInvalid).

(** The second slot is the first free one. *)
Lemma UpdateNeighborOnDisk_correct_witness :
  exists s', (forall building, UpdateNeighborOnDisk 1%N 2%N (-2) 2 4 0 false building two_state = Ok (tt, s')) /\
    tuple_replaced two_state s' 1 2
      (NeighborTuple (mkHnswNeighborTuple 1 4 [tid2; ItemPointerSet 1 5; ItemPointerSetInvalid; ItemPointerSetInvalid])).
Proof.
  apply (UpdateNeighborOnDisk_correct two_state 1%N 2%N sample_element new_element sample_ntup1 (-2) 2 4 0 false);
    [reflexivity|reflexivity|reflexivity| |split; by vm_compute|by left].
  split; [by vm_compute|by vm_compute| |by vm_compute|by vm_compute|by vm_compute].
  repeat constructor; by vm_compute.
Defined.

Lemma AddDuplicateOnDisk_correct_witness :
  exists s' htids, (forall building, AddDuplicateOnDisk 2%N 1%N building two_state = Ok (true, s')) /\
    tuple_replaced two_state s' 1 1
      (ElementTuple (mkHnswElementTuple 0 0 1 htids (ItemPointerSet 1 2) 0 value1)) /\
    heaptids_ok htids /\ valid_prefix htids = [ItemPointerSet 7 1; ItemPointerSet 8 5].
Proof.
  pose proof (AddDuplicateOnDisk_correct two_state 2%N 1%N new_element sample_element
    (mkHnswElementTuple 0 0 1 (ItemPointerSet 7 1 :: replicate 9 ItemPointerSetInvalid) (ItemPointerSet 1 2) 0 value1)
    (ItemPointerSet 8 5) []) as H.
  cbn zeta in H. destruct H as (s' & htids & H1 & H2 & H3 & H4 & _); [reflexivity|reflexivity|reflexivity|reflexivity|reflexivity|by vm_compute| |].
  - split; [reflexivity|]. exists [ItemPointerSet 7 1]. split; [reflexivity|]. repeat constructor; by vm_compute.
  - exists s', htids. split; [exact H1|]. split; [exact H2|]. split; [exact H3|exact H4].
Defined.
