(* ===== verification/AddElement.v ===== *)
(** * Insertion: a new element on the pages

    [AddElementOnDisk] (HnswInsert.v) finds a place for the two tuples of an
    element, new or of a deleted element, and writes them.  The invariant of the
    pages it keeps is [index_ok]. *)

From S2P Require Import Prelude CFloat ItemPtr VectorType HnswData BufPage Backend HnswUtils.
From S2P Require Import LayerRefinement PageUpdate Tuples HnswInsert.

(** ** A tuple put on a page *)

Record page_put (p p' : Page) (off : OffsetNumber) (tup : HnswTuple) : Prop := {
  pp_ok : page_ok p';
  pp_tuple : page_tuple p' off = Ok tup;
  pp_others o : o <> off -> page_tuple p' o = page_tuple p o;
  pp_opaque : pd_opaque p' = pd_opaque p;
  pp_max : PageGetMaxOffsetNumber p' = Z.max off (PageGetMaxOffsetNumber p);
  pp_items o it : o <> off -> PageGetItemId p o = Ok it ->
    exists it', PageGetItemId p' o = Ok it' /\ ItemIdGetLength it' = ItemIdGetLength it
}.

(** The length of the line pointer of an offset. *)
Definition page_length (p : Page) (off : OffsetNumber) (n : Z) : Prop :=
  exists it, PageGetItemId p off = Ok it /\ ItemIdGetLength it = n.

Lemma item_length_page rel b p off n : block (rd_main rel) b = Some p -> item_length rel b off n <-> page_length p off n.
Proof. intros Hb. split; [intros (q & it & Hq & Hit); exists it; congruence|]. intros (it & Hit). by exists p, it. Qed.

Lemma page_put_length p p' off tup o n : page_put p p' off tup -> o <> off -> page_length p o n -> page_length p' o n.
Proof.
  intros Hput Ho (it & Hit & Hn). destruct (pp_items _ _ _ _ Hput o it Ho Hit) as (it' & Hit' & Hl).
  exists it'. split; [done|congruence].
Qed.

(** There is room for a tuple: at the end of the page, or over an old tuple. *)
Definition room (p : Page) (free : bool) (off : OffsetNumber) (size : Z) : Prop :=
  if free then exists old, PageGetItemId p off = Ok old /\ MAXALIGN size <= MAXALIGN (ItemIdGetLength old) + PageGetExactFreeSpace p
  else off = PageGetMaxOffsetNumber p + 1 /\ MAXALIGN size <= PageGetFreeSpace p.

(** The free space that is left. *)
Definition space_left (p : Page) (free : bool) (off : OffsetNumber) (size : Z) : Z :=
  PageGetExactFreeSpace p - MAXALIGN size +
  (if free then match PageGetItemId p off with Ok old => MAXALIGN (ItemIdGetLength old) | Err _ => 0 end
   else - sizeof_ItemIdData).

Lemma page_with_put p tup size : page_ok p -> 0 < size -> MAXALIGN size <= PageGetFreeSpace p ->
  page_put p (page_with p tup size) (PageGetMaxOffsetNumber p + 1) tup.
Proof.
  intros Hok Hs Hroom. pose proof (free_space_room p size Hok Hs Hroom) as Hr.
  pose proof (page_with_ok p tup size Hok Hs Hr) as Hok'. rewrite (PageGetMaxOffsetNumber_eq _ Hok).
  assert (forall o, o <> Z.of_nat (length (pd_linp p)) + 1 -> PageGetItemId (page_with p tup size) o = PageGetItemId p o) as Hitem.
  { intros o Ho. unfold PageGetItemId. destruct (Z.ltb_spec o 1); [done|]. simpl. f_equal.
    destruct (decide (Z.to_nat (o - 1) < length (pd_linp p))%nat); [by rewrite lookup_app_l|].
    rewrite !lookup_ge_None_2; rewrite ?length_app; simpl; try done; lia. }
  split; [done| | |done| |].
  - unfold page_tuple. rewrite (PageGetItemId_ok _ (length (pd_linp p)) (new_item p tup size)); [done|].
    cbn. by apply list_lookup_middle.
  - intros o Ho. unfold page_tuple. by rewrite Hitem.
  - rewrite (PageGetMaxOffsetNumber_eq _ Hok), (PageGetMaxOffsetNumber_eq _ Hok'). cbn. rewrite length_app. simpl. lia.
  - intros o it Ho Hit. rewrite Hitem by done. by exists it.
Qed.

Lemma page_overwritten_put p n old tup size : page_ok p -> pd_linp p !! n = Some old -> 0 < size ->
  MAXALIGN size <= MAXALIGN (lp_len old) + PageGetExactFreeSpace p ->
  page_put p (page_overwritten p n old tup size) (Z.of_nat n + 1) tup.
Proof.
  intros Hok Hn Hs Hd. pose proof (page_overwritten_ok p n old tup size Hok Hn Hs Hd) as Hok'.
  pose proof (page_overwritten_lookup p n old tup size Hn) as Hl.
  split; [done| | |done| |].
  - unfold page_tuple. erewrite (PageGetItemId_ok _ n); [|by rewrite Hl, decide_True]. done.
  - intros o Ho. unfold page_tuple, PageGetItemId. destruct (Z.ltb_spec o 1); [done|].
    rewrite Hl, decide_False by lia. destruct (pd_linp p !! Z.to_nat (o - 1)) as [it|]; [|done]. cbn.
    unfold PageGetItem. by destruct (relocate_fields (lp_off old) (MAXALIGN (lp_len old) - MAXALIGN size) it) as (_ & _ & ->).
  - rewrite (PageGetMaxOffsetNumber_eq _ Hok), (PageGetMaxOffsetNumber_eq _ Hok'). apply lookup_lt_Some in Hn.
    unfold page_overwritten. cbn. rewrite length_insert, length_fmap. lia.
  - intros o it Ho Hit. apply PageGetItemId_lookup in Hit as [H1 Hit].
    eexists. split; [apply PageGetItemId_lookup; split; [done|]; rewrite Hl, decide_False by lia; by rewrite Hit|].
    simpl. unfold ItemIdGetLength. by destruct (relocate_fields (lp_off old) (MAXALIGN (lp_len old) - MAXALIGN size) it) as (_ & -> & _).
Qed.

Lemma page_with_length p tup size : page_ok p -> page_length (page_with p tup size) (PageGetMaxOffsetNumber p + 1) size.
Proof.
  intros Hok. rewrite (PageGetMaxOffsetNumber_eq _ Hok). exists (new_item p tup size). split; [|done].
  apply PageGetItemId_ok. cbn. by apply list_lookup_middle.
Qed.

Lemma page_overwritten_length p n old tup size : pd_linp p !! n = Some old ->
  page_length (page_overwritten p n old tup size) (Z.of_nat n + 1) size.
Proof.
  intros Hn. eexists. split; [apply PageGetItemId_ok; by rewrite (page_overwritten_lookup p n old tup size Hn), decide_True|done].
Qed.

(** [put_tuple] when there is room. *)
Lemma put_tuple_run building l s b p free off tup size :
  images_ok (rd_main (index s)) l -> image l b = Some p -> page_ok p -> 0 < size -> room p free off size ->
  exists p', put_tuple (page_ref building b) free off tup size (session MAIN_FORKNUM building l s) =
      Ok (tt, session MAIN_FORKNUM building (set_image b p' l) s) /\
    page_put p p' off tup /\ PageGetExactFreeSpace p' = space_left p free off size /\ page_length p' off size.
Proof.
  intros Hl Hb Hok Hs Hroom. unfold put_tuple.
  assert (forall p', write_page MAIN_FORKNUM (page_ref building b) p' (session MAIN_FORKNUM building l s) =
    Ok (tt, session MAIN_FORKNUM building (set_image b p' l) s)) as Hw by (intros p'; apply session_write; [done|by eexists]).
  run (session_read MAIN_FORKNUM building l s Hl b p Hb). destruct free; unfold room in Hroom.
  - destruct Hroom as (old & Hold & Hd). pose proof (PageIndexTupleOverwrite_correct p off old tup size Hok Hold Hs) as H.
    rewrite decide_True in H by done. destruct H as (p' & Hrun & _ & _ & _ & _ & Hfree).
    exists p'. run (lift_res_run _ _ _ Hrun). run (lift_res_run (raise_if (negb true) ERR_failed_to_add_index_item) _ tt eq_refl).
    split; [apply Hw|]. apply PageGetItemId_lookup in Hold as Hold'. destruct Hold' as [Ho Hlk].
    replace off with (Z.of_nat (Z.to_nat (off - 1)) + 1) in Hrun |- * by lia.
    rewrite (PageIndexTupleOverwrite_eq p _ old tup size Hok Hlk Hs) in Hrun.
    unfold ItemIdGetLength in *. rewrite (proj2 (Z.leb_le _ _) Hd) in Hrun. injection Hrun as <-.
    split; [by apply page_overwritten_put|]. split; [|by apply page_overwritten_length]. rewrite Hfree. unfold space_left.
    replace (Z.of_nat (Z.to_nat (off - 1)) + 1) with off by lia. rewrite Hold. unfold ItemIdGetLength. lia.
  - destruct Hroom as [-> Hd]. pose proof (free_space_room p size Hok Hs Hd) as Hr.
    assert (PageAddItem p tup size InvalidOffsetNumber false false =
      Ok (PageGetMaxOffsetNumber p + 1, page_with p tup size)) as Hrun.
    { rewrite (PageAddItem_eq p tup size Hok Hs), (PageGetMaxOffsetNumber_eq _ Hok). by rewrite (proj2 (Z.leb_le _ _) Hr). }
    exists (page_with p tup size). run (lift_res_run _ _ _ Hrun). rewrite Z.eqb_refl.
    run (lift_res_run (raise_if (negb true) ERR_failed_to_add_index_item) _ tt eq_refl).
    split; [apply Hw|]. split; [by apply page_with_put|]. split; [|by apply page_with_length].
    unfold space_left. rewrite page_with_free by done. lia.
Qed.

(** ** The pages of an index *)

Abbreviation nlen rel := (Z.of_nat (length (rd_main rel))).

(** Block 0 is the metapage.  Links go forward, and a deleted element still has
    its neighbor tuple. *)
Record index_ok (rel : Relation) : Prop := {
  ix_size : nlen rel <= InvalidBlockNumber;
  ix_pages b p : 1 <= b -> block (rd_main rel) b = Some p -> page_ok p;
  ix_next b p : 1 <= b -> block (rd_main rel) b = Some p ->
    nextblkno p = InvalidBlockNumber \/ b < nextblkno p < nlen rel;
  ix_deleted b off etup : 1 <= b -> tuple_at rel b off = Some (ElementTuple etup) -> et_deleted etup <> 0 ->
    1 <= ItemPointerGetBlockNumber (et_neighbortid etup) /\
    exists ntup, tuple_at rel (ItemPointerGetBlockNumber (et_neighbortid etup))
                   (ItemPointerGetOffsetNumber (et_neighbortid etup)) = Some (NeighborTuple ntup)
}.

(** A tuple over another one of the same size. *)
Lemma overwritten_replaced s b p off old tup size : index_ok (index s) -> 1 <= b -> block (rd_main (index s)) b = Some p ->
  PageGetItemId p off = Ok old -> ItemIdGetLength old = size -> 0 < size ->
  exists p', PageIndexTupleOverwrite p off tup size = Ok (true, p') /\
    tuple_replaced s (update_block MAIN_FORKNUM b p' s) b off tup.
Proof.
  intros Hix Hb1 Hb Hold Hlen Hs. pose proof (ix_pages _ Hix _ _ Hb1 Hb) as Hok.
  apply PageGetItemId_lookup in Hold as Hlk. destruct Hlk as [Ho Hlk]. unfold ItemIdGetLength in Hlen.
  set (n := Z.to_nat (off - 1)) in *. assert (Hoff : off = Z.of_nat n + 1) by lia.
  assert (Hex : 0 <= PageGetExactFreeSpace p) by (unfold PageGetExactFreeSpace; case_cmp; lia).
  assert (Hd : MAXALIGN size <= MAXALIGN (lp_len old) + PageGetExactFreeSpace p) by (rewrite Hlen; lia).
  pose proof (page_overwritten_put p n old tup size Hok Hlk Hs Hd) as Hput. rewrite <- Hoff in Hput.
  set (p' := page_overwritten p n old tup size) in *. exists p'. split.
  { rewrite Hoff, (PageIndexTupleOverwrite_eq p n old tup size Hok Hlk Hs). by rewrite (proj2 (Z.leb_le _ _) Hd). }
  assert (Hblk : forall c, block (rd_main (index (update_block MAIN_FORKNUM b p' s))) c = if decide (c = b) then Some p' else block (rd_main (index s)) c)
    by (intros c; by apply (update_block_block MAIN_FORKNUM _ _ _ p)).
  split; try done.
  - unfold tuple_at. rewrite Hblk, decide_True by done. by rewrite (pp_tuple _ _ _ _ Hput).
  - intros c o Hne. unfold tuple_at. rewrite Hblk. case_decide as Hc; [|done]. subst c. rewrite Hb.
    by rewrite (pp_others _ _ _ _ Hput) by congruence.
  - intros c q. rewrite Hblk. case_decide as Hc; [|naive_solver]. intros [= <-]. subst c. exists p. split; [done|].
    split; [intros _; apply Hput|]. split; [apply Hput|]. split; [|done].
    rewrite (pp_max _ _ _ _ Hput), (PageGetMaxOffsetNumber_eq p Hok). apply lookup_lt_Some in Hlk. lia.
  - intros c o k (q & it & Hq & Hit & Hk). destruct (decide (c = b)) as [->|Hne].
    + rewrite Hb in Hq. injection Hq as <-. destruct (decide (o = off)) as [->|Hno].
      * exists p'. eexists. split; [by rewrite Hblk, decide_True|]. split; [|].
        { apply PageGetItemId_lookup. split; [done|]. unfold p'. rewrite (page_overwritten_lookup p n old tup size Hlk).
          by rewrite decide_True. }
        rewrite Hold in Hit. injection Hit as <-. rewrite <- Hk. unfold ItemIdGetLength. simpl. congruence.
      * destruct (pp_items _ _ _ _ Hput o it Hno Hit) as (it' & Hit' & Hl'). exists p', it'.
        split; [by rewrite Hblk, decide_True|]. split; [done|congruence].
    + exists q, it. split; [by rewrite Hblk, decide_False|done].
  - simpl. by rewrite length_insert.
Qed.

(** A page links to the next one. *)
Definition links_to (rel : Relation) (b b' : BlockNumber) : Prop :=
  exists p, block (rd_main rel) b = Some p /\ nextblkno p = b' /\ BlockNumberIsValid b' = true.
Definition reach (rel : Relation) : BlockNumber -> BlockNumber -> Prop := rtc (links_to rel).

(** The chain from the head has all pages. *)
Definition all_reached (rel : Relation) : Prop := forall b, 1 <= b < nlen rel -> reach rel HNSW_HEAD_BLKNO b.

Lemma reach_links rel rel' a b : index_ok rel -> (forall c c', 1 <= c -> links_to rel c c' -> links_to rel' c c') ->
  1 <= a -> reach rel a b -> reach rel' a b.
Proof.
  intros Hix Hl Ha Hr. unfold reach in *. induction Hr as [|a c b Hac Hr IH]; [constructor|].
  eapply rtc_l; [by apply Hl|]. apply IH. destruct Hac as (p & Hp & Hn & Hv).
  destruct (ix_next _ Hix a p Ha Hp) as [Hi|Hi]; [|lia]. rewrite <- Hn, Hi in Hv. done.
Qed.

(** The links of pages are not changed. *)
Definition links_kept (rel rel' : Relation) : Prop :=
  nlen rel' = nlen rel /\
  forall b p', block (rd_main rel') b = Some p' -> exists p, block (rd_main rel) b = Some p /\ pd_opaque p' = pd_opaque p.

#[export] Instance links_kept_preorder : PreOrder links_kept.
Proof.
  split; [intros rel; split; [done|by intros b p Hp; exists p]|]. intros r1 r2 r3 [L1 H1] [L2 H2]. split; [congruence|].
  intros b p3 Hp3. destruct (H2 b p3 Hp3) as (p2 & Hp2 & O2). destruct (H1 b p2 Hp2) as (p1 & Hp1 & O1). exists p1. split; [done|congruence].
Qed.

Lemma links_kept_to rel rel' a c : links_kept rel rel' -> links_to rel a c -> links_to rel' a c.
Proof.
  intros [Hlen Hk] (p & Hp & Hn & Hv). apply block_lookup in Hp as Hl. destruct Hl as [H0 Hl]. apply lookup_lt_Some in Hl.
  destruct (lookup_lt_is_Some_2 (rd_main rel') (Z.to_nat a) ltac:(lia)) as [p' Hp'].
  assert (Hb : block (rd_main rel') a = Some p') by (by apply block_lookup). destruct (Hk a p' Hb) as (q & Hq & Ho).
  rewrite Hp in Hq. injection Hq as <-. exists p'. split; [done|]. unfold nextblkno in *. by rewrite Ho.
Qed.

Lemma links_kept_reached rel rel' : links_kept rel rel' -> all_reached rel -> all_reached rel'.
Proof.
  intros Hk Hr b Hb. rewrite (proj1 Hk) in Hb. eapply rtc_subrel; [|by apply Hr]. intros a c. by apply links_kept_to.
Qed.

Lemma replaced_links_kept s s' b off tup : tuple_replaced s s' b off tup -> links_kept (index s) (index s').
Proof.
  intros Hr. split; [by rewrite (tr_length _ _ _ _ _ Hr)|]. intros c p' Hp.
  destruct (tr_pages _ _ _ _ _ Hr c p' Hp) as (p & Hp0 & _ & Ho & _). by exists p.
Qed.

(** ** Free offsets *)

Lemma HnswInitPage_ok : page_ok HnswInitPage.
Proof. by split. Qed.

(** What a free offset promises: the two tuples of a deleted element, which
    the new tuples fit over. *)
Record free_offset_ok (s : Backend) (buf : BlockNumber) (p : Page) (etupSize ntupSize : Z) (f : FreeOffset) : Prop := {
  fo_element : exists etup, page_tuple p (fo_offno f) = Ok (ElementTuple etup) /\ et_deleted etup <> 0 /\
    fo_version f = et_version etup /\
    ItemPointerGetBlockNumber (et_neighbortid etup) = fo_nbuf f /\ ItemPointerGetOffsetNumber (et_neighbortid etup) = fo_neighborOffno f;
  fo_block : 1 <= fo_nbuf f;
  fo_fits : exists np eitem nitem,
    block (rd_main (index s)) (fo_nbuf f) = Some np /\
    PageGetItemId p (fo_offno f) = Ok eitem /\ PageGetItemId np (fo_neighborOffno f) = Ok nitem /\
    free_space_fits p np eitem nitem (fo_nbuf f =? buf) etupSize ntupSize = true
}.

Section FreeOffset.
Context (building : bool) (s : Backend) (buf : BlockNumber) (p : Page) (es ns : Z).
Context (Hix : index_ok (index s)) (Hbuf : 1 <= buf) (Hp : block (rd_main (index s)) buf = Some p).

Lemma buf_valid : BlockNumberIsValid buf = true.
Proof.
  apply block_lookup in Hp as [_ Hl]. apply lookup_lt_Some in Hl. pose proof (ix_size _ Hix).
  unfold BlockNumberIsValid. rewrite negb_true_iff, Z.eqb_neq. lia.
Qed.

#[local] Abbreviation open1 := (session MAIN_FORKNUM building [(buf, p)] s).

Lemma session1_ok : images_ok (rd_main (index s)) [(buf, p)].
Proof.
  apply block_lookup in Hp as [? Hl]. apply lookup_lt_Some in Hl. split; [apply NoDup_singleton|].
  constructor; [simpl; lia|constructor].
Qed.

Lemma page_items off : 1 <= off <= PageGetMaxOffsetNumber p ->
  exists it tup, PageGetItemId p off = Ok it /\ PageGetItem it = Ok tup /\ page_tuple p off = Ok tup.
Proof.
  pose proof (ix_pages _ Hix _ _ Hbuf Hp) as Hok. rewrite (PageGetMaxOffsetNumber_eq _ Hok). intros Ho.
  destruct (lookup_lt_is_Some_2 (pd_linp p) (Z.to_nat (off - 1)) ltac:(lia)) as [it Hit].
  pose proof (page_item _ Hok _ _ Hit) as (_ & _ & _ & _ & _ & [tup Htup]). exists it, tup.
  assert (PageGetItemId p off = Ok it) as H1 by (apply PageGetItemId_lookup; split; [lia|done]).
  assert (PageGetItem it = Ok tup) as H2 by (unfold PageGetItem; by rewrite Htup).
  split; [done|]. split; [done|]. unfold page_tuple. by rewrite H1, bind_Ok.
Qed.

(** The page of the neighbor tuple of a deleted element. *)
Lemma neighbor_page off etup : page_tuple p off = Ok (ElementTuple etup) -> et_deleted etup <> 0 ->
  let nb := ItemPointerGetBlockNumber (et_neighbortid etup) in
  1 <= nb /\ exists np nitem ntup, block (rd_main (index s)) nb = Some np /\
    PageGetItemId np (ItemPointerGetOffsetNumber (et_neighbortid etup)) = Ok nitem /\
    page_tuple np (ItemPointerGetOffsetNumber (et_neighbortid etup)) = Ok (NeighborTuple ntup).
Proof.
  intros Ht Hd nb. assert (tuple_at (index s) buf off = Some (ElementTuple etup)) as Hta by (apply tuple_at_lookup; by exists p).
  destruct (ix_deleted _ Hix _ _ _ Hbuf Hta Hd) as (H1 & ntup & H2). split; [done|].
  apply tuple_at_lookup in H2 as (np & Hnp & Htup). apply page_tuple_lookup in Htup as Hl. destruct Hl as (it & Ho & Hl & _).
  exists np, it, ntup. split; [done|]. split; [|done]. by apply PageGetItemId_lookup.
Qed.

Lemma read_neighbor_page nb np : block (rd_main (index s)) nb = Some np ->
  (if nb =? buf then mret (buf, p)
   else nbuf ← ReadBuffer nb ; npage ← read_page MAIN_FORKNUM (BufferPage nbuf) ; mret (nbuf, npage)) open1 =
  Ok ((nb, np), open1).
Proof.
  intros Hnp. destruct (Z.eqb_spec nb buf) as [->|Hne]; [rewrite Hp in Hnp; by injection Hnp as <-|].
  run (session_ReadBuffer MAIN_FORKNUM building [(buf, p)] s session1_ok nb np Hnp).
  assert (image [(buf, p)] nb = None) as Him by (simpl; by rewrite decide_False).
  by run (session_read_other MAIN_FORKNUM building [(buf, p)] s session1_ok nb np Him Hnp).
Qed.

Lemma free_offset_loop_run n off nip : 1 <= off -> off + Z.of_nat n <= PageGetMaxOffsetNumber p + 1 ->
  exists f nip', free_offset_loop n buf p es ns off nip open1 = Ok ((f, nip'), open1) /\
    (nip' = nip \/ BlockNumberIsValid nip = false /\ nip' = buf) /\
    match f with Some f => free_offset_ok s buf p es ns f /\ BlockNumberIsValid nip' = true | None => True end.
Proof.
  pose proof (ix_pages _ Hix _ _ Hbuf Hp) as Hok. pose proof (nitems_bound p Hok) as Hmax.
  rewrite (PageGetMaxOffsetNumber_eq _ Hok). revert off nip. induction n as [|n IH]; intros off nip H1 Hn.
  - exists None, nip. split; [done|]. split; [by left|done].
  - destruct (page_items off) as (it & tup & Hit & Htup & Hpt); [rewrite (PageGetMaxOffsetNumber_eq _ Hok); lia|].
    assert (OffsetNumberNext off = off + 1) as Hnext by (unfold OffsetNumberNext; rewrite u16_small; lia).
    cbn [free_offset_loop]. run (lift_res_run _ _ _ Hit). run (lift_res_run _ _ _ Htup). rewrite Hnext.
    destruct tup as [etup|]; [|apply IH; lia]. destruct (Z.eqb_spec (et_deleted etup) 0) as [|Hdel]; [apply IH; lia|].
    destruct (neighbor_page off etup Hpt Hdel) as (Hnb & np & nitem & ntup & Hnp & Hnit & Hnt). cbn zeta.
    run (read_neighbor_page _ _ Hnp). run (lift_res_run _ _ _ Hnit).
    set (nip1 := if negb (BlockNumberIsValid nip) then buf else nip).
    assert (nip1 = nip \/ BlockNumberIsValid nip = false /\ nip1 = buf) as Hnip1
      by (unfold nip1; destruct (BlockNumberIsValid nip); [by left|by right]).
    destruct (free_space_fits _ _ _ _ _ _ _) eqn:Hfit.
    + eexists _, nip1. split; [done|]. split; [done|]. split; [split; simpl|].
      * exists etup. split; [done|]. done.
      * done.
      * exists np, it, nitem. done.
      * unfold nip1. destruct (BlockNumberIsValid nip) eqn:E; [done|apply buf_valid].
    + destruct (IH (off + 1) nip1 ltac:(lia) ltac:(lia)) as (f & nip' & Hrun & Hnip & Hf).
      exists f, nip'. split; [done|]. split; [|done].
      destruct Hnip1 as [->|[Hi ->]], Hnip as [->|[Hi' ->]]; auto.
Qed.

(** The tuples of a free offset leave room for the new ones, written one after
    the other when they are on the same page. *)
Record free_room (f : FreeOffset) (etup : HnswTuple) : Prop := {
  fr_element : room p true (fo_offno f) es;
  fr_neighbor np : fo_nbuf f <> buf -> block (rd_main (index s)) (fo_nbuf f) = Some np -> room np true (fo_neighborOffno f) ns;
  fr_same p' : fo_nbuf f = buf -> page_put p p' (fo_offno f) etup ->
    PageGetExactFreeSpace p' = space_left p true (fo_offno f) es -> room p' true (fo_neighborOffno f) ns
}.

Lemma free_offset_distinct f : free_offset_ok s buf p es ns f -> fo_nbuf f = buf -> fo_neighborOffno f <> fo_offno f.
Proof.
  intros [(etup & Ht & Hd & _ & Hb & Ho) _ _] Hf Heq.
  destruct (neighbor_page _ _ Ht Hd) as (_ & np & nitem & ntup & Hnp & _ & Hnt). rewrite Hb, Hf, Hp in Hnp.
  injection Hnp as <-. rewrite Ho, Heq in Hnt. congruence.
Qed.

Lemma item_length_nonneg b q off it : 1 <= b -> block (rd_main (index s)) b = Some q -> PageGetItemId q off = Ok it ->
  0 <= ItemIdGetLength it.
Proof.
  intros Hb Hq [_ Hit]%PageGetItemId_lookup. destruct (page_item q (ix_pages _ Hix _ _ Hb Hq) _ _ Hit) as (_ & Hl & _).
  unfold ItemIdGetLength. lia.
Qed.

Lemma free_offset_room f etup : MAXALIGN es = es -> MAXALIGN ns = ns -> free_offset_ok s buf p es ns f -> free_room f etup.
Proof.
  intros He Hn Hf. pose proof (free_offset_distinct f Hf) as Hdist.
  destruct Hf as [_ Hnb (np & eitem & nitem & Hnp & Hei & Hni & Hfit)].
  pose proof (item_length_nonneg _ _ _ _ Hbuf Hp Hei) as Hel. pose proof (item_length_nonneg _ _ _ _ Hnb Hnp Hni) as Hnl.
  destruct (MAXALIGN_spec _ Hel) as [Hel' _], (MAXALIGN_spec _ Hnl) as [Hnl' _].
  unfold free_space_fits in Hfit. apply andb_true_iff in Hfit as [H1 H2]. apply Z.leb_le in H1, H2.
  split; unfold room.
  - exists eitem. split; [done|]. lia.
  - intros np' Hne Hnp'. rewrite Hnp in Hnp'. injection Hnp' as <-. exists nitem. split; [done|].
    rewrite (proj2 (Z.eqb_neq _ _) Hne) in H2. cbn [negb] in H2. lia.
  - intros p' Heq Hput Hfree. rewrite Heq, Hp in Hnp. injection Hnp as <-.
    destruct (pp_items _ _ _ _ Hput _ _ (Hdist Heq) Hni) as (it' & Hit' & Hlen). exists it'. split; [done|].
    rewrite Hlen, Hfree. unfold space_left. rewrite Hei. rewrite Heq, Z.eqb_refl in H2. cbn [negb] in H2.
    rewrite (proj2 (Z.leb_le _ _) H1) in H2. lia.
Qed.

Lemma HnswFreeOffset_run nip :
  exists f nip', HnswFreeOffset buf p es ns nip open1 = Ok ((f, nip'), open1) /\
    (nip' = nip \/ BlockNumberIsValid nip = false /\ nip' = buf) /\
    match f with Some f => free_offset_ok s buf p es ns f /\ BlockNumberIsValid nip' = true | None => True end.
Proof.
  pose proof (ix_pages _ Hix _ _ Hbuf Hp) as Hok. unfold HnswFreeOffset.
  apply free_offset_loop_run; [done|]. rewrite (PageGetMaxOffsetNumber_eq _ Hok). unfold FirstOffsetNumber. lia.
Qed.
End FreeOffset.

(** ** New pages *)

(** [rel'] has the tuples of [rel], and its links. *)
Record grown (rel rel' : Relation) : Prop := {
  gw_tuples b off : tuple_at rel' b off = tuple_at rel b off;
  gw_items : items_kept rel rel';
  gw_chain : all_reached rel -> all_reached rel';
  gw_links b b' : 1 <= b -> links_to rel b b' -> links_to rel' b b';
  gw_meta : block (rd_main rel') HNSW_METAPAGE_BLKNO = block (rd_main rel) HNSW_METAPAGE_BLKNO;
  gw_length : nlen rel <= nlen rel';
  gw_rel : rel' = with_pages rel MAIN_FORKNUM (rd_main rel')
}.

#[export] Instance grown_preorder : PreOrder grown.
Proof.
  split.
  - intros rel. split; try done. by destruct rel.
  - intros r1 r2 r3 [A1 Ai Ac A2 A3 A4 A5] [B1 Bi Bc B2 B3 B4 B5]. split; [congruence|by etrans|auto|auto|congruence|lia|].
    rewrite B5, A5. by destruct r1.
Qed.

Lemma set_nextblkno_ok b p : page_ok p -> page_ok (set_nextblkno b p).
Proof. intros [? ? ? ? ? ? ? ?]. by split. Qed.


Section Append.
Context (building : bool) (s : Backend) (b : BlockNumber) (p : Page).
Context (Hix : index_ok (index s)) (Hb1 : 1 <= b) (Hb : block (rd_main (index s)) b = Some p).

#[local] Abbreviation n := (nlen (index s)).
#[local] Abbreviation l2 := [(b, set_nextblkno n p); (n, HnswInitPage)].
#[local] Abbreviation grown_state := (commit_state MAIN_FORKNUM l2 (extended MAIN_FORKNUM s)).

Lemma append_range : 1 <= b < n.
Proof. apply block_lookup in Hb as [_ Hl]. apply lookup_lt_Some in Hl. lia. Qed.

Lemma append_images_ok : images_ok (rd_main (index (extended MAIN_FORKNUM s))) l2.
Proof.
  pose proof append_range. split.
  - apply list.NoDup_cons. split; [|apply NoDup_singleton]. intros Hin%list_elem_of_singleton. simpl in Hin. lia.
  - simpl. rewrite length_app. simpl. repeat constructor; simpl; lia.
Qed.

Lemma HnswInsertAppendPage_run :
  HnswInsertAppendPage (page_ref building b) building (session MAIN_FORKNUM building [(b, p)] s) =
  Ok ((n, page_ref building n), session MAIN_FORKNUM building l2 (extended MAIN_FORKNUM s)).
Proof.
  pose proof append_range as Hr. pose proof (session1_ok s b p Hb1 Hb) as Hok1. unfold HnswInsertAppendPage, HnswNewBuffer.
  run (session_new MAIN_FORKNUM building [(b, p)] s Hok1).
  pose proof (session_new_ok MAIN_FORKNUM [(b, p)] s Hok1) as Hok2.
  assert (image [(b, p)] n = None) as Him by (simpl; by rewrite decide_False by lia).
  assert (block (rd_pages (index (extended MAIN_FORKNUM s)) MAIN_FORKNUM) n = Some zero_page) as Hz.
  { apply block_lookup. split; [lia|]. simpl. rewrite Nat2Z.id. by apply list_lookup_middle. }
  run (session_register MAIN_FORKNUM building _ _ Hok2 n zero_page Him Hz ltac:(simpl; lia)).
  pose proof (session_register_ok MAIN_FORKNUM _ _ Hok2 n zero_page Him Hz) as Hok3.
  assert (image ([(b, p)] ++ [(n, zero_page)]) n = Some zero_page) as Him2
    by (simpl; rewrite decide_False by lia; by rewrite decide_True).
  run (session_write MAIN_FORKNUM building _ _ Hok3 n HnswInitPage ltac:(by eexists)).
  pose proof (set_image_ok _ n HnswInitPage _ Hok3) as Hok4.
  assert (set_image n HnswInitPage ([(b, p)] ++ [(n, zero_page)]) = [(b, p); (n, HnswInitPage)]) as Heq
    by (unfold set_image; simpl; rewrite decide_False by lia; by rewrite decide_True).
  rewrite Heq in *.
  assert (modify_page MAIN_FORKNUM (page_ref building b) (set_nextblkno n)
    (session MAIN_FORKNUM building [(b, p); (n, HnswInitPage)] (extended MAIN_FORKNUM s)) =
    Ok (tt, session MAIN_FORKNUM building l2 (extended MAIN_FORKNUM s))) as Hmod.
  { unfold modify_page. assert (image [(b, p); (n, HnswInitPage)] b = Some p) as Himb by (simpl; by rewrite decide_True).
    run (session_read MAIN_FORKNUM building _ _ Hok4 b p Himb). rewrite session_write by (done || by eexists).
    unfold set_image. simpl. rewrite decide_True by done. by rewrite decide_False by lia. }
  by run Hmod.
Qed.

Context (Hlast : nextblkno p = InvalidBlockNumber) (Hroom : n < InvalidBlockNumber).

Lemma block_grown c : block (rd_main (index grown_state)) c =
  if decide (c = b) then Some (set_nextblkno n p) else if decide (c = n) then Some HnswInitPage
  else block (rd_main (index s)) c.
Proof.
  pose proof append_range. unfold commit_state. cbn [index with_index].
  change (rd_main (with_pages ?r MAIN_FORKNUM ?pages)) with pages.
  rewrite block_apply_images by apply append_images_ok. unfold image_or. cbn [image].
  repeat case_decide; try lia; try congruence.
  simpl. unfold block. destruct (Z.ltb_spec c 0); [done|].
  destruct (decide (Z.to_nat c < length (rd_main (index s)))%nat); [by rewrite lookup_app_l|].
  rewrite !lookup_ge_None_2; rewrite ?length_app; simpl; try done; lia.
Qed.

Lemma length_grown : nlen (index grown_state) = n + 1.
Proof. simpl. rewrite !length_insert, length_app. simpl. lia. Qed.

Lemma grown_link : links_to (index grown_state) b n.
Proof.
  eexists. split; [rewrite block_grown, decide_True by done; done|]. split; [done|].
  unfold BlockNumberIsValid. rewrite negb_true_iff, Z.eqb_neq. lia.
Qed.

Lemma grown_tuples c off : tuple_at (index grown_state) c off = tuple_at (index s) c off.
Proof.
  unfold tuple_at. rewrite block_grown. case_decide as H1; [subst c; by rewrite Hb|].
  case_decide as H2; [|done]. subst c.
  assert (block (rd_main (index s)) n = None) as -> by (unfold block; rewrite lookup_ge_None_2 by lia; by destruct (_ <? _)).
  unfold page_tuple, PageGetItemId. by destruct (off <? 1).
Qed.

Lemma grown_links c c' : 1 <= c -> links_to (index s) c c' -> links_to (index grown_state) c c'.
Proof.
  pose proof append_range as Hr. intros Hc (q & Hq & Hn & Hv). exists (if decide (c = b) then set_nextblkno n p else q).
  rewrite block_grown. case_decide as H1.
  - subst c. rewrite Hb in Hq. injection Hq as ->. rewrite Hlast in Hn. subst c'. done.
  - rewrite decide_False; [done|]. intros ->. apply block_lookup in Hq as [_ Hq]. apply lookup_lt_Some in Hq. lia.
Qed.

Lemma grown_ok : grown (index s) (index grown_state).
Proof.
  pose proof append_range as Hr. split; [apply grown_tuples| | |apply grown_links| |rewrite length_grown; lia|done].
  - intros c o k (q & it & Hq & Hit). destruct (decide (c = b)) as [->|Hc].
    + rewrite Hb in Hq. injection Hq as <-. exists (set_nextblkno n p), it. by rewrite block_grown, decide_True.
    + exists q, it. rewrite block_grown, !decide_False; [done| |done]. intros ->. apply block_lookup in Hq as [_ Hq]. apply lookup_lt_Some in Hq. lia.
  - intros Hall c Hc. rewrite length_grown in Hc.
    assert (Hold : forall c, 1 <= c < n -> reach (index grown_state) HNSW_HEAD_BLKNO c).
    { intros c' Hc'. apply (reach_links (index s)); [done|apply grown_links|done|]. by apply Hall. }
    destruct (decide (c = n)) as [->|Hne]; [|apply Hold; lia]. eapply rtc_r; [apply (Hold b); lia|apply grown_link].
  - rewrite block_grown. unfold HNSW_METAPAGE_BLKNO. by rewrite !decide_False by lia.
Qed.

Lemma index_ok_grown : index_ok (index grown_state).
Proof.
  pose proof append_range as Hr. split.
  - rewrite length_grown. lia.
  - intros c q Hc. rewrite block_grown. case_decide; [intros [= <-]; exact (set_nextblkno_ok _ _ (ix_pages _ Hix _ _ Hb1 Hb))|].
    case_decide; [intros [= <-]; apply HnswInitPage_ok|]. by apply (ix_pages _ Hix).
  - intros c q Hc. rewrite block_grown, length_grown. case_decide; [intros [= <-]; right; change (nextblkno (set_nextblkno n p)) with n; lia|].
    case_decide; [intros [= <-]; by left|]. intros Hq. destruct (ix_next _ Hix c q Hc Hq); [by left|right; lia].
  - intros c off etup Hc. rewrite grown_tuples. intros Ht Hd. destruct (ix_deleted _ Hix c off etup Hc Ht Hd) as (H1 & nt & H2).
    split; [done|]. exists nt. by rewrite grown_tuples.
Qed.
End Append.

(** ** The place of an element *)

Record sizes_ok (sz : TupleSizes) : Prop := {
  sk_etup : 0 < etupSize sz <= 8080 /\ MAXALIGN (etupSize sz) = etupSize sz;
  sk_ntup : 0 < ntupSize sz <= 8152 /\ MAXALIGN (ntupSize sz) = ntupSize sz;
  sk_combined : combinedSize sz = etupSize sz + ntupSize sz + sizeof_ItemIdData
}.

(** The tuples have room at their offsets: first the element tuple, then the
    neighbor tuple. *)
Record place_room (sz : TupleSizes) (pl : Place) (p np : Page) : Prop := {
  pr_element : room p (bool_decide (is_Some (pl_free pl))) (place_offsets pl p).1 (etupSize sz);
  pr_neighbor : pl_nbuf pl <> pl_buf pl -> room np (bool_decide (is_Some (pl_free pl))) (place_offsets pl p).2 (ntupSize sz);
  pr_distinct : pl_nbuf pl = pl_buf pl -> (place_offsets pl p).2 <> (place_offsets pl p).1;
  pr_same p' tup : pl_nbuf pl = pl_buf pl -> page_put p p' (place_offsets pl p).1 tup ->
    PageGetExactFreeSpace p' = space_left p (bool_decide (is_Some (pl_free pl))) (place_offsets pl p).1 (etupSize sz) ->
    room p' (bool_decide (is_Some (pl_free pl))) (place_offsets pl p).2 (ntupSize sz)
}.

(** Where the tuples go: the place of a deleted element, or new offsets of
    pages of the chain. *)
Definition place_target (rel : Relation) (start : BlockNumber) (pl : Place) (p np : Page) : Prop :=
  match pl_free pl with
  | Some f => (exists old, page_tuple p (fo_offno f) = Ok (ElementTuple old) /\ et_deleted old <> 0 /\
      fo_version f = et_version old /\ ItemPointerGetBlockNumber (et_neighbortid old) = pl_nbuf pl /\
      ItemPointerGetOffsetNumber (et_neighbortid old) = fo_neighborOffno f) /\
      exists nt, page_tuple np (fo_neighborOffno f) = Ok (NeighborTuple nt)
  | None => reach rel start (pl_nbuf pl)
  end.

(** [find_place] returned [pl] with the pages of [l] open in the state [s1]. *)
Record placed (s : Backend) (building : bool) (start : BlockNumber) (sz : TupleSizes)
    (pl : Place) (s1 : Backend) (l : list (BlockNumber * Page)) (p np : Page) : Prop := {
  pc_images : images_ok (rd_main (index s1)) l;
  pc_xlog : xlog s1 = None;
  pc_mem : mem s1 = mem s;
  pc_index : index_ok (index (commit_state MAIN_FORKNUM l s1));
  pc_grown : grown (index s) (index (commit_state MAIN_FORKNUM l s1));
  pc_refs : pl_page pl = page_ref building (pl_buf pl) /\ pl_npage pl = page_ref building (pl_nbuf pl);
  pc_buf : 1 <= pl_buf pl /\ image l (pl_buf pl) = Some p;
  pc_nbuf : 1 <= pl_nbuf pl /\ image l (pl_nbuf pl) = Some np;
  pc_reach : reach (index (commit_state MAIN_FORKNUM l s1)) start (pl_buf pl);
  pc_insert : reach (index (commit_state MAIN_FORKNUM l s1)) start
    (if negb (BlockNumberIsValid (pl_newInsertPage pl)) then pl_nbuf pl else pl_newInsertPage pl);
  pc_target : place_target (index (commit_state MAIN_FORKNUM l s1)) start pl p np;
  pc_room : place_room sz pl p np
}.

Lemma init_page_free : PageGetFreeSpace HnswInitPage = 8156 /\ PageGetMaxOffsetNumber HnswInitPage = 0.
Proof. by vm_compute. Qed.

Lemma free_space_exact p : page_ok p -> 0 < PageGetFreeSpace p -> PageGetExactFreeSpace p = PageGetFreeSpace p + sizeof_ItemIdData.
Proof.
  intros Hok. rewrite (PageGetExactFreeSpace_eq p Hok). unfold PageGetFreeSpace. case_cmp; lia.
Qed.

Lemma exact_free_space p n : PageGetExactFreeSpace p = n -> sizeof_ItemIdData <= n -> PageGetFreeSpace p = n - sizeof_ItemIdData.
Proof. unfold PageGetExactFreeSpace, PageGetFreeSpace, sizeof_ItemIdData. intros <-. case_cmp; lia. Qed.

(** Both tuples at the end of one page. *)
Lemma room_both sz pl p : sizes_ok sz -> page_ok p -> pl_free pl = None -> pl_nbuf pl = pl_buf pl ->
  combinedSize sz <= PageGetFreeSpace p -> place_room sz pl p p.
Proof.
  intros [[He1 He2] [Hn1 Hn2] Hc] Hok Hf Hb Hroom. unfold sizeof_ItemIdData in Hc.
  assert (place_offsets pl p = (PageGetMaxOffsetNumber p + 1, PageGetMaxOffsetNumber p + 2)) as Ho.
  { unfold place_offsets. rewrite Hf, Hb, Z.eqb_refl, (PageNextOffset_eq p Hok), (PageGetMaxOffsetNumber_eq p Hok).
    pose proof (nitems_bound p Hok). unfold OffsetNumberNext. rewrite u16_small by lia. f_equal. lia. }
  pose proof (free_space_exact p Hok ltac:(lia)) as Hex. unfold sizeof_ItemIdData in Hex.
  split; rewrite ?Ho, ?Hf; simpl; [split; [done|lia]|done|lia|].
  intros p' tup _ Hput Hfree. unfold space_left, sizeof_ItemIdData in Hfree. split; [rewrite (pp_max _ _ _ _ Hput); lia|].
  rewrite (exact_free_space _ _ Hfree) by (unfold sizeof_ItemIdData; lia). unfold sizeof_ItemIdData. lia.
Qed.

(** The neighbor tuple on a new page of its own. *)
Lemma room_apart sz pl p : sizes_ok sz -> page_ok p -> pl_free pl = None -> pl_nbuf pl <> pl_buf pl ->
  etupSize sz <= PageGetFreeSpace p -> place_room sz pl p HnswInitPage.
Proof.
  intros [[He1 He2] [Hn1 Hn2] Hc] Hok Hf Hb Hroom. destruct init_page_free as [Hi1 Hi2].
  assert (place_offsets pl p = (PageGetMaxOffsetNumber p + 1, 1)) as Ho.
  { unfold place_offsets. rewrite Hf, (proj2 (Z.eqb_neq _ _) Hb), (PageNextOffset_eq p Hok). by rewrite (PageGetMaxOffsetNumber_eq p Hok). }
  split; rewrite ?Ho, ?Hf; simpl; [split; [done|lia]| |done|done].
  intros _. split; [by rewrite Hi2|lia].
Qed.

(** Both over the tuples of a deleted element. *)
Lemma room_free sz pl s p np f : index_ok (index s) -> 1 <= pl_buf pl -> block (rd_main (index s)) (pl_buf pl) = Some p ->
  sizes_ok sz -> pl_free pl = Some f -> pl_nbuf pl = fo_nbuf f -> block (rd_main (index s)) (fo_nbuf f) = Some np ->
  free_offset_ok s (pl_buf pl) p (etupSize sz) (ntupSize sz) f -> place_room sz pl p np.
Proof.
  intros Hix Hb1 Hb [[He1 He2] [Hn1 Hn2] Hc] Hf Hnb Hnp Hok.
  assert (place_offsets pl p = (fo_offno f, fo_neighborOffno f)) as Ho by (unfold place_offsets; by rewrite Hf).
  split; rewrite ?Ho, ?Hf; simpl.
  - by destruct (free_offset_room s _ p _ _ Hix Hb1 Hb f (NeighborTuple (mkHnswNeighborTuple 0 0 [])) He2 Hn2 Hok).
  - intros Hne. destruct (free_offset_room s _ p _ _ Hix Hb1 Hb f (NeighborTuple (mkHnswNeighborTuple 0 0 [])) He2 Hn2 Hok) as [_ H _].
    apply H; [congruence|done].
  - intros Heq. apply (free_offset_distinct s _ p _ _ Hix Hb1 Hb f Hok). congruence.
  - intros p' tup Heq Hput Hfree. destruct (free_offset_room s _ p _ _ Hix Hb1 Hb f tup He2 Hn2 Hok) as [_ _ H].
    apply H; [congruence|done|done].
Qed.

Lemma commit_same l s : Forall (fun x => block (rd_main (index s)) x.1 = Some x.2) l -> commit_state MAIN_FORKNUM l s = s.
Proof.
  intros Hl. unfold commit_state. simpl. assert (apply_images l (rd_main (index s)) = rd_main (index s)) as ->.
  { unfold apply_images. induction Hl as [|[b p] l Hb Hl IH]; simpl; [done|].
    apply block_lookup in Hb as [_ Hb]. simpl in Hb. by rewrite list_insert_id. }
  destruct s as [m [] x]. done.
Qed.

Lemma reach_grown rel rel' a b : index_ok rel -> grown rel rel' -> 1 <= a -> reach rel a b -> reach rel' a b.
Proof.
  intros Hix Hg Ha. by apply reach_links; [|apply (gw_links _ _ Hg)|].
Qed.

(** The insert page so far: the first one found, if any. *)
Definition insert_page_ok (rel : Relation) (start nip : BlockNumber) : Prop :=
  BlockNumberIsValid nip = true -> reach rel start nip.

Section FindPlace.
Context (building : bool) (s : Backend) (start : BlockNumber) (sz : TupleSizes).
Context (Hx : xlog s = None) (Hix : index_ok (index s)) (Hsz : sizes_ok sz) (Hstart : 1 <= start).

(** Where [find_place] may stop, with at most [more] new pages. *)
Definition found (more : Z) (r : res (Place * Backend)) : Prop :=
  exists pl s1 l p np, r = Ok (pl, session MAIN_FORKNUM building l s1) /\ placed s building start sz pl s1 l p np /\
    nlen (index (commit_state MAIN_FORKNUM l s1)) <= nlen (index s) + more.

Lemma found_more more more' r : more <= more' -> found more r -> found more' r.
Proof. intros Hle (pl & s1 & l & p & np & H1 & H2 & H3). exists pl, s1, l, p, np. split_and!; [done|done|lia]. Qed.

Lemma found_here b p nip : 1 <= b -> block (rd_main (index s)) b = Some p -> reach (index s) start b ->
  insert_page_ok (index s) start nip -> combinedSize sz <= PageGetFreeSpace p ->
  found 0 (Ok (mkPlace b (page_ref building b) b (page_ref building b) None nip, session MAIN_FORKNUM building [(b, p)] s)).
Proof.
  intros Hb1 Hb Hr Hn Hroom. pose proof (session1_ok s b p Hb1 Hb) as Hl.
  assert (commit_state MAIN_FORKNUM [(b, p)] s = s) as Hc by (apply commit_same; by repeat constructor).
  eexists _, _, _, p, p. split; [done|]. split; [|rewrite Hc; lia]. split; rewrite ?Hc; simpl; try done.
  - by rewrite decide_True.
  - by rewrite decide_True.
  - destruct (BlockNumberIsValid nip) eqn:E; simpl; [by apply Hn|done].
  - apply room_both; try done. by eapply ix_pages.
Qed.

Lemma found_free b p nip f np : 1 <= b -> block (rd_main (index s)) b = Some p -> reach (index s) start b ->
  insert_page_ok (index s) start nip -> BlockNumberIsValid nip = true ->
  free_offset_ok s b p (etupSize sz) (ntupSize sz) f -> block (rd_main (index s)) (fo_nbuf f) = Some np ->
  found 0 (Ok (mkPlace b (page_ref building b) (fo_nbuf f) (page_ref building (fo_nbuf f)) (Some f) nip,
    session MAIN_FORKNUM building (if decide (fo_nbuf f = b) then [(b, p)] else [(b, p); (fo_nbuf f, np)]) s)).
Proof.
  intros Hb1 Hb Hr Hn Hv Hf Hnp. pose proof (session1_ok s b p Hb1 Hb) as Hl.
  set (l := if decide (fo_nbuf f = b) then _ else _).
  assert (commit_state MAIN_FORKNUM l s = s) as Hc
    by (apply commit_same; unfold l; case_decide; by repeat constructor).
  exists (mkPlace b (page_ref building b) (fo_nbuf f) (page_ref building (fo_nbuf f)) (Some f) nip), s, l, p, np.
  split; [done|]. split; [|rewrite Hc; lia]. pose proof Hf as [(old & Hold & Hd & Hver & Hnb & Hno) Hnb1 _].
  split; rewrite ?Hc; simpl; try done.
  - unfold l. case_decide; [done|]. apply (session_register_ok MAIN_FORKNUM [(b, p)] s Hl (fo_nbuf f) np); [|done].
    simpl. by rewrite decide_False.
  - split; [done|]. unfold l. by case_decide; simpl; rewrite decide_True.
  - split; [done|]. unfold l. case_decide as Hd'; simpl.
    + rewrite decide_True by done. rewrite Hd' in Hnp. congruence.
    + rewrite decide_False by done. by rewrite decide_True.
  - rewrite Hv. by apply Hn.
  - split; [by exists old|]. destruct (neighbor_page s b p Hix Hb1 Hb _ _ Hold Hd) as (_ & np' & nit & nt & H1 & _ & H2).
    rewrite Hnb, Hnp in H1. injection H1 as <-. rewrite Hno in H2. by exists nt.
  - by eapply room_free.
Qed.

Lemma found_neighbors_page b p nip : nlen (index s) < InvalidBlockNumber -> 1 <= b -> block (rd_main (index s)) b = Some p -> reach (index s) start b ->
  insert_page_ok (index s) start nip -> nextblkno p = InvalidBlockNumber -> etupSize sz <= PageGetFreeSpace p ->
  found 1 (Ok (mkPlace b (page_ref building b) (nlen (index s)) (page_ref building (nlen (index s))) None nip,
    session MAIN_FORKNUM building [(b, set_nextblkno (nlen (index s)) p); (nlen (index s), HnswInitPage)] (extended MAIN_FORKNUM s))).
Proof.
  intros Hnl Hb1 Hb Hr Hn Hlast Hroom. pose proof (append_range s b p Hb1 Hb) as Hrange.
  pose proof (grown_ok s b p Hix Hb1 Hb Hlast Hnl) as Hg. pose proof (grown_link s b p Hb1 Hb Hnl) as Hlink.
  assert (reach (index (commit_state MAIN_FORKNUM [(b, set_nextblkno (nlen (index s)) p); (nlen (index s), HnswInitPage)]
    (extended MAIN_FORKNUM s))) start b) as Hr' by (by eapply reach_grown).
  eexists _, _, _, _, _. split; [done|]. split; [|pose proof (length_grown s b p); lia]. split; simpl pl_buf; simpl pl_nbuf; simpl pl_newInsertPage; try done.
  - by apply append_images_ok.
  - by apply index_ok_grown.
  - split; [done|]. simpl. by rewrite decide_True.
  - split; [lia|]. simpl. rewrite decide_False by lia. by rewrite decide_True.
  - destruct (BlockNumberIsValid nip) eqn:E; simpl negb; cbn iota; [by eapply reach_grown, Hn|by eapply rtc_r].
  - unfold place_target. simpl. by eapply rtc_r.
  - apply room_apart; simpl; try done; [|lia]. apply set_nextblkno_ok. by eapply ix_pages.
Qed.
End FindPlace.

Lemma placed_grown s s' building start sz pl s1 l p np : grown (index s) (index s') -> mem s' = mem s ->
  placed s' building start sz pl s1 l p np -> placed s building start sz pl s1 l p np.
Proof. intros Hg Hm [H1 H2 H3 H4 H5 H6 H7 H8 H9 H10 H11 H12]. split; try done; [congruence|by etrans]. Qed.

Lemma append_place_run building s start sz b p nip :
  xlog s = None -> index_ok (index s) -> sizes_ok sz -> 1 <= start -> nlen (index s) + 2 <= InvalidBlockNumber ->
  1 <= b -> block (rd_main (index s)) b = Some p -> reach (index s) start b ->
  insert_page_ok (index s) start nip -> nextblkno p = InvalidBlockNumber ->
  found building s start sz 2
    (append_place building sz (page_ref building b) nip (session MAIN_FORKNUM building [(b, p)] s)).
Proof.
  intros Hx Hix Hsz Hstart Hsize Hb1 Hb Hr Hn Hlast. pose proof (append_range s b p Hb1 Hb) as Hrange.
  assert (Hnl : nlen (index s) < InvalidBlockNumber) by lia. unfold append_place.
  run (HnswInsertAppendPage_run building s b p Hb1 Hb). set (n := nlen (index s)) in *.
  pose proof (append_images_ok s b p Hb1 Hb) as Hl2. fold n in Hl2.
  run (session_commit MAIN_FORKNUM building [(b, set_nextblkno n p); (n, HnswInitPage)] (extended MAIN_FORKNUM s) Hx).
  set (s1 := commit_state _ _ _).
  pose proof (index_ok_grown s b p Hix Hb1 Hb Hnl) as Hix1. pose proof (grown_ok s b p Hix Hb1 Hb Hlast Hnl) as Hg.
  pose proof (grown_link s b p Hb1 Hb Hnl) as Hlink. pose proof (length_grown s b p) as Hlen.
  fold n s1 in Hix1, Hg, Hlink, Hlen.
  assert (block (rd_main (index s1)) n = Some HnswInitPage) as Hbn.
  { pose proof (block_grown s b p Hb1 Hb n) as H. fold n s1 in H. rewrite H, decide_False by lia. by rewrite decide_True. }
  assert (reach (index s1) start n) as Hrn by (apply (rtc_r start b n); [by apply (reach_grown (index s))|done]).
  assert (insert_page_ok (index s1) start nip) as Hn1 by (intros Hv; apply (reach_grown (index s)); [done|done|done|by apply Hn]).
  run (session_open MAIN_FORKNUM building s1 n HnswInitPage Hbn).
  assert (image [(n, HnswInitPage)] n = Some HnswInitPage) as Him by (simpl; by rewrite decide_True).
  run (session_read MAIN_FORKNUM building _ s1 (session1_ok s1 n HnswInitPage ltac:(lia) Hbn) n _ Him).
  assert (forall r, found building s1 start sz 1 r -> found building s start sz 2 r) as Hlift.
  { intros r (pl & s2 & l & q & nq & Hrun & Hpl & Hm). exists pl, s2, l, q, nq. split; [done|]. split; [by eapply placed_grown|lia]. }
  destruct init_page_free as [Hfree _]. destruct Hsz as [Hs1 Hs2 Hs3] eqn:Hszeq.
  destruct (Z.ltb_spec (PageGetFreeSpace HnswInitPage) (combinedSize sz)); apply Hlift.
  - run (HnswInsertAppendPage_run building s1 n HnswInitPage ltac:(lia) Hbn).
    apply found_neighbors_page; try done; lia.
  - apply (found_more _ _ _ _ 0); [lia|]. apply found_here; try done; lia.
Qed.

(** Links go forward, so the pages are as many steps as needed. *)
Lemma find_place_run building s start sz fuel b nip :
  xlog s = None -> index_ok (index s) -> sizes_ok sz -> 1 <= start -> nlen (index s) + 2 <= InvalidBlockNumber ->
  1 <= b < nlen (index s) -> nlen (index s) - b <= Z.of_nat fuel -> reach (index s) start b ->
  insert_page_ok (index s) start nip ->
  found building s start sz 2 (find_place fuel building sz b nip s).
Proof.
  intros Hx Hix Hsz Hstart Hsize. revert b nip. induction fuel as [|fuel IH]; intros b nip Hb Hf Hr Hn; [lia|].
  destruct (lookup_lt_is_Some_2 (rd_main (index s)) (Z.to_nat b) ltac:(lia)) as [p Hp].
  assert (block (rd_main (index s)) b = Some p) as Hbp by (apply block_lookup; split; [lia|done]).
  pose proof (session1_ok s b p ltac:(lia) Hbp) as Hl.
  assert (image [(b, p)] b = Some p) as Him by (simpl; by rewrite decide_True).
  cbn [find_place]. run (ReadBuffer_run s b p Hbp). run (session_open MAIN_FORKNUM building s b p Hbp).
  run (session_read MAIN_FORKNUM building _ s Hl b p Him). cbn zeta.
  set (nip1 := if negb (BlockNumberIsValid nip) && (minCombinedSize sz <=? PageGetFreeSpace p) then b else nip).
  assert (insert_page_ok (index s) start nip1) as Hn1 by (unfold nip1; destruct (_ && _); [by intros _|done]).
  destruct (Z.leb_spec (combinedSize sz) (PageGetFreeSpace p)) as [|Hno];
    [apply (found_more _ _ _ _ 0); [lia|]; by apply found_here; try done; lia|].
  destruct (HnswFreeOffset_run building s b p (etupSize sz) (ntupSize sz) Hix ltac:(lia) Hbp nip1) as (f & nip2 & Hrun & Hnip & Hfree).
  run Hrun.
  assert (insert_page_ok (index s) start nip2) as Hn2 by (destruct Hnip as [->|[_ ->]]; [done|by intros _]).
  destruct f as [f|].
  - destruct Hfree as [Hfok Hv]. pose proof Hfok as [_ Hfb (np & _ & _ & Hnp & _)].
    pose proof (found_free building s start sz Hx Hix Hsz b p nip2 f np ltac:(lia) Hbp Hr Hn2 Hv Hfok Hnp) as Hfound.
    apply (found_more _ _ _ _ 0 2) in Hfound; [|lia]. destruct (Z.eqb_spec (fo_nbuf f) b) as [Heq|Hne]; [rewrite decide_True in Hfound by done; rewrite Heq in Hfound |- *; exact Hfound|].
    rewrite decide_False in Hfound by done.
    assert (image [(b, p)] (fo_nbuf f) = None) as Himf by (simpl; by rewrite decide_False).
    by run (session_register MAIN_FORKNUM building [(b, p)] s Hl (fo_nbuf f) np Himf Hnp ltac:(simpl; lia)).
  - destruct (ix_next _ Hix b p ltac:(lia) Hbp) as [Hlast|Hnext].
    + rewrite Hlast. cbn [BlockNumberIsValid Z.eqb]. change (BlockNumberIsValid InvalidBlockNumber) with false.
      cbn [negb]. rewrite andb_true_r. destruct ((maxSize sz <? combinedSize sz) && (etupSize sz <=? PageGetFreeSpace p)) eqn:Hsplit.
      * apply andb_true_iff in Hsplit as [_ Hfit%Z.leb_le].
        run (HnswInsertAppendPage_run building s b p ltac:(lia) Hbp).
        apply (found_more _ _ _ _ 1); [lia|]. by apply found_neighbors_page; try done; lia.
      * by apply append_place_run; try done; lia.
    + assert (BlockNumberIsValid (nextblkno p) = true) as Hv
        by (unfold BlockNumberIsValid; rewrite negb_true_iff, Z.eqb_neq; lia).
      rewrite Hv, andb_false_r. run (session_abort MAIN_FORKNUM building b p s Hx Hbp).
      apply IH; [lia|lia| |done]. apply (rtc_r start b (nextblkno p)); [done|]. by exists p.
Qed.

(** ** Both tuples written *)

Lemma page_tuple_past p off : page_ok p -> PageGetMaxOffsetNumber p < off -> page_tuple p off = Err UndefinedBehaviour.
Proof.
  intros Hok. rewrite (PageGetMaxOffsetNumber_eq p Hok). intros Ho. unfold page_tuple, PageGetItemId.
  destruct (Z.ltb_spec off 1); [done|]. by rewrite lookup_ge_None_2 by lia.
Qed.

Section WriteTuples.
Context (building : bool) (s : Backend) (start : BlockNumber) (sz : TupleSizes).
Context (pl : Place) (s1 : Backend) (l : list (BlockNumber * Page)) (p np : Page).
Context (Hpl : placed s building start sz pl s1 l p np) (Hsz : sizes_ok sz).
Context (elems : gmap addr HnswElementData).

#[local] Abbreviation b := (pl_buf pl).
#[local] Abbreviation nb := (pl_nbuf pl).
#[local] Abbreviation off := (place_offsets pl p).1.
#[local] Abbreviation noff := (place_offsets pl p).2.
#[local] Abbreviation free := (bool_decide (is_Some (pl_free pl))).
#[local] Abbreviation P := (index (commit_state MAIN_FORKNUM l s1)).

(** The pages after the two tuples are written, over those of [P]. *)
Record both_put (rel : Relation) (etup ntup : HnswTuple) : Prop := {
  bp_tuple : tuple_at rel b off = Some etup;
  bp_neighbor : tuple_at rel nb noff = Some ntup;
  bp_others b' off' : (b', off') <> (b, off) -> (b', off') <> (nb, noff) -> tuple_at rel b' off' = tuple_at P b' off';
  bp_size : item_length rel nb noff (ntupSize sz);
  bp_items b' off' k : (b', off') <> (b, off) -> (b', off') <> (nb, noff) -> item_length P b' off' k -> item_length rel b' off' k;
  bp_pages b' q' : block (rd_main rel) b' = Some q' -> exists q, block (rd_main P) b' = Some q /\
    (page_ok q -> page_ok q') /\ pd_opaque q' = pd_opaque q;
  bp_links a c : links_to P a c -> links_to rel a c;
  bp_meta : block (rd_main rel) HNSW_METAPAGE_BLKNO = block (rd_main P) HNSW_METAPAGE_BLKNO;
  bp_length : nlen rel = nlen P;
  bp_rel : rel = with_pages P MAIN_FORKNUM (rd_main rel)
}.

Lemma place_pages : block (rd_main P) b = Some p /\ block (rd_main P) nb = Some np /\ page_ok p /\ page_ok np.
Proof.
  destruct (pc_buf _ _ _ _ _ _ _ _ _ Hpl) as [Hb1 Hb], (pc_nbuf _ _ _ _ _ _ _ _ _ Hpl) as [Hn1 Hn].
  assert (forall c q, image l c = Some q -> block (rd_main P) c = Some q) as Him.
  { intros c q Hq. simpl. rewrite block_apply_images by apply (pc_images _ _ _ _ _ _ _ _ _ Hpl). unfold image_or. by rewrite Hq. }
  pose proof (Him _ _ Hb) as HP. pose proof (Him _ _ Hn) as HN.
  split; [done|]. split; [done|]. split; [by eapply (ix_pages _ (pc_index _ _ _ _ _ _ _ _ _ Hpl) b)|].
  by eapply (ix_pages _ (pc_index _ _ _ _ _ _ _ _ _ Hpl) nb).
Qed.

(** The blocks of a session with two pages changed. *)
Lemma block_two_images pb pn c :
  block (rd_main (index (commit_state MAIN_FORKNUM (set_image nb pn (set_image b pb l)) (with_mem elems s1)))) c =
  if decide (c = nb) then Some pn else if decide (c = b) then Some pb else block (rd_main P) c.
Proof.
  pose proof (pc_images _ _ _ _ _ _ _ _ _ Hpl) as Hl. destruct place_pages as (Hb & Hn & _ & _).
  destruct (pc_buf _ _ _ _ _ _ _ _ _ Hpl) as [_ Hib], (pc_nbuf _ _ _ _ _ _ _ _ _ Hpl) as [_ Hin].
  assert (b ∈ l.*1) by (apply image_elem; by eexists). assert (nb ∈ l.*1) by (apply image_elem; by eexists).
  simpl. rewrite apply_set_image by first [by apply set_image_ok | by rewrite set_image_fst].
  rewrite apply_set_image by done. simpl in Hb, Hn.
  assert (block (<[Z.to_nat b := pb]> (apply_images l (rd_main (index s1)))) nb = Some (if decide (nb = b) then pb else np)) as Hn'
    by (rewrite (block_insert _ _ _ _ p Hb); by case_decide).
  rewrite (block_insert _ _ _ _ _ Hn'). destruct (decide (c = nb)); [done|]. by rewrite (block_insert _ _ _ _ p Hb).
Qed.

(** Pages that took the tuples one after the other. *)
Lemma two_puts_both pb pn etup ntup :
  (if decide (nb = b)
   then pn = pb /\ exists p', page_put p p' off etup /\ page_put p' pb noff ntup
   else page_put p pb off etup /\ page_put np pn noff ntup) -> page_length pn noff (ntupSize sz) ->
  both_put (index (commit_state MAIN_FORKNUM (set_image nb pn (set_image b pb l)) (with_mem elems s1))) etup ntup.
Proof.
  intros Hput Hsize. destruct place_pages as (Hb & Hn & Hpo & Hno). pose proof (pc_room _ _ _ _ _ _ _ _ _ Hpl) as [_ _ Hdist _].
  destruct (pc_buf _ _ _ _ _ _ _ _ _ Hpl) as [Hb1 _], (pc_nbuf _ _ _ _ _ _ _ _ _ Hpl) as [Hn1 _].
  pose proof (block_two_images pb pn) as Hblk.
  set (F := index (commit_state MAIN_FORKNUM (set_image nb pn (set_image b pb l)) (with_mem elems s1))) in *.
  assert (forall c q', block (rd_main F) c = Some q' -> exists q, block (rd_main P) c = Some q /\
    (page_ok q -> page_ok q') /\ pd_opaque q' = pd_opaque q) as Hpages.
  { intros c q'. rewrite Hblk. destruct (decide (nb = b)) as [Heq|Hne].
    - destruct Hput as (-> & p' & [_ _ _ Ho1 _ _] & [Hok _ _ Ho2 _ _]). rewrite Heq.
      destruct (decide (c = b)) as [Hc|Hc]; [|naive_solver]. intros [= <-]. subst c. exists p. split; [done|]. split; [done|congruence].
    - destruct Hput as [[Hok1 _ _ Ho1 _ _] [Hok2 _ _ Ho2 _ _]].
      destruct (decide (c = nb)) as [Hc|Hc]; [intros [= <-]; subst c; by exists np|].
      destruct (decide (c = b)) as [Hc'|Hc']; [intros [= <-]; subst c; by exists p|]. naive_solver. }
  split; try done.
  - unfold tuple_at. rewrite Hblk. destruct (decide (nb = b)) as [Heq|Hne].
    + destruct Hput as (-> & p' & H1 & H2). rewrite Heq, decide_True by done.
      rewrite (pp_others _ _ _ _ H2) by (intros Hc; by apply (Hdist Heq)). by rewrite (pp_tuple _ _ _ _ H1).
    + rewrite decide_False, decide_True by done. destruct Hput as [H1 _]. by rewrite (pp_tuple _ _ _ _ H1).
  - unfold tuple_at. rewrite Hblk, decide_True by done. destruct (decide (nb = b)) as [Heq|Hne].
    + destruct Hput as (-> & p' & _ & H2). by rewrite (pp_tuple _ _ _ _ H2).
    + destruct Hput as [_ H2]. by rewrite (pp_tuple _ _ _ _ H2).
  - intros c o Hc1 Hc2. unfold tuple_at. rewrite Hblk. destruct (decide (nb = b)) as [Heq|Hne].
    + destruct Hput as (-> & p' & H1 & H2). rewrite Heq in Hc2 |- *. destruct (decide (c = b)) as [Hc|Hc]; [|done].
      subst c. rewrite Hb, (pp_others _ _ _ _ H2), (pp_others _ _ _ _ H1) by congruence. done.
    + destruct Hput as [H1 H2]. destruct (decide (c = nb)) as [Hc|Hc].
      * subst c. rewrite Hn, (pp_others _ _ _ _ H2) by congruence. done.
      * destruct (decide (c = b)) as [Hc'|Hc']; [|done]. subst c. rewrite Hb, (pp_others _ _ _ _ H1) by congruence. done.
  - apply (item_length_page _ _ pn); [by rewrite Hblk, decide_True|done].
  - intros c o k Hc1 Hc2 (q & it & Hq & Hit). assert (Hk : page_length q o k) by by exists it.
    specialize (Hblk c). destruct (decide (c = nb)) as [Hcn|Hcn].
    + apply (item_length_page _ _ _ _ _ Hblk). subst c. destruct (decide (nb = b)) as [Heq|Hne].
      * destruct Hput as (-> & p' & H1 & H2). rewrite Heq in Hq, Hc2. rewrite Hb in Hq. injection Hq as <-.
        eapply page_put_length; [exact H2|congruence|]. eapply page_put_length; [exact H1|congruence|done].
      * destruct Hput as [H1 H2]. rewrite Hn in Hq. injection Hq as <-. eapply page_put_length; [exact H2|congruence|done].
    + destruct (decide (c = b)) as [Hcb|Hcb].
      * apply (item_length_page _ _ _ _ _ Hblk). subst c. rewrite decide_False in Hput by done. destruct Hput as [H1 _].
        rewrite Hb in Hq. injection Hq as <-. eapply page_put_length; [exact H1|congruence|done].
      * exists q, it. by rewrite Hblk.
  - intros a c (q & Hq & Hnext & Hv).
    destruct (block (rd_main F) a) as [q'|] eqn:E.
    + exists q'. split; [done|]. destruct (Hpages _ _ E) as (q0 & Hq0 & _ & Ho). rewrite Hq in Hq0. injection Hq0 as <-.
      split; [|done]. unfold nextblkno. by rewrite Ho.
    + rewrite Hblk in E. repeat case_decide; congruence.
  - rewrite Hblk. unfold HNSW_METAPAGE_BLKNO. by rewrite !decide_False by lia.
  - unfold F. simpl. by rewrite !length_apply_images.
Qed.

(** What was at the place of the tuples. *)
Definition place_before : Prop :=
  match pl_free pl with
  | Some f => exists old nt, tuple_at P b off = Some (ElementTuple old) /\ et_deleted old <> 0 /\ fo_version f = et_version old /\
      ItemPointerGetBlockNumber (et_neighbortid old) = nb /\ ItemPointerGetOffsetNumber (et_neighbortid old) = noff /\
      tuple_at P nb noff = Some (NeighborTuple nt)
  | None => tuple_at P b off = None /\ tuple_at P nb noff = None
  end.

Lemma place_before_ok : place_before.
Proof.
  destruct place_pages as (Hb & Hn & Hpo & Hno). pose proof (pc_room _ _ _ _ _ _ _ _ _ Hpl) as [Hr1 Hr2 Hr3 Hr4].
  pose proof (pc_target _ _ _ _ _ _ _ _ _ Hpl) as Ht. unfold place_before, place_target in *.
  destruct (pl_free pl) as [f|] eqn:Ef.
  - destruct Ht as ((old & Hold & Hd & Hv & Hnb & Hno') & nt & Hnt). exists old, nt.
    assert (place_offsets pl p = (fo_offno f, fo_neighborOffno f)) as -> by (unfold place_offsets; by rewrite Ef).
    split_and!; try done; apply tuple_at_lookup; [by exists p|by exists np].
  - cbn in Hr1, Hr2, Hr4. destruct Hr1 as [Hoff Hfit].
    assert (forall c q o, block (rd_main P) c = Some q -> page_ok q -> PageGetMaxOffsetNumber q < o -> tuple_at P c o = None) as Hnone
      by (intros c q o Hq Hqo Ho; unfold tuple_at; by rewrite Hq, page_tuple_past).
    split; [apply (Hnone _ p); try done; lia|]. destruct (decide (nb = b)) as [Heq|Hne].
    + assert (0 < etupSize sz) as He by (destruct Hsz; lia).
      pose proof (page_with_put p sample_ntup (etupSize sz) Hpo He Hfit) as Hput. rewrite <- Hoff in Hput.
      destruct (Hr4 _ _ Heq Hput) as [H1 _].
      { rewrite page_with_free; [unfold space_left; lia|done|done|by apply free_space_room]. }
      rewrite (pp_max _ _ _ _ Hput) in H1. rewrite Heq. apply (Hnone _ p); [done|done|]. rewrite H1. lia.
    + destruct (Hr2 Hne) as [H1 _]. apply (Hnone _ np); [done|done|]. rewrite H1. lia.
Qed.

Lemma both_put_index_ok rel et nt : both_put rel (ElementTuple et) (NeighborTuple nt) -> et_deleted et = 0 -> index_ok rel.
Proof.
  intros [H1 H2 H3 _ _ H4 H5 H6 H7 H8] Hd. pose proof (pc_index _ _ _ _ _ _ _ _ _ Hpl) as Hix. split.
  - rewrite H7. apply (ix_size _ Hix).
  - intros c q Hc Hq. destruct (H4 _ _ Hq) as (q0 & Hq0 & Hok & _). apply Hok. by apply (ix_pages _ Hix c).
  - intros c q Hc Hq. destruct (H4 _ _ Hq) as (q0 & Hq0 & _ & Ho). unfold nextblkno. rewrite Ho, H7. by apply (ix_next _ Hix c).
  - intros c o et' Hc Ht Hdel. assert ((c, o) <> (b, off)) as Hn1 by (intros [= -> ->]; congruence).
    assert ((c, o) <> (nb, noff)) as Hn2 by (intros [= -> ->]; congruence).
    rewrite H3 in Ht by done. destruct (ix_deleted _ Hix c o et' Hc Ht Hdel) as (Hb1 & nt' & Hnt'). split; [done|].
    set (x := ItemPointerGetBlockNumber (et_neighbortid et')) in *. set (y := ItemPointerGetOffsetNumber (et_neighbortid et')) in *.
    destruct (decide ((x, y) = (nb, noff))) as [[= -> ->]|Hne]; [by exists nt|].
    exists nt'. rewrite H3; [done| |done]. intros [= Hx Hy]. rewrite Hx, Hy in Hnt'.
    pose proof place_before_ok as Hbef. unfold place_before in Hbef. destruct (pl_free pl); [|naive_solver congruence].
    destruct Hbef as (old & nt2 & Hold & _). congruence.
Qed.

Lemma both_put_reach rel et nt a c : both_put rel et nt -> reach P a c -> reach rel a c.
Proof. intros H Hr. eapply rtc_subrel; [|exact Hr]. intros x y. apply (bp_links _ _ _ H). Qed.

Lemma put_both_run etup ntup : exists l1 pb pn,
  put_tuple (pl_page pl) free off etup (etupSize sz) (session MAIN_FORKNUM building l (with_mem elems s1)) =
    Ok (tt, session MAIN_FORKNUM building l1 (with_mem elems s1)) /\
  put_tuple (pl_npage pl) free noff ntup (ntupSize sz) (session MAIN_FORKNUM building l1 (with_mem elems s1)) =
    Ok (tt, session MAIN_FORKNUM building (set_image nb pn (set_image b pb l)) (with_mem elems s1)) /\
  both_put (index (commit_state MAIN_FORKNUM (set_image nb pn (set_image b pb l)) (with_mem elems s1))) etup ntup.
Proof.
  destruct place_pages as (Hb & Hn & Hpo & Hno). pose proof (pc_room _ _ _ _ _ _ _ _ _ Hpl) as [Hr1 Hr2 Hr3 Hr4].
  destruct (pc_refs _ _ _ _ _ _ _ _ _ Hpl) as [-> ->]. pose proof (pc_images _ _ _ _ _ _ _ _ _ Hpl) as Hl.
  destruct (pc_buf _ _ _ _ _ _ _ _ _ Hpl) as [Hb1 Hib], (pc_nbuf _ _ _ _ _ _ _ _ _ Hpl) as [Hn1 Hin].
  assert (0 < etupSize sz) as He by (destruct Hsz; lia). assert (0 < ntupSize sz) as Hns by (destruct Hsz; lia).
  destruct (put_tuple_run building l (with_mem elems s1) b p free off etup (etupSize sz) Hl Hib Hpo He Hr1) as (p' & Hrun1 & Hput1 & Hfree1 & _).
  pose proof (set_image_ok _ b p' _ Hl) as Hl'. destruct (decide (nb = b)) as [Heq|Hne].
  - assert (image (set_image b p' l) nb = Some p') as Hin' by (rewrite Heq; by eapply image_set_same).
    destruct (put_tuple_run building (set_image b p' l) (with_mem elems s1) nb p' free noff ntup (ntupSize sz) Hl' Hin'
      (pp_ok _ _ _ _ Hput1) Hns (Hr4 _ _ Heq Hput1 Hfree1)) as (pn & Hrun2 & Hput2 & _ & Hsize2).
    exists (set_image b p' l), pn, pn. split; [done|].
    assert (set_image nb pn (set_image b pn l) = set_image nb pn (set_image b p' l)) as Heqi by (rewrite Heq; by rewrite !set_image_twice).
    split; [by rewrite Heqi|]. apply two_puts_both; [|done]. rewrite decide_True by done. split; [done|]. by exists p'.
  - assert (image (set_image b p' l) nb = Some np) as Hin' by (rewrite image_set_other by done; done).
    destruct (put_tuple_run building (set_image b p' l) (with_mem elems s1) nb np free noff ntup (ntupSize sz) Hl' Hin' Hno Hns (Hr2 Hne))
      as (pn & Hrun2 & Hput2 & _ & Hsize2).
    exists (set_image b p' l), p', pn. split; [done|]. split; [done|]. apply two_puts_both; [by rewrite decide_False|done].
Qed.
End WriteTuples.

(** ** [AddElementOnDisk] *)

(** An element with a value and neighbors that can be written. *)
Record insertable (s : Backend) (m : Z) (e : addr) (el : HnswElementData) (v : Vector) (ns : list HnswNeighborArray) : Prop := {
  in_element : mem s !! e = Some el;
  in_value : el_value el = Some v;
  in_vector : Vector_ok v;
  in_dim : dim v <= HNSW_MAX_DIM;
  in_neighbors : neighbors_ok NULL m s el ns;
  in_m : HNSW_MIN_M <= m <= HNSW_MAX_M;
  in_level : 0 <= el_level el <= HnswGetMaxLevel m
}.

Lemma MAXALIGN_twice x : 0 <= x -> MAXALIGN (MAXALIGN x) = MAXALIGN x.
Proof. intros Hx. destruct (MAXALIGN_spec x Hx) as [H1 H2]. apply MAXALIGN_id; [lia|done]. Qed.

Lemma element_sizes_run m el v : el_value el = Some v -> Vector_ok v -> dim v <= HNSW_MAX_DIM ->
  HNSW_MIN_M <= m <= HNSW_MAX_M -> 0 <= el_level el <= HnswGetMaxLevel m ->
  exists sz, tuple_sizes el m = Ok sz /\ sizes_ok sz /\
    etupSize sz = HNSW_ELEMENT_TUPLE_SIZE (VARSIZE_ANY v) /\ ntupSize sz = HNSW_NEIGHBOR_TUPLE_SIZE (el_level el) m.
Proof.
  intros Hv Hvec Hdim Hm Hl. unfold tuple_sizes. rewrite Hv. cbn [deref_value of_option]. rewrite bind_Ok.
  eexists. split; [done|]. split; [|done]. pose proof (element_size_bound v Hvec Hdim). pose proof (neighbor_size_bound m _ Hm Hl).
  unfold HNSW_MIN_M in Hm. split; simpl; [| |done]; (split; [lia|]).
  - unfold HNSW_ELEMENT_TUPLE_SIZE, VARSIZE_ANY, offsetof_element_data. apply MAXALIGN_twice.
    pose proof (ok_dim v Hvec). rewrite (ok_size v Hvec). unfold VECTOR_SIZE. lia.
  - unfold HNSW_NEIGHBOR_TUPLE_SIZE, offsetof_neighbor_indextids, sizeof_ItemPointerData. apply MAXALIGN_twice. nia.
Qed.

Lemma tuple_sizes_run s m e el v ns : insertable s m e el v ns -> exists sz, tuple_sizes el m = Ok sz /\ sizes_ok sz /\
  etupSize sz = HNSW_ELEMENT_TUPLE_SIZE (VARSIZE_ANY v) /\ ntupSize sz = HNSW_NEIGHBOR_TUPLE_SIZE (el_level el) m.
Proof. intros [He Hv Hvec Hdim Hns Hm Hl]. by apply element_sizes_run. Qed.

(** The effect of adding an element: two tuples, at new offsets of the chain of
    pages or over those of a deleted element, whose version they take. *)
Record element_added (s s' : Backend) (m : Z) (e : addr) (el : HnswElementData) (v : Vector) (ns : list HnswNeighborArray)
    (insertPage b : BlockNumber) (off : OffsetNumber) (nb : BlockNumber) (noff : OffsetNumber) : Prop := {
  ea_mem : mem s' = <[e := el_set_neighbortid nb noff (el_set_tid b off el)]> (mem s);
  ea_xlog : xlog s' = None;
  ea_index : index_ok (index s');
  ea_meta : block (rd_main (index s')) HNSW_METAPAGE_BLKNO = block (rd_main (index s)) HNSW_METAPAGE_BLKNO;
  ea_rel : index s' = with_pages (index s) MAIN_FORKNUM (rd_main (index s'));
  ea_length : nlen (index s) <= nlen (index s') <= nlen (index s) + 2;
  ea_tuples : exists version,
    tuple_at (index s') b off = Some (ElementTuple (mkHnswElementTuple (el_level el) 0 version
      (take 10 (el_heaptids el) ++ replicate (10 - length (el_heaptids el)) ItemPointerSetInvalid)
      (ItemPointerSet nb noff) 0 v)) /\
    tuple_at (index s') nb noff = Some (NeighborTuple (mkHnswNeighborTuple version ((el_level el + 2) * m)
      (all_slots (layer_padded NULL m s ns) (Z.to_nat (el_level el))))) /\
    ((version = el_version el /\ tuple_at (index s) b off = None /\ tuple_at (index s) nb noff = None /\
      reach (index s') insertPage nb) \/
     exists old nt, tuple_at (index s) b off = Some (ElementTuple old) /\ et_deleted old <> 0 /\ version = et_version old /\
       ItemPointerGetBlockNumber (et_neighbortid old) = nb /\ ItemPointerGetOffsetNumber (et_neighbortid old) = noff /\
       tuple_at (index s) nb noff = Some (NeighborTuple nt));
  ea_reach : reach (index s') insertPage b;
  ea_chain : all_reached (index s) -> all_reached (index s');
  ea_others b' off' : (b', off') <> (b, off) -> (b', off') <> (nb, noff) ->
    tuple_at (index s') b' off' = tuple_at (index s) b' off';
  ea_size : item_length (index s') nb noff (HNSW_NEIGHBOR_TUPLE_SIZE (el_level el) m);
  ea_items b' off' k : (b', off') <> (b, off) -> (b', off') <> (nb, noff) ->
    item_length (index s) b' off' k -> item_length (index s') b' off' k
}.

Section Added.
Context (s : Backend) (building : bool) (m : Z) (e : addr) (el : HnswElementData) (v : Vector) (ns : list HnswNeighborArray).
Context (Hin : insertable s m e el v ns) (insertPage : BlockNumber) (sz : TupleSizes).
Context (pl : Place) (s1 : Backend) (l : list (BlockNumber * Page)) (p np : Page).
Context (Hpl : placed s building insertPage sz pl s1 l p np) (Hszok : sizes_ok sz).
Context (Hnt : ntupSize sz = HNSW_NEIGHBOR_TUPLE_SIZE (el_level el) m).
Context (off noff : OffsetNumber) (Hoffs : place_offsets pl p = (off, noff)).

Definition place_version : Z := match pl_free pl with Some f => fo_version f | None => el_version el end.

(** The tuples of the element, at its place. *)
Definition placed_etup : HnswElementTupleData :=
  mkHnswElementTuple (el_level el) 0 place_version
    (take 10 (el_heaptids el) ++ replicate (10 - length (el_heaptids el)) ItemPointerSetInvalid)
    (ItemPointerSet (pl_nbuf pl) noff) 0 v.
Definition placed_ntup : HnswNeighborTupleData :=
  mkHnswNeighborTuple place_version ((el_level el + 2) * m) (all_slots (layer_padded NULL m s ns) (Z.to_nat (el_level el))).

Lemma placed_element_added s' :
  mem s' = <[e := el_set_neighbortid (pl_nbuf pl) noff (el_set_tid (pl_buf pl) off el)]> (mem s) -> xlog s' = None ->
  both_put sz pl s1 l p (index s') (ElementTuple placed_etup) (NeighborTuple placed_ntup) ->
  nlen (index (commit_state MAIN_FORKNUM l s1)) <= nlen (index s) + 2 ->
  element_added s s' m e el v ns insertPage (pl_buf pl) off (pl_nbuf pl) noff.
Proof.
  intros Hmem Hxlog Hboth Hmore. pose proof (pc_grown _ _ _ _ _ _ _ _ _ Hpl) as [Hg1 Hgi Hgc Hg2 Hg3 Hg4 Hg5].
  pose proof (both_put_index_ok _ _ _ _ _ _ _ _ _ Hpl Hszok _ _ _ Hboth eq_refl) as Hix'.
  pose proof (fun a c => both_put_reach _ _ _ _ _ _ _ _ a c Hboth) as Hreach.
  pose proof Hboth as [H1 H2 H3 Hsz Hit H4 H5 H6 H7 H8]. rewrite Hoffs in H1, H2, H3, Hsz, Hit. cbn [fst snd] in H1, H2, H3, Hsz, Hit.
  split; try done.
  - by rewrite H6, Hg3.
  - rewrite H8, Hg5 at 1. by destruct (index s).
  - rewrite H7. lia.
  - exists place_version. split; [exact H1|]. split; [exact H2|].
    pose proof (place_before_ok _ _ _ _ _ _ _ _ _ Hpl Hszok) as Hbef. unfold place_before, place_version in *.
    rewrite Hoffs in Hbef. cbn [fst snd] in Hbef. rewrite !Hg1 in Hbef.
    pose proof (pc_target _ _ _ _ _ _ _ _ _ Hpl) as Ht. unfold place_target in Ht. destruct (pl_free pl) as [f|].
    + right. destruct Hbef as (old & nt & Hb1 & Hb2 & Hb3 & Hb4 & Hb5 & Hb6). by exists old, nt.
    + left. split; [done|]. split; [apply Hbef|]. split; [apply Hbef|]. by apply Hreach.
  - apply Hreach, (pc_reach _ _ _ _ _ _ _ _ _ Hpl).
  - intros Hall. apply Hgc in Hall. eapply links_kept_reached; [|exact Hall]. split; [done|]. intros c q' Hq'.
    destruct (H4 c q' Hq') as (q & Hq & _ & Ho). by exists q.
  - intros b' off' Hn1 Hn2. rewrite H3 by done. apply Hg1.
  - by rewrite <- Hnt.
  - intros b' off' k Hn1 Hn2 Hk. apply Hit; [done|done|]. by apply Hgi.
Qed.
End Added.

Lemma AddElementOnDisk_run fuel building m insertPage s e el v ns :
  insertable s m e el v ns -> xlog s = None -> index_ok (index s) ->
  1 <= insertPage < nlen (index s) -> nlen (index s) + 2 <= InvalidBlockNumber -> nlen (index s) <= Z.of_nat fuel ->
  exists r b off nb noff s',
    AddElementOnDisk fuel e m insertPage building s = Ok (r, s') /\
    element_added s s' m e el v ns insertPage b off nb noff /\
    match r with Some page => reach (index s') insertPage page /\ page <> insertPage | None => True end.
Proof.
  intros Hin Hx Hix Hpage Hsize Hfuel. destruct (tuple_sizes_run _ _ _ _ _ _ Hin) as (sz & Hsz & Hszok & Hes & Hnt).
  pose proof Hin as [He Hv Hvec Hdim Hns Hm Hl]. unfold AddElementOnDisk.
  destruct (maxlevel_bound m _ Hm Hl) as [Hcount _]. unfold HNSW_MIN_M in Hm.
  run (load_element_run _ _ _ He). run (lift_res_run _ _ _ Hsz).
  assert (HnswSetElementTuple el = Ok (mkHnswElementTuple (el_level el) 0 (el_version el)
    (take 10 (el_heaptids el) ++ replicate (10 - length (el_heaptids el)) ItemPointerSetInvalid) (ItemPointerSet 0 0) 0 v)) as Het
    by (unfold HnswSetElementTuple; by rewrite Hv).
  run (lift_res_run _ _ _ Het).
  run (HnswSetNeighborTuple_run NULL m s e el ns He Hns ltac:(lia) ltac:(lia)).
  destruct (find_place_run building s insertPage sz fuel insertPage InvalidBlockNumber Hx Hix Hszok ltac:(lia) Hsize Hpage
    ltac:(lia) ltac:(constructor) ltac:(done)) as (pl & s1 & l & p & np & Hrun & Hpl & Hmore).
  run Hrun. pose proof (pc_images _ _ _ _ _ _ _ _ _ Hpl) as Hl1.
  destruct (pc_refs _ _ _ _ _ _ _ _ _ Hpl) as [Href1 _]. destruct (pc_buf _ _ _ _ _ _ _ _ _ Hpl) as [Hb1 Hib].
  set (version := match pl_free pl with Some f => fo_version f | None => el_version el end).
  set (et0 := mkHnswElementTuple _ _ _ _ _ _ _). set (nt0 := mkHnswNeighborTuple _ _ _).
  assert (match pl_free pl with
    | Some f => (et_set_version (fo_version f) et0, nt_set_version (fo_version f) nt0)
    | None => (et0, nt0) end = (et_set_version version et0, nt_set_version version nt0)) as ->
    by (unfold version; by destruct (pl_free pl)).
  cbn zeta. rewrite Href1. run (session_read MAIN_FORKNUM building l s1 Hl1 _ _ Hib). rewrite <- Href1.
  destruct (place_offsets pl p) as [off noff] eqn:Hoffs.
  assert (mem s1 !! e = Some el) as He1 by (by rewrite (pc_mem _ _ _ _ _ _ _ _ _ Hpl)).
  run (session_modify MAIN_FORKNUM building l s1 e _ el He1).
  set (elems := <[e := _]> (mem s1)).
  destruct (put_both_run building s insertPage sz pl s1 l p np Hpl Hszok elems
    (ElementTuple (et_set_neighbortid (ItemPointerSet (pl_nbuf pl) noff) (et_set_version version et0)))
    (NeighborTuple (nt_set_version version nt0))) as (l1 & pb & pn & Hrun1 & Hrun2 & Hboth).
  rewrite Hoffs in Hrun1, Hrun2. cbn [fst snd] in Hrun1, Hrun2. run Hrun1. run Hrun2.
  run (session_commit MAIN_FORKNUM building _ (with_mem elems s1) (pc_xlog _ _ _ _ _ _ _ _ _ Hpl)).
  set (s' := commit_state _ _ (with_mem elems s1)) in *.
  eexists _, (pl_buf pl), off, (pl_nbuf pl), noff, s'. split; [done|]. split.
  - eapply placed_element_added; try done; [|exact (pc_xlog _ _ _ _ _ _ _ _ _ Hpl)].
    unfold s', elems. simpl. by rewrite (pc_mem _ _ _ _ _ _ _ _ _ Hpl).
  - pose proof (both_put_reach _ _ _ _ _ _ _ _ insertPage _ Hboth (pc_insert _ _ _ _ _ _ _ _ _ Hpl)) as Hr.
    set (page := if negb (BlockNumberIsValid (pl_newInsertPage pl)) then pl_nbuf pl else pl_newInsertPage pl) in *. destruct (BlockNumberIsValid page && negb (page =? insertPage)) eqn:E; [|done].
    apply andb_true_iff in E as [_ E]. rewrite negb_true_iff, Z.eqb_neq in E. done.
Qed.

(** C9: adding an element.  On well-formed pages, for an element whose neighbors
    are in memory, [AddElementOnDisk] ends (links go forward, so a page is
    visited once) without an error.  It writes the element tuple and the
    neighbor tuple, both at new offsets of the chain of pages or both over the
    tuples of one deleted element, sets their places in the element and in the
    element tuple, changes no other tuple, keeps the pages well formed, and the
    insert page it may propose is on the chain. *)
Theorem AddElementOnDisk_correct fuel building m insertPage s e el v ns :
  insertable s m e el v ns -> xlog s = None -> index_ok (index s) ->
  1 <= insertPage < nlen (index s) -> nlen (index s) + 2 <= InvalidBlockNumber -> nlen (index s) <= Z.of_nat fuel ->
  exists r b off nb noff s',
    AddElementOnDisk fuel e m insertPage building s = Ok (r, s') /\
    element_added s s' m e el v ns insertPage b off nb noff /\
    match r with Some page => reach (index s') insertPage page /\ page <> insertPage | None => True end.
Proof. exact (AddElementOnDisk_run fuel building m insertPage s e el v ns). Qed.

(** ** Witness: an element added to an index of two *)

Definition third_element : HnswElementData :=
  mkHnswElement NULL [ItemPointerSet 8 5] 0 0 1 0 (Some [mkHnswNeighborArray false [mkHnswCandidate 1%N f2_0 false]])
    InvalidBlockNumber 0 0 InvalidBlockNumber (Some value2).
Definition third_arrays : list HnswNeighborArray := [mkHnswNeighborArray false [mkHnswCandidate 1%N f2_0 false]].
Definition third_state : Backend := mkBackend {[ 1%N := sample_element; 2%N := third_element ]} sample_relation None.

Lemma sample_page_ok : page_ok sample_page.
Proof.
  assert (page_ok (page_with (page_with HnswInitPage (sample_etup 1 value1) 88) (sample_neighbors tid2) 32)) as H2.
  { apply page_with_ok; [apply page_with_ok; [exact HnswInitPage_ok|lia|]|lia|]; vm_compute; discriminate. }
  unfold sample_page. apply page_with_ok; [apply page_with_ok; [exact H2|lia|]|lia|]; vm_compute; discriminate.
Qed.

(** The tuples of an index of one page after the metapage. *)
Definition page_tuples (p : Page) : list (OffsetNumber * option HnswTuple) :=
  imap (fun i it => (Z.of_nat i + 1, lp_item it)) (pd_linp p).

Section OnePage.
Context (rel : Relation) (meta_page page : Page) (Hrel : rd_main rel = [meta_page; page]).

Lemma block_one b p : 1 <= b -> block (rd_main rel) b = Some p -> b = 1 /\ p = page.
Proof.
  rewrite Hrel. intros Hb [_ Hl]%block_lookup. assert (b = 1) as ->.
  { apply lookup_lt_Some in Hl. simpl in Hl. lia. }
  split; [done|]. injection Hl as <-. done.
Qed.

Lemma tuple_one b off tup : 1 <= b -> tuple_at rel b off = Some tup -> b = 1 /\ (off, Some tup) ∈ page_tuples page.
Proof.
  intros Hb (p & Hp & Ht)%tuple_at_lookup. destruct (block_one b p Hb Hp) as [-> ->]. split; [done|].
  apply page_tuple_lookup in Ht as (it & Ho & Hl & Hi). apply (list_elem_of_lookup_2 _ (Z.to_nat (off - 1))).
  unfold page_tuples. rewrite list_lookup_imap, Hl. simpl. rewrite Hi. do 2 f_equal. lia.
Qed.

Lemma one_page_reached : all_reached rel.
Proof. intros b Hb. rewrite Hrel in Hb. simpl in Hb. replace b with HNSW_HEAD_BLKNO by (unfold HNSW_HEAD_BLKNO; lia). constructor. Qed.

Lemma one_page_index_ok : page_ok page -> nextblkno page = InvalidBlockNumber ->
  (forall off et, (off, Some (ElementTuple et)) ∈ page_tuples page -> et_deleted et = 0) -> index_ok rel.
Proof.
  intros Hok Hnext Hdel. split.
  - rewrite Hrel. by vm_compute.
  - intros b p Hb Hp. by destruct (block_one b p Hb Hp) as [_ ->].
  - intros b p Hb Hp. destruct (block_one b p Hb Hp) as [_ ->]. by left.
  - intros b off et Hb Ht Hd. destruct (tuple_one b off _ Hb Ht) as [_ Hin]. by apply Hdel in Hin.
Qed.
End OnePage.

(** The tuples of a concrete page, one by one. *)
Ltac page_cases H :=
  vm_compute in H;
  repeat (apply elem_of_cons in H as [H|H]; [injection H; clear H; intros; subst; try done|]);
  try (exfalso; by apply elem_of_nil in H).

Lemma sample_index_ok : index_ok sample_relation.
Proof.
  apply (one_page_index_ok _ sample_meta sample_page); [done|exact sample_page_ok|done|].
  intros off et Hin. page_cases Hin.
Qed.

Lemma AddElementOnDisk_correct_witness :
  exists r b off nb noff s',
    AddElementOnDisk 2 2%N 2 1 false third_state = Ok (r, s') /\
    element_added third_state s' 2 2%N third_element value2 third_arrays 1 b off nb noff /\
    match r with Some page => reach (index s') 1 page /\ page <> 1 | None => True end.
Proof.
  apply (AddElementOnDisk_correct 2 false 2 1 third_state 2%N third_element value2 third_arrays);
    [|reflexivity|exact sample_index_ok|by vm_compute|by vm_compute|by vm_compute].
  split; [reflexivity|reflexivity|split; try by vm_compute| by vm_compute| |by vm_compute|by vm_compute].
  - repeat constructor; by vm_compute.
  - split; [by vm_compute|reflexivity|reflexivity|]. intros [|lc] a Ha; [|done]. injection Ha as <-.
    split; [by vm_compute|]. intros hc Hhc. apply list_elem_of_singleton in Hhc as ->. by eexists.
Defined.
