(* ===== verification/IndexWf.v ===== *)
(** * Well-formed indexes

    What the operations on the pages of an index keep true of the whole index:
    the chain of pages, the tuples of every element, the layers the neighbor
    tuples form, the entry point of the metapage.  The state of a search
    (DiskGraph.v) is a consequence; the updates of single tuples, the addition of
    an element and the updates of the metapage preserve it. *)

From Stdlib Require Import SpecFloat.
From S2P Require Import Prelude CFloat VectorType GraphSearch ItemPtr HnswData BufPage Backend HnswUtils SearchLayer.
From S2P Require Import LayerRefinement PageUpdate MetaPage DiskGraph Tuples HnswInsert InsertSpec AddElement.

(** ** The tuples of the elements *)

(** The neighbor tuple of an element is in its place. *)
Definition has_neighbors (rel : Relation) (et : HnswElementTupleData) : Prop :=
  1 <= ItemPointerGetBlockNumber (et_neighbortid et) /\
  exists nt, tuple_at rel (ItemPointerGetBlockNumber (et_neighbortid et)) (ItemPointerGetOffsetNumber (et_neighbortid et)) =
    Some (NeighborTuple nt) /\ nt_count nt <= Z.of_nat (length (nt_indextids nt)).

(** Elements have their heap TIDs and a neighbor tuple of their own. *)
Record elements_ok (rel : Relation) : Prop := {
  eo_heaptids b off et : 1 <= b -> tuple_at rel b off = Some (ElementTuple et) -> is_Some (et_heaptids et !! 0%nat);
  eo_neighbors b off et : 1 <= b -> tuple_at rel b off = Some (ElementTuple et) -> has_neighbors rel et;
  eo_own b off et b' off' et' : 1 <= b -> 1 <= b' ->
    tuple_at rel b off = Some (ElementTuple et) -> tuple_at rel b' off' = Some (ElementTuple et') ->
    ItemPointerGetBlockNumber (et_neighbortid et) = ItemPointerGetBlockNumber (et_neighbortid et') ->
    ItemPointerGetOffsetNumber (et_neighbortid et) = ItemPointerGetOffsetNumber (et_neighbortid et') -> (b, off) = (b', off')
}.

Definition place_of (k : ItemPointerData) : BlockNumber * OffsetNumber :=
  (ItemPointerGetBlockNumber k, ItemPointerGetOffsetNumber k).

Definition neighbor_of (et : HnswElementTupleData) : BlockNumber * OffsetNumber :=
  (ItemPointerGetBlockNumber (et_neighbortid et), ItemPointerGetOffsetNumber (et_neighbortid et)).

(** ** The layers *)

Definition reaches (rel : Relation) (lc : Z) (k : ItemPointerData) : bool :=
  match element_at rel k with Some etup => lc <=? et_level etup | None => false end.

(** The elements of layer [lc]. *)
Definition layer (rel : Relation) (E : gset ItemPointerData) (lc : Z) : gset ItemPointerData :=
  filter (fun k => reaches rel lc k = true) E.

(** The tuples of an element in use: its neighbors at layer [lc] are elements
    of layer [lc]. *)
Record element_wf (rel : Relation) (m : Z) (good : Vector -> Prop) (E : gset ItemPointerData) (k : ItemPointerData)
    (etup : HnswElementTupleData) (ntup : HnswNeighborTupleData) : Prop := {
  ew_element : element_at rel k = Some etup;
  ew_neighbor : neighbor_at rel (et_neighbortid etup) = Some ntup;
  ew_live : et_deleted etup = 0;
  ew_level : 0 <= et_level etup <= HnswGetMaxLevel m;
  ew_version : nt_version ntup = et_version etup;
  ew_count : nt_count ntup = (et_level etup + 2) * m;
  ew_length : Z.of_nat (length (nt_indextids ntup)) = (et_level etup + 2) * m;
  ew_tids : Forall ItemPointer_ok (nt_indextids ntup);
  ew_heaptids : heaptids_ok (et_heaptids etup);
  ew_value : good (et_data etup);
  ew_slots lc t : 0 <= lc <= et_level etup -> t ∈ layer_slots m (HnswGetLayerM m lc) lc etup ntup ->
    ItemPointerIsValid t = true -> t ∈ layer rel E lc;
  ew_size : item_length rel (ItemPointerGetBlockNumber (et_neighbortid etup)) (ItemPointerGetOffsetNumber (et_neighbortid etup))
    (HNSW_NEIGHBOR_TUPLE_SIZE (et_level etup) m)
}.

(** An element that is marked as deleted holds no heap TIDs. *)
Definition dead_tids (et : HnswElementTupleData) : Prop :=
  et_deleted et <> 0 -> et_heaptids et = replicate 10 ItemPointerSetInvalid.

(** The pages of an index whose elements in use are [E], with values [good]. *)
Record pages_wf (rel : Relation) (m : Z) (good : Vector -> Prop) (E : gset ItemPointerData) : Prop := {
  pw_m : HNSW_MIN_M <= m <= HNSW_MAX_M;
  pw_index : index_ok rel;
  pw_elements : elements_ok rel;
  pw_tid k : k ∈ E -> ItemPointer_ok k /\ 1 <= ItemPointerGetBlockNumber k;
  pw_element k : k ∈ E -> exists etup ntup, element_wf rel m good E k etup ntup;
  pw_all b off etup : 1 <= b -> tuple_at rel b off = Some (ElementTuple etup) -> et_deleted etup = 0 -> ItemPointerSet b off ∈ E;
  pw_dead b off etup : 1 <= b -> tuple_at rel b off = Some (ElementTuple etup) -> dead_tids etup;
  pw_chain : all_reached rel
}.

(** The metapage: the entry point is an element of the highest level. *)
Record entry_wf (rel : Relation) (meta : HnswMetaPageData) (E : gset ItemPointerData) : Prop := {
  ey_meta : meta_ok rel meta;
  ey_insert : 1 <= mp_insertPage meta < nlen rel;
  ey_entry : if BlockNumberIsValid (mp_entryBlkno meta)
    then BlockNumber_ok (mp_entryBlkno meta) /\ OffsetNumber_ok (mp_entryOffno meta) /\ entry_tid meta ∈ E /\
      exists etup, element_at rel (entry_tid meta) = Some etup /\ et_level etup = mp_entryLevel meta
    else E = ∅ /\ mp_entryLevel meta = -1;
  ey_top k etup : k ∈ E -> element_at rel k = Some etup -> et_level etup <= mp_entryLevel meta
}.

Record index_wf (rel : Relation) (meta : HnswMetaPageData) (good : Vector -> Prop) (E : gset ItemPointerData) : Prop := {
  iw_pages : pages_wf rel (mp_m meta) good E;
  iw_entry : entry_wf rel meta E
}.

(** What the values have in common: they have distances to each other and fit
    on a page. *)
Record support_ok (support : HnswSupport) (good : Vector -> Prop) : Prop := {
  so_distance a b : good a -> good b -> exists d, procinfo support a b = Ok d /\ is_nan d = false;
  so_vector a : good a -> Vector_ok a /\ dim a <= HNSW_MAX_DIM
}.

(** The query of an operation: a value, or NULL. *)
Definition query_ok (good : Vector -> Prop) (q : HnswQuery) : Prop :=
  match q_value q with Some v => good v | None => True end.

(** ** Layers as graphs for the search *)

Lemma reaches_spec rel lc k : reaches rel lc k = true <-> exists etup, element_at rel k = Some etup /\ lc <= et_level etup.
Proof.
  unfold reaches. destruct (element_at rel k) as [etup|]; [rewrite Z.leb_le; naive_solver|naive_solver].
Qed.

Lemma elem_of_layer rel E lc k : k ∈ layer rel E lc <-> k ∈ E /\ exists etup, element_at rel k = Some etup /\ lc <= et_level etup.
Proof. unfold layer. rewrite elem_of_filter, reaches_spec. naive_solver. Qed.

Lemma layer_mono rel E E' lc : E ⊆ E' -> layer rel E lc ⊆ layer rel E' lc.
Proof. intros HE k. rewrite !elem_of_layer. set_solver. Qed.

Lemma layer_below rel E lc lc' : lc' <= lc -> layer rel E lc ⊆ layer rel E lc'.
Proof. intros Hl k. rewrite !elem_of_layer. intros (Hk & etup & He & Hlev). split; [done|]. exists etup. split; [done|lia]. Qed.

Lemma size_layer rel E lc : (size (layer rel E lc) <= size E)%nat.
Proof. apply subseteq_size. intros k. rewrite elem_of_layer. tauto. Qed.

Lemma element_at_place rel k etup : element_at rel k = Some etup <->
  tuple_at rel (place_of k).1 (place_of k).2 = Some (ElementTuple etup).
Proof. unfold element_at, place_of. simpl. destruct (tuple_at _ _ _) as [[]|]; naive_solver. Qed.

Lemma neighbor_at_place rel k ntup : neighbor_at rel k = Some ntup <->
  tuple_at rel (place_of k).1 (place_of k).2 = Some (NeighborTuple ntup).
Proof. unfold neighbor_at, place_of. simpl. destruct (tuple_at _ _ _) as [[]|]; naive_solver. Qed.

Lemma place_of_inj k k' : ItemPointer_ok k -> ItemPointer_ok k' -> place_of k = place_of k' -> k = k'.
Proof. intros Hk Hk' [= E1 E2]. by rewrite <- (ItemPointerSet_Get k Hk), <- (ItemPointerSet_Get k' Hk'), E1, E2. Qed.

Section Layers.
Context (rel : Relation) (m : Z) (good : Vector -> Prop) (E : gset ItemPointerData).
Context (Hwf : pages_wf rel m good E) (support : HnswSupport) (Hsup : support_ok support good).

Lemma pages_m : 2 <= m <= 100.
Proof using Hwf. apply (pw_m _ _ _ _ Hwf). Qed.

Lemma layer_m lc : 0 < HnswGetLayerM m lc <= HNSW_MAX_M * 2.
Proof using Hwf. pose proof pages_m. unfold HnswGetLayerM, HNSW_MAX_M. destruct (lc =? 0); lia. Qed.

(** The slots of a layer are inside the neighbor tuple. *)
Lemma layer_slots_inside level lc : 0 <= lc <= level ->
  0 <= (level - lc) * m /\ (level - lc) * m + HnswGetLayerM m lc <= (level + 2) * m.
Proof using Hwf. pose proof pages_m. intros Hl. unfold HnswGetLayerM. destruct (Z.eqb_spec lc 0); nia. Qed.

Lemma element_current k etup ntup : element_wf rel m good E k etup ntup -> neighbor_current m etup ntup = true.
Proof using Type. intros He. unfold neighbor_current. by rewrite (ew_version _ _ _ _ _ _ _ He), (ew_count _ _ _ _ _ _ _ He), !Z.eqb_refl. Qed.

Lemma element_of k : k ∈ E -> exists etup ntup, element_at rel k = Some etup /\ element_wf rel m good E k etup ntup.
Proof using Hwf. intros Hk. destruct (pw_element _ _ _ _ Hwf k Hk) as (etup & ntup & He). exists etup, ntup. split; [apply He|done]. Qed.

Lemma distance_of q k etup ntup : query_ok good q -> element_wf rel m good E k etup ntup ->
  exists d, tuple_distance q etup support = Ok d /\ is_nan d = false.
Proof using Hsup.
  intros Hq He. unfold query_ok in Hq. unfold tuple_distance. destruct (q_value q) as [v|]; [|by exists dzero].
  destruct (so_distance _ _ Hsup v (et_data etup) Hq (ew_value _ _ _ _ _ _ _ He)) as (d & Hd & Hn). exists d. by split.
Qed.

Lemma layer_ok q lc : query_ok good q -> 0 <= lc -> disk_layer_ok rel q lc support m (layer rel E lc).
Proof using Hwf Hsup.
  intros Hq Hlc. split.
  - pose proof (layer_m lc). lia.
  - intros k [Hk _]%elem_of_layer. by apply (pw_tid _ _ _ _ Hwf).
  - intros k (Hk & etup & He & Hl)%elem_of_layer. destruct (element_of k Hk) as (etup' & ntup & He' & Hew).
    rewrite He in He'. injection He' as <-. destruct (distance_of q k etup ntup Hq Hew) as (d & Hd & Hn).
    destruct (layer_slots_inside (et_level etup) lc ltac:(lia)) as [H1 H2].
    exists etup, ntup, d. split_and!; try done; [by apply (ew_neighbor _ _ _ _ _ _ _ Hew)|].
    intros _. split; [by rewrite (ew_length _ _ _ _ _ _ _ Hew)|].
    intros k' Hk'. apply (ew_slots _ _ _ _ _ _ _ Hew lc k' ltac:(lia)).
    + eapply elem_of_submseteq; [exact Hk'|]. by apply sublist_submseteq, valid_prefix_sublist.
    + pose proof (valid_prefix_Forall (layer_slots m (HnswGetLayerM m lc) lc etup ntup)) as Hf.
      rewrite list.Forall_forall in Hf. by apply Hf.
Qed.
End Layers.

(** A well-formed index with an entry point can be searched. *)
Lemma index_wf_searchable rel meta good E support q : index_wf rel meta good E -> support_ok support good ->
  query_ok good q -> BlockNumberIsValid (mp_entryBlkno meta) = true ->
  exists etup, et_level etup = mp_entryLevel meta /\
    disk_index_ok rel q support meta etup (fun lc => layer rel E (Z.of_nat lc)).
Proof.
  intros [Hp [Hmeta Hins Hen Htop]] Hsup Hq Hv. rewrite Hv in Hen. destruct Hen as (Hb & Ho & Hin & etup & He & Hl).
  exists etup. split; [done|]. destruct (element_of _ _ _ _ Hp _ Hin) as (etup' & ntup & He' & Hew).
  rewrite He in He'. injection He' as <-. pose proof (ew_level _ _ _ _ _ _ _ Hew) as Hlev. split; try done; try lia.
  - apply elem_of_layer. split; [done|]. exists etup. split; [done|lia].
  - intros lc _. apply (layer_ok _ _ _ _ Hp _ Hsup q); [done|lia].
  - intros lc _. apply layer_below. lia.
Qed.

(** ** Updates that keep the structure *)

(** What an update of a tuple in its place does not change. *)
Definition tuple_kept (old new : HnswTuple) : Prop :=
  match old, new with
  | ElementTuple o, ElementTuple n =>
      et_level n = et_level o /\ et_deleted n = et_deleted o /\ et_version n = et_version o /\
      et_neighbortid n = et_neighbortid o /\ et_data n = et_data o /\ length (et_heaptids n) = length (et_heaptids o) /\
      (et_deleted o <> 0 -> et_heaptids n = et_heaptids o)
  | NeighborTuple o, NeighborTuple n =>
      nt_version n = nt_version o /\ nt_count n = nt_count o /\ length (nt_indextids n) = length (nt_indextids o)
  | _, _ => False
  end.

#[export] Instance tuple_kept_preorder : PreOrder tuple_kept.
Proof.
  split; [by intros [o|o]|]. intros [o|o] [n|n] [r|r] H1 H2; try done; simpl in *; [|intuition congruence].
  destruct H1 as (? & D1 & ? & ? & ? & ? & A1), H2 as (? & D2 & ? & ? & ? & ? & A2). split_and!; try congruence.
  intros Hd. rewrite A2, A1; congruence.
Qed.

Definition rel_kept (rel rel' : Relation) : Prop :=
  (forall b off, option_Forall2 tuple_kept (tuple_at rel b off) (tuple_at rel' b off)) /\ items_kept rel rel'.

#[export] Instance rel_kept_preorder : PreOrder rel_kept.
Proof.
  split; [by intros rel|]. intros r1 r2 r3 [H1 I1] [H2 I2]. split; [|by etrans].
  intros b off. specialize (H1 b off). specialize (H2 b off).
  destruct H1 as [t1 t2 H1|]; inversion H2; subst; constructor. by etrans.
Qed.

Lemma same_tuples_kept rel rel' : (forall b off, tuple_at rel' b off = tuple_at rel b off) -> items_kept rel rel' ->
  rel_kept rel rel'.
Proof. intros Ht Hi. split; [|done]. intros b off. by rewrite Ht. Qed.

Section Kept.
Context (rel rel' : Relation) (Hk : rel_kept rel rel').

Lemma kept_tuple b off t : tuple_at rel b off = Some t -> exists t', tuple_at rel' b off = Some t' /\ tuple_kept t t'.
Proof using Hk. intros Ht. destruct Hk as [Hk1 _]. specialize (Hk1 b off). rewrite Ht in Hk1. inversion Hk1; subst. eauto. Qed.

Lemma kept_tuple_back b off t' : tuple_at rel' b off = Some t' -> exists t, tuple_at rel b off = Some t /\ tuple_kept t t'.
Proof using Hk. intros Ht. destruct Hk as [Hk1 _]. specialize (Hk1 b off). rewrite Ht in Hk1. inversion Hk1; subst. eauto. Qed.

Lemma kept_element k o : element_at rel k = Some o ->
  exists n, element_at rel' k = Some n /\ tuple_kept (ElementTuple o) (ElementTuple n).
Proof using Hk.
  intros (t & Ht & Hkt)%element_at_place%kept_tuple. destruct t as [n|]; [|done]. exists n. split; [by apply element_at_place|done].
Qed.

Lemma kept_element_back k n : element_at rel' k = Some n ->
  exists o, element_at rel k = Some o /\ tuple_kept (ElementTuple o) (ElementTuple n).
Proof using Hk.
  intros (t & Ht & Hkt)%element_at_place%kept_tuple_back. destruct t as [o|]; [|done]. exists o. split; [by apply element_at_place|done].
Qed.

Lemma kept_layer E lc : layer rel' E lc = layer rel E lc.
Proof using Hk.
  apply set_eq. intros k. rewrite !elem_of_layer. split; intros (HE & etup & He & Hl); (split; [done|]).
  - destruct (kept_element_back _ _ He) as (o & Ho & Hl' & _). exists o. split; [done|]. by rewrite <- Hl'.
  - destruct (kept_element _ _ He) as (n & Hn & Hl' & _). exists n. split; [done|]. by rewrite Hl'.
Qed.

Lemma kept_elements_ok : elements_ok rel -> elements_ok rel'.
Proof using Hk.
  intros [H1 H2 H3]. split.
  - intros b off et Hb ([o|] & Ho & Hkt)%kept_tuple_back; [|done]. destruct Hkt as (_ & _ & _ & _ & _ & Hl & _).
    apply lookup_lt_is_Some. rewrite Hl. apply lookup_lt_is_Some. by eapply H1.
  - intros b off et Hb ([o|] & Ho & Hkt)%kept_tuple_back; [|done]. destruct Hkt as (_ & _ & _ & Hn & _).
    destruct (H2 b off o Hb Ho) as (Hb' & nt & Hnt & Hc). unfold has_neighbors. rewrite Hn. split; [done|].
    destruct (kept_tuple _ _ _ Hnt) as ([|nt'] & Hnt' & Hkt); [done|].
    exists nt'. split; [done|]. destruct Hkt as (_ & Hc' & Hl'). by rewrite Hc', Hl'.
  - intros b off et b' off' et' Hb Hb' ([o|] & Ho & Hkt)%kept_tuple_back ([o'|] & Ho' & Hkt')%kept_tuple_back; try done.
    destruct Hkt as (_ & _ & _ & -> & _), Hkt' as (_ & _ & _ & -> & _). by apply (H3 b off o b' off' o').
Qed.

(** The index is well formed again if the new tuples of its elements are. *)
Lemma pages_wf_kept m good E : pages_wf rel m good E -> index_ok rel' -> all_reached rel' ->
  (forall k etup, k ∈ E -> element_at rel' k = Some etup -> heaptids_ok (et_heaptids etup)) ->
  (forall k etup ntup, k ∈ E -> element_at rel k = Some etup -> neighbor_at rel' (et_neighbortid etup) = Some ntup ->
     Forall ItemPointer_ok (nt_indextids ntup) /\
     forall lc t, 0 <= lc <= et_level etup -> t ∈ layer_slots m (HnswGetLayerM m lc) lc etup ntup ->
       ItemPointerIsValid t = true -> t ∈ layer rel E lc) ->
  pages_wf rel' m good E.
Proof using Hk.
  intros [Hm Hix Hel Htid Hew Hall Hdead Hch] Hix' Hch' Hheap Hslots. split; try done.
  - by apply kept_elements_ok.
  - intros k HkE. destruct (Hew k HkE) as (o & nt & [W1 W2 W3 W4 W5 W6 W7 W8 W9 W10 W11 W12]).
    destruct (kept_element _ _ W1) as (n & Hn & Hl & Hd & Hv & Hnt & Hda & _).
    apply neighbor_at_place in W2. destruct (kept_tuple _ _ _ W2) as ([|nt'] & Hnt' & Hkt); [done|].
    apply neighbor_at_place in Hnt'. destruct Hkt as (Hv' & Hc' & Hlen').
    destruct (Hslots k o nt' HkE W1 Hnt') as [Hok' Hs']. exists n, nt'. split; rewrite ?Hl, ?Hd, ?Hv, ?Hnt, ?Hda; try done.
    + congruence.
    + congruence.
    + by rewrite Hlen'.
    + by eapply Hheap.
    + intros lc t Hlc Ht Hval. rewrite kept_layer. apply Hs'; [done| |done].
      unfold layer_slots in *. by rewrite Hl in Ht.
    + by apply Hk.
  - intros b off n Hb ([o|] & Ho & Hkt)%kept_tuple_back Hd; [|done]. destruct Hkt as (_ & Hd' & _).
    apply (Hall b off o Hb Ho). congruence.
  - intros b off n Hb ([o|] & Ho & Hkt)%kept_tuple_back Hd; [|done]. destruct Hkt as (_ & Hd' & _ & _ & _ & _ & Hh).
    rewrite Hd' in Hd. rewrite (Hh Hd). by apply (Hdead b off o).
Qed.

Lemma kept_entry meta E : meta_ok rel' meta -> nlen rel <= nlen rel' -> entry_wf rel meta E -> entry_wf rel' meta E.
Proof using Hk.
  intros Hmeta Hlen [H1 H2 H3 H4]. split.
  - done.
  - lia.
  - destruct (BlockNumberIsValid _); [|done]. destruct H3 as (? & ? & ? & etup & He & Hl). split_and!; try done.
    destruct (kept_element _ _ He) as (n & Hn & Hl' & _). exists n. split; [done|congruence].
  - intros k n HkE (o & Ho & Hl' & _)%kept_element_back. rewrite Hl'. by eapply H4.
Qed.
End Kept.

(** One tuple replaced. *)
Section Replaced.
Context (s s' : Backend) (b : BlockNumber) (off : OffsetNumber) (old tup : HnswTuple).
Context (Hr : tuple_replaced s s' b off tup) (Hold : tuple_at (index s) b off = Some old) (Hkt : tuple_kept old tup).

Lemma replaced_tuple b' off' : tuple_at (index s') b' off' =
  if decide ((b', off') = (b, off)) then Some tup else tuple_at (index s) b' off'.
Proof using Hr. destruct (decide _) as [[= -> ->]|Hne]; [apply (tr_tuple _ _ _ _ _ Hr)|by apply (tr_others _ _ _ _ _ Hr)]. Qed.

Lemma replaced_kept : rel_kept (index s) (index s').
Proof using Hr Hold Hkt.
  split; [|apply (tr_items _ _ _ _ _ Hr)].
  intros b' off'. rewrite replaced_tuple. destruct (decide _) as [[= -> ->]|]; [|done]. rewrite Hold. by constructor.
Qed.

Lemma replaced_length : nlen (index s') = nlen (index s).
Proof using Hr. by rewrite (tr_length _ _ _ _ _ Hr). Qed.

Lemma replaced_index_ok : index_ok (index s) -> index_ok (index s').
Proof using Hr Hold Hkt.
  intros [H1 H2 H3 H4]. split.
  - by rewrite replaced_length.
  - intros c p Hc Hp. destruct (tr_pages _ _ _ _ _ Hr _ _ Hp) as (p0 & Hp0 & Hok & _). apply Hok. by apply (H2 c).
  - intros c p Hc Hp. rewrite replaced_length. destruct (tr_pages _ _ _ _ _ Hr _ _ Hp) as (p0 & Hp0 & _ & Ho & _).
    unfold nextblkno. rewrite Ho. by apply (H3 c p0).
  - intros c o et Hc ([et0|] & Ht0 & Hkt0)%(kept_tuple_back _ _ replaced_kept) Hd; [|done].
    destruct Hkt0 as (_ & Hd0 & _ & Hn0 & _). rewrite Hn0. destruct (H4 c o et0 Hc Ht0 ltac:(congruence)) as (Hb & nt & Hnt).
    split; [done|]. destruct (kept_tuple _ _ replaced_kept _ _ _ Hnt) as ([|nt'] & Hnt' & Hk'); [done|]. by exists nt'.
Qed.

Lemma replaced_reached : all_reached (index s) -> all_reached (index s').
Proof using Hr. apply links_kept_reached. by eapply replaced_links_kept. Qed.

Lemma replaced_meta meta : meta_ok (index s) meta -> meta_ok (index s') meta.
Proof using Hr. by eapply tuple_replaced_meta. Qed.
End Replaced.

(** A neighbor tuple over another one. *)
Lemma replaced_neighbor_index_ok s s' b off o n : tuple_replaced s s' b off (NeighborTuple n) ->
  tuple_at (index s) b off = Some (NeighborTuple o) -> index_ok (index s) -> index_ok (index s').
Proof.
  intros Hr Hold [H1 H2 H3 H4]. pose proof (replaced_tuple _ _ _ _ _ Hr) as Ht. pose proof (replaced_length _ _ _ _ _ Hr) as Hl. split.
  - by rewrite Hl.
  - intros c p Hc Hp. destruct (tr_pages _ _ _ _ _ Hr _ _ Hp) as (p0 & Hp0 & Hok & _). apply Hok. by apply (H2 c).
  - intros c p Hc Hp. rewrite Hl. destruct (tr_pages _ _ _ _ _ Hr _ _ Hp) as (p0 & Hp0 & _ & Ho & _).
    unfold nextblkno. rewrite Ho. by apply (H3 c p0).
  - intros c x et Hc. rewrite Ht. case_decide; [done|]. intros Hct Hd. destruct (H4 c x et Hc Hct Hd) as (Hb & nt & Hnt).
    split; [done|]. rewrite Ht. case_decide; [by exists n|by exists nt].
Qed.

(** ** A new neighbor of an element *)

Section SlotUpdate.
Context (ntup : HnswNeighborTupleData) (start : Z) (l : list ItemPointerData).
Context (Hs : 0 <= start) (Hl : start + Z.of_nat (length l) <= Z.of_nat (length (nt_indextids ntup))).

Lemma with_slots_lookup i : nt_indextids (with_slots start l ntup) !! i =
  if decide (Z.to_nat start <= i < Z.to_nat start + length l)%nat then l !! (i - Z.to_nat start)%nat
  else nt_indextids ntup !! i.
Proof using Hs Hl.
  unfold with_slots. cbn [nt_indextids]. set (k := nt_indextids ntup) in *.
  assert (Hlen : length (take (Z.to_nat start) k) = Z.to_nat start) by (rewrite length_take; lia).
  destruct (decide (i < Z.to_nat start)%nat) as [Hi|Hi].
  { rewrite decide_False by lia. rewrite lookup_app_l by lia. by rewrite lookup_take_lt. }
  rewrite lookup_app_r by lia. rewrite Hlen. destruct (decide _) as [Hj|Hj].
  - by rewrite lookup_app_l by lia.
  - rewrite lookup_app_r by lia. rewrite lookup_drop. f_equal. lia.
Qed.

Lemma length_with_slots : length (nt_indextids (with_slots start l ntup)) = length (nt_indextids ntup).
Proof using Hs Hl. unfold with_slots. cbn [nt_indextids]. rewrite !length_app, length_take, length_drop. lia. Qed.

Lemma with_slots_same : slots start (Z.of_nat (length l)) (with_slots start l ntup) = l.
Proof using Hs Hl.
  apply list_eq. intros i. unfold slots. rewrite Nat2Z.id. destruct (decide (i < length l)%nat) as [Hi|Hi].
  - rewrite lookup_take_lt by done. rewrite lookup_drop, with_slots_lookup, decide_True by lia. f_equal. lia.
  - rewrite lookup_take_ge by lia. symmetry. apply lookup_ge_None_2. lia.
Qed.

Lemma with_slots_other start' lm' : 0 <= start' -> start' + lm' <= start \/ start + Z.of_nat (length l) <= start' ->
  slots start' lm' (with_slots start l ntup) = slots start' lm' ntup.
Proof using Hs Hl.
  intros Hs' Hd. apply list_eq. intros i. unfold slots. destruct (decide (i < Z.to_nat lm')%nat) as [Hi|Hi].
  - rewrite !lookup_take_lt by done. rewrite !lookup_drop, with_slots_lookup, decide_False by lia. done.
  - by rewrite !lookup_take_ge by lia.
Qed.

Lemma with_slots_elem t : t ∈ nt_indextids (with_slots start l ntup) -> t ∈ l \/ t ∈ nt_indextids ntup.
Proof using Hs Hl.
  intros (i & Hi)%list_elem_of_lookup. rewrite with_slots_lookup in Hi.
  destruct (decide _); [left|right]; by eapply list_elem_of_lookup_2.
Qed.
End SlotUpdate.

Lemma elem_of_insert {A} (l : list A) i x y : y ∈ <[i := x]> l -> y = x \/ y ∈ l.
Proof.
  intros (j & Hj)%list_elem_of_lookup. rewrite list_lookup_insert in Hj. case_decide; [left; congruence|right].
  by eapply list_elem_of_lookup_2.
Qed.

Lemma update_slots_elem check idx tid l t : t ∈ update_slots check idx tid l -> t = tid \/ t ∈ l.
Proof.
  unfold update_slots, fill_slot. destruct (_ && _); [by right|].
  destruct (_ =? _); [destruct (decide _); [|by right]|]; apply elem_of_insert.
Qed.

Lemma length_update_slots check idx tid l : length (update_slots check idx tid l) = length l.
Proof.
  unfold update_slots, fill_slot. destruct (_ && _); [done|].
  destruct (_ =? _); [destruct (decide _); [|done]|]; apply length_insert.
Qed.

(** No two elements share a neighbor tuple, no two layers a slot. *)
Lemma neighbor_own rel m good E k k' etup etup' ntup ntup' : pages_wf rel m good E -> k ∈ E -> k' ∈ E ->
  element_wf rel m good E k etup ntup -> element_wf rel m good E k' etup' ntup' -> neighbor_of etup' = neighbor_of etup -> k' = k.
Proof.
  intros Hwf Hk Hk' Hew W Heq. pose proof (ew_element _ _ _ _ _ _ _ W) as T1. pose proof (ew_element _ _ _ _ _ _ _ Hew) as T2.
  apply element_at_place in T1, T2. injection Heq as E1 E2.
  pose proof (eo_own _ (pw_elements _ _ _ _ Hwf) _ _ _ _ _ _ (proj2 (pw_tid _ _ _ _ Hwf _ Hk'))
    (proj2 (pw_tid _ _ _ _ Hwf _ Hk)) T1 T2 E1 E2) as Hp.
  apply place_of_inj; [by apply (pw_tid _ _ _ _ Hwf)..|]. exact Hp.
Qed.

Lemma layers_apart rel m good E level lc lc' : pages_wf rel m good E -> 0 <= lc <= level -> 0 <= lc' <= level -> lc' <> lc ->
  (level - lc') * m + HnswGetLayerM m lc' <= (level - lc) * m \/ (level - lc) * m + HnswGetLayerM m lc <= (level - lc') * m.
Proof.
  intros Hwf Hlc Hlc' Hne. pose proof (pages_m _ _ _ _ Hwf). unfold HnswGetLayerM.
  destruct (Z.eqb_spec lc' 0), (Z.eqb_spec lc 0); try lia; destruct (Z.lt_ge_cases lc lc'); (left; nia) || (right; nia).
Qed.

(** The TIDs of an updated neighbor tuple are the old ones and the new one. *)
Lemma updated_slots_elem rel m good E k etup ntup lc check idx tid t :
  pages_wf rel m good E -> element_wf rel m good E k etup ntup -> 0 <= lc <= et_level etup ->
  let start := (et_level etup - lc) * m in
  t ∈ nt_indextids (with_slots start (update_slots check idx tid (slots start (HnswGetLayerM m lc) ntup)) ntup) ->
  t = tid \/ t ∈ nt_indextids ntup.
Proof.
  intros Hwf Hew Hlc start. destruct (layer_slots_inside _ _ _ _ Hwf _ _ Hlc) as [Hs1 Hs2]. fold start in Hs1, Hs2.
  pose proof (ew_length _ _ _ _ _ _ _ Hew) as Hlen.
  assert (Hl : (length (update_slots check idx tid (slots start (HnswGetLayerM m lc) ntup)) <= Z.to_nat (HnswGetLayerM m lc))%nat)
    by (rewrite length_update_slots; unfold slots; rewrite length_take; lia).
  intros [Ht|Ht]%with_slots_elem; [|by right|done|pose proof (layer_m _ _ _ _ Hwf lc); lia].
  apply update_slots_elem in Ht as [->|Ht]; [by left|right]. eapply elem_of_submseteq; [exact Ht|].
  apply sublist_submseteq. etrans; [apply sublist_take|apply sublist_drop].
Qed.

(** A neighbor tuple of the same shape whose neighbors are in the layers. *)
Lemma pages_wf_slots s s' m good E k etup ntup nt :
  pages_wf (index s) m good E -> k ∈ E -> element_wf (index s) m good E k etup ntup ->
  nt_version nt = nt_version ntup -> nt_count nt = nt_count ntup -> length (nt_indextids nt) = length (nt_indextids ntup) ->
  Forall ItemPointer_ok (nt_indextids nt) ->
  (forall lc t, 0 <= lc <= et_level etup -> t ∈ layer_slots m (HnswGetLayerM m lc) lc etup nt ->
     ItemPointerIsValid t = true -> t ∈ layer (index s) E lc) ->
  tuple_replaced s s' (neighbor_of etup).1 (neighbor_of etup).2 (NeighborTuple nt) ->
  rel_kept (index s) (index s') /\ (forall k', element_at (index s') k' = element_at (index s) k') /\
  pages_wf (index s') m good E.
Proof.
  intros Hwf Hk Hew Hv Hc Hl Hok Hsl Hr.
  pose proof (ew_neighbor _ _ _ _ _ _ _ Hew) as Hold. apply neighbor_at_place in Hold.
  assert (Hkt : tuple_kept (NeighborTuple ntup) (NeighborTuple nt)) by (by split_and!).
  pose proof (replaced_kept _ _ _ _ _ _ Hr Hold Hkt) as Hkept. split; [done|].
  assert (Hel : forall k', element_at (index s') k' = element_at (index s) k').
  { intros k'. unfold element_at. rewrite (replaced_tuple _ _ _ _ _ Hr). destruct (decide _) as [Heq|]; [|done].
    replace (tuple_at (index s) _ _) with (Some (NeighborTuple ntup)); [done|]. injection Heq as -> ->. done. }
  split; [exact Hel|].
  apply (pages_wf_kept _ _ Hkept m good E Hwf).
  - eapply replaced_index_ok; try done. apply Hwf.
  - eapply replaced_reached; [exact Hr|apply Hwf].
  - intros k' et' Hk' He'. rewrite Hel in He'. destruct (element_of _ _ _ _ Hwf k' Hk') as (et & nt0 & He & W).
    rewrite He in He'. injection He' as <-. apply (ew_heaptids _ _ _ _ _ _ _ W).
  - intros k' et' nt' Hk' He' Hnt'. destruct (element_of _ _ _ _ Hwf k' Hk') as (et & nt0 & He & W).
    rewrite He in He'. injection He' as <-. apply neighbor_at_place in Hnt'.
    rewrite (replaced_tuple _ _ _ _ _ Hr) in Hnt'. destruct (decide _) as [Heq|Hne].
    2: { pose proof (ew_neighbor _ _ _ _ _ _ _ W) as Hw. apply neighbor_at_place in Hw. rewrite Hw in Hnt'.
         injection Hnt' as <-. split; [apply (ew_tids _ _ _ _ _ _ _ W)|]. intros lc' t. apply (ew_slots _ _ _ _ _ _ _ W). }
    injection Hnt' as <-. assert (k' = k) as -> by (by eapply neighbor_own).
    rewrite (ew_element _ _ _ _ _ _ _ Hew) in He. injection He as <-. by split.
Qed.

(** The neighbor tuple of [k] with [tid] in a slot of layer [lc]. *)
Lemma pages_wf_neighbor s s' m good E k etup ntup lc check idx tid :
  pages_wf (index s) m good E -> k ∈ E -> element_wf (index s) m good E k etup ntup -> 0 <= lc <= et_level etup ->
  tid ∈ layer (index s) E lc ->
  let start := (et_level etup - lc) * m in
  tuple_replaced s s' (neighbor_of etup).1 (neighbor_of etup).2
    (NeighborTuple (with_slots start (update_slots check idx tid (slots start (HnswGetLayerM m lc) ntup)) ntup)) ->
  rel_kept (index s) (index s') /\ (forall k', element_at (index s') k' = element_at (index s) k') /\
  pages_wf (index s') m good E.
Proof.
  intros Hwf Hk Hew Hlc Htid start Hr.
  pose proof (layer_slots_inside _ _ _ _ Hwf _ _ Hlc) as [Hs1 Hs2]. fold start in Hs1, Hs2.
  pose proof (ew_length _ _ _ _ _ _ _ Hew) as Hlen. pose proof (layer_m _ _ _ _ Hwf lc) as Hlm.
  pose proof (ew_tids _ _ _ _ _ _ _ Hew) as Hok. rewrite list.Forall_forall in Hok.
  eapply (pages_wf_slots s s' m good E k etup ntup); [exact Hwf|exact Hk|exact Hew|..|exact Hr]; try done.
  - apply length_with_slots; [done|]. rewrite length_update_slots. unfold slots. rewrite length_take, length_drop. lia.
  - apply list.Forall_forall. intros t Ht.
    destruct (updated_slots_elem _ _ _ _ k etup ntup lc check idx tid t Hwf Hew Hlc Ht) as [->|Hin]; [|by apply Hok].
    apply (pw_tid _ _ _ _ Hwf). by apply elem_of_layer in Htid as [? _].
  - set (lm := HnswGetLayerM m lc) in *. set (l := update_slots _ _ _ _) in *.
    assert (Hll : Z.of_nat (length l) = lm).
    { unfold l. rewrite length_update_slots. unfold slots. rewrite length_take, length_drop. lia. }
    intros lc' t Hlc' Ht Hval. change (t ∈ slots ((et_level etup - lc') * m) (HnswGetLayerM m lc') (with_slots start l ntup)) in Ht.
    destruct (decide (lc' = lc)) as [->|Hne].
    + fold start lm in Ht. rewrite <- Hll, with_slots_same in Ht by lia. apply update_slots_elem in Ht as [->|Ht]; [done|].
      by apply (ew_slots _ _ _ _ _ _ _ Hew).
    + rewrite with_slots_other in Ht; [by apply (ew_slots _ _ _ _ _ _ _ Hew)|done|lia| |].
      { pose proof (layer_slots_inside _ _ _ _ Hwf _ _ Hlc'). lia. }
      rewrite Hll. by eapply layers_apart.
Qed.

(** ** A heap TID more in an element *)

Lemma pages_wf_heaptids s s' m good E k etup htids :
  pages_wf (index s) m good E -> k ∈ E -> element_at (index s) k = Some etup -> heaptids_ok htids ->
  let etup' := mkHnswElementTuple (et_level etup) (et_deleted etup) (et_version etup) htids (et_neighbortid etup)
    (et_unused etup) (et_data etup) in
  tuple_replaced s s' (place_of k).1 (place_of k).2 (ElementTuple etup') ->
  rel_kept (index s) (index s') /\ pages_wf (index s') m good E /\
  forall k', ItemPointer_ok k' -> element_at (index s') k' = if decide (k' = k) then Some etup' else element_at (index s) k'.
Proof.
  intros Hwf Hk He Hok etup' Hr. destruct (element_of _ _ _ _ Hwf k Hk) as (et & nt & He0 & W).
  rewrite He in He0. injection He0 as <-. pose proof (proj1 (element_at_place _ _ _) He) as Hold.
  assert (Hkt : tuple_kept (ElementTuple etup) (ElementTuple etup')).
  { pose proof (ew_live _ _ _ _ _ _ _ W). split_and!; try done. simpl. rewrite (proj1 Hok). symmetry. apply (ew_heaptids _ _ _ _ _ _ _ W). }
  pose proof (replaced_kept _ _ _ _ _ _ Hr Hold Hkt) as Hkept. split; [done|].
  assert (Hat : forall k', ItemPointer_ok k' ->
    element_at (index s') k' = if decide (k' = k) then Some etup' else element_at (index s) k').
  { intros k' Hk'. unfold element_at at 1. rewrite (replaced_tuple _ _ _ _ _ Hr). destruct (decide (k' = k)) as [->|Hne].
    - by rewrite decide_True.
    - rewrite decide_False; [done|]. intros Heq. apply Hne, place_of_inj; [done|by apply (pw_tid _ _ _ _ Hwf)|exact Heq]. }
  split; [|exact Hat]. apply (pages_wf_kept _ _ Hkept m good E Hwf).
  - eapply replaced_index_ok; try done. apply Hwf.
  - eapply replaced_reached; [exact Hr|apply Hwf].
  - intros k' et' Hk' He'. rewrite Hat in He' by by apply (pw_tid _ _ _ _ Hwf).
    destruct (decide (k' = k)) as [->|]; [by injection He' as <-|].
    destruct (element_of _ _ _ _ Hwf k' Hk') as (et1 & nt1 & He1 & W1). rewrite He1 in He'. injection He' as <-.
    apply (ew_heaptids _ _ _ _ _ _ _ W1).
  - intros k' et' nt' Hk' He' Hnt'. destruct (element_of _ _ _ _ Hwf k' Hk') as (et1 & nt1 & He1 & W1).
    rewrite He1 in He'. injection He' as <-.
    assert (nt' = nt1) as ->; [|split; [apply (ew_tids _ _ _ _ _ _ _ W1)|intros lc t; apply (ew_slots _ _ _ _ _ _ _ W1)]].
    apply neighbor_at_place in Hnt'. rewrite (replaced_tuple _ _ _ _ _ Hr) in Hnt'. destruct (decide _); [done|].
    pose proof (ew_neighbor _ _ _ _ _ _ _ W1) as Hw. apply neighbor_at_place in Hw. congruence.
Qed.

(** ** A new element *)

Lemma reach_range rel a b : index_ok rel -> 1 <= a < nlen rel -> reach rel a b -> a <= b < nlen rel.
Proof.
  intros Hix Ha Hr. revert Ha. induction Hr as [a|a c b (p & Hp & Hn & Hv) Hr IH]; intros Ha; [lia|].
  destruct (ix_next _ Hix a p ltac:(lia) Hp) as [Hx|Hx]; rewrite Hn in Hx.
  - unfold BlockNumberIsValid in Hv. by rewrite Hx, Z.eqb_refl in Hv.
  - specialize (IH ltac:(lia)). lia.
Qed.

Lemma tuple_place_ok rel b off tup : index_ok rel -> 1 <= b -> tuple_at rel b off = Some tup ->
  BlockNumber_ok b /\ 1 <= off /\ OffsetNumber_ok off.
Proof.
  intros Hix Hb (p & Hp & Ht)%tuple_at_lookup. pose proof (ix_pages _ Hix b p Hb Hp) as Hok. pose proof (ix_size _ Hix) as Hsz.
  apply block_lookup in Hp as [_ Hp]. apply lookup_lt_Some in Hp. unfold InvalidBlockNumber in Hsz.
  apply page_tuple_lookup in Ht as (it & Ho & Hl & _). apply lookup_lt_Some in Hl. pose proof (nitems_bound p Hok).
  unfold BlockNumber_ok, OffsetNumber_ok. lia.
Qed.

Lemma elem_of_all_slots f top t : t ∈ all_slots f top -> exists lc, (lc <= top)%nat /\ t ∈ f lc.
Proof.
  induction top as [|top IH]; cbn [all_slots]; [by exists O|]. intros [Ht|Ht]%elem_of_app; [by exists (S top)|].
  destruct (IH Ht) as (lc & Hlc & Hin). exists lc. split; [lia|done].
Qed.

Lemma elem_of_padded base s lm items t : t ∈ padded base s lm items ->
  t = ItemPointerSetInvalid \/ exists hc, hc ∈ items /\ t = neighbor_tid base s hc.
Proof.
  unfold padded. intros [(hc & -> & Hhc)%list_elem_of_fmap|Ht]%elem_of_app; [right; eauto|left].
  by apply elem_of_replicate in Ht as [-> _].
Qed.

Section NewElement.
Context (s s' : Backend) (m : Z) (e : addr) (el : HnswElementData) (v : Vector) (ns : list HnswNeighborArray).
Context (insertPage b : BlockNumber) (off : OffsetNumber) (nb : BlockNumber) (noff : OffsetNumber).
Context (Hadd : element_added s s' m e el v ns insertPage b off nb noff) (Hin : insertable s m e el v ns).
Context (good : Vector -> Prop) (E : gset ItemPointerData) (Hwf : pages_wf (index s) m good E) (Hgood : good v).
Context (tid : ItemPointerData) (Htid : el_heaptids el = [tid]) (Hvalid : ItemPointerIsValid tid = true).
Context (Hpage : 1 <= insertPage < nlen (index s)).
Context (Hns : forall lc hc, (Z.of_nat lc <= el_level el) -> hc ∈ layer_items ns lc ->
  neighbor_tid NULL s hc ∈ layer (index s) E (Z.of_nat lc)).

#[local] Abbreviation k := (ItemPointerSet b off).

(** The tuples of the new element. *)
Lemma new_tuples : exists etup ntup,
  tuple_at (index s') b off = Some (ElementTuple etup) /\ tuple_at (index s') nb noff = Some (NeighborTuple ntup) /\
  et_level etup = el_level el /\ et_deleted etup = 0 /\ et_data etup = v /\ et_neighbortid etup = ItemPointerSet nb noff /\
  heaptids_ok (et_heaptids etup) /\ valid_prefix (et_heaptids etup) = [tid] /\
  nt_version ntup = et_version etup /\ nt_count ntup = (el_level el + 2) * m /\
  nt_indextids ntup = all_slots (layer_padded NULL m s ns) (Z.to_nat (el_level el)).
Proof using Hadd Htid Hvalid.
  destruct (ea_tuples _ _ _ _ _ _ _ _ _ _ _ _ Hadd) as (version & H1 & H2 & _).
  eexists _, _. split; [exact H1|]. split; [exact H2|]. rewrite Htid. split_and!; try done.
  - split; [done|]. exists [tid]. split; [done|]. by constructor.
  - cbn [et_heaptids take app]. apply (valid_prefix_padded [tid]). by constructor.
Qed.

(** What was there before. *)
Lemma old_place : 1 <= b /\ 1 <= nb /\
  (forall et, tuple_at (index s) b off = Some (ElementTuple et) -> et_deleted et <> 0) /\
  (forall nt, tuple_at (index s) b off <> Some (NeighborTuple nt)) /\
  (forall et, tuple_at (index s) nb noff <> Some (ElementTuple et)) /\
  (forall c o et, 1 <= c -> tuple_at (index s) c o = Some (ElementTuple et) -> neighbor_of et = (nb, noff) -> (c, o) = (b, off)).
Proof using Hadd Hwf Hpage.
  pose proof (ea_index _ _ _ _ _ _ _ _ _ _ _ _ Hadd) as Hix'. pose proof (pw_index _ _ _ _ Hwf) as Hix.
  pose proof (ea_length _ _ _ _ _ _ _ _ _ _ _ _ Hadd) as Hlen.
  assert (Hins : 1 <= insertPage < nlen (index s')) by lia.
  pose proof (reach_range _ _ _ Hix' Hins (ea_reach _ _ _ _ _ _ _ _ _ _ _ _ Hadd)) as Hb.
  destruct (ea_tuples _ _ _ _ _ _ _ _ _ _ _ _ Hadd) as (version & _ & _ & [(_ & N1 & N2 & Hnr)|(old & nt & T1 & Hd & _ & P1 & P2 & T2)]).
  - pose proof (reach_range _ _ _ Hix' Hins Hnr) as Hnb. split_and!; try lia; try (intros; congruence).
    intros c o et Hc Ht Hn. destruct (eo_neighbors _ (pw_elements _ _ _ _ Hwf) c o et Hc Ht) as (_ & nt & Hnt & _).
    injection Hn as E1 E2. congruence.
  - destruct (ix_deleted _ Hix b off old ltac:(lia) T1 Hd) as [Hnb _]. rewrite P1 in Hnb.
    split_and!; try lia; try (intros; congruence).
    intros c o et Hc Ht Hn. injection Hn as E1 E2.
    apply (eo_own _ (pw_elements _ _ _ _ Hwf) c o et b off old Hc ltac:(lia) Ht T1); congruence.
Qed.

Lemma new_place_ok : ItemPointer_ok k /\ ItemPointerIsValid k = true /\ place_of k = (b, off) /\ BlockNumber_ok nb /\ place_of (ItemPointerSet nb noff) = (nb, noff).
Proof using Hadd Hwf Hpage Htid Hvalid.
  destruct old_place as (Hb & Hnb & _). pose proof (ea_index _ _ _ _ _ _ _ _ _ _ _ _ Hadd) as Hix'.
  destruct new_tuples as (etup & ntup & T1 & T2 & _).
  destruct (tuple_place_ok _ _ _ _ Hix' Hb T1) as (B1 & B2 & B3). destruct (tuple_place_ok _ _ _ _ Hix' Hnb T2) as (C1 & C2 & C3).
  unfold place_of. destruct (ItemPointerGet_Set b off B1) as [-> ->], (ItemPointerGet_Set nb noff C1) as [-> ->].
  split_and!; try done; [by apply ItemPointerSet_ok|]. unfold ItemPointerIsValid. simpl. destruct (Z.eqb_spec off 0); [lia|done].
Qed.

Lemma places_differ : (b, off) <> (nb, noff).
Proof using Hadd Htid Hvalid.
  destruct new_tuples as (etup & ntup & T1 & T2 & _). intros [= E1 E2]. rewrite E1, E2 in T1. congruence.
Qed.

(** The elements there are now. *)
Lemma element_tuples c o et : 1 <= c -> tuple_at (index s') c o = Some (ElementTuple et) ->
  (c, o) = (b, off) \/
  (c, o) <> (b, off) /\ tuple_at (index s) c o = Some (ElementTuple et) /\ neighbor_of et <> (nb, noff) /\
  tuple_at (index s') (neighbor_of et).1 (neighbor_of et).2 = tuple_at (index s) (neighbor_of et).1 (neighbor_of et).2.
Proof using Hadd Hwf Hpage Htid Hvalid.
  intros Hc Ht. destruct old_place as (Hb & Hnb & H1 & H2 & H3 & H4).
  destruct (decide ((c, o) = (b, off))) as [|Hne]; [by left|right]. split; [done|].
  assert ((c, o) <> (nb, noff)) as Hn.
  { intros [= -> ->]. destruct new_tuples as (etup & ntup & _ & T2 & _). congruence. }
  rewrite (ea_others _ _ _ _ _ _ _ _ _ _ _ _ Hadd c o Hne Hn) in Ht. split; [done|].
  assert (neighbor_of et <> (nb, noff)) as Hown by (intros Hx; by apply Hne, (H4 c o et)). split; [done|].
  apply (ea_others _ _ _ _ _ _ _ _ _ _ _ _ Hadd); [|by rewrite <- surjective_pairing].
  rewrite <- surjective_pairing. destruct (eo_neighbors _ (pw_elements _ _ _ _ Hwf) c o et Hc Ht) as (_ & nt & Hnt & _).
  intros [= E1 E2]. apply (H2 nt). congruence.
Qed.

Lemma added_elements_ok : elements_ok (index s').
Proof using Hadd Hin Hwf Hpage Htid Hvalid.
  destruct old_place as (Hb & Hnb & H1 & H2 & H3 & H4). destruct new_place_ok as (_ & _ & _ & _ & Hnp).
  destruct new_tuples as (etup & ntup & T1 & T2 & E1 & E2 & E3 & E4 & E5 & E6 & E7 & E8 & E9).
  pose proof (pw_elements _ _ _ _ Hwf) as [O1 O2 O3].
  assert (Hnew : neighbor_of etup = (nb, noff)) by (unfold neighbor_of; rewrite E4; exact Hnp).
  split.
  - intros c o et Hc Ht. destruct (element_tuples c o et Hc Ht) as [[= -> ->]|(_ & Ht0 & _)]; [|by eapply O1].
    rewrite T1 in Ht. injection Ht as <-. apply lookup_lt_is_Some. rewrite (proj1 E5). lia.
  - intros c o et Hc Ht. destruct (element_tuples c o et Hc Ht) as [[= -> ->]|(_ & Ht0 & _ & Hsame)].
    + rewrite T1 in Ht. injection Ht as <-. injection Hnew as N1 N2. unfold has_neighbors. rewrite N1, N2.
      split; [done|]. exists ntup. split; [done|]. rewrite E8, E9.
      pose proof (in_m _ _ _ _ _ _ Hin). pose proof (in_level _ _ _ _ _ _ Hin). unfold HNSW_MIN_M in *.
      rewrite (length_all_slots m _ ltac:(lia) (fun lc => length_layer_padded NULL m s el ns lc (in_neighbors _ _ _ _ _ _ Hin) ltac:(lia))). lia.
    + destruct (O2 c o et Hc Ht0) as (B & nt & Hnt & Hl). split; [done|]. exists nt. split; [|done]. simpl in Hsame. congruence.
  - intros c o et c' o' et' Hc Hc' Ht Ht' Q1 Q2. assert (neighbor_of et = neighbor_of et') as Hq by (unfold neighbor_of; congruence).
    destruct (element_tuples c o et Hc Ht) as [[= -> ->]|(_ & Ht0 & N1 & _)], (element_tuples c' o' et' Hc' Ht') as [[= -> ->]|(_ & Ht0' & N2 & _)].
    + done.
    + rewrite T1 in Ht. injection Ht as <-. congruence.
    + rewrite T1 in Ht'. injection Ht' as <-. congruence.
    + by eapply O3.
Qed.

Lemma added_elements k' : k' ∈ E -> element_at (index s') k' = element_at (index s) k' /\ k' <> k.
Proof using Hadd Hwf Hpage Htid Hvalid.
  intros Hk'. destruct old_place as (Hb & Hnb & H1 & H2 & H3 & H4). destruct new_place_ok as (Hok & _ & Hp & _).
  destruct (element_of _ _ _ _ Hwf k' Hk') as (et & nt & He & W). pose proof (proj1 (element_at_place _ _ _) He) as T.
  assert (place_of k' <> (b, off)) as N1.
  { intros Hx. rewrite Hx in T. by apply (H1 et T), (ew_live _ _ _ _ _ _ _ W). }
  assert (place_of k' <> (nb, noff)) as N2 by (intros Hx; rewrite Hx in T; by apply (H3 et)).
  split; [|intros ->; by rewrite Hp in N1]. unfold element_at.
  by rewrite (ea_others _ _ _ _ _ _ _ _ _ _ _ _ Hadd _ _ N1 N2).
Qed.
Lemma layer_added lc : layer (index s) E lc ⊆ layer (index s') ({[k]} ∪ E) lc.
Proof using Hadd Hwf Hpage Htid Hvalid.
  intros t. rewrite !elem_of_layer. intros (Ht & et & He & Hl). split; [by apply elem_of_union_r|]. exists et. split; [|done].
  by rewrite (proj1 (added_elements t Ht)).
Qed.

Lemma added_slot lc t : 0 <= lc <= el_level el -> t ∈ layer_padded NULL m s ns (Z.to_nat lc) ->
  t = ItemPointerSetInvalid \/ t ∈ layer (index s) E lc.
Proof using Hns.
  intros Hlc [->|(hc & Hhc & ->)]%elem_of_padded; [by left|right]. rewrite <- (Z2Nat.id lc) by lia. apply Hns; [lia|done].
Qed.

Lemma added_element_wf : exists etup ntup, element_wf (index s') m good ({[k]} ∪ E) k etup ntup /\
  valid_prefix (et_heaptids etup) = [tid] /\ et_data etup = v /\ et_level etup = el_level el.
Proof using Hadd Hin Hwf Hpage Htid Hvalid Hns Hgood.
  destruct new_place_ok as (_ & _ & Hp & _ & Hnp).
  destruct new_tuples as (etup & ntup & T1 & T2 & E1 & E2 & E3 & E4 & E5 & E6 & E7 & E8 & E9).
  pose proof (in_m _ _ _ _ _ _ Hin) as Hm. pose proof (in_level _ _ _ _ _ _ Hin) as Hl. unfold HNSW_MIN_M in Hm.
  pose proof (fun lc => length_layer_padded NULL m s el ns lc (in_neighbors _ _ _ _ _ _ Hin) ltac:(lia)) as Hlp.
  exists etup, ntup. split; [|done]. split; try done; rewrite ?E1, ?E4; try done.
  - apply element_at_place. by rewrite Hp.
  - apply neighbor_at_place. by rewrite Hnp.
  - rewrite E9, (length_all_slots m _ ltac:(lia) Hlp). lia.
  - rewrite E9. apply list.Forall_forall. intros t (lc & Hlc & Ht)%elem_of_all_slots.
    rewrite <- (Nat2Z.id lc) in Ht. destruct (added_slot (Z.of_nat lc) t ltac:(lia) Ht) as [->|[HE _]%elem_of_layer].
    + by vm_compute.
    + by apply (pw_tid _ _ _ _ Hwf).
  - by rewrite E3.
  - intros lc t Hlc Ht Hval. unfold layer_slots in Ht. rewrite E1, E9 in Ht.
    pose proof (layer_of_all_slots m _ ltac:(lia) Hlp (Z.to_nat (el_level el)) (Z.to_nat lc) ltac:(lia)) as Hlay.
    rewrite !Z2Nat.id in Hlay by lia. rewrite Hlay in Ht. destruct (added_slot lc t ltac:(lia) Ht) as [->|HE]; [done|].
    by apply layer_added.
  - injection Hnp as ->. apply (ea_size _ _ _ _ _ _ _ _ _ _ _ _ Hadd).
Qed.

(** The index with the new element. *)
Lemma pages_wf_added : (k ∉ E) /\ pages_wf (index s') m good ({[k]} ∪ E).
Proof using Hadd Hin Hwf Hpage Htid Hvalid Hns Hgood.
  destruct old_place as (Hb & _). destruct new_place_ok as (Hok & Hval & Hp & _).
  split; [intros Hk; by apply (proj2 (added_elements k Hk))|].
  split.
  - apply Hwf.
  - apply (ea_index _ _ _ _ _ _ _ _ _ _ _ _ Hadd).
  - exact added_elements_ok.
  - intros k' [->%elem_of_singleton|Hk']%elem_of_union; [|by apply (pw_tid _ _ _ _ Hwf)].
    split; [done|]. apply (f_equal fst) in Hp. simpl in Hp. by rewrite Hp.
  - intros k' [->%elem_of_singleton|Hk']%elem_of_union.
    { destruct added_element_wf as (etup & ntup & W & _). by exists etup, ntup. }
    destruct (element_of _ _ _ _ Hwf k' Hk') as (et & nt & He & [W1 W2 W3 W4 W5 W6 W7 W8 W9 W10 W11 W12]). exists et, nt.
    destruct (added_elements k' Hk') as [Hsame _].
    assert (Ht' : tuple_at (index s') (place_of k').1 (place_of k').2 = Some (ElementTuple et)).
    { apply element_at_place. by rewrite Hsame. }
    destruct (element_tuples _ _ et (proj2 (pw_tid _ _ _ _ Hwf _ Hk')) Ht') as [Hx|(_ & _ & Hown & Hn)].
    { exfalso. apply (proj2 (added_elements k' Hk')), place_of_inj; [by apply (pw_tid _ _ _ _ Hwf)|done|]. rewrite Hp. exact Hx. }
    split; try done; [by rewrite Hsame| | |].
    + apply neighbor_at_place. apply neighbor_at_place in W2. unfold neighbor_of in Hn. simpl in Hn. rewrite <- W2. exact Hn.
    + intros lc t Hlc Ht Hv. by apply layer_added, (W11 lc).
    + apply (ea_items _ _ _ _ _ _ _ _ _ _ _ _ Hadd); [|exact Hown|done]. intros Hx. destruct old_place as (_ & _ & _ & Hold & _).
      apply neighbor_at_place in W2. apply (Hold nt). unfold place_of in W2. simpl in W2. by injection Hx as <- <-.
  - intros c o et Hc Ht Hd. destruct (element_tuples c o et Hc Ht) as [[= -> ->]|(_ & Ht0 & _)]; [set_solver|].
    apply elem_of_union_r. by eapply (pw_all _ _ _ _ Hwf).
  - intros c o et Hc Ht. destruct (element_tuples c o et Hc Ht) as [[= -> ->]|(_ & Ht0 & _)]; [|by eapply (pw_dead _ _ _ _ Hwf)].
    destruct new_tuples as (etup & ntup & T1 & _ & _ & E2 & _). rewrite T1 in Ht. injection Ht as <-. by intros Hd.
  - apply (ea_chain _ _ _ _ _ _ _ _ _ _ _ _ Hadd), Hwf.
Qed.
End NewElement.

Lemma layer_same rel rel' E lc : (forall k, element_at rel' k = element_at rel k) -> layer rel' E lc = layer rel E lc.
Proof. intros He. apply set_eq. intros k. by rewrite !elem_of_layer, He. Qed.

(** ** Updates of the metapage *)

Section MetaUpdate.
Context (s s' : Backend) (meta' : HnswMetaPageData) (Hu : meta_updated s s' meta').

Lemma meta_updated_index_ok : index_ok (index s) -> index_ok (index s').
Proof using Hu.
  intros [H1 H2 H3 H4]. assert (Hb : forall b p, 1 <= b -> block (rd_main (index s')) b = Some p -> block (rd_main (index s)) b = Some p).
  { intros b p Hb Hp. rewrite <- Hp. symmetry. apply (mu_blocks _ _ _ Hu). unfold HNSW_METAPAGE_BLKNO. lia. }
  split; rewrite ?(mu_length _ _ _ Hu); try done.
  - intros b p Hb1 Hp. apply (H2 b); auto.
  - intros b p Hb1 Hp. apply (H3 b); auto.
  - intros b off et Hb1 Ht Hd. rewrite (mu_tuples _ _ _ Hu) in Ht. destruct (H4 b off et Hb1 Ht Hd) as (B & nt & Hnt).
    split; [done|]. exists nt. by rewrite (mu_tuples _ _ _ Hu).
Qed.

Lemma meta_updated_kept : rel_kept (index s) (index s').
Proof using Hu. apply same_tuples_kept; apply Hu. Qed.

Lemma meta_updated_links : links_kept (index s) (index s').
Proof using Hu.
  split; [by rewrite (mu_length _ _ _ Hu)|]. intros b p' Hp'. destruct (decide (b = HNSW_METAPAGE_BLKNO)) as [->|Hne].
  - destruct (mu_meta _ _ _ Hu) as (p & Hp & Hp2). exists p. split; [done|]. rewrite Hp2 in Hp'. by injection Hp' as <-.
  - exists p'. split; [|done]. by rewrite <- (mu_blocks _ _ _ Hu b Hne).
Qed.

Lemma meta_updated_elements k : element_at (index s') k = element_at (index s) k.
Proof using Hu. unfold element_at. by rewrite (mu_tuples _ _ _ Hu). Qed.

Lemma meta_updated_wf m good E : pages_wf (index s) m good E -> pages_wf (index s') m good E.
Proof using Hu.
  intros Hwf. apply (pages_wf_kept _ _ meta_updated_kept m good E Hwf).
  - apply meta_updated_index_ok, Hwf.
  - eapply links_kept_reached; [exact meta_updated_links|apply Hwf].
  - intros k et Hk He. rewrite meta_updated_elements in He. destruct (element_of _ _ _ _ Hwf k Hk) as (et' & nt & He' & W).
    rewrite He in He'. injection He' as <-. apply (ew_heaptids _ _ _ _ _ _ _ W).
  - intros k et nt Hk He Hnt. destruct (element_of _ _ _ _ Hwf k Hk) as (et' & nt' & He' & W).
    rewrite He in He'. injection He' as <-. pose proof (ew_neighbor _ _ _ _ _ _ _ W) as Hn.
    apply neighbor_at_place in Hnt, Hn. rewrite (mu_tuples _ _ _ Hu), Hn in Hnt. injection Hnt as <-.
    split; [apply (ew_tids _ _ _ _ _ _ _ W)|intros lc t; apply (ew_slots _ _ _ _ _ _ _ W)].
Qed.

Lemma meta_updated_nlen : nlen (index s') = nlen (index s).
Proof using Hu. by rewrite (mu_length _ _ _ Hu). Qed.
End MetaUpdate.

(** A new insert page. *)
Lemma entry_wf_insert_page s s' meta page E : let meta' := HnswUpdateMetaPageInfo 0 None page meta in
  meta_updated s s' meta' -> meta_ok (index s') meta' -> entry_wf (index s) meta E -> 1 <= page < nlen (index s) ->
  entry_wf (index s') meta' E.
Proof.
  intros meta' Hu Hmeta [H1 H2 H3 H4] Hp.
  assert (Hf : mp_insertPage meta' = page \/ mp_insertPage meta' = mp_insertPage meta) by (unfold meta', HnswUpdateMetaPageInfo; simpl; destruct (BlockNumberIsValid page); auto).
  assert (He : mp_entryBlkno meta' = mp_entryBlkno meta /\ mp_entryOffno meta' = mp_entryOffno meta /\ mp_entryLevel meta' = mp_entryLevel meta)
    by (unfold meta', HnswUpdateMetaPageInfo; simpl; by destruct (BlockNumberIsValid page)).
  destruct He as (E1 & E2 & E3). unfold entry_tid in *. split; rewrite ?E1, ?E2, ?E3.
  - done.
  - rewrite (meta_updated_nlen _ _ _ Hu). destruct Hf as [-> | ->]; lia.
  - unfold entry_tid. rewrite E1, E2. by rewrite (meta_updated_elements _ _ _ Hu).
  - intros k et Hk. rewrite (meta_updated_elements _ _ _ Hu). by apply H4.
Qed.

(** A new entry point, of a higher level than all other elements. *)
Lemma entry_wf_greater s s' meta el E k etup : let meta' := HnswUpdateMetaPageInfo HNSW_UPDATE_ENTRY_GREATER (Some el) InvalidBlockNumber meta in
  meta_updated s s' meta' -> meta_ok (index s') meta' -> entry_wf (index s) meta E -> mp_entryLevel meta < el_level el ->
  BlockNumber_ok (el_blkno el) -> OffsetNumber_ok (el_offno el) -> BlockNumberIsValid (el_blkno el) = true ->
  k = ItemPointerSet (el_blkno el) (el_offno el) -> element_at (index s) k = Some etup -> et_level etup = el_level el ->
  entry_wf (index s') meta' ({[k]} ∪ E).
Proof.
  intros meta' Hu Hmeta [H1 H2 H3 H4] Hlt Hb Ho Hv -> He Hl.
  assert (meta' = mp_set_entry (el_blkno el) (el_offno el) (el_level el) meta) as Hm.
  { unfold meta', HnswUpdateMetaPageInfo. simpl. by destruct (Z.ltb_spec (mp_entryLevel meta) (el_level el)); [|lia]. }
  rewrite Hm in *. split; cbn.
  - done.
  - by rewrite (meta_updated_nlen _ _ _ Hu).
  - rewrite Hv. split; [done|]. split; [done|]. unfold entry_tid. cbn. split; [apply elem_of_union_l; by apply elem_of_singleton|].
    exists etup. by rewrite (meta_updated_elements _ _ _ Hu).
  - intros k' et [->%elem_of_singleton|Hk]%elem_of_union; rewrite (meta_updated_elements _ _ _ Hu).
    + rewrite He. intros [= <-]. lia.
    + intros He'. specialize (H4 k' et Hk He'). lia.
Qed.

(** The entry point stays when it is as high as the new element. *)
Lemma entry_wf_same rel meta E k etup : entry_wf rel meta E -> E <> ∅ -> element_at rel k = Some etup ->
  et_level etup <= mp_entryLevel meta -> entry_wf rel meta ({[k]} ∪ E).
Proof.
  intros [H1 H2 H3 H4] Hne He Hl. split; try done.
  - destruct (BlockNumberIsValid _); [|by destruct H3].
    destruct H3 as (? & ? & Hin & Hex). split_and!; try done. by apply elem_of_union_r.
  - intros k' et [->%elem_of_singleton|Hk]%elem_of_union He'; [|by eapply H4]. rewrite He in He'. by injection He' as <-.
Qed.

(** ** What an insertion adds *)

(** One element with the value [v] has the heap TID besides those it had, the
    others are as they were. *)
Definition inserted (rel rel' : Relation) (E E' : gset ItemPointerData) (v : Vector) (tid : ItemPointerData) : Prop :=
  exists k etup, E' = {[k]} ∪ E /\ element_at rel' k = Some etup /\ et_data etup = v /\
    heap_tids rel' k = (if decide (k ∈ E) then heap_tids rel k else []) ++ [tid] /\
    (k ∈ E -> exists old, element_at rel k = Some old /\ et_data old = v) /\
    forall k', k' ∈ E -> k' <> k -> element_at rel' k' = element_at rel k'.

(** What the index holds: the heap TIDs with the value they are under. *)
Definition rows_at (rel : Relation) (k : ItemPointerData) : list (ItemPointerData * Vector) :=
  match element_at rel k with Some etup => (fun t => (t, et_data etup)) <$> heap_tids rel k | None => [] end.

Definition index_rows (rel : Relation) (E : gset ItemPointerData) : list (ItemPointerData * Vector) := elements E ≫= rows_at rel.

Definition index_tids (rel : Relation) (E : gset ItemPointerData) : list ItemPointerData := elements E ≫= heap_tids rel.

Lemma index_rows_tids rel E : (index_rows rel E).*1 = index_tids rel E.
Proof.
  unfold index_rows, index_tids. induction (elements E) as [|k l IH]; [done|]. rewrite !bind_cons, fmap_app, IH. f_equal.
  unfold rows_at, heap_tids. destruct (element_at rel k) as [etup|]; [|done]. rewrite <- list_fmap_compose. apply list_fmap_id.
Qed.

Lemma bind_rows_ext rel rel' (l : list ItemPointerData) : (forall k, k ∈ l -> element_at rel' k = element_at rel k) ->
  l ≫= rows_at rel' = l ≫= rows_at rel.
Proof. intros Hl. apply bind_same. intros k Hk. unfold rows_at, heap_tids. by rewrite Hl. Qed.

Lemma index_rows_insert rel k E : k ∉ E -> index_rows rel ({[k]} ∪ E) ≡ₚ rows_at rel k ++ index_rows rel E.
Proof. intros Hk. unfold index_rows. by rewrite elements_union_singleton by done. Qed.

(** The rows of the index are those from before and the new one. *)
Lemma inserted_rows rel rel' E E' v tid : inserted rel rel' E E' v tid -> index_rows rel' E' ≡ₚ (tid, v) :: index_rows rel E.
Proof.
  intros (k & etup & -> & He & Hv & Ht & Hold & Hsame).
  assert (Hrest : forall F, F ⊆ E -> k ∉ F -> index_rows rel' F = index_rows rel F).
  { intros F HF Hk. apply bind_rows_ext. intros k' Hk'%elem_of_elements. apply Hsame; [by apply HF|]. by intros ->. }
  assert (Hk : rows_at rel' k = (if decide (k ∈ E) then rows_at rel k else []) ++ [(tid, v)]).
  { unfold rows_at at 1. rewrite He, Ht, Hv, fmap_app. f_equal. case_decide as Hk; [|done].
    destruct (Hold Hk) as (old & Ho & Hvo). unfold rows_at. by rewrite Ho, Hvo. }
  destruct (decide (k ∈ E)) as [Hin|Hin].
  - assert (E = {[k]} ∪ (E ∖ {[k]})) as HE.
    { apply set_eq. intros x. destruct (decide (x = k)); set_solver. }
    assert ({[k]} ∪ E = {[k]} ∪ (E ∖ {[k]})) as -> by set_solver.
    rewrite HE at 2. rewrite !index_rows_insert by set_solver. rewrite Hk, Hrest by set_solver.
    rewrite <- app_assoc. simpl. by rewrite <- Permutation_middle.
  - rewrite index_rows_insert by done. rewrite Hk, Hrest by done. done.
Qed.

Lemma dup_inserted s s' m good E k etup htids tid : pages_wf (index s) m good E -> k ∈ E ->
  element_at (index s) k = Some etup -> valid_prefix htids = valid_prefix (et_heaptids etup) ++ [tid] ->
  let etup' := mkHnswElementTuple (et_level etup) (et_deleted etup) (et_version etup) htids (et_neighbortid etup)
    (et_unused etup) (et_data etup) in
  (forall k', ItemPointer_ok k' -> element_at (index s') k' = if decide (k' = k) then Some etup' else element_at (index s) k') ->
  inserted (index s) (index s') E E (et_data etup) tid.
Proof.
  intros Hwf Hk He Hpre etup' Hat. pose proof (proj1 (pw_tid _ _ _ _ Hwf k Hk)) as Hok. exists k, etup'.
  assert (Hk' : element_at (index s') k = Some etup') by (by rewrite Hat, decide_True).
  split_and!; [set_solver|done|done| | |].
  - rewrite decide_True by done. unfold heap_tids. by rewrite Hk', He.
  - intros _. by exists etup.
  - intros k' Hk1 Hne. rewrite Hat by by apply (pw_tid _ _ _ _ Hwf). by rewrite decide_False.
Qed.

(** Every element has a heap TID. *)
Definition all_held (rel : Relation) (E : gset ItemPointerData) : Prop := forall k, k ∈ E -> heap_tids rel k <> [].

Lemma inserted_held rel rel' E E' v tid : inserted rel rel' E E' v tid -> all_held rel E -> all_held rel' E'.
Proof.
  intros (k & etup & -> & _ & _ & Ht & _ & Hsame) Hall k' Hk'. destruct (decide (k' = k)) as [->|Hne].
  - rewrite Ht. by destruct (if decide _ then _ else _).
  - assert (Hin : k' ∈ E) by set_solver. specialize (Hsame k' Hin Hne). specialize (Hall k' Hin). unfold heap_tids in *. by rewrite Hsame.
Qed.

Lemma inserted_size rel rel' E E' v tid : inserted rel rel' E E' v tid -> (size E' <= size E + 1)%nat.
Proof.
  intros (k & _ & -> & _). rewrite size_union_alt, size_singleton.
  assert (size (E ∖ {[k]}) <= size E)%nat by (apply subseteq_size; set_solver). lia.
Qed.
