(* ===== verification/InsertSearch.v ===== *)
(** * Insertion on disk: the neighbors of the new element

    [HnswFindElementNeighbors] (FindNeighbors.v) on the pages of a well-formed
    index (IndexWf.v): the descent and the searches load elements from the pages
    into memory, the selected ones become the neighbors of the new element. *)

From Stdlib Require Import SpecFloat.
From S2P Require Import Prelude CFloat VectorType GraphSearch ItemPtr HnswData BufPage Backend HnswUtils SearchLayer.
From S2P Require Import LayerRefinement PageUpdate MetaPage DiskGraph QSort SelectNeighbors UpdateConnection FindNeighbors IndexWf.

(** States that differ in memory at [e] and in what was allocated. *)
Record extends_off (e : addr) (s s' : Backend) : Prop := {
  xo_mem p x : p <> e -> mem s !! p = Some x -> mem s' !! p = Some x;
  xo_index : index s' = index s;
  xo_xlog : xlog s' = xlog s
}.

#[export] Instance extends_off_preorder e : PreOrder (extends_off e).
Proof.
  split; [by intros s|]. intros s1 s2 s3 [A1 A2 A3] [B1 B2 B3]. split; [auto|congruence|congruence].
Qed.

Lemma extends_extends_off e s s' : extends s s' -> extends_off e s s'.
Proof. intros (Hm & Hi & Hx). split; [|done|done]. intros p x _ Hp. by eapply lookup_weaken. Qed.

Section Search.
Context `{Palloc} `{ListSort} (garbage : bool) (fuel : nat).
Context (rel : Relation) (m : Z) (good : Vector -> Prop) (E : gset ItemPointerData) (Hwf : pages_wf rel m good E).
Context (support : HnswSupport) (Hsup : support_ok support good) (Hfuel : (size E <= fuel)%nat).
(** The new element, and its value. *)
Context (e : addr) (v : Vector) (Hgood : good v).
(** The element to skip. *)
Context (skip : addr).

#[local] Abbreviation q := (mkHnswQuery (Some v)).

(** What is known of a loaded element besides: it is another one, at a block,
    with its value. *)
Definition loaded (a : addr) (x : HnswElementData) (etup : HnswElementTupleData) : Prop :=
  a <> e /\ BlockNumber_ok (el_blkno x) /\ el_value x = Some (et_data etup).

Definition entry_cand (s : Backend) (lc : Z) (c : HnswSearchCandidate) (k : ItemPointerData) : Prop :=
  disk_cand_with q lc support m skip s (layer rel E lc) loaded (mem s) c k.

(** Entry points for layer [lc]. *)
Definition entries (s : Backend) (lc : Z) (ep : list HnswSearchCandidate) : Prop :=
  exists ks, Forall2 (entry_cand s lc) ep ks /\ ks <> [] /\ NoDup ks.

Lemma entry_cand_mono s s' lc lc' c k : extends_off e s s' -> lc' <= lc -> entry_cand s lc c k -> entry_cand s' lc' c k.
Proof using Type.
  intros [Hm Hi _] Hl (Hk & Hd & x & etup & Hx & He & Hlf & Hld). split; [by eapply layer_below|].
  rewrite Hi. split; [exact Hd|]. exists x, etup. split; [|done]. apply Hm; [apply Hld|done].
Qed.

Lemma entries_mono s s' lc lc' ep : extends_off e s s' -> lc' <= lc -> entries s lc ep -> entries s' lc' ep.
Proof using Type.
  intros Hx Hl (ks & Hf & Hr). exists ks. split; [|done]. eapply list.Forall2_impl; [exact Hf|]. intros c k. by apply entry_cand_mono.
Qed.

Lemma search_layer_disk s lc ef ep x : index s = rel -> 0 <= lc -> mem s !! e = Some x -> entries s lc ep ->
  exists w s', search_layer fuel NULL false support m q ef lc skip ep s = Ok (w, s') /\ extends s s' /\ entries s' lc w.
Proof using Hwf Hsup Hgood Hfuel.
  intros Hidx Hlc Hx (ks & Hep & Hne & Hnd).
  assert (Hlay : disk_layer_ok (index s) q lc support m (layer rel E lc)).
  { rewrite Hidx. by apply (layer_ok _ _ _ _ Hwf _ Hsup q). }
  assert (Hextra : forall a el etup, mem s !! a = None -> a <> NULL -> BlockNumber_ok (el_blkno el) ->
    (true = true -> el_value el = Some (et_data etup)) -> loaded a el etup).
  { intros a el etup Ha _ Hb Hv. split; [congruence|auto]. }
  destruct (search_layer_run (disk_graph (index s) q lc support m skip) (layer rel E lc) NULL q ef lc false support m
    true skip s (LV := disk_view_with q lc support m true skip s (layer rel E lc) Hlay loaded Hextra) fuel ep ks true None)
    as (w & wk & vis & V & t & s' & Erun & X & Hw & Hres).
  - by eapply disk_numeric.
  - exact Hep.
  - done.
  - done.
  - pose proof (size_layer rel E lc). lia.
  - simpl in X. exists w, s'. split; [unfold search_layer; by run Erun|]. split; [exact X|].
    exists wk. split_and!; [|apply (sr_nonempty _ _ _ _ _ _ Hres)|apply (sr_nodup _ _ _ _ _ _ Hres)].
    eapply list.Forall2_impl; [exact Hw|]. intros c k Hc. eapply disk_cand_move; [exact Hc| |apply Hc].
    symmetry. apply X.
Qed.

Lemma descend_disk n : forall s lc ep x, index s = rel -> 0 <= lc - Z.of_nat n -> mem s !! e = Some x -> entries s lc ep ->
  exists w s', descend fuel NULL false support m q skip n lc ep s = Ok (w, s') /\ extends s s' /\ entries s' (lc - Z.of_nat n) w.
Proof using Hwf Hsup Hgood Hfuel.
  induction n as [|n IH]; intros s lc ep x Hidx Hlc Hx Hep.
  - exists ep, s. rewrite Z.sub_0_r. done.
  - destruct (search_layer_disk s lc 1 ep x Hidx ltac:(lia) Hx Hep) as (w & s1 & E1 & X1 & Hw).
    assert (index s1 = rel) as Hidx1 by (rewrite <- Hidx; apply X1).
    assert (mem s1 !! e = Some x) as Hx1 by (eapply lookup_weaken; [exact Hx|apply X1]).
    assert (entries s1 (lc - 1) w) as Hw1 by (eapply entries_mono; [done| |exact Hw]; lia).
    destruct (IH s1 (lc - 1) w x Hidx1 ltac:(lia) Hx1 Hw1) as (w' & s2 & E2 & X2 & Hw').
    exists w', s2. cbn [descend]. run E1. split; [exact E2|]. split; [by etrans|].
    by replace (lc - Z.of_nat (S n)) with (lc - 1 - Z.of_nat n) by lia.
Qed.

(** ** Candidates for the neighbors *)

(** A neighbor at layer [lc]: an element of the layer, loaded with its value, at
    a distance that is a number. *)
Definition neighbor_cand (m1 : gmap addr HnswElementData) (lc : Z) (hc : HnswCandidate) : Prop :=
  hc_element hc <> e /\ numeric hc_distance hc /\
  exists k x etup, m1 !! hc_element hc = Some x /\ k ∈ layer rel E lc /\ element_at rel k = Some etup /\
    loaded_from x k etup /\ BlockNumber_ok (el_blkno x) /\ el_value x = Some (et_data etup).

Lemma neighbor_cand_mono s s' lc hc : extends_off e s s' -> neighbor_cand (mem s) lc hc -> neighbor_cand (mem s') lc hc.
Proof using Type.
  intros [Hm _ _] (He & Hd & k & x & etup & Hx & Hr). split; [done|]. split; [done|]. exists k, x, etup.
  split; [by apply Hm|done].
Qed.

Lemma candidate_neighbor s lc c k : index s = rel -> 0 <= lc -> entry_cand s lc c k ->
  neighbor_cand (mem s) lc (candidate_of garbage c).
Proof using Hwf Hsup Hgood.
  intros Hidx Hlc (Hk & Hd & x & etup & Hx & He & Hlf & Hne & Hb & Hv). split; [done|]. split.
  - unfold numeric. cbn. apply SFldexp_not_nan. rewrite Hd, Hidx.
    pose proof (disk_numeric q lc support m skip s (layer rel E lc)) as Hn. rewrite Hidx in Hn. apply Hn; [|done].
    by apply (layer_ok _ _ _ _ Hwf _ Hsup q).
  - exists k, x, etup. rewrite Hidx in He. done.
Qed.

(** The distances between candidates. *)
Definition distance_in (m1 : gmap addr HnswElementData) (a b : addr) : float :=
  match candidate_distance NULL m1 support (mkHnswCandidate a dzero false) (mkHnswCandidate b dzero false) with
  | Ok d => d
  | Err _ => dzero
  end.

Lemma candidate_distance_in m1 a b d : candidate_distance NULL m1 support a b = Ok d ->
  candidate_distance NULL m1 support a b = Ok (distance_in m1 (hc_element a) (hc_element b)).
Proof using Type. intros Hd. rewrite Hd. unfold distance_in. f_equal. unfold candidate_distance, candidate_value in *. cbn [hc_element]. by rewrite Hd. Qed.

Lemma distance_of_values m1 a b x y va vb : m1 !! hc_element a = Some x -> m1 !! hc_element b = Some y ->
  el_value x = Some va -> el_value y = Some vb -> good va -> good vb ->
  exists d, candidate_distance NULL m1 support a b = Ok d.
Proof using Hsup.
  intros Hx Hy Hva Hvb Ga Gb. destruct (so_distance _ _ Hsup va vb Ga Gb) as (d & Hd & _).
  exists (float_of_double d). unfold candidate_distance, candidate_value. cbn. rewrite Hx, Hy, Hva, Hvb.
  cbn. by rewrite Hd.
Qed.

Lemma good_value k etup lc : k ∈ layer rel E lc -> element_at rel k = Some etup -> good (et_data etup).
Proof using Hwf.
  intros [Hk _]%elem_of_layer He. destruct (element_of _ _ _ _ Hwf k Hk) as (et & nt & He' & W). rewrite He in He'.
  injection He' as <-. apply (ew_value _ _ _ _ _ _ _ W).
Qed.

Lemma distances_disk m1 lc lw : Forall (neighbor_cand m1 lc) lw ->
  distances_defined NULL m1 support (distance_in m1) lw.
Proof using Hwf Hsup.
  intros Hf a b Ha Hb. rewrite list.Forall_forall in Hf.
  destruct (Hf a Ha) as (_ & _ & ka & xa & ta & Hxa & Hka & Hta & _ & _ & Hva).
  destruct (Hf b Hb) as (_ & _ & kb & xb & tb & Hxb & Hkb & Htb & _ & _ & Hvb).
  destruct (distance_of_values m1 a b xa xb _ _ Hxa Hxb Hva Hvb) as [d Hd].
  - exact (good_value ka ta lc Hka Hta).
  - exact (good_value kb tb lc Hkb Htb).
  - by eapply candidate_distance_in.
Qed.

(** ** The neighbors of a layer *)

(** What is left of them: those with heap TIDs. *)
Definition held_cand (m1 : gmap addr HnswElementData) (lc : Z) (hc : HnswCandidate) : Prop :=
  neighbor_cand m1 lc hc /\ exists x, m1 !! hc_element hc = Some x /\ el_heaptids x <> [].

Lemma held_cand_mono s s' lc hc : extends_off e s s' -> held_cand (mem s) lc hc -> held_cand (mem s') lc hc.
Proof using Type.
  intros Hx [Hc (x & Hl & Hh)]. split; [by eapply neighbor_cand_mono|]. exists x. split; [|done].
  apply (xo_mem _ _ _ Hx); [apply Hc|done].
Qed.

Lemma held_neighbor m1 lc l : Forall (held_cand m1 lc) l -> Forall (neighbor_cand m1 lc) l.
Proof using Type. apply List.Forall_impl. by intros hc [? _]. Qed.

Lemma RemoveElements_run lc s lw el : skip = NULL \/ skip = e -> mem s !! e = Some el -> Forall (neighbor_cand (mem s) lc) lw ->
  exists lw', RemoveElements NULL lw skip s = Ok (lw', s) /\ Forall (held_cand (mem s) lc) lw'.
Proof using Type.
  intros Hskip Hel Hf. unfold RemoveElements. assert (Hacc : Forall (held_cand (mem s) lc) []) by constructor.
  revert Hacc. generalize (@nil HnswCandidate) as acc. induction Hf as [|hc lw Hhc Hf IH]; intros acc Hacc.
  { by exists acc. }
  pose proof Hhc as (Hne & Hd & k & x & etup & Hx & Hr). rewrite mfor_cons.
  assert (Hkeep : exists acc', keep_element NULL skip hc acc s = Ok (acc', s) /\ Forall (held_cand (mem s) lc) acc').
  { unfold keep_element. run (load_element_run s (hc_element hc) x Hx).
    assert (Hs : exists b, (if (skip =? NULL)%N then mret false else sk ← load_element skip ; mret (same_tid x sk)) s = Ok (b, s)).
    { destruct (N.eqb_spec skip NULL) as [|Hn]; [by exists false|]. destruct Hskip as [?| ->]; [done|].
      run (load_element_run s e el Hel). by eexists. }
    destruct Hs as [b Hb]. run Hb. eexists. split; [reflexivity|]. destruct b; [done|].
    destruct (Z.eqb_spec (el_heaptidsLength x) 0) as [|Hn]; [done|]. apply Forall_app. split; [done|].
    constructor; [|constructor]. split; [done|]. exists x. split; [done|]. intros Hh. unfold el_heaptidsLength in Hn. by rewrite Hh in Hn. }
  destruct Hkeep as (acc' & Ek & Hacc'). run Ek. by apply IH.
Qed.

(** The neighbors of a layer fit in its array. *)
Definition array_wf (m1 : gmap addr HnswElementData) (lc : Z) (a : HnswNeighborArray) : Prop :=
  na_length a <= HnswGetLayerM m lc /\ Forall (held_cand m1 lc) (na_items a).

Lemma array_wf_cands m1 lc a : array_wf m1 lc a -> Forall (neighbor_cand m1 lc) (na_items a).
Proof using Type. intros [_ Hf]. by apply held_neighbor. Qed.

Lemma array_wf_mono s s' lc a : extends_off e s s' -> array_wf (mem s) lc a -> array_wf (mem s') lc a.
Proof using Type. intros Hx [Hl Hf]. split; [done|]. eapply List.Forall_impl; [|exact Hf]. intros hc. by apply held_cand_mono. Qed.

Lemma array_wf_init m1 lc : array_wf m1 lc HnswInitNeighborArray.
Proof using Hwf. clear Hfuel. pose proof (layer_m _ _ _ _ Hwf lc). split; [unfold na_length; simpl; lia|constructor]. Qed.

Lemma held_cand_keys m1 lc l k : hc_key <$> k = hc_key <$> l -> Forall (held_cand m1 lc) l -> Forall (held_cand m1 lc) k.
Proof using Type.
  intros Hk Hf. rewrite list.Forall_forall in Hf |- *. intros hc Hhc. apply (list_elem_of_fmap_2 hc_key) in Hhc. rewrite Hk in Hhc.
  apply list_elem_of_fmap in Hhc as (hc' & [= E1 E2] & Hhc'). destruct (Hf hc' Hhc') as [(H1 & H2 & H3) H4].
  unfold held_cand, neighbor_cand, numeric. by rewrite E1, E2.
Qed.

Lemma connect_layer_disk lc s w el ns : skip = NULL \/ skip = e -> index s = rel -> 0 <= lc -> mem s !! e = Some el -> el_neighbors el = Some ns ->
  ns !! Z.to_nat lc = Some HnswInitNeighborArray -> entries s lc w ->
  exists a, connect_layer garbage NULL e false support m skip lc w s =
      Ok (tt, put e s (with_layers (<[Z.to_nat lc := a]> ns) el)) /\ array_wf (mem s) lc a.
Proof using Hwf Hsup Hgood.
  clear Hfuel. intros Hskip Hidx Hlc Hel Hns Ha (ks & Hw & _). pose proof (layer_m _ _ _ _ Hwf lc) as Hlm.
  assert (Hlw : Forall (neighbor_cand (mem s) lc) (candidate_of garbage <$> w)).
  { clear -Hw Hidx Hlc Hwf Hsup Hgood. induction Hw; constructor; [by eapply candidate_neighbor|done]. }
  destruct (RemoveElements_run lc s _ el Hskip Hel Hlw) as (lw & Erem & Hf).
  destruct (SelectNeighbors_fresh NULL (mem s) support (distance_in (mem s)) lw (HnswGetLayerM m lc) ltac:(lia)
    (distances_disk _ _ _ (held_neighbor _ _ _ Hf))) as (sel & r & Esel & Ecs & Er & Hr).
  exists (mkHnswNeighborArray false r).
  destruct (selected_spec (distance_in (mem s)) (HnswGetLayerM m lc) lw ltac:(lia)) as [Hlen Hsub]. split.
  2: { split; [unfold na_length; simpl; rewrite <- (length_fmap hc_key r), Hr, length_fmap; lia|].
       eapply held_cand_keys; [exact Hr|]. rewrite list.Forall_forall in Hf |- *. intros hc Hhc. apply Hf.
       by eapply elem_of_submseteq. }
  unfold connect_layer. cbn [negb]. cbv zeta. run Erem.
  assert (Hn : neighbors_of el lc = Ok HnswInitNeighborArray).
  { unfold neighbors_of. rewrite Hns. destruct (Z.ltb_spec lc 0); [lia|]. by rewrite Ha. }
  assert (Hget : HnswGetNeighbors NULL e lc s = Ok (HnswInitNeighborArray, s)).
  { unfold HnswGetNeighbors. run (load_element_run _ _ _ Hel). by rewrite (lift_res_run _ s _ Hn). }
  run Hget. rewrite (M_bind_run _ _ s s s) by done. cbn [na_closerSet HnswInitNeighborArray]. run (lift_res_run _ s _ Esel).
  run (modify_neighbors_run e s el ns lc (fun a => mkHnswNeighborArray (s_closerSet sel) (na_items a)) _ Hel Hns Hlc Ha).
  cbn [na_items HnswInitNeighborArray]. run (lift_res_run _ (put e s (with_layers (<[Z.to_nat lc := mkHnswNeighborArray (s_closerSet sel) []]> ns) el)) _ Er).
  pose proof (lookup_lt_Some _ _ _ Ha) as Hlt.
  unfold AddConnections. erewrite modify_neighbors_run; [|simpl; apply lookup_insert_eq|reflexivity|lia|by apply list_lookup_insert_eq].
  rewrite put_put. simpl. rewrite Ecs. unfold with_layers, el_set_neighbors. simpl. by rewrite (list_insert_insert_eq ns).
Qed.

Lemma put_extends_off s el : extends_off e s (put e s el).
Proof using Type. split; [|done|done]. intros p x Hp Hx. simpl. by rewrite lookup_insert_ne. Qed.

Definition arrays_wf (m1 : gmap addr HnswElementData) (ns : list HnswNeighborArray) : Prop :=
  forall i a, ns !! i = Some a -> array_wf m1 (Z.of_nat i) a.

Lemma arrays_wf_insert m1 ns i a : arrays_wf m1 ns -> array_wf m1 (Z.of_nat i) a -> arrays_wf m1 (<[i := a]> ns).
Proof using Type.
  intros Hns Ha j b Hb. rewrite list_lookup_insert in Hb. case_decide as Hd; [|by apply Hns].
  destruct Hd as [-> _]. by injection Hb as <-.
Qed.

Lemma arrays_wf_mono s s' ns : extends_off e s s' -> arrays_wf (mem s) ns -> arrays_wf (mem s') ns.
Proof using Type. intros Hx Hns i a Ha. eapply array_wf_mono; [exact Hx|by apply Hns]. Qed.

(** A search of layer [lc] and the selection of its neighbors. *)
Lemma one_layer_disk ef lc s ep el ns : skip = NULL \/ skip = e -> index s = rel -> 0 <= lc -> mem s !! e = Some el -> el_neighbors el = Some ns ->
  ns !! Z.to_nat lc = Some HnswInitNeighborArray -> arrays_wf (mem s) ns -> entries s lc ep ->
  exists w ns1 s1, (forall (k : list HnswSearchCandidate -> M Backend unit),
      (w ← search_layer fuel NULL false support m q ef lc skip ep ;
       connect_layer garbage NULL e false support m skip lc w ;; k w) s = k w s1) /\
    extends_off e s s1 /\ mem s1 !! e = Some (with_layers ns1 el) /\ entries s1 lc w /\ arrays_wf (mem s1) ns1 /\
    length ns1 = length ns /\ (forall i, i <> Z.to_nat lc -> ns1 !! i = ns !! i).
Proof using Hwf Hsup Hgood Hfuel.
  intros Hskip Hidx Hlc Hel Hns Hinit Harr Hep.
  destruct (search_layer_disk s lc ef ep el Hidx Hlc Hel Hep) as (w & s1 & E1 & X1 & Hw).
  assert (index s1 = rel) as Hidx1 by (rewrite <- Hidx; apply X1).
  assert (mem s1 !! e = Some el) as Hel1 by (eapply lookup_weaken; [exact Hel|apply X1]).
  destruct (connect_layer_disk lc s1 w el ns Hskip Hidx1 Hlc Hel1 Hns Hinit Hw) as (a & E2 & Ha).
  set (ns1 := <[Z.to_nat lc := a]> ns) in *. set (s2 := put e s1 (with_layers ns1 el)) in *.
  pose proof (put_extends_off s1 (with_layers ns1 el)) as X2. fold s2 in X2.
  exists w, ns1, s2. split; [intros k; run E1; by run E2|]. split_and!.
  - etrans; [by apply extends_extends_off|exact X2].
  - unfold s2. simpl. by rewrite lookup_insert_eq.
  - eapply entries_mono; [exact X2| |exact Hw]. lia.
  - eapply arrays_wf_mono; [exact X2|]. apply arrays_wf_insert; [|by rewrite Z2Nat.id].
    eapply arrays_wf_mono; [by apply extends_extends_off|done].
  - unfold ns1. by rewrite length_insert.
  - intros i Hi. unfold ns1. by rewrite list_lookup_insert_ne.
Qed.

Lemma connect_layers_disk ef lc : skip = NULL \/ skip = e -> forall s ep el ns, index s = rel -> mem s !! e = Some el -> el_neighbors el = Some ns ->
  (forall i, (i <= lc)%nat -> ns !! i = Some HnswInitNeighborArray) -> arrays_wf (mem s) ns -> entries s (Z.of_nat lc) ep ->
  exists s' ns', connect_layers garbage fuel NULL e false support m q skip ef lc ep s = Ok (tt, s') /\
    extends_off e s s' /\ mem s' !! e = Some (with_layers ns' el) /\ length ns' = length ns /\ arrays_wf (mem s') ns'.
Proof using Hwf Hsup Hgood Hfuel.
  intros Hskip. induction lc as [|lc IH]; intros s ep el ns Hidx Hel Hns Hinit Harr Hep; cbn [connect_layers].
  - destruct (one_layer_disk ef 0 s ep el ns Hskip Hidx ltac:(lia) Hel Hns (Hinit O ltac:(lia)) Harr Hep)
      as (w & ns1 & s1 & E1 & X1 & He1 & Hw & Ha1 & Hl1 & _).
    change (Z.of_nat 0) with 0. rewrite (E1 (fun _ => mret tt)). by exists s1, ns1.
  - assert (Hi : ns !! Z.to_nat (Z.of_nat (S lc)) = Some HnswInitNeighborArray) by (rewrite Nat2Z.id; by apply Hinit).
    destruct (one_layer_disk ef (Z.of_nat (S lc)) s ep el ns Hskip Hidx ltac:(lia) Hel Hns Hi Harr Hep)
      as (w & ns1 & s1 & E1 & X1 & He1 & Hw & Ha1 & Hl1 & Hs1).
    rewrite (E1 (fun w => connect_layers garbage fuel NULL e false support m q skip ef lc w)).
    destruct (IH s1 w (with_layers ns1 el) ns1) as (s' & ns' & E2 & X2 & He2 & Hl2 & Ha2).
    + by rewrite (xo_index _ _ _ X1).
    + done.
    + done.
    + intros i Hle. rewrite Hs1 by lia. apply Hinit. lia.
    + done.
    + eapply entries_mono; [reflexivity| |exact Hw]. lia.
    + exists s', ns'. split; [exact E2|]. split; [by etrans|]. split; [exact He2|]. split; [congruence|done].
Qed.

End Search.

(** ** [HnswFindElementNeighbors] *)

Section Find.
Context `{Palloc} `{ListSort} (garbage : bool) (fuel : nat).
Context (rel : Relation) (m : Z) (good : Vector -> Prop) (E : gset ItemPointerData) (Hwf : pages_wf rel m good E).
Context (support : HnswSupport) (Hsup : support_ok support good) (Hfuel : (size E <= fuel)%nat).
Context (e : addr) (v : Vector) (Hgood : good v).

#[local] Abbreviation q := (mkHnswQuery (Some v)).

(** The entry point as an element in memory, for an element of the index; its
    fields may not be loaded yet. *)
Definition entry_at (s : Backend) (entryPoint : addr) (k : ItemPointerData) : Prop :=
  entryPoint <> NULL /\ entryPoint <> e /\ k ∈ E /\
  exists en, mem s !! entryPoint = Some en /\ BlockNumber_ok (el_blkno en) /\ ItemPointerSet (el_blkno en) (el_offno en) = k.

Definition entry_read (s : Backend) (entryPoint : addr) (k : ItemPointerData) : Prop :=
  exists en etup, mem s !! entryPoint = Some en /\ element_at rel k = Some etup /\ loaded_from en k etup.

(** What the call leaves: the neighbors of the element. *)
Record neighbors_found (s : Backend) (el : HnswElementData) (ns : list HnswNeighborArray) (entryPoint : addr) (s' : Backend)
    (ns' : list HnswNeighborArray) : Prop := {
  nf_index : index s' = rel;
  nf_xlog : xlog s' = xlog s;
  nf_element : mem s' !! e = Some (with_layers ns' el);
  nf_length : length ns' = length ns;
  nf_arrays : arrays_wf rel m E e (mem s') ns';
  nf_mem p x : p <> e -> p <> entryPoint -> mem s !! p = Some x -> mem s' !! p = Some x
}.

Lemma find_neighbors_disk existing entryPoint ef s el ns :
  index s = rel -> mem s !! e = Some el -> el_value el = Some v -> 0 <= el_level el ->
  el_neighbors el = Some ns -> (forall i a, ns !! i = Some a -> a = HnswInitNeighborArray) ->
  Z.of_nat (length ns) = el_level el + 1 -> entryPoint = NULL \/ (exists k, entry_at s entryPoint k) ->
  exists s' ns', HnswFindElementNeighbors garbage fuel NULL e false support m entryPoint ef existing s = Ok (tt, s') /\
    neighbors_found s el ns entryPoint s' ns' /\ forall k, entry_at s entryPoint k -> entry_read s' entryPoint k.
Proof using Hwf Hsup Hgood Hfuel.
  intros Hidx Hel Hv Hlev Hns Hinit Hlen Hentry. unfold HnswFindElementNeighbors.
  assert (Harr : forall m1, arrays_wf rel m E e m1 ns) by (intros m1 i a Ha; rewrite (Hinit i a Ha); by eapply array_wf_init).
  run (load_element_run _ _ _ Hel). cbv beta zeta. run (mret_run tt s).
  destruct Hentry as [->|(k & Hnull & Hne & Hin & en & Hen1 & Hbok & Hk)].
  { cbn [N.eqb]. exists s, ns. split; [done|]. split; [|by intros k []]. split; try done. rewrite Hel. f_equal. destruct el; simpl in *. by subst. }
  set (skip := if existing then e else NULL). assert (Hskip : skip = NULL \/ skip = e) by (destruct existing; auto).
  destruct (element_of _ _ _ _ Hwf _ Hin) as (etup & ntup & Het & W).
  destruct (N.eqb_spec entryPoint NULL) as [|_]; [done|]. rewrite Hv.
  destruct (distance_of rel m good E support Hsup q _ _ _ Hgood W) as (d & Hd & _).
  destruct (HnswEntryCandidate_run q support true s entryPoint en k etup d Hnull Hen1) as (E1 & Hlf & Hval);
    [done|exact Hk|by rewrite Hidx|exact Hd|].
  set (en2 := HnswLoadElementFromTuple en etup true true) in *. set (s2 := mkBackend _ _ _) in *.
  run E1. assert (Hen2 : mem s2 !! entryPoint = Some en2) by (unfold s2; simpl; by rewrite lookup_insert_eq).
  assert (Hel2 : mem s2 !! e = Some el) by (unfold s2; simpl; by rewrite lookup_insert_ne).
  run (load_element_run _ _ _ Hen2). cbv beta zeta. rewrite (lf_level _ _ _ Hlf).
  pose proof (ew_level _ _ _ _ _ _ _ W) as Hel0.
  assert (Hep : entries rel m E support e v skip s2 (et_level etup) [HnswInitSearchCandidate NULL entryPoint d]).
  { exists [k]. split; [|split; [done|apply NoDup_singleton]]. constructor; [|constructor].
    assert (index s2 = rel) as Hidx2 by done. split; [apply elem_of_layer; split; [done|]; exists etup; split; [done|lia]|].
    split; [simpl; unfold disk_distance; by rewrite Hidx, Het, Hd|]. exists en2, etup. simpl. rewrite lookup_insert_eq, Hidx.
    assert (BlockNumber_ok (el_blkno en2)) by (change (el_blkno en2) with (el_blkno en); done).
    split; [done|]. split; [done|]. split; [done|]. split; [done|]. split; [done|]. by apply Hval. }
  destruct (descend_disk fuel rel m good E Hwf support Hsup Hfuel e v Hgood skip (Z.to_nat (et_level etup - el_level el)) s2 (et_level etup) _ el
    Hidx ltac:(lia) Hel2 Hep) as (w & s3 & E3 & X3 & Hw). fold skip. run E3.
  assert (Hel3 : mem s3 !! e = Some el) by (eapply lookup_weaken; [exact Hel2|apply X3]).
  set (low := if et_level etup <? el_level el then et_level etup else el_level el).
  assert (Hlow : low = Z.min (et_level etup) (el_level el)) by (unfold low; case_cmp; lia).
  destruct (Z.ltb_spec low 0); [lia|].
  destruct (connect_layers_disk garbage fuel rel m good E Hwf support Hsup Hfuel e v Hgood skip (if existing then ef + 1 else ef)
    (Z.to_nat low) Hskip s3 w el ns) as (s4 & ns' & E4 & X4 & He4 & Hl4 & Ha4).
  - rewrite <- Hidx. apply X3.
  - exact Hel3.
  - exact Hns.
  - intros i Hi. destruct (lookup_lt_is_Some_2 ns i ltac:(lia)) as [a Ha]. by rewrite Ha, (Hinit i a Ha).
  - apply Harr.
  - eapply entries_mono; [reflexivity| |exact Hw]. lia.
  - exists s4, ns'. split; [exact E4|]. pose proof (xo_mem _ _ _ X4) as HM. split.
    + split; try done.
      * rewrite (xo_index _ _ _ X4), <- Hidx. apply X3.
      * rewrite (xo_xlog _ _ _ X4). apply X3.
      * intros p x Hpe Hpn Hp. apply HM; [done|]. eapply lookup_weaken; [|apply X3]. unfold s2. simpl. by rewrite lookup_insert_ne.
    + intros k' (_ & _ & _ & en' & Hen' & _ & <-). rewrite Hen1 in Hen'. injection Hen' as <-. rewrite Hk. exists en2, etup.
      split; [|done]. apply HM; [done|]. eapply lookup_weaken; [exact Hen2|apply X3].
Qed.

(** The entry point of the metapage as an element in memory, not loaded yet. *)
Definition entry_element (meta : HnswMetaPageData) (s : Backend) (entryPoint : addr) : Prop :=
  if BlockNumberIsValid (mp_entryBlkno meta)
  then entryPoint <> NULL /\ entryPoint <> e /\ exists en, mem s !! entryPoint = Some en /\
    el_blkno en = mp_entryBlkno meta /\ el_offno en = mp_entryOffno meta
  else entryPoint = NULL.

Lemma HnswFindElementNeighbors_disk meta entryPoint ef s el ns :
  entry_wf rel meta E -> index s = rel -> mem s !! e = Some el -> el_value el = Some v -> 0 <= el_level el ->
  el_neighbors el = Some ns -> (forall i a, ns !! i = Some a -> a = HnswInitNeighborArray) ->
  Z.of_nat (length ns) = el_level el + 1 -> entry_element meta s entryPoint ->
  exists s' ns', HnswFindElementNeighbors garbage fuel NULL e false support m entryPoint ef false s = Ok (tt, s') /\
    neighbors_found s el ns entryPoint s' ns' /\
    (entryPoint <> NULL -> exists en, mem s' !! entryPoint = Some en /\ el_level en = mp_entryLevel meta).
Proof using Hwf Hsup Hgood Hfuel.
  intros [_ _ Hen _] Hidx Hel Hv Hlev Hns Hinit Hlen Hentry. unfold entry_element in Hentry.
  destruct (BlockNumberIsValid (mp_entryBlkno meta)).
  - destruct Hentry as (Hnull & Hne & en & Hen1 & Hb1 & Ho1). destruct Hen as (Hbok & Hook & Hin & etup & Het & Hlev').
    assert (Hat : entry_at s entryPoint (entry_tid meta)).
    { split; [done|]. split; [done|]. split; [done|]. exists en. rewrite Hb1, Ho1. done. }
    destruct (find_neighbors_disk false entryPoint ef s el ns) as (s' & ns' & Erun & Hf & Hr); try done; [right; by eexists|].
    exists s', ns'. split; [done|]. split; [done|]. intros _. destruct (Hr _ Hat) as (en' & etup' & He' & Het' & Hlf).
    exists en'. split; [done|]. rewrite Het in Het'. injection Het' as <-. by rewrite (lf_level _ _ _ Hlf).
  - destruct (find_neighbors_disk false entryPoint ef s el ns) as (s' & ns' & Erun & Hf & Hr); try done; [by left|].
    exists s', ns'. done.
Qed.
End Find.
