(* ===== verification/InsertOnDisk.v ===== *)
(** * Insertion on disk keeps the index well formed

    [HnswInsertTupleOnDisk] and [hnswinsert] (HnswInsert.v) on a well-formed
    index (IndexWf.v): the search for duplicates, the new element and its
    neighbors, the updates of the neighbors and of the entry point, put together
    from the theorems about the single steps. *)

From Stdlib Require Import SpecFloat.
From S2P Require Import Prelude CFloat VectorType GraphSearch ItemPtr HnswData BufPage Backend HnswUtils SearchLayer.
From S2P Require Import LayerRefinement PageUpdate MetaPage DiskGraph Tuples QSort SelectNeighbors UpdateConnection FindNeighbors.
From S2P Require Import HnswInsert InsertSpec AddElement IndexWf InsertSearch.

Lemma loaded_place x k etup : loaded_from x k etup -> BlockNumber_ok (el_blkno x) -> place_of k = (el_blkno x, el_offno x).
Proof. intros Hlf Hb. rewrite <- (lf_tid _ _ _ Hlf). unfold place_of. by destruct (ItemPointerGet_Set (el_blkno x) (el_offno x) Hb) as [-> ->]. Qed.

(** ** Duplicates *)

(** [tid] joins the heap TIDs of an element with the value [v]. *)
Definition dup_added (s s' : Backend) (E : gset ItemPointerData) (v : Vector) (tid : ItemPointerData) : Prop :=
  exists k etup htids, k ∈ E /\ element_at (index s) k = Some etup /\ et_data etup = v /\
    heaptids_ok htids /\ valid_prefix htids = valid_prefix (et_heaptids etup) ++ [tid] /\
    tuple_replaced s s' (place_of k).1 (place_of k).2
      (ElementTuple (mkHnswElementTuple (et_level etup) (et_deleted etup) (et_version etup) htids (et_neighbortid etup)
        (et_unused etup) (et_data etup))).

Section Duplicates.
Context (m : Z) (good : Vector -> Prop) (E : gset ItemPointerData) (s : Backend) (Hwf : pages_wf (index s) m good E).
Context (Hx : xlog s = None) (e : addr) (el : HnswElementData) (v : Vector) (tid : ItemPointerData).
Context (He : mem s !! e = Some el) (Hv : el_value el = Some v) (Htid : el_heaptids el = [tid]) (Hvalid : ItemPointerIsValid tid = true).

#[local] Abbreviation cands := (Forall (neighbor_cand (index s) E e (mem s) 0)).

Lemma find_duplicate_run building items : cands items ->
  exists r s', find_duplicate items e v building s = Ok (r, s') /\ if r : bool then dup_added s s' E v tid else s' = s.
Proof using All.
  intros Hf. induction Hf as [|hc items Hhc Hf IH]; cbn [find_duplicate]; [by exists false, s|].
  destruct Hhc as (_ & _ & k & x & etup & Hxm & [Hk _]%elem_of_layer & Het & Hlf & Hb & Hval).
  assert (Hget : HnswGetValue NULL (hc_element hc) s = Ok (Some (et_data etup), s)).
  { unfold HnswGetValue. run (load_element_run _ _ _ Hxm). by rewrite Hval. }
  change (HnswPtrAccess NULL (hc_element hc)) with (hc_element hc). run Hget.
  run (lift_res_run (deref_value (Some (et_data etup))) s _ eq_refl).
  unfold datumIsEqual. destruct (bool_decide_reflect (v = et_data etup)) as [Heq|]; [|by exists false, s]. cbn [negb].
  pose proof (loaded_place _ _ _ Hlf Hb) as Hp.
  pose proof (proj1 (element_at_place _ _ _) Het) as Ht. rewrite Hp in Ht.
  destruct (element_of _ _ _ _ Hwf k Hk) as (et' & nt & Het' & W). rewrite Het in Het'. injection Het' as <-.
  destruct (AddDuplicateOnDisk_run s e (hc_element hc) el x etup tid [] He Hxm Hx Htid Hvalid Ht (ew_heaptids _ _ _ _ _ _ _ W))
    as (s' & htids & Hrun & Hr & Hok & Hpre & Hsame).
  run (Hrun building). case_bool_decide as Hn.
  - exists true, s'. split; [done|]. rewrite decide_True in Hpre by done. exists k, etup, htids. by rewrite Hp.
  - rewrite (Hsame Hn). exact IH.
Qed.

Lemma FindDuplicateOnDisk_run building ns : el_neighbors el = Some ns -> arrays_wf (index s) m E e (mem s) ns -> (0 < length ns)%nat ->
  exists r s', FindDuplicateOnDisk e building s = Ok (r, s') /\ if r : bool then dup_added s s' E v tid else s' = s.
Proof using All.
  intros Hns Harr Hlen. destruct (lookup_lt_is_Some_2 ns 0 Hlen) as [a Ha]. pose proof (array_wf_cands _ _ _ _ _ _ _ (Harr O a Ha)) as Hf.
  unfold FindDuplicateOnDisk.
  assert (Hget : HnswGetNeighbors NULL e 0 s = Ok (a, s)).
  { unfold HnswGetNeighbors. run (load_element_run _ _ _ He). unfold lift_res, neighbors_of. rewrite Hns. change (ns !! Z.to_nat 0) with (ns !! O). by rewrite Ha. }
  run Hget. assert (Hgv : HnswGetValue NULL e s = Ok (Some v, s)).
  { unfold HnswGetValue. run (load_element_run _ _ _ He). by rewrite Hv. }
  run Hgv. destruct (na_items a) as [|hc items]; [by exists false, s|].
  run (lift_res_run (deref_value (Some v)) s v eq_refl). by apply find_duplicate_run.
Qed.
End Duplicates.

(** ** The slot of a new neighbor *)

Section UpdateIndex.
Context `{Palloc} `{ListSort} (garbage : HnswCandidate).
Context (rel : Relation) (m : Z) (good : Vector -> Prop) (E : gset ItemPointerData) (Hwf : pages_wf rel m good E).
Context (support : HnswSupport) (Hsup : support_ok support good).

(** An item of a loaded neighbor array: an element that was allocated since
    [m0], for a TID of the index. *)
Definition fresh_item (m0 m1 : gmap addr HnswElementData) (hc : HnswCandidate) : Prop :=
  m0 !! hc_element hc = None /\ hc_element hc <> NULL /\
  exists x, m1 !! hc_element hc = Some x /\ BlockNumber_ok (el_blkno x) /\ ItemPointerSet (el_blkno x) (el_offno x) ∈ E.

Lemma fresh_item_mono m0 m0' m1 m1' hc : m0' ⊆ m0 -> m1 ⊆ m1' -> fresh_item m0 m1 hc -> fresh_item m0' m1' hc.
Proof using Type.
  intros H0' H1 (Hn & Hnull & x & Hx & Hr). split; [|split; [done|exists x; split; [by eapply lookup_weaken|done]]].
  by eapply lookup_weaken_None.
Qed.

Lemma load_neighbors_run l : forall acc s, Forall (fun t => t ∈ E) l ->
  exists items s', mfor l acc (load_neighbor garbage) s = Ok (mkHnswNeighborArray (na_closerSet acc) (na_items acc ++ items), s') /\
    extends s s' /\ length items = length l /\ Forall (fresh_item (mem s) (mem s')) items /\ NoDup (hc_element <$> items).
Proof using Hwf.
  induction l as [|t l IH]; intros acc s Hl.
  { exists [], s. rewrite app_nil_r. split; [by destruct acc|]. split; [done|]. split; [done|]. split; [constructor|constructor]. }
  apply list.Forall_cons in Hl as [Ht Hl]. rewrite mfor_cons.
  set (p := palloc_addr (mem s)). set (x := el_set_value None (el_set_neighbors None (el_set_tid (ItemPointerGetBlockNumber t) (ItemPointerGetOffsetNumber t) uninit))).
  set (s1 := mkBackend (<[p := x]> (mem s)) (index s) (xlog s)).
  assert (X1 : extends s s1) by (split; [apply insert_subseteq, palloc_fresh|done]).
  set (hc := mkHnswCandidate p (hc_distance garbage) (hc_closer garbage)).
  assert (E1 : load_neighbor garbage t acc s = Ok (mkHnswNeighborArray (na_closerSet acc) (na_items acc ++ [hc]), s1)) by done.
  run E1. destruct (IH (mkHnswNeighborArray (na_closerSet acc) (na_items acc ++ [hc])) s1 Hl) as (items & s' & E2 & X2 & Hlen & Hf & Hnd).
  exists (hc :: items), s'. split; [rewrite E2; simpl; by rewrite <- app_assoc|]. split; [by etrans|]. split; [simpl; by rewrite Hlen|].
  assert (Hp1 : mem s1 !! p = Some x) by (unfold s1; simpl; by rewrite lookup_insert_eq).
  split.
  - constructor.
    + split; [apply palloc_fresh|]. split; [apply palloc_not_null|]. exists x. split; [by eapply lookup_weaken; [|apply X2]|].
      pose proof (proj1 (pw_tid _ _ _ _ Hwf t Ht)) as Hok. unfold x. cbn.
      split; [by apply ItemPointerGetBlockNumber_ok|]. by rewrite ItemPointerSet_Get.
    + eapply List.Forall_impl; [|exact Hf]. intros hc'. apply fresh_item_mono; [apply X1|done].
  - rewrite fmap_cons. constructor; [|done]. intros (hc' & Heq & Hhc')%list_elem_of_fmap.
    rewrite list.Forall_forall in Hf. destruct (Hf hc' Hhc') as (Hn & _). rewrite <- Heq in Hn. change (mem s1 !! p = None) in Hn. congruence.
Qed.

(** An item with its value and its distance. *)
Definition loaded_item (m1 : gmap addr HnswElementData) (hc : HnswCandidate) : Prop :=
  numeric hc_distance hc /\ exists x v, m1 !! hc_element hc = Some x /\ el_value x = Some v /\ good v.

Lemma LoadElementsForInsert_run m0 v items : good v -> forall i s, index s = rel -> m0 ⊆ mem s ->
  Forall (fresh_item m0 (mem s)) items -> NoDup (hc_element <$> items) ->
  exists items' idx s', LoadElementsForInsert items (mkHnswQuery (Some v)) i (-1) support s = Ok ((items', idx), s') /\
    (forall p x, p ∉ hc_element <$> items -> mem s !! p = Some x -> mem s' !! p = Some x) /\
    index s' = index s /\ xlog s' = xlog s /\
    (idx = -1 /\ hc_element <$> items' = hc_element <$> items /\ Forall (loaded_item (mem s')) items' \/
     i <= idx < i + Z.of_nat (length items)).
Proof using Hwf Hsup.
  intros Hgood. induction items as [|hc items IH]; intros i s Hidx Hm Hf Hnd.
  { exists [], (-1), s. split_and!; try done. left. split_and!; try done. }
  apply list.Forall_cons in Hf as [Hhc Hf]. rewrite fmap_cons in Hnd. apply list.NoDup_cons in Hnd as [Hnot Hnd].
  destruct Hhc as (Hnone & Hnull & x & Hx & Hb & Hk). set (p := hc_element hc) in *.
  destruct (element_of _ _ _ _ Hwf _ Hk) as (etup & ntup & Het & W).
  destruct (distance_of rel m good E support Hsup (mkHnswQuery (Some v)) _ _ _ Hgood W) as (d & Hd & Hnan).
  pose proof (HnswLoadElement_run (mkHnswQuery (Some v)) support true s p x _ etup d Hnull Hx Hb eq_refl ltac:(by rewrite Hidx) Hd) as E1.
  set (x2 := HnswLoadElementFromTuple x etup true true) in *. set (s1 := mkBackend _ _ _) in E1.
  cbn [LoadElementsForInsert]. change (HnswPtrAccess NULL (hc_element hc)) with p. run E1.
  run (lift_res_run (of_option UndefinedBehaviour (Some d)) s1 d eq_refl). cbv zeta.
  assert (Hx2 : mem s1 !! p = Some x2) by (unfold s1; simpl; by rewrite lookup_insert_eq).
  run (load_element_run _ _ _ Hx2).
  assert (Hframe : forall p' y, p' <> p -> mem s !! p' = Some y -> mem s1 !! p' = Some y)
    by (intros p' y Hp Hy; unfold s1; simpl; by rewrite lookup_insert_ne).
  destruct (el_heaptidsLength x2 =? 0).
  { eexists _, i, s1. split; [done|]. split_and!; try done; [|right; simpl; lia].
    intros p' y Hp Hy. apply Hframe; [|done]. rewrite fmap_cons in Hp. fold p in Hp. set_solver. }
  destruct (IH (i + 1) s1) as (items' & idx & s' & E2 & Hfr & Hi & Hxl & Hres).
  - done.
  - unfold s1. simpl. by apply insert_subseteq_r.
  - rewrite list.Forall_forall in Hf |- *. intros hc' Hhc'. destruct (Hf hc' Hhc') as (N1 & N2 & y & Hy & Hr). split; [done|]. split; [done|]. exists y.
    split; [|done]. apply Hframe; [|done]. intros Heq. apply Hnot. fold p. rewrite <- Heq. by apply list_elem_of_fmap_2.
  - done.
  - exists (with_distance (float_of_double d) hc :: items'), idx, s'. run E2. split; [done|]. split_and!; try done.
    + intros p' y Hp Hy. rewrite fmap_cons in Hp. fold p in Hp. apply not_elem_of_cons in Hp as [Hp1 Hp2].
      apply Hfr; [done|]. by apply Hframe.
    + destruct Hres as [(-> & Hel & Hl)|Hres]; [left|right; simpl; lia]. split; [done|]. split; [by rewrite !fmap_cons, Hel|].
      constructor; [|done]. split; [by apply SFldexp_not_nan|]. exists x2, (et_data etup).
      split; [by apply Hfr|]. split; [done|]. apply (ew_value _ _ _ _ _ _ _ W).
Qed.

Lemma HnswLoadNeighbors_run s a x k etup lc : index s = rel -> mem s !! a = Some x -> loaded_from x k etup ->
  element_at rel k = Some etup -> k ∈ layer rel E lc -> 0 <= lc ->
  exists items s', HnswLoadNeighbors garbage a m (HnswGetLayerM m lc) lc s = Ok (mkHnswNeighborArray false items, s') /\
    extends s s' /\ Z.of_nat (length items) <= HnswGetLayerM m lc /\
    Forall (fresh_item (mem s) (mem s')) items /\ NoDup (hc_element <$> items).
Proof using Hwf.
  intros Hidx Hx Hlf Het Hk Hlc. apply elem_of_layer in Hk as (Hk & etup' & Het' & Hl). rewrite Het in Het'. injection Het' as <-.
  destruct (element_of _ _ _ _ Hwf k Hk) as (et & ntup & Het' & W). rewrite Het in Het'. injection Het' as <-.
  pose proof (layer_m _ _ _ _ Hwf lc) as Hlm. destruct (layer_slots_inside _ _ _ _ Hwf (et_level etup) lc ltac:(lia)) as [Hs1 Hs2].
  pose proof (element_current rel m good E k etup ntup W) as Hcur.
  assert (Htids : HnswLoadNeighborTids x m (HnswGetLayerM m lc) lc s =
    Ok (Some (layer_slots m (HnswGetLayerM m lc) lc etup ntup), s)).
  { rewrite (load_tids_sim lc m s s k x etup ntup); rewrite ?Hcur; try done.
    - by rewrite Hidx.
    - rewrite Hidx. apply (ew_neighbor _ _ _ _ _ _ _ W).
    - lia.
    - intros _. by rewrite (ew_length _ _ _ _ _ _ _ W). }
  unfold HnswLoadNeighbors. run (load_element_run _ _ _ Hx).
  run (lift_res_run (raise_if (HNSW_MAX_M * 2 <? HnswGetLayerM m lc) UndefinedBehaviour) s tt
    ltac:(unfold raise_if; by destruct (Z.ltb_spec (HNSW_MAX_M * 2) (HnswGetLayerM m lc)); [lia|])).
  run Htids. set (l := layer_slots _ _ _ _ _).
  assert (Hin : Forall (fun t => t ∈ E) (valid_prefix l)).
  { apply list.Forall_forall. intros t Ht.
    assert (ItemPointerIsValid t = true) as Hv by (pose proof (valid_prefix_Forall l) as Hf; rewrite list.Forall_forall in Hf; by apply Hf).
    assert (t ∈ l) as Htl by (eapply elem_of_submseteq; [exact Ht|apply sublist_submseteq, valid_prefix_sublist]).
    pose proof (ew_slots _ _ _ _ _ _ _ W lc t ltac:(lia) Htl Hv) as Hlay. by apply elem_of_layer in Hlay as [? _]. }
  destruct (load_neighbors_run (valid_prefix l) HnswInitNeighborArray s Hin) as (items & s' & E1 & X1 & Hlen & Hf & Hnd).
  exists items, s'. split; [exact E1|]. split; [done|]. split; [|done]. rewrite Hlen.
  pose proof (sublist_length _ _ (valid_prefix_sublist l)) as H1.
  assert (length l <= Z.to_nat (HnswGetLayerM m lc))%nat by (unfold l, layer_slots; rewrite length_take; lia). lia.
Qed.

(** When the array is full and nothing in it is deleted, the candidate that
    algorithm 4 leaves out gives way. *)
Lemma full_index m1 items e v dist lm : good v -> is_nan dist = false ->
  Forall (loaded_item m1) items -> NoDup (hc_element <$> items) -> (e ∉ hc_element <$> items) ->
  (exists el, m1 !! e = Some el /\ el_value el = Some v) -> Z.of_nat (length items) = lm ->
  exists a idx, HnswUpdateConnection NULL m1 support (hc_closer garbage) (mkHnswNeighborArray false items) e dist lm (Some (-1)) =
    Ok (a, idx) /\ (default (-1) idx = -1 \/ 0 <= default (-1) idx < lm).
Proof using Hsup.
  intros Hgood Hnan Hf Hnd Hnot (el & Hel & Hv) Hlm. set (new := mkHnswCandidate (HnswPtrStore NULL e) dist (hc_closer garbage)).
  assert (Hall : Forall (loaded_item m1) (items ++ [new])).
  { apply Forall_app. split; [done|]. constructor; [|constructor]. split; [done|]. by exists el, v. }
  rewrite list.Forall_forall in Hall.
  assert (Hnum : forall a, a ∈ items ++ [new] -> numeric hc_distance a) by (intros a Ha; apply Hall, Ha).
  assert (Hcs : candidates_ok NULL (items ++ [new])).
  { split; [done|by intros a _ []|]. rewrite fmap_app. apply list.NoDup_app. split; [done|]. split; [|apply NoDup_singleton].
    intros p Hp Hp'%list_elem_of_singleton. subst p. by apply Hnot. }
  destruct (HnswUpdateConnection_run NULL m1 support (distance_in support m1) (hc_closer garbage)
    (mkHnswNeighborArray false items) e dist lm (Some (-1))) as (a' & idx' & Erun & _ & _ & _ & Hfull).
  - split; [unfold na_length; simpl; lia| |done]. cbn [na_items]. destruct Hcs as [C1 C2 C3].
    split; [intros a Ha; apply C1, elem_of_app; by left|by intros a _ []|done].
  - exact Hcs.
  - intros a b Ha Hb. destruct (Hall a Ha) as (_ & x & vx & Hx & Hvx & Gx). destruct (Hall b Hb) as (_ & y & vy & Hy & Hvy & Gy).
    destruct (distance_of_values good support Hsup m1 a b x y vx vy Hx Hy Hvx Hvy Gx Gy) as [d Hd].
    by eapply candidate_distance_in.
  - exists a', idx'. split; [exact Erun|]. destruct (sorted_indices NULL (items ++ [new]) Hcs) as [Hp Hs].
    set (w := rev _) in Hp, Hs.
    destruct (Hfull ltac:(unfold na_length; simpl; lia) (nth_cand (items ++ [new]) <$> w)) as (p & _ & [(_ & _ & ->)|(i & Hi & _ & ->)]).
    + by rewrite Hp, nth_cand_all.
    + exact Hs.
    + by left.
    + right. cbn [na_items] in Hi. apply lookup_lt_Some in Hi. simpl. lia.
Qed.

Lemma GetUpdateIndex_run s a x k etup lc e el v dist : index s = rel -> mem s !! a = Some x -> loaded_from x k etup ->
  el_value x = Some (et_data etup) -> element_at rel k = Some etup -> k ∈ layer rel E lc -> 0 <= lc ->
  mem s !! e = Some el -> el_value el = Some v -> good v -> is_nan dist = false ->
  exists idx s', GetUpdateIndex garbage a e dist m (HnswGetLayerM m lc) lc support s = Ok (idx, s') /\ extends s s' /\
    (idx = -1 \/ idx = -2 \/ 0 <= idx < HnswGetLayerM m lc).
Proof using Hwf Hsup.
  intros Hidx Hx Hlf Hval Het Hk Hlc Hel Hv Hgood Hnan. set (lm := HnswGetLayerM m lc).
  destruct (HnswLoadNeighbors_run s a x k etup lc Hidx Hx Hlf Het Hk Hlc) as (items & s1 & E1 & X1 & Hlen & Hf & Hnd). fold lm in Hlen, E1.
  assert (Hin : forall p y, mem s !! p = Some y -> p ∉ hc_element <$> items).
  { intros p y Hp (hc & -> & Hhc)%list_elem_of_fmap. rewrite list.Forall_forall in Hf. destruct (Hf hc Hhc) as (Hn & _). congruence. }
  unfold GetUpdateIndex. run E1. unfold na_length. cbn [na_items].
  destruct (Z.ltb_spec (Z.of_nat (length items)) lm) as [Hlt|Hge]; [exists (-2), s1; split; [done|auto]|].
  assert (Hx1 : mem s1 !! a = Some x) by (eapply lookup_weaken; [exact Hx|apply X1]).
  assert (Hget : HnswGetValue NULL a s1 = Ok (Some (et_data etup), s1)).
  { unfold HnswGetValue. run (load_element_run _ _ _ Hx1). by rewrite Hval. }
  run Hget. assert (Hgd : good (et_data etup)).
  { apply elem_of_layer in Hk as [Hk _]. destruct (element_of _ _ _ _ Hwf k Hk) as (et & nt & Het' & W).
    rewrite Het in Het'. injection Het' as <-. apply (ew_value _ _ _ _ _ _ _ W). }
  assert (Hidx1 : index s1 = rel) by (rewrite <- Hidx; apply X1).
  destruct (LoadElementsForInsert_run (mem s) (et_data etup) items Hgd 0 s1 Hidx1 (proj1 X1) Hf Hnd)
    as (items' & idx & s2 & E2 & Hfr & Hi2 & Hx2 & Hres).
  assert (X2 : extends s s2).
  { split; [|split; [rewrite Hi2; apply X1|rewrite Hx2; apply X1]]. apply map_subseteq_spec. intros p y Hp.
    apply Hfr; [by eapply Hin|]. eapply lookup_weaken; [exact Hp|apply X1]. }
  run E2. destruct (Z.eqb_spec idx (-1)) as [->|Hne].
  2: { exists idx, s2. split; [done|]. split; [done|]. right. right. destruct Hres as [(? & _)|Hres]; [done|]. lia. }
  destruct Hres as [(_ & Hel' & Hl')|Hres]; [|lia].
  rewrite (M_bind_run _ _ s2 s2 s2) by done. cbn [na_closerSet].
  destruct (full_index (mem s2) items' e v dist lm Hgood Hnan Hl') as (a' & idx' & Eu & Hidx').
  - by rewrite Hel'.
  - rewrite Hel'. by eapply Hin.
  - exists el. split; [|done]. eapply lookup_weaken; [exact Hel|apply X2].
  - rewrite <- (length_fmap hc_element items'), Hel', length_fmap. lia.
  - run (lift_res_run _ s2 _ Eu). exists (default (-1) idx'), s2. split; [done|]. split; [done|].
    destruct Hidx' as [?|?]; [by left|by right; right].
Qed.
End UpdateIndex.

(** ** The neighbors learn of the new element *)

Section UpdateNeighbors.
Context `{Palloc} `{ListSort} (garbage : HnswCandidate).
Context (m : Z) (good : Vector -> Prop) (E : gset ItemPointerData) (support : HnswSupport) (Hsup : support_ok support good).
Context (s0 : Backend) (e : addr) (el : HnswElementData) (v : Vector) (Hel : mem s0 !! e = Some el) (Hv : el_value el = Some v).
Context (Hgood : good v) (Hb : BlockNumber_ok (el_blkno el)).

#[local] Abbreviation tid := (ItemPointerSet (el_blkno el) (el_offno el)).

(** What holds after some of the updates that start in [s0]. *)
Record updating (s : Backend) : Prop := {
  up_wf : pages_wf (index s) m good E;
  up_elements k : element_at (index s) k = element_at (index s0) k;
  up_mem : mem s0 ⊆ mem s;
  up_xlog : xlog s = None;
  up_entry meta E0 : entry_wf (index s0) meta E0 -> entry_wf (index s) meta E0;
  up_kept : rel_kept (index s0) (index s);
  up_links : links_kept (index s0) (index s);
  up_slots b off nt t : tuple_at (index s) b off = Some (NeighborTuple nt) -> t ∈ nt_indextids nt ->
    t = tid \/ exists nt0, tuple_at (index s0) b off = Some (NeighborTuple nt0) /\ t ∈ nt_indextids nt0;
  up_length : nlen (index s) = nlen (index s0);
  up_rel : index s = with_pages (index s0) MAIN_FORKNUM (rd_main (index s))
}.

Lemma updating_start : pages_wf (index s0) m good E -> xlog s0 = None -> updating s0.
Proof using Type. intros Hp Hx. split; try done; [|by destruct (index s0)]. intros b off nt t Ht Hin. right. by exists nt. Qed.

Lemma updating_extends s s' : updating s -> extends s s' -> updating s'.
Proof using Type.
  intros [U1 U2 U3 U4 U5 Uk Ul Us U6 U7] (Hm & Hi & Hx). split; rewrite ?Hi; try done; [by etrans|congruence].
Qed.

Lemma updating_layer s lc : updating s -> layer (index s) E lc = layer (index s0) E lc.
Proof using Type. intros Hu. apply layer_same, (up_elements _ Hu). Qed.

Lemma update_neighbor_run check building lc hc s : updating s -> 0 <= lc -> tid ∈ layer (index s0) E lc ->
  neighbor_cand (index s0) E e (mem s0) lc hc ->
  exists s', update_neighbor garbage support e m (HnswGetLayerM m lc) lc check building hc tt s = Ok (tt, s') /\ updating s'.
Proof using Hsup Hel Hv Hgood Hb.
  intros Hu Hlc Htid (Hne & Hnum & k & x & etup & Hx & Hk & Het & Hlf & Hbx & Hval).
  pose proof (up_wf _ Hu) as Hwf. rewrite <- (updating_layer s lc Hu) in Hk, Htid. rewrite <- (up_elements _ Hu) in Het.
  assert (Hxs : mem s !! hc_element hc = Some x) by (eapply lookup_weaken; [exact Hx|apply Hu]).
  assert (Hes : mem s !! e = Some el) by (eapply lookup_weaken; [exact Hel|apply Hu]).
  destruct (GetUpdateIndex_run garbage (index s) m good E Hwf support Hsup s (hc_element hc) x k etup lc e el v (hc_distance hc)
    eq_refl Hxs Hlf Hval Het Hk Hlc Hes Hv Hgood Hnum) as (idx & s1 & E1 & X1 & Hidx).
  pose proof (updating_extends s s1 Hu X1) as Hu1. unfold update_neighbor.
  change (HnswPtrAccess NULL (hc_element hc)) with (hc_element hc). run E1.
  destruct (Z.eqb_spec idx (-1)) as [|Hne1]; [by exists s1|].
  pose proof (elem_of_layer (index s) E lc k) as [Hkl _]. destruct (Hkl Hk) as (HkE & et & Het' & Hlev).
  rewrite Het in Het'. injection Het' as <-.
  destruct (element_of _ _ _ _ Hwf k HkE) as (et & ntup & Het' & W). rewrite Het in Het'. injection Het' as <-.
  destruct (layer_slots_inside _ _ _ _ Hwf (et_level etup) lc ltac:(lia)) as [Hs1 Hs2]. pose proof (layer_m _ _ _ _ Hwf lc) as Hlm.
  assert (Hi1 : index s1 = index s) by apply X1.
  assert (Hat : slots_at s1 x m (HnswGetLayerM m lc) lc ntup).
  { pose proof (ew_neighbor _ _ _ _ _ _ _ W) as Hn. apply neighbor_at_place in Hn. pose proof (ew_length _ _ _ _ _ _ _ W).
    pose proof (ew_count _ _ _ _ _ _ _ W). destruct Hlf as [_ L2 _ _ L5 L6].
    split; rewrite ?Hi1, ?L2, ?L5, ?L6; try done; [lia|apply (ew_tids _ _ _ _ _ _ _ W)|lia|lia]. }
  assert (Hx1 : mem s1 !! hc_element hc = Some x) by (eapply lookup_weaken; [exact Hxs|apply X1]).
  assert (He1 : mem s1 !! e = Some el) by (eapply lookup_weaken; [exact Hes|apply X1]).
  destruct (UpdateNeighborOnDisk_run s1 (hc_element hc) e x el ntup idx m (HnswGetLayerM m lc) lc check Hx1 He1 (up_xlog _ Hu1)
    Hat Hb ltac:(destruct Hidx as [?|[?|?]]; [done|by left|by right])) as (s2 & E2 & Hr).
  rewrite (lf_level _ _ _ Hlf), (lf_neighborPage _ _ _ Hlf), (lf_neighborOffno _ _ _ Hlf) in Hr.
  exists s2. split; [apply E2|]. rewrite <- Hi1 in Hwf, W, Htid.
  destruct (pages_wf_neighbor s1 s2 m good E k etup ntup lc check idx tid Hwf HkE W ltac:(lia) Htid Hr) as (Hkept & Hsame & Hwf2).
  pose proof (ew_neighbor _ _ _ _ _ _ _ W) as Hold. apply neighbor_at_place in Hold.
  destruct Hu1 as [U1 U2 U3 U4 U5 Uk Ul Us U6 U7]. split.
  - done.
  - intros k'. by rewrite Hsame.
  - by rewrite (tr_mem _ _ _ _ _ Hr).
  - by rewrite (tr_xlog _ _ _ _ _ Hr).
  - intros meta E0 Hen. apply U5 in Hen. eapply kept_entry; [exact Hkept| | |exact Hen].
    + eapply replaced_meta; [exact Hr|apply Hen].
    + rewrite (replaced_length _ _ _ _ _ Hr). lia.
  - by etrans.
  - etrans; [exact Ul|]. by eapply replaced_links_kept.
  - intros b off nt t. rewrite (replaced_tuple _ _ _ _ _ Hr). case_decide as E0; [|by apply Us]. injection E0 as -> ->.
    intros [= <-] Ht. destruct (updated_slots_elem _ _ _ _ k etup ntup lc check idx tid _ Hwf W ltac:(lia) Ht) as [->|Ht']; [by left|].
    by apply (Us _ _ ntup).
  - by rewrite (replaced_length _ _ _ _ _ Hr).
  - rewrite (tr_rel _ _ _ _ _ Hr), U7 at 1. by destruct (index s0).
Qed.

Lemma update_items_run check building lc items : 0 <= lc -> tid ∈ layer (index s0) E lc ->
  Forall (neighbor_cand (index s0) E e (mem s0) lc) items -> forall s, updating s ->
  exists s', mfor items tt (update_neighbor garbage support e m (HnswGetLayerM m lc) lc check building) s = Ok (tt, s') /\ updating s'.
Proof using Hsup Hel Hv Hgood Hb.
  intros Hlc Htid. induction 1 as [|hc items Hhc Hf IH]; intros s Hu; [by exists s|]. rewrite mfor_cons.
  destruct (update_neighbor_run check building lc hc s Hu Hlc Htid Hhc) as (s1 & E1 & U1). run E1. by apply IH.
Qed.

Context (ns : list HnswNeighborArray) (Hns : el_neighbors el = Some ns) (Harr : arrays_wf (index s0) m E e (mem s0) ns).
Context (Htop : forall lc, 0 <= lc <= el_level el -> tid ∈ layer (index s0) E lc) (Hlen : Z.of_nat (length ns) = el_level el + 1).

Lemma update_layers_run check building lc : Z.of_nat lc <= el_level el -> forall s, updating s ->
  exists s', update_layers garbage support e m check building lc s = Ok (tt, s') /\ updating s'.
Proof using All.
  induction lc as [|lc IH]; intros Hle s Hu; cbn [update_layers].
  all: assert (He : mem s !! e = Some el) by (eapply lookup_weaken; [exact Hel|apply Hu]).
  - destruct (lookup_lt_is_Some_2 ns 0 ltac:(lia)) as [a Ha]. pose proof (array_wf_cands _ _ _ _ _ _ _ (Harr O a Ha)) as Hf.
    assert (Hget : HnswGetNeighbors NULL e (Z.of_nat 0) s = Ok (a, s)).
    { unfold HnswGetNeighbors. run (load_element_run _ _ _ He). unfold lift_res, neighbors_of. rewrite Hns.
      change (ns !! Z.to_nat (Z.of_nat 0)) with (ns !! O). by rewrite Ha. }
    run Hget. destruct (update_items_run check building 0 (na_items a) ltac:(lia) (Htop 0 ltac:(lia)) Hf s Hu) as (s1 & E1 & U1).
    change (Z.of_nat 0) with 0. run E1. by exists s1.
  - destruct (lookup_lt_is_Some_2 ns (S lc) ltac:(lia)) as [a Ha]. pose proof (array_wf_cands _ _ _ _ _ _ _ (Harr (S lc) a Ha)) as Hf.
    assert (Hget : HnswGetNeighbors NULL e (Z.of_nat (S lc)) s = Ok (a, s)).
    { unfold HnswGetNeighbors. run (load_element_run _ _ _ He). unfold lift_res, neighbors_of. rewrite Hns.
      destruct (Z.ltb_spec (Z.of_nat (S lc)) 0); [lia|]. by rewrite Nat2Z.id, Ha. }
    run Hget. destruct (update_items_run check building (Z.of_nat (S lc)) (na_items a) ltac:(lia) (Htop (Z.of_nat (S lc)) ltac:(lia)) Hf s Hu)
      as (s1 & E1 & U1). run E1. apply IH; [lia|done].
Qed.

Lemma HnswUpdateNeighborsOnDisk_run check building s : 0 <= el_level el -> updating s ->
  exists s', HnswUpdateNeighborsOnDisk garbage support e m check building s = Ok (tt, s') /\ updating s'.
Proof using All.
  intros Hl Hu. assert (He : mem s !! e = Some el) by (eapply lookup_weaken; [exact Hel|apply Hu]).
  unfold HnswUpdateNeighborsOnDisk. run (load_element_run _ _ _ He). apply update_layers_run; [lia|done].
Qed.
End UpdateNeighbors.

(** ** The graph takes the element in *)

Lemma GetInsertPage_run s meta : meta_ok (index s) meta -> GetInsertPage s = Ok (mp_insertPage meta, s).
Proof.
  intros (p & Hp & <- & _). unfold GetInsertPage, read_meta.
  assert (Hm : (buf ← ReadBuffer HNSW_METAPAGE_BLKNO ; page ← read_page MAIN_FORKNUM (BufferPage buf) ; mret (pd_contents page)) s =
    Ok (pd_contents p, s)); [|by run Hm].
  run (ReadBuffer_run _ _ _ Hp). rewrite (M_bind_run _ _ s p s); [done|]. simpl. by rewrite Hp.
Qed.

(** The new element as [HnswFindElementNeighbors] leaves it. *)
Record new_element (s : Backend) (m : Z) (good : Vector -> Prop) (E : gset ItemPointerData) (e : addr) (el : HnswElementData)
    (ns : list HnswNeighborArray) (v : Vector) (tid : ItemPointerData) : Prop := {
  ne_mem : mem s !! e = Some el;
  ne_null : e <> NULL;
  ne_value : el_value el = Some v;
  ne_good : good v;
  ne_tids : el_heaptids el = [tid];
  ne_valid : ItemPointerIsValid tid = true;
  ne_level : 0 <= el_level el <= HnswGetMaxLevel m;
  ne_neighbors : el_neighbors el = Some ns;
  ne_length : Z.of_nat (length ns) = el_level el + 1;
  ne_arrays : arrays_wf (index s) m E e (mem s) ns
}.

Section AddNew.
Context (good : Vector -> Prop) (support : HnswSupport) (Hsup : support_ok support good).
Context (s : Backend) (m : Z) (E : gset ItemPointerData) (Hwf : pages_wf (index s) m good E) (Hx : xlog s = None).
Context (e : addr) (el : HnswElementData) (ns : list HnswNeighborArray) (v : Vector) (tid : ItemPointerData).
Context (Hne : new_element s m good E e el ns v tid).

Lemma new_neighbor lc hc : hc ∈ layer_items ns lc -> neighbor_cand (index s) E e (mem s) (Z.of_nat lc) hc.
Proof using Hne.
  unfold layer_items. destruct (ns !! lc) as [a|] eqn:Ea; [|by intros Hhc%elem_of_nil].
  pose proof (array_wf_cands _ _ _ _ _ _ _ (ne_arrays _ _ _ _ _ _ _ _ _ Hne lc a Ea)) as Hf. rewrite list.Forall_forall in Hf. by apply Hf.
Qed.

Lemma new_insertable : insertable s m e el v ns.
Proof using Hsup Hwf Hne.
  pose proof Hne as [N1 N0 N2 N3 N4 N5 N6 N7 N8 N9]. split; try done; try by apply (so_vector _ _ Hsup).
  - split; [lia|done|done|]. intros lc a Ha. pose proof (array_wf_cands _ _ _ _ _ _ _ (N9 lc a Ha)) as Hf. split; [apply (N9 lc a Ha)|]. intros hc Hhc.
    rewrite list.Forall_forall in Hf. destruct (Hf hc Hhc) as (_ & _ & k & x & etup & Hxm & _). by exists x.
  - apply Hwf.
Qed.

Lemma new_neighbor_tid lc hc : Z.of_nat lc <= el_level el -> hc ∈ layer_items ns lc ->
  neighbor_tid NULL s hc ∈ layer (index s) E (Z.of_nat lc).
Proof using Hne.
  intros _ Hhc. destruct (new_neighbor lc hc Hhc) as (_ & _ & k & x & etup & Hxm & Hk & _ & Hlf & _).
  unfold neighbor_tid. change (HnswPtrAccess NULL (hc_element hc)) with (hc_element hc). rewrite Hxm. by rewrite (lf_tid _ _ _ Hlf).
Qed.

(** The pages with the new element, and the element where they are. *)
Record element_placed (s1 : Backend) (k : ItemPointerData) (el1 : HnswElementData) : Prop := {
  ep_new : k ∉ E;
  ep_wf : pages_wf (index s1) m good ({[k]} ∪ E);
  ep_mem : mem s1 = <[e := el1]> (mem s);
  ep_xlog : xlog s1 = None;
  ep_block : BlockNumber_ok (el_blkno el1) /\ BlockNumberIsValid (el_blkno el1) = true /\ OffsetNumber_ok (el_offno el1);
  ep_tid : ItemPointerSet (el_blkno el1) (el_offno el1) = k;
  ep_fields : el_level el1 = el_level el /\ el_value el1 = Some v /\ el_neighbors el1 = Some ns;
  ep_element : exists etup, element_at (index s1) k = Some etup /\ et_level etup = el_level el /\ et_data etup = v /\
    valid_prefix (et_heaptids etup) = [tid];
  ep_others k' : k' ∈ E -> element_at (index s1) k' = element_at (index s) k';
  ep_length : nlen (index s) <= nlen (index s1) <= nlen (index s) + 2;
  ep_rel : index s1 = with_pages (index s) MAIN_FORKNUM (rd_main (index s1))
}.

Lemma add_element_run fuel building insertPage : 1 <= insertPage < nlen (index s) ->
  nlen (index s) + 2 <= InvalidBlockNumber -> nlen (index s) <= Z.of_nat fuel ->
  exists r s1 k el1, AddElementOnDisk fuel e m insertPage building s = Ok (r, s1) /\ element_placed s1 k el1 /\
    block (rd_main (index s1)) HNSW_METAPAGE_BLKNO = block (rd_main (index s)) HNSW_METAPAGE_BLKNO /\
    match r with Some page => 1 <= page < nlen (index s1) | None => True end.
Proof using Hsup Hwf Hx Hne.
  intros Hp Hsz Hfuel. pose proof Hne as [N1 N0 N2 N3 N4 N5 N6 N7 N8 N9].
  destruct (AddElementOnDisk_run fuel building m insertPage s e el v ns new_insertable Hx (pw_index _ _ _ _ Hwf) Hp Hsz Hfuel)
    as (r & b & off & nb & noff & s1 & Erun & Hadd & Hr).
  destruct (new_place_ok _ _ _ _ _ _ _ _ _ _ _ _ Hadd good E Hwf tid N4 N5 Hp) as (Hok & Hval & Hpl & _).
  destruct (pages_wf_added _ _ _ _ _ _ _ _ _ _ _ _ Hadd new_insertable good E Hwf N3 tid N4 N5 Hp new_neighbor_tid) as [Hnew Hwf1].
  destruct (added_element_wf _ _ _ _ _ _ _ _ _ _ _ _ Hadd new_insertable good E Hwf N3 tid N4 N5 Hp new_neighbor_tid)
    as (etup & ntup & W & Hpre & Hdata & Hlev).
  exists r, s1, (ItemPointerSet b off), (el_set_neighbortid nb noff (el_set_tid b off el)). split; [exact Erun|].
  pose proof (ea_index _ _ _ _ _ _ _ _ _ _ _ _ Hadd) as Hix1. pose proof (ea_length _ _ _ _ _ _ _ _ _ _ _ _ Hadd) as Hlen.
  assert (Hp1 : 1 <= insertPage < nlen (index s1)) by lia.
  pose proof (reach_range _ _ _ Hix1 Hp1 (ea_reach _ _ _ _ _ _ _ _ _ _ _ _ Hadd)) as Hb. split.
  - split; try done.
    + apply Hadd.
    + apply Hadd.
    + cbn. pose proof (ix_size _ Hix1) as Hs. unfold InvalidBlockNumber in Hs. split; [unfold BlockNumber_ok; lia|].
      split; [unfold BlockNumberIsValid, InvalidBlockNumber; destruct (Z.eqb_spec b 0xFFFFFFFF); [lia|done]|]. apply Hok.
    + exists etup. split; [apply W|done].
    + intros k' Hk'. by apply (added_elements _ _ _ _ _ _ _ _ _ _ _ _ Hadd good E Hwf tid N4 N5 Hp).
    + apply Hadd.
  - split; [apply Hadd|]. destruct r as [page|]; [|done]. destruct Hr as [Hr _]. pose proof (reach_range _ _ _ Hix1 Hp1 Hr). lia.
Qed.

(** Afterwards the metapage is still about the elements there were. *)
Lemma placed_entry s1 k el1 meta : element_placed s1 k el1 ->
  block (rd_main (index s1)) HNSW_METAPAGE_BLKNO = block (rd_main (index s)) HNSW_METAPAGE_BLKNO ->
  entry_wf (index s) meta E -> entry_wf (index s1) meta E.
Proof using Type.
  intros Hpl Hsame [(p & Hp & Hm) H2 H3 H4]. pose proof (ep_length _ _ _ Hpl) as Hl. split.
  - exists p. by rewrite Hsame.
  - lia.
  - destruct (BlockNumberIsValid _); [|done]. destruct H3 as (? & ? & Hin & Hex). split_and!; try done.
    by rewrite (ep_others _ _ _ Hpl).
  - intros k' et Hk'. rewrite (ep_others _ _ _ Hpl) by done. by apply H4.
Qed.

Lemma placed_meta_updated s1 s2 k el1 meta' : element_placed s1 k el1 -> meta_updated s1 s2 meta' -> element_placed s2 k el1.
Proof using Type.
  intros [P1 P2 P3 P4 P5 P6 P7 P8 P9 P10 P11] Hu. split; try done.
  - by eapply meta_updated_wf.
  - by rewrite (mu_mem _ _ _ Hu).
  - by rewrite (mu_xlog _ _ _ Hu).
  - by rewrite (meta_updated_elements _ _ _ Hu).
  - intros k' Hk'. rewrite (meta_updated_elements _ _ _ Hu). by apply P9.
  - by rewrite (meta_updated_nlen _ _ _ Hu).
  - rewrite (mu_rel _ _ _ Hu), P11 at 1. apply with_pages_twice.
Qed.

(** The insert page is set if there is a new one. *)
Lemma set_insert_page_run building s1 k el1 meta r : element_placed s1 k el1 -> entry_wf (index s1) meta E ->
  match r with Some page => 1 <= page < nlen (index s1) | None => True end ->
  exists s2 meta2, (match r with
    | Some page => HnswUpdateMetaPage 0 NULL page MAIN_FORKNUM building
    | None => mret tt end) s1 = Ok (tt, s2) /\ element_placed s2 k el1 /\ entry_wf (index s2) meta2 E /\
    mp_m meta2 = mp_m meta /\ mp_dimensions meta2 = mp_dimensions meta /\
    mp_entryBlkno meta2 = mp_entryBlkno meta /\ mp_entryLevel meta2 = mp_entryLevel meta.
Proof using Type.
  intros Hpl Hen Hr. destruct r as [page|]; [|by exists s1, meta].
  destruct (HnswUpdateMetaPage_run s1 meta 0 NULL None page (ey_meta _ _ _ Hen) (ep_xlog _ _ _ Hpl) eq_refl) as (s2 & E2 & Hu & Hmeta).
  eexists s2, _. split; [apply E2|]. split; [by eapply placed_meta_updated|]. split; [by eapply entry_wf_insert_page|].
  unfold HnswUpdateMetaPageInfo. simpl. by destruct (BlockNumberIsValid page).
Qed.

(** ** Neighbors and entry point *)

Lemma placed_layer s2 k el1 lc : element_placed s2 k el1 -> layer (index s) E lc ⊆ layer (index s2) ({[k]} ∪ E) lc.
Proof using Type.
  intros Hpl t. rewrite !elem_of_layer. intros (Ht & et & He & Hl). split; [by apply elem_of_union_r|]. exists et.
  by rewrite (ep_others _ _ _ Hpl).
Qed.

Lemma placed_arrays s2 k el1 : element_placed s2 k el1 -> arrays_wf (index s2) m ({[k]} ∪ E) e (mem s2) ns.
Proof using Hne.
  intros Hpl i a Ha. destruct (ne_arrays _ _ _ _ _ _ _ _ _ Hne i a Ha) as [Hl Hf]. split; [done|].
  eapply List.Forall_impl; [|exact Hf]. intros hc [(N1 & N2 & k' & x & etup & Hxm & Hk & Het & Hr) (y & Hy & Hh)]. split.
  2: { exists y. split; [by rewrite (ep_mem _ _ _ Hpl), lookup_insert_ne|done]. }
  split; [done|]. split; [done|]. exists k', x, etup. split; [by rewrite (ep_mem _ _ _ Hpl), lookup_insert_ne|]. split; [by eapply placed_layer|].
  split; [|done]. rewrite (ep_others _ _ _ Hpl); [done|]. by apply elem_of_layer in Hk as [? _].
Qed.

Lemma connect_neighbors_run `{Palloc} `{ListSort} garbage building s2 k el1 : element_placed s2 k el1 ->
  exists s3, HnswUpdateNeighborsOnDisk garbage support e m false building s2 = Ok (tt, s3) /\ updating m good ({[k]} ∪ E) s2 el1 s3.
Proof using Hsup Hne.
  intros Hpl. pose proof Hne as [N1 N0 N2 N3 N4 N5 N6 N7 N8 N9]. destruct (ep_fields _ _ _ Hpl) as (F1 & F2 & F3).
  destruct (ep_block _ _ _ Hpl) as (B1 & _).
  assert (Hel : mem s2 !! e = Some el1) by (by rewrite (ep_mem _ _ _ Hpl), lookup_insert_eq).
  apply (HnswUpdateNeighborsOnDisk_run garbage m good ({[k]} ∪ E) support Hsup s2 e el1 v Hel F2 N3 B1 ns F3); rewrite ?F1.
  - by eapply placed_arrays.
  - intros lc Hlc. rewrite (ep_tid _ _ _ Hpl). apply elem_of_layer. split; [apply elem_of_union_l; by apply elem_of_singleton|].
    destruct (ep_element _ _ _ Hpl) as (etup & He & Hl & _). exists etup. split; [done|lia].
  - done.
  - lia.
  - apply updating_start; apply Hpl.
Qed.

(** The entry point as an element in memory, with its level. *)
Definition entry_loaded (meta : HnswMetaPageData) (entryPoint : addr) : Prop :=
  if BlockNumberIsValid (mp_entryBlkno meta)
  then entryPoint <> NULL /\ entryPoint <> e /\ exists en, mem s !! entryPoint = Some en /\ el_level en = mp_entryLevel meta
  else entryPoint = NULL.

Lemma better_entry_run s3 el1 meta entryPoint : entry_loaded meta entryPoint -> mp_entryLevel meta < el_level el1 \/ BlockNumberIsValid (mp_entryBlkno meta) = true ->
  <[e := el1]> (mem s) ⊆ mem s3 -> better_entry e entryPoint s3 = Ok (mp_entryLevel meta <? el_level el1, s3).
Proof using Type.
  intros Hen Hor Hsub. unfold better_entry, entry_loaded in *.
  run (load_element_run s3 e el1 ltac:(eapply lookup_weaken; [apply lookup_insert_eq|exact Hsub])).
  destruct (BlockNumberIsValid (mp_entryBlkno meta)).
  - destruct Hen as (Hn & Hne' & en & Hen & <-). destruct (N.eqb_spec entryPoint NULL); [done|].
    assert (Hen3 : mem s3 !! entryPoint = Some en) by (eapply lookup_weaken; [|exact Hsub]; by rewrite lookup_insert_ne).
    by run (load_element_run _ _ _ Hen3).
  - rewrite Hen. cbn [N.eqb]. destruct Hor as [Hor|]; [|done]. destruct (Z.ltb_spec (mp_entryLevel meta) (el_level el1)); [done|lia].
Qed.

(** The entry point, when the new element is higher. *)
Lemma set_entry_run building s2 s3 k el1 meta entryPoint : mp_m meta = m -> element_placed s2 k el1 -> entry_wf (index s2) meta E ->
  updating m good ({[k]} ∪ E) s2 el1 s3 -> entry_loaded meta entryPoint ->
  exists s4 meta4, (better ← better_entry e entryPoint ;
    if (better : bool)
    then HnswUpdateMetaPage HNSW_UPDATE_ENTRY_GREATER e InvalidBlockNumber MAIN_FORKNUM building
    else mret tt) s3 = Ok (tt, s4) /\
    index_wf (index s4) meta4 good ({[k]} ∪ E) /\ mp_m meta4 = mp_m meta /\ mp_dimensions meta4 = mp_dimensions meta /\
    xlog s4 = None /\ nlen (index s4) = nlen (index s2) /\ index s4 = with_pages (index s) MAIN_FORKNUM (rd_main (index s4)) /\
    forall k', element_at (index s4) k' = element_at (index s2) k'.
Proof using Hne.
  intros Hm Hpl Hen Hu Hel0. pose proof Hne as [N1 N0 N2 N3 N4 N5 N6 N7 N8 N9]. destruct (ep_fields _ _ _ Hpl) as (F1 & _).
  assert (Hsub : <[e := el1]> (mem s) ⊆ mem s3) by (rewrite <- (ep_mem _ _ _ Hpl); apply Hu).
  pose proof (up_entry _ _ _ _ _ _ Hu meta E Hen) as Hen3. pose proof (up_wf _ _ _ _ _ _ Hu) as Hwf3.
  assert (Hor : mp_entryLevel meta < el_level el1 \/ BlockNumberIsValid (mp_entryBlkno meta) = true /\ E <> ∅).
  { pose proof (ey_entry _ _ _ Hen3) as Hx3. destruct (BlockNumberIsValid (mp_entryBlkno meta)).
    - right. split; [done|]. intros HE. destruct Hx3 as (_ & _ & Hin & _). rewrite HE in Hin. by apply elem_of_empty in Hin.
    - left. destruct Hx3 as [_ ->]. lia. }
  assert (Hor' : mp_entryLevel meta < el_level el1 \/ BlockNumberIsValid (mp_entryBlkno meta) = true) by (destruct Hor as [|[? _]]; auto).
  assert (He : exists etup, element_at (index s3) k = Some etup /\ et_level etup = el_level el1).
  { destruct (ep_element _ _ _ Hpl) as (etup & He & Hl & _). exists etup. rewrite (up_elements _ _ _ _ _ _ Hu). split; [done|congruence]. }
  destruct He as (etup & He & Hl). run (better_entry_run s3 el1 meta entryPoint Hel0 Hor' Hsub).
  assert (Hrel : index s3 = with_pages (index s) MAIN_FORKNUM (rd_main (index s3))).
  { rewrite (up_rel _ _ _ _ _ _ Hu), (ep_rel _ _ _ Hpl) at 1. apply with_pages_twice. }
  destruct (Z.ltb_spec (mp_entryLevel meta) (el_level el1)) as [Hlt|Hge].
  - assert (Hue : update_element s3 HNSW_UPDATE_ENTRY_GREATER e (Some el1)).
    { unfold update_element. apply N.eqb_neq in N0. rewrite N0. cbn. exists el1. split; [|done].
      eapply lookup_weaken; [apply lookup_insert_eq|exact Hsub]. }
    destruct (HnswUpdateMetaPage_run s3 meta HNSW_UPDATE_ENTRY_GREATER e (Some el1) InvalidBlockNumber (ey_meta _ _ _ Hen3)
      (up_xlog _ _ _ _ _ _ Hu) Hue) as (s4 & E4 & Hu4 & Hmeta4).
    destruct (ep_block _ _ _ Hpl) as (B1 & B2 & B3). exists s4. eexists. split; [apply E4|].
    assert (Hm4 : mp_m (HnswUpdateMetaPageInfo HNSW_UPDATE_ENTRY_GREATER (Some el1) InvalidBlockNumber meta) = m /\
      mp_dimensions (HnswUpdateMetaPageInfo HNSW_UPDATE_ENTRY_GREATER (Some el1) InvalidBlockNumber meta) = mp_dimensions meta).
    { unfold HnswUpdateMetaPageInfo. simpl. by destruct (_ <? _). }
    split; [split|]; [rewrite (proj1 Hm4); by eapply meta_updated_wf| |].
    { eapply entry_wf_greater; try done. by rewrite (ep_tid _ _ _ Hpl). }
    split_and!; [rewrite Hm; apply Hm4|apply Hm4| | | |].
    + rewrite (mu_xlog _ _ _ Hu4). apply Hu.
    + rewrite (meta_updated_nlen _ _ _ Hu4). apply Hu.
    + rewrite (mu_rel _ _ _ Hu4), Hrel at 1. apply with_pages_twice.
    + intros k'. rewrite (meta_updated_elements _ _ _ Hu4). apply (up_elements _ _ _ _ _ _ Hu).
  - exists s3, meta. split; [done|]. split; [split; [by rewrite Hm|]|split_and!; try done].
    + destruct Hor as [|[_ HE]]; [lia|]. eapply entry_wf_same; try done. lia.
    + apply Hu.
    + apply Hu.
    + apply (up_elements _ _ _ _ _ _ Hu).
Qed.

(** What an insertion leaves. *)
Definition insertion_done (meta : HnswMetaPageData) (s' : Backend) : Prop :=
  exists meta' E', index_wf (index s') meta' good E' /\ inserted (index s) (index s') E E' v tid /\
    mp_m meta' = mp_m meta /\ mp_dimensions meta' = mp_dimensions meta /\
    xlog s' = None /\ nlen (index s') <= nlen (index s) + 2 /\ index s' = with_pages (index s) MAIN_FORKNUM (rd_main (index s')).

Lemma dup_done meta s' : m = mp_m meta -> entry_wf (index s) meta E -> dup_added s s' E v tid -> insertion_done meta s'.
Proof using Hwf Hx.
  intros Hm Hen (k & etup & htids & Hk & He & Hd & Hok & Hpre & Hr). exists meta, E.
  destruct (pages_wf_heaptids s s' m good E k etup htids Hwf Hk He Hok Hr) as (Hkept & Hwf' & Hat).
  split; [split; [by rewrite <- Hm|]|].
  - eapply kept_entry; [exact Hkept| | |exact Hen]; [eapply replaced_meta; [exact Hr|apply Hen]|].
    rewrite (replaced_length _ _ _ _ _ Hr). lia.
  - split; [rewrite <- Hd; exact (dup_inserted s s' m good E k etup htids tid Hwf Hk He Hpre Hat)|].
    split_and!; try done; [by rewrite (tr_xlog _ _ _ _ _ Hr)|rewrite (replaced_length _ _ _ _ _ Hr); lia|apply (tr_rel _ _ _ _ _ Hr)].
Qed.

Lemma UpdateGraphOnDisk_run `{Palloc} `{ListSort} garbage fuel building meta entryPoint : m = mp_m meta -> entry_wf (index s) meta E ->
  entry_loaded meta entryPoint -> nlen (index s) + 2 <= InvalidBlockNumber -> nlen (index s) <= Z.of_nat fuel ->
  exists s', UpdateGraphOnDisk garbage fuel support e m entryPoint building s = Ok (tt, s') /\ insertion_done meta s'.
Proof using Hsup Hwf Hx Hne.
  intros Hm Hen Hel0 Hsz Hfuel. pose proof Hne as [N1 N0 N2 N3 N4 N5 N6 N7 N8 N9]. unfold UpdateGraphOnDisk.
  destruct (FindDuplicateOnDisk_run m good E s Hwf Hx e el v tid N1 N2 N4 N5 building ns N7 N9 ltac:(lia)) as (r & s0 & E0 & Hr).
  run E0. destruct r; [exists s0; split; [done|by apply dup_done]|]. subst s0.
  run (GetInsertPage_run s meta (ey_meta _ _ _ Hen)).
  destruct (add_element_run fuel building (mp_insertPage meta) (ey_insert _ _ _ Hen) Hsz Hfuel) as (r & s1 & k & el1 & E1 & Hpl & Hb & Hpage).
  run E1. pose proof (placed_entry s1 k el1 meta Hpl Hb Hen) as Hen1.
  destruct (set_insert_page_run building s1 k el1 meta r Hpl Hen1 Hpage) as (s2 & meta2 & E2 & Hpl2 & Hen2 & M1 & M2 & M3 & M4).
  run E2. destruct (connect_neighbors_run garbage building s2 k el1 Hpl2) as (s3 & E3 & Hu). run E3.
  destruct (set_entry_run building s2 s3 k el1 meta2 entryPoint ltac:(congruence) Hpl2 Hen2 Hu) as (s4 & meta4 & E4 & Hwf4 & M5 & M6 & X4 & L4 & R4 & Hat).
  { unfold entry_loaded in *. by rewrite M3, M4. }
  exists s4. split; [exact E4|]. exists meta4, ({[k]} ∪ E). split; [done|]. pose proof (ep_length _ _ _ Hpl2). split_and!; try congruence; [|lia].
  destruct (ep_element _ _ _ Hpl2) as (etup & He & _ & Hd & Hpre). exists k, etup. split; [done|].
  split; [by rewrite Hat|]. split; [done|]. pose proof (ep_new _ _ _ Hpl2) as Hnew. split.
  - rewrite decide_False by done. unfold heap_tids. by rewrite Hat, He.
  - split; [done|]. intros k' Hk' _. rewrite Hat. by apply (ep_others _ _ _ Hpl2).
Qed.
End AddNew.

(** ** The element of a new tuple *)

Section InitElement.
Context `{Palloc} `{Libm} (m : Z) (Hm : HNSW_MIN_M <= m <= HNSW_MAX_M) (v : Vector) (tid : ItemPointerData) (random : double) (level : Z).
Context (Hdraw : draw_level (HnswGetMl m) random (HnswGetMaxLevel m) = Ok level) (Hlevel : 0 <= level).

Definition fresh_element : HnswElementData :=
  el_set_value (Some v) (HnswInitNeighbors (el_set_status level 0 1 (el_set_heaptids [tid] uninit))).

Lemma drawn_level : 0 <= level <= HnswGetMaxLevel m /\ u8 level = level.
Proof using Hm Hdraw Hlevel.
  pose proof (maxlevel_nonneg m Hm) as Hmax.
  assert (level <= HnswGetMaxLevel m).
  { unfold draw_level in Hdraw. apply res_bind_ok in Hdraw as (l & _ & Hl). injection Hl as <-.
    destruct (Z.ltb_spec (HnswGetMaxLevel m) l); lia. }
  split; [lia|]. apply u8_small. lia.
Qed.

(** A new element with its value. *)
Lemma init_element_run s1 : exists e s2, e <> NULL /\ mem s1 !! e = None /\ extends s1 s2 /\ mem s2 !! e = Some fresh_element /\
  forall A (k : addr -> M Backend A),
    (element ← HnswInitElement tid (HnswGetMl m) random (HnswGetMaxLevel m) ;
     modify_element element (el_set_value (Some v)) ;; k element) s1 = k e s2.
Proof using Hm Hdraw Hlevel.
  destruct drawn_level as [_ Hu8]. set (e := palloc_addr (mem s1)).
  exists e, (mkBackend (<[e := fresh_element]> (mem s1)) (index s1) (xlog s1)).
  split; [apply palloc_not_null|]. split; [apply palloc_fresh|]. split; [split; [apply insert_subseteq, palloc_fresh|done]|].
  split; [simpl; by rewrite lookup_insert_eq|]. intros A k.
  set (el0 := el_set_value None (HnswInitNeighbors (el_set_status (u8 level) 0 1 (el_set_heaptids [tid] uninit)))).
  set (s2 := mkBackend (<[e := el0]> (mem s1)) (index s1) (xlog s1)).
  assert (Einit : HnswInitElement tid (HnswGetMl m) random (HnswGetMaxLevel m) s1 = Ok (e, s2)).
  { unfold HnswInitElement. run (lift_res_run _ s1 _ Hdraw).
    run (lift_res_run (HnswAddHeapTid (el_set_heaptids [] uninit) tid) s1 (el_set_heaptids [tid] uninit) eq_refl). done. }
  run Einit. assert (He0 : mem s2 !! e = Some el0) by (unfold s2; simpl; by rewrite lookup_insert_eq).
  assert (Emod : modify_element e (el_set_value (Some v)) s2 = Ok (tt, mkBackend (<[e := fresh_element]> (mem s1)) (index s1) (xlog s1))).
  { unfold modify_element. run (load_element_run _ _ _ He0). unfold store_element. rewrite He0. unfold s2. simpl.
    rewrite insert_insert_eq. unfold el0. rewrite Hu8. done. }
  by run Emod.
Qed.

End InitElement.

(** ** Insertion of a tuple *)

Section InsertTuple.
Context `{Palloc} `{ListSort} `{Libm} (garbage : HnswCandidate).
Context (good : Vector -> Prop) (support : HnswSupport) (Hsup : support_ok support good).
Context (s : Backend) (meta : HnswMetaPageData) (E : gset ItemPointerData) (Hwf : index_wf (index s) meta good E).
Context (v : Vector) (Hgood : good v) (tid : ItemPointerData) (Hvalid : ItemPointerIsValid tid = true).
Context (random : double) (level : Z).
Context (Hdraw : draw_level (HnswGetMl (mp_m meta)) random (HnswGetMaxLevel (mp_m meta)) = Ok level) (Hlevel : 0 <= level).

#[local] Abbreviation m := (mp_m meta).

Let Hm : HNSW_MIN_M <= m <= HNSW_MAX_M := pw_m _ _ _ _ (iw_pages _ _ _ _ Hwf).

#[local] Abbreviation fresh := (fresh_element v tid level).

(** The entry point is read again when the element is higher. *)
Lemma entry_point_run s1 ep e : extends s s1 -> mem s1 !! e = Some fresh -> entry_element e meta s1 ep ->
  exists b ep' s2, better_entry e ep s1 = Ok (b, s1) /\ (if (b : bool) then HnswGetEntryPoint else mret ep) s1 = Ok (ep', s2) /\
    extends s1 s2 /\ entry_element e meta s2 ep'.
Proof using Hwf.
  intros Hext He Hep. assert (Hb : exists b, better_entry e ep s1 = Ok (b, s1)).
  { unfold better_entry. run (load_element_run _ _ _ He). unfold entry_element in Hep.
    destruct (BlockNumberIsValid _); [|rewrite Hep; by exists true]. destruct Hep as (Hn & _ & en & Hen & _).
    destruct (N.eqb_spec ep NULL); [done|]. run (load_element_run _ _ _ Hen). by eexists. }
  destruct Hb as [b Hb]. exists b. destruct b; [|by exists ep, s1].
  pose proof (ey_meta _ _ _ (iw_entry _ _ _ _ Hwf)) as Hmeta. rewrite <- (proj1 (proj2 Hext)) in Hmeta.
  destruct (HnswGetMetaPageInfo_run s1 meta Hmeta) as (ep' & s2 & E2 & X2 & Hep').
  exists ep', s2. split; [done|]. split; [unfold HnswGetEntryPoint; by run E2|]. split; [done|].
  unfold entry_element. destruct (BlockNumberIsValid _); [|apply Hep'].
  destruct Hep' as (Hn & Hnone & en & Hen & B1 & B2 & _). split; [done|]. split; [congruence|]. by exists en.
Qed.

Context (fuel : nat) (Hx : xlog s = None) (Hsz : nlen (index s) + 2 <= InvalidBlockNumber).
Context (Hpages : nlen (index s) <= Z.of_nat fuel) (Hfuel : (size E <= fuel)%nat).

Lemma HnswInsertTupleOnDisk_run building : exists s' meta' E',
  HnswInsertTupleOnDisk garbage fuel support v tid random building s = Ok (true, s') /\
  index_wf (index s') meta' good E' /\ inserted (index s) (index s') E E' v tid /\
  mp_m meta' = m /\ mp_dimensions meta' = mp_dimensions meta /\
  xlog s' = None /\ nlen (index s') <= nlen (index s) + 2 /\ index s' = with_pages (index s) MAIN_FORKNUM (rd_main (index s')).
Proof using All.
  destruct (drawn_level m Hm random level Hdraw Hlevel) as [Hlev _]. pose proof Hwf as [Hp Hen]. unfold HnswInsertTupleOnDisk.
  rewrite (M_bind_run _ _ s s s) by done. cbv zeta.
  destruct (HnswGetMetaPageInfo_run s meta (ey_meta _ _ _ Hen)) as (ep & s1 & E1 & X1 & Hep). run E1.
  destruct (init_element_run m Hm v tid random level Hdraw Hlevel s1) as (e & s2 & Hnull & Hfresh & X2 & He2 & Hinit). rewrite (Hinit bool). clear Hinit.
  assert (Hep2 : entry_element e meta s2 ep).
  { unfold entry_element. destruct (BlockNumberIsValid _); [|apply Hep]. destruct Hep as (Hn & _ & en & Hen1 & B1 & B2 & _).
    split; [done|]. split; [congruence|]. exists en. split; [by eapply lookup_weaken; [|apply X2]|done]. }
  destruct (entry_point_run s2 ep e ltac:(by etrans) He2 Hep2) as (b & ep' & s3 & E3 & E3' & X3 & Hep3). run E3. run E3'.
  assert (X13 : extends s s3) by (by etrans; [|etrans]). pose proof (proj1 (proj2 X13)) as Hidx3.
  assert (He3 : mem s3 !! e = Some fresh) by (eapply lookup_weaken; [exact He2|apply X3]).
  destruct (HnswFindElementNeighbors_disk (hc_closer garbage) fuel (index s) m good E Hp support Hsup Hfuel e v Hgood meta ep'
    (HnswGetEfConstruction (index s)) s3 fresh (replicate (Z.to_nat (level + 1)) HnswInitNeighborArray))
    as (s4 & ns & E4 & [Hidx4 Hx4 He4 Hlen4 Harr _] & Hen4); try done.
  { intros i a Ha. by apply lookup_replicate in Ha as [-> _]. }
  { rewrite length_replicate. simpl. lia. }
  run E4. rewrite length_replicate in Hlen4.
  assert (Hne : new_element s4 m good E e (with_layers ns fresh) ns v tid).
  { split; try done; [simpl; lia|by rewrite Hidx4]. }
  assert (Hx4' : xlog s4 = None) by (rewrite Hx4, <- Hx; apply X13).
  destruct (UpdateGraphOnDisk_run good support Hsup s4 m E ltac:(by rewrite Hidx4) Hx4' e (with_layers ns fresh) ns v tid Hne
    garbage fuel building meta ep' eq_refl) as (s' & E5 & meta' & E' & R1 & R2 & R3 & R4 & R5 & R6 & R7).
  - by rewrite Hidx4.
  - unfold entry_loaded. unfold entry_element in Hep3. destruct (BlockNumberIsValid _); [|done].
    destruct Hep3 as (Hn & Hn' & _). split; [done|]. split; [done|]. by apply Hen4.
  - by rewrite Hidx4.
  - by rewrite Hidx4.
  - run E5. rewrite Hidx4 in R2, R6, R7. by exists s', meta', E'.
Qed.
End InsertTuple.

(** ** Insertion of a row *)

(** What the index keeps of the value of a row, if anything. *)
Definition index_value (rel : Relation) (value : option Vector) : res (option Vector) :=
  match value with
  | None => Ok None
  | Some v => HnswFormIndexValue v (HnswGetTypeInfo rel) (HnswInitSupport rel)
  end.

(** A draw with a logarithm the conversion to [int] is defined for. *)
Definition level_drawn `{Libm} (m : Z) (random : double) : Prop :=
  exists level, draw_level (HnswGetMl m) random (HnswGetMaxLevel m) = Ok level /\ 0 <= level.

(** The row is in the index, or has nothing to be indexed. *)
Definition indexed (rel rel' : Relation) (E E' : gset ItemPointerData) (value : option Vector) (tid : ItemPointerData) : Prop :=
  match value with
  | Some v => inserted rel rel' E E' v tid
  | None => rel' = rel /\ E' = E
  end.

Section Row.
Context `{Palloc} `{ListSort} `{Libm} (garbage : HnswCandidate) (good : Vector -> Prop).

(** A row of the table that can be inserted: its value makes no error and has
    distances, its TID is one, its level is defined. *)
Definition row_ok (rel : Relation) (m : Z) (value w : option Vector) (tid : ItemPointerData) (random : double) : Prop :=
  index_value rel value = Ok w /\
  forall v, w = Some v -> good v /\ ItemPointerIsValid tid = true /\ level_drawn m random.

(** Room for another insertion, and fuel for it. *)
Record room (fuel : nat) (s : Backend) (E : gset ItemPointerData) : Prop := {
  rm_pages : nlen (index s) + 2 <= InvalidBlockNumber;
  rm_fuel : nlen (index s) <= Z.of_nat fuel;
  rm_size : (size E <= fuel)%nat
}.

Lemma hnswinsert_run fuel s meta E value w tid random :
  support_ok (HnswInitSupport (index s)) good -> index_wf (index s) meta good E -> xlog s = None -> room fuel s E ->
  row_ok (index s) (mp_m meta) value w tid random ->
  exists s' meta' E', hnswinsert garbage fuel value tid random s = Ok (false, s') /\
    index_wf (index s') meta' good E' /\ indexed (index s) (index s') E E' w tid /\
    mp_m meta' = mp_m meta /\ mp_dimensions meta' = mp_dimensions meta /\
    xlog s' = None /\ nlen (index s') <= nlen (index s) + 2 /\
    index s' = with_pages (index s) MAIN_FORKNUM (rd_main (index s')).
Proof using Type.
  intros Hsup Hwf Hx [Hsz Hpages Hfuel] [Hval Hrow].
  assert (Hnone : index s = with_pages (index s) MAIN_FORKNUM (rd_main (index s))) by (by destruct (index s)).
  unfold hnswinsert. destruct value as [v0|].
  - assert (Hins : forall r, HnswInsertTuple garbage fuel v0 tid random s = r ->
      (HnswInsertTuple garbage fuel v0 tid random ;; mret false) s = match r with Ok (_, s') => Ok (false, s') | Err e => Err e end)
      by (intros r <-; unfold mbind, M_bind; by destruct (HnswInsertTuple _ _ _ _ _ _) as [[]|]).
    destruct w as [v|].
    + destruct (Hrow v eq_refl) as (Hg & Htid & level & Hdraw & Hl).
      destruct (HnswInsertTupleOnDisk_run garbage good _ Hsup s meta E Hwf v Hg tid Htid random level Hdraw Hl fuel Hx Hsz Hpages Hfuel false)
        as (s' & meta' & E' & Erun & Hrest). exists s', meta', E'. split; [|exact Hrest].
      rewrite (Hins (Ok (tt, s'))); [done|]. unfold HnswInsertTuple. rewrite (M_bind_run _ _ s s s) by done. cbv zeta.
      run (lift_res_run _ s _ Hval). by run Erun.
    + exists s, meta, E. rewrite (Hins (Ok (tt, s))).
      * split_and!; try done. lia.
      * unfold HnswInsertTuple. rewrite (M_bind_run _ _ s s s) by done. cbv zeta. by run (lift_res_run _ s _ Hval).
  - injection Hval as <-. exists s, meta, E. split_and!; try done. lia.
Qed.

(** An error of the value is the error of the insertion. *)
Lemma hnswinsert_error fuel s value e tid random : index_value (index s) value = Err e ->
  hnswinsert garbage fuel value tid random s = Err e.
Proof using Type.
  destruct value as [v0|]; [|done]. intros He. unfold hnswinsert, HnswInsertTuple, mbind, M_bind, lift_res. simpl.
  change (HnswFormIndexValue v0 (HnswGetTypeInfo (index s)) (HnswInitSupport (index s)) = Err e) in He. by rewrite He.
Qed.
End Row.
