(* ===== verification/HnswVacuum.v ===== *)
(** * Vacuum of the index

    src/pgvec/src/backend/access/hnsw/hnswvacuum.c: removal of the heap TIDs the
    callback reports as dead, repair of the graph around the elements that lost
    all of theirs, marking of these elements as deleted.

    [HnswVacuumState] is split into its constant part (the Context of the
    section) and the fields that change.  Its element [highestPoint] is kept at
    an address like any other element. *)

From Stdlib Require Import SpecFloat.
From S2P Require Import Prelude CFloat VectorType ItemPtr HnswData BufPage Backend HnswUtils.
From S2P Require Import SearchLayer QSort SelectNeighbors FindNeighbors HnswInsert.

(** ** Statistics and results *)

Record IndexBulkDeleteResult := mkBulkDelete {
  num_pages : Z;
  num_index_tuples : Z;
  tuples_removed : Z
}.
Definition zero_stats : IndexBulkDeleteResult := mkBulkDelete 0 0 0.

Definition add_removed (n : Z) (st : IndexBulkDeleteResult) : IndexBulkDeleteResult :=
  mkBulkDelete (num_pages st) (num_index_tuples st) (tuples_removed st + n).
Definition add_kept (n : Z) (st : IndexBulkDeleteResult) : IndexBulkDeleteResult :=
  mkBulkDelete (num_pages st) (num_index_tuples st + n) (tuples_removed st).

(** The elements that lost all their heap TIDs. *)
Definition DeletedContains (deleted : gset ItemPointerData) (indextid : ItemPointerData) : bool :=
  bool_decide (indextid ∈ deleted).

(** ** Heap TIDs of an element *)

(** The loop over the heap TIDs: [n] of them from [i]; [idx] is the end of those
    kept, which move to the front.  Reading past the array is not defined. *)
Fixpoint remove_tids (callback : ItemPointerData -> bool) (n i idx : nat) (htids : list ItemPointerData)
    (st : IndexBulkDeleteResult) (itemUpdated : bool) : res (list ItemPointerData * nat * IndexBulkDeleteResult * bool) :=
  match n with
  | O => Ok (htids, idx, st, itemUpdated)
  | S n' =>
      tid ← of_option UndefinedBehaviour (htids !! i) ;
      if negb (ItemPointerIsValid tid) then Ok (htids, idx, st, itemUpdated)
      else if callback tid then remove_tids callback n' (S i) idx htids (add_removed 1 st) true
      else remove_tids callback n' (S i) (S idx) (<[idx := tid]> htids) (add_kept 1 st) itemUpdated
  end.

(** The heap TIDs after the removal, and whether any was removed. *)
Definition remove_item_tids (callback : ItemPointerData -> bool) (htids : list ItemPointerData) (st : IndexBulkDeleteResult)
    : res (list ItemPointerData * IndexBulkDeleteResult * bool) :=
  first ← of_option UndefinedBehaviour (htids !! 0%nat) ;
  if ItemPointerIsValid first then
    '(htids, idx, st, itemUpdated) ← remove_tids callback (Z.to_nat HNSW_HEAPTIDS) 0 0 htids st false ;
    Ok (if itemUpdated : bool
        then (take idx htids ++ replicate (length htids - idx) ItemPointerSetInvalid, st, true)
        else (htids, st, false))
  else Ok (htids, st, false).

Definition et_set_heaptids (htids : list ItemPointerData) (etup : HnswElementTupleData) : HnswElementTupleData :=
  mkHnswElementTuple (et_level etup) (et_deleted etup) (et_version etup) htids (et_neighbortid etup)
    (et_unused etup) (et_data etup).

(** [heaptids[0]] is not valid: the element is being deleted. *)
Definition is_empty_element (etup : HnswElementTupleData) : res bool :=
  first ← of_option UndefinedBehaviour (et_heaptids etup !! 0%nat) ; Ok (negb (ItemPointerIsValid first)).

(** ** The first pass *)

Record RemoveState := mkRemoveState {
  rs_deleted : gset ItemPointerData;
  rs_stats : IndexBulkDeleteResult;
  rs_highestLevel : Z;
  rs_updated : bool
}.

Section Vacuum.
Context `{Palloc} `{ListSort} `{Libm}.
Context (garbage : HnswCandidate) (callback : ItemPointerData -> bool).
Context (m efConstruction : Z) (support : HnswSupport) (highestPoint : addr).

Definition is_entry (entryPoint : addr) (blkno : BlockNumber) (offno : OffsetNumber) : M Backend bool :=
  if (entryPoint =? NULL)%N then mret false
  else en ← load_element entryPoint ; mret ((blkno =? el_blkno en) && (offno =? el_offno en)).

(** One item of the page image. *)
Definition remove_item (entryPoint : addr) (page : PageRef) (blkno : BlockNumber) (offno : OffsetNumber) (rs : RemoveState)
    : M Backend RemoveState :=
  p ← read_page MAIN_FORKNUM page ;
  tup ← get_tuple p offno ;
  match tup with
  | NeighborTuple _ => mret rs
  | ElementTuple etup =>
      '(htids, st, itemUpdated) ← lift_res (remove_item_tids callback (et_heaptids etup) (rs_stats rs)) ;
      let etup := et_set_heaptids htids etup in
      write_page MAIN_FORKNUM page (PageSetItem p offno (ElementTuple etup)) ;;
      let updated := rs_updated rs || itemUpdated in
      empty ← lift_res (is_empty_element etup) ;
      if (empty : bool) then
        mret (mkRemoveState ({[ ItemPointerSet blkno offno ]} ∪ rs_deleted rs) st (rs_highestLevel rs) updated)
      else if rs_highestLevel rs <? et_level etup then
        entry ← is_entry entryPoint blkno offno ;
        if (entry : bool) then mret (mkRemoveState (rs_deleted rs) st (rs_highestLevel rs) updated)
        else
          modify_element highestPoint (fun e => el_set_level (u8 (et_level etup)) (el_set_tid blkno offno e)) ;;
          mret (mkRemoveState (rs_deleted rs) st (et_level etup) updated)
      else mret (mkRemoveState (rs_deleted rs) st (rs_highestLevel rs) updated)
  end.

(** The offset numbers of a page. *)
Definition offsets_of (p : Page) : list OffsetNumber :=
  (fun i => Z.of_nat i + 1) <$> seq 0 (Z.to_nat (PageGetMaxOffsetNumber p)).

(** [fuel] bounds the number of pages. *)
Fixpoint remove_pages (fuel : nat) (entryPoint : addr) (blkno : BlockNumber) (rs : RemoveState) : M Backend RemoveState :=
  if negb (BlockNumberIsValid blkno) then mret rs
  else
    match fuel with
    | O => throw OutOfFuel
    | S fuel =>
        buf ← ReadBuffer blkno ;
        page ← open_page MAIN_FORKNUM false buf ;
        p ← read_page MAIN_FORKNUM page ;
        rs ← mfor (offsets_of p) (mkRemoveState (rs_deleted rs) (rs_stats rs) (rs_highestLevel rs) false)
               (remove_item entryPoint page blkno) ;
        p ← read_page MAIN_FORKNUM page ;
        (if rs_updated rs then GenericXLogFinish MAIN_FORKNUM else GenericXLogAbort) ;;
        remove_pages fuel entryPoint (nextblkno p) rs
    end.

(** The deleted elements and the statistics. *)
Definition RemoveHeapTids (fuel : nat) (stats : IndexBulkDeleteResult) : M Backend (gset ItemPointerData * IndexBulkDeleteResult) :=
  entryPoint ← HnswGetEntryPoint ;
  modify_element highestPoint (el_set_tid InvalidBlockNumber InvalidOffsetNumber) ;;
  rs ← remove_pages fuel entryPoint HNSW_HEAD_BLKNO (mkRemoveState ∅ stats (-1) false) ;
  mret (rs_deleted rs, rs_stats rs).

(** ** Repair of the graph *)

(** [n] neighbors from index [i]. *)
Fixpoint any_deleted (deleted : gset ItemPointerData) (ntup : HnswNeighborTupleData) (i : Z) (n : nat) : res bool :=
  match n with
  | O => Ok false
  | S n' =>
      indextid ← indextid_at ntup i ;
      if negb (ItemPointerIsValid indextid) then any_deleted deleted ntup (i + 1) n'
      else if DeletedContains deleted indextid then Ok true
      else any_deleted deleted ntup (i + 1) n'
  end.

Definition needs_updated (deleted : gset ItemPointerData) (ntup : HnswNeighborTupleData) : res bool :=
  needsUpdated ← any_deleted deleted ntup 0 (Z.to_nat (nt_count ntup)) ;
  if (needsUpdated : bool) then Ok true
  else last ← indextid_at ntup (nt_count ntup - 1) ; Ok (negb (ItemPointerIsValid last)).

Definition NeedsUpdated (deleted : gset ItemPointerData) (element : addr) : M Backend bool :=
  el ← load_element element ;
  buf ← ReadBuffer (el_neighborPage el) ;
  page ← read_page MAIN_FORKNUM (BufferPage buf) ;
  tup ← get_tuple page (el_neighborOffno el) ;
  ntup ← lift_res (as_neighbor tup) ;
  lift_res (needs_updated deleted ntup).

Definition is_same_element (element entryPoint : addr) : M Backend bool :=
  if (entryPoint =? NULL)%N then mret false
  else el ← load_element element ; en ← load_element entryPoint ; mret (same_tid el en).

Definition RepairGraphElement (fuel : nat) (element entryPoint : addr) : M Backend unit :=
  el ← load_element element ;
  let ntupSize := HNSW_NEIGHBOR_TUPLE_SIZE (el_level el) m in
  skip ← is_same_element element entryPoint ;
  if (skip : bool) then mret tt
  else
    modify_element element (fun e => el_set_heaptids [] (HnswInitNeighbors e)) ;;
    HnswFindElementNeighbors (hc_closer garbage) fuel NULL element false support m entryPoint efConstruction true ;;
    ntup ← HnswSetNeighborTuple NULL element m ;
    el ← load_element element ;
    buf ← ReadBuffer (el_neighborPage el) ;
    page ← open_page MAIN_FORKNUM false buf ;
    p ← read_page MAIN_FORKNUM page ;
    '(ok, p) ← lift_res (PageIndexTupleOverwrite p (el_neighborOffno el) (NeighborTuple ntup) ntupSize) ;
    lift_res (raise_if (negb ok) ERR_failed_to_add_index_item) ;;
    write_page MAIN_FORKNUM page p ;;
    GenericXLogFinish MAIN_FORKNUM ;;
    HnswUpdateNeighborsOnDisk garbage support element m true false.

(** [HnswLoadElement] without a distance. *)
Definition load_for_repair (element : addr) : M Backend unit :=
  _ ← HnswLoadElement element None support true None ; mret tt.

Definition repair_if_needed (fuel : nat) (deleted : gset ItemPointerData) (element entryPoint : addr) : M Backend unit :=
  needs ← NeedsUpdated deleted element ;
  if (needs : bool) then RepairGraphElement fuel element entryPoint else mret tt.

Definition RepairGraphEntryPoint (fuel : nat) (deleted : gset ItemPointerData) : M Backend unit :=
  hp ← load_element highestPoint ;
  let highest := if BlockNumberIsValid (el_blkno hp) then highestPoint else NULL in
  (if (highest =? NULL)%N then mret tt
   else
     load_for_repair highest ;;
     needs ← NeedsUpdated deleted highest ;
     if (needs : bool) then
       entryPoint ← HnswGetEntryPoint ;
       RepairGraphElement fuel highest entryPoint
     else mret tt) ;;
  entryPoint ← HnswGetEntryPoint ;
  if (entryPoint =? NULL)%N then mret tt
  else
    en ← load_element entryPoint ;
    if DeletedContains deleted (ItemPointerSet (el_blkno en) (el_offno en)) then
      HnswUpdateMetaPage HNSW_UPDATE_ENTRY_ALWAYS highest InvalidBlockNumber MAIN_FORKNUM false
    else
      load_for_repair entryPoint ;;
      needs ← NeedsUpdated deleted entryPoint ;
      if (needs : bool) then
        (if (highest =? NULL)%N then mret tt else modify_element highest (el_set_neighbors None)) ;;
        RepairGraphElement fuel entryPoint highest
      else mret tt.

(** The live element of an item, loaded into memory. *)
Definition load_item (p : Page) (blkno : BlockNumber) (offno : OffsetNumber) (elements : list addr) : M Backend (list addr) :=
  tup ← get_tuple p offno ;
  match tup with
  | NeighborTuple _ => mret elements
  | ElementTuple etup =>
      empty ← lift_res (is_empty_element etup) ;
      if (empty : bool) then mret elements
      else
        element ← HnswInitElementFromBlock blkno offno ;
        modify_element element (fun e => HnswLoadElementFromTuple e etup false true) ;;
        mret (elements ++ [element])
  end.

Definition repair_item (fuel : nat) (deleted : gset ItemPointerData) (element : addr) (_ : unit) : M Backend unit :=
  needs ← NeedsUpdated deleted element ;
  if negb needs then mret tt
  else
    entryPoint ← HnswGetEntryPoint ;
    better ← better_entry element entryPoint ;
    entryPoint ← (if (better : bool) then HnswGetEntryPoint else mret entryPoint) ;
    RepairGraphElement fuel element entryPoint ;;
    better ← better_entry element entryPoint ;
    if (better : bool)
    then HnswUpdateMetaPage HNSW_UPDATE_ENTRY_GREATER element InvalidBlockNumber MAIN_FORKNUM false
    else mret tt.

Fixpoint repair_pages (fuel : nat) (deleted : gset ItemPointerData) (blkno : BlockNumber) : M Backend unit :=
  if negb (BlockNumberIsValid blkno) then mret tt
  else
    match fuel with
    | O => throw OutOfFuel
    | S fuel' =>
        buf ← ReadBuffer blkno ;
        p ← read_page MAIN_FORKNUM (BufferPage buf) ;
        elements ← mfor (offsets_of p) [] (load_item p blkno) ;
        mfor elements tt (repair_item fuel' deleted) ;;
        repair_pages fuel' deleted (nextblkno p)
    end.

Definition RepairGraph (fuel : nat) (deleted : gset ItemPointerData) : M Backend unit :=
  RepairGraphEntryPoint fuel deleted ;;
  repair_pages fuel deleted HNSW_HEAD_BLKNO.

(** ** Marking as deleted *)

(** The next version; 0 is never used again. *)
Definition next_version (version : Z) : Z := if 15 <? u8 (version + 1) then 1 else u8 (version + 1).

(** The bytes of the value, overwritten with zeroes. *)
Definition zero_data (v : Vector) : Vector := mkVector 0 0 0 (replicate (length (x v)) (S754_zero false)).

Definition mark_element (etup : HnswElementTupleData) : HnswElementTupleData :=
  mkHnswElementTuple (et_level etup) 1 (next_version (et_version etup)) (et_heaptids etup) (et_neighbortid etup)
    (et_unused etup) (zero_data (et_data etup)).

(** Writing past the TIDs of the tuple is not defined. *)
Definition mark_neighbors (version : Z) (ntup : HnswNeighborTupleData) : res HnswNeighborTupleData :=
  raise_if (Z.of_nat (length (nt_indextids ntup)) <? nt_count ntup) UndefinedBehaviour ;;
  Ok (mkHnswNeighborTuple version (nt_count ntup)
        (replicate (Z.to_nat (nt_count ntup)) ItemPointerSetInvalid ++ drop (Z.to_nat (nt_count ntup)) (nt_indextids ntup))).

(** An item of the page, and the insert page so far; the record of a marked
    element is finished and a new one started. *)
Definition mark_item (blkno : BlockNumber) (offno : OffsetNumber) (insertPage : BlockNumber) : M Backend BlockNumber :=
  let page := ImagePage blkno in
  p ← read_page MAIN_FORKNUM page ;
  tup ← get_tuple p offno ;
  let first_free := if negb (BlockNumberIsValid insertPage) then blkno else insertPage in
  match tup with
  | NeighborTuple _ => mret insertPage
  | ElementTuple etup =>
      if negb (et_deleted etup =? 0) then mret first_free
      else
        empty ← lift_res (is_empty_element etup) ;
        if negb empty then mret insertPage
        else
          let neighborPage := ItemPointerGetBlockNumber (et_neighbortid etup) in
          let neighborOffno := ItemPointerGetOffsetNumber (et_neighbortid etup) in
          npage ← (if neighborPage =? blkno then mret page
                   else nbuf ← ReadBuffer neighborPage ; GenericXLogRegisterBuffer MAIN_FORKNUM nbuf) ;
          np ← read_page MAIN_FORKNUM npage ;
          ntup ← get_tuple np neighborOffno ;
          ntup ← lift_res (as_neighbor ntup) ;
          let etup := mark_element etup in
          modify_page MAIN_FORKNUM page (fun p => PageSetItem p offno (ElementTuple etup)) ;;
          ntup ← lift_res (mark_neighbors (et_version etup) ntup) ;
          modify_page MAIN_FORKNUM npage (fun p => PageSetItem p neighborOffno (NeighborTuple ntup)) ;;
          GenericXLogFinish MAIN_FORKNUM ;;
          open_page MAIN_FORKNUM false blkno ;;
          mret first_free
  end.

Fixpoint mark_pages (fuel : nat) (blkno insertPage : BlockNumber) : M Backend BlockNumber :=
  if negb (BlockNumberIsValid blkno) then mret insertPage
  else
    match fuel with
    | O => throw OutOfFuel
    | S fuel =>
        buf ← ReadBuffer blkno ;
        page ← open_page MAIN_FORKNUM false buf ;
        p ← read_page MAIN_FORKNUM page ;
        insertPage ← mfor (offsets_of p) insertPage (mark_item blkno) ;
        p ← read_page MAIN_FORKNUM page ;
        GenericXLogAbort ;;
        mark_pages fuel (nextblkno p) insertPage
    end.

Definition MarkDeleted (fuel : nat) : M Backend unit :=
  insertPage ← mark_pages fuel HNSW_HEAD_BLKNO InvalidBlockNumber ;
  HnswUpdateMetaPage 0 NULL insertPage MAIN_FORKNUM false.
End Vacuum.

(** ** The two calls of the access method *)

Definition hnswbulkdelete `{Palloc} `{ListSort} `{Libm} (garbage : HnswCandidate) (fuel : nat)
    (stats : option IndexBulkDeleteResult) (callback : ItemPointerData -> bool) : M Backend IndexBulkDeleteResult :=
  s ← get_state ;
  let efConstruction := HnswGetEfConstruction (index s) in
  let support := HnswInitSupport (index s) in
  m ← HnswGetMetaPageM ;
  highestPoint ← palloc_element uninit ;
  '(deleted, stats) ← RemoveHeapTids callback highestPoint fuel (default zero_stats stats) ;
  RepairGraph garbage m efConstruction support highestPoint fuel deleted ;;
  MarkDeleted fuel ;;
  mret stats.

Definition hnswvacuumcleanup (analyze_only : bool) (stats : option IndexBulkDeleteResult)
    : M Backend (option IndexBulkDeleteResult) :=
  if analyze_only then mret stats
  else
    match stats with
    | None => mret None
    | Some st =>
        s ← get_state ;
        mret (Some (mkBulkDelete (Z.of_nat (length (rd_main (index s)))) (num_index_tuples st) (tuples_removed st)))
    end.
