(* ===== verification/VacuumSpec.v ===== *)
(** * Vacuum: what the first pass does

    The removal of dead heap TIDs over the chain of pages (HnswVacuum.v).  The
    marking of deleted elements is in MarkSpec.v. *)

From S2P Require Import Prelude CFloat ItemPtr VectorType HnswData BufPage Backend HnswUtils.
From S2P Require Import LayerRefinement PageUpdate MetaPage Tuples HnswInsert InsertSpec AddElement HnswVacuum.

(** ** Heap TIDs of one element *)

Section Clean.
Context (callback : ItemPointerData -> bool).

Definition kept (l : list ItemPointerData) : list ItemPointerData := List.filter (fun t => negb (callback t)) (valid_prefix l).
Definition removed (l : list ItemPointerData) : list ItemPointerData := List.filter callback (valid_prefix l).

(** The heap TIDs that stay, moved to the front. *)
Definition clean_tids (l : list ItemPointerData) : list ItemPointerData :=
  kept l ++ replicate (10 - length (kept l)) ItemPointerSetInvalid.

Definition clean_stats (l : list ItemPointerData) (st : IndexBulkDeleteResult) : IndexBulkDeleteResult :=
  add_kept (Z.of_nat (length (kept l))) (add_removed (Z.of_nat (length (removed l))) st).

Lemma length_kept_removed l : (length (kept l) + length (removed l) = length (valid_prefix l))%nat.
Proof.
  unfold kept, removed. induction (valid_prefix l) as [|t v IH]; simpl; [done|]. destruct (callback t); simpl; lia.
Qed.

Lemma kept_valid l : Forall (fun t => ItemPointerIsValid t = true) (kept l).
Proof.
  unfold kept. pose proof (valid_prefix_Forall l) as Hv. induction Hv as [|t v Ht Hv IH]; simpl; [constructor|].
  destruct (callback t); simpl; [done|by constructor].
Qed.

Lemma valid_prefix_clean l : valid_prefix (clean_tids l) = kept l.
Proof. apply valid_prefix_padded, kept_valid. Qed.

Lemma clean_tids_ok l : heaptids_ok l -> heaptids_ok (clean_tids l).
Proof.
  intros Hok. destruct (heaptids_ok_valid l Hok) as [_ Hle]. pose proof (length_kept_removed l). split.
  - unfold clean_tids. rewrite length_app, length_replicate. lia.
  - exists (kept l). split; [done|apply kept_valid].
Qed.

(** The loop, from number [i]: the array holds what is kept so far, [idx] TIDs,
    then what it held, and from [i] on what is left to look at. *)
Lemma remove_tids_run n : forall v i idx htids st upd,
  (idx <= i)%nat -> (i + n = length htids)%nat -> (length v <= n)%nat ->
  drop i htids = v ++ replicate (n - length v) ItemPointerSetInvalid -> Forall (fun t => ItemPointerIsValid t = true) v ->
  exists htids', remove_tids callback n i idx htids st upd =
    Ok (htids', (idx + length (List.filter (fun t => negb (callback t)) v))%nat,
        add_kept (Z.of_nat (length (List.filter (fun t => negb (callback t)) v)))
          (add_removed (Z.of_nat (length (List.filter callback v))) st),
        upd || existsb callback v) /\
    length htids' = length htids /\
    take (idx + length (List.filter (fun t => negb (callback t)) v)) htids' =
      take idx htids ++ List.filter (fun t => negb (callback t)) v /\
    (idx = i -> existsb callback v = false -> htids' = htids).
Proof.
  induction n as [|n IH]; intros v i idx htids st upd Hi Hn Hv Hd Hval.
  - destruct v; [|simpl in Hv; lia]. exists htids. simpl. rewrite !Nat.add_0_r, app_nil_r, orb_false_r. split; [|done].
    by destruct st as [a b c]; unfold add_kept, add_removed; simpl; rewrite !Z.add_0_r.
  - assert (exists t, htids !! i = Some t /\ drop (S i) htids = tail v ++ replicate (n - length (tail v)) ItemPointerSetInvalid /\
      match v with [] => t = ItemPointerSetInvalid | t' :: _ => t = t' end) as (t & Ht & Hd' & Htv).
    { destruct (lookup_lt_is_Some_2 htids i ltac:(lia)) as [t Ht]. exists t. split; [done|].
      rewrite (drop_S htids t i Ht) in Hd. destruct v as [|t' v]; simpl in Hd; injection Hd as -> Hd; [|done].
      split; [|done]. simpl. rewrite Nat.sub_0_r. done. }
    cbn [remove_tids]. rewrite Ht. cbn [of_option]. rewrite bind_Ok. destruct v as [|t' v].
    + subst t. cbn [negb]. change (ItemPointerIsValid ItemPointerSetInvalid) with false. cbn [negb].
      exists htids. simpl. rewrite !Nat.add_0_r, app_nil_r, orb_false_r. split; [|done].
      by destruct st as [a b c]; unfold add_kept, add_removed; simpl; rewrite !Z.add_0_r.
    + subst t'. inversion Hval as [|? ? Hvt Hvv]; subst. rewrite Hvt. cbn [negb]. simpl in Hv, Hd'.
      simpl List.filter. simpl existsb. destruct (callback t) eqn:Ec; cbn [negb].
      * destruct (IH v (S i) idx htids (add_removed 1 st) true ltac:(lia) ltac:(lia) ltac:(lia) Hd' Hvv) as (h' & Hrun & Hlen & Htake & _).
        exists h'. rewrite Hrun. split; [|split; [done|split; [done|done]]].
        rewrite orb_true_l. simpl. rewrite orb_true_r. f_equal. f_equal. f_equal.
        unfold add_kept, add_removed. simpl. f_equal. lia.
      * assert (length (<[idx := t]> htids) = length htids) as Hli by apply length_insert.
        assert (drop (S i) (<[idx := t]> htids) = v ++ replicate (n - length v) ItemPointerSetInvalid) as Hd2
          by (rewrite drop_insert_lt by lia; done).
        destruct (IH v (S i) (S idx) (<[idx := t]> htids) (add_kept 1 st) upd ltac:(lia) ltac:(lia) ltac:(lia) Hd2 Hvv)
          as (h' & Hrun & Hlen & Htake & Hsame).
        exists h'. rewrite Hrun. split; [|split; [congruence|split]].
        -- simpl. f_equal. f_equal. f_equal; [f_equal; lia|]. unfold add_kept, add_removed. simpl. f_equal. lia.
        -- simpl. replace (idx + S (length (List.filter (fun t => negb (callback t)) v)))%nat with
             (S idx + length (List.filter (fun t => negb (callback t)) v))%nat by lia. rewrite Htake.
           erewrite take_S_r; [|apply list_lookup_insert_eq; lia]. rewrite take_insert_ge by lia. by rewrite <- app_assoc.
        -- intros -> Hex. rewrite Hsame by done. by apply list_insert_id.
Qed.

Lemma existsb_filter v : existsb callback v = negb (bool_decide (List.filter callback v = [])).
Proof. induction v as [|t v IH]; simpl; [done|]. destruct (callback t); simpl; [done|exact IH]. Qed.

Lemma kept_all l : existsb callback (valid_prefix l) = false -> kept l = valid_prefix l.
Proof.
  intros Hex. unfold kept. apply filterb_id. intros t Ht. rewrite negb_true_iff.
  apply not_true_iff_false. intros Hc. apply not_true_iff_false in Hex. apply Hex, existsb_exists.
  exists t. split; [by apply list_elem_of_In|done].
Qed.

Lemma remove_item_tids_run l st : heaptids_ok l ->
  remove_item_tids callback l st = Ok (clean_tids l, clean_stats l st, existsb callback (valid_prefix l)).
Proof.
  intros Hok. destruct (heaptids_ok_valid l Hok) as [Heq Hle]. pose proof Hok as [Hlen _]. unfold remove_item_tids.
  destruct (lookup_lt_is_Some_2 l 0%nat ltac:(lia)) as [first Hf]. rewrite Hf. cbn [of_option]. rewrite bind_Ok.
  destruct (remove_tids_run 10 (valid_prefix l) 0 0 l st false ltac:(lia) ltac:(lia) Hle Heq (valid_prefix_Forall l))
    as (h' & Hrun & Hlen' & Htake & Hsame). cbn [Nat.add] in *.
  fold (kept l) (removed l) in Hrun, Htake. rewrite take_0 in Htake. simpl in Htake.
  destruct (ItemPointerIsValid first) eqn:Ev.
  - change (Z.to_nat HNSW_HEAPTIDS) with 10%nat. rewrite Hrun, bind_Ok. rewrite orb_false_l.
    fold (clean_stats l st). destruct (existsb callback (valid_prefix l)) eqn:Ex.
    + rewrite Htake, Hlen', Hlen. done.
    + unfold clean_tids. rewrite Hsame, (kept_all l Ex), <- Heq by done. done.
  - assert (valid_prefix l = []) as Hnil by (destruct l as [|t l']; [done|]; injection Hf as ->; simpl; by rewrite Ev).
    unfold clean_tids, clean_stats, kept, removed. rewrite Hnil in *. simpl in *. rewrite <- Heq.
    by destruct st as [a b c]; unfold add_kept, add_removed; simpl; rewrite !Z.add_0_r.
Qed.
End Clean.

(** ** Heap TIDs of one page *)

Section CleanPage.
Context (callback : ItemPointerData -> bool).
#[local] Abbreviation kept := (kept callback).

Definition clean_tuple (tup : HnswTuple) : HnswTuple :=
  match tup with
  | ElementTuple et => ElementTuple (et_set_heaptids (clean_tids callback (et_heaptids et)) et)
  | NeighborTuple nt => NeighborTuple nt
  end.
Definition clean_item (it : ItemIdData) : ItemIdData :=
  mkItemId (lp_off it) (lp_flags it) (lp_len it) (clean_tuple <$> lp_item it).

(** The first [k] items are done. *)
Definition clean_upto (k : nat) (p : Page) : Page :=
  set_bounds (pd_lower p) (pd_upper p) ((clean_item <$> take k (pd_linp p)) ++ drop k (pd_linp p)) p.
Definition clean_page (p : Page) : Page := set_bounds (pd_lower p) (pd_upper p) (clean_item <$> pd_linp p) p.

Definition item_stats (st : IndexBulkDeleteResult) (it : ItemIdData) : IndexBulkDeleteResult :=
  match lp_item it with Some (ElementTuple et) => clean_stats callback (et_heaptids et) st | _ => st end.
Definition page_stats (st : IndexBulkDeleteResult) (p : Page) : IndexBulkDeleteResult := fold_left item_stats (pd_linp p) st.

(** An element of the page that keeps no heap TID. *)
Definition emptied (p : Page) (off : OffsetNumber) : Prop :=
  exists et, page_tuple p off = Ok (ElementTuple et) /\ kept (et_heaptids et) = [].

Definition item_changed (it : ItemIdData) : bool :=
  match lp_item it with Some (ElementTuple et) => existsb callback (valid_prefix (et_heaptids et)) | _ => false end.

(** The heap TIDs of the elements are in order. *)
Definition page_heaptids_ok (p : Page) : Prop :=
  forall off et, page_tuple p off = Ok (ElementTuple et) -> heaptids_ok (et_heaptids et).

Lemma clean_upto_0 p : clean_upto 0 p = p.
Proof. unfold clean_upto. simpl. rewrite drop_0. by destruct p. Qed.

Lemma clean_upto_all p : clean_upto (length (pd_linp p)) p = clean_page p.
Proof. unfold clean_upto, clean_page. rewrite firstn_all, drop_all. by rewrite app_nil_r. Qed.

Lemma clean_upto_lookup k p : pd_linp (clean_upto k p) !! k = pd_linp p !! k.
Proof.
  unfold clean_upto. simpl. destruct (decide (k < length (pd_linp p))%nat).
  - rewrite lookup_app_r by (rewrite length_fmap, length_take; lia). rewrite length_fmap, length_take, lookup_drop.
    f_equal. lia.
  - rewrite !lookup_ge_None_2; rewrite ?length_app, ?length_fmap, ?length_take, ?length_drop; try done; lia.
Qed.

(** Storing the cleaned tuple is the next step. *)
Lemma clean_upto_step k p it tup : pd_linp p !! k = Some it -> lp_item it = Some tup ->
  PageSetItem (clean_upto k p) (Z.of_nat k + 1) (clean_tuple tup) = clean_upto (S k) p.
Proof.
  intros Hit Htup. unfold PageSetItem. replace (Z.to_nat (Z.of_nat k + 1 - 1)) with k by lia.
  unfold clean_upto, set_bounds. simpl. f_equal. pose proof (lookup_lt_Some _ _ _ Hit) as Hlt.
  rewrite (take_S_r _ _ _ Hit), fmap_app, <- app_assoc. rewrite (drop_S _ _ _ Hit). simpl.
  rewrite alter_app_r_alt by (rewrite length_fmap, length_take; lia). f_equal.
  rewrite length_fmap, length_take. replace (k - min k (length (pd_linp p)))%nat with 0%nat by lia.
  simpl. unfold clean_item, set_item. by rewrite Htup.
Qed.

Lemma clean_upto_skip k p it : pd_linp p !! k = Some it -> clean_item it = it -> clean_upto (S k) p = clean_upto k p.
Proof.
  intros Hit Hid. unfold clean_upto. f_equal.
  by rewrite (take_S_r _ _ _ Hit), fmap_app, <- app_assoc, (drop_S _ _ _ Hit); simpl; rewrite Hid.
Qed.

Lemma item_unchanged it : (forall et, lp_item it = Some (ElementTuple et) -> heaptids_ok (et_heaptids et)) ->
  item_changed it = false -> clean_item it = it.
Proof.
  intros Hok. unfold item_changed, clean_item. destruct it as [o f len [[et|nt]|]]; simpl in *; try done.
  intros Hex. destruct et as [lv del ver htids nb un data]. simpl in *. unfold et_set_heaptids, clean_tids. simpl.
  rewrite (kept_all callback _ Hex). specialize (Hok _ eq_refl). simpl in Hok.
  by destruct (heaptids_ok_valid _ Hok) as [<- _].
Qed.

Lemma clean_page_id p : page_ok p -> page_heaptids_ok p -> existsb item_changed (pd_linp p) = false -> clean_page p = p.
Proof.
  intros Hok Hh Hex. unfold clean_page. assert (clean_item <$> pd_linp p = pd_linp p) as ->; [|by destruct p].
  rewrite <- (list_fmap_id (pd_linp p)) at 2. apply list_fmap_ext. intros i it Hit. apply item_unchanged.
  - intros et Het. apply (Hh (Z.of_nat i + 1)). apply page_tuple_lookup. exists it.
    replace (Z.to_nat (Z.of_nat i + 1 - 1)) with i by lia. split; [lia|done].
  - apply not_true_iff_false. intros Hc. apply not_true_iff_false in Hex. apply Hex, existsb_exists.
    exists it. split; [|done]. apply list_elem_of_In. by eapply list_elem_of_lookup_2.
Qed.

Lemma clean_page_tuple p off : page_tuple (clean_page p) off =
  match page_tuple p off with Ok tup => Ok (clean_tuple tup) | Err e => Err e end.
Proof.
  unfold page_tuple, PageGetItemId, clean_page. destruct (off <? 1); [done|]. simpl. rewrite list_lookup_fmap.
  destruct (pd_linp p !! Z.to_nat (off - 1)) as [it|]; [|done]. simpl. unfold PageGetItem. simpl.
  by destruct (lp_item it).
Qed.

Lemma clean_page_ok p : page_ok p -> page_ok (clean_page p).
Proof.
  intros [H1 H2 H3 H4 H5 H6 H7 H8]. split; try done; [by simpl; rewrite length_fmap| |].
  - simpl. apply list.Forall_fmap. eapply List.Forall_impl; [|exact H7].
    intros it (? & ? & ? & ? & ? & [t Ht]). unfold item_ok, item_end in *. simpl. rewrite Ht. by split_and!.
  - intros i j a b Hij. simpl. rewrite !list_lookup_fmap. intros (a0 & Ha & ->)%fmap_Some (b0 & Hb & ->)%fmap_Some.
    exact (H8 i j a0 b0 Hij Ha Hb).
Qed.
End CleanPage.

(** ** The first pass over one page *)

(** Nothing but the element [hp] changes. *)
Definition only_element (hp : addr) (s s' : Backend) : Prop :=
  index s' = index s /\ xlog s' = xlog s /\ (forall a, a <> hp -> mem s' !! a = mem s !! a) /\
  (is_Some (mem s !! hp) -> is_Some (mem s' !! hp)).

#[export] Instance only_element_preorder hp : PreOrder (only_element hp).
Proof.
  split; [by intros s|]. intros s1 s2 s3 (A1 & A2 & A3 & A4) (B1 & B2 & B3 & B4).
  split; [congruence|]. split; [congruence|]. split; [|auto]. intros a Ha. by rewrite B3, A3.
Qed.

Lemma only_element_some hp s s' a : only_element hp s s' -> is_Some (mem s !! a) -> is_Some (mem s' !! a).
Proof. intros (_ & _ & H3 & H4) Ha. destruct (decide (a = hp)) as [->|Hne]; [by apply H4|]. by rewrite H3. Qed.

(** The entry point as it is held in memory, NULL for none. *)
Definition entry_held (highestPoint entryPoint : addr) (entry : option (BlockNumber * OffsetNumber)) (s : Backend) : Prop :=
  match entry with
  | None => entryPoint = NULL
  | Some (b, off) => entryPoint <> NULL /\ entryPoint <> highestPoint /\
      exists en, mem s !! entryPoint = Some en /\ el_blkno en = b /\ el_offno en = off
  end.

Lemma entry_held_kept hp entryPoint entry s s' : only_element hp s s' -> entry_held hp entryPoint entry s -> entry_held hp entryPoint entry s'.
Proof. intros (_ & _ & Hm & _). destruct entry as [[b off]|]; [|done]. intros (Hn & Hne & Hen). by rewrite <- (Hm entryPoint Hne) in Hen. Qed.

(** The element kept at [hp] is one of the highest level in [P], if [P] has any. *)
Definition highest_of (P : BlockNumber -> OffsetNumber -> HnswElementTupleData -> Prop) (hp : addr) (level : Z) (s : Backend) : Prop :=
  (forall b off et, P b off et -> et_level et <= level) /\
  exists e, mem s !! hp = Some e /\
    if BlockNumberIsValid (el_blkno e) then exists et, P (el_blkno e) (el_offno e) et /\ et_level et = level else level = -1.

Lemma highest_of_keep (P P' : BlockNumber -> OffsetNumber -> HnswElementTupleData -> Prop) hp level s :
  (forall b off et, P b off et -> P' b off et) -> (forall b off et, P' b off et -> P b off et \/ et_level et <= level) ->
  highest_of P hp level s -> highest_of P' hp level s.
Proof.
  intros H1 H2 [Hmax (e & He & Hv)]. split.
  - intros b off et [HP|Hle]%H2; [by eapply Hmax|done].
  - exists e. split; [done|]. destruct (BlockNumberIsValid _); [|done]. destruct Hv as (et & HP & Hl). exists et. auto.
Qed.

Lemma highest_of_new (P P' : BlockNumber -> OffsetNumber -> HnswElementTupleData -> Prop) hp level b off et e s :
  highest_of P hp level s -> level < et_level et -> BlockNumberIsValid b = true -> P' b off et ->
  (forall c o e, P' c o e -> P c o e \/ et_level e <= et_level et) ->
  highest_of P' hp (et_level et) (mkBackend (<[hp := el_set_level (u8 (et_level et)) (el_set_tid b off e)]> (mem s)) (index s) (xlog s)).
Proof.
  intros [Hmax _] Hlt Hb HP H2. split.
  - intros c o e' [HP'|Hle]%H2; [|done]. specialize (Hmax _ _ _ HP'). lia.
  - eexists. split; [simpl; by rewrite lookup_insert_eq|]. simpl. rewrite Hb. by exists et.
Qed.

Section RemovePage.
Context (callback : ItemPointerData -> bool) (highestPoint entryPoint : addr) (entry : option (BlockNumber * OffsetNumber)).
Context (P0 : BlockNumber -> OffsetNumber -> HnswElementTupleData -> Prop).
Context (s : Backend) (b : BlockNumber) (p : Page) (rs0 : RemoveState).
Context (Hx : xlog s = None) (Hb1 : 1 <= b) (Hb : block (rd_main (index s)) b = Some p).
Context (Hok : page_ok p) (Hh : page_heaptids_ok p).
Context (Hbv : BlockNumberIsValid b = true).
Context (Hhp : highest_of P0 highestPoint (rs_highestLevel rs0) s) (Hep : entry_held highestPoint entryPoint entry s).

#[local] Abbreviation clean := (clean_upto callback).
#[local] Abbreviation open := (session MAIN_FORKNUM false).

(** The elements so far that keep heap TIDs, the entry point apart. *)
Definition live_upto (k : nat) (c : BlockNumber) (o : OffsetNumber) (et : HnswElementTupleData) : Prop :=
  P0 c o et \/ c = b /\ o <= Z.of_nat k /\ page_tuple p o = Ok (ElementTuple et) /\ kept callback (et_heaptids et) <> [] /\ entry <> Some (b, o).

(** After [k] items. *)
Record remove_inv (k : nat) (rs : RemoveState) (s' : Backend) : Prop := {
  ri_state : exists s1, s' = open [(b, clean k p)] s1 /\ only_element highestPoint s s1 /\
    highest_of (live_upto k) highestPoint (rs_highestLevel rs) s1;
  ri_deleted t : t ∈ rs_deleted rs <-> t ∈ rs_deleted rs0 \/
    exists i, (i < k)%nat /\ emptied callback p (Z.of_nat i + 1) /\ t = ItemPointerSet b (Z.of_nat i + 1);
  ri_stats : rs_stats rs = fold_left (item_stats callback) (take k (pd_linp p)) (rs_stats rs0);
  ri_updated : rs_updated rs = rs_updated rs0 || existsb (item_changed callback) (take k (pd_linp p))
}.

Lemma open_page_facts k s1 : only_element highestPoint s s1 ->
  images_ok (rd_main (index s1)) [(b, clean k p)] /\ image [(b, clean k p)] b = Some (clean k p).
Proof.
  intros (Hi & _). split; [|simpl; by rewrite decide_True]. rewrite Hi.
  destruct (session1_ok s b p Hb1 Hb) as [_ Hr]. split; [apply NoDup_singleton|]. inversion Hr; subst. constructor; [done|constructor].
Qed.

Lemma is_entry_run s1 l off : only_element highestPoint s s1 ->
  is_entry entryPoint b off (open l s1) = Ok (bool_decide (entry = Some (b, off)), open l s1).
Proof.
  intros Ho. pose proof (entry_held_kept _ _ _ _ _ Ho Hep) as Hep1. unfold is_entry, entry_held in *.
  destruct entry as [[eb eo]|]; [|by rewrite Hep1]. destruct Hep1 as (Hn & _ & en & Hen & <- & <-).
  destruct (N.eqb_spec entryPoint NULL); [done|].
  assert (mem (open l s1) !! entryPoint = Some en) as Hen' by (by rewrite mem_session). run (load_element_run _ _ _ Hen').
  unfold mret, M_ret. do 2 f_equal. destruct (Z.eqb_spec b (el_blkno en)) as [->|Hb2]; [|symmetry; apply bool_decide_eq_false; congruence].
  destruct (Z.eqb_spec off (el_offno en)) as [->|Ho2]; symmetry; [by apply bool_decide_eq_true|apply bool_decide_eq_false; congruence].
Qed.

(** The next item adds at most the element it is. *)
Lemma live_upto_S k c o et : live_upto (S k) c o et -> live_upto k c o et \/
  c = b /\ o = Z.of_nat k + 1 /\ page_tuple p o = Ok (ElementTuple et) /\ kept callback (et_heaptids et) <> [] /\ entry <> Some (b, o).
Proof.
  intros [H0|(-> & Ho & H1)]; [by left; left|]. destruct (decide (o = Z.of_nat k + 1)) as [->|Hne]; [by right|].
  left. right. split; [done|]. split; [lia|done].
Qed.

Lemma live_upto_le k c o et : live_upto k c o et -> live_upto (S k) c o et.
Proof. intros [H0|(-> & Ho & H1)]; [by left|right]. split; [done|]. split; [lia|done]. Qed.

Lemma highest_keep k level s1 :
  (forall et, page_tuple p (Z.of_nat k + 1) = Ok (ElementTuple et) -> kept callback (et_heaptids et) <> [] ->
     entry <> Some (b, Z.of_nat k + 1) -> et_level et <= level) ->
  highest_of (live_upto k) highestPoint level s1 -> highest_of (live_upto (S k)) highestPoint level s1.
Proof.
  intros Hle. apply highest_of_keep; [apply live_upto_le|]. intros c o et [H0|(-> & -> & H1 & H2 & H3)]%live_upto_S; [by left|right; by apply Hle].
Qed.

Lemma is_empty_clean et : heaptids_ok (et_heaptids et) ->
  is_empty_element (et_set_heaptids (clean_tids callback (et_heaptids et)) et) = Ok (bool_decide (kept callback (et_heaptids et) = [])).
Proof.
  intros He. unfold is_empty_element, clean_tids. cbn [et_set_heaptids et_heaptids].
  pose proof (kept_valid callback (et_heaptids et)) as Hv. destruct (kept callback (et_heaptids et)) as [|t v]; [done|].
  inversion Hv as [|? ? Ht _]; subst. cbn [app lookup list_lookup of_option]. rewrite bind_Ok, Ht. by rewrite bool_decide_false.
Qed.

(** An item that is not an emptied element changes only the element kept at
    [highestPoint]. *)
Lemma remove_inv_keep k it rs s' rs' s1 : (k < length (pd_linp p))%nat -> pd_linp p !! k = Some it ->
  remove_inv k rs s' ->
  rs_deleted rs' = rs_deleted rs -> ~ emptied callback p (Z.of_nat k + 1) ->
  rs_stats rs' = item_stats callback (rs_stats rs) it -> rs_updated rs' = rs_updated rs || item_changed callback it ->
  only_element highestPoint s s1 -> highest_of (live_upto (S k)) highestPoint (rs_highestLevel rs') s1 ->
  remove_inv (S k) rs' (open [(b, clean (S k) p)] s1).
Proof.
  intros Hk Hit [H1 H2 H3 H4] Hd Hne Hst Hup Ho Hhi. split.
  - by exists s1.
  - intros t. rewrite Hd, H2. split; intros [Ht|(i & Hi & He & Ht)]; auto.
    + right. exists i. split; [lia|done].
    + right. exists i. split; [|done]. destruct (decide (i = k)) as [->|]; [done|lia].
  - by rewrite Hst, H3, (take_S_r _ _ _ Hit), fold_left_app.
  - rewrite Hup, H4, (take_S_r _ _ _ Hit), existsb_app. simpl. by rewrite orb_false_r, orb_assoc.
Qed.

Lemma remove_inv_empty k it rs s' rs' s1 : (k < length (pd_linp p))%nat -> pd_linp p !! k = Some it ->
  remove_inv k rs s' ->
  rs_deleted rs' = {[ ItemPointerSet b (Z.of_nat k + 1) ]} ∪ rs_deleted rs -> emptied callback p (Z.of_nat k + 1) ->
  rs_stats rs' = item_stats callback (rs_stats rs) it -> rs_updated rs' = rs_updated rs || item_changed callback it ->
  only_element highestPoint s s1 -> highest_of (live_upto (S k)) highestPoint (rs_highestLevel rs') s1 ->
  remove_inv (S k) rs' (open [(b, clean (S k) p)] s1).
Proof.
  intros Hk Hit [H1 H2 H3 H4] Hd Hne Hst Hup Ho Hhi. split.
  - by exists s1.
  - intros t. rewrite Hd, elem_of_union, elem_of_singleton, H2. split.
    + intros [->|[Ht|(i & Hi & He & Ht)]]; [|by left|].
      * right. exists k. split; [lia|done].
      * right. exists i. split; [lia|done].
    + intros [Ht|(i & Hi & He & Ht)]; [by right; left|]. destruct (decide (i = k)) as [->|]; [by left|].
      right. right. exists i. split; [lia|done].
  - by rewrite Hst, H3, (take_S_r _ _ _ Hit), fold_left_app.
  - rewrite Hup, H4, (take_S_r _ _ _ Hit), existsb_app. simpl. by rewrite orb_false_r, orb_assoc.
Qed.

Lemma remove_item_step k rs s' : (k < length (pd_linp p))%nat -> remove_inv k rs s' ->
  exists rs' s'', remove_item callback highestPoint entryPoint (ImagePage b) b (Z.of_nat k + 1) rs s' = Ok (rs', s'') /\
    remove_inv (S k) rs' s''.
Proof.
  intros Hk Hinv. destruct Hinv as [(s1 & -> & Ho & Hhi) Hdel Hst Hup] eqn:Heq. clear Heq.
  destruct (lookup_lt_is_Some_2 _ _ Hk) as [it Hit]. pose proof (page_item p Hok k it Hit) as (_ & _ & _ & _ & _ & [tup Htup]).
  assert (page_tuple p (Z.of_nat k + 1) = Ok tup) as Hpt.
  { apply page_tuple_lookup. exists it. replace (Z.to_nat (Z.of_nat k + 1 - 1)) with k by lia. split; [lia|done]. }
  assert (page_tuple (clean k p) (Z.of_nat k + 1) = Ok tup) as Hpt'.
  { apply page_tuple_lookup. exists it. replace (Z.to_nat (Z.of_nat k + 1 - 1)) with k by lia. rewrite clean_upto_lookup. split; [lia|done]. }
  destruct (open_page_facts k s1 Ho) as [Hl Him]. unfold remove_item.
  change (ImagePage b) with (page_ref false b).
  run (session_read MAIN_FORKNUM false _ s1 Hl b _ Him). run (get_tuple_run _ _ _ _ Hpt').
  destruct tup as [et|nt].
  2: { eexists _, _. split; [done|]. rewrite <- (clean_upto_skip callback k p it Hit) by (unfold clean_item; rewrite Htup; destruct it; simpl in *; by subst).
       apply (remove_inv_keep k it rs (open [(b, clean k p)] s1)); try done.
       - intros (et & Het & _). congruence.
       - unfold item_stats. by rewrite Htup.
       - unfold item_changed. by rewrite Htup, orb_false_r.
       - apply highest_keep; [|done]. intros et Het. congruence. }
  pose proof (Hh _ _ Hpt) as Het.
  run (lift_res_run _ _ _ (remove_item_tids_run callback _ (rs_stats rs) Het)). cbn zeta.
  run (session_write MAIN_FORKNUM false _ s1 Hl b _ ltac:(by eexists)).
  assert (set_image b (PageSetItem (clean k p) (Z.of_nat k + 1)
    (ElementTuple (et_set_heaptids (clean_tids callback (et_heaptids et)) et))) [(b, clean k p)] = [(b, clean (S k) p)]) as ->.
  { unfold set_image. simpl. rewrite decide_True by done. do 2 f_equal.
    exact (clean_upto_step callback k p it (ElementTuple et) Hit Htup). }
  run (lift_res_run _ _ _ (is_empty_clean et Het)).
  assert (clean_stats callback (et_heaptids et) (rs_stats rs) = item_stats callback (rs_stats rs) it) as Hs by (unfold item_stats; by rewrite Htup).
  assert (existsb callback (valid_prefix (et_heaptids et)) = item_changed callback it) as Hc by (unfold item_changed; by rewrite Htup).
  rewrite Hs, Hc. destruct (bool_decide (kept callback (et_heaptids et) = [])) eqn:Ek.
  { apply bool_decide_eq_true in Ek. eexists _, _. split; [done|].
    apply (remove_inv_empty k it rs (open [(b, clean k p)] s1)); try done; [by exists et|].
    apply highest_keep; [|done]. intros et' Het' Hk'. rewrite Hpt in Het'. by injection Het' as <-. }
  apply bool_decide_eq_false in Ek.
  assert (~ emptied callback p (Z.of_nat k + 1)) as Hne by (intros (et1 & Het1 & Hk1); rewrite Hpt in Het1; injection Het1 as <-; done).
  cbn [et_level et_set_heaptids]. destruct (Z.ltb_spec (rs_highestLevel rs) (et_level et)) as [Hlt|Hge].
  2: { eexists _, _. split; [done|]. apply (remove_inv_keep k it rs (open [(b, clean k p)] s1)); try done.
       apply highest_keep; [|done]. intros et' Het' _ _. rewrite Hpt in Het'. by injection Het' as <-. }
  run (is_entry_run s1 [(b, clean (S k) p)] (Z.of_nat k + 1) Ho). case_bool_decide as Hentry.
  { eexists _, _. split; [done|]. apply (remove_inv_keep k it rs (open [(b, clean k p)] s1)); try done.
    apply highest_keep; [|done]. intros et' _ _ Hne'. by destruct Hne'. }
  pose proof Hhi as [_ (hp & Hhp1 & _)].
  run (session_modify MAIN_FORKNUM false _ s1 highestPoint _ hp Hhp1).
  eexists _, _. split; [done|]. apply (remove_inv_keep k it rs (open [(b, clean k p)] s1)); try done.
  - etrans; [exact Ho|]. split; [done|]. split; [done|]. split; [intros a Ha; simpl; by apply lookup_insert_ne|].
    intros _. simpl. rewrite lookup_insert_eq. by eexists.
  - cbn [rs_highestLevel]. apply (highest_of_new (live_upto k) _ _ (rs_highestLevel rs)); try done.
    + right. split; [done|]. split; [lia|done].
    + intros c o e' [H0|(-> & -> & H1 & _)]%live_upto_S; [by left|right]. rewrite Hpt in H1. by injection H1 as <-.
Qed.

Lemma remove_items_run : rs_updated rs0 = false ->
  exists rs s1, mfor (offsets_of p) rs0 (remove_item callback highestPoint entryPoint (ImagePage b) b) (open [(b, p)] s) =
      Ok (rs, open [(b, clean_page callback p)] s1) /\
    remove_inv (length (pd_linp p)) rs (open [(b, clean_page callback p)] s1) /\ only_element highestPoint s s1 /\
    highest_of (live_upto (length (pd_linp p))) highestPoint (rs_highestLevel rs) s1.
Proof.
  intros Hup. assert (remove_inv 0 rs0 (open [(b, p)] s)) as H0.
  { split; [|intros t|done|by rewrite Hup].
    - exists s. rewrite clean_upto_0. split; [done|]. split; [done|]. apply (highest_of_keep P0); [by left| |done].
      intros c o et [H0|(_ & Ho & (it & H1 & _)%page_tuple_lookup & _)]; [by left|lia].
    - split; [by left|]. intros [Ht|(i & Hi & _)]; [done|lia]. }
  unfold offsets_of. rewrite (PageGetMaxOffsetNumber_eq p Hok), Nat2Z.id.
  destruct (mfor_seq_run remove_inv (remove_item callback highestPoint entryPoint (ImagePage b) b) 0
    (length (pd_linp p)) rs0 _ (fun i rs s' Hi => remove_item_step i rs s' ltac:(lia)) H0) as (rs & s' & Hrun & Hinv).
  cbn [Nat.add] in Hinv. pose proof (ri_state _ _ _ Hinv) as (s1 & Hs' & Ho & Hhi). rewrite clean_upto_all in Hs'.
  exists rs, s1. rewrite <- Hs'. done.
Qed.

(** The whole step for a page, whether the record is finished or dropped. *)
Lemma remove_page_run : rs_updated rs0 = false ->
  exists rs s1,
    (forall A (next : Page -> RemoveState -> M Backend A),
      (page ← open_page MAIN_FORKNUM false b ;
       p ← read_page MAIN_FORKNUM page ;
       rs ← mfor (offsets_of p) rs0 (remove_item callback highestPoint entryPoint page b) ;
       p ← read_page MAIN_FORKNUM page ;
       (if rs_updated rs then GenericXLogFinish MAIN_FORKNUM else GenericXLogAbort) ;;
       next p rs) s = next (clean_page callback p) rs (update_block MAIN_FORKNUM b (clean_page callback p) s1)) /\
    only_element highestPoint s s1 /\
    (forall t, t ∈ rs_deleted rs <-> t ∈ rs_deleted rs0 \/ exists off, emptied callback p off /\ t = ItemPointerSet b off) /\
    rs_stats rs = page_stats callback (rs_stats rs0) p /\
    highest_of (fun c o et => P0 c o et \/ c = b /\ page_tuple p o = Ok (ElementTuple et) /\ kept callback (et_heaptids et) <> [] /\
      entry <> Some (b, o)) highestPoint (rs_highestLevel rs) s1.
Proof.
  intros Hup. destruct (remove_items_run Hup) as (rs & s1 & Hrun & [H1 H2 H3 H4] & Ho & Hhi). exists rs, s1.
  destruct (open_page_facts (length (pd_linp p)) s1 Ho) as [Hl Him]. rewrite clean_upto_all in Hl, Him.
  destruct Ho as (Hi & Hxs & Hm & Hs).
  assert (xlog s1 = None) as Hx1 by congruence. assert (block (rd_main (index s1)) b = Some p) as Hb' by (by rewrite Hi).
  split; [|split; [done|split; [|split]]].
  - intros A next. run (session_open MAIN_FORKNUM false s b p Hb).
    run (session_read MAIN_FORKNUM false [(b, p)] s (session1_ok s b p Hb1 Hb) b p ltac:(simpl; by rewrite decide_True)).
    change (page_ref false b) with (ImagePage b). run Hrun.
    change (ImagePage b) with (page_ref false b). run (session_read MAIN_FORKNUM false _ s1 Hl b _ Him).
    destruct (rs_updated rs) eqn:Eu.
    + change (GenericXLogFinish MAIN_FORKNUM) with (commit_page MAIN_FORKNUM false).
      by run (session_commit MAIN_FORKNUM false _ s1 Hx1).
    + rewrite Hup, orb_false_l, firstn_all in H4. rewrite (clean_page_id callback p Hok Hh) by done.
      change GenericXLogAbort with (abort_page false). run (session_abort MAIN_FORKNUM false b p s1 Hx1 Hb').
      by rewrite update_block_id.
  - intros t. rewrite H2. split; (intros [Ht|Ht]; [by left|right]).
    + destruct Ht as (i & Hlt & He & ->). by exists (Z.of_nat i + 1).
    + destruct Ht as (off & He & ->). pose proof He as (et & Hpt & _). apply page_tuple_lookup in Hpt as (it & Hoff & Hlk & _).
      exists (Z.to_nat (off - 1)). replace (Z.of_nat (Z.to_nat (off - 1)) + 1) with off by lia.
      split; [by eapply lookup_lt_Some|done].
  - by rewrite H3, firstn_all.
  - revert Hhi. apply highest_of_keep.
    + intros c o et [H0|(-> & _ & H0)]; [by left|by right].
    + intros c o et [H0|(-> & Ht & H0)]; left; [by left|right]. split; [done|]. split; [|done].
      apply page_tuple_lookup in Ht as (it & Hoff & Hlk & _). apply lookup_lt_Some in Hlk. lia.
Qed.
End RemovePage.

(** ** The chain of pages *)

Inductive chain_of (rel : Relation) : BlockNumber -> list BlockNumber -> Prop :=
  | chain_end : chain_of rel InvalidBlockNumber []
  | chain_page b p bs : BlockNumberIsValid b = true -> block (rd_main rel) b = Some p ->
      chain_of rel (nextblkno p) bs -> chain_of rel b (b :: bs).

(** On well-formed pages the chain from a page is finite and goes forward. *)
Lemma chain_exists rel b : index_ok rel -> 1 <= b < nlen rel ->
  exists bs, chain_of rel b bs /\ NoDup bs /\ Forall (fun c => b <= c < nlen rel) bs /\ Z.of_nat (length bs) <= nlen rel - b.
Proof.
  intros Hix. remember (Z.to_nat (nlen rel - b)) as n eqn:Hn. revert b Hn.
  induction (lt_wf n) as [n _ IH]. intros b -> Hb.
  destruct (lookup_lt_is_Some_2 (rd_main rel) (Z.to_nat b) ltac:(lia)) as [p Hp].
  assert (block (rd_main rel) b = Some p) as Hbp by (apply block_lookup; split; [lia|done]).
  pose proof (ix_size _ Hix) as Hsize.
  assert (BlockNumberIsValid b = true) as Hv by (unfold BlockNumberIsValid; rewrite negb_true_iff, Z.eqb_neq; lia).
  destruct (ix_next _ Hix b p ltac:(lia) Hbp) as [Hlast|Hnext].
  - exists [b]. split; [econstructor; [done|done|rewrite Hlast; constructor]|]. split; [apply NoDup_singleton|].
    split; [constructor; [lia|constructor]|simpl; lia].
  - destruct (IH (Z.to_nat (nlen rel - nextblkno p)) ltac:(lia) (nextblkno p) eq_refl ltac:(lia)) as (bs & H1 & H2 & H3 & H4).
    exists (b :: bs). split; [by econstructor|]. split; [|split].
    + apply list.NoDup_cons. split; [|done]. intros Hin. rewrite list.Forall_forall in H3. specialize (H3 _ Hin). lia.
    + constructor; [lia|]. eapply List.Forall_impl; [|exact H3]. simpl. lia.
    + simpl length. lia.
Qed.

(** ** The first pass *)

(** The pages of [bs] are cleaned, nothing else of the index changes. *)
Definition cleaned (callback : ItemPointerData -> bool) (bs : list BlockNumber) (rel rel' : Relation) : Prop :=
  (forall c, block (rd_main rel') c =
    if decide (c ∈ bs) then clean_page callback <$> block (rd_main rel) c else block (rd_main rel) c) /\
  rel' = with_pages rel MAIN_FORKNUM (rd_main rel').

Lemma chain_ext rel rel' b bs : (forall c, c ∈ bs -> block (rd_main rel') c = block (rd_main rel) c) ->
  chain_of rel b bs -> chain_of rel' b bs.
Proof.
  intros Heq Hc. induction Hc as [|b p bs Hv Hb Hc IH]; [constructor|].
  econstructor; [done|rewrite Heq; [done|by left]|]. apply IH. intros c Hin. apply Heq. by right.
Qed.

(** The statistics of the pages of a chain. *)
Definition chain_stats (callback : ItemPointerData -> bool) (rel : Relation) (bs : list BlockNumber) (st : IndexBulkDeleteResult)
    : IndexBulkDeleteResult :=
  fold_left (fun st b => match block (rd_main rel) b with Some p => page_stats callback st p | None => st end) bs st.

(** An element of the pages of [bs] keeps no heap TID. *)
Definition emptied_in (callback : ItemPointerData -> bool) (rel : Relation) (bs : list BlockNumber) (t : ItemPointerData) : Prop :=
  exists b p off, b ∈ bs /\ block (rd_main rel) b = Some p /\ emptied callback p off /\ t = ItemPointerSet b off.

Record pages_vacuumable (rel : Relation) (bs : list BlockNumber) : Prop := {
  pv_nodup : NoDup bs;
  pv_pages b p : b ∈ bs -> block (rd_main rel) b = Some p -> 1 <= b /\ page_ok p /\ page_heaptids_ok p
}.

Lemma pages_vacuumable_tail rel rel' b bs : (forall c, c ∈ bs -> block (rd_main rel') c = block (rd_main rel) c) ->
  pages_vacuumable rel (b :: bs) -> pages_vacuumable rel' bs.
Proof.
  intros Heq [H1 H2]. apply list.NoDup_cons in H1 as [_ H1]. split; [done|].
  intros c p Hc Hp. apply (H2 c p); [by right|]. by rewrite <- Heq.
Qed.

(** The elements of [bs] that keep heap TIDs, the entry point apart. *)
Definition live_in (callback : ItemPointerData -> bool) (entry : option (BlockNumber * OffsetNumber)) (rel : Relation) (bs : list BlockNumber)
    (b : BlockNumber) (off : OffsetNumber) (et : HnswElementTupleData) : Prop :=
  b ∈ bs /\ tuple_at rel b off = Some (ElementTuple et) /\ kept callback (et_heaptids et) <> [] /\ entry <> Some (b, off).

Lemma remove_pages_run callback highestPoint entryPoint entry bs : forall (P0 : BlockNumber -> OffsetNumber -> HnswElementTupleData -> Prop) fuel b rs0 s,
  chain_of (index s) b bs -> pages_vacuumable (index s) bs -> (length bs <= fuel)%nat -> xlog s = None ->
  highest_of P0 highestPoint (rs_highestLevel rs0) s -> entry_held highestPoint entryPoint entry s ->
  exists rs s', remove_pages callback highestPoint fuel entryPoint b rs0 s = Ok (rs, s') /\
    cleaned callback bs (index s) (index s') /\ xlog s' = None /\
    (forall a, a <> highestPoint -> mem s' !! a = mem s !! a) /\
    highest_of (fun c o et => P0 c o et \/ live_in callback entry (index s) bs c o et) highestPoint (rs_highestLevel rs) s' /\
    (forall t, t ∈ rs_deleted rs <-> t ∈ rs_deleted rs0 \/ emptied_in callback (index s) bs t) /\
    rs_stats rs = chain_stats callback (index s) bs (rs_stats rs0).
Proof.
  induction bs as [|b' bs IH]; intros P0 fuel b rs0 s Hc Hv Hf Hx Hhp Hep; inversion Hc as [|? p ? Hvalid Hb Hc']; subst.
  - exists rs0, s. split; [by destruct fuel|]. split; [split; [done|by destruct (index s)]|]. split; [done|]. split; [done|]. split; [|split; [|done]].
    + revert Hhp. apply highest_of_keep; [by left|]. intros c o et [HP|[Hin%elem_of_nil _]]; [by left|done].
    + intros t. split; [by left|]. intros [Ht|(b & p & off & Hin & _)]; [done|by apply elem_of_nil in Hin].
  - destruct fuel as [|fuel]; [simpl in Hf; lia|]. pose proof Hv as [Hnd Hpages]. apply list.NoDup_cons in Hnd as [Hnb Hnd].
    destruct (Hpages b' p ltac:(left) Hb) as (Hb1 & Hok & Hh).
    destruct (remove_page_run callback highestPoint entryPoint entry P0 s b' p
      (mkRemoveState (rs_deleted rs0) (rs_stats rs0) (rs_highestLevel rs0) false) Hx Hb1 Hb Hok Hh Hvalid Hhp Hep eq_refl)
      as (rs1 & s1 & Hrun & Ho & Hdel & Hst & Hhi).
    set (s2 := update_block MAIN_FORKNUM b' (clean_page callback p) s1) in *. pose proof Ho as (Hi & Hxs & Hm & Hs).
    assert (block (rd_main (index s1)) b' = Some p) as Hb' by (by rewrite Hi).
    assert (forall c, block (rd_main (index s2)) c = if decide (c = b') then Some (clean_page callback p) else block (rd_main (index s)) c) as Hblk.
    { intros c. unfold s2. rewrite <- Hi. by apply (update_block_block MAIN_FORKNUM _ _ _ p). }
    assert (forall c, c ∈ bs -> block (rd_main (index s2)) c = block (rd_main (index s)) c) as Hrest
      by (intros c Hin; rewrite Hblk, decide_False; [done|by intros ->]).
    destruct (IH (fun c o et => P0 c o et \/ c = b' /\ page_tuple p o = Ok (ElementTuple et) /\ kept callback (et_heaptids et) <> [] /\
      entry <> Some (b', o)) fuel (nextblkno p) rs1 s2) as (rs & s' & Hrun' & [Hcl Hrel] & Hx' & Hm' & Hhp' & Hdel' & Hst').
    { by apply (chain_ext (index s)). }
    { by apply (pages_vacuumable_tail (index s) _ b'). }
    { simpl in Hf. lia. }
    { unfold s2. simpl. congruence. }
    { exact Hhi. }
    { by apply (entry_held_kept _ _ _ s s1) in Hep. }
    exists rs, s'. split; [|split; [|split; [done|split; [|split; [|split]]]]].
    + cbn [remove_pages]. rewrite Hvalid. cbn [negb]. run (ReadBuffer_run _ _ _ Hb). rewrite Hrun. exact Hrun'.
    + split.
      * intros c. rewrite Hcl, Hblk. destruct (decide (c = b')) as [->|Hne].
        -- rewrite decide_False, decide_True by (done || by left). by rewrite Hb.
        -- destruct (decide (c ∈ bs)); [rewrite decide_True by (by right)|rewrite decide_False by (rewrite not_elem_of_cons; done)]; done.
      * rewrite Hrel. unfold s2, update_block. simpl. rewrite Hi. by destruct (index s).
    + intros a Ha. rewrite Hm' by done. unfold s2. simpl. by apply Hm.
    + assert (Htup : forall c o et, c ∈ bs -> tuple_at (index s2) c o = Some (ElementTuple et) <-> tuple_at (index s) c o = Some (ElementTuple et)).
      { intros c o et Hin. unfold tuple_at. by rewrite Hrest. }
      assert (Hfst : forall o et, page_tuple p o = Ok (ElementTuple et) <-> tuple_at (index s) b' o = Some (ElementTuple et)).
      { intros o et. rewrite tuple_at_lookup. split; [by exists p|]. intros (q & Hq & Ht). congruence. }
      revert Hhp'. apply highest_of_keep; unfold live_in; setoid_rewrite elem_of_cons.
      * intros c o et [[HP|(-> & Ht & Hk)]|(Hin & Ht & Hk)]; [by left|right|right].
        -- split; [by left|]. by rewrite <- Hfst.
        -- split; [by right|]. by rewrite <- Htup.
      * intros c o et [HP|([->|Hin] & Ht & Hk)]; left; [by left; left|left; right|right].
        -- split; [done|]. by rewrite Hfst.
        -- split; [done|]. by rewrite Htup.
    + intros t. rewrite Hdel', Hdel. unfold emptied_in. split.
      * intros [[Ht|(off & He & ->)]|(c & q & off & Hin & Hq & He & ->)]; [by left| |].
        -- right. exists b', p, off. split; [by left|done].
        -- right. exists c, q, off. rewrite Hrest in Hq by done. split; [by right|done].
      * intros [Ht|(c & q & off & Hin & Hq & He & ->)]; [by left; left|].
        apply elem_of_cons in Hin as [->|Hin]; [left; right; rewrite Hb in Hq; injection Hq as <-; by exists off|].
        right. exists c, q, off. by rewrite Hrest.
    + rewrite Hst', Hst. unfold chain_stats. cbn [fold_left]. rewrite Hb. simpl rs_stats.
      generalize (page_stats callback (rs_stats rs0) p). clear -Hrest.
      induction bs as [|c bs IHbs]; intros st; simpl; [done|]. rewrite Hrest by left. apply IHbs.
      intros c' Hc'. apply Hrest. by right.
Qed.

Lemma cleaned_tuples callback bs rel rel' b off : cleaned callback bs rel rel' -> tuple_at rel' b off =
  if decide (b ∈ bs) then clean_tuple callback <$> tuple_at rel b off else tuple_at rel b off.
Proof.
  intros [Hc _]. unfold tuple_at. rewrite Hc. destruct (decide (b ∈ bs)); [|done].
  destruct (block (rd_main rel) b) as [p|]; [|done]. simpl. rewrite clean_page_tuple. by destruct (page_tuple p off).
Qed.

Lemma cleaned_length callback bs rel rel' : cleaned callback bs rel rel' -> nlen rel' = nlen rel.
Proof.
  intros [Hc _]. assert (forall i, is_Some (rd_main rel' !! i) <-> is_Some (rd_main rel !! i)) as Hi.
  { intros i. specialize (Hc (Z.of_nat i)). unfold block in Hc. destruct (Z.ltb_spec (Z.of_nat i) 0); [lia|].
    rewrite Nat2Z.id in Hc. rewrite Hc. case_decide; [by rewrite fmap_is_Some|done]. }
  f_equal. apply (anti_symm le).
  - destruct (length (rd_main rel')) eqn:E; [lia|]. apply lookup_lt_is_Some, Hi, lookup_lt_is_Some. lia.
  - destruct (length (rd_main rel)) eqn:E; [lia|]. apply lookup_lt_is_Some, Hi, lookup_lt_is_Some. lia.
Qed.

Lemma cleaned_index_ok callback bs rel rel' : cleaned callback bs rel rel' -> index_ok rel -> index_ok rel'.
Proof.
  intros Hcl Hix. pose proof (cleaned_length _ _ _ _ Hcl) as Hlen. pose proof Hcl as [Hc _].
  assert (forall b q', block (rd_main rel') b = Some q' -> exists q, block (rd_main rel) b = Some q /\
    (q' = q \/ q' = clean_page callback q)) as Hb.
  { intros b q' Hq. rewrite Hc in Hq. case_decide; [apply fmap_Some in Hq as (q & Hq & ->); exists q; auto|exists q'; auto]. }
  split.
  - rewrite Hlen. apply (ix_size _ Hix).
  - intros b q' Hb1 Hq. destruct (Hb _ _ Hq) as (q & Hq0 & [-> | ->]); [by apply (ix_pages _ Hix b)|].
    apply clean_page_ok. by apply (ix_pages _ Hix b).
  - intros b q' Hb1 Hq. rewrite Hlen. destruct (Hb _ _ Hq) as (q & Hq0 & [-> | ->]); by apply (ix_next _ Hix b q).
  - intros b off et Hb1 Ht Hd. rewrite (cleaned_tuples _ _ _ _ _ _ Hcl) in Ht.
    assert (exists et0, tuple_at rel b off = Some (ElementTuple et0) /\ et_deleted et0 = et_deleted et /\
      et_neighbortid et0 = et_neighbortid et) as (et0 & Ht0 & Hd0 & Hn0).
    { case_decide; [|by exists et]. apply fmap_Some in Ht as ([et0|nt] & Ht0 & Heq); [|done]. injection Heq as ->. by exists et0. }
    rewrite <- Hn0. destruct (ix_deleted _ Hix b off et0 Hb1 Ht0 ltac:(congruence)) as (H1 & nt & H2).
    split; [done|]. exists nt. rewrite (cleaned_tuples _ _ _ _ _ _ Hcl), H2.
    by destruct (decide (ItemPointerGetBlockNumber (et_neighbortid et0) ∈ bs)).
Qed.

(** Every element tuple has its heap TIDs in order. *)
Definition heaptids_in_order (rel : Relation) : Prop :=
  forall b off et, 1 <= b -> tuple_at rel b off = Some (ElementTuple et) -> heaptids_ok (et_heaptids et).

(** The place of the entry point. *)
Definition entry_place (meta : HnswMetaPageData) : option (BlockNumber * OffsetNumber) :=
  if BlockNumberIsValid (mp_entryBlkno meta) then Some (mp_entryBlkno meta, mp_entryOffno meta) else None.

Lemma RemoveHeapTids_run `{Palloc} callback highestPoint fuel stats s meta :
  index_ok (index s) -> meta_ok (index s) meta -> heaptids_in_order (index s) -> xlog s = None ->
  2 <= nlen (index s) <= Z.of_nat fuel -> is_Some (mem s !! highestPoint) ->
  exists bs deleted st s' level, chain_of (index s) HNSW_HEAD_BLKNO bs /\
    RemoveHeapTids callback highestPoint fuel stats s = Ok ((deleted, st), s') /\
    cleaned callback bs (index s) (index s') /\ (forall t, t ∈ deleted <-> emptied_in callback (index s) bs t) /\
    st = chain_stats callback (index s) bs stats /\ xlog s' = None /\
    (forall a el, a <> highestPoint -> mem s !! a = Some el -> mem s' !! a = Some el) /\
    highest_of (live_in callback (entry_place meta) (index s) bs) highestPoint level s'.
Proof.
  intros Hix Hmeta Hh Hx Hlen [hp Hhp]. unfold HNSW_HEAD_BLKNO.
  destruct (chain_exists (index s) 1 Hix ltac:(lia)) as (bs & Hchain & Hnd & Hrange & Hbs).
  destruct (HnswGetMetaPageInfo_run s meta Hmeta) as (ep & s0 & Hrun0 & (Hm0 & Hi0 & Hx0) & Hep).
  assert (mem s0 !! highestPoint = Some hp) as Hhp0 by (by eapply lookup_weaken).
  set (s1 := mkBackend (<[highestPoint := el_set_tid InvalidBlockNumber InvalidOffsetNumber hp]> (mem s0)) (index s0) (xlog s0)).
  assert (modify_element highestPoint (el_set_tid InvalidBlockNumber InvalidOffsetNumber) s0 = Ok (tt, s1)) as Hmod.
  { unfold modify_element. run (load_element_run _ _ _ Hhp0). unfold store_element. by rewrite Hhp0. }
  assert (index s1 = index s) as Hi1 by (unfold s1; simpl; exact Hi0).
  destruct (remove_pages_run callback highestPoint ep (entry_place meta) bs (fun _ _ _ => False) fuel 1 (mkRemoveState ∅ stats (-1) false) s1)
    as (rs & s' & Hrun & Hcl & Hx' & Hm' & Hhi & Hdel & Hst).
  { by rewrite Hi1. }
  { split; [done|]. intros b p Hin Hp. rewrite Hi1 in Hp. rewrite list.Forall_forall in Hrange. specialize (Hrange b Hin).
    split; [lia|]. split; [by apply (ix_pages _ Hix b); [lia|]|]. intros off et Het. apply (Hh b off); [lia|].
    apply tuple_at_lookup. by exists p. }
  { lia. }
  { unfold s1. simpl. congruence. }
  { split; [done|]. eexists. split; [unfold s1; simpl; by rewrite lookup_insert_eq|done]. }
  { unfold entry_held, entry_place. destruct (BlockNumberIsValid (mp_entryBlkno meta)); [|apply Hep].
    destruct Hep as (Hn & Hfresh & el & Hel & Eb & Eo & _). split; [done|]. split; [congruence|]. exists el.
    unfold s1. simpl. rewrite lookup_insert_ne by congruence. done. }
  exists bs, (rs_deleted rs), (rs_stats rs), s', (rs_highestLevel rs). rewrite Hi1 in Hcl, Hdel, Hst, Hhi. split; [done|].
  split; [|split; [done|split; [|split; [done|split; [done|split]]]]].
  - unfold RemoveHeapTids, HnswGetEntryPoint. erewrite (M_bind_run _ _ s ep s0); [|by run Hrun0]. run Hmod. by run Hrun.
  - intros t. rewrite Hdel. simpl. set_solver.
  - intros a el Ha Hel. rewrite Hm' by done. unfold s1. simpl. rewrite lookup_insert_ne by done. by eapply lookup_weaken.
  - revert Hhi. apply highest_of_keep; [by intros c o et [[]|]|]. intros c o et HP. by left; right.
Qed.

(** C14: the first pass of vacuum.  [RemoveHeapTids] goes once through the chain of
    pages from the head and ends without an error.  Every element tuple of the
    chain keeps exactly the heap TIDs the callback does not report, in their
    order and at the front; the other tuples do not change.  The result is the
    set of the TIDs of the elements that keep none, and the statistics count
    what was removed and what was kept; the pages stay well formed. *)
Theorem RemoveHeapTids_correct `{Palloc} callback highestPoint fuel stats s meta :
  index_ok (index s) -> meta_ok (index s) meta -> heaptids_in_order (index s) -> xlog s = None ->
  2 <= nlen (index s) <= Z.of_nat fuel -> is_Some (mem s !! highestPoint) ->
  exists bs deleted st s', chain_of (index s) HNSW_HEAD_BLKNO bs /\
    RemoveHeapTids callback highestPoint fuel stats s = Ok ((deleted, st), s') /\
    (forall b off, tuple_at (index s') b off =
      if decide (b ∈ bs) then clean_tuple callback <$> tuple_at (index s) b off else tuple_at (index s) b off) /\
    (forall t, t ∈ deleted <-> exists b off et, b ∈ bs /\ tuple_at (index s) b off = Some (ElementTuple et) /\
      kept callback (et_heaptids et) = [] /\ t = ItemPointerSet b off) /\
    st = chain_stats callback (index s) bs stats /\
    index_ok (index s') /\ xlog s' = None /\
    forall a el, a <> highestPoint -> mem s !! a = Some el -> mem s' !! a = Some el.
Proof.
  intros Hix Hmeta Hh Hx Hlen Hhp.
  destruct (RemoveHeapTids_run callback highestPoint fuel stats s meta Hix Hmeta Hh Hx Hlen Hhp)
    as (bs & deleted & st & s' & _ & Hchain & Hrun & Hcl & Hdel & Hst & Hx' & Hm' & _).
  exists bs, deleted, st, s'. split; [done|]. split; [done|]. split; [intros b off; by apply cleaned_tuples|]. split.
  - intros t. rewrite Hdel. unfold emptied_in, emptied. split.
    + intros (b & p & off & Hin & Hp & (et & Het & Hk) & ->). exists b, off, et. split; [done|]. split; [apply tuple_at_lookup; by exists p|done].
    + intros (b & off & et & Hin & Ht & Hk & ->). apply tuple_at_lookup in Ht as (p & Hp & Het).
      exists b, p, off. split; [done|]. split; [done|]. split; [by exists et|done].
  - split; [done|]. split; [by eapply cleaned_index_ok|done].
Qed.

(** ** Witness: one of two heap TIDs is reported *)

Lemma sample_heaptids : heaptids_in_order sample_relation.
Proof.
  intros b off et Hb Ht. destruct (tuple_one sample_relation sample_meta sample_page eq_refl b off _ Hb Ht) as [_ Hin].
  page_cases Hin; (split; [done|]); [exists [ItemPointerSet 7 1]|exists [ItemPointerSet 7 3]]; (split; [done|by repeat constructor]).
Qed.

Lemma RemoveHeapTids_correct_witness :
  exists bs deleted st s', chain_of sample_relation HNSW_HEAD_BLKNO bs /\
    RemoveHeapTids (H := sample_palloc) (fun t => ItemPointerEquals t (ItemPointerSet 7 1)) 1%N 2 zero_stats sample_state =
      Ok ((deleted, st), s') /\
    tid1 ∈ deleted /\ index_ok (index s').
Proof.
  destruct (RemoveHeapTids_correct (H := sample_palloc) (fun t => ItemPointerEquals t (ItemPointerSet 7 1)) 1%N 2 zero_stats sample_state
    (pd_contents sample_meta) sample_index_ok ltac:(exists sample_meta; by split_and!) sample_heaptids eq_refl ltac:(by vm_compute)
    ltac:(by eexists)) as (bs & deleted & st & s' & Hchain & Hrun & _ & Hdel & _ & Hix & _).
  exists bs, deleted, st, s'. split; [exact Hchain|]. split; [exact Hrun|]. split; [|exact Hix].
  apply Hdel. eexists 1, 1, _. split; [inversion Hchain; subst; left|]. split; [vm_compute; reflexivity|].
  split; vm_compute; reflexivity.
Defined.
