(* ===== verification/MarkSpec.v ===== *)
(** * Vacuum: the marking of deleted elements

    The third pass of HnswVacuum.v marks the elements without heap TIDs as
    deleted, gives them the next version and empties their neighbor tuples, so
    that a reader that still has the old version finds no neighbors. *)

From S2P Require Import Prelude CFloat ItemPtr VectorType HnswData BufPage Backend HnswUtils.
From S2P Require Import LayerRefinement PageUpdate MetaPage Tuples HnswInsert InsertSpec AddElement IndexWf HnswVacuum VacuumSpec.

(** ** One element *)

(** The element has lost its heap TIDs and is not marked yet. *)
Definition to_mark (et : HnswElementTupleData) : bool :=
  (et_deleted et =? 0) && match et_heaptids et with t :: _ => negb (ItemPointerIsValid t) | [] => false end.

Definition marked_neighbors (version : Z) (nt : HnswNeighborTupleData) : HnswNeighborTupleData :=
  mkHnswNeighborTuple version (nt_count nt)
    (replicate (Z.to_nat (nt_count nt)) ItemPointerSetInvalid ++ drop (Z.to_nat (nt_count nt)) (nt_indextids nt)).

(** The two tuples of an element that is marked. *)
Definition marked_step (s s' : Backend) (b : BlockNumber) (off : OffsetNumber) (et : HnswElementTupleData)
    (nt : HnswNeighborTupleData) : Prop :=
  exists s1, tuple_replaced s s1 b off (ElementTuple (mark_element et)) /\
    tuple_replaced s1 s' (ItemPointerGetBlockNumber (et_neighbortid et)) (ItemPointerGetOffsetNumber (et_neighbortid et))
      (NeighborTuple (marked_neighbors (next_version (et_version et)) nt)).

#[local] Abbreviation open := (session MAIN_FORKNUM false).

Section MarkItem.
Context (s : Backend) (b : BlockNumber) (p : Page) (off : OffsetNumber) (et : HnswElementTupleData).
Context (Hx : xlog s = None) (Hb1 : 1 <= b) (Hb : block (rd_main (index s)) b = Some p).
Context (Ht : page_tuple p off = Ok (ElementTuple et)).

#[local] Abbreviation nb := (ItemPointerGetBlockNumber (et_neighbortid et)).
#[local] Abbreviation noff := (ItemPointerGetOffsetNumber (et_neighbortid et)).

(** The image of the page the neighbor tuple is on, and all images then. *)
Lemma neighbor_image np : block (rd_main (index s)) nb = Some np ->
  exists l, (if nb =? b then mret (page_ref false b) else nbuf ← ReadBuffer nb ; GenericXLogRegisterBuffer MAIN_FORKNUM nbuf) (open [(b, p)] s) =
      Ok (page_ref false nb, open l s) /\
    images_ok (rd_main (index s)) l /\ image l b = Some p /\ image l nb = Some np /\ commit_state MAIN_FORKNUM l s = s.
Proof.
  intros Hnp. pose proof (session1_ok s b p Hb1 Hb) as Hl1. destruct (Z.eqb_spec nb b) as [Heq|Hne].
  - exists [(b, p)]. rewrite Heq in Hnp |- *. rewrite Hb in Hnp. injection Hnp as <-. split; [done|]. split; [done|].
    simpl. rewrite decide_True by done. split; [done|]. split; [done|]. apply commit_same. by repeat constructor.
  - assert (image [(b, p)] nb = None) as Him by (simpl; by rewrite decide_False).
    exists [(b, p); (nb, np)].
    run (session_ReadBuffer MAIN_FORKNUM false [(b, p)] s Hl1 nb np Hnp).
    split; [exact (session_register MAIN_FORKNUM false [(b, p)] s Hl1 nb np Him Hnp ltac:(simpl; lia))|].
    split; [exact (session_register_ok MAIN_FORKNUM [(b, p)] s Hl1 nb np Him Hnp)|].
    simpl. rewrite decide_True, decide_False by done. rewrite decide_True by done. split; [done|]. split; [done|].
    apply commit_same. by repeat constructor.
Qed.

(** A store into an open page, and its effect once it is committed. *)
Lemma session_set_item l c q o old tup : images_ok (rd_main (index s)) l -> image l c = Some q -> page_tuple q o = Ok old ->
  modify_page MAIN_FORKNUM (page_ref false c) (fun q => PageSetItem q o tup) (open l s) =
    Ok (tt, open (set_image c (PageSetItem q o tup) l) s) /\
  images_ok (rd_main (index s)) (set_image c (PageSetItem q o tup) l) /\
  tuple_replaced (commit_state MAIN_FORKNUM l s) (commit_state MAIN_FORKNUM (set_image c (PageSetItem q o tup) l) s) c o tup.
Proof.
  intros Hl Hc Hq. split; [|split; [by apply set_image_ok|]].
  - unfold modify_page. run (session_read MAIN_FORKNUM false l s Hl c q Hc). by rewrite session_write by (done || by eexists).
  - assert (commit_state MAIN_FORKNUM (set_image c (PageSetItem q o tup) l) s =
      update_block MAIN_FORKNUM c (PageSetItem q o tup) (commit_state MAIN_FORKNUM l s)) as ->.
    { unfold commit_state, update_block, with_index. simpl. rewrite apply_set_image; [done|done|].
      apply image_elem. by eexists. }
    eapply update_block_replaced; [|done]. simpl. rewrite block_apply_images by done. unfold image_or. by rewrite Hc.
Qed.

Lemma mark_item_run ip nt : to_mark et = true -> tuple_at (index s) nb noff = Some (NeighborTuple nt) ->
  nt_count nt <= Z.of_nat (length (nt_indextids nt)) ->
  exists s' p', mark_item b off ip (open [(b, p)] s) =
      Ok (if negb (BlockNumberIsValid ip) then b else ip, open [(b, p')] s') /\
    block (rd_main (index s')) b = Some p' /\ marked_step s s' b off et nt.
Proof.
  intros Hmark Hnt Hcount. apply tuple_at_lookup in Hnt as (np & Hnp & Hntp).
  apply andb_true_iff in Hmark as [Hd Hh]. apply Z.eqb_eq in Hd.
  destruct (et_heaptids et) as [|t0 tl] eqn:Eh; [done|]. apply negb_true_iff in Hh.
  destruct (neighbor_image np Hnp) as (l & Hl & Hlok & Hlb & Hln & Hcommit).
  destruct (session_set_item l b p off (ElementTuple et) (ElementTuple (mark_element et)) Hlok Hlb Ht) as (Hset1 & Hlok1 & Hrep1).
  set (l1 := set_image b (PageSetItem p off (ElementTuple (mark_element et))) l) in *.
  assert (exists np1, image l1 nb = Some np1 /\ page_tuple np1 noff = Ok (NeighborTuple nt)) as (np1 & Hln1 & Hntp1).
  { destruct (decide (nb = b)) as [Heq|Hne].
    - eexists. split; [rewrite Heq; unfold l1; by eapply image_set_same|].
      assert (np = p) as -> by (rewrite Heq in Hln; congruence).
      apply page_tuple_lookup in Ht as Hoff. destruct Hoff as (? & Hoff & _).
      rewrite PageSetItem_other; [done| |done]. intros Hoo. rewrite <- Hoo in Hntp. congruence.
    - exists np. split; [|done]. unfold l1. by rewrite image_set_other. }
  destruct (session_set_item l1 nb np1 noff (NeighborTuple nt)
    (NeighborTuple (marked_neighbors (next_version (et_version et)) nt)) Hlok1 Hln1 Hntp1) as (Hset2 & Hlok2 & Hrep2).
  set (l2 := set_image nb _ l1) in *. set (s' := commit_state MAIN_FORKNUM l2 s) in *.
  assert (exists p', block (rd_main (index s')) b = Some p') as [p' Hp'].
  { assert (is_Some (image l2 b)) as [q Hq].
    { apply image_elem. unfold l2, l1. rewrite !set_image_fst. apply image_elem. by eexists. }
    exists q. unfold s'. simpl. rewrite block_apply_images by done. unfold image_or. by rewrite Hq. }
  exists s', p'. split; [|split; [done|]].
  - unfold mark_item. cbn zeta. change (ImagePage b) with (page_ref false b).
    run (session_read MAIN_FORKNUM false [(b, p)] s (session1_ok s b p Hb1 Hb) b p ltac:(simpl; by rewrite decide_True)).
    run (get_tuple_run _ _ _ _ Ht). cbn zeta. rewrite Hd. cbn [Z.eqb negb].
    assert (is_empty_element et = Ok true) as Hempty by (unfold is_empty_element; rewrite Eh; cbn; by rewrite Hh).
    run (lift_res_run _ _ _ Hempty). cbn [negb]. run Hl.
    run (session_read MAIN_FORKNUM false l s Hlok nb np Hln). run (get_tuple_run _ _ _ _ Hntp).
    run (lift_res_run (as_neighbor (NeighborTuple nt)) _ nt eq_refl).
    run Hset1.
    assert (mark_neighbors (et_version (mark_element et)) nt = Ok (marked_neighbors (next_version (et_version et)) nt)) as Hmn.
    { unfold mark_neighbors. by rewrite (proj2 (Z.ltb_ge _ _) Hcount). }
    run (lift_res_run _ _ _ Hmn). run Hset2.
    change (GenericXLogFinish MAIN_FORKNUM) with (commit_page MAIN_FORKNUM false).
    run (session_commit MAIN_FORKNUM false l2 s Hx). fold s'. by run (session_open MAIN_FORKNUM false s' b p' Hp').
  - exists (commit_state MAIN_FORKNUM l1 s). rewrite Hcommit in Hrep1. done.
Qed.

(** The other items of a page. *)
Lemma mark_item_skip ip : to_mark et = false -> is_Some (et_heaptids et !! 0%nat) ->
  exists ip', mark_item b off ip (open [(b, p)] s) = Ok (ip', open [(b, p)] s) /\
    (ip' = ip \/ et_deleted et <> 0 /\ ip' = if negb (BlockNumberIsValid ip) then b else ip).
Proof.
  intros Hmark [t0 Ht0]. unfold mark_item. cbn zeta. change (ImagePage b) with (page_ref false b).
  run (session_read MAIN_FORKNUM false [(b, p)] s (session1_ok s b p Hb1 Hb) b p ltac:(simpl; by rewrite decide_True)).
  run (get_tuple_run _ _ _ _ Ht). cbn zeta. unfold to_mark in Hmark. destruct (Z.eqb_spec (et_deleted et) 0) as [Hd|Hd]; cbn [negb].
  - destruct (et_heaptids et) as [|t1 tl] eqn:Eh; [done|]. injection Ht0 as ->. simpl in Hmark.
    assert (is_empty_element et = Ok false) as Hempty by (unfold is_empty_element; rewrite Eh; cbn; by rewrite Hmark).
    run (lift_res_run _ _ _ Hempty). exists ip. split; [done|by left].
  - eexists. split; [done|]. by right.
Qed.
End MarkItem.

(** ** A set of elements *)

(** The element of [rel] at a place of [D] that is to be marked. *)
Definition marks (D : BlockNumber -> OffsetNumber -> Prop) (rel : Relation) (b : BlockNumber) (off : OffsetNumber)
    (et : HnswElementTupleData) : Prop :=
  D b off /\ tuple_at rel b off = Some (ElementTuple et) /\ to_mark et = true.

(** [rel'] is [rel] with the elements at the places of [D] marked, those that
    are to be. *)
Record marked_by (D : BlockNumber -> OffsetNumber -> Prop) (rel rel' : Relation) : Prop := {
  mb_marked b off et : marks D rel b off et -> tuple_at rel' b off = Some (ElementTuple (mark_element et));
  mb_other b off et : tuple_at rel b off = Some (ElementTuple et) -> ~ marks D rel b off et ->
    tuple_at rel' b off = Some (ElementTuple et);
  mb_emptied b off nt c o et : tuple_at rel b off = Some (NeighborTuple nt) -> marks D rel c o et -> neighbor_of et = (b, off) ->
    tuple_at rel' b off = Some (NeighborTuple (marked_neighbors (next_version (et_version et)) nt));
  mb_neighbors b off nt : tuple_at rel b off = Some (NeighborTuple nt) ->
    (forall c o et, marks D rel c o et -> neighbor_of et <> (b, off)) -> tuple_at rel' b off = Some (NeighborTuple nt);
  mb_kind b off nt : tuple_at rel b off = Some (NeighborTuple nt) -> exists nt', tuple_at rel' b off = Some (NeighborTuple nt');
  mb_none b off : tuple_at rel b off = None -> tuple_at rel' b off = None;
  mb_pages b p' : block (rd_main rel') b = Some p' -> exists p, block (rd_main rel) b = Some p /\
    (page_ok p -> page_ok p') /\ pd_opaque p' = pd_opaque p /\ PageGetMaxOffsetNumber p' = PageGetMaxOffsetNumber p;
  mb_items : items_kept rel rel';
  mb_length : length (rd_main rel') = length (rd_main rel);
  mb_rel : rel' = with_pages rel MAIN_FORKNUM (rd_main rel')
}.

Lemma marked_by_ext D D' rel rel' :
  (forall b off et, tuple_at rel b off = Some (ElementTuple et) -> D b off <-> D' b off) ->
  marked_by D rel rel' -> marked_by D' rel rel'.
Proof.
  intros Heq. assert (forall b off et, marks D' rel b off et <-> marks D rel b off et) as Hm.
  { intros b off et. unfold marks. split; intros (H1 & H2 & H3); (split; [|done]); by apply (Heq b off et). }
  intros [H1 H2 H3 H4 Hk H5 H6 Hit H7 H8]. split; try done.
  - intros b off et Hmk. apply H1. by apply Hm.
  - intros b off et Ht Hmk. apply H2; [done|]. intros Hmk'. by apply Hmk, Hm.
  - intros b off nt c o et Ht Hmk Hn. apply (H3 b off nt c o et); [done|by apply Hm|done].
  - intros b off nt Ht Hmk. apply H4; [done|]. intros c o et Hmk'. by apply (Hmk c o), Hm.
Qed.

Lemma marked_by_none rel : marked_by (fun _ _ => False) rel rel.
Proof.
  split; try done.
  - by intros b off et [[] _].
  - by intros b off nt c o et _ [[] _].
  - intros b off nt Hnt. by exists nt.
  - intros b p Hp. by exists p.
  - by destruct rel.
Qed.

Section MarkedStep.
Context (D : BlockNumber -> OffsetNumber -> Prop) (rel : Relation) (s s' : Backend).
Context (Hel : elements_ok rel) (HD : marked_by D rel (index s)) (HD1 : forall c o, D c o -> 1 <= c).
Context (b : BlockNumber) (off : OffsetNumber) (Hb1 : 1 <= b) (Hnew : ~ D b off).

Definition D_add (c : BlockNumber) (o : OffsetNumber) : Prop := D c o \/ (c = b /\ o = off).

Lemma marks_add c o et : marks D_add rel c o et <-> marks D rel c o et \/ ((c = b /\ o = off) /\ marks D_add rel c o et).
Proof. unfold marks, D_add. split; [intros ([H|H] & H1 & H2); [by left|right; naive_solver]|naive_solver]. Qed.

(** Nothing happens at an item that is not to be marked. *)
Lemma marked_by_skip : (forall et, tuple_at rel b off = Some (ElementTuple et) -> to_mark et = false) ->
  marked_by D_add rel (index s).
Proof.
  intros Hno. assert (forall c o et, marks D_add rel c o et <-> marks D rel c o et) as Hm.
  { intros c o et. rewrite marks_add. split; [|by left]. intros [H|[[-> ->] (_ & H1 & H2)]]; [done|].
    by rewrite (Hno et H1) in H2. }
  destruct HD as [H1 H2 H3 H4 Hk H5 H6 Hit H7 H8]. split; try done.
  - intros c o et Hmk. apply H1. by apply Hm.
  - intros c o et Ht Hmk. apply H2; [done|]. intros Hmk'. by apply Hmk, Hm.
  - intros c o nt c' o' et Ht Hmk Hn. apply (H3 c o nt c' o' et); [done|by apply Hm|done].
  - intros c o nt Ht Hmk. apply H4; [done|]. intros c' o' et Hmk'. by apply (Hmk c' o'), Hm.
Qed.

Lemma marked_by_step et nt : tuple_at rel b off = Some (ElementTuple et) -> to_mark et = true ->
  tuple_at rel (neighbor_of et).1 (neighbor_of et).2 = Some (NeighborTuple nt) ->
  marked_step s s' b off et nt -> marked_by D_add rel (index s').
Proof.
  intros Het Hmark Hnt (s1 & Hr1 & Hr2). destruct Hr1 as [_ _ Ht1 Ho1 Hp1 Hi1 Hl1 Hrel1], Hr2 as [_ _ Ht2 Ho2 Hp2 Hi2 Hl2 Hrel2].
  destruct (neighbor_of et) as [nb noff] eqn:En. injection En as Enb Eno. rewrite Enb, Eno in *. simpl in Hnt.
  assert ((nb, noff) <> (b, off)) as Hne by (intros [= -> ->]; congruence).
  assert (marks D_add rel b off et) as Hthis by (split; [by right|done]).
  assert (forall c o e, marks D_add rel c o e -> neighbor_of e = (nb, noff) -> (c, o) = (b, off)) as Hown.
  { intros c o e (Hc & Hte & _) [= E1 E2]. assert (1 <= c) as Hc1 by (destruct Hc as [Hc|[-> _]]; [by eapply HD1|done]).
    apply (eo_own _ Hel c o e b off et); congruence. }
  assert (forall c o, (c, o) <> (b, off) -> (c, o) <> (nb, noff) -> tuple_at (index s') c o = tuple_at (index s) c o) as Hsame
    by (intros c o H1 H2; by rewrite Ho2, Ho1).
  assert (tuple_at (index s') b off = Some (ElementTuple (mark_element et))) as Hhere by (by rewrite Ho2).
  destruct HD as [H1 H2 H3 H4 Hk H5 H6 Hit H7 H8]. split.
  - intros c o e Hmk. apply marks_add in Hmk as [Hmk|[[-> ->] (_ & Hte & _)]]; [|congruence].
    destruct (decide ((c, o) = (b, off))) as [[= -> ->]|Hc]; [by destruct Hmk|]. rewrite Hsame; [by apply H1|done|].
    intros [= -> ->]. destruct Hmk as (_ & ? & _). congruence.
  - intros c o e Hte Hmk. assert ((c, o) <> (b, off)) as Hc by (intros [= -> ->]; apply Hmk; congruence).
    rewrite Hsame; [apply H2; [done|]|done|intros [= -> ->]; congruence].
    intros Hm. apply Hmk, marks_add. by left.
  - intros c o nt' c' o' e Hnt' Hmk Hn. destruct (decide ((c, o) = (nb, noff))) as [[= -> ->]|Hc].
    + rewrite Hnt in Hnt'. injection Hnt' as <-. pose proof (Hown _ _ _ Hmk Hn) as [= -> ->].
      destruct Hmk as (_ & Hte & _). rewrite Het in Hte. injection Hte as <-. exact Ht2.
    + apply marks_add in Hmk as [Hmk|[[-> ->] (_ & Hte & _)]].
      * rewrite Hsame; [by eapply H3|intros [= -> ->]; congruence|done].
      * rewrite Het in Hte. injection Hte as <-. unfold neighbor_of in Hn. congruence.
  - intros c o nt' Hnt' Hmk. assert ((c, o) <> (nb, noff)) as Hc.
    { intros [= -> ->]. apply (Hmk b off et Hthis). unfold neighbor_of. by rewrite Enb, Eno. }
    rewrite Hsame; [apply H4; [done|]|intros [= -> ->]; congruence|done].
    intros c' o' e Hm. apply (Hmk c' o'), marks_add. by left.
  - intros c o nt' Hnt'. destruct (decide ((c, o) = (nb, noff))) as [[= -> ->]|Hc]; [by eexists|].
    destruct (Hk c o nt' Hnt') as [nt2 Hnt2]. exists nt2. rewrite Hsame; [done|intros [= -> ->]; congruence|done].
  - intros c o Hn. rewrite Hsame; [by apply H5|intros [= -> ->]; congruence|intros [= -> ->]; congruence].
  - intros c q' Hq'. destruct (Hp2 c q' Hq') as (q1 & Hq1 & A1 & A2 & A3 & _). destruct (Hp1 c q1 Hq1) as (q & Hq & B1 & B2 & B3 & _).
    destruct (H6 c q Hq) as (q0 & Hq0 & C1 & C2 & C3). exists q0. split; [done|]. split; [auto|]. split_and!; congruence.
  - etrans; [exact Hit|]. by etrans.
  - congruence.
  - rewrite Hrel2, Hrel1, H8. by destruct rel.
Qed.
End MarkedStep.

(** ** The third pass *)

Section MarkPages.
Context (rel : Relation) (Hix : index_ok rel) (Hel : elements_ok rel).

(** The links and the pages of a marked index. *)
Lemma marked_block D rel' b p : marked_by D rel rel' -> block (rd_main rel) b = Some p ->
  exists p', block (rd_main rel') b = Some p' /\ nextblkno p' = nextblkno p /\
    PageGetMaxOffsetNumber p' = PageGetMaxOffsetNumber p /\ (page_ok p -> page_ok p').
Proof.
  intros HD Hb. apply block_lookup in Hb as Hl. destruct Hl as [H0 Hl]. apply lookup_lt_Some in Hl.
  rewrite <- (mb_length _ _ _ HD) in Hl. destruct (lookup_lt_is_Some_2 _ _ Hl) as [p' Hp'].
  assert (block (rd_main rel') b = Some p') as Hb' by (by apply block_lookup).
  destruct (mb_pages _ _ _ HD b p' Hb') as (q & Hq & Hok & Ho & Hmax). rewrite Hb in Hq. injection Hq as <-.
  exists p'. split; [done|]. unfold nextblkno. by rewrite Ho.
Qed.

(** A tuple that is read has the kind it had, and an element not looked at yet
    is as it was. *)
Lemma marked_tuple D rel' b off tup : marked_by D rel rel' -> ~ D b off -> tuple_at rel' b off = Some tup ->
  match tup with
  | ElementTuple et => tuple_at rel b off = Some (ElementTuple et)
  | NeighborTuple _ => exists nt, tuple_at rel b off = Some (NeighborTuple nt)
  end.
Proof.
  intros HD Hn Ht. destruct (tuple_at rel b off) as [[et|nt]|] eqn:E.
  - rewrite (mb_other _ _ _ HD b off et E) in Ht by (intros [Hd _]; done). by injection Ht as <-.
  - destruct (mb_kind _ _ _ HD b off nt E) as [nt' Hnt']. rewrite Hnt' in Ht. injection Ht as <-. by exists nt.
  - rewrite (mb_none _ _ _ HD b off E) in Ht. done.
Qed.

Definition D_upto (D : BlockNumber -> OffsetNumber -> Prop) (b : BlockNumber) (k : nat) (c : BlockNumber) (o : OffsetNumber) : Prop :=
  D c o \/ (c = b /\ 1 <= o <= Z.of_nat k).

(** The insert page is one of the pages, if there is one. *)
Definition insert_ok (bs : list BlockNumber) (ip : BlockNumber) : Prop := ip = InvalidBlockNumber \/ ip ∈ bs.

Record mark_inv (D : BlockNumber -> OffsetNumber -> Prop) (b : BlockNumber) (bs : list BlockNumber) (s0 : Backend)
    (k : nat) (ip : BlockNumber) (st : Backend) : Prop := {
  mi_state : exists s p, st = open [(b, p)] s /\ block (rd_main (index s)) b = Some p /\ xlog s = None /\ mem s = mem s0 /\
    marked_by (D_upto D b k) rel (index s) /\ (forall meta, meta_ok (index s0) meta -> meta_ok (index s) meta);
  mi_insert : insert_ok bs ip
}.

Lemma mark_item_step D b p0 bs s0 k ip st : (forall c o, D c o -> 1 <= c) -> (forall o, ~ D b o) -> 1 <= b -> b ∈ bs ->
  block (rd_main rel) b = Some p0 -> (Z.of_nat k < PageGetMaxOffsetNumber p0) ->
  mark_inv D b bs s0 k ip st ->
  exists ip' st', mark_item b (Z.of_nat k + 1) ip st = Ok (ip', st') /\ mark_inv D b bs s0 (S k) ip' st'.
Proof.
  intros HD1 HDb Hb1 Hin Hp0 Hk [(s & p & -> & Hb & Hx & Hm & HD & Hmeta) Hip].
  set (off := Z.of_nat k + 1). pose proof (ix_pages _ Hix b p0 Hb1 Hp0) as Hok0.
  destruct (marked_block _ _ b p0 HD Hp0) as (p' & Hp' & _ & Hmax & Hok). rewrite Hb in Hp'. injection Hp' as <-.
  specialize (Hok Hok0). rewrite <- Hmax in Hk. rewrite (PageGetMaxOffsetNumber_eq p Hok) in Hk.
  destruct (lookup_lt_is_Some_2 (pd_linp p) k ltac:(lia)) as [it Hit].
  pose proof (page_item p Hok k it Hit) as (_ & _ & _ & _ & _ & [tup Htup]).
  assert (page_tuple p off = Ok tup) as Hpt.
  { apply page_tuple_lookup. exists it. unfold off. replace (Z.to_nat (Z.of_nat k + 1 - 1)) with k by lia. split; [lia|done]. }
  assert (tuple_at (index s) b off = Some tup) as Ht by (apply tuple_at_lookup; by exists p).
  assert (~ D_upto D b k b off) as Hnew by (unfold D_upto, off; intros [Hd|[_ Hd]]; [by apply (HDb _ Hd)|lia]).
  pose proof (marked_tuple _ _ b off tup HD Hnew Ht) as Hrel.
  assert (forall c o, D_upto D b k c o -> 1 <= c) as HD1' by (intros c o [Hd|[-> _]]; [by eapply HD1|done]).
  assert (forall rel', marked_by (D_add (D_upto D b k) b off) rel rel' -> marked_by (D_upto D b (S k)) rel rel') as Hext.
  { intros rel'. apply marked_by_ext. intros c o et _. unfold D_add, D_upto, off.
    split; [intros [[Hd|[-> Ho]]|[-> ->]]; [by left|right; split; [done|lia]|right; split; [done|lia]]|].
    intros [Hd|[-> Ho]]; [by left; left|]. destruct (decide (o = Z.of_nat k + 1)) as [->|]; [by right|left; right; split; [done|lia]]. }
  assert (insert_ok bs (if negb (BlockNumberIsValid ip) then b else ip)) as Hip'
    by (destruct (BlockNumberIsValid ip); [done|by right]).
  destruct tup as [et|nt].
  2: { destruct Hrel as [nt0 Hnt0]. exists ip, (open [(b, p)] s). split.
       - unfold mark_item. cbn zeta. change (ImagePage b) with (page_ref false b).
         run (session_read MAIN_FORKNUM false [(b, p)] s (session1_ok s b p Hb1 Hb) b p ltac:(simpl; by rewrite decide_True)).
         by run (get_tuple_run _ _ _ _ Hpt).
       - split; [|done]. exists s, p. split_and!; try done. apply Hext. apply marked_by_skip; [done|]. intros et. congruence. }
  destruct (to_mark et) eqn:Emark.
  - destruct (eo_neighbors _ Hel b off et Hb1 Hrel) as (Hnb1 & nt & Hnt & Hcount).
    assert (tuple_at (index s) (ItemPointerGetBlockNumber (et_neighbortid et)) (ItemPointerGetOffsetNumber (et_neighbortid et)) =
      Some (NeighborTuple nt)) as Hnt'.
    { apply (mb_neighbors _ _ _ HD); [done|]. intros c o e (Hd & Hte & _) [= E1 E2]. apply Hnew.
      assert ((c, o) = (b, off)) as [= -> ->]; [|done]. apply (eo_own _ Hel c o e b off et); try done. by eapply HD1'. }
    destruct (mark_item_run s b p off et Hx Hb1 Hb Hpt ip nt Emark Hnt' Hcount) as (s' & p' & Hrun & Hb' & Hstep).
    exists (if negb (BlockNumberIsValid ip) then b else ip), (open [(b, p')] s'). split; [exact Hrun|]. split; [|done].
    exists s', p'. pose proof Hstep as (s1 & Hr1 & Hr2). split; [done|]. split; [done|].
    split; [by rewrite (tr_xlog _ _ _ _ _ Hr2), (tr_xlog _ _ _ _ _ Hr1)|].
    split; [by rewrite (tr_mem _ _ _ _ _ Hr2), (tr_mem _ _ _ _ _ Hr1)|].
    split; [apply Hext; by eapply (marked_by_step (D_upto D b k) rel s s')|].
    intros meta H0. eapply tuple_replaced_meta; [exact Hr2|]. eapply tuple_replaced_meta; [exact Hr1|]. by apply Hmeta.
  - destruct (mark_item_skip s b p off et Hb1 Hb Hpt ip Emark (eo_heaptids _ Hel b off et Hb1 Hrel)) as (ip' & Hrun & Hcase).
    exists ip', (open [(b, p)] s). split; [done|]. split.
    + exists s, p. split_and!; try done. apply Hext. apply marked_by_skip; [done|]. intros et'. congruence.
    + destruct Hcase as [->|[_ ->]]; done.
Qed.

Definition in_pages (bs : list BlockNumber) (c : BlockNumber) (o : OffsetNumber) : Prop := c ∈ bs.

(** The items of one page; the last record is dropped. *)
Lemma mark_page_run done_ b p0 bs s ip : 1 <= b -> b ∈ bs -> b ∉ done_ -> Forall (fun c => 1 <= c) done_ ->
  block (rd_main rel) b = Some p0 -> xlog s = None -> marked_by (in_pages done_) rel (index s) -> insert_ok bs ip ->
  exists ip' s', (forall A (next : Page -> BlockNumber -> M Backend A),
      (page ← open_page MAIN_FORKNUM false b ;
       p ← read_page MAIN_FORKNUM page ;
       ip ← mfor (offsets_of p) ip (mark_item b) ;
       p ← read_page MAIN_FORKNUM page ;
       GenericXLogAbort ;;
       next p ip) s = (p ← (fun s => match block (rd_main (index s)) b with Some p => Ok (p, s) | None => Err UndefinedBehaviour end) ;
                       next p ip') s') /\
    xlog s' = None /\ mem s' = mem s /\ marked_by (in_pages (b :: done_)) rel (index s') /\ insert_ok bs ip' /\
    (forall meta, meta_ok (index s) meta -> meta_ok (index s') meta).
Proof.
  intros Hb1 Hin Hnot Hdone Hp0 Hx HD Hip. pose proof (ix_pages _ Hix b p0 Hb1 Hp0) as Hok0.
  destruct (marked_block _ _ b p0 HD Hp0) as (p & Hp & _ & Hmax & Hok). specialize (Hok Hok0).
  assert (forall c o, in_pages done_ c o -> 1 <= c) as HD1 by (intros c o Hc; by apply (list.Forall_forall _ done_)).
  assert (mark_inv (in_pages done_) b bs s 0 ip (open [(b, p)] s)) as H0.
  { split; [|done]. exists s, p. split_and!; try done. apply (marked_by_ext (in_pages done_)); [|done].
    intros c o et _. unfold D_upto. split; [by left|]. intros [Hd|[_ Ho]]; [done|lia]. }
  destruct (mfor_seq_run (mark_inv (in_pages done_) b bs s) (mark_item b) 0 (Z.to_nat (PageGetMaxOffsetNumber p)) ip _
    (fun k ip st Hk => mark_item_step (in_pages done_) b p0 bs s k ip st HD1 ltac:(intros o; exact Hnot) Hb1 Hin Hp0 ltac:(lia)) H0)
    as (ip' & st' & Hrun & [(s' & p' & -> & Hb' & Hx' & Hm' & HD' & Hmeta') Hip']).
  exists ip', s'. split; [|split; [done|split; [done|split; [|split; done]]]].
  - intros A next. run (session_open MAIN_FORKNUM false s b p Hp).
    run (session_read MAIN_FORKNUM false [(b, p)] s (session1_ok s b p Hb1 Hp) b p ltac:(simpl; by rewrite decide_True)).
    unfold offsets_of. run Hrun.
    run (session_read MAIN_FORKNUM false [(b, p')] s' (session1_ok s' b p' Hb1 Hb') b p' ltac:(simpl; by rewrite decide_True)).
    change GenericXLogAbort with (abort_page false). run (session_abort MAIN_FORKNUM false b p' s' Hx' Hb').
    unfold mbind at 1, M_bind at 1. by rewrite Hb'.
  - apply (marked_by_ext (D_upto (in_pages done_) b (0 + Z.to_nat (PageGetMaxOffsetNumber p)))); [|done].
    intros c o et Hte. unfold D_upto, in_pages. rewrite elem_of_cons. split; [intros [Hd|[-> _]]; auto|].
    intros [->|Hd]; [|by left]. right. split; [done|]. apply tuple_at_lookup in Hte as (q & Hq & Hqt).
    rewrite Hp0 in Hq. injection Hq as <-. apply page_tuple_lookup in Hqt as (it & Ho & Hl & _).
    apply lookup_lt_Some in Hl. rewrite Hmax, (PageGetMaxOffsetNumber_eq p0 Hok0). lia.
Qed.

Lemma mark_pages_run all bs : forall fuel b ip done_ s,
  chain_of rel b bs -> NoDup (done_ ++ bs) -> Forall (fun c => 1 <= c) (done_ ++ bs) -> bs ⊆ all -> (length bs <= fuel)%nat ->
  xlog s = None -> marked_by (in_pages done_) rel (index s) -> insert_ok all ip ->
  exists ip' s', mark_pages fuel b ip s = Ok (ip', s') /\ xlog s' = None /\ mem s' = mem s /\
    marked_by (in_pages (done_ ++ bs)) rel (index s') /\ insert_ok all ip' /\
    (forall meta, meta_ok (index s) meta -> meta_ok (index s') meta).
Proof.
  induction bs as [|b' bs IH]; intros fuel b ip done_ s Hc Hnd Hpos Hall Hf Hx HD Hip; inversion Hc as [|? p ? Hvalid Hb Hc']; subst.
  - exists ip, s. rewrite app_nil_r. split; [by destruct fuel|done].
  - destruct fuel as [|fuel]; [simpl in Hf; lia|].
    assert (b' ∉ done_) as Hnot by (intros Hd; apply list.NoDup_app in Hnd as (_ & Hdis & _); apply (Hdis b' Hd); by left).
    apply Forall_app in Hpos as Hpos'. destruct Hpos' as [Hpd Hpb]. inversion Hpb as [|? ? Hb1 Hpb']; subst.
    destruct (mark_page_run done_ b' p all s ip Hb1 ltac:(apply Hall; by left) Hnot Hpd Hb Hx HD Hip)
      as (ip1 & s1 & Hrun & Hx1 & Hm1 & HD1 & Hip1 & Hmeta1).
    destruct (marked_block _ _ b' p HD Hb) as (p1 & Hp1 & _).
    destruct (marked_block _ _ b' p HD1 Hb) as (p2 & Hp2 & Hnext & _).
    assert (marked_by (in_pages (done_ ++ [b'])) rel (index s1)) as HD2.
    { apply (marked_by_ext (in_pages (b' :: done_))); [|done]. intros c o et _. unfold in_pages.
      rewrite elem_of_app, list_elem_of_singleton, elem_of_cons. tauto. }
    destruct (IH fuel (nextblkno p) ip1 (done_ ++ [b']) s1) as (ip' & s' & Hrun' & Hx' & Hm' & HD' & Hip' & Hmeta'); try done.
    { by rewrite <- app_assoc. }
    { by rewrite <- app_assoc. }
    { intros c Hc2. apply Hall. by right. }
    { simpl in Hf. lia. }
    exists ip', s'. rewrite <- app_assoc in HD'. split; [|split; [done|split; [congruence|split; [done|split; [done|auto]]]]].
    cbn [mark_pages]. rewrite Hvalid. cbn [negb]. run (ReadBuffer_run _ _ _ Hp1). rewrite Hrun.
    unfold mbind at 1, M_bind at 1. rewrite Hp2, Hnext. exact Hrun'.
Qed.
End MarkPages.

Lemma chain_unique rel b bs bs' : chain_of rel b bs -> chain_of rel b bs' -> bs = bs'.
Proof.
  intros H. revert bs'. induction H as [|b p bs Hv Hb H IH]; intros bs' H'; inversion H' as [|? p' ? Hv' Hb' Hc']; subst; try done.
  f_equal. apply IH. congruence.
Qed.

(** The metapage is not looked at by the passes. *)
Lemma marked_by_meta D rel s s' meta : meta_updated s s' meta -> marked_by D rel (index s) -> marked_by D rel (index s').
Proof.
  intros [_ _ (q & Hq & Hq') Hb Ht Hitems Hlen Hrel] [H1 H2 H3 H4 Hk H5 H6 Hit H7 H8].
  split; intros; rewrite ?Ht; eauto.
  - destruct (decide (b = HNSW_METAPAGE_BLKNO)) as [->|Hne].
    + rewrite Hq' in H. injection H as <-. destruct (H6 _ _ Hq) as (p & Hp & A1 & A2 & A3). exists p. split; [done|].
      split; [|done]. intros Hpok. destruct (A1 Hpok). by split.
    + rewrite Hb in H by done. by apply H6.
  - by etrans.
  - congruence.
  - rewrite Hrel, H8. by destruct rel.
Qed.

Lemma MarkDeleted_run fuel s meta :
  index_ok (index s) -> elements_ok (index s) -> meta_ok (index s) meta -> xlog s = None ->
  2 <= nlen (index s) <= Z.of_nat fuel ->
  exists bs s' meta', chain_of (index s) HNSW_HEAD_BLKNO bs /\ MarkDeleted fuel s = Ok (tt, s') /\
    marked_by (in_pages bs) (index s) (index s') /\ mem s' = mem s /\ xlog s' = None /\
    meta_ok (index s') meta' /\ (mp_insertPage meta' = mp_insertPage meta \/ mp_insertPage meta' ∈ bs) /\
    exists ip, meta' = HnswUpdateMetaPageInfo 0 None ip meta.
Proof.
  intros Hix Hel Hmeta Hx Hlen. unfold HNSW_HEAD_BLKNO.
  destruct (chain_exists (index s) 1 Hix ltac:(lia)) as (bs & Hchain & Hnd & Hrange & Hbs).
  assert (Forall (fun c => 1 <= c) bs) as Hpos by (eapply List.Forall_impl; [|exact Hrange]; simpl; lia).
  destruct (mark_pages_run (index s) Hix Hel bs bs fuel 1 InvalidBlockNumber [] s Hchain Hnd Hpos ltac:(done) ltac:(lia) Hx)
    as (ip & s1 & Hrun & Hx1 & Hm1 & HD & Hip & Hmeta1).
  { apply (marked_by_ext (fun _ _ => False)); [|by apply marked_by_none]. intros c o et _. unfold in_pages.
    split; [done|]. by intros ?%elem_of_nil. }
  { by left. }
  destruct (HnswUpdateMetaPage_run s1 meta 0 NULL None ip (Hmeta1 _ Hmeta) Hx1 eq_refl) as (s' & Hrun' & Hmu & Hmeta').
  set (meta' := HnswUpdateMetaPageInfo 0 None ip meta) in *.
  exists bs, s', meta'. split; [done|]. split; [|split; [|split; [|split; [|split; [done|split; [|by exists ip]]]]]].
  - unfold MarkDeleted, HNSW_HEAD_BLKNO. run Hrun. apply Hrun'.
  - eapply marked_by_meta; [exact Hmu|exact HD].
  - by rewrite (mu_mem _ _ _ Hmu).
  - by rewrite (mu_xlog _ _ _ Hmu).
  - unfold meta', HnswUpdateMetaPageInfo. simpl. destruct Hip as [->|Hip]; [by left|].
    destruct (BlockNumberIsValid ip); [by right|by left].
Qed.

(** C13: the third pass of vacuum.  [MarkDeleted] goes once through the chain of
    pages from the head and ends without an error.  Exactly the elements of
    these pages without heap TIDs that were not marked yet are marked: their
    element tuple gets the flag and the next version, their neighbor tuple the
    same version and no neighbors.  No other tuple changes, also when neighbor
    tuples are on other pages; the insert page of the metapage becomes a page
    of the chain or stays. *)
Theorem MarkDeleted_correct fuel s meta :
  index_ok (index s) -> elements_ok (index s) -> meta_ok (index s) meta -> xlog s = None ->
  2 <= nlen (index s) <= Z.of_nat fuel ->
  exists bs s' meta', chain_of (index s) HNSW_HEAD_BLKNO bs /\ MarkDeleted fuel s = Ok (tt, s') /\
    marked_by (in_pages bs) (index s) (index s') /\ mem s' = mem s /\ xlog s' = None /\
    meta_ok (index s') meta' /\ (mp_insertPage meta' = mp_insertPage meta \/ mp_insertPage meta' ∈ bs).
Proof.
  intros Hix Hel Hmeta Hx Hlen. destruct (MarkDeleted_run fuel s meta Hix Hel Hmeta Hx Hlen) as (bs & s' & meta' & H1 & H2 & H3 & H4 & H5 & H6 & H7 & _).
  by exists bs, s', meta'.
Qed.

Lemma next_version_range v : 1 <= v <= 15 -> 1 <= next_version v <= 15 /\ next_version v <> v.
Proof.
  intros Hv. unfold next_version. rewrite u8_small by lia. destruct (Z.ltb_spec 15 (v + 1)); lia.
Qed.

(** C28: readers of a marked element.  After [MarkDeleted] the neighbors of a
    marked element cannot be read with what was loaded from its element tuple
    before: [HnswLoadNeighborTids] answers that the tuple was deleted or
    replaced, in every layer.  The versions stay between 1 and 15. *)
Theorem MarkDeleted_stale_readers fuel s meta :
  index_ok (index s) -> elements_ok (index s) -> meta_ok (index s) meta -> xlog s = None ->
  2 <= nlen (index s) <= Z.of_nat fuel ->
  exists bs s', chain_of (index s) HNSW_HEAD_BLKNO bs /\ MarkDeleted fuel s = Ok (tt, s') /\
    forall b off et el m lm lc, b ∈ bs -> tuple_at (index s) b off = Some (ElementTuple et) -> to_mark et = true ->
      1 <= et_version et <= 15 ->
      el_version el = et_version et -> (el_neighborPage el, el_neighborOffno el) = neighbor_of et ->
      HnswLoadNeighborTids el m lm lc s' = Ok (None, s') /\
      exists et', tuple_at (index s') b off = Some (ElementTuple et') /\ et_deleted et' = 1 /\ 1 <= et_version et' <= 15.
Proof.
  intros Hix Hel Hmeta Hx Hlen.
  destruct (MarkDeleted_run fuel s meta Hix Hel Hmeta Hx Hlen) as (bs & s' & meta' & Hchain & Hrun & HD & _).
  destruct (chain_exists (index s) 1 Hix ltac:(lia)) as (bs2 & Hchain2 & _ & Hrange & _).
  assert (bs2 = bs) as -> by (by eapply chain_unique).
  exists bs, s'. split; [done|]. split; [done|]. intros b off et el m lm lc Hin Ht Hmark Hv Hver [= Hpage Hoffno].
  assert (1 <= b) as Hb1 by (rewrite list.Forall_forall in Hrange; apply Hrange in Hin; lia).
  destruct (next_version_range _ Hv) as [Hv1 Hv2].
  destruct (eo_neighbors _ Hel b off et Hb1 Ht) as (_ & nt & Hnt & _).
  assert (marks (in_pages bs) (index s) b off et) as Hmk by done.
  pose proof (mb_emptied _ _ _ HD _ _ nt b off et Hnt Hmk eq_refl) as Hnt'.
  split.
  - unfold HnswLoadNeighborTids. rewrite Hpage, Hoffno. rewrite (read_tuple_run s' _ _ _ _ Hnt').
    run (lift_res_run (as_neighbor (NeighborTuple _)) _ _ eq_refl). cbn [marked_neighbors nt_version]. rewrite Hver.
    destruct (Z.eqb_spec (next_version (et_version et)) (et_version et)); [done|]. done.
  - exists (mark_element et). split; [by apply (mb_marked _ _ _ HD)|done].
Qed.

(** ** Witness: an index whose second element has no heap TIDs *)

Definition dead_page : Page :=
  page_with (page_with (page_with (page_with HnswInitPage (sample_etup 1 value1) 88) (sample_neighbors tid2) 32)
    (ElementTuple (mkHnswElementTuple 0 0 1 (replicate 10 ItemPointerSetInvalid) (ItemPointerSet 1 4) 0 value2)) 88)
    (sample_neighbors tid1) 32.
Definition dead_relation : Relation :=
  mkRelation [sample_meta; dead_page] [] (Some (mkHnswOptions 2 64)) 1 true sample_support None.
Definition dead_state : Backend := mkBackend ∅ dead_relation None.

Lemma dead_page_ok : page_ok dead_page.
Proof.
  assert (page_ok (page_with (page_with HnswInitPage (sample_etup 1 value1) 88) (sample_neighbors tid2) 32)) as H2.
  { apply page_with_ok; [apply page_with_ok; [exact HnswInitPage_ok|lia|]|lia|]; vm_compute; discriminate. }
  unfold dead_page. apply page_with_ok; [apply page_with_ok; [exact H2|lia|]|lia|]; vm_compute; discriminate.
Qed.

Lemma dead_index_ok : index_ok dead_relation.
Proof.
  apply (one_page_index_ok _ sample_meta dead_page); [done|exact dead_page_ok|done|].
  intros off et Hin. page_cases Hin.
Qed.

Lemma dead_elements_ok : elements_ok dead_relation.
Proof.
  split.
  - intros b off et Hb Ht. destruct (tuple_one dead_relation sample_meta dead_page eq_refl b off _ Hb Ht) as [_ Hin].
    page_cases Hin; by eexists.
  - intros b off et Hb Ht. destruct (tuple_one dead_relation sample_meta dead_page eq_refl b off _ Hb Ht) as [_ Hin].
    page_cases Hin; (split; [by vm_compute|]); eexists; (split; [vm_compute; reflexivity|by vm_compute]).
  - intros b off et b' off' et' Hb Hb' Ht Ht'.
    destruct (tuple_one dead_relation sample_meta dead_page eq_refl b off _ Hb Ht) as [-> Hin].
    destruct (tuple_one dead_relation sample_meta dead_page eq_refl b' off' _ Hb' Ht') as [-> Hin']. clear Ht Ht'.
    page_cases Hin; page_cases Hin'; vm_compute; intros; congruence.
Qed.

Lemma dead_meta_ok : meta_ok dead_relation (pd_contents sample_meta).
Proof. exists sample_meta. by split_and!. Qed.

Lemma MarkDeleted_correct_witness :
  exists bs s' meta', chain_of dead_relation HNSW_HEAD_BLKNO bs /\ MarkDeleted 2 dead_state = Ok (tt, s') /\
    marked_by (in_pages bs) dead_relation (index s') /\ mem s' = ∅ /\ xlog s' = None /\
    meta_ok (index s') meta' /\ (mp_insertPage meta' = 1 \/ mp_insertPage meta' ∈ bs).
Proof.
  apply (MarkDeleted_correct 2 dead_state (pd_contents sample_meta) dead_index_ok dead_elements_ok dead_meta_ok eq_refl).
  by vm_compute.
Defined.

(** The second element, at version 1, is marked. *)
Lemma MarkDeleted_stale_readers_witness :
  exists s', MarkDeleted 2 dead_state = Ok (tt, s') /\
    HnswLoadNeighborTids (mkHnswElement NULL [] 0 0 1 0 None 1 3 4 1 None) 2 4 0 s' = Ok (None, s').
Proof.
  destruct (MarkDeleted_stale_readers 2 dead_state (pd_contents sample_meta) dead_index_ok dead_elements_ok dead_meta_ok eq_refl ltac:(by vm_compute))
    as (bs & s' & Hchain & Hrun & Hread).
  exists s'. split; [exact Hrun|].
  refine (proj1 (Hread 1 3 (mkHnswElementTuple 0 0 1 (replicate 10 ItemPointerSetInvalid) (ItemPointerSet 1 4) 0 value2)
    (mkHnswElement NULL [] 0 0 1 0 None 1 3 4 1 None) 2 4 0 _ _ _ _ _ _)).
  - inversion Hchain; subst. left.
  - vm_compute. reflexivity.
  - reflexivity.
  - simpl. lia.
  - reflexivity.
  - vm_compute. reflexivity.
Defined.
