(* ===== verification/RepairSpec.v ===== *)
(** * Vacuum: what the repair of the graph does

    The second pass of HnswVacuum.v on a well-formed index (IndexWf.v): the
    elements that still have heap TIDs get neighbors that have some too.  The
    elements that lost theirs are still in the graph, so that it can be searched,
    but no neighbor tuple of the others refers to them afterwards. *)

From Stdlib Require Import SpecFloat.
From S2P Require Import Prelude CFloat VectorType GraphSearch ItemPtr HnswData BufPage Backend HnswUtils SearchLayer.
From S2P Require Import LayerRefinement PageUpdate MetaPage DiskGraph Tuples QSort SelectNeighbors UpdateConnection FindNeighbors.
From S2P Require Import HnswInsert InsertSpec AddElement IndexWf InsertSearch InsertOnDisk HnswVacuum.

(** ** Whether an element needs new neighbors *)

(** No neighbor of the element is in [D]. *)
Definition clean_tuple_of (D : gset ItemPointerData) (ntup : HnswNeighborTupleData) : Prop :=
  forall t, t ∈ nt_indextids ntup -> ItemPointerIsValid t = true -> t ∉ D.

Definition clean (D : gset ItemPointerData) (rel : Relation) (k : ItemPointerData) : Prop :=
  forall etup ntup, element_at rel k = Some etup -> neighbor_at rel (et_neighbortid etup) = Some ntup -> clean_tuple_of D ntup.

Lemma any_deleted_run D ntup n : forall i, 0 <= i -> i + Z.of_nat n <= Z.of_nat (length (nt_indextids ntup)) ->
  exists b, any_deleted D ntup i n = Ok b /\
    (b = false -> forall j t, i <= Z.of_nat j < i + Z.of_nat n -> nt_indextids ntup !! j = Some t -> ItemPointerIsValid t = true -> t ∉ D).
Proof.
  induction n as [|n IH]; intros i Hi Hn; [exists false; split; [done|]; intros _ j t Hj; lia|].
  destruct (lookup_lt_is_Some_2 (nt_indextids ntup) (Z.to_nat i) ltac:(lia)) as [t0 Ht0]. cbn [any_deleted].
  assert (Hat : indextid_at ntup i = Ok t0) by (unfold indextid_at; destruct (Z.ltb_spec i 0); [lia|]; by rewrite Ht0).
  rewrite Hat, bind_Ok. destruct (IH (i + 1) ltac:(lia) ltac:(lia)) as (b & Eb & Hb).
  assert (Hstep : t0 ∉ D \/ ItemPointerIsValid t0 = false -> b = false -> forall j t, i <= Z.of_nat j < i + Z.of_nat (S n) ->
    nt_indextids ntup !! j = Some t -> ItemPointerIsValid t = true -> t ∉ D).
  { intros H0 Hbf j t Hj Ht Hv. destruct (decide (Z.of_nat j = i)) as [Hji|Hji]; [|by apply (Hb Hbf j t); [lia| |]].
    replace (Z.to_nat i) with j in Ht0 by lia. destruct H0; congruence. }
  destruct (ItemPointerIsValid t0) eqn:Ev; cbn [negb].
  - unfold DeletedContains. case_bool_decide as Hd; [by exists true|]. exists b. split; [done|]. apply Hstep. by left.
  - exists b. split; [done|]. apply Hstep. by right.
Qed.

Section Needs.
Context (D : gset ItemPointerData) (m : Z) (good : Vector -> Prop) (E : gset ItemPointerData) (s : Backend).
Context (Hwf : pages_wf (index s) m good E).

Lemma needs_updated_run k etup ntup : element_wf (index s) m good E k etup ntup ->
  exists b, needs_updated D ntup = Ok b /\ (b = false -> clean_tuple_of D ntup).
Proof using Hwf.
  intros W. pose proof (pages_m _ _ _ _ Hwf). pose proof (ew_level _ _ _ _ _ _ _ W). pose proof (ew_count _ _ _ _ _ _ _ W) as Hc.
  pose proof (ew_length _ _ _ _ _ _ _ W) as Hl. assert (Hpos : 0 < nt_count ntup) by nia.
  destruct (any_deleted_run D ntup (Z.to_nat (nt_count ntup)) 0 ltac:(lia) ltac:(lia)) as (b & Eb & Hb).
  unfold needs_updated. rewrite Eb, bind_Ok. destruct b; [by exists true|].
  destruct (lookup_lt_is_Some_2 (nt_indextids ntup) (Z.to_nat (nt_count ntup - 1)) ltac:(lia)) as [t0 Ht0].
  assert (Hat : indextid_at ntup (nt_count ntup - 1) = Ok t0)
    by (unfold indextid_at; destruct (Z.ltb_spec (nt_count ntup - 1) 0); [lia|]; by rewrite Ht0).
  rewrite Hat, bind_Ok. eexists. split; [done|]. intros _ t (j & Hj)%list_elem_of_lookup Hv.
  apply (Hb eq_refl j t); [|done|done]. apply lookup_lt_Some in Hj. lia.
Qed.

(** What the repair knows of an element it has loaded. *)
Record item_loaded (el : HnswElementData) (k : ItemPointerData) (etup : HnswElementTupleData) : Prop := {
  il_tid : ItemPointerSet (el_blkno el) (el_offno el) = k;
  il_block : BlockNumber_ok (el_blkno el);
  il_level : el_level el = et_level etup;
  il_version : el_version el = et_version etup;
  il_page : (el_neighborPage el, el_neighborOffno el) = neighbor_of etup;
  il_value : el_value el = Some (et_data etup)
}.

Lemma NeedsUpdated_run e el k etup : mem s !! e = Some el -> item_loaded el k etup -> element_at (index s) k = Some etup -> k ∈ E ->
  exists b, NeedsUpdated D e s = Ok (b, s) /\ (b = false -> clean D (index s) k).
Proof using Hwf.
  intros He Hil Hat Hk. destruct (element_of _ _ _ _ Hwf k Hk) as (et & ntup & Hat' & W). rewrite Hat in Hat'. injection Hat' as <-.
  destruct (needs_updated_run k etup ntup W) as (b & Eb & Hb). exists b. split.
  - unfold NeedsUpdated. run (load_element_run _ _ _ He). injection (il_page _ _ _ Hil) as -> ->.
    pose proof (ew_neighbor _ _ _ _ _ _ _ W) as Hn. apply neighbor_at_place in Hn. rewrite (read_tuple_run s _ _ _ _ Hn).
    run (lift_res_run (as_neighbor (NeighborTuple ntup)) s ntup eq_refl). by rewrite Eb.
  - intros Hf et nt Het Hnt. rewrite Hat in Het. injection Het as <-. rewrite (ew_neighbor _ _ _ _ _ _ _ W) in Hnt. injection Hnt as <-. auto.
Qed.
End Needs.

(** ** A step of the repair *)

(** Neighbor tuples and the metapage change; the elements in [E] that were clean
    still are. *)
Record repaired (m : Z) (good : Vector -> Prop) (E D : gset ItemPointerData) (s s' : Backend) : Prop := {
  rd_wf : pages_wf (index s') m good E;
  rd_xlog : xlog s' = None;
  rd_elements k : element_at (index s') k = element_at (index s) k;
  rd_kept : rel_kept (index s) (index s');
  rd_links : links_kept (index s) (index s');
  rd_rel : index s' = with_pages (index s) MAIN_FORKNUM (rd_main (index s'));
  rd_clean k : k ∈ E -> clean D (index s) k -> clean D (index s') k
}.

(** What is known of the metapage stays true. *)
Definition keeps_entry (s s' : Backend) : Prop := forall meta E0, entry_wf (index s) meta E0 -> entry_wf (index s') meta E0.

#[export] Instance keeps_entry_preorder : PreOrder keeps_entry.
Proof. split; [by intros s meta E0|]. intros s1 s2 s3 H1 H2 meta E0 Hen. by apply H2, H1. Qed.

Section Steps.
Context (m : Z) (good : Vector -> Prop) (E D : gset ItemPointerData).

Lemma repaired_refl s : pages_wf (index s) m good E -> xlog s = None -> repaired m good E D s s.
Proof using Type. intros Hwf Hx. split; try done. by destruct (index s). Qed.

Lemma repaired_same s s' : pages_wf (index s) m good E -> xlog s = None -> index s' = index s -> xlog s' = xlog s ->
  repaired m good E D s s'.
Proof using Type. intros Hwf Hx Hi Hl. split; rewrite ?Hi; try done; [by rewrite Hl|by destruct (index s)]. Qed.

Lemma repaired_trans s1 s2 s3 : repaired m good E D s1 s2 -> repaired m good E D s2 s3 -> repaired m good E D s1 s3.
Proof using Type.
  intros [A1 A2 A3 A4 A5 A6 A7] [B1 B2 B3 B4 B5 B6 B7]. split; try done; [congruence|by etrans|by etrans| |auto].
  rewrite B6, A6 at 1. by destruct (index s1).
Qed.

Lemma repaired_extends s1 s s' : repaired m good E D s1 s -> extends s s' -> repaired m good E D s1 s'.
Proof using Type. intros [A1 A2 A3 A4 A5 A6 A7] (_ & Hi & Hx). split; rewrite ?Hi; try done. congruence. Qed.
End Steps.

Lemma extends_keeps_entry s s' : extends s s' -> keeps_entry s s'.
Proof. intros (_ & Hi & _) meta E0. by rewrite Hi. Qed.

(** The arrays of an element are about the elements of the pages only. *)
Lemma arrays_wf_elements rel rel' m E e m1 ns : (forall k, element_at rel' k = element_at rel k) ->
  arrays_wf rel m E e m1 ns -> arrays_wf rel' m E e m1 ns.
Proof.
  intros He Ha i a Hi. destruct (Ha i a Hi) as [Hl Hf]. split; [done|]. eapply List.Forall_impl; [|exact Hf].
  intros hc [(N1 & N2 & k & x & etup & N3 & N4 & N5 & N6) N7]. split; [|done]. split; [done|]. split; [done|]. exists k, x, etup.
  rewrite He. by rewrite (layer_same rel rel' E).
Qed.

(** ** One element *)

Section Element.
Context `{Palloc} `{ListSort} (garbage : HnswCandidate) (efConstruction : Z) (fuel : nat).
Context (m : Z) (good : Vector -> Prop) (E D : gset ItemPointerData).

(** The elements in [D] are those without heap TIDs. *)
Definition emptied_set (rel : Relation) : Prop := forall k, k ∈ E -> k ∈ D <-> heap_tids rel k = [].

(** An element the repair works on. *)
Record repairable (s : Backend) (e : addr) (el : HnswElementData) (k : ItemPointerData) (etup : HnswElementTupleData) : Prop := {
  ra_mem : mem s !! e = Some el;
  ra_loaded : item_loaded el k etup;
  ra_at : element_at (index s) k = Some etup;
  ra_in : k ∈ E;
  ra_live : k ∉ D
}.

(** A neighbor that is selected has heap TIDs. *)
Lemma held_live rel e m1 lc hc : emptied_set rel -> held_cand rel E e m1 lc hc ->
  exists k x, m1 !! hc_element hc = Some x /\ ItemPointerSet (el_blkno x) (el_offno x) = k /\ k ∈ layer rel E lc /\ k ∉ D.
Proof using Type.
  intros Hemp [(_ & _ & k & x & etup & Hx & Hk & Het & Hlf & _) (y & Hy & Hh)]. rewrite Hx in Hy. injection Hy as <-.
  exists k, x. split; [done|]. split; [apply (lf_tid _ _ _ Hlf)|]. split; [done|]. apply elem_of_layer in Hk as [Hk _].
  rewrite (Hemp k Hk). unfold heap_tids. rewrite Het, <- (lf_heaptids _ _ _ Hlf). done.
Qed.

(** The neighbor tuple of the element, rewritten. *)
Section Rewrite.
Context (s : Backend) (e : addr) (el : HnswElementData) (k : ItemPointerData) (etup : HnswElementTupleData) (ns : list HnswNeighborArray).
Context (Hwf : pages_wf (index s) m good E) (Hx : xlog s = None) (Hemp : emptied_set (index s)).
Context (He : repairable s e el k etup) (Hns : el_neighbors el = Some ns) (Hlen : Z.of_nat (length ns) = el_level el + 1).
Context (Harr : arrays_wf (index s) m E e (mem s) ns).

Definition repaired_tuple : HnswNeighborTupleData :=
  mkHnswNeighborTuple (el_version el) ((el_level el + 2) * m) (all_slots (layer_padded NULL m s ns) (Z.to_nat (el_level el))).

Lemma repaired_slot lc t : (lc <= Z.to_nat (el_level el))%nat -> t ∈ layer_padded NULL m s ns lc ->
  t = ItemPointerSetInvalid \/ t ∈ layer (index s) E (Z.of_nat lc) /\ t ∉ D.
Proof using Harr Hemp.
  intros Hlc [->|(hc & Hhc & ->)]%elem_of_padded; [by left|right]. unfold layer_items in Hhc.
  destruct (ns !! lc) as [a|] eqn:Ea; [|by apply elem_of_nil in Hhc]. destruct (Harr lc a Ea) as [_ Hf].
  rewrite list.Forall_forall in Hf. destruct (held_live _ _ _ _ _ Hemp (Hf hc Hhc)) as (k' & x & Hxm & Htid & Hk & HD).
  unfold neighbor_tid. change (HnswPtrAccess NULL (hc_element hc)) with (hc_element hc). rewrite Hxm, Htid. done.
Qed.

Lemma repaired_neighbors_ok : neighbors_ok NULL m s el ns.
Proof using Hwf He Hns Hlen Harr.
  destruct (element_of _ _ _ _ Hwf k (ra_in _ _ _ _ _ He)) as (et & nt & Het & W). rewrite (ra_at _ _ _ _ _ He) in Het. injection Het as <-.
  pose proof (ew_level _ _ _ _ _ _ _ W). pose proof (il_level _ _ _ (ra_loaded _ _ _ _ _ He)).
  split; [lia|done|done|]. intros lc a Ha. destruct (Harr lc a Ha) as [Hl Hf]. split; [done|]. intros hc Hhc.
  rewrite list.Forall_forall in Hf. destruct (Hf hc Hhc) as [_ (x & Hxm & _)]. by exists x.
Qed.

(** Its shape is that of the old tuple, its neighbors are in the layers. *)
Lemma repaired_tuple_wf ntup : element_wf (index s) m good E k etup ntup ->
  nt_version repaired_tuple = nt_version ntup /\ nt_count repaired_tuple = nt_count ntup /\
  length (nt_indextids repaired_tuple) = length (nt_indextids ntup) /\
  Forall ItemPointer_ok (nt_indextids repaired_tuple) /\ clean_tuple_of D repaired_tuple /\
  forall lc t, 0 <= lc <= et_level etup -> t ∈ layer_slots m (HnswGetLayerM m lc) lc etup repaired_tuple ->
    ItemPointerIsValid t = true -> t ∈ layer (index s) E lc.
Proof using Hwf He Hns Hlen Harr Hemp.
  intros W. pose proof repaired_neighbors_ok as Hnok. pose proof (ra_loaded _ _ _ _ _ He) as Hil. pose proof (pages_m _ _ _ _ Hwf) as Hm.
  pose proof (fun lc => length_layer_padded NULL m s el ns lc Hnok ltac:(lia)) as Hlp.
  pose proof (il_level _ _ _ Hil) as Hlev. pose proof (ew_level _ _ _ _ _ _ _ W) as Hl.
  assert (Hslot : forall t, t ∈ nt_indextids repaired_tuple -> t = ItemPointerSetInvalid \/ t ∈ E /\ t ∉ D).
  { intros t (lc & Hlc & Ht)%elem_of_all_slots. destruct (repaired_slot lc t Hlc Ht) as [|[[Hk _]%elem_of_layer HD]]; auto. }
  split; [|split; [|split; [|split; [|split]]]].
  - by rewrite (ew_version _ _ _ _ _ _ _ W), <- (il_version _ _ _ Hil).
  - by rewrite (ew_count _ _ _ _ _ _ _ W), <- Hlev.
  - cbn [repaired_tuple nt_indextids]. pose proof (ew_length _ _ _ _ _ _ _ W). apply Nat2Z.inj. rewrite (length_all_slots m _ ltac:(lia) Hlp). lia.
  - apply list.Forall_forall. intros t [->|[Hk _]]%Hslot; [by vm_compute|]. by apply (pw_tid _ _ _ _ Hwf).
  - intros t [->|[_ HD]]%Hslot Hv; done.
  - intros lc t Hlc Ht Hv. unfold layer_slots in Ht. rewrite <- Hlev in Ht. cbn [repaired_tuple nt_indextids] in Ht.
    pose proof (layer_of_all_slots m _ ltac:(lia) Hlp (Z.to_nat (el_level el)) (Z.to_nat lc) ltac:(lia)) as Hlay.
    rewrite !Z2Nat.id in Hlay by lia. rewrite Hlay in Ht.
    destruct (repaired_slot (Z.to_nat lc) t ltac:(lia) Ht) as [->|[HE _]]; [done|]. by rewrite Z2Nat.id in HE by lia.
Qed.

Lemma rewrite_run : exists s', (forall A (next : M Backend A),
    (ntup ← HnswSetNeighborTuple NULL e m ;
     x ← load_element e ;
     buf ← ReadBuffer (el_neighborPage x) ;
     page ← open_page MAIN_FORKNUM false buf ;
     p ← read_page MAIN_FORKNUM page ;
     '(ok, p) ← lift_res (PageIndexTupleOverwrite p (el_neighborOffno x) (NeighborTuple ntup)
       (HNSW_NEIGHBOR_TUPLE_SIZE (el_level el) m)) ;
     lift_res (raise_if (negb ok) ERR_failed_to_add_index_item) ;;
     write_page MAIN_FORKNUM page p ;;
     GenericXLogFinish MAIN_FORKNUM ;;
     next) s = next s') /\
  tuple_replaced s s' (neighbor_of etup).1 (neighbor_of etup).2 (NeighborTuple repaired_tuple).
Proof using Hwf Hx He Hns Hlen Harr.
  pose proof repaired_neighbors_ok as Hnok. pose proof (ra_loaded _ _ _ _ _ He) as Hil. pose proof (pages_m _ _ _ _ Hwf) as Hm.
  destruct (element_of _ _ _ _ Hwf k (ra_in _ _ _ _ _ He)) as (et & nt & Het & W). rewrite (ra_at _ _ _ _ _ He) in Het. injection Het as <-.
  pose proof (il_level _ _ _ Hil) as Hlev. pose proof (ew_level _ _ _ _ _ _ _ W) as Hl.
  destruct (maxlevel_bound m (el_level el) ltac:(unfold HNSW_MIN_M, HNSW_MAX_M; lia) ltac:(lia)) as [Hcount _].
  pose proof (neighbor_size_bound m (el_level el) ltac:(unfold HNSW_MIN_M, HNSW_MAX_M; lia) ltac:(lia)) as Hsz.
  destruct (ew_size _ _ _ _ _ _ _ W) as (p & it & Hp & Hit & Hsize). rewrite <- Hlev in Hsize.
  assert (Hb1 : 1 <= ItemPointerGetBlockNumber (et_neighbortid etup)).
  { apply (eo_neighbors _ (pw_elements _ _ _ _ Hwf) (place_of k).1 (place_of k).2 etup).
    - apply (pw_tid _ _ _ _ Hwf), (ra_in _ _ _ _ _ He).
    - apply element_at_place, (ra_at _ _ _ _ _ He). }
  destruct (overwritten_replaced s _ p _ it (NeighborTuple repaired_tuple) _ (pw_index _ _ _ _ Hwf) Hb1 Hp Hit Hsize ltac:(lia))
    as (p' & Eov & Hr).
  eexists. split; [|exact Hr]. intros A next. pose proof (ra_mem _ _ _ _ _ He) as Hem.
  run (HnswSetNeighborTuple_run NULL m s e el ns Hem Hnok ltac:(lia) ltac:(lia)). run (load_element_run _ _ _ Hem).
  injection (il_page _ _ _ Hil) as -> ->. run (ReadBuffer_run _ _ _ Hp).
  run (open_page_run MAIN_FORKNUM false _ p s Hp). run (read_page_run MAIN_FORKNUM false _ p s Hp p).
  fold repaired_tuple. run (lift_res_run _ (opened MAIN_FORKNUM false (ItemPointerGetBlockNumber (et_neighbortid etup)) p s) _ Eov).
  run (lift_res_run (raise_if (negb true) ERR_failed_to_add_index_item)
    (opened MAIN_FORKNUM false (ItemPointerGetBlockNumber (et_neighbortid etup)) p s) tt eq_refl).
  run (write_page_run MAIN_FORKNUM false _ p s Hp p p').
  change (GenericXLogFinish MAIN_FORKNUM) with (commit_page MAIN_FORKNUM false). by run (commit_page_run MAIN_FORKNUM false
    (ItemPointerGetBlockNumber (et_neighbortid etup)) s Hx p').
Qed.
End Rewrite.

(** ** [RepairGraphElement] *)

(** The entry point stands for [k] when its fields do. *)
Lemma entry_at_tid s e entryPoint k en : entry_at E e s entryPoint k -> mem s !! entryPoint = Some en ->
  ItemPointerSet (el_blkno en) (el_offno en) = k.
Proof using Type. intros (_ & _ & _ & en' & Hen' & _ & Hk) Hen. congruence. Qed.

(** What a repair leaves in memory: the element where it was, the entry point
    with its level or that of its tuple, and all else. *)
Record repair_mem (s s' : Backend) (e : addr) (el : HnswElementData) (entryPoint : addr) : Prop := {
  rm_element : exists el', mem s' !! e = Some el' /\ el_level el' = el_level el /\ el_blkno el' = el_blkno el /\ el_offno el' = el_offno el;
  rm_entry k en etup : entry_at E e s entryPoint k -> mem s !! entryPoint = Some en -> element_at (index s) k = Some etup ->
    el_level en = et_level etup -> exists en', mem s' !! entryPoint = Some en' /\ el_level en' = et_level etup;
  rm_others p x : p <> e -> p <> entryPoint -> mem s !! p = Some x -> mem s' !! p = Some x
}.

Lemma is_same_element_run s e el entryPoint : mem s !! e = Some el -> entryPoint = NULL \/ (exists k, entry_at E e s entryPoint k) ->
  exists b, is_same_element e entryPoint s = Ok (b, s) /\
    (b = true -> entry_at E e s entryPoint (ItemPointerSet (el_blkno el) (el_offno el))).
Proof using Type.
  intros He Hen. unfold is_same_element. destruct Hen as [->|(k & Hat)]; [by exists false|].
  pose proof Hat as (Hn & Hne & Hin & en & Hen & Hb & Hk). destruct (N.eqb_spec entryPoint NULL); [done|].
  run (load_element_run _ _ _ He). run (load_element_run _ _ _ Hen). eexists. split; [done|]. unfold same_tid.
  intros [E1%Z.eqb_eq E2%Z.eqb_eq]%andb_true_iff. rewrite E1, E2, Hk. done.
Qed.

(** The neighbor tuple alone. *)
Lemma rewrite_repaired s s' e el k etup ns : pages_wf (index s) m good E -> xlog s = None -> emptied_set (index s) ->
  repairable s e el k etup -> el_neighbors el = Some ns -> Z.of_nat (length ns) = el_level el + 1 ->
  arrays_wf (index s) m E e (mem s) ns ->
  tuple_replaced s s' (neighbor_of etup).1 (neighbor_of etup).2 (NeighborTuple (repaired_tuple s el ns)) ->
  repaired m good E D s s' /\ keeps_entry s s' /\ clean D (index s') k.
Proof using Type.
  intros Hwf Hx Hemp He Hns Hlen Harr Hr.
  destruct (element_of _ _ _ _ Hwf k (ra_in _ _ _ _ _ He)) as (et & nt & Het & W). rewrite (ra_at _ _ _ _ _ He) in Het. injection Het as <-.
  destruct (repaired_tuple_wf s e el k etup ns Hwf Hemp He Hns Hlen Harr nt W) as (V1 & V2 & V3 & V4 & V5 & V6).
  destruct (pages_wf_slots s s' m good E k etup nt _ Hwf (ra_in _ _ _ _ _ He) W V1 V2 V3 V4 V6 Hr) as (Hkept & Hat & Hwf').
  split; [split|split].
  - done.
  - by rewrite (tr_xlog _ _ _ _ _ Hr).
  - done.
  - done.
  - by eapply replaced_links_kept.
  - apply (tr_rel _ _ _ _ _ Hr).
  - intros k' Hk' Hc et' nt' He' Hn'. rewrite Hat in He'. apply neighbor_at_place in Hn'.
    rewrite (replaced_tuple _ _ _ _ _ Hr) in Hn'. case_decide as Hd; [by injection Hn' as <-|].
    apply (Hc et' nt' He'). by apply neighbor_at_place.
  - intros meta E0 Hen. eapply kept_entry; [exact Hkept| | |exact Hen].
    + eapply replaced_meta; [exact Hr|apply Hen].
    + rewrite (replaced_length _ _ _ _ _ Hr). lia.
  - intros et' nt' He' Hn'. rewrite Hat, (ra_at _ _ _ _ _ He) in He'. injection He' as <-. apply neighbor_at_place in Hn'.
    rewrite (replaced_tuple _ _ _ _ _ Hr), decide_True in Hn' by done. by injection Hn' as <-.
Qed.

(** The neighbors learn of the element, which is not in [D]. *)
Lemma updating_repaired s s' el k : ItemPointerSet (el_blkno el) (el_offno el) = k -> k ∉ D -> updating m good E s el s' ->
  repaired m good E D s s' /\ keeps_entry s s' /\ forall k', clean D (index s) k' -> clean D (index s') k'.
Proof using Type.
  intros Htid HD [U1 U2 U3 U4 U5 Uk Ul Us U6 U7].
  assert (Hclean : forall k', clean D (index s) k' -> clean D (index s') k').
  { intros k' Hc et nt He Hn t Ht Hv. rewrite U2 in He. apply neighbor_at_place in Hn.
    destruct (Us _ _ _ _ Hn Ht) as [->|(nt0 & Hn0 & Ht0)]; [by rewrite Htid|].
    apply (Hc et nt0 He); [by apply neighbor_at_place|done|done]. }
  split; [|split; [intros meta E0; apply U5|done]]. split; try done. auto.
Qed.

Context (support : HnswSupport) (Hsup : support_ok support good) (Hfuel : (size E <= fuel)%nat).

Lemma RepairGraphElement_run s e el k etup entryPoint : pages_wf (index s) m good E -> xlog s = None -> emptied_set (index s) ->
  repairable s e el k etup -> entryPoint = NULL \/ (exists k', entry_at E e s entryPoint k') ->
  exists s', RepairGraphElement garbage m efConstruction support fuel e entryPoint s = Ok (tt, s') /\
    repaired m good E D s s' /\ keeps_entry s s' /\ repair_mem s s' e el entryPoint /\
    (clean D (index s') k \/ s' = s /\ entry_at E e s entryPoint k).
Proof using Hsup Hfuel.
  intros Hwf Hx Hemp Hra Hentry. pose proof Hra as [He Hil Hat Hk HD]. unfold RepairGraphElement.
  run (load_element_run _ _ _ He). cbv zeta. destruct (is_same_element_run s e el entryPoint He Hentry) as (b & Eb & Hb). run Eb.
  destruct b.
  { exists s. split; [done|]. split; [by apply repaired_refl|]. split; [done|]. split; [|right; split; [done|by rewrite <- (il_tid _ _ _ Hil); apply Hb]].
    split; [by exists el|intros k' en etup' _ Hen _ Hl; by exists en|done]. }
  clear Hb. set (ns := replicate (Z.to_nat (el_level el + 1)) HnswInitNeighborArray).
  set (el1 := el_set_heaptids [] (HnswInitNeighbors el)). set (s1 := put e s el1).
  assert (Emod : modify_element e (fun e => el_set_heaptids [] (HnswInitNeighbors e)) s = Ok (tt, s1)).
  { unfold modify_element. run (load_element_run _ _ _ He). unfold store_element. by rewrite He. }
  run Emod. assert (He1 : mem s1 !! e = Some el1) by (unfold s1; simpl; by rewrite lookup_insert_eq).
  destruct (element_of _ _ _ _ Hwf k Hk) as (et & nt & Het & W). rewrite Hat in Het. injection Het as <-.
  pose proof (ew_level _ _ _ _ _ _ _ W) as Hl. pose proof (il_level _ _ _ Hil) as Hlev.
  assert (Hmono : forall k', entry_at E e s entryPoint k' -> entry_at E e s1 entryPoint k').
  { intros k' (N1 & N2 & N3 & en & Hen & N4). split; [done|]. split; [done|]. split; [done|]. exists en. split; [|done].
    unfold s1. simpl. by rewrite lookup_insert_ne. }
  destruct (find_neighbors_disk (hc_closer garbage) fuel (index s) m good E Hwf support Hsup Hfuel e (et_data etup) (ew_value _ _ _ _ _ _ _ W)
    true entryPoint efConstruction s1 el1 ns) as (s2 & ns2 & E2 & [F1 F2 F3 F4 F5 F6] & Hread).
  { done. } { done. } { apply Hil. } { simpl. lia. } { done. }
  { intros i a Ha. by apply lookup_replicate in Ha as [-> _]. }
  { unfold ns. rewrite length_replicate. simpl. lia. }
  { destruct Hentry as [->|(k' & Hk')]; [by left|right]. exists k'. by apply Hmono. }
  run E2. set (el2 := with_layers ns2 el1) in *.
  assert (Hlen2 : Z.of_nat (length ns2) = el_level el2 + 1) by (rewrite F4; unfold ns; rewrite length_replicate; simpl; lia).
  assert (Hra2 : repairable s2 e el2 k etup) by (split; [done|by destruct Hil; split|by rewrite F1|done|done]).
  assert (Hwf2 : pages_wf (index s2) m good E) by (by rewrite F1).
  assert (Hx2 : xlog s2 = None) by (by rewrite F2). assert (Hemp2 : emptied_set (index s2)) by (by rewrite F1).
  assert (Harr2 : arrays_wf (index s2) m E e (mem s2) ns2) by (by rewrite F1).
  destruct (rewrite_run s2 e el2 k etup ns2 Hwf2 Hx2 Hra2 eq_refl Hlen2 Harr2) as (s3 & E3 & Hr).
  destruct (rewrite_repaired s2 s3 e el2 k etup ns2 Hwf2 Hx2 Hemp2 Hra2 eq_refl Hlen2 Harr2 Hr) as (R3 & K3 & C3).
  pose proof (tr_mem _ _ _ _ _ Hr) as M3.
  assert (Htid : ItemPointerSet (el_blkno el2) (el_offno el2) = k) by apply Hil.
  destruct (HnswUpdateNeighborsOnDisk_run garbage m good E support Hsup s3 e el2 (et_data etup) ltac:(by rewrite M3) ltac:(apply Hil)
    (ew_value _ _ _ _ _ _ _ W) ltac:(apply Hil) ns2 eq_refl) with (check := true) (building := false) (s := s3) as (s4 & E4 & U4).
  { rewrite M3. eapply arrays_wf_elements; [|exact Harr2]. apply (rd_elements _ _ _ _ _ _ R3). }
  { intros lc Hlc. rewrite Htid. apply elem_of_layer. split; [done|]. exists etup. rewrite (rd_elements _ _ _ _ _ _ R3), F1.
    split; [done|]. simpl in Hlc. lia. }
  { done. } { simpl. lia. } { apply updating_start; apply R3. }
  exists s4. split; [by rewrite E3|]. destruct (updating_repaired s3 s4 el2 k Htid HD U4) as (R4 & K4 & C4).
  assert (R2 : repaired m good E D s s2) by (by apply repaired_same; [..|rewrite F1|rewrite F2]).
  split; [eapply repaired_trans; [exact R2|eapply repaired_trans; [exact R3|exact R4]]|].
  split; [intros meta E0 Hen; apply K4, K3; by rewrite F1|]. split; [|left; by apply C4].
  pose proof (up_mem _ _ _ _ _ _ U4) as HM. rewrite M3 in HM. split.
  - exists el2. split; [by eapply lookup_weaken|done].
  - intros k' en etup' Hk' Hen Het' Hlv. destruct (Hread k' (Hmono k' Hk')) as (en' & etup2 & Hen' & Het2 & Hlf).
    rewrite Het' in Het2. injection Het2 as <-. exists en'. split; [by eapply lookup_weaken|apply Hlf].
  - intros p x Hp Hpe Hpx. eapply lookup_weaken; [|exact HM]. apply F6; [done|done|]. unfold s1. simpl. by rewrite lookup_insert_ne.
Qed.
End Element.
