(* ===== verification/RepairPages.v ===== *)
(** * Vacuum: the repair of the whole graph

    [RepairGraph] of HnswVacuum.v on a well-formed index: first the element of
    the highest level and the entry point, then the elements of every page.
    Afterwards no element that is still in use has a neighbor without heap TIDs,
    and the entry point of the metapage is in use. *)

From Stdlib Require Import SpecFloat.
From S2P Require Import Prelude CFloat VectorType GraphSearch ItemPtr HnswData BufPage Backend HnswUtils SearchLayer.
From S2P Require Import LayerRefinement PageUpdate MetaPage DiskGraph Tuples QSort SelectNeighbors UpdateConnection FindNeighbors.
From S2P Require Import HnswInsert InsertSpec AddElement IndexWf InsertSearch InsertOnDisk HnswVacuum VacuumSpec RepairSpec.

(** ** The entry point *)

(** The entry point of the metapage, read into a new element [ep]. *)
Definition entry_loaded (E : gset ItemPointerData) (meta : HnswMetaPageData) (s s' : Backend) (ep : addr) : Prop :=
  if BlockNumberIsValid (mp_entryBlkno meta)
  then mem s !! ep = None /\ (forall e, is_Some (mem s !! e) -> entry_at E e s' ep (entry_tid meta)) /\
    exists en, mem s' !! ep = Some en /\ el_level en = mp_entryLevel meta /\
      ItemPointerSet (el_blkno en) (el_offno en) = entry_tid meta
  else ep = NULL /\ s' = s.

Lemma HnswGetEntryPoint_run `{Palloc} s m good meta E E0 : pages_wf (index s) m good E -> entry_wf (index s) meta E0 -> E0 ⊆ E ->
  exists ep s', HnswGetEntryPoint s = Ok (ep, s') /\ extends s s' /\ entry_loaded E meta s s' ep.
Proof.
  intros Hwf [Hmeta _ Hen _] Hsub. destruct (HnswGetMetaPageInfo_run s meta Hmeta) as (ep & s' & Erun & X & Hep).
  exists ep, s'. split; [unfold HnswGetEntryPoint; by run Erun|]. split; [done|]. unfold entry_loaded.
  destruct (BlockNumberIsValid (mp_entryBlkno meta)); [|done]. destruct Hep as (Hnull & Hfresh & en & Hin & Hb & Ho & Hl).
  destruct Hen as (Hbok & _ & HE & etup & Het & Hlev). split; [done|]. split.
  - intros e [x He]. split; [done|]. split; [intros ->; congruence|]. split; [by apply Hsub|]. exists en. split; [done|]. by rewrite Hb, Ho.
  - exists en. split; [done|]. split; [|by rewrite Hb, Ho]. rewrite Hl, <- Hlev.
    destruct (element_of _ _ _ _ Hwf _ (Hsub _ HE)) as (et & nt & Het' & W). rewrite Het in Het'. injection Het' as <-.
    pose proof (ew_level _ _ _ _ _ _ _ W). pose proof (maxlevel_nonneg m (pw_m _ _ _ _ Hwf)). apply u8_small. lia.
Qed.

(** The entry point among fewer elements. *)
Lemma entry_wf_subset rel meta E L : entry_wf rel meta E -> L ⊆ E ->
  (BlockNumberIsValid (mp_entryBlkno meta) = true -> entry_tid meta ∈ L) -> entry_wf rel meta L.
Proof.
  intros [H1 H2 H3 H4] Hsub Hin. split; try done; [|intros k et Hk; apply H4; by apply Hsub].
  destruct (BlockNumberIsValid _).
  - destruct H3 as (? & ? & _ & ?). split_and!; try done. by apply Hin.
  - destruct H3 as [-> ?]. split; [|done]. set_solver.
Qed.

(** A new entry point, or none, whatever it was. *)
Lemma entry_wf_always s s' meta e L : let meta' := HnswUpdateMetaPageInfo HNSW_UPDATE_ENTRY_ALWAYS e InvalidBlockNumber meta in
  meta_updated s s' meta' -> meta_ok (index s') meta' -> 1 <= mp_insertPage meta < nlen (index s) ->
  match e with
  | None => L = ∅
  | Some el => BlockNumber_ok (el_blkno el) /\ OffsetNumber_ok (el_offno el) /\ BlockNumberIsValid (el_blkno el) = true /\
      ItemPointerSet (el_blkno el) (el_offno el) ∈ L /\
      (exists etup, element_at (index s) (ItemPointerSet (el_blkno el) (el_offno el)) = Some etup /\ et_level etup = el_level el) /\
      forall k et, k ∈ L -> element_at (index s) k = Some et -> et_level et <= el_level el
  end ->
  entry_wf (index s') meta' L.
Proof.
  intros meta' Hu Hmeta Hins He.
  assert (Hm : meta' = match e with Some el => mp_set_entry (el_blkno el) (el_offno el) (el_level el) meta
    | None => mp_set_entry InvalidBlockNumber InvalidOffsetNumber (-1) meta end).
  { unfold meta', HnswUpdateMetaPageInfo, HNSW_UPDATE_ENTRY_ALWAYS. destruct e; simpl; by rewrite ?orb_true_r. }
  rewrite Hm in *. clear meta' Hm. split.
  - done.
  - rewrite (meta_updated_nlen _ _ _ Hu). by destruct e.
  - destruct e as [el|]; [|by rewrite He]. destruct He as (H1 & H2 & H3 & H4 & (et & H5 & H6) & _). simpl. rewrite H3.
    split_and!; try done. exists et. unfold entry_tid. simpl. by rewrite (meta_updated_elements _ _ _ Hu).
  - intros k et Hk. rewrite (meta_updated_elements _ _ _ Hu). destruct e as [el|]; [by apply He|]. rewrite He in Hk. set_solver.
Qed.

Lemma meta_repaired m good E D s s' meta : pages_wf (index s) m good E -> xlog s = None -> meta_updated s s' meta ->
  repaired m good E D s s' /\ forall k, clean D (index s) k -> clean D (index s') k.
Proof.
  intros Hwf Hx Hu. assert (Hc : forall k, clean D (index s) k -> clean D (index s') k).
  { intros k Hc et nt He Hn. rewrite (meta_updated_elements _ _ _ Hu) in He. apply (Hc et nt He).
    apply neighbor_at_place. apply neighbor_at_place in Hn. by rewrite (mu_tuples _ _ _ Hu) in Hn. }
  split; [split|done].
  - by eapply meta_updated_wf.
  - by rewrite (mu_xlog _ _ _ Hu).
  - intros k. apply (meta_updated_elements _ _ _ Hu).
  - by eapply meta_updated_kept.
  - by eapply meta_updated_links.
  - apply (mu_rel _ _ _ Hu).
  - intros k _. apply Hc.
Qed.

Lemma load_for_repair_run `{Palloc} support s e el k etup : mem s !! e = Some el -> e <> NULL -> BlockNumber_ok (el_blkno el) ->
  ItemPointerSet (el_blkno el) (el_offno el) = k -> element_at (index s) k = Some etup ->
  let el' := HnswLoadElementFromTuple el etup true true in
  load_for_repair support e s = Ok (tt, put e s el') /\ item_loaded el' k etup.
Proof.
  intros He Hn Hb Hk Hat el'. split; [|by split]. destruct (ItemPointerGet_Set (el_blkno el) (el_offno el) Hb) as [Gb Go].
  apply element_at_place in Hat. rewrite <- Hk in Hat. unfold place_of in Hat. cbn [fst snd] in Hat. rewrite Gb, Go in Hat.
  assert (Himpl : HnswLoadElementImpl (el_blkno el) (el_offno el) None support true None e s = Ok ((None, e), put e s el')).
  { unfold HnswLoadElementImpl. rewrite (read_tuple_run s _ _ _ _ Hat). run (lift_res_run (as_element (ElementTuple etup)) s etup eq_refl).
    run (lift_res_run (Ok None) s (@None double) eq_refl). apply N.eqb_neq in Hn. rewrite Hn. run (mret_run e s).
    assert (Em : modify_element e (fun x => HnswLoadElementFromTuple x etup true true) s = Ok (tt, put e s el')).
    { unfold modify_element. run (load_element_run _ _ _ He). unfold store_element. by rewrite He. }
    by run Em. }
  assert (E : HnswLoadElement e None support true None s = Ok (None, put e s el')).
  { unfold HnswLoadElement. run (load_element_run _ _ _ He). by run Himpl. }
  unfold load_for_repair. by run E.
Qed.

Section Graph.
Context `{Palloc} `{ListSort} (garbage : HnswCandidate) (efConstruction : Z) (fuel : nat).
Context (m : Z) (good : Vector -> Prop) (E D : gset ItemPointerData).
Context (support : HnswSupport) (Hsup : support_ok support good) (Hfuel : (size E <= fuel)%nat).

#[local] Abbreviation rep := (repaired m good E D).

Lemma emptied_elements rel rel' : (forall k, element_at rel' k = element_at rel k) -> emptied_set E D rel -> emptied_set E D rel'.
Proof using Type. intros He Hemp k Hk. rewrite (Hemp k Hk). unfold heap_tids. by rewrite He. Qed.

(** ** The element of the highest level *)

(** What the first pass leaves of it: it is in use, is not the entry point, and
    no other such element is of a higher level. *)
Definition highest_ok (rel : Relation) (meta : HnswMetaPageData) (hp : HnswElementData) : Prop :=
  let kh := ItemPointerSet (el_blkno hp) (el_offno hp) in
  if BlockNumberIsValid (el_blkno hp)
  then BlockNumber_ok (el_blkno hp) /\ kh ∈ E /\ (kh ∉ D) /\ kh <> entry_tid meta /\
    forall k et eth, k ∈ E -> k ∉ D -> k <> entry_tid meta -> element_at rel k = Some et -> element_at rel kh = Some eth ->
      et_level et <= et_level eth
  else forall k, k ∈ E -> k ∉ D -> k = entry_tid meta.

(** The element of the highest level after its repair. *)
Definition highest_repaired (s : Backend) (highest : addr) (hp : HnswElementData) : Prop :=
  let kh := ItemPointerSet (el_blkno hp) (el_offno hp) in
  if BlockNumberIsValid (el_blkno hp)
  then clean D (index s) kh /\ exists el eth, mem s !! highest = Some el /\ el_blkno el = el_blkno hp /\ el_offno el = el_offno hp /\
    element_at (index s) kh = Some eth /\ el_level el = et_level eth
  else True.

Lemma put_some s e (el el' : HnswElementData) p : mem s !! e = Some el -> is_Some (mem s !! p) -> is_Some (mem (put e s el') !! p).
Proof using Type.
  intros He Hp. simpl. destruct (decide (e = p)) as [->|Hne]; [rewrite lookup_insert_eq; by eexists|by rewrite lookup_insert_ne].
Qed.

Lemma repair_highest_run s meta highestPoint hp : pages_wf (index s) m good E -> xlog s = None -> entry_wf (index s) meta E ->
  emptied_set E D (index s) -> highestPoint <> NULL -> mem s !! highestPoint = Some hp -> highest_ok (index s) meta hp ->
  exists s1, (if ((if BlockNumberIsValid (el_blkno hp) then highestPoint else NULL) =? NULL)%N then mret tt
    else
      load_for_repair support (if BlockNumberIsValid (el_blkno hp) then highestPoint else NULL) ;;
      needs ← NeedsUpdated D (if BlockNumberIsValid (el_blkno hp) then highestPoint else NULL) ;
      if (needs : bool) then
        entryPoint ← HnswGetEntryPoint ;
        RepairGraphElement garbage m efConstruction support fuel (if BlockNumberIsValid (el_blkno hp) then highestPoint else NULL) entryPoint
      else mret tt) s = Ok (tt, s1) /\
    rep s s1 /\ entry_wf (index s1) meta E /\ is_Some (mem s1 !! highestPoint) /\ highest_repaired s1 highestPoint hp.
Proof using Hsup Hfuel.
  intros Hwf Hx Hen Hemp Hn Hhp Hok. unfold highest_ok, highest_repaired in *.
  destruct (BlockNumberIsValid (el_blkno hp)); [|exists s; split; [done|]; split; [by apply repaired_refl|by eauto]].
  destruct (N.eqb_spec highestPoint NULL) as [|_]; [done|].
  destruct Hok as (Hb & HkE & HkD & Hke & _). set (kh := ItemPointerSet (el_blkno hp) (el_offno hp)) in *.
  destruct (element_of _ _ _ _ Hwf kh HkE) as (etup & ntup & Hat & W).
  destruct (load_for_repair_run support s highestPoint hp kh etup Hhp Hn Hb eq_refl Hat) as [E1 Hil].
  set (hp1 := HnswLoadElementFromTuple hp etup true true) in *. set (s1 := put highestPoint s hp1) in *. run E1.
  assert (Hhp1 : mem s1 !! highestPoint = Some hp1) by (unfold s1; simpl; by rewrite lookup_insert_eq).
  destruct (NeedsUpdated_run D m good E s1 Hwf highestPoint hp1 kh etup Hhp1 Hil Hat HkE) as (b & E2 & Hb2). run E2.
  assert (R1 : rep s s1) by (by apply repaired_same).
  destruct b.
  2: { exists s1. split; [done|]. split; [done|]. split; [done|]. split; [by eexists|]. split; [by apply Hb2|]. exists hp1, etup. split_and!; done. }
  destruct (HnswGetEntryPoint_run s1 m good meta E E Hwf Hen ltac:(done)) as (ep & s2 & E3 & X2 & Hep). run E3.
  pose proof X2 as (M2 & I2 & L2). assert (Hhp2 : mem s2 !! highestPoint = Some hp1) by (by eapply lookup_weaken).
  assert (Hra : repairable E D s2 highestPoint hp1 kh etup) by (split; [done|done|by rewrite I2|done|done]).
  assert (Hat2 : ep = NULL \/ entry_at E highestPoint s2 ep (entry_tid meta)).
  { unfold entry_loaded in Hep. destruct (BlockNumberIsValid _); [right|left; apply Hep]. apply Hep. by eexists. }
  destruct (RepairGraphElement_run garbage efConstruction fuel m good E D support Hsup Hfuel s2 highestPoint hp1 kh etup ep)
    as (s3 & E4 & R3 & K3 & M3 & C3).
  { by rewrite I2. } { by rewrite L2. } { by rewrite I2. } { done. } { destruct Hat2; [by left|right; by eexists]. }
  exists s3. split; [exact E4|]. split; [eapply repaired_trans; [eapply repaired_extends; [exact R1|exact X2]|exact R3]|].
  split; [apply K3; by rewrite I2|]. split; [destruct (rm_element _ _ _ _ _ _ M3) as (el' & H1 & _); by eexists|]. split.
  - destruct C3 as [|[-> Hkh]]; [done|]. destruct Hat2 as [->|Hat2]; [by destruct Hkh as [Hnull _]|].
    pose proof Hat2 as (_ & _ & _ & en & Hen2 & _). exfalso. apply Hke.
    by rewrite <- (entry_at_tid E _ _ _ _ _ Hkh Hen2), <- (entry_at_tid E _ _ _ _ _ Hat2 Hen2).
  - destruct (rm_element _ _ _ _ _ _ M3) as (el' & H1 & H2 & H3 & H4). exists el', etup.
    split; [done|]. split; [done|]. split; [done|]. split; [|rewrite H2; apply Hil].
    rewrite (rd_elements _ _ _ _ _ _ R3), I2. done.
Qed.

(** ** The entry point *)

(** It is in use, and so are its neighbors. *)
Definition entry_repaired (rel : Relation) (meta : HnswMetaPageData) : Prop :=
  entry_wf rel meta (E ∖ D) /\ (BlockNumberIsValid (mp_entryBlkno meta) = true -> clean D rel (entry_tid meta)).

(** The entry point has lost its heap TIDs. *)
Lemma replace_entry_run s meta highestPoint hp : pages_wf (index s) m good E -> xlog s = None -> entry_wf (index s) meta E ->
  highestPoint <> NULL -> highest_ok (index s) meta hp -> highest_repaired s highestPoint hp -> entry_tid meta ∈ D ->
  exists s' meta', HnswUpdateMetaPage HNSW_UPDATE_ENTRY_ALWAYS (if BlockNumberIsValid (el_blkno hp) then highestPoint else NULL)
      InvalidBlockNumber MAIN_FORKNUM false s = Ok (tt, s') /\
    rep s s' /\ mp_m meta' = mp_m meta /\ mp_dimensions meta' = mp_dimensions meta /\ entry_repaired (index s') meta'.
Proof using Type.
  intros Hwf Hx Hen Hn Hok Hrep HeD. pose proof Hen as [Hmeta Hins _ _]. unfold highest_ok, highest_repaired, entry_repaired in *.
  set (kh := ItemPointerSet (el_blkno hp) (el_offno hp)) in *. destruct (BlockNumberIsValid (el_blkno hp)) eqn:Ev.
  - destruct Hok as (Hb & HkE & HkD & _ & Htop). destruct Hrep as (Hclean & el & eth & Hel & Eb & Eo & Hat & Hl).
    destruct (HnswUpdateMetaPage_run s meta HNSW_UPDATE_ENTRY_ALWAYS highestPoint (Some el) InvalidBlockNumber Hmeta Hx)
      as (s' & Erun & Hu & Hmeta').
    { unfold update_element. destruct (N.eqb_spec highestPoint NULL); [done|]. by exists el. }
    set (meta' := HnswUpdateMetaPageInfo HNSW_UPDATE_ENTRY_ALWAYS (Some el) InvalidBlockNumber meta) in *.
    destruct (meta_repaired m good E D s s' _ Hwf Hx Hu) as [R C]. exists s', meta'.
    assert (Hm : meta' = mp_set_entry (el_blkno el) (el_offno el) (el_level el) meta)
      by (unfold meta', HnswUpdateMetaPageInfo; simpl; by rewrite orb_true_r).
    split; [apply Erun|]. split; [done|]. rewrite Hm. split; [done|]. split; [done|]. rewrite <- Hm. split.
    + apply (entry_wf_always s s' meta (Some el)); try done. rewrite Eb, Eo.
      split; [done|]. split; [apply (pw_tid _ _ _ _ Hwf kh HkE)|]. split; [done|]. split; [by apply elem_of_difference|].
      split; [by exists eth|]. intros k et [HE HD]%elem_of_difference Het. rewrite Hl. apply (Htop k et eth HE HD); [|done|done]. by intros ->.
    + intros _. rewrite Hm. unfold entry_tid. simpl. rewrite Eb, Eo. by apply C.
  - destruct (HnswUpdateMetaPage_run s meta HNSW_UPDATE_ENTRY_ALWAYS NULL None InvalidBlockNumber Hmeta Hx eq_refl)
      as (s' & Erun & Hu & Hmeta'). destruct (meta_repaired m good E D s s' _ Hwf Hx Hu) as [R C].
    set (meta' := HnswUpdateMetaPageInfo HNSW_UPDATE_ENTRY_ALWAYS None InvalidBlockNumber meta) in *. exists s', meta'.
    split; [apply Erun|]. split; [done|]. split; [done|]. split; [done|]. split; [|intros Hv; by vm_compute in Hv].
    apply (entry_wf_always s s' meta None); try done. apply set_eq. intros k. rewrite elem_of_difference. split; [|set_solver].
    intros [HE HD]. exfalso. by rewrite (Hok k HE HD) in HD.
Qed.

(** The entry point is in use. *)
Lemma repair_entry_run s meta highestPoint hp ep en : pages_wf (index s) m good E -> xlog s = None -> entry_wf (index s) meta E ->
  emptied_set E D (index s) -> highestPoint <> NULL -> highest_ok (index s) meta hp -> highest_repaired s highestPoint hp ->
  BlockNumberIsValid (mp_entryBlkno meta) = true -> entry_tid meta ∉ D ->
  ep <> NULL -> highestPoint <> ep -> mem s !! ep = Some en -> BlockNumber_ok (el_blkno en) -> ItemPointerSet (el_blkno en) (el_offno en) = entry_tid meta ->
  exists s', (load_for_repair support ep ;;
      needs ← NeedsUpdated D ep ;
      if (needs : bool) then
        (if ((if BlockNumberIsValid (el_blkno hp) then highestPoint else NULL) =? NULL)%N then mret tt
         else modify_element (if BlockNumberIsValid (el_blkno hp) then highestPoint else NULL) (el_set_neighbors None)) ;;
        RepairGraphElement garbage m efConstruction support fuel ep (if BlockNumberIsValid (el_blkno hp) then highestPoint else NULL)
      else mret tt) s = Ok (tt, s') /\
    rep s s' /\ entry_repaired (index s') meta.
Proof using Hsup Hfuel.
  intros Hwf Hx Hen Hemp Hn Hok Hrep Hv HeD Hep Hne Hepm Hbk Htid. set (ke := entry_tid meta) in *.
  assert (HeE : ke ∈ E) by (pose proof (ey_entry _ _ _ Hen) as He; rewrite Hv in He; apply He).
  assert (Hfin : forall s', entry_wf (index s') meta E -> clean D (index s') ke -> entry_repaired (index s') meta).
  { intros s' Hw Hc. split; [|done]. apply (entry_wf_subset _ _ E); [done|set_solver|]. intros _. by apply elem_of_difference. }
  destruct (element_of _ _ _ _ Hwf ke HeE) as (etup & ntup & Hat & W).
  destruct (load_for_repair_run support s ep en ke etup Hepm Hep Hbk Htid Hat) as [E1 Hil].
  set (en1 := HnswLoadElementFromTuple en etup true true) in *. set (s1 := put ep s en1) in *. run E1.
  assert (Hen1 : mem s1 !! ep = Some en1) by (unfold s1; simpl; by rewrite lookup_insert_eq).
  destruct (NeedsUpdated_run D m good E s1 Hwf ep en1 ke etup Hen1 Hil Hat HeE) as (b & E2 & Hb2). run E2.
  assert (R1 : rep s s1) by (by apply repaired_same).
  destruct b; [|exists s1; split; [done|]; split; [done|]; apply Hfin; [done|by apply Hb2]].
  assert (exists s2, (if ((if BlockNumberIsValid (el_blkno hp) then highestPoint else NULL) =? NULL)%N then mret tt
         else modify_element (if BlockNumberIsValid (el_blkno hp) then highestPoint else NULL) (el_set_neighbors None)) s1 = Ok (tt, s2) /\
    index s2 = index s1 /\ xlog s2 = xlog s1 /\ mem s2 !! ep = Some en1 /\
    ((if BlockNumberIsValid (el_blkno hp) then highestPoint else NULL) = NULL \/
     entry_at E ep s2 (if BlockNumberIsValid (el_blkno hp) then highestPoint else NULL) (ItemPointerSet (el_blkno hp) (el_offno hp)) /\
     ItemPointerSet (el_blkno hp) (el_offno hp) <> ke)) as (s2 & E3 & I2 & L2 & M2 & Hhp).
  { unfold highest_ok, highest_repaired in *. destruct (BlockNumberIsValid (el_blkno hp)).
    2: { exists s1. split; [done|]. split; [done|]. split; [done|]. split; [done|]. by left. }
    destruct Hok as (Hb & HkE & HkD & Hke & _). destruct Hrep as (_ & el & eth & Hel & Eb & Eo & _).
    assert (Hel1 : mem s1 !! highestPoint = Some el) by (unfold s1; simpl; by rewrite lookup_insert_ne).
    destruct (N.eqb_spec highestPoint NULL) as [|_]; [done|].
    exists (put highestPoint s1 (el_set_neighbors None el)). split; [|split; [done|split; [done|split]]].
    - unfold modify_element. run (load_element_run _ _ _ Hel1). unfold store_element. by rewrite Hel1.
    - simpl. by rewrite lookup_insert_ne.
    - right. split; [|done]. split; [done|]. split; [done|]. split; [done|]. eexists. split; [simpl; by rewrite lookup_insert_eq|].
      simpl. by rewrite Eb, Eo. }
  run E3. assert (R2 : rep s s2) by (apply repaired_same; [done|done|by rewrite I2|by rewrite L2]).
  destruct (RepairGraphElement_run garbage efConstruction fuel m good E D support Hsup Hfuel s2 ep en1 ke etup
    (if BlockNumberIsValid (el_blkno hp) then highestPoint else NULL)) as (s3 & E4 & R3 & K3 & M3 & C3).
  { by rewrite I2. } { by rewrite L2. } { by rewrite I2. } { split; [done|done|by rewrite I2|done|done]. }
  { destruct Hhp as [Hhp|[Hhp _]]; [by left|right; by eexists]. }
  exists s3. split; [exact E4|]. split; [by eapply repaired_trans|]. apply Hfin; [apply K3; by rewrite I2|].
  destruct C3 as [|[-> Hkh]]; [done|]. destruct Hhp as [Hnull|[Hat2 Hdiff]]; [by destruct Hkh as [Hnull2 _]|].
  pose proof Hat2 as (_ & _ & _ & x & Hx2 & _). exfalso. apply Hdiff.
  by rewrite <- (entry_at_tid E _ _ _ _ _ Hkh Hx2), <- (entry_at_tid E _ _ _ _ _ Hat2 Hx2).
Qed.

Lemma RepairGraphEntryPoint_run s meta highestPoint hp : pages_wf (index s) m good E -> xlog s = None -> entry_wf (index s) meta E ->
  emptied_set E D (index s) -> highestPoint <> NULL -> mem s !! highestPoint = Some hp -> highest_ok (index s) meta hp ->
  exists s' meta', RepairGraphEntryPoint garbage m efConstruction support highestPoint fuel D s = Ok (tt, s') /\
    rep s s' /\ mp_m meta' = mp_m meta /\ mp_dimensions meta' = mp_dimensions meta /\ entry_repaired (index s') meta'.
Proof using Hsup Hfuel.
  intros Hwf Hx Hen Hemp Hn Hhp Hok.
  destruct (repair_highest_run s meta highestPoint hp Hwf Hx Hen Hemp Hn Hhp Hok) as (s1 & E1 & R1 & K1 & Hs1 & H1).
  unfold RepairGraphEntryPoint. run (load_element_run _ _ _ Hhp). cbv zeta. run E1.
  pose proof (rd_wf _ _ _ _ _ _ R1) as Hwf1. pose proof (rd_xlog _ _ _ _ _ _ R1) as Hx1.
  assert (Hemp1 : emptied_set E D (index s1)) by (eapply emptied_elements; [apply R1|done]).
  assert (Hok1 : highest_ok (index s1) meta hp).
  { unfold highest_ok in *. destruct (BlockNumberIsValid (el_blkno hp)); [|done]. destruct Hok as (A1 & A2 & A3 & A4 & A5).
    split_and!; try done. intros k et eth. rewrite !(rd_elements _ _ _ _ _ _ R1). apply A5. }
  destruct (HnswGetEntryPoint_run s1 m good meta E E Hwf1 K1 ltac:(done)) as (ep & s2 & E2 & X2 & Hep). run E2.
  pose proof X2 as (M2 & I2 & L2). assert (R2 : rep s s2) by (by eapply repaired_extends).
  unfold entry_loaded in Hep. destruct (BlockNumberIsValid (mp_entryBlkno meta)) eqn:Ev.
  - destruct Hep as (Hfresh & Hat & en & Hen2 & Hl & Htid). rewrite <- I2 in Hwf1, K1, Hemp1, Hok1. rewrite <- L2 in Hx1.
    assert (Hh2 : highest_repaired s2 highestPoint hp).
    { unfold highest_repaired in *. rewrite I2. destruct (BlockNumberIsValid (el_blkno hp)); [|done]. destruct H1 as (C1 & el & eth & A1 & A2).
      split; [done|]. exists el, eth. split; [by eapply lookup_weaken|done]. }
    destruct (Hat highestPoint) as (Hep & Hne & HkE & en' & Hen' & Hbk & _).
    { done. }
    rewrite Hen2 in Hen'. injection Hen' as <-. destruct (N.eqb_spec ep NULL) as [|_]; [done|]. run (load_element_run _ _ _ Hen2).
    rewrite Htid. unfold DeletedContains. case_bool_decide as HD.
    + destruct (replace_entry_run s2 meta highestPoint hp Hwf1 Hx1 K1 Hn Hok1 Hh2 HD) as (s3 & meta' & E3 & R3 & Q).
      exists s3, meta'. split; [exact E3|]. split; [by eapply repaired_trans|done].
    + destruct (repair_entry_run s2 meta highestPoint hp ep en Hwf1 Hx1 K1 Hemp1 Hn Hok1 Hh2 Ev HD Hep ltac:(done) Hen2 Hbk Htid)
        as (s3 & E3 & R3 & Q).
      exists s3, meta. split; [exact E3|]. split; [by eapply repaired_trans|done].
  - destruct Hep as [-> ->]. exists s1, meta. split; [done|]. split; [done|]. split; [done|]. split; [done|]. split; [|by rewrite Ev].
    apply (entry_wf_subset _ _ E); [done|set_solver|by rewrite Ev].
Qed.

(** ** The elements of a page *)

Lemma repair_item_run s meta e el k etup : pages_wf (index s) m good E -> xlog s = None -> emptied_set E D (index s) ->
  entry_repaired (index s) meta -> repairable E D s e el k etup ->
  exists s', repair_item garbage m efConstruction support fuel D e tt s = Ok (tt, s') /\
    rep s s' /\ entry_repaired (index s') meta /\ clean D (index s') k /\
    forall p x, p <> e -> mem s !! p = Some x -> mem s' !! p = Some x.
Proof using Hsup Hfuel.
  intros Hwf Hx Hemp [Hen Hcl] Hra. pose proof Hra as [He Hil Hat Hk HD].
  destruct (NeedsUpdated_run D m good E s Hwf e el k etup He Hil Hat Hk) as (b & E1 & Hb). unfold repair_item. run E1.
  destruct b; cbn [negb]; [|exists s; split; [done|]; split; [by apply repaired_refl|by split_and!; auto]].
  assert (Hv : BlockNumberIsValid (mp_entryBlkno meta) = true).
  { pose proof (ey_entry _ _ _ Hen) as He0. destruct (BlockNumberIsValid _); [done|]. destruct He0 as [He0 _]. set_solver. }
  destruct (HnswGetEntryPoint_run s m good meta E (E ∖ D) Hwf Hen ltac:(set_solver)) as (ep & s1 & E2 & X1 & Hep). run E2.
  unfold entry_loaded in Hep. rewrite Hv in Hep. destruct Hep as (Hfresh & Hent & en & Hen1 & Hlev & Htid).
  specialize (Hent e ltac:(by eexists)). pose proof Hent as (Hnull & _ & HeE & _). pose proof X1 as (M1 & I1 & L1).
  assert (He1 : mem s1 !! e = Some el) by (by eapply lookup_weaken).
  assert (Hle : el_level el <= mp_entryLevel meta).
  { rewrite (il_level _ _ _ Hil). apply (ey_top _ _ _ Hen k etup); [by apply elem_of_difference|done]. }
  assert (Hbet : forall s2 el2 en2, mem s2 !! e = Some el2 -> mem s2 !! ep = Some en2 -> el_level el2 = el_level el ->
    el_level en2 = mp_entryLevel meta -> better_entry e ep s2 = Ok (false, s2)).
  { intros s2 el2 en2 H1 H2 H3 H4. unfold better_entry. run (load_element_run _ _ _ H1). destruct (N.eqb_spec ep NULL); [done|].
    run (load_element_run _ _ _ H2). rewrite H3, H4. by destruct (Z.ltb_spec (mp_entryLevel meta) (el_level el)); [lia|]. }
  run (Hbet s1 el en He1 Hen1 eq_refl Hlev). run (mret_run ep s1).
  destruct (RepairGraphElement_run garbage efConstruction fuel m good E D support Hsup Hfuel s1 e el k etup ep)
    as (s2 & E3 & R2 & K2 & M2 & C2).
  { by rewrite I1. } { by rewrite L1. } { by rewrite I1. } { split; [done|done|by rewrite I1|done|done]. } { right. by eexists. }
  run E3. destruct (rm_element _ _ _ _ _ _ M2) as (el2 & Hel2 & Hl2 & _).
  pose proof (ey_entry _ _ _ Hen) as He0. rewrite Hv in He0. destruct He0 as (_ & _ & _ & ete & Hete & Hle2).
  destruct (rm_entry _ _ _ _ _ _ M2 _ en ete Hent Hen1 ltac:(by rewrite I1) ltac:(congruence)) as (en2 & Hen2 & Hl3).
  run (Hbet s2 el2 en2 Hel2 Hen2 Hl2 ltac:(congruence)).
  assert (R : rep s s2) by (eapply repaired_trans; [eapply repaired_extends; [by apply repaired_refl|exact X1]|exact R2]).
  exists s2. split; [done|]. split; [done|]. split; [|split].
  - split; [apply K2; by rewrite I1|]. intros _. apply (rd_clean _ _ _ _ _ _ R); [done|by apply Hcl].
  - destruct C2 as [|[-> Hkh]]; [done|]. rewrite I1.
    rewrite <- (entry_at_tid E _ _ _ _ _ Hkh Hen1), (entry_at_tid E _ _ _ _ _ Hent Hen1). by apply Hcl.
  - intros p x Hp Hpx. apply (rm_others _ _ _ _ _ _ M2); [done| |by eapply lookup_weaken]. intros ->. congruence.
Qed.

Lemma repairable_kept s s' e el k etup : rep s s' -> mem s' !! e = Some el -> repairable E D s e el k etup -> repairable E D s' e el k etup.
Proof using Type. intros R He [A1 A2 A3 A4 A5]. split; try done. by rewrite (rd_elements _ _ _ _ _ _ R). Qed.

Lemma repair_items_run meta es : forall s, pages_wf (index s) m good E -> xlog s = None -> emptied_set E D (index s) ->
  entry_repaired (index s) meta -> NoDup es -> (forall e, e ∈ es -> exists el k etup, repairable E D s e el k etup) ->
  exists s', mfor es tt (repair_item garbage m efConstruction support fuel D) s = Ok (tt, s') /\
    rep s s' /\ entry_repaired (index s') meta /\
    forall e el k etup, e ∈ es -> repairable E D s e el k etup -> clean D (index s') k.
Proof using Hsup Hfuel.
  induction es as [|e es IH]; intros s Hwf Hx Hemp Hent Hnd Hes.
  { exists s. split; [done|]. split; [by apply repaired_refl|]. split; [done|]. intros e el k et He. by apply elem_of_nil in He. }
  apply list.NoDup_cons in Hnd as [Hne Hnd]. destruct (Hes e ltac:(by left)) as (el & k & etup & Hra).
  destruct (repair_item_run s meta e el k etup Hwf Hx Hemp Hent Hra) as (s1 & E1 & R1 & Q1 & C1 & M1).
  assert (Hkeep : forall e' el' k' et', e' ∈ es -> repairable E D s e' el' k' et' -> repairable E D s1 e' el' k' et').
  { intros e' el' k' et' He' Hr. eapply repairable_kept; [exact R1| |done]. apply M1; [by intros ->|apply Hr]. }
  destruct (IH s1) as (s2 & E2 & R2 & Q2 & C2); try done; [apply R1|apply R1|eapply emptied_elements; [apply R1|done]| |].
  { intros e' He'. destruct (Hes e' ltac:(by right)) as (el' & k' & et' & Hr). exists el', k', et'. auto. }
  exists s2. rewrite mfor_cons. run E1. split; [done|]. split; [by eapply repaired_trans|]. split; [done|].
  intros e' el' k' et' [->|He']%elem_of_cons Hr; [|by eapply C2; eauto].
  destruct Hr as [A1 A2 A3 A4 A5]. pose proof (ra_mem _ _ _ _ _ _ _ Hra) as B. rewrite A1 in B. injection B as <-.
  rewrite <- (il_tid _ _ _ A2), (il_tid _ _ _ (ra_loaded _ _ _ _ _ _ _ Hra)). by apply (rd_clean _ _ _ _ _ _ R2); [apply Hra|].
Qed.
End Graph.

Section Load.
Context `{Palloc} (m : Z) (good : Vector -> Prop) (E D : gset ItemPointerData).
Context (s : Backend) (Hwf : pages_wf (index s) m good E) (Hemp : emptied_set E D (index s)).
Context (b : BlockNumber) (p : Page) (Hb1 : 1 <= b) (Hp : block (rd_main (index s)) b = Some p).

(** The elements of the first [n] items that are in use are in memory. *)
Record load_inv (n : nat) (es : list addr) (s' : Backend) : Prop := {
  li_extends : extends s s';
  li_nodup : NoDup es;
  li_in e : e ∈ es -> exists el k etup, repairable E D s' e el k etup;
  li_all i : (i < n)%nat -> let k := ItemPointerSet b (Z.of_nat i + 1) in k ∈ E -> k ∉ D ->
    exists e el etup, e ∈ es /\ repairable E D s' e el k etup
}.

Lemma page_number : BlockNumber_ok b.
Proof using Hwf Hb1 Hp.
  pose proof (ix_size _ (pw_index _ _ _ _ Hwf)) as Hs. apply block_lookup in Hp as [_ Hl]. apply lookup_lt_Some in Hl.
  unfold BlockNumber_ok. change InvalidBlockNumber with (2 ^ 32 - 1) in Hs. lia.
Qed.

Lemma place_in_page off : place_of (ItemPointerSet b off) = (b, off).
Proof using Hwf Hb1 Hp. destruct (ItemPointerGet_Set b off page_number) as [G1 G2]. unfold place_of. by rewrite G1, G2. Qed.

Lemma li_kept n n' es s1 s2 : extends s1 s2 -> load_inv n es s1 ->
  (forall i, (n <= i < n')%nat -> let k := ItemPointerSet b (Z.of_nat i + 1) in k ∈ E -> k ∈ D) -> load_inv n' es s2.
Proof using Type.
  intros X [H1 H2 H3 H4] Hn. assert (Hr : forall e el k etup, repairable E D s1 e el k etup -> repairable E D s2 e el k etup).
  { intros e el k etup [A1 A2 A3 A4 A5]. destruct X as (X1 & X2 & _). split; try done; [by eapply lookup_weaken|by rewrite X2]. }
  split; [by etrans|done| |].
  - intros e He. destruct (H3 e He) as (el & k & etup & Hra). exists el, k, etup. auto.
  - intros i Hi k HE HD. destruct (decide (i < n)%nat) as [Hin|Hin]; [|exfalso; apply HD, (Hn i); [lia|done]].
    destruct (H4 i Hin HE HD) as (e & el & etup & He & Hra). exists e, el, etup. auto.
Qed.

Lemma load_item_run i es s1 : (i < length (pd_linp p))%nat -> load_inv i es s1 ->
  exists es' s2, load_item p b (Z.of_nat i + 1) es s1 = Ok (es', s2) /\ load_inv (S i) es' s2.
Proof using Hwf Hemp Hb1 Hp.
  intros Hi Hinv. pose proof (ix_pages _ (pw_index _ _ _ _ Hwf) b p Hb1 Hp) as Hok.
  destruct (lookup_lt_is_Some_2 _ _ Hi) as [it Hit]. pose proof (page_item p Hok i it Hit) as (_ & _ & _ & _ & _ & [tup Htup]).
  assert (Hpt : page_tuple p (Z.of_nat i + 1) = Ok tup).
  { apply page_tuple_lookup. exists it. replace (Z.to_nat (Z.of_nat i + 1 - 1)) with i by lia. split; [lia|done]. }
  set (k := ItemPointerSet b (Z.of_nat i + 1)). assert (Hat : tuple_at (index s) (place_of k).1 (place_of k).2 = Some tup).
  { unfold k. rewrite place_in_page. apply tuple_at_lookup. by exists p. }
  assert (Hskip : (k ∈ E -> k ∈ D) -> load_inv (S i) es s1).
  { intros Hk. eapply li_kept; [reflexivity|exact Hinv|]. intros j Hj. by replace j with i by lia. }
  unfold load_item. run (get_tuple_run _ _ _ _ Hpt). destruct tup as [etup|ntup].
  2: { exists es, s1. split; [done|]. apply Hskip. intros HE. destruct (element_of _ _ _ _ Hwf k HE) as (et & nt & Het & _).
       apply element_at_place in Het. congruence. }
  apply element_at_place in Hat. assert (Hb2 : 1 <= (place_of k).1) by (unfold k; by rewrite place_in_page).
  destruct (eo_heaptids _ (pw_elements _ _ _ _ Hwf) _ _ etup Hb2 (proj1 (element_at_place _ _ _) Hat)) as [t0 Ht0].
  assert (Hempty : is_empty_element etup = Ok (negb (ItemPointerIsValid t0))) by (unfold is_empty_element; by rewrite Ht0).
  assert (Hheap : heap_tids (index s) k = [] <-> ItemPointerIsValid t0 = false).
  { unfold heap_tids. rewrite Hat. destruct (et_heaptids etup) as [|t l]; [done|]. injection Ht0 as ->. simpl.
    by destruct (ItemPointerIsValid t0). }
  run (lift_res_run _ _ _ Hempty). destruct (ItemPointerIsValid t0) eqn:Ev; cbn [negb].
  2: { exists es, s1. split; [done|]. apply Hskip. intros HE. apply (Hemp k HE). by apply Hheap. }
  assert (Hlive : et_deleted etup = 0).
  { destruct (decide (et_deleted etup = 0)) as [|Hd]; [done|].
    rewrite (pw_dead _ _ _ _ Hwf _ _ etup Hb2 (proj1 (element_at_place _ _ _) Hat) Hd) in Ht0. injection Ht0 as <-. done. }
  assert (HE : k ∈ E).
  { apply (pw_all _ _ _ _ Hwf b (Z.of_nat i + 1) etup Hb1); [|done]. apply element_at_place in Hat. unfold k in Hat. by rewrite place_in_page in Hat. }
  assert (HD : k ∉ D) by (intros HD; apply (Hemp k HE) in HD; apply Hheap in HD; done).
  set (e := palloc_addr (mem s1)). set (e0 := el_set_value None (el_set_neighbors None (el_set_tid b (Z.of_nat i + 1) uninit))).
  set (e1 := HnswLoadElementFromTuple e0 etup false true).
  assert (Einit : HnswInitElementFromBlock b (Z.of_nat i + 1) s1 = Ok (e, mkBackend (<[e := e0]> (mem s1)) (index s1) (xlog s1))) by done.
  run Einit. set (s2 := mkBackend (<[e := e1]> (mem s1)) (index s1) (xlog s1)).
  assert (Emod : modify_element e (fun x => HnswLoadElementFromTuple x etup false true)
    (mkBackend (<[e := e0]> (mem s1)) (index s1) (xlog s1)) = Ok (tt, s2)).
  { unfold modify_element. erewrite M_bind_run; [|apply load_element_run; simpl; by rewrite lookup_insert_eq].
    unfold store_element. simpl. by rewrite lookup_insert_eq, insert_insert_eq. }
  run Emod. exists (es ++ [e]), s2. split; [done|]. pose proof (palloc_fresh (mem s1)) as Hfresh. fold e in Hfresh.
  assert (X2 : extends s1 s2) by (split; [simpl; by apply insert_subseteq|done]).
  assert (Hnew : repairable E D s2 e e1 k etup).
  { split; [simpl; by rewrite lookup_insert_eq| | |done|done].
    - split; try done. apply page_number.
    - pose proof (li_extends _ _ _ Hinv) as (_ & I1 & _). simpl. by rewrite I1. }
  assert (Hold : load_inv i es s2) by (eapply li_kept; [exact X2|exact Hinv|intros j Hj; lia]). destruct Hold as [H1 H2 H3 H4].
  split; [done| | |].
  - apply list.NoDup_app. split; [done|]. split; [|apply NoDup_singleton]. intros x Hx ->%list_elem_of_singleton.
    destruct (li_in _ _ _ Hinv e Hx) as (el & k' & et & Hra). pose proof (ra_mem _ _ _ _ _ _ _ Hra). congruence.
  - intros x [Hx| ->%list_elem_of_singleton]%elem_of_app; [by apply H3|]. by exists e1, k, etup.
  - intros j Hj k' HE' HD'. destruct (decide (j = i)) as [->|Hne].
    + exists e, e1, etup. split; [|done]. apply elem_of_app. right. by apply list_elem_of_singleton.
    + destruct (H4 j ltac:(lia) HE' HD') as (x & el & et & Hx & Hra). exists x, el, et. split; [|done]. apply elem_of_app. by left.
Qed.

Lemma load_items_run : exists es s', mfor (offsets_of p) [] (load_item p b) s = Ok (es, s') /\ load_inv (length (pd_linp p)) es s'.
Proof using Hwf Hemp Hb1 Hp.
  pose proof (ix_pages _ (pw_index _ _ _ _ Hwf) b p Hb1 Hp) as Hok. unfold offsets_of. rewrite (PageGetMaxOffsetNumber_eq p Hok), Nat2Z.id.
  destruct (mfor_seq_run load_inv (load_item p b) 0 (length (pd_linp p)) [] s (fun i es s' Hi => load_item_run i es s' ltac:(lia)))
    as (es & s' & Erun & Hinv); [|by exists es, s'].
  split; [done|apply NoDup_nil_2| |intros i Hi; lia]. intros e He. by apply elem_of_nil in He.
Qed.
End Load.

(** ** The chain of pages *)

Lemma chain_links rel rel' b bs : links_kept rel rel' -> chain_of rel b bs -> chain_of rel' b bs.
Proof.
  intros Hk. induction 1 as [|b p bs Hv Hb Hc IH]; [constructor|]. destruct Hk as [Hlen Hk].
  apply block_lookup in Hb as Hl. destruct Hl as [H0 Hl]. apply lookup_lt_Some in Hl.
  destruct (lookup_lt_is_Some_2 (rd_main rel') (Z.to_nat b) ltac:(lia)) as [p' Hp'].
  assert (Hb' : block (rd_main rel') b = Some p') by (by apply block_lookup). destruct (Hk b p' Hb') as (q & Hq & Ho).
  rewrite Hb in Hq. injection Hq as <-. econstructor; [done|done|]. unfold nextblkno in *. by rewrite Ho.
Qed.

Lemma chain_reach rel a b bs : reach rel a b -> BlockNumberIsValid a = true -> chain_of rel a bs -> b ∈ bs.
Proof.
  intros Hr. revert bs. induction Hr as [a|a c b (p & Hp & Hn & Hv) Hr IH]; intros bs Ha Hc.
  - inversion Hc as [|? ? ? ? ? ?]; subst; [done|by left].
  - inversion Hc as [|? q ? ? Hq Hcq]; subst; [done|]. right. rewrite Hp in Hq. injection Hq as <-. by apply IH.
Qed.

(** The chain from the head has the pages of all elements. *)
Lemma chain_all rel m good E bs k : pages_wf rel m good E -> chain_of rel HNSW_HEAD_BLKNO bs -> k ∈ E -> (place_of k).1 ∈ bs.
Proof.
  intros Hwf Hc Hk. destruct (pw_tid _ _ _ _ Hwf k Hk) as [_ Hb]. destruct (element_of _ _ _ _ Hwf k Hk) as (et & nt & Het & _).
  apply element_at_place, tuple_at_lookup in Het as (p & Hp & _). apply block_lookup in Hp as [_ Hl]. apply lookup_lt_Some in Hl.
  apply (chain_reach rel HNSW_HEAD_BLKNO); [|reflexivity|done]. apply (pw_chain _ _ _ _ Hwf). unfold place_of in *. cbn [fst] in *. lia.
Qed.

Section Pages.
Context `{Palloc} `{ListSort} (garbage : HnswCandidate) (efConstruction : Z).
Context (m : Z) (good : Vector -> Prop) (E D : gset ItemPointerData) (support : HnswSupport) (Hsup : support_ok support good).

Lemma repair_page_run meta fuel s b p : pages_wf (index s) m good E -> xlog s = None -> emptied_set E D (index s) ->
  entry_repaired E D (index s) meta -> (size E <= fuel)%nat -> 1 <= b -> block (rd_main (index s)) b = Some p ->
  exists s', (forall A (next : M Backend A),
      (elements ← mfor (offsets_of p) [] (load_item p b) ;
       mfor elements tt (repair_item garbage m efConstruction support fuel D) ;;
       next) s = next s') /\
    repaired m good E D s s' /\ entry_repaired E D (index s') meta /\
    forall k, k ∈ E -> k ∉ D -> (place_of k).1 = b -> clean D (index s') k.
Proof using Hsup.
  intros Hwf Hx Hemp Hent Hf Hb1 Hp. destruct (load_items_run m good E D s Hwf Hemp b p Hb1 Hp) as (es & s1 & E1 & [X1 Hnd Hin Hall]).
  pose proof X1 as (M1 & I1 & L1). rewrite <- I1 in Hwf, Hemp, Hent. rewrite <- L1 in Hx.
  destruct (repair_items_run garbage efConstruction fuel m good E D support Hsup Hf meta es s1 Hwf Hx Hemp Hent Hnd Hin)
    as (s2 & E2 & R2 & Q2 & C2). rewrite I1 in Hwf.
  exists s2. split; [intros A next; run E1; by run E2|]. split; [|split; [done|]].
  - eapply repaired_trans; [|exact R2]. by apply repaired_same; [|rewrite <- L1| |].
  - intros k HE HD Hpl. destruct (element_of _ _ _ _ Hwf k HE) as (et & nt & Het & _).
    apply element_at_place, tuple_at_lookup in Het as (q & Hq & Hpt). rewrite Hpl, Hp in Hq. injection Hq as <-.
    apply page_tuple_lookup in Hpt as (it & Ho & Hl & _). apply lookup_lt_Some in Hl.
    assert (Hk : k = ItemPointerSet b (Z.of_nat (Z.to_nat ((place_of k).2 - 1)) + 1)).
    { replace (Z.of_nat (Z.to_nat ((place_of k).2 - 1)) + 1) with (place_of k).2 by lia. rewrite <- Hpl. symmetry.
      apply ItemPointerSet_Get, (pw_tid _ _ _ _ Hwf k HE). }
    destruct (Hall _ Hl) as (e & el & etup & He & Hra); [by rewrite <- Hk|by rewrite <- Hk|]. rewrite <- Hk in Hra. by apply (C2 e el k etup).
Qed.

Lemma repair_pages_run meta bs : forall fuel b s, pages_wf (index s) m good E -> xlog s = None -> emptied_set E D (index s) ->
  entry_repaired E D (index s) meta -> chain_of (index s) b bs -> Forall (fun c => 1 <= c) bs -> (length bs + size E <= fuel)%nat ->
  exists s', repair_pages garbage m efConstruction support fuel D b s = Ok (tt, s') /\
    repaired m good E D s s' /\ entry_repaired E D (index s') meta /\
    forall k, k ∈ E -> k ∉ D -> (place_of k).1 ∈ bs -> clean D (index s') k.
Proof using Hsup.
  induction bs as [|b' bs IH]; intros fuel b s Hwf Hx Hemp Hent Hc Hpos Hf; inversion Hc as [|? p ? Hv Hb Hc']; subst.
  { exists s. split; [by destruct fuel|]. split; [by apply repaired_refl|]. split; [done|]. intros k _ _ Hk. by apply elem_of_nil in Hk. }
  destruct fuel as [|fuel]; [simpl in Hf; lia|]. apply list.Forall_cons in Hpos as [Hb1 Hpos]. simpl in Hf.
  destruct (repair_page_run meta fuel s b' p Hwf Hx Hemp Hent ltac:(lia) Hb1 Hb) as (s1 & E1 & R1 & Q1 & C1).
  destruct (IH fuel (nextblkno p) s1) as (s2 & E2 & R2 & Q2 & C2); try done; try (by apply R1); try lia.
  { eapply emptied_elements; [apply R1|done]. }
  { eapply chain_links; [apply R1|done]. }
  exists s2. split.
  - cbn [repair_pages]. rewrite Hv. cbn [negb]. run (ReadBuffer_run _ _ _ Hb).
    assert (Er : read_page MAIN_FORKNUM (BufferPage b') s = Ok (p, s)) by (unfold read_page; simpl; by rewrite Hb).
    run Er. by rewrite E1.
  - split; [by eapply repaired_trans|]. split; [done|]. intros k HE HD [Hk|Hk]%elem_of_cons; [|by apply C2].
    apply (rd_clean _ _ _ _ _ _ R2); [done|by apply C1].
Qed.

(** ** The graph *)

Lemma RepairGraph_run fuel s meta highestPoint hp : pages_wf (index s) m good E -> xlog s = None -> entry_wf (index s) meta E ->
  emptied_set E D (index s) -> highestPoint <> NULL -> mem s !! highestPoint = Some hp -> highest_ok E D (index s) meta hp ->
  2 <= nlen (index s) -> nlen (index s) + Z.of_nat (size E) <= Z.of_nat fuel ->
  exists s' meta', RepairGraph garbage m efConstruction support highestPoint fuel D s = Ok (tt, s') /\
    repaired m good E D s s' /\ mp_m meta' = mp_m meta /\ mp_dimensions meta' = mp_dimensions meta /\
    entry_wf (index s') meta' (E ∖ D) /\ forall k, k ∈ E -> k ∉ D -> clean D (index s') k.
Proof using Hsup.
  intros Hwf Hx Hen Hemp Hn Hhp Hok Hlen Hf.
  destruct (RepairGraphEntryPoint_run garbage efConstruction fuel m good E D support Hsup ltac:(lia) s meta highestPoint hp
    Hwf Hx Hen Hemp Hn Hhp Hok) as (s1 & meta' & E1 & R1 & Q1 & Q2 & Q3).
  pose proof (rd_wf _ _ _ _ _ _ R1) as Hwf1. destruct (rd_links _ _ _ _ _ _ R1) as [Hlen1 _].
  destruct (chain_exists (index s1) 1 (pw_index _ _ _ _ Hwf1) ltac:(lia)) as (bs & Hchain & _ & Hrange & Hbs).
  destruct (repair_pages_run meta' bs fuel HNSW_HEAD_BLKNO s1) as (s2 & E2 & R2 & Q4 & C2); try done.
  { apply R1. } { eapply emptied_elements; [apply R1|done]. } { eapply List.Forall_impl; [|exact Hrange]. simpl. lia. } { lia. }
  exists s2, meta'. split; [unfold RepairGraph; by run E1|]. split; [by eapply repaired_trans|]. split; [done|]. split; [done|].
  split; [apply Q4|]. intros k HE HD. apply C2; [done|done|]. by eapply chain_all.
Qed.
End Pages.
