(* ===== verification/VacuumHistory.v ===== *)
(** * Vacuum of a well-formed index

    The three passes of [hnswbulkdelete] (HnswVacuum.v) one after another on a
    well-formed index (IndexWf.v): it is well formed again, its elements are those
    that keep a heap TID, and it holds the rows the callback does not report. *)

From Stdlib Require Import SpecFloat.
From S2P Require Import Prelude CFloat VectorType GraphSearch ItemPtr HnswData BufPage Backend HnswUtils SearchLayer.
From S2P Require Import LayerRefinement PageUpdate MetaPage DiskGraph Tuples QSort SelectNeighbors HnswInsert InsertSpec AddElement IndexWf.
From S2P Require Import InsertSearch InsertOnDisk HnswVacuum VacuumSpec MarkSpec RepairSpec RepairPages.

(** The chain from the head has all pages but the metapage. *)
Lemma chain_blocks rel bs b p : all_reached rel -> chain_of rel HNSW_HEAD_BLKNO bs -> 1 <= b -> block (rd_main rel) b = Some p -> b ∈ bs.
Proof.
  intros Hall Hc Hb Hp. apply block_lookup in Hp as [_ Hl]. apply lookup_lt_Some in Hl.
  apply (chain_reach rel HNSW_HEAD_BLKNO); [|reflexivity|done]. apply Hall. lia.
Qed.

(** ** After the first pass *)

Section FirstPass.
Context (callback : ItemPointerData -> bool) (rel rel' : Relation) (m : Z) (good : Vector -> Prop) (E : gset ItemPointerData).
Context (bs : list BlockNumber) (Hwf : pages_wf rel m good E) (Hchain : chain_of rel HNSW_HEAD_BLKNO bs).
Context (Hpos : Forall (fun c => 1 <= c) bs) (Hcl : cleaned callback bs rel rel').

Lemma wf_heaptids : heaptids_in_order rel.
Proof using Hwf.
  intros b off et Hb Ht. destruct (decide (et_deleted et = 0)) as [Hd|Hd].
  - pose proof (pw_all _ _ _ _ Hwf b off et Hb Ht Hd) as HE. destruct (element_of _ _ _ _ Hwf _ HE) as (et' & nt & Hat & W).
    apply element_at_place in Hat. assert (Hbk : BlockNumber_ok b).
    { pose proof (ix_size _ (pw_index _ _ _ _ Hwf)) as Hs. apply tuple_at_lookup in Ht as (p & Hp & _).
      apply block_lookup in Hp as [_ Hl]. apply lookup_lt_Some in Hl. unfold BlockNumber_ok. change InvalidBlockNumber with (2 ^ 32 - 1) in Hs. lia. }
    destruct (ItemPointerGet_Set b off Hbk) as [G1 G2]. unfold place_of in Hat. rewrite G1, G2 in Hat. cbn [fst snd] in Hat.
    rewrite Ht in Hat. injection Hat as <-. apply (ew_heaptids _ _ _ _ _ _ _ W).
  - rewrite (pw_dead _ _ _ _ Hwf b off et Hb Ht Hd). split; [done|]. by exists [].
Qed.

Lemma cleaned_tuple b off : tuple_at rel' b off = if decide (1 <= b) then clean_tuple callback <$> tuple_at rel b off else tuple_at rel b off.
Proof using Hwf Hchain Hpos Hcl.
  rewrite (cleaned_tuples _ _ _ _ _ _ Hcl). destruct (decide (b ∈ bs)) as [Hin|Hin].
  - rewrite decide_True; [done|]. rewrite list.Forall_forall in Hpos. by apply Hpos.
  - destruct (decide (1 <= b)) as [Hb|]; [|done]. destruct (tuple_at rel b off) as [t|] eqn:Et; [|done].
    exfalso. apply tuple_at_lookup in Et as (p & Hp & _). by apply Hin, (chain_blocks rel bs b p (pw_chain _ _ _ _ Hwf)).
Qed.

Lemma clean_dead : clean_tids callback (replicate 10 ItemPointerSetInvalid) = replicate 10 ItemPointerSetInvalid.
Proof using Type. done. Qed.

Lemma cleaned_kept : rel_kept rel rel'.
Proof using Hwf Hchain Hpos Hcl.
  split.
  - intros b off. rewrite cleaned_tuple. case_decide as Hb; [|done]. destruct (tuple_at rel b off) as [[et|nt]|] eqn:Et; constructor; [|done].
    pose proof (wf_heaptids b off et Hb Et) as Hok. cbn. split_and!; try done.
    + rewrite (proj1 (clean_tids_ok callback _ Hok)). symmetry. apply Hok.
    + intros Hd. by rewrite (pw_dead _ _ _ _ Hwf b off et Hb Et Hd).
  - intros b off n (p & it & Hp & Hit & Hn). destruct Hcl as [Hc _]. specialize (Hc b). rewrite Hp in Hc. case_decide; [|by exists p, it].
    simpl in Hc. exists (clean_page callback p), (clean_item callback it). split; [done|]. split; [|done].
    unfold PageGetItemId in *. destruct (off <? 1); [done|]. simpl. rewrite list_lookup_fmap.
    destruct (pd_linp p !! Z.to_nat (off - 1)); [|done]. simpl in *. by injection Hit as ->.
Qed.

Lemma cleaned_links : links_kept rel rel'.
Proof using Hcl.
  split; [by eapply cleaned_length|]. destruct Hcl as [Hc _]. intros b p' Hp'. rewrite Hc in Hp'. case_decide; [|by exists p'].
  apply fmap_Some in Hp' as (p & Hp & ->). by exists p.
Qed.

Lemma cleaned_element k et : k ∈ E -> element_at rel k = Some et ->
  element_at rel' k = Some (et_set_heaptids (clean_tids callback (et_heaptids et)) et) /\
  heap_tids rel' k = kept callback (et_heaptids et).
Proof using Hwf Hchain Hpos Hcl.
  intros Hk Hat. assert (He : element_at rel' k = Some (et_set_heaptids (clean_tids callback (et_heaptids et)) et)).
  { apply element_at_place. apply element_at_place in Hat. rewrite cleaned_tuple, decide_True by apply (pw_tid _ _ _ _ Hwf k Hk). by rewrite Hat. }
  split; [done|]. unfold heap_tids. rewrite He. apply valid_prefix_clean.
Qed.

Lemma cleaned_wf : pages_wf rel' m good E.
Proof using Hwf Hchain Hpos Hcl.
  apply (pages_wf_kept _ _ cleaned_kept m good E Hwf).
  - eapply cleaned_index_ok; [exact Hcl|apply Hwf].
  - eapply links_kept_reached; [exact cleaned_links|apply Hwf].
  - intros k et Hk He. destruct (element_of _ _ _ _ Hwf k Hk) as (et0 & nt & Hat & W).
    rewrite (proj1 (cleaned_element k et0 Hk Hat)) in He. injection He as <-. apply clean_tids_ok, W.
  - intros k et nt Hk He Hnt. destruct (element_of _ _ _ _ Hwf k Hk) as (et' & nt' & He' & W).
    rewrite He in He'. injection He' as <-. pose proof (ew_neighbor _ _ _ _ _ _ _ W) as Hn.
    apply neighbor_at_place in Hnt, Hn. rewrite cleaned_tuple, Hn in Hnt. assert (nt = nt') as -> by (case_decide; by injection Hnt as <-).
    split; [apply W|intros lc t; apply (ew_slots _ _ _ _ _ _ _ W)].
Qed.

Lemma cleaned_entry meta E0 : entry_wf rel meta E0 -> entry_wf rel' meta E0.
Proof using Hwf Hchain Hpos Hcl.
  intros Hen. eapply kept_entry; [exact cleaned_kept| | |exact Hen]; [|by rewrite (cleaned_length _ _ _ _ Hcl)].
  destruct (ey_meta _ _ _ Hen) as (p & Hp & Hm). exists p. split; [|done]. destruct Hcl as [Hc _]. rewrite Hc, decide_False; [done|].
  intros Hin. rewrite list.Forall_forall in Hpos. by specialize (Hpos _ Hin).
Qed.

Context (D : gset ItemPointerData) (HD : forall t, t ∈ D <-> emptied_in callback rel bs t).

Lemma block_ok b p : 1 <= b -> block (rd_main rel) b = Some p -> BlockNumber_ok b.
Proof using Hwf.
  intros Hb Hp. pose proof (ix_size _ (pw_index _ _ _ _ Hwf)) as Hs. apply block_lookup in Hp as [_ Hl]. apply lookup_lt_Some in Hl.
  unfold BlockNumber_ok. change InvalidBlockNumber with (2 ^ 32 - 1) in Hs. lia.
Qed.

(** The elements that are found to be emptied are those without heap TIDs. *)
Lemma cleaned_emptied k et : k ∈ E -> element_at rel k = Some et -> k ∈ D <-> kept callback (et_heaptids et) = [].
Proof using Hwf Hchain Hpos HD.
  intros Hk Hat. destruct (pw_tid _ _ _ _ Hwf k Hk) as [Hok Hb1]. rewrite HD. split.
  - intros (b & p & off & Hin & Hp & (et' & Ht & Hkept) & ->). rewrite list.Forall_forall in Hpos. specialize (Hpos _ Hin).
    destruct (ItemPointerGet_Set b off (block_ok b p Hpos Hp)) as [G1 G2]. apply element_at_place in Hat. unfold place_of in Hat.
    rewrite G1, G2 in Hat. cbn [fst snd] in Hat. assert (Ht' : tuple_at rel b off = Some (ElementTuple et')) by (apply tuple_at_lookup; by exists p).
    rewrite Ht' in Hat. by injection Hat as <-.
  - intros Hkept. apply element_at_place, tuple_at_lookup in Hat as (p & Hp & Ht). unfold place_of in Hp, Ht. cbn [fst snd] in Hp, Ht.
    exists (ItemPointerGetBlockNumber k), p, (ItemPointerGetOffsetNumber k). split; [|split; [done|]].
    + by apply (chain_blocks rel bs _ p (pw_chain _ _ _ _ Hwf)).
    + split; [by exists et|]. symmetry. by apply ItemPointerSet_Get.
Qed.

Lemma cleaned_emptied_set : emptied_set E D rel'.
Proof using Hwf Hchain Hpos Hcl HD.
  intros k Hk. destruct (element_of _ _ _ _ Hwf k Hk) as (et & nt & Hat & _). rewrite (cleaned_emptied k et Hk Hat).
  by rewrite (proj2 (cleaned_element k et Hk Hat)).
Qed.

(** The places of the elements in use. *)
Lemma live_element b off et entry : live_in callback entry rel bs b off et ->
  let k := ItemPointerSet b off in BlockNumber_ok b /\ place_of k = (b, off) /\ k ∈ E /\ (k ∉ D) /\ element_at rel k = Some et.
Proof using Hwf Hchain Hpos HD.
  intros (Hin & Ht & Hkept & _) k. pose proof (proj1 (list.Forall_forall _ _) Hpos _ Hin) as Hb.
  pose proof Ht as (p & Hp & _)%tuple_at_lookup. pose proof (block_ok b p Hb Hp) as Hbk.
  assert (Hpl : place_of k = (b, off)) by (destruct (ItemPointerGet_Set b off Hbk) as [G1 G2]; unfold place_of, k; by rewrite G1, G2).
  assert (Hat : element_at rel k = Some et) by (apply element_at_place; by rewrite Hpl).
  assert (HE : k ∈ E).
  { apply (pw_all _ _ _ _ Hwf b off et Hb Ht). destruct (decide (et_deleted et = 0)) as [|Hd]; [done|].
    exfalso. apply Hkept. unfold kept. by rewrite (pw_dead _ _ _ _ Hwf b off et Hb Ht Hd). }
  split; [done|]. split; [done|]. split; [done|]. split; [|done]. rewrite (cleaned_emptied k et HE Hat). done.
Qed.

Lemma cleaned_highest meta level highestPoint s' : entry_wf rel meta E ->
  highest_of (live_in callback (entry_place meta) rel bs) highestPoint level s' ->
  exists hp, mem s' !! highestPoint = Some hp /\ highest_ok E D rel' meta hp.
Proof using Hwf Hchain Hpos Hcl HD.
  intros Hen [Hmax (hp & Hhp & Hv)]. exists hp. split; [done|]. unfold highest_ok.
  assert (Hel : forall k et', k ∈ E -> element_at rel' k = Some et' -> exists et, element_at rel k = Some et /\ et_level et' = et_level et).
  { intros k et' Hk Hat'. destruct (element_of _ _ _ _ Hwf k Hk) as (et & nt & Hat & _). exists et. split; [done|].
    rewrite (proj1 (cleaned_element k et Hk Hat)) in Hat'. by injection Hat' as <-. }
  assert (Hlive : forall k et, k ∈ E -> k ∉ D -> k <> entry_tid meta -> element_at rel k = Some et ->
    live_in callback (entry_place meta) rel bs (place_of k).1 (place_of k).2 et).
  { intros k et Hk HkD Hne Hat. destruct (pw_tid _ _ _ _ Hwf k Hk) as [Hok Hb1]. rewrite (cleaned_emptied k et Hk Hat) in HkD.
    apply element_at_place in Hat. split; [|split; [done|split; [done|]]].
    - apply tuple_at_lookup in Hat as (p & Hp & _). by apply (chain_blocks rel bs _ p (pw_chain _ _ _ _ Hwf)).
    - unfold entry_place. destruct (BlockNumberIsValid (mp_entryBlkno meta)); [|done]. intros [= E1 E2]. apply Hne. unfold entry_tid.
      rewrite E1, E2. symmetry. by apply ItemPointerSet_Get. }
  destruct (BlockNumberIsValid (el_blkno hp)).
  - destruct Hv as (et & HP & Hl). pose proof HP as (_ & _ & _ & Hplace). destruct (live_element _ _ _ _ HP) as (Hb & Hpl & HE & HkD & Hat).
    split; [done|]. split; [done|]. split; [done|]. split.
    + intros Heq. unfold entry_place in Hplace. pose proof (ey_entry _ _ _ Hen) as He.
      destruct (BlockNumberIsValid (mp_entryBlkno meta)); [|destruct He as [He _]; set_solver]. destruct He as (Hbe & _).
      destruct (ItemPointerGet_Set (mp_entryBlkno meta) (mp_entryOffno meta) Hbe) as [G1 G2]. rewrite Heq in Hpl. unfold place_of, entry_tid in Hpl.
      rewrite G1, G2 in Hpl. by rewrite Hpl in Hplace.
    + intros k et1 eth Hk1 HkD1 Hne Hat1 Hath. destruct (Hel k et1 Hk1 Hat1) as (et1' & Hat1' & ->). destruct (Hel _ eth HE Hath) as (eth' & Hath' & ->).
      rewrite Hat in Hath'. injection Hath' as <-. rewrite Hl. eapply Hmax, (Hlive k et1'); done.
  - intros k Hk HkD. destruct (decide (k = entry_tid meta)) as [|Hne]; [done|]. exfalso.
    destruct (element_of _ _ _ _ Hwf k Hk) as (et & nt & Hat & W). pose proof (ew_level _ _ _ _ _ _ _ W) as Hlev.
    specialize (Hmax _ _ _ (Hlive k et Hk HkD Hne Hat)). lia.
Qed.
End FirstPass.

(** ** After the third pass *)

Section Marking.
Context (rel rel' : Relation) (m : Z) (good : Vector -> Prop) (E D : gset ItemPointerData) (bs : list BlockNumber).
Context (Hwf : pages_wf rel m good E) (Hchain : chain_of rel HNSW_HEAD_BLKNO bs) (Hmk : marked_by (in_pages bs) rel rel').

#[local] Abbreviation marked := (marks (in_pages bs) rel).

Lemma marked_iff b off et : 1 <= b -> tuple_at rel b off = Some (ElementTuple et) -> marked b off et <-> to_mark et = true.
Proof using Hwf Hchain.
  intros Hb Ht. split; [by intros (_ & _ & H)|]. intros Hm. split; [|done].
  pose proof Ht as (p & Hp & _)%tuple_at_lookup. by apply (chain_blocks rel bs b p (pw_chain _ _ _ _ Hwf)).
Qed.

Lemma marked_back b off et : 1 <= b -> tuple_at rel' b off = Some (ElementTuple et) ->
  exists et0, tuple_at rel b off = Some (ElementTuple et0) /\ et = if to_mark et0 then mark_element et0 else et0.
Proof using Hwf Hchain Hmk.
  intros Hb Ht. destruct (tuple_at rel b off) as [[et0|nt]|] eqn:E0.
  - exists et0. split; [done|]. pose proof (marked_iff b off et0 Hb E0) as Hiff. destruct (to_mark et0).
    + rewrite (mb_marked _ _ _ Hmk b off et0) in Ht by (by apply Hiff). by injection Ht.
    + rewrite (mb_other _ _ _ Hmk b off et0 E0) in Ht by (intros Hm; by apply Hiff in Hm). by injection Ht.
  - destruct (mb_kind _ _ _ Hmk b off nt E0) as [nt' Hnt]. congruence.
  - rewrite (mb_none _ _ _ Hmk b off E0) in Ht. done.
Qed.

(** The neighbor tuple of an element. *)
Lemma marked_neighbor b off et nt : 1 <= b -> tuple_at rel b off = Some (ElementTuple et) ->
  tuple_at rel (neighbor_of et).1 (neighbor_of et).2 = Some (NeighborTuple nt) ->
  tuple_at rel' (neighbor_of et).1 (neighbor_of et).2 =
    Some (NeighborTuple (if to_mark et then marked_neighbors (next_version (et_version et)) nt else nt)).
Proof using Hwf Hchain Hmk.
  intros Hb Ht Hnt. pose proof (marked_iff b off et Hb Ht) as Hiff. destruct (to_mark et) eqn:Em.
  - apply (mb_emptied _ _ _ Hmk _ _ nt b off et Hnt); [by apply Hiff|done].
  - apply (mb_neighbors _ _ _ Hmk _ _ nt Hnt). intros c o et' Hm Heq. pose proof Hm as (Hc & Ht' & Hm').
    assert (Hc1 : 1 <= c).
    { destruct (chain_exists rel 1 (pw_index _ _ _ _ Hwf)) as (bs2 & Hchain2 & _ & Hrange & _).
      - pose proof Ht as (p & Hp & _)%tuple_at_lookup. apply block_lookup in Hp as [_ Hl]. apply lookup_lt_Some in Hl. lia.
      - rewrite (chain_unique _ _ _ _ Hchain2 Hchain) in Hrange. rewrite list.Forall_forall in Hrange. specialize (Hrange _ Hc). lia. }
    injection Heq as E1 E2.
    pose proof (eo_own _ (pw_elements _ _ _ _ Hwf) c o et' b off et Hc1 Hb Ht' Ht E1 E2) as [= -> ->]. congruence.
Qed.

Lemma marked_links : links_kept rel rel'.
Proof using Hmk.
  split; [by rewrite (mb_length _ _ _ Hmk)|]. intros b p' Hp. destruct (mb_pages _ _ _ Hmk b p' Hp) as (p & Hp0 & _ & Ho & _). by exists p.
Qed.

Lemma marked_elements_ok : elements_ok rel'.
Proof using Hwf Hchain Hmk.
  pose proof (pw_elements _ _ _ _ Hwf) as [H1 H2 H3].
  assert (Hsame : forall et0, et_heaptids (if to_mark et0 then mark_element et0 else et0) = et_heaptids et0 /\
    et_neighbortid (if to_mark et0 then mark_element et0 else et0) = et_neighbortid et0) by (intros et0; by destruct (to_mark et0)).
  split.
  - intros b off et Hb (et0 & Ht & ->)%marked_back; [|done]. rewrite (proj1 (Hsame et0)). by apply (H1 b off).
  - intros b off et Hb (et0 & Ht & ->)%marked_back; [|done]. unfold has_neighbors. rewrite (proj2 (Hsame et0)).
    destruct (H2 b off et0 Hb Ht) as (Hnb & nt & Hnt & Hc). split; [done|].
    pose proof (marked_neighbor b off et0 nt Hb Ht Hnt) as Hnt'. unfold neighbor_of in Hnt'. cbn [fst snd] in Hnt'. eexists. split; [exact Hnt'|].
    destruct (to_mark et0); [|done]. unfold marked_neighbors. cbn [nt_count nt_indextids]. rewrite length_app, length_replicate, length_drop. lia.
  - intros b off et c o et' Hb Hc (et0 & Ht & ->)%marked_back (et1 & Ht' & ->)%marked_back; [|done|done].
    rewrite (proj2 (Hsame et0)), (proj2 (Hsame et1)). by apply (H3 b off et0 c o et1).
Qed.

Lemma marked_index_ok : index_ok rel'.
Proof using Hwf Hchain Hmk.
  pose proof (pw_index _ _ _ _ Hwf) as [H1 H2 H3 H4]. split.
  - by rewrite (mb_length _ _ _ Hmk).
  - intros b p' Hb Hp. destruct (mb_pages _ _ _ Hmk b p' Hp) as (p & Hp0 & Hok & _). by apply Hok, (H2 b).
  - intros b p' Hb Hp. destruct (mb_pages _ _ _ Hmk b p' Hp) as (p & Hp0 & _ & Ho & _). rewrite (mb_length _ _ _ Hmk).
    unfold nextblkno. rewrite Ho. by apply (H3 b p).
  - intros b off et Hb Ht _. destruct (eo_neighbors _ marked_elements_ok b off et Hb Ht) as (Hnb & nt & Hnt & _). split; [done|]. by exists nt.
Qed.

Context (Hemp : emptied_set E D rel) (Hclean : forall k, k ∈ E -> k ∉ D -> clean D rel k).

Lemma to_mark_emptied k et : k ∈ E -> element_at rel k = Some et -> to_mark et = true <-> k ∈ D.
Proof using Hwf Hemp.
  intros Hk Hat. destruct (element_of _ _ _ _ Hwf k Hk) as (et' & nt & Hat' & W). rewrite Hat in Hat'. injection Hat' as <-.
  rewrite (Hemp k Hk). unfold heap_tids, to_mark. rewrite Hat, (ew_live _ _ _ _ _ _ _ W). cbn [Z.eqb andb].
  destruct (et_heaptids et) as [|t l] eqn:Eh; [|simpl; by destruct (ItemPointerIsValid t)].
  destruct (ew_heaptids _ _ _ _ _ _ _ W) as [Hlen _]. by rewrite Eh in Hlen.
Qed.

Lemma marked_kept k et : k ∈ E -> k ∉ D -> element_at rel k = Some et -> element_at rel' k = Some et /\ to_mark et = false.
Proof using Hwf Hchain Hmk Hemp.
  intros Hk HD Hat. assert (Hm : to_mark et = false) by (apply not_true_iff_false; by rewrite (to_mark_emptied k et Hk Hat)).
  split; [|done]. apply element_at_place in Hat. apply element_at_place. apply (mb_other _ _ _ Hmk _ _ et Hat). intros (_ & _ & Hm'). congruence.
Qed.

Lemma marked_layer lc t : t ∈ layer rel E lc -> t ∉ D -> t ∈ layer rel' (E ∖ D) lc.
Proof using Hwf Hchain Hmk Hemp.
  rewrite !elem_of_layer. intros (HE & et & Hat & Hl) HD. split; [by apply elem_of_difference|]. exists et. by rewrite (proj1 (marked_kept t et HE HD Hat)).
Qed.

Lemma marked_wf : pages_wf rel' m good (E ∖ D).
Proof using Hwf Hchain Hmk Hemp Hclean.
  split.
  - apply Hwf.
  - exact marked_index_ok.
  - exact marked_elements_ok.
  - intros k [Hk _]%elem_of_difference. by apply (pw_tid _ _ _ _ Hwf).
  - intros k [Hk HD]%elem_of_difference. destruct (element_of _ _ _ _ Hwf k Hk) as (et & nt & Hat & [W1 W2 W3 W4 W5 W6 W7 W8 W9 W10 W11 W12]).
    destruct (marked_kept k et Hk HD Hat) as [Hat' Hm]. exists et, nt. split; try done.
    + apply neighbor_at_place. pose proof W2 as W2'. apply neighbor_at_place in W2'. apply element_at_place in Hat.
      pose proof (marked_neighbor _ _ et nt (proj2 (pw_tid _ _ _ _ Hwf k Hk)) Hat W2') as Hn. by rewrite Hm in Hn.
    + intros lc t Hlc Ht Hv. apply marked_layer; [by apply (W11 lc t)|]. apply (Hclean k Hk HD et nt Hat W2 t); [|done].
      eapply elem_of_submseteq; [exact Ht|]. apply sublist_submseteq. unfold layer_slots. etrans; [apply sublist_take|apply sublist_drop].
    + by apply (mb_items _ _ _ Hmk).
  - intros b off et Hb (et0 & Ht & ->)%marked_back Hd; [|done]. destruct (to_mark et0) eqn:Em; [done|].
    pose proof (pw_all _ _ _ _ Hwf b off et0 Hb Ht Hd) as HE. apply elem_of_difference. split; [done|].
    assert (Hat : element_at rel (ItemPointerSet b off) = Some et0).
    { pose proof Ht as (p & Hp & _)%tuple_at_lookup. apply element_at_place.
      destruct (ItemPointerGet_Set b off (block_ok rel m good E Hwf b p Hb Hp)) as [G1 G2]. unfold place_of. by rewrite G1, G2. }
    rewrite <- (to_mark_emptied _ et0 HE Hat). congruence.
  - intros b off et Hb (et0 & Ht & ->)%marked_back; [|done]. destruct (to_mark et0) eqn:Em; [|by apply (pw_dead _ _ _ _ Hwf b off et0)].
    intros _. cbn [mark_element et_heaptids]. pose proof (wf_heaptids rel m good E Hwf b off et0 Hb Ht) as Hok.
    destruct (heaptids_ok_valid _ Hok) as [Heq _]. unfold to_mark in Em. apply andb_true_iff in Em as [_ Em].
    destruct (et_heaptids et0) as [|t l]; [done|]. apply negb_true_iff in Em. simpl in Heq. rewrite Em in Heq. done.
  - eapply links_kept_reached; [exact marked_links|apply Hwf].
Qed.

Lemma marked_entry meta : entry_wf rel meta (E ∖ D) -> meta_ok rel' meta -> entry_wf rel' meta (E ∖ D).
Proof using Hwf Hchain Hmk Hemp.
  intros [H1 H2 H3 H4] Hmeta. split; [done|by rewrite (mb_length _ _ _ Hmk)| |].
  - destruct (BlockNumberIsValid _); [|done]. destruct H3 as (? & ? & Hin & et & Hat & Hl). split_and!; try done. exists et. split; [|done].
    apply elem_of_difference in Hin as [HE HD]. by rewrite (proj1 (marked_kept _ et HE HD Hat)).
  - intros k et Hk. pose proof Hk as [HE HD]%elem_of_difference. destruct (element_of _ _ _ _ Hwf k HE) as (et0 & nt & Hat & _).
    rewrite (proj1 (marked_kept k et0 HE HD Hat)). intros [= <-]. by apply (H4 k).
Qed.
End Marking.

(** ** Rows and statistics *)

(** The rows the callback does not report. *)
Definition live_rows (callback : ItemPointerData -> bool) (rows : list (ItemPointerData * Vector)) : list (ItemPointerData * Vector) :=
  List.filter (fun r => negb (callback r.1)) rows.

Lemma filterb_fmap {A B} (f : A -> B) (P : B -> bool) (l : list A) : List.filter P (f <$> l) = f <$> List.filter (fun a => P (f a)) l.
Proof. induction l as [|a l IH]; [done|]. rewrite fmap_cons. simpl. destruct (P (f a)); simpl; by rewrite IH. Qed.

Lemma filterb_bind {A B} (f : A -> list B) (P : B -> bool) (l : list A) : List.filter P (l ≫= f) = l ≫= (fun a => List.filter P (f a)).
Proof. induction l as [|a l IH]; [done|]. rewrite !bind_cons, List.filter_app. by rewrite IH. Qed.

(** Elements without a share can be left out. *)
Lemma bind_elements_sub {B} (g : ItemPointerData -> list B) (L K : gset ItemPointerData) : L ⊆ K -> (forall k, k ∈ K -> k ∉ L -> g k = []) ->
  elements K ≫= g ≡ₚ elements L ≫= g.
Proof.
  intros Hsub Hnil. rewrite (union_difference_L L K Hsub) at 1. rewrite elements_disj_union by set_solver. rewrite bind_app.
  assert (Hrest : elements (K ∖ L) ≫= g = []); [|by rewrite Hrest, app_nil_r].
  assert (Hall : forall k, k ∈ elements (K ∖ L) -> g k = []) by (intros k [Hk HL]%elem_of_elements%elem_of_difference; auto).
  induction (elements (K ∖ L)) as [|k l IH]; [done|]. rewrite bind_cons, (Hall k) by left. apply IH. intros k' Hk'. apply Hall. by right.
Qed.

(** The rows of what the passes leave: the elements that are kept have the heap
    TIDs that stay, the others had none that stay. *)
Lemma live_rows_index callback rel rel' (E D : gset ItemPointerData) :
  (forall k, k ∈ E -> exists et, element_at rel k = Some et /\
     if decide (k ∈ D) then kept callback (et_heaptids et) = []
     else exists et', element_at rel' k = Some et' /\ et_data et' = et_data et /\ heap_tids rel' k = kept callback (et_heaptids et)) ->
  index_rows rel' (E ∖ D) ≡ₚ live_rows callback (index_rows rel E).
Proof.
  intros Hall. unfold live_rows, index_rows. rewrite filterb_bind. rewrite (bind_elements_sub _ (E ∖ D) E); [|set_solver|].
  - erewrite bind_same; [reflexivity|]. intros k [HE HkD]%elem_of_elements%elem_of_difference.
    destruct (Hall k HE) as (et & Hat & Hk). rewrite decide_False in Hk by done. destruct Hk as (et' & Hat' & Hda & Hh).
    unfold rows_at. rewrite Hat, Hat', Hh, Hda, filterb_fmap. unfold kept, heap_tids. by rewrite Hat.
  - intros k HE HkD. assert (Hin : k ∈ D) by (destruct (decide (k ∈ D)); [done|]; set_solver).
    destruct (Hall k HE) as (et & Hat & Hk). rewrite decide_True in Hk by done.
    unfold rows_at. rewrite Hat, filterb_fmap. unfold kept in Hk. unfold heap_tids. rewrite Hat. simpl. by rewrite Hk.
Qed.

(** The heap TIDs of the items of a chain, as the first pass meets them. *)
Definition item_tids (it : ItemIdData) : list ItemPointerData :=
  match lp_item it with Some (ElementTuple et) => valid_prefix (et_heaptids et) | _ => [] end.
Definition chain_tids (rel : Relation) (bs : list BlockNumber) : list ItemPointerData :=
  bs ≫= fun b => match block (rd_main rel) b with Some p => pd_linp p ≫= item_tids | None => [] end.

(** What the statistics count of some heap TIDs. *)
Definition count_tids (callback : ItemPointerData -> bool) (tids : list ItemPointerData) (st : IndexBulkDeleteResult) : IndexBulkDeleteResult :=
  mkBulkDelete (num_pages st) (num_index_tuples st + Z.of_nat (length (List.filter (fun t => negb (callback t)) tids)))
    (tuples_removed st + Z.of_nat (length (List.filter callback tids))).

Lemma count_tids_app callback l k st : count_tids callback (l ++ k) st = count_tids callback k (count_tids callback l st).
Proof. unfold count_tids. cbn. rewrite !List.filter_app, !length_app. f_equal; lia. Qed.

Lemma count_tids_nil callback st : count_tids callback [] st = st.
Proof. destruct st. unfold count_tids. cbn. by rewrite !Z.add_0_r. Qed.

Lemma chain_stats_tids callback rel bs st : chain_stats callback rel bs st = count_tids callback (chain_tids rel bs) st.
Proof.
  assert (Hitem : forall st it, item_stats callback st it = count_tids callback (item_tids it) st).
  { intros st0 it. unfold item_stats, item_tids. destruct (lp_item it) as [[et|nt]|]; [|by rewrite count_tids_nil|by rewrite count_tids_nil].
    unfold clean_stats, count_tids, add_kept, add_removed, kept, removed. reflexivity. }
  assert (Hpage : forall l st, fold_left (item_stats callback) l st = count_tids callback (l ≫= item_tids) st).
  { induction l as [|it l IH]; intros st0; [by rewrite count_tids_nil|]. cbn [fold_left]. by rewrite IH, Hitem, bind_cons, count_tids_app. }
  unfold chain_stats, chain_tids. revert st. induction bs as [|b bs IH]; intros st; [by rewrite count_tids_nil|].
  cbn [fold_left]. rewrite IH, bind_cons, count_tids_app. f_equal. destruct (block (rd_main rel) b) as [p|]; [|by rewrite count_tids_nil].
  apply Hpage.
Qed.

Lemma count_tids_perm callback l k st : l ≡ₚ k -> count_tids callback l st = count_tids callback k st.
Proof. intros Hp. unfold count_tids. by rewrite Hp. Qed.

Section ChainTids.
Context (rel : Relation) (m : Z) (good : Vector -> Prop) (E : gset ItemPointerData) (bs : list BlockNumber).
Context (Hwf : pages_wf rel m good E) (Hchain : chain_of rel HNSW_HEAD_BLKNO bs) (Hnd : NoDup bs) (Hpos : Forall (fun c => 1 <= c) bs).

(** The places of the items. *)
Definition chain_keys (bs : list BlockNumber) : list ItemPointerData :=
  bs ≫= fun b => match block (rd_main rel) b with
                 | Some p => (fun i => ItemPointerSet b (Z.of_nat i + 1)) <$> seq 0 (length (pd_linp p))
                 | None => []
                 end.

Lemma elem_of_chain_keys l k : k ∈ chain_keys l <->
  exists b p i, b ∈ l /\ block (rd_main rel) b = Some p /\ (i < length (pd_linp p))%nat /\ k = ItemPointerSet b (Z.of_nat i + 1).
Proof using Type.
  unfold chain_keys. rewrite list_elem_of_bind. split.
  - intros (b & Hk & Hb). destruct (block (rd_main rel) b) as [p|] eqn:Hp; [|by apply elem_of_nil in Hk].
    apply list_elem_of_fmap in Hk as (i & -> & Hi). apply elem_of_seq in Hi. exists b, p, i. split_and!; try done. lia.
  - intros (b & p & i & Hb & Hp & Hi & ->). exists b. rewrite Hp. split; [|done].
    apply list_elem_of_fmap. exists i. split; [done|]. apply elem_of_seq. lia.
Qed.

Lemma chain_keys_nodup : NoDup (chain_keys bs).
Proof using Hwf Hnd Hpos.
  clear Hchain. induction bs as [|b l IH]; [constructor|]. apply list.NoDup_cons in Hnd as [Hb Hnd']. apply list.Forall_cons in Hpos as [Hb1 Hpos'].
  unfold chain_keys. rewrite bind_cons. fold (chain_keys l). apply list.NoDup_app. split; [|split; [|by apply IH]].
  - destruct (block (rd_main rel) b) as [p|]; [|constructor]. apply NoDup_fmap_2_strong; [|apply NoDup_seq].
    intros i j _ _ [= Hij]. lia.
  - intros k Hk (c & q & j & Hc & Hq & Hj & Heq)%elem_of_chain_keys. destruct (block (rd_main rel) b) as [p|] eqn:Hp; [|by apply elem_of_nil in Hk].
    apply list_elem_of_fmap in Hk as (i & Hk & _). assert (Hc1 : 1 <= c) by (rewrite list.Forall_forall in Hpos'; auto).
    rewrite Hk in Heq. apply ItemPointerSet_inj in Heq as [-> _]; [done| |]; by eapply block_ok.
Qed.

Lemma chain_tids_keys : chain_tids rel bs = chain_keys bs ≫= heap_tids rel.
Proof using Hwf Hpos.
  clear Hchain Hnd. unfold chain_tids, chain_keys. induction bs as [|b l IH]; [done|]. apply list.Forall_cons in Hpos as [Hb1 Hpos'].
  rewrite !bind_cons, bind_app, IH by done. f_equal. destruct (block (rd_main rel) b) as [p|] eqn:Hp; [|done].
  assert (Hitem : forall i it, pd_linp p !! i = Some it -> item_tids it = heap_tids rel (ItemPointerSet b (Z.of_nat i + 1))).
  { intros i it Hit. destruct (page_item p (ix_pages _ (pw_index _ _ _ _ Hwf) b p Hb1 Hp) i it Hit) as (_ & _ & _ & _ & _ & [tup Htup]).
    unfold item_tids, heap_tids, element_at. destruct (ItemPointerGet_Set b (Z.of_nat i + 1) (block_ok rel m good E Hwf b p Hb1 Hp)) as [-> ->].
    assert (Ht : tuple_at rel b (Z.of_nat i + 1) = Some tup).
    { apply tuple_at_lookup. exists p. split; [done|]. apply page_tuple_lookup. exists it.
      replace (Z.to_nat (Z.of_nat i + 1 - 1)) with i by lia. split; [lia|done]. }
    rewrite Ht, Htup. by destruct tup. }
  assert (Hgen : forall k, (k <= length (pd_linp p))%nat -> take k (pd_linp p) ≫= item_tids =
    ((fun i => ItemPointerSet b (Z.of_nat i + 1)) <$> seq 0 k) ≫= heap_tids rel).
  { induction k as [|k IHk]; intros Hk; [done|]. destruct (lookup_lt_is_Some_2 (pd_linp p) k ltac:(lia)) as [it Hit].
    rewrite (take_S_r _ _ _ Hit), seq_S, fmap_app, !bind_app, IHk by lia. f_equal. cbn. rewrite !app_nil_r. by apply Hitem. }
  rewrite <- Hgen by lia. by rewrite firstn_all.
Qed.

(** The first pass meets the heap TIDs of the index. *)
Lemma chain_tids_index : chain_tids rel bs ≡ₚ index_tids rel E.
Proof using All.
  rewrite chain_tids_keys. unfold index_tids. set (K := list_to_set (chain_keys bs) : gset ItemPointerData).
  assert (HK : elements K ≡ₚ chain_keys bs).
  { apply NoDup_Permutation; [apply NoDup_elements|exact chain_keys_nodup|]. intros k. rewrite elem_of_elements. unfold K. by rewrite elem_of_list_to_set. }
  rewrite <- HK. apply bind_elements_sub.
  - intros k Hk. unfold K. apply elem_of_list_to_set, elem_of_chain_keys. destruct (element_of _ _ _ _ Hwf k Hk) as (et & nt & Hat & _).
    destruct (pw_tid _ _ _ _ Hwf k Hk) as [Hok Hb]. apply element_at_place, tuple_at_lookup in Hat as (p & Hp & Ht). unfold place_of in Hp, Ht.
    cbn [fst snd] in Hp, Ht. apply page_tuple_lookup in Ht as (it & Ho & Hl & _). apply lookup_lt_Some in Hl.
    exists (ItemPointerGetBlockNumber k), p, (Z.to_nat (ItemPointerGetOffsetNumber k - 1)). split; [by eapply chain_blocks; [apply Hwf|..]|].
    split; [done|]. split; [done|]. rewrite Z2Nat.id by lia. replace (ItemPointerGetOffsetNumber k - 1 + 1) with (ItemPointerGetOffsetNumber k) by lia.
    symmetry. by apply ItemPointerSet_Get.
  - intros k Hk HE. unfold K in Hk. apply elem_of_list_to_set, elem_of_chain_keys in Hk as (b & p & i & Hb & Hp & Hi & ->).
    assert (Hb1 : 1 <= b) by (rewrite list.Forall_forall in Hpos; auto). unfold heap_tids. destruct (element_at rel _) as [et|] eqn:Hat; [|done].
    apply element_at_place in Hat. destruct (ItemPointerGet_Set b (Z.of_nat i + 1) (block_ok rel m good E Hwf b p Hb1 Hp)) as [G1 G2].
    unfold place_of in Hat. rewrite G1, G2 in Hat. cbn [fst snd] in Hat. destruct (decide (et_deleted et = 0)) as [Hd|Hd].
    + exfalso. by apply HE, (pw_all _ _ _ _ Hwf b _ et).
    + by rewrite (pw_dead _ _ _ _ Hwf b _ et Hb1 Hat Hd).
Qed.
End ChainTids.

(** ** The three passes *)

Lemma HnswGetMetaPageM_run s meta : meta_ok (index s) meta -> HnswGetMetaPageM s = Ok (mp_m meta, s).
Proof.
  intros (p & Hp & Hmeta & Hmagic). assert (Hread : read_meta HNSW_METAPAGE_BLKNO s = Ok (meta, s)).
  { unfold read_meta. run (ReadBuffer_run _ _ _ Hp).
    assert (Hr : read_page MAIN_FORKNUM (BufferPage HNSW_METAPAGE_BLKNO) s = Ok (p, s)) by (unfold read_page; simpl; by rewrite Hp).
    run Hr. by rewrite Hmeta. }
  unfold HnswGetMetaPageM. run Hread. rewrite Hmagic, Z.eqb_refl. by run (lift_res_run (raise_if (negb true) ERR_hnsw_index_not_valid) s tt eq_refl).
Qed.

Section BulkDelete.
Context `{Palloc} `{ListSort} `{Libm} (garbage : HnswCandidate) (callback : ItemPointerData -> bool) (good : Vector -> Prop).

(** The marking after the repair, and the metapage. *)
Lemma MarkDeleted_wf fuel s meta m E D : pages_wf (index s) m good E -> entry_wf (index s) meta (E ∖ D) -> xlog s = None ->
  emptied_set E D (index s) -> (forall k, k ∈ E -> k ∉ D -> clean D (index s) k) -> nlen (index s) <= Z.of_nat fuel ->
  exists s' meta', MarkDeleted fuel s = Ok (tt, s') /\ pages_wf (index s') m good (E ∖ D) /\ entry_wf (index s') meta' (E ∖ D) /\
    mp_m meta' = mp_m meta /\ mp_dimensions meta' = mp_dimensions meta /\ xlog s' = None /\ nlen (index s') = nlen (index s) /\
    index s' = with_pages (index s) MAIN_FORKNUM (rd_main (index s')) /\
    forall k, k ∈ E -> k ∉ D -> element_at (index s') k = element_at (index s) k.
Proof using Type.
  intros Hwf Hen Hx Hemp Hclean Hf. pose proof Hen as [Hmeta Hins _ _].
  destruct (MarkDeleted_run fuel s meta (pw_index _ _ _ _ Hwf) (pw_elements _ _ _ _ Hwf) Hmeta Hx ltac:(lia))
    as (bs & s' & meta' & Hchain & Erun & Hmk & _ & Hx' & Hmeta' & Hip & ip & Hm').
  assert (Hfields : mp_m meta' = mp_m meta /\ mp_dimensions meta' = mp_dimensions meta /\ mp_entryBlkno meta' = mp_entryBlkno meta /\
    mp_entryOffno meta' = mp_entryOffno meta /\ mp_entryLevel meta' = mp_entryLevel meta)
    by (rewrite Hm'; unfold HnswUpdateMetaPageInfo; simpl; by destruct (BlockNumberIsValid ip)).
  destruct Hfields as (F1 & F2 & F3 & F4 & F5). pose proof (mb_length _ _ _ Hmk) as Hlen.
  exists s', meta'. split; [done|]. split; [by eapply marked_wf|]. split; [|split; [done|split; [done|split; [done|split; [by rewrite Hlen|split]]]]].
  - assert (Hen' : entry_wf (index s) meta (E ∖ D)) by done. destruct Hen' as [_ _ Y3 Y4]. split; [done| | |].
    + rewrite Hlen. destruct Hip as [->|Hin]; [done|]. destruct (chain_exists (index s) 1 (pw_index _ _ _ _ Hwf) ltac:(lia)) as (bs2 & Hchain2 & _ & Hrange & _).
      rewrite (chain_unique _ _ _ _ Hchain2 Hchain) in Hrange. rewrite list.Forall_forall in Hrange. specialize (Hrange _ Hin). lia.
    + rewrite F3, F4, F5. unfold entry_tid. rewrite F3, F4. destruct (BlockNumberIsValid _); [|done]. destruct Y3 as (? & ? & Hin & et & Hat & Hl).
      split_and!; try done. exists et. split; [|done]. pose proof Hin as [HE HD]%elem_of_difference.
      exact (proj1 (marked_kept _ _ _ _ _ _ _ Hwf Hchain Hmk Hemp _ et HE HD Hat)).
    + intros k et Hk. rewrite F5. pose proof Hk as [HE HD]%elem_of_difference. destruct (element_of _ _ _ _ Hwf k HE) as (et0 & nt & Hat & _).
      rewrite (proj1 (marked_kept _ _ _ _ _ _ _ Hwf Hchain Hmk Hemp k et0 HE HD Hat)). intros [= <-]. by apply (Y4 k).
  - apply (mb_rel _ _ _ Hmk).
  - intros k HE HD. destruct (element_of _ _ _ _ Hwf k HE) as (et0 & nt & Hat & _).
    by rewrite (proj1 (marked_kept _ _ _ _ _ _ _ Hwf Hchain Hmk Hemp k et0 HE HD Hat)).
Qed.

Lemma hnswbulkdelete_run fuel stats s meta E : support_ok (HnswInitSupport (index s)) good -> index_wf (index s) meta good E -> xlog s = None ->
  nlen (index s) + Z.of_nat (size E) <= Z.of_nat fuel ->
  exists s' meta' E',
    hnswbulkdelete garbage fuel stats callback s = Ok (count_tids callback (index_tids (index s) E) (default zero_stats stats), s') /\
    index_wf (index s') meta' good E' /\ E' ⊆ E /\ index_rows (index s') E' ≡ₚ live_rows callback (index_rows (index s) E) /\
    all_held (index s') E' /\ mp_m meta' = mp_m meta /\ mp_dimensions meta' = mp_dimensions meta /\ xlog s' = None /\
    nlen (index s') = nlen (index s) /\ index s' = with_pages (index s) MAIN_FORKNUM (rd_main (index s')).
Proof using Type.
  intros Hsup [Hwf Hen] Hx Hf. pose proof Hen as [Hmeta Hins _ _]. set (m := mp_m meta) in *.
  unfold hnswbulkdelete. rewrite (M_bind_run _ _ s s s) by done. cbv zeta. run (HnswGetMetaPageM_run s meta Hmeta).
  set (hpa := palloc_addr (mem s)). set (s0 := mkBackend (<[hpa := uninit]> (mem s)) (index s) (xlog s)).
  rewrite (M_bind_run _ _ s hpa s0) by done.
  destruct (RemoveHeapTids_run callback hpa fuel (default zero_stats stats) s0 meta) as (bs & D & st & s1 & level & Hchain & E1 & Hcl & HD & Hst & Hx1 & _ & Hhi);
    [apply Hwf|done|by eapply wf_heaptids|done|simpl; lia|simpl; rewrite lookup_insert_eq; by eexists|].
  run E1. change (index s0) with (index s) in *.
  destruct (chain_exists (index s) 1 (pw_index _ _ _ _ Hwf) ltac:(lia)) as (bs2 & Hchain2 & Hnd & Hrange & _).
  rewrite (chain_unique _ _ _ _ Hchain2 Hchain) in Hnd, Hrange. clear bs2 Hchain2.
  assert (Hpos : Forall (fun c => 1 <= c) bs) by (eapply List.Forall_impl; [|exact Hrange]; simpl; lia).
  pose proof (cleaned_wf _ _ _ _ _ _ _ Hwf Hchain Hpos Hcl) as Hwf1. pose proof (cleaned_entry _ _ _ _ _ _ _ Hwf Hchain Hpos Hcl _ _ Hen) as Hen1.
  pose proof (cleaned_emptied_set _ _ _ _ _ _ _ Hwf Hchain Hpos Hcl D HD) as Hemp1.
  destruct (cleaned_highest _ _ _ _ _ _ _ Hwf Hchain Hpos Hcl D HD meta level hpa s1 Hen Hhi) as (hp & Hhp & Hok).
  pose proof (cleaned_length _ _ _ _ Hcl) as Hlen1. pose proof (proj2 Hcl) as Hrel1.
  destruct (RepairGraph_run garbage (HnswGetEfConstruction (index s)) m good E D (HnswInitSupport (index s)) Hsup fuel s1 meta hpa hp
    Hwf1 Hx1 Hen1 Hemp1 (palloc_not_null _) Hhp Hok ltac:(lia) ltac:(lia)) as (s2 & meta2 & E2 & R2 & F1 & F2 & Hen2 & Hclean).
  run E2. pose proof (rd_links _ _ _ _ _ _ R2) as [Hlen2 _]. pose proof (emptied_elements E D _ _ (rd_elements _ _ _ _ _ _ R2) Hemp1) as Hemp2.
  destruct (MarkDeleted_wf fuel s2 meta2 m E D (rd_wf _ _ _ _ _ _ R2) Hen2 (rd_xlog _ _ _ _ _ _ R2) Hemp2 Hclean ltac:(lia))
    as (s3 & meta3 & E3 & Hwf3 & Hen3 & F3 & F4 & Hx3 & Hlen3 & Hrel3 & Hsame). run E3.
  assert (Hheap : forall k et, k ∈ E -> k ∉ D -> element_at (index s) k = Some et ->
    exists et', element_at (index s3) k = Some et' /\ et_data et' = et_data et /\ heap_tids (index s3) k = kept callback (et_heaptids et)).
  { intros k et HE HkD Hat. destruct (cleaned_element _ _ _ _ _ _ _ Hwf Hchain Hpos Hcl k et HE Hat) as [Hat1 Hh1].
    eexists. rewrite (Hsame k HE HkD), (rd_elements _ _ _ _ _ _ R2). split; [exact Hat1|]. split; [done|].
    rewrite <- Hh1. unfold heap_tids. by rewrite (Hsame k HE HkD), (rd_elements _ _ _ _ _ _ R2). }
  exists s3, meta3, (E ∖ D). split; [|split; [|split; [set_solver|split; [|split; [|split; [by rewrite F3, F1|split; [by rewrite F4, F2|split; [done|split; [lia|]]]]]]]]].
  - unfold mret, M_ret. do 2 f_equal. rewrite Hst, chain_stats_tids. apply count_tids_perm. by eapply chain_tids_index.
  - split; [|done]. by rewrite F3, F1.
  - apply live_rows_index. intros k HE. destruct (element_of _ _ _ _ Hwf k HE) as (et & nt & Hat & _). exists et. split; [done|].
    case_decide as HkD; [by apply (cleaned_emptied _ _ _ _ _ _ Hwf Hchain Hpos D HD k et HE Hat)|by apply Hheap].
  - intros k [HE HkD]%elem_of_difference. destruct (element_of _ _ _ _ Hwf k HE) as (et & nt & Hat & _).
    destruct (Hheap k et HE HkD Hat) as (et' & _ & _ & ->). intros Hkept. apply HkD. by apply (cleaned_emptied _ _ _ _ _ _ Hwf Hchain Hpos D HD k et HE Hat).
  - rewrite Hrel3, (rd_rel _ _ _ _ _ _ R2), Hrel1 at 1. by destruct (index s).
Qed.
End BulkDelete.
