(* ===== verification/HnswScan.v ===== *)
(** * Scans of the index

    src/pgvec/src/backend/access/hnsw/hnswscan.c: algorithm 5 of the HNSW paper
    and the iterative scans that resume it with the discarded candidates.

    The settings [hnsw_ef_search], [hnsw_iterative_scan],
    [hnsw_max_scan_tuples], [hnsw_scan_mem_multiplier] and [work_mem] are the
    Context of the section, and so is the size of the memory context of the
    scan.  Scan keys are not used by the index. *)

From Stdlib Require Import SpecFloat.
From S2P Require Import Prelude CFloat VectorType ItemPtr PairingHeap HnswData BufPage Backend HnswUtils.
From S2P Require Import SearchLayer.

(** ** The scan descriptor *)

(** [so_v] is [None] for a NULL pointer, [so_discarded] too. *)
Record HnswScanOpaqueData := mkScanOpaque {
  so_typeInfo : HnswTypeInfo;
  so_first : bool;
  so_w : list HnswSearchCandidate;
  so_v : option visited_hash;
  so_discarded : option (pairingheap HnswSearchCandidate);
  so_q : HnswQuery;
  so_m : Z;
  so_tuples : Z;
  so_previousDistance : double;
  so_maxMemory : double;
  so_support : HnswSupport
}.

Definition so_set_w (w : list HnswSearchCandidate) (so : HnswScanOpaqueData) : HnswScanOpaqueData :=
  mkScanOpaque (so_typeInfo so) (so_first so) w (so_v so) (so_discarded so) (so_q so) (so_m so) (so_tuples so)
    (so_previousDistance so) (so_maxMemory so) (so_support so).
Definition so_set_first (b : bool) (so : HnswScanOpaqueData) : HnswScanOpaqueData :=
  mkScanOpaque (so_typeInfo so) b (so_w so) (so_v so) (so_discarded so) (so_q so) (so_m so) (so_tuples so)
    (so_previousDistance so) (so_maxMemory so) (so_support so).
Definition so_set_query (q : HnswQuery) (m : Z) (so : HnswScanOpaqueData) : HnswScanOpaqueData :=
  mkScanOpaque (so_typeInfo so) (so_first so) (so_w so) (so_v so) (so_discarded so) q m (so_tuples so)
    (so_previousDistance so) (so_maxMemory so) (so_support so).
Definition so_set_discarded (d : pairingheap HnswSearchCandidate) (so : HnswScanOpaqueData) : HnswScanOpaqueData :=
  mkScanOpaque (so_typeInfo so) (so_first so) (so_w so) (so_v so) (Some d) (so_q so) (so_m so) (so_tuples so)
    (so_previousDistance so) (so_maxMemory so) (so_support so).
(** The results of a layer search that go into the descriptor. *)
Definition so_set_search (v : visited_hash) (d : option (pairingheap HnswSearchCandidate)) (tuples : Z)
    (so : HnswScanOpaqueData) : HnswScanOpaqueData :=
  mkScanOpaque (so_typeInfo so) (so_first so) (so_w so) (Some v) d (so_q so) (so_m so) tuples
    (so_previousDistance so) (so_maxMemory so) (so_support so).
Definition so_set_previousDistance (d : double) (so : HnswScanOpaqueData) : HnswScanOpaqueData :=
  mkScanOpaque (so_typeInfo so) (so_first so) (so_w so) (so_v so) (so_discarded so) (so_q so) (so_m so) (so_tuples so)
    d (so_maxMemory so) (so_support so).

(** [orderByData] is [None] for a NULL pointer, and its argument [None] with
    SK_ISNULL. *)
Record IndexScanDesc := mkIndexScan {
  sd_orderByData : option (option Vector);
  sd_mvcc : bool;
  sd_opaque : HnswScanOpaqueData
}.

Definition set_scan_opaque (so : HnswScanOpaqueData) (scan : IndexScanDesc) : IndexScanDesc :=
  mkIndexScan (sd_orderByData scan) (sd_mvcc scan) so.

(** [pfree] of an element; it must not be used afterwards. *)
Definition pfree_element (p : addr) : M Backend unit :=
  fun s => match mem s !! p with
           | Some _ => Ok (tt, mkBackend (delete p (mem s)) (index s) (xlog s))
           | None => Err UndefinedBehaviour
           end.

Section Scan.
Context `{Palloc}.
Context (hnsw_ef_search : Z) (hnsw_iterative_scan : HnswIterativeScanMode) (hnsw_max_scan_tuples : Z).
Context (work_mem : Z) (hnsw_scan_mem_multiplier : double).
Context (MemoryContextMemAllocated : HnswScanOpaqueData -> double).
(** Bounds the expansions of a layer search. *)
Context (fuel : nat).

Definition iterative : bool :=
  match hnsw_iterative_scan with HNSW_ITERATIVE_SCAN_OFF => false | _ => true end.
Definition strict : bool :=
  match hnsw_iterative_scan with HNSW_ITERATIVE_SCAN_STRICT => true | _ => false end.

(** Layers [lc], ..., 1. *)
Fixpoint descend_scan (q : HnswQuery) (support : HnswSupport) (m : Z) (lc : nat) (ep : list HnswSearchCandidate)
    : M Backend (list HnswSearchCandidate) :=
  match lc with
  | O => mret ep
  | S lc' =>
      '(w, _, _, _) ← HnswSearchLayer NULL q 1 (Z.of_nat lc) false support m false NULL fuel ep None None true None ;
      descend_scan q support m lc' w
  end.

(** The first items; the descriptor keeps the query, [m], the visited set, the
    discarded candidates and the number of tuples. *)
Definition GetScanItems (so : HnswScanOpaqueData) (value : option Vector)
    : M Backend (list HnswSearchCandidate * HnswScanOpaqueData) :=
  '(m, entryPoint) ← HnswGetMetaPageInfo ;
  let q := mkHnswQuery value in
  let so := so_set_query q m so in
  if (entryPoint =? NULL)%N then mret ([], so)
  else
    sc ← HnswEntryCandidate false NULL entryPoint q (so_support so) false ;
    en ← load_element entryPoint ;
    ep ← descend_scan q (so_support so) m (Z.to_nat (el_level en)) [sc] ;
    '(w, v, d, tuples) ←
      HnswSearchLayer NULL q hnsw_ef_search 0 false (so_support so) m false NULL fuel ep (so_v so)
        (if iterative then Some (default (pairingheap_allocate CompareNearestDiscardedCandidates) (so_discarded so)) else None)
        true (Some (so_tuples so)) ;
    mret (w, so_set_search v (if iterative then d else so_discarded so) (default (so_tuples so) tuples) so).

(** Up to [n] discarded candidates, nearest first, and the heap left. *)
Fixpoint take_discarded (n : nat) (d : pairingheap HnswSearchCandidate)
    : res (list HnswSearchCandidate * pairingheap HnswSearchCandidate) :=
  match n with
  | O => Ok ([], d)
  | S n' =>
      if pairingheap_is_empty d then Ok ([], d)
      else
        '(sc, d) ← pairingheap_remove_first d ;
        '(ep, d) ← take_discarded n' d ;
        Ok (sc :: ep, d)
  end.

Definition ResumeScanItems (so : HnswScanOpaqueData) : M Backend (list HnswSearchCandidate * HnswScanOpaqueData) :=
  let batch_size := hnsw_ef_search in
  d ← lift_res (of_option UndefinedBehaviour (so_discarded so)) ;
  if pairingheap_is_empty d then mret ([], so)
  else
    '(ep, d) ← lift_res (take_discarded (Z.to_nat batch_size) d) ;
    v ← lift_res (of_option UndefinedBehaviour (so_v so)) ;
    '(w, v, d, tuples) ←
      HnswSearchLayer NULL (so_q so) batch_size 0 false (so_support so) (so_m so) false NULL fuel ep (Some v) (Some d)
        false (Some (so_tuples so)) ;
    mret (w, so_set_search v d (default (so_tuples so) tuples) so).

Definition GetScanValue (so : HnswScanOpaqueData) (orderBy : option Vector) : res (option Vector) :=
  match orderBy with
  | None => Ok None
  | Some value =>
      match normprocinfo (so_support so) with
      | Some _ => v ← HnswNormValue (so_typeInfo so) value ; Ok (Some v)
      | None => Ok (Some value)
      end
  end.

(** The limit on memory, in bytes; SIZE_MAX is 2^64 - 1.  The conversion to
    [Size] does not change what is compared with it, a number of bytes. *)
Definition max_memory : double :=
  let maxMemory := dadd (dmul (dmul (double_of_Z work_mem) hnsw_scan_mem_multiplier) (double_of_Z 1024)) (double_of_Z 256) in
  if flt maxMemory (double_of_Z (2 ^ 64 - 1)) then maxMemory else double_of_Z (2 ^ 64 - 1).

(** Fields that [palloc] leaves uninitialised are set by [hnswrescan]. *)
Definition hnswbeginscan (rel : Relation) (norderbys : Z) (mvcc : bool) : IndexScanDesc :=
  mkIndexScan (if 0 <? norderbys then Some None else None) mvcc
    (mkScanOpaque (HnswGetTypeInfo rel) true [] None None (mkHnswQuery None) 0 0 dzero max_memory (HnswInitSupport rel)).

Definition hnswrescan (scan : IndexScanDesc) (orderbys : option (option Vector)) : IndexScanDesc :=
  let so := sd_opaque scan in
  let so := mkScanOpaque (so_typeInfo so) true (so_w so) None None (so_q so) (so_m so) 0 neg_infinity
              (so_maxMemory so) (so_support so) in
  mkIndexScan (match sd_orderByData scan, orderbys with Some _, Some o => Some o | d, _ => d end) (sd_mvcc scan) so.

(** The first call of a scan. *)
Definition first_items (scan : IndexScanDesc) : M Backend HnswScanOpaqueData :=
  let so := sd_opaque scan in
  orderBy ← lift_res (of_option ERR_no_order (sd_orderByData scan)) ;
  lift_res (raise_if (negb (sd_mvcc scan)) ERR_non_mvcc_snapshot) ;;
  value ← lift_res (GetScanValue so orderBy) ;
  '(w, so) ← GetScanItems so value ;
  mret (so_set_first false (so_set_w w so)).

(** The scan may not go on: too many tuples or too much memory. *)
Definition scan_limit (so : HnswScanOpaqueData) : bool :=
  (hnsw_max_scan_tuples <=? so_tuples so) || fgt (MemoryContextMemAllocated so) (so_maxMemory so).

(** More items when there are none left, if possible. *)
Definition more_items (so : HnswScanOpaqueData) : M Backend HnswScanOpaqueData :=
  if negb iterative then mret so
  else
    match so_discarded so with
    | None => mret so
    | Some d =>
        if scan_limit so then
          if pairingheap_is_empty d then mret so
          else '(sc, d) ← lift_res (pairingheap_remove_first d) ;
               mret (so_set_w (so_w so ++ [sc]) (so_set_discarded d so))
        else '(w, so) ← ResumeScanItems so ; mret (so_set_w w so)
    end.

(** An element whose heap TIDs have all been returned leaves the list. *)
Definition drop_last (sc : HnswSearchCandidate) (so : HnswScanOpaqueData) : M Backend HnswScanOpaqueData :=
  (if iterative then pfree_element (HnswPtrAccess NULL (sc_element sc)) else mret tt) ;;
  mret (so_set_w (removelast (so_w so)) so).

(** The loop of [hnswgettuple]; [n] bounds its iterations. *)
Fixpoint scan_loop (n : nat) (so : HnswScanOpaqueData) : M Backend (option ItemPointerData * HnswScanOpaqueData) :=
  match n with
  | O => throw OutOfFuel
  | S n' =>
      so ← match so_w so with [] => more_items so | _ => mret so end ;
      match list.last (so_w so) with
      | None => mret (None, so)
      | Some sc =>
          let element := HnswPtrAccess NULL (sc_element sc) in
          el ← load_element element ;
          match list.last (el_heaptids el) with
          | None => so ← drop_last sc so ; scan_loop n' so
          | Some heaptid =>
              store_element element (el_set_heaptids (removelast (el_heaptids el)) el) ;;
              if strict then
                if flt (sc_distance sc) (so_previousDistance so) then scan_loop n' so
                else mret (Some heaptid, so_set_previousDistance (sc_distance sc) so)
              else mret (Some heaptid, so)
          end
      end
  end.

(** The heap TID of the next tuple, [None] when there are no more. *)
Definition hnswgettuple (n : nat) (scan : IndexScanDesc) : M Backend (option ItemPointerData * IndexScanDesc) :=
  so ← (if so_first (sd_opaque scan) then first_items scan else mret (sd_opaque scan)) ;
  '(tid, so) ← scan_loop n so ;
  mret (tid, set_scan_opaque so scan).
End Scan.
