(* ===== verification/ScanSpec.v ===== *)
(** * What a scan returns

    The invariant of an index scan between two calls of [hnswgettuple]
    (HnswScan.v) and what a whole scan returns: the heap TIDs of the elements
    the layer searches give out, each once, and in an iterative scan those of
    everything that can be reached at the ground layer. *)

From Stdlib Require Import SpecFloat.
From S2P Require Import Prelude CFloat VectorType PairingHeap GraphSearch ItemPtr HnswData BufPage Backend.
From S2P Require Import HnswUtils SearchLayer LayerRefinement PageUpdate MetaPage DiskGraph HnswScan.

(** ** Searches that are resumed *)

Section Resume.
Context {K : Type} `{Countable K} (G : SearchGraph K) (ef : Z) (U : gset K).
Context (U_closed : forall k k', k ∈ U -> k' ∈ g_neighbors G k -> k' ∈ U).
Context (U_numeric : forall k, k ∈ U -> numeric (g_distance G) k).
Context (U_counted : all_counted G U).
Context (U_level : forall k, k ∈ U -> g_level_ok G k = true).

#[local] Abbreviation dist := (g_distance G).

(** The keys a scan has visited: those it has given out, those it holds and
    those it has put aside; only the last may have neighbors it has not seen. *)
Record covers (gone w D : list K) (V : gset K) : Prop := {
  cv_inside k : k ∈ V -> k ∈ U;
  cv_all k : k ∈ V <-> k ∈ gone ++ w ++ D;
  cv_nodup : NoDup (gone ++ w ++ D)
}.

Definition expanded (l : list K) (V : gset K) : Prop :=
  forall k k', k ∈ l -> k' ∈ g_neighbors G k -> k' ∈ V.

Lemma covers_move gone w D gone' w' D' V :
  gone ++ w ++ D ≡ₚ gone' ++ w' ++ D' -> covers gone w D V -> covers gone' w' D' V.
Proof.
  intros Hp [H1 H2 H3]. split; [done| |by rewrite <- Hp]. intros k. by rewrite H2, Hp.
Qed.

#[export] Instance expanded_perm : Proper ((≡ₚ) ==> (=) ==> iff) expanded.
Proof. intros l l' Hl ? V ->. unfold expanded. by setoid_rewrite Hl. Qed.

(** The number of tuples counted is that of the visited keys. *)
Definition tuples_counted (s : GState K) : Prop := gs_tuples s = Some (Z.of_nat (size (gs_visited s))).

Lemma g_visit_fields k (s s' : GState K) : g_visit G ef k s = Ok s' ->
  gs_visited s' = gs_visited s /\ gs_tuples s' = gs_tuples s.
Proof.
  unfold g_visit. destruct (pairingheap_first _); [|done]. simpl.
  destruct (negb _); [by intros [= <-]|]. destruct (negb _); [by intros [= <-]|].
  destruct (g_counted G k); [|by intros [= <-]]. destruct (ef <? _); [|by intros [= <-]].
  destruct (pairingheap_remove_first _) as [[d W]|]; [|done]. by intros [= <-].
Qed.

Lemma g_visit_all_fields l (s s' : GState K) : g_visit_all G ef l s = Ok s' ->
  gs_visited s' = gs_visited s /\ gs_tuples s' = gs_tuples s.
Proof.
  revert s. induction l as [|k l IH]; simpl; intros s Hv; [by injection Hv as <-|].
  apply res_bind_ok in Hv as (s1 & [E1 E2]%g_visit_fields & [E3 E4]%IH). split; congruence.
Qed.

Lemma g_loop_counted fuel (s s' : GState K) : tuples_counted s -> g_loop G ef fuel s = Ok s' -> tuples_counted s'.
Proof.
  revert s. induction fuel as [|fuel IH]; simpl; intros s Hs;
    destruct (pairingheap_is_empty _); try (by intros [= <-]).
  destruct (pairingheap_remove_first _) as [[c C]|]; [|done]. simpl.
  destruct (pairingheap_first _) as [f|]; [|done]. simpl. destruct (fgt _ _); [by intros [= <-]|].
  destruct (g_unvisited _ _) as [u v] eqn:Eu. intros Hv. apply res_bind_ok in Hv as (s1 & H1 & H2).
  eapply IH; [|exact H2]. apply g_visit_all_fields in H1 as [E1 E2]. unfold tuples_counted. rewrite E1, E2. cbn.
  rewrite Hs. cbn. f_equal. destruct (g_unvisited_spec _ _ _ _ Eu) as (Hnd & Hu & Hv').
  assert (v = list_to_set u ∪ gs_visited s) as ->.
  { apply set_eq. intros k. rewrite Hv', elem_of_union, elem_of_list_to_set, Hu.
    destruct (decide (k ∈ gs_visited s)); tauto. }
  rewrite size_union, size_list_to_set; [lia|done|]. intros k. rewrite elem_of_list_to_set, Hu. tauto.
Qed.

Lemma fold_entry_counted ep (s : GState K) : NoDup ep -> (forall k, k ∈ ep -> k ∉ gs_visited s) ->
  tuples_counted s -> tuples_counted (fold_left (g_entry G true) ep s).
Proof.
  revert s. induction ep as [|k ep IH]; intros s Hnd Hep Hs; [done|]. apply list.NoDup_cons in Hnd as [Hk Hnd].
  assert (Hv : gs_visited (g_entry G true s k) = {[k]} ∪ gs_visited s) by (unfold g_entry; by destruct (g_counted G k)).
  assert (Ht : gs_tuples (g_entry G true s k) = Z.add 1 <$> gs_tuples s) by (unfold g_entry; by destruct (g_counted G k)).
  cbn [fold_left]. apply IH; [done|..].
  - intros k' Hk'. rewrite Hv, elem_of_union, elem_of_singleton. intros [->|Hx]; [done|]. eapply Hep; [by right|done].
  - unfold tuples_counted. rewrite Hv, Ht, Hs. cbn. f_equal. rewrite size_union, size_singleton; [lia|].
    intros k'. rewrite elem_of_singleton. intros ->. apply Hep. by left.
Qed.

Lemma fold_entry_resumed ep (s : GState K) : tuples_counted s ->
  tuples_counted (fold_left (g_entry G false) ep s).
Proof.
  revert s. induction ep as [|k ep IH]; intros s Hs; [done|]. cbn [fold_left]. apply IH.
  unfold g_entry, tuples_counted in *. by destruct (g_counted G k).
Qed.

(** What the invariant of a finished search says of a scan. *)
Lemma sinv_covers (gone : list K) n0 s d w :
  sinv G ef U (list_to_set gone) n0 true [] s -> gs_discarded s = Some d -> w ≡ₚ heap_elems (gs_W s) ->
  NoDup gone -> covers gone w (heap_elems d) (gs_visited s) /\ w <> [].
Proof.
  intros [_ _ _ _ Hg I] Hd Hw Hnd. unfold disc_elems in I. rewrite Hd in I. simpl in I.
  destruct I as [I1 _ I3 I4 I5 I6 _ _ I9 _]. simpl in I3, I5, I6.
  rewrite <- Hw in I5. setoid_rewrite <- Hw in I3. setoid_rewrite <- Hw in I6. split.
  - split; [done|..].
    + intros k. rewrite elem_of_app. split.
      * intros Hk. destruct (I9 eq_refl k Hk) as [Hx|[Hx|[Hx|[Hx|Hx]]]].
        -- left. by apply elem_of_list_to_set in Hx.
        -- by apply elem_of_nil in Hx.
        -- right. apply elem_of_app. left. by rewrite Hw.
        -- right. apply elem_of_app. by right.
        -- rewrite U_level in Hx by auto. done.
      * intros [Hk|Hk]; [apply Hg; by apply elem_of_list_to_set|by apply I3].
    + apply list.NoDup_app. split_and!; [done| |done]. intros k Hk. apply I6. by apply elem_of_list_to_set.
  - intros ->. by apply Permutation_nil_l in Hw.
Qed.

Lemma collected gone n0 s : sinv G ef U gone n0 true [] s ->
  exists d, gs_discarded s = Some d /\ good_heap G cmp_near d.
Proof.
  intros [_ _ HD Hc _ _]. symmetry in Hc. apply bool_decide_eq_true in Hc as [d Hd]. exists d. split; [done|]. by apply HD.
Qed.

Lemma search_counted fuel ep init v d t w (s : GState K) :
  g_search G ef fuel ep init v d t = Ok (w, s) ->
  tuples_counted (fold_left (g_entry G init) ep (g_start G v d t)) -> tuples_counted s.
Proof.
  unfold g_search. intros Hg Hc. apply res_bind_ok in Hg as (s1 & Hl & Hg).
  apply res_bind_ok in Hg as (? & _ & [= _ <-]). by eapply g_loop_counted.
Qed.

(** The first search of a scan. *)
Lemma first_search fuel k :
  k ∈ U -> (size U <= fuel)%nat ->
  exists w s d, g_search G ef fuel [k] true ∅ (Some (pairingheap_allocate (cmp_near dist))) (Some 0) = Ok (w, s) /\
    gs_discarded s = Some d /\ good_heap G cmp_near d /\ tuples_counted s /\
    covers [] w (heap_elems d) (gs_visited s) /\ w <> [] /\ expanded w (gs_visited s) /\ k ∈ gs_visited s /\
    search_result G ef U [k] w (gs_visited s).
Proof.
  intros Hk Hfuel.
  assert (HkU : forall k', k' ∈ [k] -> k' ∈ U) by (intros k' ->%list_elem_of_singleton; done).
  assert (Hvis : forall k', k' ∈ list_to_set [k] ∪ (∅ : gset K) <-> k' ∈ [k]).
  { intros k'. rewrite elem_of_union, elem_of_list_to_set. set_solver. }
  destruct (g_search_fresh G ef U U_closed U_numeric fuel [k] (Some (pairingheap_allocate (cmp_near dist))) (Some 0))
    as (w & s & E & Hres); try done; [apply NoDup_singleton|by right|].
  destruct (g_search_ok G ef U U_closed U_numeric ∅ fuel [k] true ∅ (Some (pairingheap_allocate (cmp_near dist))) (Some 0))
    as (w' & s' & E' & Hp & _ & Hs & Hcl & Hsub); simpl from_option; rewrite ?app_nil_r; try done.
  - intros k'. rewrite Hvis. apply HkU.
  - intros k' Hk'. by apply Hvis.
  - apply NoDup_singleton.
  - intros d [= <-]. apply allocate_good, _.
  - intros _ k' Hk'. right. left. by apply Hvis.
  - intros _ k' Hk'. right. left. by apply Hvis.
  - rewrite (right_id_L ∅ (∪)), size_difference by (intros k' Hk'%elem_of_list_to_set; auto).
    rewrite size_list_to_set by apply NoDup_singleton. simpl.
    pose proof (subseteq_size {[k]} U ltac:(set_solver)) as Hsz. rewrite size_singleton in Hsz. lia.
  - rewrite E in E'. injection E' as <- <-.
    destruct (collected _ _ _ Hs) as (d & Hd & Hgood). exists w, s, d.
    destruct (sinv_covers [] 1 s d w Hs Hd Hp (NoDup_nil_2)) as [Hcov Hne].
    split_and!; try done.
    + eapply search_counted; [exact E|]. apply fold_entry_counted; [apply NoDup_singleton|set_solver|done].
    + intros k1 k2 Hk1. apply Hcl. by rewrite <- Hp.
    + apply Hsub, Hvis. by left.
Qed.

(** A search resumed with the nearest of the keys put aside. *)
Lemma next_search fuel gone ks d V :
  covers gone [] (ks ++ heap_elems d) V -> good_heap G cmp_near d -> ks <> [] ->
  (heap_elems d = [] \/ ef <= Z.of_nat (length ks)) ->
  (forall r k, r ∈ ks -> k ∈ heap_elems d -> dle (dist r) (dist k)) -> (size U <= fuel)%nat ->
  exists w s d', g_search G ef fuel ks false V (Some d) (Some (Z.of_nat (size V))) = Ok (w, s) /\
    gs_discarded s = Some d' /\ good_heap G cmp_near d' /\ tuples_counted s /\
    covers gone w (heap_elems d') (gs_visited s) /\ w <> [] /\ V ⊆ gs_visited s /\
    (expanded gone V -> expanded (gone ++ w) (gs_visited s)).
Proof.
  intros [Hin Hall Hnd] Hgood Hne Hlen Hnear Hfuel. simpl in Hall, Hnd.
  apply list.NoDup_app in Hnd as (Hnd1 & Hdisj & Hnd2).
  assert (Hks : forall k, k ∈ ks -> k ∈ V) by (intros k Hk; apply Hall; set_solver).
  destruct (g_search_ok G ef U U_closed U_numeric (list_to_set gone) fuel ks false V (Some d) (Some (Z.of_nat (size V))))
    as (w & s & E & Hp & _ & Hs & Hcl & Hsub); simpl from_option; rewrite ?(left_id_L ∅ (∪)); try done.
  - intros k Hk. apply Hall. set_solver.
  - intros k Hk%elem_of_list_to_set. split; [apply Hall; set_solver|]. by apply Hdisj.
  - by intros ? [= <-].
  - intros _ k Hk. rewrite elem_of_list_to_set. apply Hall in Hk. rewrite !elem_of_app in Hk.
    destruct Hk as [|[|Hk]]; [tauto|tauto|]. right. right. right. destruct Hlen as [Hd|Hlen].
    + rewrite Hd in Hk. by apply elem_of_nil in Hk.
    + split; [done|]. intros r Hr. by apply Hnear.
  - intros _ k Hk. rewrite elem_of_list_to_set. apply Hall in Hk. rewrite !elem_of_app in Hk. tauto.
  - rewrite size_difference by done. assert (length ks <= size V)%nat.
    { rewrite <- (size_list_to_set (C := gset K) ks); [|by apply list.NoDup_app in Hnd2 as [? _]].
      apply subseteq_size. intros k Hk%elem_of_list_to_set. auto. }
    pose proof (subseteq_size V U Hin). lia.
  - rewrite (left_id_L ∅ (∪)) in Hsub. destruct (collected _ _ _ Hs) as (d' & Hd & Hgood'). exists w, s, d'.
    destruct (sinv_covers gone _ s d' w Hs Hd Hp Hnd1) as [Hcov Hwne]. split_and!; try done.
    + eapply search_counted; [exact E|]. by apply fold_entry_resumed.
    + intros Hexp k1 k2 [Hk1|Hk1]%elem_of_app Hk2; [apply Hsub; by eapply Hexp|].
      apply (Hcl k1); [by rewrite <- Hp|done].
Qed.
End Resume.

(** ** Taking candidates out of the heap *)

Lemma take_discarded_run {K} `{Countable K} (G : SearchGraph K) (R : HnswSearchCandidate -> K -> Prop) n d gd :
  (forall a b a' b', R a b -> R a' b' -> CompareNearestDiscardedCandidates a a' = cmp_near (g_distance G) b b') ->
  heap_rel R CompareNearestDiscardedCandidates (cmp_near (g_distance G)) d gd -> good_heap G cmp_near gd ->
  exists ep ks d' gd', take_discarded n d = Ok (ep, d') /\ Forall2 R ep ks /\
    heap_rel R CompareNearestDiscardedCandidates (cmp_near (g_distance G)) d' gd' /\ good_heap G cmp_near gd' /\
    heap_elems gd ≡ₚ ks ++ heap_elems gd' /\ (heap_elems gd' = [] \/ length ks = n) /\
    (forall r k, r ∈ ks -> k ∈ heap_elems gd' -> dle (g_distance G r) (g_distance G k)).
Proof.
  intros Hagree. revert d gd. induction n as [|n IH]; intros d gd Hd Hgood.
  { exists [], [], d, gd. split_and!; try done; [by right|]. intros r k Hr. by apply elem_of_nil in Hr. }
  simpl. rewrite (heap_rel_is_empty _ _ _ _ _ Hd). destruct (pairingheap_is_empty gd) eqn:E.
  { apply is_empty_elems in E. exists [], [], d, gd. split_and!; try done; [by left|].
    intros r k Hr. by apply elem_of_nil in Hr. }
  destruct (good_heap_remove G _ _ Hgood) as (a & gd1 & Hr & _ & Hp & Hgood1 & Hmin).
  { intros H'. by apply is_empty_elems in H'; rewrite H' in E. }
  pose proof (heap_rel_remove_first _ _ _ Hagree _ _ Hd) as Hx. rewrite Hr in Hx.
  destruct (pairingheap_remove_first d) as [[c d1]|]; [|done]. destruct Hx as [Hca Hd1]. rewrite bind_Ok.
  destruct (IH d1 gd1 Hd1 Hgood1) as (ep & ks & d' & gd' & E' & Hf & Hd' & Hgood' & Hp' & Hlen & Hnear).
  exists (c :: ep), (a :: ks), d', gd'. rewrite E', bind_Ok. split_and!; try done; [by constructor| | |].
  - by rewrite Hp, Hp'.
  - destruct Hlen as [|Hlen]; [by left|right; simpl; lia].
  - intros r k [->|Hr']%elem_of_cons Hk; [|auto]. apply cmp_near_spec, Hmin. rewrite Hp, Hp'.
    right. apply elem_of_app. by right.
Qed.

Lemma take_discarded_nonempty n (d : pairingheap HnswSearchCandidate) ep d' :
  (0 < n)%nat -> pairingheap_is_empty d = false -> take_discarded n d = Ok (ep, d') -> ep <> [].
Proof.
  destruct n as [|n]; [lia|]. simpl. intros _ ->. destruct (pairingheap_remove_first d) as [[c d1]|]; [|done]. simpl.
  destruct (take_discarded n d1) as [[ep1 d2]|]; [|done]. simpl. by intros [= <- _].
Qed.

(** Related heaps are related by what the data have besides. *)
Lemma node_rel_and {A B} (R : A -> B -> Prop) (P : B -> Prop) n n' :
  node_rel R n n' -> (forall b, b ∈ node_elems n' -> P b) -> node_rel (fun a b => R a b /\ P b) n n'.
Proof.
  revert n'. induction n as [x cs IH] using node_ind'. intros n' Hn HP.
  inversion Hn as [? y ? ds Hxy Hcs]; subst. simpl in HP. constructor; [split; [done|apply HP; left]|].
  assert (HP' : forall b, b ∈ flat_map node_elems ds -> P b) by (intros; apply HP; by right). clear Hn HP.
  induction Hcs as [|c d cs ds Hc _ IHl]; [done|]. inversion IH as [|? ? IHc IHcs]; subst. simpl in HP'.
  constructor; [apply IHc; [done|]; intros; apply HP', elem_of_app; by left|].
  apply IHl; [done|]. intros; apply HP', elem_of_app; by right.
Qed.

Lemma heap_rel_and {A B} (R : A -> B -> Prop) (P : B -> Prop) cA cB h h' :
  heap_rel R cA cB h h' -> (forall b, b ∈ heap_elems h' -> P b) -> heap_rel (fun a b => R a b /\ P b) cA cB h h'.
Proof. intros [] HP; constructor. by apply node_rel_and. Qed.

(** ** Between two calls *)

Section Scan.
Context `{Palloc}.
Context (hnsw_ef_search : Z) (mode : HnswIterativeScanMode) (hnsw_max_scan_tuples : Z).
Context (MemoryContextMemAllocated : HnswScanOpaqueData -> double).
Context (fuel : nat).
Context (rel : Relation) (q : HnswQuery) (support : HnswSupport) (m : Z) (U : gset ItemPointerData).
Context (Hok : disk_layer_ok rel q 0 support m U).
Context (Hef : 1 <= hnsw_ef_search) (Hfuel : (size U <= fuel)%nat).

#[local] Abbreviation G := (disk_graph rel q 0 support m NULL).
#[local] Abbreviation dist := (disk_distance rel q support).

#[local] Abbreviation heap_tids := (heap_tids rel).

(** The order a scan returns them in: from the last to the first. *)
Definition returned_tids (k : ItemPointerData) : list ItemPointerData := rev (heap_tids k).

(** Each with the element it comes from. *)
Definition entries (k : ItemPointerData) : list (ItemPointerData * ItemPointerData) := pair k <$> returned_tids k.

Lemma entries_element k p : p ∈ entries k -> p.1 = k.
Proof using Type. by intros (t & -> & _)%list_elem_of_fmap. Qed.

Lemma entries_tids (order : list ItemPointerData) : (order ≫= entries).*2 = order ≫= returned_tids.
Proof using Type.
  induction order as [|k order IH]; [done|]. rewrite !bind_cons, fmap_app, IH. f_equal. unfold entries.
  rewrite <- list_fmap_compose. apply list_fmap_id.
Qed.

(** A candidate that has not been returned yet stands for an element as the
    searches leave it, one that is being returned still has the heap TIDs [h]. *)
Definition fresh_cand (m1 : gmap addr HnswElementData) (c : HnswSearchCandidate) (k : ItemPointerData) : Prop :=
  k ∈ U /\ sc_distance c = dist k /\
  exists el etup, m1 !! sc_element c = Some el /\ element_at rel k = Some etup /\ loaded_from el k etup.
Definition part_cand (m1 : gmap addr HnswElementData) (c : HnswSearchCandidate)
    (p : ItemPointerData * list ItemPointerData) : Prop :=
  p.1 ∈ U /\ sc_distance c = dist p.1 /\
  exists el, m1 !! sc_element c = Some el /\ ItemPointerSet (el_blkno el) (el_offno el) = p.1 /\ el_heaptids el = p.2.

Lemma fresh_part m1 c k : fresh_cand m1 c k -> part_cand m1 c (k, heap_tids k).
Proof.
  intros (Hk & Hd & el & etup & Hel & He & [L1 L2 L3 L4 L5 L6]). split; [done|]. split; [done|]. exists el.
  split_and!; try done. unfold heap_tids. simpl. by rewrite He.
Qed.

Lemma fresh_at s c k : index s = rel -> disk_cand q 0 support m NULL s U (mem s) c k <-> fresh_cand (mem s) c k.
Proof using Type. intros E. unfold disk_cand, disk_cand_with, fresh_cand. rewrite E. clear. naive_solver. Qed.

(** Candidates of different elements are at different addresses. *)
Lemma cands_apart m1 c c' p k : part_cand m1 c p -> fresh_cand m1 c' k -> p.1 <> k -> sc_element c <> sc_element c'.
Proof.
  intros (_ & _ & el & Hel & <- & _) (_ & _ & el' & etup & Hel' & _ & [<- _ _ _ _ _]) Hne E. rewrite E in Hel. congruence.
Qed.

Lemma parts_apart m1 c c' p p' : part_cand m1 c p -> part_cand m1 c' p' -> p.1 <> p'.1 -> sc_element c <> sc_element c'.
Proof.
  intros (_ & _ & el & Hel & <- & _) (_ & _ & el' & Hel' & <- & _) Hne E. rewrite E in Hel. congruence.
Qed.

Lemma nearest_agree m1 a b a' b' : fresh_cand m1 a b -> fresh_cand m1 a' b' ->
  CompareNearestDiscardedCandidates a a' = cmp_near (g_distance G) b b'.
Proof.
  intros (_ & Ha & _) (_ & Hb & _). unfold CompareNearestDiscardedCandidates, cmp_near. by rewrite Ha, Hb.
Qed.

#[local] Abbreviation scan_heap m1 := (heap_rel (fresh_cand m1) CompareNearestDiscardedCandidates (cmp_near (g_distance G))).
#[local] Abbreviation is_iterative := (iterative mode).

(** A store at the address of a candidate leaves those of other elements alone. *)
Lemma parts_kept m1 m2 c0 p0 ws w : part_cand m1 c0 p0 -> (forall a, a <> sc_element c0 -> m2 !! a = m1 !! a) ->
  Forall2 (part_cand m1) ws w -> p0.1 ∉ w.*1 -> Forall2 (part_cand m2) ws w.
Proof.
  intros H0 Hm Hw. induction Hw as [|c p ws w Hc Hw IH]; intros Hp; [done|].
  rewrite fmap_cons, not_elem_of_cons in Hp. destruct Hp as [Hne Hp]. constructor; [|auto].
  pose proof (parts_apart m1 c0 c p0 p H0 Hc Hne) as Hap. destruct Hc as (HU & Hd & el & Hel & Hx).
  split; [done|]. split; [done|]. exists el. split; [|done]. rewrite Hm; congruence.
Qed.

Lemma heap_kept m1 m2 c0 p0 d gd : part_cand m1 c0 p0 -> (forall a, a <> sc_element c0 -> m2 !! a = m1 !! a) ->
  scan_heap m1 d gd -> p0.1 ∉ heap_elems gd -> scan_heap m2 d gd.
Proof.
  intros H0 Hm Hd Hp. eapply heap_rel_mono; [|apply (heap_rel_and _ (fun b => p0.1 <> b) _ _ _ _ Hd); intros b Hb E; by rewrite E in Hp].
  intros c k [Hc Hne]. pose proof (cands_apart m1 c0 c p0 k H0 Hc Hne) as Hap. destruct Hc as (HU & Hdist & el & etup & Hel & Hx).
  split; [done|]. split; [done|]. exists el, etup. split; [|done]. rewrite Hm; congruence.
Qed.

(** The limits of an iterative scan are never reached. *)
Definition unlimited : Prop :=
  Z.of_nat (size U) < hnsw_max_scan_tuples /\
  forall so, fgt (MemoryContextMemAllocated so) (so_maxMemory so) = false.

(** The candidates put aside, and the visited set. *)
Definition aside (s : Backend) (so : HnswScanOpaqueData) (gone w D : list ItemPointerData)
    (V : gset ItemPointerData) : Prop :=
  exists d gd, so_discarded so = Some d /\ so_v so = Some (tids V) /\ scan_heap (mem s) d gd /\
    good_heap G cmp_near gd /\ heap_elems gd ≡ₚ D /\ covers U gone w D V.

(** The first call is over and the descriptor has the query. *)
Definition started (so : HnswScanOpaqueData) : Prop :=
  so_first so = false /\ so_q so = q /\ so_m so = m /\ so_support so = support.

(** What is left of an element that is being returned. *)
Definition held (p : ItemPointerData * list ItemPointerData) : list (ItemPointerData * ItemPointerData) :=
  pair p.1 <$> rev p.2.

Lemma held_last k h t : held (k, h ++ [t]) = (k, t) :: held (k, h).
Proof using Type. unfold held. simpl. by rewrite rev_app_distr. Qed.

(** The state of a scan that has taken the heap TIDs [out] from its
    candidates, those of the elements [gone] and of some of the elements [w] it
    holds. *)
Record scan_inv (s : Backend) (so : HnswScanOpaqueData) (gone : list ItemPointerData)
    (w : list (ItemPointerData * list ItemPointerData)) (D : list ItemPointerData)
    (out : list (ItemPointerData * ItemPointerData)) (V : gset ItemPointerData) : Prop := {
  sv_index : index s = rel;
  sv_query : started so;
  sv_w : Forall2 (part_cand (mem s)) (so_w so) w;
  sv_nodup : NoDup (gone ++ rev w.*1);
  sv_inside k : k ∈ gone ++ rev w.*1 -> k ∈ U;
  sv_out : out ++ concat (rev (held <$> w)) = (gone ++ rev w.*1) ≫= entries;
  sv_aside : is_iterative = true -> so_tuples so = Z.of_nat (size V) /\ aside s so gone w.*1 D V;
  sv_expanded : is_iterative = true -> unlimited -> expanded G (gone ++ w.*1) V
}.

Lemma scan_inv_previous s so gone w D out V d :
  scan_inv s so gone w D out V -> scan_inv s (so_set_previousDistance d so) gone w D out V.
Proof using Type. by intros []. Qed.

(** *** One element *)

(** The last candidate has a heap TID left, which is taken. *)
Lemma emit_step s so gone w0 k h t D out V :
  scan_inv s so gone (w0 ++ [(k, h ++ [t])]) D out V ->
  exists ws c el s', so_w so = ws ++ [c] /\ mem s !! sc_element c = Some el /\ el_heaptids el = h ++ [t] /\
    store_element (sc_element c) (el_set_heaptids h el) s = Ok (tt, s') /\
    sc_distance c = dist k /\ k ∈ U /\ scan_inv s' so gone (w0 ++ [(k, h)]) D (out ++ [(k, t)]) V.
Proof.
  intros [H1 H2 H3 H4 H5 H6 H7 H8]. apply Forall2_app_inv_r in H3 as (ws & cs & Hws & Hcs & Ew).
  inversion Hcs as [|c ? ? ? Hc Hnil]; subst. inversion Hnil; subst. clear Hcs Hnil.
  pose proof Hc as (HU & Hd & el & Hel & Htid & Hh). simpl in HU, Hd, Htid, Hh.
  set (s' := mkBackend (<[sc_element c := el_set_heaptids h el]> (mem s)) (index s) (xlog s)).
  exists ws, c, el, s'. split; [done|]. split; [done|]. split; [done|].
  split; [unfold store_element; by rewrite Hel|]. split; [done|]. split; [done|].
  assert (Hm : forall a, a <> sc_element c -> mem s' !! a = mem s !! a) by (intros a Ha; simpl; by rewrite lookup_insert_ne).
  assert (Hk : (k ∉ w0.*1) /\ k ∉ gone).
  { rewrite fmap_app, rev_app_distr in H4. simpl in H4. apply list.NoDup_app in H4 as (_ & Hd1 & Hnd).
    apply list.NoDup_cons in Hnd as [Hk _]. split.
    - intros Hx. by apply Hk, elem_of_rev.
    - intros Hx. apply (Hd1 k Hx). left. }
  assert (Efst : (w0 ++ [(k, h)]).*1 = (w0 ++ [(k, h ++ [t])]).*1) by (by rewrite !fmap_app).
  split; rewrite ?Efst; try done.
  - rewrite Ew. apply Forall2_app.
    { apply (parts_kept (mem s) _ c (k, h ++ [t])); [done|done|done|apply Hk]. }
    constructor; [|done]. split; [done|]. split; [done|].
    eexists. simpl. rewrite lookup_insert_eq. split_and!; done.
  - rewrite <- H6, !fmap_app, !rev_app_distr. simpl. rewrite held_last. simpl. by rewrite <- app_assoc.
  - intros Hi. destruct (H7 Hi) as (Ht & d & gd & E1 & E2 & Hheap & Hg & HD & Hcov). split; [done|].
    exists d, gd. split_and!; try done. eapply heap_kept; [exact Hc|exact Hm|done|]. rewrite HD. intros Hx.
    destruct Hcov as [_ _ Hnd]. apply list.NoDup_app in Hnd as (_ & _ & Hnd). apply list.NoDup_app in Hnd as (_ & Hnd & _).
    apply (Hnd k); [|done]. rewrite fmap_app. apply elem_of_app. right. by left.
Qed.

(** The last candidate has none left and is dropped. *)
Lemma drop_step s so gone w0 k D out V :
  scan_inv s so gone (w0 ++ [(k, [])]) D out V ->
  exists ws c el so' s', so_w so = ws ++ [c] /\ mem s !! sc_element c = Some el /\ el_heaptids el = [] /\
    drop_last mode c so s = Ok (so', s') /\ so_previousDistance so' = so_previousDistance so /\
    scan_inv s' so' (gone ++ [k]) w0 D out V.
Proof.
  intros [H1 H2 H3 H4 H5 H6 H7 H8]. apply Forall2_app_inv_r in H3 as (ws & cs & Hws & Hcs & Ew).
  inversion Hcs as [|c ? ? ? Hc Hnil]; subst. inversion Hnil; subst. clear Hcs Hnil.
  pose proof Hc as (HU & Hd & el & Hel & Htid & Hh). simpl in HU, Hd, Htid, Hh.
  set (m2 := if is_iterative then delete (sc_element c) (mem s) else mem s).
  set (s' := mkBackend m2 (index s) (xlog s)). set (so' := so_set_w ws so).
  assert (Hm : forall a, a <> sc_element c -> m2 !! a = mem s !! a).
  { intros a Ha. unfold m2. destruct is_iterative; [by rewrite lookup_delete_ne|done]. }
  assert (Eord : (gone ++ [k]) ++ rev w0.*1 = gone ++ rev (w0 ++ [(k, [])]).*1).
  { rewrite fmap_app, rev_app_distr. simpl. by rewrite <- app_assoc. }
  assert (Hk : k ∉ w0.*1).
  { rewrite <- Eord, <- app_assoc in H4. apply list.NoDup_app in H4 as (_ & _ & Hnd). simpl in Hnd.
    apply list.NoDup_cons in Hnd as [Hk _]. intros Hx. by apply Hk, elem_of_rev. }
  exists ws, c, el, so', s'. split; [done|]. split; [done|]. split; [done|]. split.
  { unfold drop_last, s', m2. change (HnswPtrAccess NULL (sc_element c)) with (sc_element c).
    destruct is_iterative.
    - unfold pfree_element, mbind, M_bind. rewrite Hel. unfold mret, M_ret, so'. rewrite Ew. by rewrite removelast_last.
    - unfold mbind, M_bind, mret, M_ret, so'. rewrite Ew, removelast_last. by destruct s. }
  split; [done|].
  split; rewrite ?Eord; try done.
  - apply (parts_kept (mem s) _ c (k, [])); done.
  - rewrite <- H6, !fmap_app, !rev_app_distr. done.
  - intros Hi. destruct (H7 Hi) as (Ht & d & gd & E1 & E2 & Hheap & Hg & HD & Hcov). split; [done|].
    exists d, gd. split_and!; try done.
    + apply (heap_kept (mem s) _ c (k, [])); try done. rewrite HD. intros Hx.
      destruct Hcov as [_ _ Hnd]. apply list.NoDup_app in Hnd as (_ & _ & Hnd). apply list.NoDup_app in Hnd as (_ & Hnd & _).
      apply (Hnd k); [|done]. rewrite fmap_app. apply elem_of_app. right. by left.
    + eapply covers_move; [|exact Hcov]. rewrite fmap_app. simpl. solve_Permutation.
  - intros Hi Hun k1 k2 Hk1. apply (H8 Hi Hun). rewrite fmap_app. simpl. set_solver.
Qed.

(** *** More elements *)

(** A layer search on the index, in the form a scan calls it. *)
Lemma scan_search s ep ks v discarded init ginit gv gd tuples w gs :
  index s = rel -> Forall2 (fresh_cand (mem s)) ep ks ->
  (v = None /\ ginit = true /\ gv = ∅ /\ gd = (fun _ => pairingheap_allocate (cmp_near (g_distance G))) <$> discarded \/
   v = Some (tids gv) /\ init = false /\ ginit = false /\ option_Forall2 (scan_heap (mem s)) discarded gd) ->
  g_search G hnsw_ef_search fuel ks ginit gv gd tuples = Ok (w, gs) ->
  exists cw d s',
    HnswSearchLayer NULL q hnsw_ef_search 0 false support m false NULL fuel ep v discarded init tuples s
      = Ok ((cw, tids (gs_visited gs), d, gs_tuples gs), s') /\
    extends s s' /\ Forall2 (fresh_cand (mem s')) cw w /\ option_Forall2 (scan_heap (mem s')) d (gs_discarded gs).
Proof.
  intros Hidx Hep Hst Hg. pose proof Hok as Hok'. rewrite <- Hidx in Hok', Hg, Hst |- *.
  destruct (search_sim (disk_graph (index s) q 0 support m NULL) U NULL q hnsw_ef_search 0 false support m false NULL s
    (LV := disk_view q 0 support m false NULL s U Hok') fuel s ep ks v discarded init ginit gv gd tuples w gs)
    as (cw & v' & d & s' & E & X & Hw & Hv & Hd); [done| | |done|].
  - eapply list.Forall2_impl; [exact Hep|]. intros c k Hck. by apply (fresh_at s c k Hidx).
  - destruct Hst as [(-> & -> & -> & ->)|(-> & -> & -> & Hd)].
    + apply start_fresh. by left.
    + apply start_resume; [done|]. destruct Hd; constructor. eapply heap_rel_mono; [|done].
      intros c k Hck. by apply (fresh_at s c k Hidx).
  - simpl in Hv. subst v'. pose proof (proj1 (proj2 X)) as Hidx'. rewrite Hidx in Hidx'.
    assert (Hc : forall c k, disk_cand q 0 support m NULL s U (mem s') c k -> fresh_cand (mem s') c k).
    { intros c k. unfold disk_cand, disk_cand_with, fresh_cand. rewrite Hidx. naive_solver. }
    exists cw, d, s'. split_and!; [done|done|by eapply list.Forall2_impl|].
    destruct Hd; constructor. eapply heap_rel_mono; [exact Hc|done].
Qed.
#[local] Abbreviation more := (more_items hnsw_ef_search mode hnsw_max_scan_tuples MemoryContextMemAllocated fuel).

Lemma disk_closed k k' : k ∈ U -> k' ∈ g_neighbors G k -> k' ∈ U.
Proof. exact (lv_closed (LayerView := disk_view q 0 support m false NULL (mkBackend ∅ rel None) U Hok) k k'). Qed.

Lemma disk_reaches k : k ∈ U -> g_level_ok G k = true.
Proof.
  intros Hk. simpl. destruct (dl_element _ _ _ _ _ _ Hok k Hk) as (etup & _ & _ & -> & Hl & _). by apply Z.leb_le.
Qed.

Lemma disk_counted : all_counted G U.
Proof. by intros k _. Qed.

Lemma limit_unlimited so gone w D V : covers U gone w D V -> so_tuples so = Z.of_nat (size V) -> unlimited ->
  scan_limit hnsw_max_scan_tuples MemoryContextMemAllocated so = false.
Proof.
  intros [Hin _ _] Ht [Hmax Hmem]. unfold scan_limit. rewrite Hmem, Ht, orb_false_r. apply Z.leb_gt.
  pose proof (subseteq_size V U Hin). lia.
Qed.

(** The state after elements that have not been returned are put in [w]. *)
Lemma fresh_inv s so gone ws ks D out V :
  index s = rel -> started so -> so_w so = ws -> Forall2 (fresh_cand (mem s)) ws ks -> NoDup (gone ++ ks) -> (forall k, k ∈ gone ++ ks -> k ∈ U) ->
  out = gone ≫= entries ->
  (is_iterative = true -> so_tuples so = Z.of_nat (size V) /\ aside s so gone ks D V) ->
  (is_iterative = true -> unlimited -> expanded G (gone ++ ks) V) ->
  scan_inv s so gone ((fun k => (k, heap_tids k)) <$> ks) D out V.
Proof.
  intros G1 G2 G3 G4 C1 C2 Hout G5 G6.
  assert (Efst : ((fun k => (k, heap_tids k)) <$> ks).*1 = ks) by (rewrite <- list_fmap_compose; apply list_fmap_id).
  split; rewrite ?Efst; try done.
  - rewrite G3. apply Forall2_fmap_r. eapply list.Forall2_impl; [exact G4|]. intros c k. apply fresh_part.
  - by rewrite rev_Permutation.
  - intros k Hk. rewrite rev_Permutation in Hk. by apply C2.
  - by rewrite bind_app, <- Hout, (bind_concat entries (rev ks)), <- list_fmap_compose, <- fmap_rev.
Qed.

(** A scan that holds no candidate but has some put aside. *)
Lemma held_none s so gone D out V :
  scan_inv s so gone [] D out V -> is_iterative = true -> D <> [] ->
  exists d gd, so_discarded so = Some d /\ so_v so = Some (tids V) /\ so_tuples so = Z.of_nat (size V) /\
    scan_heap (mem s) d gd /\ good_heap G cmp_near gd /\ pairingheap_is_empty d = false /\ heap_elems gd <> [] /\
    so_w so = [] /\ out = gone ≫= entries /\ covers U gone [] (heap_elems gd) V /\
    (unlimited -> expanded G gone V).
Proof.
  intros [H1 H2 H3 H4 H5 H6 H7 H8] Hi HD. apply Forall2_nil_inv_r in H3.
  destruct (H7 Hi) as (Ht & d & gd & E1 & E2 & Hheap & Hgood & Hp & Hcov).
  assert (Hne : heap_elems gd <> []).
  { intros Hx. apply HD. rewrite Hx in Hp. by apply Permutation_nil_l in Hp. }
  simpl in H6, H8. rewrite !app_nil_r in H6. rewrite app_nil_r in H8.
  exists d, gd. split_and!; try done.
  - rewrite (heap_rel_is_empty _ _ _ _ _ Hheap). destruct (pairingheap_is_empty gd) eqn:E; [|done].
    by apply is_empty_elems in E.
  - eapply covers_move; [|exact Hcov]. simpl. by rewrite Hp.
  - by apply H8.
Qed.

Lemma covers_held gone ks D V : covers U gone ks D V -> NoDup (gone ++ ks) /\ forall k, k ∈ gone ++ ks -> k ∈ U.
Proof.
  intros [C1 C2 C3]. rewrite app_assoc in C3. split; [by apply list.NoDup_app in C3 as [? _]|].
  intros k Hk. apply C1, C2. rewrite app_assoc. apply elem_of_app. by left.
Qed.

(** Past the limits the nearest of them is given out. *)
Lemma take_one s so gone D out V :
  scan_inv s so gone [] D out V -> is_iterative = true -> D <> [] ->
  scan_limit hnsw_max_scan_tuples MemoryContextMemAllocated so = true ->
  exists so' k D', more so s = Ok (so', s) /\ so_previousDistance so' = so_previousDistance so /\ scan_inv s so' gone [(k, heap_tids k)] D' out V.
Proof.
  intros I Hi HD El. destruct (held_none _ _ _ _ _ _ I Hi HD)
    as (d & gd & E1 & E2 & Ht & Hheap & Hgood & Hemp & Hne & Hw & Hout & Hcov & Hexp).
  unfold more_items. rewrite Hi. cbn [negb]. rewrite E1, El, Hemp. cbv iota.
  destruct (good_heap_remove G _ gd Hgood Hne) as (k & gd' & Hr & _ & Hp' & Hgood' & _).
  pose proof (heap_rel_remove_first _ _ _ (nearest_agree (mem s)) _ _ Hheap) as Hx. rewrite Hr in Hx.
  destruct (pairingheap_remove_first d) as [[c d']|] eqn:Ed; [|done]. destruct Hx as [Hck Hheap'].
  run (lift_res_run (Ok (c, d')) s _ eq_refl).
  assert (Hc1 : covers U gone [k] (heap_elems gd') V).
  { eapply covers_move; [|exact Hcov]. simpl. by rewrite Hp'. }
  eexists _, k, (heap_elems gd'). split; [done|]. split; [done|]. destruct (covers_held _ _ _ _ Hc1).
  apply (fresh_inv s _ gone [c] [k]); try done; try apply I.
  - simpl. by rewrite Hw.
  - by constructor.
  - intros _. split; [done|]. exists d', gd'. split_and!; done.
  - intros _ Hun. by rewrite (limit_unlimited so _ _ _ _ Hcov Ht Hun) in El.
Qed.

(** Before, the search is resumed. *)
Lemma resume s so gone D out V :
  scan_inv s so gone [] D out V -> is_iterative = true -> D <> [] ->
  exists cw so1 s' ks D' V', ResumeScanItems hnsw_ef_search fuel so s = Ok ((cw, so1), s') /\
    scan_inv s' (so_set_w cw so1) gone ((fun k => (k, heap_tids k)) <$> ks) D' out V' /\ ks <> [] /\ V ⊆ V' /\
    so_previousDistance so1 = so_previousDistance so.
Proof.
  intros I Hi HD. destruct (held_none _ _ _ _ _ _ I Hi HD)
    as (d & gd & E1 & E2 & Ht & Hheap & Hgood & Hemp & Hne & Hw & Hout & Hcov & Hexp).
  destruct I as [H1 Hst _ _ _ _ _ _]. pose proof Hst as (_ & Hq & Hm & Hs).
  destruct (take_discarded_run G (fresh_cand (mem s)) (Z.to_nat hnsw_ef_search) d gd (nearest_agree (mem s)) Hheap Hgood)
    as (ep & ks & d1 & gd1 & Etake & Hep & Hheap1 & Hgood1 & Hp1 & Hlen & Hnear).
  assert (Hne1 : ks <> []).
  { pose proof (take_discarded_nonempty (Z.to_nat hnsw_ef_search) _ _ _ ltac:(lia) Hemp Etake) as Hx. intros ->. by apply Forall2_nil_inv_r in Hep. }
  destruct (next_search G hnsw_ef_search U disk_closed (disk_numeric q 0 support m NULL (mkBackend ∅ rel None) U Hok)
    disk_counted disk_reaches fuel gone ks gd1 V) as (wk & gs & gd2 & Eg & Ed2 & Hgood2 & Hcnt & Hcov2 & Hwne & Hsub & Hexp2); try done.
  { eapply covers_move; [|exact Hcov]. simpl. by rewrite Hp1. }
  { destruct Hlen as [|Hlen]; [by left|right; lia]. }
  destruct (scan_search s ep ks (so_v so) (Some d1) false false V (Some gd1) (Some (so_tuples so)) wk gs)
    as (cw & d2 & s' & Es & X & Hcw & Hd2); [done|done|right; by repeat constructor|by rewrite Ht|].
  rewrite Ed2 in Hd2. inversion Hd2 as [d2' ? Hheap2|]; subst.
  unfold ResumeScanItems. rewrite E1. run (lift_res_run (of_option UndefinedBehaviour (Some d)) s d eq_refl).
  rewrite Hemp. cbv iota. run (lift_res_run (take_discarded (Z.to_nat hnsw_ef_search) d) s _ Etake).
  rewrite E2 in Es |- *. run (lift_res_run (of_option UndefinedBehaviour (Some (tids V))) s _ eq_refl).
  rewrite Hq, Hm, Hs. run Es. rewrite Hcnt. eexists cw, _, s', wk, (heap_elems gd2), (gs_visited gs). split; [done|]. split; [|done].
  destruct (covers_held _ _ _ _ Hcov2). destruct X as (_ & X & _).
  apply (fresh_inv s' _ gone cw wk); try done.
  - by rewrite X.
  - intros _. split; [done|]. exists d2', gd2. split_and!; done.
  - auto.
Qed.

(** *** A call *)

#[local] Abbreviation loop := (scan_loop hnsw_ef_search mode hnsw_max_scan_tuples MemoryContextMemAllocated fuel).

Lemma loop_held n s so ws c el : so_w so = ws ++ [c] -> mem s !! sc_element c = Some el ->
  loop (S n) so s =
  match list.last (el_heaptids el) with
  | None => (so ← drop_last mode c so ; loop n so) s
  | Some t =>
      (store_element (sc_element c) (el_set_heaptids (removelast (el_heaptids el)) el) ;;
       if strict mode then
         if flt (sc_distance c) (so_previousDistance so) then loop n so
         else mret (Some t, so_set_previousDistance (sc_distance c) so)
       else mret (Some t, so)) s
  end.
Proof.
  intros Hw Hel. cbn [scan_loop].
  assert (Hsame : match so_w so with [] => more so | _ => mret so end = mret so) by (by rewrite Hw; destruct ws).
  rewrite Hsame. run (mret_run so s). rewrite Hw, last_snoc.
  change (HnswPtrAccess NULL (sc_element c)) with (sc_element c). run (load_element_run _ _ _ Hel).
  by destruct (list.last (el_heaptids el)).
Qed.

Lemma loop_more n s so so1 s1 : so_w so = [] -> more so s = Ok (so1, s1) -> so_w so1 <> [] ->
  loop (S n) so s = loop (S n) so1 s1.
Proof.
  intros Hw Hm Hne. cbn [scan_loop]. rewrite Hw. run Hm. destruct (so_w so1) as [|c ws] eqn:E; [done|].
  run (mret_run so1 s1). by rewrite E.
Qed.

Lemma loop_end n s so so1 s1 : so_w so = [] -> more so s = Ok (so1, s1) -> so_w so1 = [] ->
  loop (S n) so s = Ok ((None, so1), s1).
Proof. intros Hw Hm He. cbn [scan_loop]. rewrite Hw. run Hm. by rewrite He. Qed.

(** The state when a heap TID was taken, or [None] at the end. *)
Record after_call (gone : list ItemPointerData) (w : list (ItemPointerData * list ItemPointerData))
    (out : list (ItemPointerData * ItemPointerData)) (V : gset ItemPointerData)
    (t : option (ItemPointerData * ItemPointerData))
    (so' : HnswScanOpaqueData) (s' : Backend) (gone' : list ItemPointerData)
    (w' : list (ItemPointerData * list ItemPointerData)) (D' : list ItemPointerData) (V' : gset ItemPointerData) : Prop := {
  ac_inv : scan_inv s' so' gone' w' D' (out ++ option_list t) V';
  ac_end : t = None -> w' = [] /\ (is_iterative = true -> D' = []);
  ac_order : gone ++ rev w.*1 `prefix_of` gone' ++ rev w'.*1;
  ac_once : is_iterative = false -> gone' ++ rev w'.*1 = gone ++ rev w.*1;
  ac_visited : is_iterative = true -> V ⊆ V'
}.

(** What becomes of a heap TID at the distance [d]: it is returned, or skipped
    in the strict order mode. *)
Definition taken (n : nat) (t : ItemPointerData) (d : double) (so : HnswScanOpaqueData) :
    M Backend (option ItemPointerData * HnswScanOpaqueData) :=
  if strict mode then
    if flt d (so_previousDistance so) then loop n so else mret (Some t, so_set_previousDistance d so)
  else mret (Some t, so).

(** The loop comes to its end or takes a heap TID; [n'] iterations are left. *)
Definition loop_takes (n : nat) (s : Backend) (so : HnswScanOpaqueData) gone w out V : Prop :=
  exists p so' s' gone' w' D' V',
    after_call gone w out V p so' s' gone' w' D' V' /\ so_previousDistance so' = so_previousDistance so /\
    match p with
    | None => loop n so s = Ok ((None, so'), s')
    | Some (k, t) => k ∈ U /\ exists n', loop n so s = taken n' t (dist k) so' s' /\
        (n + length gone = S n' + length gone')%nat
    end.

Lemma held_inside s so gone w D out V : scan_inv s so gone w D out V -> (length gone + length w <= size U)%nat.
Proof.
  intros [_ _ _ H4 H5 _ _ _]. rewrite <- (length_fmap fst w), <- (length_rev w.*1), <- length_app.
  rewrite <- (size_list_to_set (C := gset ItemPointerData) _ H4). apply subseteq_size.
  intros k Hk%elem_of_list_to_set. auto.
Qed.

(** With a candidate at hand. *)
Lemma take_held n s so gone w D out V :
  (forall s so gone w D out V, scan_inv s so gone w D out V -> (size U < n + length gone)%nat -> loop_takes n s so gone w out V) ->
  scan_inv s so gone w D out V -> (size U < S n + length gone)%nat -> w <> [] ->
  loop_takes (S n) s so gone w out V.
Proof.
  intros IH I Hn Hne. destruct w as [|[k h] w0 _] using rev_ind; [done|]. clear Hne.
  destruct h as [|t h _] using rev_ind.
  - destruct (drop_step _ _ _ _ _ _ _ _ I) as (ws & c & el & so1 & s1 & Hw & Hel & Hh & Hdrop & Hp1 & I1).
    destruct (IH _ _ _ _ _ _ _ I1) as (p & so' & s' & gone' & w' & D' & V' & [A1 A2 A3 A4 A5] & Hp & E).
    { rewrite length_app. simpl. lia. }
    assert (El : loop (S n) so s = loop n so1 s1).
    { rewrite (loop_held n s so ws c el Hw Hel), Hh. simpl list.last. by run Hdrop. }
    exists p, so', s', gone', w', D', V'. split; [|split; [congruence|]].
    + rewrite <- app_assoc in A3, A4. split; rewrite ?fmap_app, ?rev_app_distr; done.
    + rewrite El. destruct p as [[k1 t1]|]; [|done]. destruct E as (Hk1 & n' & E & Hn'). split; [done|].
      exists n'. split; [done|]. rewrite length_app in Hn'. simpl in Hn'. lia.
  - destruct (emit_step _ _ _ _ _ _ _ _ _ _ I) as (ws & c & el & s1 & Hw & Hel & Hh & Hs & Hd & Hk & I1).
    exists (Some (k, t)), so, s1, gone, (w0 ++ [(k, h)]), D, V. split; [|split; [done|split; [done|]]].
    + split; rewrite ?fmap_app; done.
    + exists n. split; [|done]. rewrite (loop_held n s so ws c el Hw Hel), Hh, last_snoc, removelast_last. run Hs. unfold taken.
      rewrite <- Hd. by destruct (strict mode).
Qed.

Lemma loop_run n s so gone w D out V :
  scan_inv s so gone w D out V -> (size U < n + length gone)%nat -> loop_takes n s so gone w out V.
Proof.
  revert s so gone w D out V. induction n as [|n IH]; intros s so gone w D out V I Hn.
  { pose proof (held_inside _ _ _ _ _ _ _ I). lia. }
  destruct w as [|p w]; [|by eapply take_held].
  pose proof (Forall2_nil_inv_r _ _ (sv_w _ _ _ _ _ _ _ I)) as Hw.
  destruct is_iterative eqn:Hi.
  2: { exists None, so, s, gone, [], D, V. split; [|split; [done|]].
       - split; simpl; rewrite ?app_nil_r; try done; intros; split; congruence.
       - apply loop_end; [done| |done]. unfold more_items. rewrite Hi. done. }
  destruct (decide (D = [])) as [->|HD]; [|destruct (scan_limit hnsw_max_scan_tuples MemoryContextMemAllocated so) eqn:El].
  - destruct (sv_aside _ _ _ _ _ _ _ I Hi) as (Ht & d & gd & E1 & E2 & Hheap & Hgood & Hp & Hcov).
    apply Permutation_nil_r in Hp. apply is_empty_elems in Hp. rewrite <- (heap_rel_is_empty _ _ _ _ _ Hheap) in Hp.
    assert (Hm : exists so1, more so s = Ok (so1, s) /\ (so1 = so \/ so1 = so_set_w [] so)).
    { unfold more_items. rewrite Hi. cbn [negb]. rewrite E1, Hp. destruct (scan_limit _ _ so); [by exists so; auto|].
      exists (so_set_w [] so). split; [|by right]. unfold ResumeScanItems. rewrite E1.
      unfold mbind, M_bind, lift_res, of_option. by rewrite Hp. }
    destruct Hm as (so1 & Hm & Hso1). exists None, so1, s, gone, [], [], V.
    split; [|split; [by destruct Hso1 as [->| ->]|apply loop_end; [done|done|by destruct Hso1 as [->| ->]]]].
    split; simpl; rewrite ?app_nil_r; try done. destruct Hso1 as [->| ->]; [done|].
    destruct I as [I1 I2 I3 I4 I5 I6 I7 I8]. by split.
  - destruct (take_one _ _ _ _ _ _ I Hi HD El) as (so1 & k & D1 & Hm & Hp1 & I1).
    destruct (take_held n s so1 gone [(k, heap_tids k)] D1 out V IH I1 Hn)
      as (p & so' & s' & gone' & w' & D' & V' & [A1 A2 A3 A4 A5] & Hp & E); [done|].
    rewrite <- (loop_more n s so so1 s Hw Hm) in E.
    2: { pose proof (sv_w _ _ _ _ _ _ _ I1) as Hx. by inversion Hx. }
    exists p, so', s', gone', w', D', V'. split; [|split; [congruence|done]].
    split; try done; [|congruence]. simpl. rewrite app_nil_r. etrans; [|exact A3]. by eexists.
  - destruct (resume _ _ _ _ _ _ I Hi HD) as (cw & so1 & s1 & ks & D1 & V1 & Hr & I1 & Hks & HV1 & Hp1).
    destruct (take_held n s1 (so_set_w cw so1) gone _ D1 out V1 IH I1 Hn)
      as (p & so' & s' & gone' & w' & D' & V' & [A1 A2 A3 A4 A5] & Hp & E); [by destruct ks|].
    rewrite <- (loop_more n s so (so_set_w cw so1) s1 Hw) in E.
    2: { destruct (sv_aside _ _ _ _ _ _ _ I Hi) as (_ & d & _ & E1 & _). unfold more_items. rewrite Hi, E1, El.
         cbn [negb]. by run Hr. }
    2: { pose proof (sv_w _ _ _ _ _ _ _ I1) as Hx. simpl in Hx |- *. intros ->. destruct ks; [done|inversion Hx]. }
    exists p, so', s', gone', w', D', V'. split; [|split; [etrans; [exact Hp|exact Hp1]|done]].
    split; try done; [|congruence|intros _; etrans; [exact HV1|]; by apply A5].
    simpl. rewrite app_nil_r. etrans; [|exact A3]. by eexists.
Qed.

(** *** All calls *)

(** The calls of the executor, up to the first that returns no tuple. *)
#[local] Abbreviation gettuple := (hnswgettuple hnsw_ef_search mode hnsw_max_scan_tuples MemoryContextMemAllocated fuel).

Fixpoint scan_all (calls n : nat) (scan : IndexScanDesc) : M Backend (list ItemPointerData * IndexScanDesc) :=
  match calls with
  | O => throw OutOfFuel
  | S calls =>
      '(t, scan) ← gettuple n scan ;
      match t with
      | None => mret ([], scan)
      | Some tid => '(l, scan) ← scan_all calls n scan ; mret (tid :: l, scan)
      end
  end.

(** The rest of the scan, from within a call with [n'] iterations left. *)
Definition scan_from (n' calls n : nat) (scan : IndexScanDesc) (so : HnswScanOpaqueData)
    : M Backend (list ItemPointerData * IndexScanDesc) :=
  '(t, so) ← loop n' so ;
  match t with
  | None => mret ([], set_scan_opaque so scan)
  | Some tid => '(l, scan) ← scan_all calls n (set_scan_opaque so scan) ; mret (tid :: l, scan)
  end.

Lemma scan_all_started calls n scan s : so_first (sd_opaque scan) = false ->
  scan_all (S calls) n scan s = scan_from n calls n scan (sd_opaque scan) s.
Proof using Type.
  intros Hf. cbn [scan_all]. unfold hnswgettuple, scan_from. rewrite Hf. unfold mbind, M_bind, mret, M_ret.
  by destruct (loop n (sd_opaque scan) s) as [[[[t|] so] s1]|e].
Qed.

Lemma out_bounded s so gone w D out V : scan_inv s so gone w D out V ->
  (length out <= length (elements U ≫= returned_tids))%nat.
Proof.
  intros [_ _ _ H4 H5 H6 _ _]. apply (f_equal length) in H6. rewrite length_app in H6.
  assert (Hs : gone ++ rev w.*1 ⊆+ elements U).
  { apply NoDup_submseteq; [done|]. intros k Hk. apply elem_of_elements. auto. }
  rewrite <- (length_fmap snd (_ ≫= entries)), entries_tids in H6.
  apply submseteq_Permutation in Hs as [r Hr]. rewrite Hr, bind_app, length_app. lia.
Qed.

(** What a finished scan has taken: the heap TIDs of the elements [order],
    each once. *)
Record finished (gone : list ItemPointerData) (w : list (ItemPointerData * list ItemPointerData))
    (out : list (ItemPointerData * ItemPointerData)) (V : gset ItemPointerData)
    (l : list (ItemPointerData * ItemPointerData)) (order : list ItemPointerData) : Prop := {
  fi_out : out ++ l = order ≫= entries;
  fi_nodup : NoDup order;
  fi_inside k : k ∈ order -> k ∈ U;
  fi_prefix : gone ++ rev w.*1 `prefix_of` order;
  fi_once : is_iterative = false -> order = gone ++ rev w.*1;
  fi_visited k : is_iterative = true -> k ∈ V -> k ∈ order;
  fi_closed : is_iterative = true -> unlimited ->
    forall k k', k ∈ order -> k' ∈ disk_neighbors rel m 0 k -> k' ∈ order
}.

Lemma finished_cons gone w out V p so s gone' w' D' V' l order :
  after_call gone w out V (Some p) so s gone' w' D' V' -> finished gone' w' (out ++ [p]) V' l order ->
  finished gone w out V (p :: l) order.
Proof using Type.
  intros [A1 A2 A3 A4 A5] [F1 F2 F3 F4 F5 F6 F7]. split; try done.
  - by rewrite <- F1, <- app_assoc.
  - by etrans.
  - intros Hi. by rewrite <- A4, F5.
  - intros k Hi Hk. apply F6; [done|]. by apply A5.
Qed.

Lemma finished_prefix (w : list ItemPointerData) out V l order :
  finished [] ((fun k => (k, heap_tids k)) <$> w) out V l order -> rev w `prefix_of` order.
Proof using Type. intros Hf. pose proof (fi_prefix _ _ _ _ _ _ Hf) as Hp. simpl in Hp. by rewrite <- list_fmap_compose, list_fmap_id in Hp. Qed.

(** Within the limits, all that can be reached from where the search started. *)
Lemma finished_reaches k ws w out V l order :
  search_result G hnsw_ef_search U [k] ws V -> finished [] w out V l order -> is_iterative = true -> unlimited ->
  forall k', rtc (fun a b => b ∈ disk_neighbors rel m 0 a) k k' -> k' ∈ order.
Proof using Type.
  intros Hr Hf Hi Hun k' Hk'.
  assert (Hin : k ∈ order).
  { apply (fi_visited _ _ _ _ _ _ Hf); [done|]. apply (sr_entries _ _ _ _ _ _ Hr). by left. }
  clear Hr. induction Hk' as [|a b c Hab _ IH]; [done|]. by apply IH, (fi_closed _ _ _ _ _ _ Hf Hi Hun a).
Qed.

Lemma finished_end gone w out V so s gone' w' D' V' :
  after_call gone w out V None so s gone' w' D' V' -> finished gone w out V [] gone'.
Proof using Type.
  intros [A1 A2 A3 A4 A5]. cbn [option_list] in A1. rewrite app_nil_r in A1. destruct (A2 eq_refl) as [-> HD].
  simpl in A3, A4. rewrite app_nil_r in A3, A4.
  destruct A1 as [_ _ _ B4 B5 B6 B7 B8]. simpl in B4, B5, B6, B7, B8. rewrite ?app_nil_r in *. split; try done.
  - by rewrite app_nil_r.
  - intros k Hi Hk. destruct (B7 Hi) as (_ & d & gd & _ & _ & _ & _ & _ & [_ C2 _]). rewrite (HD Hi) in C2.
    apply (A5 Hi), C2 in Hk. simpl in Hk. by rewrite app_nil_r in Hk.
  - intros Hi Hun k k' Hk Hk'. destruct (B7 Hi) as (_ & d & gd & _ & _ & _ & _ & _ & [_ C2 _]). rewrite (HD Hi) in C2.
    pose proof (B8 Hi Hun k k' Hk Hk') as Hv. apply C2 in Hv. simpl in Hv. by rewrite app_nil_r in Hv.
Qed.

(** The entries that are not nearer than one before them, or than [d]. *)
Fixpoint nondecreasing (d : double) (l : list (ItemPointerData * ItemPointerData)) : list (ItemPointerData * ItemPointerData) :=
  match l with
  | [] => []
  | p :: l => if flt (dist p.1) d then nondecreasing d l else p :: nondecreasing (dist p.1) l
  end.

(** What is returned of the heap TIDs taken, and the iterations of the loop that
    the others can use up. *)
Definition visible (d : double) (l : list (ItemPointerData * ItemPointerData)) : list (ItemPointerData * ItemPointerData) :=
  if strict mode then nondecreasing d l else l.
Definition skips (out : list (ItemPointerData * ItemPointerData)) : nat :=
  if strict mode then length (elements U ≫= returned_tids) - length out else 0.

Lemma scan_run todo : forall n n' s so gone w D out V,
  todo = (length (elements U ≫= returned_tids) - length out)%nat ->
  scan_inv s so gone w D out V -> (size U + skips [] < n)%nat -> (size U + skips out < n' + length gone)%nat ->
  exists l order, finished gone w out V l order /\
    forall scan calls, (length (visible (so_previousDistance so) l) <= calls)%nat -> exists scan' s',
      scan_from n' calls n scan so s = Ok (((visible (so_previousDistance so) l).*2, scan'), s').
Proof.
  induction todo as [todo IH] using lt_wf_ind. intros n n' s so gone w D out V Et I Hn Hn'.
  destruct (loop_run n' s so gone w D out V I ltac:(lia)) as ([[k t]|] & so1 & s1 & gone1 & w1 & D1 & V1 & A & Hp & E).
  2: { exists [], gone1. split; [by eapply finished_end|]. intros scan calls _.
       assert (visible (so_previousDistance so) [] = []) as -> by (unfold visible; by destruct (strict mode)).
       exists (set_scan_opaque so1 scan), s1. unfold scan_from. by run E. }
  destruct E as (Hk & n1 & E & Hn1). pose proof (ac_inv _ _ _ _ _ _ _ _ _ _ _ A) as I1. cbn [option_list] in I1.
  pose proof (out_bounded _ _ _ _ _ _ _ I1) as Hb. rewrite length_app in Hb. simpl in Hb.
  assert (Hlt : (length (elements U ≫= returned_tids) - length (out ++ [(k, t)]) < todo)%nat) by (rewrite length_app; simpl; lia).
  assert (Hcall : forall so2, scan_inv s1 so2 gone1 w1 D1 (out ++ [(k, t)]) V1 ->
    exists l order, finished gone w out V ((k, t) :: l) order /\
      forall scan calls, (length (visible (so_previousDistance so2) l) < calls)%nat -> exists scan' s',
        scan_all calls n (set_scan_opaque so2 scan) s1 = Ok (((visible (so_previousDistance so2) l).*2, scan'), s')).
  { intros so2 I2. destruct (IH _ Hlt n n s1 so2 gone1 w1 D1 _ V1 eq_refl I2) as (l & order & Hfin & Hl); [done| |].
    { unfold skips in Hn |- *. rewrite length_app. destruct (strict mode); simpl in *; lia. }
    exists l, order. split; [by eapply finished_cons|]. intros scan [|calls] Hc; [lia|].
    rewrite scan_all_started by apply I2. apply Hl. lia. }
  unfold taken in E. destruct (strict mode) eqn:Hst; [destruct (flt (dist k) (so_previousDistance so1)) eqn:Ef|].
  - destruct (IH _ Hlt n n1 s1 so1 gone1 w1 D1 _ V1 eq_refl I1 Hn) as (l & order & Hfin & Hl).
    { unfold skips in Hn' |- *. rewrite Hst in Hn' |- *. rewrite length_app. simpl. lia. }
    exists ((k, t) :: l), order. split; [by eapply finished_cons|]. intros scan calls Hc.
    rewrite Hp in Hl, Ef. unfold visible in Hc, Hl |- *. rewrite Hst in Hc, Hl |- *. simpl in Hc |- *. rewrite Ef in Hc |- *.
    unfold scan_from, mbind, M_bind. rewrite E. by apply Hl.
  - destruct (Hcall (so_set_previousDistance (dist k) so1)) as (l & order & Hfin & Hl); [by apply scan_inv_previous|].
    exists ((k, t) :: l), order. split; [done|]. intros scan calls Hc. rewrite Hp in Ef.
    unfold visible in Hc, Hl |- *. rewrite Hst in Hc, Hl |- *. simpl in Hc |- *. rewrite Ef in Hc |- *. simpl in Hc.
    destruct (Hl scan calls ltac:(simpl; lia)) as (scan' & s' & El). exists scan', s'. unfold scan_from. run E. by run El.
  - destruct (Hcall so1 I1) as (l & order & Hfin & Hl).
    exists ((k, t) :: l), order. split; [done|]. intros scan calls Hc.
    unfold visible in Hc, Hl |- *. rewrite Hst in Hc, Hl |- *. simpl in Hc.
    destruct (Hl scan calls ltac:(lia)) as (scan' & s' & El). exists scan', s'. unfold scan_from. run E. by run El.
Qed.
End Scan.

(** ** The first call *)

Section FirstCall.
Context `{Palloc}.
Context (hnsw_ef_search : Z) (mode : HnswIterativeScanMode) (hnsw_max_scan_tuples : Z).
Context (MemoryContextMemAllocated : HnswScanOpaqueData -> double).
Context (fuel : nat).
Context (rel : Relation) (q : HnswQuery) (support : HnswSupport) (meta : HnswMetaPageData).
Context (etup : HnswElementTupleData) (U : nat -> gset ItemPointerData).
Context (Hok : disk_index_ok rel q support meta etup U).
Context (Hef : 1 <= hnsw_ef_search) (Hfuel : forall lc, (lc <= Z.to_nat (et_level etup))%nat -> (size (U lc) <= fuel)%nat).

#[local] Abbreviation m := (mp_m meta).
#[local] Abbreviation top := (Z.to_nat (et_level etup)).

Lemma descend_scan_run lc : forall s c k,
  (lc <= top)%nat -> index s = rel -> disk_cand q (Z.of_nat lc) support m NULL s (U lc) (mem s) c k ->
  exists c' k' s', descend_scan fuel q support m lc [c] s = Ok ([c'], s') /\ extends s s' /\
    disk_cand q 0 support m NULL s (U O) (mem s') c' k' /\ descent rel q support m U NULL 0 lc k k'.
Proof.
  induction lc as [|lc IH]; intros s c k Hlc Hidx Hc.
  { exists c, k, s. split_and!; try done. constructor. }
  pose proof (di_layer _ _ _ _ _ _ Hok (S lc) Hlc) as Hlayer. rewrite <- Hidx in Hlayer.
  destruct (search_layer_disk_run q 1 (Z.of_nat (S lc)) support m false NULL s (U (S lc)) fuel [c] [k] true None)
    as (w & wk & v & V & t & s1 & E & X & Hw & Hres); [done|by constructor|done|apply NoDup_singleton|auto|].
  rewrite Hidx in Hres.
  destruct (search_result_single _ 1 (U (S lc)) k wk V Hres) as [k1 ->]; [by intros ? ?|done|].
  inversion Hw as [|c1 ? w0 ? Hc1 Hw0]; subst. inversion Hw0; subst.
  assert (Hidx1 : index s1 = index s) by apply X.
  destruct (IH s1 c1 k1) as (c' & k' & s' & E' & X' & Hc' & Hd); [lia|by rewrite Hidx1| |].
  { eapply disk_cand_move; [exact Hc1|by rewrite Hidx1|]. apply (di_nested _ _ _ _ _ _ Hok lc); [lia|apply Hc1]. }
  exists c', k', s'. split_and!.
  - cbn [descend_scan]. by run E.
  - by etrans.
  - eapply disk_cand_move; [exact Hc'|by rewrite Hidx1|apply Hc'].
  - eapply descent_layer; [lia|exact Hres|done].
Qed.

(** The state after the first search. *)
Lemma first_items_run s so value :
  index s = rel -> q = mkHnswQuery value -> so_support so = support ->
  so_v so = None -> so_discarded so = None -> so_tuples so = 0 ->
  exists cw so1 s1 k w D V,
    GetScanItems hnsw_ef_search mode fuel so value s = Ok ((cw, so1), s1) /\
    so_previousDistance so1 = so_previousDistance so /\
    descent rel q support m U NULL 0 top (entry_tid meta) k /\
    search_result (disk_graph rel q 0 support m NULL) hnsw_ef_search (U O) [k] w V /\
    scan_inv mode hnsw_max_scan_tuples MemoryContextMemAllocated rel q support m (U O)
      s1 (so_set_first false (so_set_w cw so1)) [] ((fun k => (k, heap_tids rel k)) <$> w) D [] V.
Proof.
  intros Hidx Hq Hs Hv Hd Ht. unfold GetScanItems. rewrite <- Hq.
  destruct (disk_entry_run rel q support meta etup U Hok s false Hidx)
    as (ep & s1 & c & s2 & el & E1 & X1 & Hnull & E2 & X2 & Hc & Hep & Hel & Hlev & _).
  run E1. cbv zeta. cbn [so_support so_set_query so_v so_discarded so_tuples]. rewrite Hs, Hv, Hd, Ht. apply N.eqb_neq in Hnull. rewrite Hnull. run E2. run (load_element_run _ _ _ Hel). rewrite Hlev.
  assert (Hidx2 : index s2 = rel) by (rewrite <- Hidx; apply X2).
  destruct (descend_scan_run top s2 c (entry_tid meta)) as (c0 & k & s3 & E3 & X3 & Hc0 & Hdesc); [done|done| |].
  { eapply disk_cand_move; [exact Hc|by rewrite Hidx2|apply Hc]. }
  run E3. assert (Hidx3 : index s3 = rel) by (rewrite <- Hidx2; apply X3).
  pose proof (di_layer _ _ _ _ _ _ Hok O ltac:(lia)) as Hground.
  pose proof (Hfuel O ltac:(lia)) as Hfuel0.
  assert (Hk : k ∈ U O) by apply Hc0.
  assert (Hfresh : Forall2 (fresh_cand rel q support (U O) (mem s3)) [c0] [k]).
  { constructor; [|done]. apply (fresh_at rel q support m (U O) s3); [done|].
    eapply disk_cand_move; [exact Hc0|by rewrite Hidx2|apply Hc0]. }
  destruct (iterative mode) eqn:Hi.
  - destruct (first_search (disk_graph rel q 0 support m NULL) hnsw_ef_search (U O)
      (disk_closed rel q support m (U O) Hground)
      (disk_numeric q 0 support m NULL (mkBackend ∅ rel None) (U O) Hground) (disk_counted rel q support m (U O))
      (disk_reaches rel q support m (U O) Hground) fuel k Hk Hfuel0)
      as (w & gs & gd & Eg & Ed & Hgood & Hcnt & Hcov & Hwne & Hexp & Hkv & Hres).
    destruct (scan_search hnsw_ef_search fuel rel q support m (U O) Hground s3 [c0] [k] None
      (Some (pairingheap_allocate CompareNearestDiscardedCandidates)) true true ∅
      (Some (pairingheap_allocate (cmp_near (disk_distance rel q support)))) (Some 0) w gs)
      as (cw & d2 & s4 & E4 & X4 & Hcw & Hd2); [done|done|by left|done|].
    rewrite Ed in Hd2. inversion Hd2 as [d' ? Hheap|]; subst d2.
    run E4. rewrite Hcnt. eexists cw, _, s4, k, w, (heap_elems gd), (gs_visited gs). do 4 (split; [done|]).
    destruct (covers_held _ _ _ _ _ Hcov). apply (fresh_inv mode hnsw_max_scan_tuples MemoryContextMemAllocated rel q support m (U O)
      s4 _ [] cw w); try done.
    + rewrite <- Hidx3. apply X4.
    + intros _. split; [done|]. exists d', gd. by split_and!.
  - destruct (g_search_fresh (disk_graph rel q 0 support m NULL) hnsw_ef_search (U O)
      (disk_closed rel q support m (U O) Hground)
      (disk_numeric q 0 support m NULL (mkBackend ∅ rel None) (U O) Hground) fuel [k] None (Some 0))
      as (w & gs & Eg & Hres); try done; [apply NoDup_singleton|by intros ? ->%list_elem_of_singleton|by left|].
    destruct (scan_search hnsw_ef_search fuel rel q support m (U O) Hground s3 [c0] [k] None None true true ∅ None
      (Some 0) w gs) as (cw & d2 & s4 & E4 & X4 & Hcw & Hd2); try done; [by left|].
    run E4. eexists cw, _, s4, k, w, [], (gs_visited gs). do 4 (split; [done|]).
    apply (fresh_inv mode hnsw_max_scan_tuples MemoryContextMemAllocated rel q support m (U O) s4 _ [] cw w); try done.
    + rewrite <- Hidx3. apply X4.
    + apply Hres.
    + intros k' Hk'. apply (sr_inside _ _ _ _ _ _ Hres). by apply (sr_visited _ _ _ _ _ _ Hres).
    + congruence.
    + congruence.
Qed.
Lemma first_call n scan s so1 s1 calls :
  so_first (sd_opaque scan) = true -> first_items hnsw_ef_search mode fuel scan s = Ok (so1, s1) -> so_first so1 = false ->
  scan_all hnsw_ef_search mode hnsw_max_scan_tuples MemoryContextMemAllocated fuel calls n scan s =
  scan_all hnsw_ef_search mode hnsw_max_scan_tuples MemoryContextMemAllocated fuel calls n (set_scan_opaque so1 scan) s1.
Proof.
  intros H1 E H2. destruct calls as [|calls]; [done|]. cbn [scan_all].
  assert (Hg : hnswgettuple hnsw_ef_search mode hnsw_max_scan_tuples MemoryContextMemAllocated fuel n scan s =
    hnswgettuple hnsw_ef_search mode hnsw_max_scan_tuples MemoryContextMemAllocated fuel n (set_scan_opaque so1 scan) s1).
  { unfold hnswgettuple. cbn [set_scan_opaque sd_opaque]. rewrite H1, H2. run E. by run (mret_run so1 s1). }
  unfold mbind, M_bind. by rewrite Hg.
Qed.

#[local] Abbreviation finished_scan := (fun w V l order =>
  finished mode hnsw_max_scan_tuples MemoryContextMemAllocated rel m (U O) [] ((fun k => (k, heap_tids rel k)) <$> w) [] V l order).
#[local] Abbreviation shown := (visible mode rel q support neg_infinity).

(** A scan from its beginning to its end. *)
Lemma index_scan_run work_mem mult norderbys orderBy value n s :
  let scan := hnswrescan (hnswbeginscan work_mem mult rel norderbys true) (Some orderBy) in
  index s = rel -> rd_support rel = support -> 0 < norderbys ->
  GetScanValue (sd_opaque scan) orderBy = Ok value -> q = mkHnswQuery value -> (size (U O) + skips mode rel (U O) [] < n)%nat ->
  exists k w V l order,
    descent rel q support m U NULL 0 top (entry_tid meta) k /\
    search_result (disk_graph rel q 0 support m NULL) hnsw_ef_search (U O) [k] w V /\ finished_scan w V l order /\
    forall calls, (length (shown l) < calls)%nat -> exists scan' s',
      scan_all hnsw_ef_search mode hnsw_max_scan_tuples MemoryContextMemAllocated fuel calls n scan s = Ok (((shown l).*2, scan'), s').
Proof.
  intros scan Hidx Hs Hob Hval Hq Hn.
  destruct (first_items_run s (sd_opaque scan) value Hidx Hq) as (cw & so1 & s1 & k & w & D & V & E & Hp & Hdesc & Hres & I); try done.
  set (so2 := so_set_first false (so_set_w cw so1)) in *.
  assert (Hfirst : first_items hnsw_ef_search mode fuel scan s = Ok (so2, s1)).
  { unfold first_items. assert (sd_orderByData scan = Some orderBy) as ->.
    { unfold scan, hnswrescan, hnswbeginscan. cbn. by destruct (Z.ltb_spec 0 norderbys); [|lia]. }
    run (lift_res_run (of_option ERR_no_order (Some orderBy)) s orderBy eq_refl).
    run (lift_res_run (raise_if (negb true) ERR_non_mvcc_snapshot) s tt eq_refl).
    run (lift_res_run _ s _ Hval). by run E. }
  pose proof (di_layer _ _ _ _ _ _ Hok O ltac:(lia)) as Hground.
  destruct (scan_run hnsw_ef_search mode hnsw_max_scan_tuples MemoryContextMemAllocated fuel rel q support m (U O) Hground
    Hef (Hfuel O ltac:(lia)) _ n n s1 so2 [] _ D [] V eq_refl I) as (l & order & Hfin & Hl); [done|simpl; lia|].
  change (so_previousDistance so2) with (so_previousDistance so1) in Hl. rewrite Hp in Hl.
  change (so_previousDistance (sd_opaque scan)) with neg_infinity in Hl.
  exists k, w, V, l, order. split_and!; try done. intros [|calls] Hc; [lia|].
  rewrite (first_call n scan s so2 s1 (S calls) eq_refl Hfirst eq_refl), scan_all_started by done. apply Hl. lia.
Qed.

(** Without the strict order nothing is skipped. *)
Lemma unordered_scan_run work_mem mult norderbys orderBy value n s :
  let scan := hnswrescan (hnswbeginscan work_mem mult rel norderbys true) (Some orderBy) in
  index s = rel -> rd_support rel = support -> 0 < norderbys -> strict mode = false ->
  GetScanValue (sd_opaque scan) orderBy = Ok value -> q = mkHnswQuery value -> (size (U O) < n)%nat ->
  exists k w V l order,
    descent rel q support m U NULL 0 top (entry_tid meta) k /\
    search_result (disk_graph rel q 0 support m NULL) hnsw_ef_search (U O) [k] w V /\ finished_scan w V l order /\
    let tids := order ≫= returned_tids rel in
    forall calls, (length tids < calls)%nat -> exists scan' s',
      scan_all hnsw_ef_search mode hnsw_max_scan_tuples MemoryContextMemAllocated fuel calls n scan s = Ok ((tids, scan'), s').
Proof.
  intros scan Hidx Hs Hob Hst Hval Hq Hn.
  destruct (index_scan_run work_mem mult norderbys orderBy value n s) as (k & w & V & l & order & Hd & Hr & Hfin & Hl); try done.
  { unfold skips. rewrite Hst. lia. }
  exists k, w, V, l, order. split_and!; try done. pose proof (fi_out _ _ _ _ _ _ _ _ _ _ _ _ Hfin) as F1. simpl in F1.
  rewrite <- (entries_tids rel), <- F1. unfold visible in Hl. rewrite Hst in Hl. intros tids calls Hc. apply Hl.
  unfold tids in Hc. by rewrite length_fmap in Hc.
Qed.
End FirstCall.

(** ** The strict order *)

Lemma StronglySorted_all {A} (R : relation A) l : (forall a b, a ∈ l -> b ∈ l -> R a b) -> StronglySorted R l.
Proof.
  induction l as [|a l IH]; intros Hl; constructor; [apply IH; intros; by apply Hl; right|].
  apply list.Forall_forall. intros b Hb. apply Hl; [by left|by right].
Qed.

Section Strict.
Context (rel : Relation) (q : HnswQuery) (support : HnswSupport).

#[local] Abbreviation dist := (disk_distance rel q support).
#[local] Abbreviation nondecr := (nondecreasing rel q support).

Lemma nondecreasing_sublist d l : nondecr d l `sublist_of` l.
Proof.
  revert d. induction l as [|p l IH]; intros d; [done|]. simpl. destruct (flt _ _); [by apply sublist_cons|by apply sublist_skip].
Qed.

(** Of numbers the result is sorted. *)
Lemma nondecreasing_sorted d l : is_nan d = false -> Forall (fun p => is_nan (dist p.1) = false) l ->
  Forall (fun p => fle d (dist p.1) = true) (nondecr d l) /\
  StronglySorted (fun a b => fle (dist a.1) (dist b.1) = true) (nondecr d l).
Proof.
  intros Hd Hl. revert d Hd. induction Hl as [|p l Hp Hl IH]; intros d Hd; simpl; [split; constructor|].
  destruct (flt (dist p.1) d) eqn:Ef; [by apply IH|]. destruct (IH (dist p.1) Hp) as [Hf Hs].
  assert (Hle : fle d (dist p.1) = true) by (by apply fle_not_flt). split; constructor; try done.
  eapply List.Forall_impl; [|exact Hf]. intros r. by apply fle_trans.
Qed.

(** A sorted list is kept as it is. *)
Lemma nondecreasing_id d l l' : Forall (fun p => dle d (dist p.1)) l -> StronglySorted (fun a b => dle (dist a.1) (dist b.1)) l ->
  l `prefix_of` nondecr d (l ++ l').
Proof.
  intros Hd Hs. revert d Hd. induction Hs as [|p l Hs IH Hf]; intros d Hd; [apply prefix_nil|].
  apply list.Forall_cons in Hd as [Hp Hd]. simpl. unfold dle in Hp. rewrite Hp. apply prefix_cons, IH, Hf.
Qed.

(** What a search found, from the nearest on, is sorted. *)
Lemma searched_sorted (w : list ItemPointerData) : StronglySorted (fun a b => dle (dist b) (dist a)) w ->
  StronglySorted (fun a b => dle (dist a.1) (dist b.1)) (rev w ≫= entries rel).
Proof.
  induction 1 as [|k w Hw IH Hf]; [constructor|]. simpl. rewrite bind_app. simpl. rewrite app_nil_r.
  rewrite list.Forall_forall in Hf. apply StronglySorted_app_2; [|done|].
  - intros a b (k' & Ha & Hk')%list_elem_of_bind Hb. rewrite (entries_element _ _ _ Ha), (entries_element _ _ _ Hb).
    apply Hf. by apply elem_of_rev.
  - apply StronglySorted_all. intros a b Ha Hb. rewrite (entries_element _ _ _ Ha), (entries_element _ _ _ Hb). apply dle_refl.
Qed.
End Strict.

(** A scan of an index without an entry point ends at once. *)
Lemma empty_call_run `{Palloc} hnsw_ef_search mode max_tuples allocated fuel n scan (s : Backend) orderBy value meta :
  so_first (sd_opaque scan) = true -> sd_orderByData scan = Some orderBy -> sd_mvcc scan = true ->
  GetScanValue (sd_opaque scan) orderBy = Ok value -> meta_ok (index s) meta -> mp_entryBlkno meta = InvalidBlockNumber ->
  so_discarded (sd_opaque scan) = None ->
  exists scan', hnswgettuple hnsw_ef_search mode max_tuples allocated fuel (S n) scan s = Ok ((None, scan'), s).
Proof.
  intros Hfirst Hob Hmvcc Hval Hmeta Hentry Hd. destruct (HnswGetMetaPageInfo_run s meta Hmeta) as (ep & s' & E & _ & Hep).
  rewrite Hentry in Hep. simpl in Hep. destruct Hep as [-> ->]. unfold hnswgettuple. rewrite Hfirst. unfold first_items. rewrite Hob, Hmvcc.
  eexists. unfold GetScanItems, mbind, M_bind, lift_res. simpl. rewrite Hval, E. simpl.
  unfold more_items. simpl. rewrite Hd. by destruct (iterative mode).
Qed.

(** ** Properties *)

(** C12: an index scan ends and returns the results of the search, nearest
    first.  On an index whose layers are well formed, from [hnswbeginscan] and
    [hnswrescan] on, the calls of [hnswgettuple] return without an error the
    heap TIDs of the elements of one search of the ground layer, each element
    once, from the nearest to the furthest, and then no tuple; the search
    starts from the element the greedy descent through the upper layers ends
    at, and its result has the properties of [search_result]. *)
Theorem index_scan_returns `{Palloc} hnsw_ef_search max_tuples allocated fuel work_mem mult norderbys orderBy value n
    (s : Backend) meta etup U :
  let rel := index s in
  let scan := hnswrescan (hnswbeginscan work_mem mult rel norderbys true) (Some orderBy) in
  let q := mkHnswQuery value in
  0 < norderbys -> GetScanValue (sd_opaque scan) orderBy = Ok value ->
  disk_index_ok rel q (rd_support rel) meta etup U -> 1 <= hnsw_ef_search ->
  (forall lc, (lc <= Z.to_nat (et_level etup))%nat -> (size (U lc) <= fuel)%nat) -> (size (U O) < n)%nat ->
  exists k w V l,
    descent rel q (rd_support rel) (mp_m meta) U NULL 0 (Z.to_nat (et_level etup)) (entry_tid meta) k /\
    search_result (disk_graph rel q 0 (rd_support rel) (mp_m meta) NULL) hnsw_ef_search (U O) [k] w V /\
    l = rev w ≫= returned_tids rel /\
    forall calls, (length l < calls)%nat -> exists scan' s',
      scan_all hnsw_ef_search HNSW_ITERATIVE_SCAN_OFF max_tuples allocated fuel calls n scan s = Ok ((l, scan'), s').
Proof.
  intros rel scan q Hob Hval Hok Hef Hfuel Hn.
  destruct (unordered_scan_run hnsw_ef_search HNSW_ITERATIVE_SCAN_OFF max_tuples allocated fuel rel q (rd_support rel) meta etup U
    Hok Hef Hfuel work_mem mult norderbys orderBy value n s) as (k & w & V & l & order & Hd & Hr & [_ _ _ _ F5 _ _] & Hl); try done.
  exists k, w, V, (order ≫= returned_tids rel). split_and!; try done. rewrite (F5 eq_refl). simpl.
  by rewrite <- list_fmap_compose, list_fmap_id.
Qed.

(** C11: an iterative scan is complete.  In the relaxed order mode the scan
    ends too; it returns the heap TIDs of distinct elements, each once, first
    those of the first search from the nearest to the furthest; and when the
    limits on tuples and memory are not reached, it returns those of every
    element that can be reached along the neighbor tuples of the ground layer
    from the element the descent ends at. *)
Theorem iterative_scan_complete `{Palloc} hnsw_ef_search max_tuples allocated fuel work_mem mult norderbys orderBy value n
    (s : Backend) meta etup U :
  let rel := index s in
  let scan := hnswrescan (hnswbeginscan work_mem mult rel norderbys true) (Some orderBy) in
  let q := mkHnswQuery value in
  0 < norderbys -> GetScanValue (sd_opaque scan) orderBy = Ok value ->
  disk_index_ok rel q (rd_support rel) meta etup U -> 1 <= hnsw_ef_search ->
  (forall lc, (lc <= Z.to_nat (et_level etup))%nat -> (size (U lc) <= fuel)%nat) -> (size (U O) < n)%nat ->
  exists k w V l order,
    descent rel q (rd_support rel) (mp_m meta) U NULL 0 (Z.to_nat (et_level etup)) (entry_tid meta) k /\
    search_result (disk_graph rel q 0 (rd_support rel) (mp_m meta) NULL) hnsw_ef_search (U O) [k] w V /\
    l = order ≫= returned_tids rel /\ NoDup order /\ rev w `prefix_of` order /\ (forall k', k' ∈ order -> k' ∈ U O) /\
    (Z.of_nat (size (U O)) < max_tuples -> (forall so, fgt (allocated so) (so_maxMemory so) = false) ->
     forall k', rtc (fun a b => b ∈ disk_neighbors rel (mp_m meta) 0 a) k k' -> k' ∈ order) /\
    forall calls, (length l < calls)%nat -> exists scan' s',
      scan_all hnsw_ef_search HNSW_ITERATIVE_SCAN_RELAXED max_tuples allocated fuel calls n scan s = Ok ((l, scan'), s').
Proof.
  intros rel scan q Hob Hval Hok Hef Hfuel Hn.
  destruct (unordered_scan_run hnsw_ef_search HNSW_ITERATIVE_SCAN_RELAXED max_tuples allocated fuel rel q (rd_support rel) meta etup U
    Hok Hef Hfuel work_mem mult norderbys orderBy value n s)
    as (k & w & V & l & order & Hd & Hr & Hfin & Hl); try done.
  exists k, w, V, (order ≫= returned_tids rel), order. pose proof Hfin as Hpre%finished_prefix.
  split_and!; try done; [apply Hfin|apply Hfin|]. intros Hmax Hmem k'.
  by eapply finished_reaches.
Qed.

(** C29: the strict order mode never goes back.  In the strict order mode a
    scan ends too.  It takes the heap TIDs of distinct elements, first those of
    the first search from the nearest to the furthest, and within the limits
    those of every element that can be reached; of these it returns, each from its
    element, all that are not nearer than one returned before: in particular
    everything the first search found, and the distances of what is returned
    are numbers in nondecreasing order. *)
Theorem strict_scan_ordered `{Palloc} hnsw_ef_search max_tuples allocated fuel work_mem mult norderbys orderBy value n
    (s : Backend) meta etup U :
  let rel := index s in
  let scan := hnswrescan (hnswbeginscan work_mem mult rel norderbys true) (Some orderBy) in
  let q := mkHnswQuery value in
  let dist := disk_distance rel q (rd_support rel) in
  0 < norderbys -> GetScanValue (sd_opaque scan) orderBy = Ok value ->
  disk_index_ok rel q (rd_support rel) meta etup U -> 1 <= hnsw_ef_search ->
  (forall lc, (lc <= Z.to_nat (et_level etup))%nat -> (size (U lc) <= fuel)%nat) ->
  (size (U O) + length (elements (U O) ≫= returned_tids rel) < n)%nat ->
  exists k w V order l,
    descent rel q (rd_support rel) (mp_m meta) U NULL 0 (Z.to_nat (et_level etup)) (entry_tid meta) k /\
    search_result (disk_graph rel q 0 (rd_support rel) (mp_m meta) NULL) hnsw_ef_search (U O) [k] w V /\
    NoDup order /\ rev w `prefix_of` order /\ (forall k', k' ∈ order -> k' ∈ U O) /\
    (Z.of_nat (size (U O)) < max_tuples -> (forall so, fgt (allocated so) (so_maxMemory so) = false) ->
     forall k', rtc (fun a b => b ∈ disk_neighbors rel (mp_m meta) 0 a) k k' -> k' ∈ order) /\
    l = nondecreasing rel q (rd_support rel) neg_infinity (order ≫= entries rel) /\
    l `sublist_of` order ≫= entries rel /\ rev w ≫= entries rel `prefix_of` l /\
    Forall (fun p => fle neg_infinity (dist p.1) = true) l /\
    StronglySorted (fun a b => fle (dist a.1) (dist b.1) = true) l /\
    forall calls, (length l < calls)%nat -> exists scan' s',
      scan_all hnsw_ef_search HNSW_ITERATIVE_SCAN_STRICT max_tuples allocated fuel calls n scan s = Ok ((l.*2, scan'), s').
Proof.
  intros rel scan q dist Hob Hval Hok Hef Hfuel Hn.
  destruct (index_scan_run hnsw_ef_search HNSW_ITERATIVE_SCAN_STRICT max_tuples allocated fuel rel q (rd_support rel) meta etup U
    Hok Hef Hfuel work_mem mult norderbys orderBy value n s)
    as (k & w & V & l & order & Hd & Hr & Hfin & Hl); try done; [unfold skips; simpl; lia|].
  pose proof Hfin as Hpre%finished_prefix. pose proof (fi_out _ _ _ _ _ _ _ _ _ _ _ _ Hfin) as Hout. simpl in Hout. subst l.
  assert (Hnum : forall k', k' ∈ U O -> is_nan (dist k') = false).
  { intros k'. apply (disk_numeric q 0 _ (mp_m meta) NULL (mkBackend ∅ rel None) (U O)), (di_layer _ _ _ _ _ _ Hok O). lia. }
  destruct (nondecreasing_sorted rel q (rd_support rel) neg_infinity (order ≫= entries rel) eq_refl) as [Hf Hs].
  { apply list.Forall_forall. intros p (k' & Hp & Hk')%list_elem_of_bind. rewrite (entries_element _ _ _ Hp). by apply Hnum, Hfin. }
  eexists k, w, V, order, _. split_and!; try done; [apply Hfin|apply Hfin| |by apply nondecreasing_sublist|].
  - intros Hmax Hmem k'. by eapply finished_reaches.
  - destruct Hpre as [rest ->]. rewrite bind_app. apply nondecreasing_id; [|apply searched_sorted, Hr].
    apply list.Forall_forall. intros p _. apply flt_neg_infinity.
Qed.

(** C30: the first call checks its arguments before it reads the index.  A scan
    without an order is an error, so is one with a snapshot that is not an MVCC
    snapshot, and so is a query that cannot be normalised; with these in order,
    a metapage without the magic number is an error, and a scan of an index
    without an entry point returns no tuple, in every mode. *)
Theorem first_call_errors `{Palloc} hnsw_ef_search mode max_tuples allocated fuel n scan (s : Backend) :
  so_first (sd_opaque scan) = true ->
  let call := hnswgettuple hnsw_ef_search mode max_tuples allocated fuel (S n) scan s in
  (sd_orderByData scan = None -> call = Err ERR_no_order) /\
  (forall orderBy, sd_orderByData scan = Some orderBy ->
    (sd_mvcc scan = false -> call = Err ERR_non_mvcc_snapshot) /\
    (sd_mvcc scan = true -> forall e, GetScanValue (sd_opaque scan) orderBy = Err e -> call = Err e) /\
    (sd_mvcc scan = true -> forall value page, GetScanValue (sd_opaque scan) orderBy = Ok value ->
       block (rd_main (index s)) HNSW_METAPAGE_BLKNO = Some page ->
       (mp_magicNumber (pd_contents page) <> HNSW_MAGIC_NUMBER -> call = Err ERR_hnsw_index_not_valid) /\
       (mp_magicNumber (pd_contents page) = HNSW_MAGIC_NUMBER -> mp_entryBlkno (pd_contents page) = InvalidBlockNumber ->
        so_discarded (sd_opaque scan) = None -> exists scan', call = Ok ((None, scan'), s)))).
Proof.
  intros Hfirst call.
  pose proof (fun orderBy value meta => empty_call_run hnsw_ef_search mode max_tuples allocated fuel n scan s orderBy value meta Hfirst)
    as Hempty. fold call in Hempty. revert Hempty.
  unfold call, hnswgettuple. rewrite Hfirst. unfold first_items. intros Hempty.
  split; [by intros ->|]. intros orderBy Hob. rewrite Hob.
  split; [by intros ->|]. split; [intros -> e He; unfold mbind, M_bind, lift_res; simpl; by rewrite He|].
  intros Hmvcc value page Hval Hpage. rewrite Hmvcc. split.
  - intros Hmagic. unfold GetScanItems, HnswGetMetaPageInfo, read_meta, mbind, M_bind, lift_res. simpl. rewrite Hval.
    rewrite (ReadBuffer_run s _ _ Hpage), Hpage. simpl. apply Z.eqb_neq in Hmagic. by rewrite Hmagic.
  - intros Hmagic Hentry Hd.
    rewrite Hob, Hmvcc in Hempty. apply (Hempty orderBy value (pd_contents page)); try done. by exists page.
Qed.

(** ** Witnesses: scans of the index of two elements *)

Lemma sample_index_graph :
  disk_index_ok sample_relation sample_query sample_support (pd_contents sample_meta)
    (mkHnswElementTuple 0 0 1 (ItemPointerSet 7 1 :: replicate 9 ItemPointerSetInvalid) (ItemPointerSet 1 2) 0 value1)
    (fun _ => sample_U).
Proof.
  split; try done.
  - by exists sample_meta.
  - intros lc Hlc. simpl in Hlc. replace lc with O by lia. exact sample_layer_ok.
Qed.

(** No memory limit is reached when nothing is allocated. *)
Definition no_memory (so : HnswScanOpaqueData) : double := dzero.

Definition sample_scan : IndexScanDesc :=
  hnswrescan (hnswbeginscan 4096 (double_of_Z 1) sample_relation 1 true) (Some (Some value1)).

Example sample_scan_runs :
  (fun r => r.1) <$> result_of (scan_all (H := sample_palloc) 40 HNSW_ITERATIVE_SCAN_OFF 20000 no_memory 2 3 3
    sample_scan sample_state) = Some [ItemPointerSet 7 1; ItemPointerSet 7 3] /\
  (fun r => r.1) <$> result_of (scan_all (H := sample_palloc) 1 HNSW_ITERATIVE_SCAN_OFF 20000 no_memory 2 3 3
    sample_scan sample_state) = Some [ItemPointerSet 7 1] /\
  (fun r => r.1) <$> result_of (scan_all (H := sample_palloc) 1 HNSW_ITERATIVE_SCAN_RELAXED 20000 no_memory 2 3 3
    sample_scan sample_state) = Some [ItemPointerSet 7 1; ItemPointerSet 7 3].
Proof. by vm_compute. Qed.

Lemma index_scan_returns_witness :
  exists k w V l,
    descent sample_relation sample_query sample_support 2 (fun _ => sample_U) NULL 0 0 tid1 k /\
    search_result (disk_graph sample_relation sample_query 0 sample_support 2 NULL) 40 sample_U [k] w V /\
    l = rev w ≫= returned_tids sample_relation /\
    forall calls, (length l < calls)%nat -> exists scan' s',
      scan_all (H := sample_palloc) 40 HNSW_ITERATIVE_SCAN_OFF 20000 no_memory 2 calls 3 sample_scan sample_state
        = Ok ((l, scan'), s').
Proof.
  apply (index_scan_returns (H := sample_palloc) 40 20000 no_memory 2 4096 (double_of_Z 1) 1 (Some value1) (Some value1) 3
    sample_state _ _ _ eq_refl eq_refl sample_index_graph); [lia | intros; by vm_compute | apply Nat.ltb_lt; by vm_compute].
Defined.

Lemma iterative_scan_complete_witness :
  exists k w V l order,
    descent sample_relation sample_query sample_support 2 (fun _ => sample_U) NULL 0 0 tid1 k /\
    search_result (disk_graph sample_relation sample_query 0 sample_support 2 NULL) 1 sample_U [k] w V /\
    l = order ≫= returned_tids sample_relation /\ NoDup order /\ rev w `prefix_of` order /\
    (forall k', k' ∈ order -> k' ∈ sample_U) /\
    (Z.of_nat (size sample_U) < 20000 -> (forall so, fgt (no_memory so) (so_maxMemory so) = false) ->
     forall k', rtc (fun a b => b ∈ disk_neighbors sample_relation 2 0 a) k k' -> k' ∈ order) /\
    forall calls, (length l < calls)%nat -> exists scan' s',
      scan_all (H := sample_palloc) 1 HNSW_ITERATIVE_SCAN_RELAXED 20000 no_memory 2 calls 3 sample_scan sample_state
        = Ok ((l, scan'), s').
Proof.
  apply (iterative_scan_complete (H := sample_palloc) 1 20000 no_memory 2 4096 (double_of_Z 1) 1 (Some value1) (Some value1) 3
    sample_state _ _ _ eq_refl eq_refl sample_index_graph); [lia | intros; by vm_compute | apply Nat.ltb_lt; by vm_compute].
Defined.

(** With one result at a time both elements are returned, the nearest first. *)
Lemma strict_scan_ordered_witness :
  exists l, StronglySorted (fun a b => fle (disk_distance sample_relation sample_query sample_support a.1)
      (disk_distance sample_relation sample_query sample_support b.1) = true) l /\
    forall calls, (length l < calls)%nat -> exists scan' s',
      scan_all (H := sample_palloc) 1 HNSW_ITERATIVE_SCAN_STRICT 20000 no_memory 2 calls 5 sample_scan sample_state
        = Ok ((l.*2, scan'), s').
Proof.
  destruct (strict_scan_ordered (H := sample_palloc) 1 20000 no_memory 2 4096 (double_of_Z 1) 1 (Some value1) (Some value1) 5
    sample_state _ _ _ eq_refl eq_refl sample_index_graph) as (k & w & V & order & l & _ & _ & _ & _ & _ & _ & _ & _ & _ & _ & Hs & Hl);
    [lia | intros; by vm_compute | apply Nat.ltb_lt; by vm_compute|].
  exists l. split; [exact Hs|exact Hl].
Defined.

Example strict_scan_runs :
  (fun r => r.1) <$> result_of (scan_all (H := sample_palloc) 1 HNSW_ITERATIVE_SCAN_STRICT 20000 no_memory 2 3 5
    sample_scan sample_state) = Some [ItemPointerSet 7 1; ItemPointerSet 7 3].
Proof. by vm_compute. Qed.

Lemma first_call_errors_witness :
  hnswgettuple (H := sample_palloc) 40 HNSW_ITERATIVE_SCAN_OFF 20000 no_memory 2 3
    (hnswrescan (hnswbeginscan 4096 (double_of_Z 1) sample_relation 0 true) None) sample_state = Err ERR_no_order /\
  hnswgettuple (H := sample_palloc) 40 HNSW_ITERATIVE_SCAN_OFF 20000 no_memory 2 3
    (hnswrescan (hnswbeginscan 4096 (double_of_Z 1) sample_relation 1 false) (Some (Some value1))) sample_state
    = Err ERR_non_mvcc_snapshot.
Proof.
  split.
  - apply (first_call_errors (H := sample_palloc) 40 HNSW_ITERATIVE_SCAN_OFF 20000 no_memory 2 2
      (hnswrescan (hnswbeginscan 4096 (double_of_Z 1) sample_relation 0 true) None) sample_state eq_refl). reflexivity.
  - exact (proj1 (proj2 (first_call_errors (H := sample_palloc) 40 HNSW_ITERATIVE_SCAN_OFF 20000 no_memory 2 2
      (hnswrescan (hnswbeginscan 4096 (double_of_Z 1) sample_relation 1 false) (Some (Some value1))) sample_state eq_refl)
      (Some value1) eq_refl) eq_refl).
Defined.
