(* ===== verification/HnswBuild.v ===== *)
(** * Build of the index

    src/pgvec/src/backend/access/hnsw/hnswbuild.c, for a build by one process:
    the graph is built in memory, written to pages when it is complete or memory
    is full, and completed on the pages.

    The fields of [HnswBuildState] that do not change are the Context of the
    section; [graph] is passed along.  Locks, progress reports and memory
    contexts are left out; what [MemoryContextMemAllocated] reports is a
    parameter, and [random] is what [RandomDouble] returns for a tuple.  The
    pages are written to the log as they are ([log_newpage_range]), which does
    not change them. *)

From Stdlib Require Import SpecFloat.
From S2P Require Import Prelude CFloat VectorType ItemPtr HnswData BufPage Backend HnswUtils.
From S2P Require Import SearchLayer QSort SelectNeighbors FindNeighbors HnswInsert.

Record HnswGraph := mkHnswGraph {
  gr_head : HnswElementPtr;
  gr_indtuples : Z;
  gr_entryPoint : HnswElementPtr;
  gr_memoryUsed : Z;
  gr_memoryTotal : Z;
  gr_flushed : bool
}.

Definition gr_set_head (p : HnswElementPtr) (g : HnswGraph) : HnswGraph :=
  mkHnswGraph p (gr_indtuples g) (gr_entryPoint g) (gr_memoryUsed g) (gr_memoryTotal g) (gr_flushed g).
Definition gr_set_entryPoint (p : HnswElementPtr) (g : HnswGraph) : HnswGraph :=
  mkHnswGraph (gr_head g) (gr_indtuples g) p (gr_memoryUsed g) (gr_memoryTotal g) (gr_flushed g).
Definition gr_set_memoryUsed (n : Z) (g : HnswGraph) : HnswGraph :=
  mkHnswGraph (gr_head g) (gr_indtuples g) (gr_entryPoint g) n (gr_memoryTotal g) (gr_flushed g).
Definition gr_set_flushed (g : HnswGraph) : HnswGraph :=
  mkHnswGraph (gr_head g) (gr_indtuples g) (gr_entryPoint g) (gr_memoryUsed g) (gr_memoryTotal g) true.
Definition gr_add_tuple (g : HnswGraph) : HnswGraph :=
  mkHnswGraph (gr_head g) (gr_indtuples g + 1) (gr_entryPoint g) (gr_memoryUsed g) (gr_memoryTotal g) (gr_flushed g).

Definition InitGraph (base : addr) (memoryTotal : Z) : HnswGraph :=
  mkHnswGraph (HnswPtrStore base NULL) 0 (HnswPtrStore base NULL) 0 memoryTotal false.

(** The settings of a build, checked by [InitBuildState]. *)
Record BuildSettings := mkBuildSettings {
  bs_forkNum : ForkNumber;
  bs_typeInfo : HnswTypeInfo;
  bs_m : Z;
  bs_efConstruction : Z;
  bs_dimensions : Z;
  bs_support : HnswSupport;
  bs_ml : double;
  bs_maxLevel : Z
}.

Definition InitBuildState `{Libm} (rel : Relation) (forkNum : ForkNumber) (is_varbit : bool) : res BuildSettings :=
  let typeInfo := HnswGetTypeInfo rel in
  let m := HnswGetM rel in
  let efConstruction := HnswGetEfConstruction rel in
  let dimensions := rd_typmod rel in
  raise_if is_varbit ERR_type_not_supported ;;
  raise_if (dimensions <? 0) ERR_no_dimensions ;;
  raise_if (maxDimensions typeInfo <? dimensions) ERR_column_too_many_dimensions ;;
  raise_if (efConstruction <? 2 * m) ERR_ef_construction_too_small ;;
  Ok (mkBuildSettings forkNum typeInfo m efConstruction dimensions (HnswInitSupport rel) (HnswGetMl m) (HnswGetMaxLevel m)).

(** [pd_lower] protects the contents of the metapage. *)
Definition set_lower (lower : Z) (page : Page) : Page :=
  mkPage (pd_flags page) lower (pd_upper page) (pd_special page) (pd_linp page) (pd_contents page) (pd_opaque page).

Definition HNSW_TUPLE_ALLOC_SIZE : Z := BLCKSZ.

Section Build.
Context `{Palloc} `{ListSort} `{Libm}.
Context (garbage : HnswCandidate) (fuel : nat).
Context (bs : BuildSettings) (base : addr).
(** The memory a build has allocated for the graph. *)
Context (MemoryContextMemAllocated : Backend -> Z).

#[local] Abbreviation forkNum := (bs_forkNum bs).

(** ** Writing the graph *)

Definition CreateMetaPage : M Backend unit :=
  buf ← HnswNewBuffer forkNum ;
  let metap := mkHnswMetaPage HNSW_MAGIC_NUMBER HNSW_VERSION (bs_dimensions bs) (bs_m bs) (bs_efConstruction bs)
                 InvalidBlockNumber InvalidOffsetNumber (-1) InvalidBlockNumber in
  write_page forkNum (BufferPage buf)
    (set_lower (MAXALIGN SizeOfPageHeaderData + sizeof_HnswMetaPageData) (set_contents metap HnswInitPage)).

Definition HnswBuildAppendPage (buf : BlockNumber) : M Backend BlockNumber :=
  newbuf ← HnswNewBuffer forkNum ;
  modify_page forkNum (BufferPage buf) (set_nextblkno newbuf) ;;
  write_page forkNum (BufferPage newbuf) HnswInitPage ;;
  mret newbuf.

(** [PageAddItem] on the buffer, at the expected offset. *)
Definition add_item (buf : BlockNumber) (tup : HnswTuple) (size : Z) (offno : OffsetNumber) : M Backend unit :=
  p ← read_page forkNum (BufferPage buf) ;
  '(o, p) ← lift_res (PageAddItem p tup size InvalidOffsetNumber false false) ;
  lift_res (raise_if (negb (o =? offno)) ERR_failed_to_add_index_item) ;;
  write_page forkNum (BufferPage buf) p.

(** The zeroed neighbor tuple, overwritten by [WriteNeighborTuples] before
    anything reads it. *)
Definition placeholder : HnswTuple := NeighborTuple (mkHnswNeighborTuple 0 0 []).

(** The two tuples of an element; the buffer they end in. *)
Definition write_element (element : addr) (buf : BlockNumber) : M Backend BlockNumber :=
  el ← load_element element ;
  sz ← lift_res (tuple_sizes el (bs_m bs)) ;
  lift_res (raise_if (HNSW_TUPLE_ALLOC_SIZE <? etupSize sz) ERR_index_tuple_too_large) ;;
  etup ← lift_res (HnswSetElementTuple el) ;
  p ← read_page forkNum (BufferPage buf) ;
  buf ← (if (PageGetFreeSpace p <? etupSize sz) ||
            (combinedSize sz <=? maxSize sz) && (PageGetFreeSpace p <? combinedSize sz)
         then HnswBuildAppendPage buf else mret buf) ;
  p ← read_page forkNum (BufferPage buf) ;
  let blkno := buf in
  let offno := OffsetNumberNext (PageGetMaxOffsetNumber p) in
  let '(neighborPage, neighborOffno) :=
    if combinedSize sz <=? maxSize sz then (blkno, OffsetNumberNext offno) else (blkno + 1, FirstOffsetNumber) in
  modify_element element (fun e => el_set_neighbortid neighborPage neighborOffno (el_set_tid blkno offno e)) ;;
  add_item buf (ElementTuple (et_set_neighbortid (ItemPointerSet neighborPage neighborOffno) etup)) (etupSize sz) offno ;;
  p ← read_page forkNum (BufferPage buf) ;
  buf ← (if PageGetFreeSpace p <? ntupSize sz then HnswBuildAppendPage buf else mret buf) ;
  add_item buf placeholder (ntupSize sz) neighborOffno ;;
  mret buf.

(** The list of elements is followed for at most [n] steps. *)
Fixpoint write_elements (n : nat) (iter : HnswElementPtr) (buf : BlockNumber) : M Backend BlockNumber :=
  if HnswPtrIsNull base iter then mret buf
  else
    match n with
    | O => throw OutOfFuel
    | S n' =>
        let element := HnswPtrAccess base iter in
        el ← load_element element ;
        buf ← write_element element buf ;
        write_elements n' (el_next el) buf
    end.

Definition CreateGraphPages (g : HnswGraph) : M Backend unit :=
  buf ← HnswNewBuffer forkNum ;
  write_page forkNum (BufferPage buf) HnswInitPage ;;
  insertPage ← write_elements fuel (gr_head g) buf ;
  HnswUpdateMetaPage HNSW_UPDATE_ENTRY_ALWAYS (HnswPtrAccess base (gr_entryPoint g)) insertPage forkNum true.

Definition write_neighbors (element : addr) : M Backend unit :=
  el ← load_element element ;
  buf ← ReadBufferFork forkNum (el_neighborPage el) ;
  ntup ← HnswSetNeighborTuple base element (bs_m bs) ;
  p ← read_page forkNum (BufferPage buf) ;
  '(ok, p) ← lift_res (PageIndexTupleOverwrite p (el_neighborOffno el) (NeighborTuple ntup)
                         (HNSW_NEIGHBOR_TUPLE_SIZE (el_level el) (bs_m bs))) ;
  lift_res (raise_if (negb ok) ERR_failed_to_add_index_item) ;;
  write_page forkNum (BufferPage buf) p.

Fixpoint WriteNeighborTuples (n : nat) (iter : HnswElementPtr) : M Backend unit :=
  if HnswPtrIsNull base iter then mret tt
  else
    match n with
    | O => throw OutOfFuel
    | S n' =>
        let element := HnswPtrAccess base iter in
        el ← load_element element ;
        write_neighbors element ;;
        WriteNeighborTuples n' (el_next el)
    end.

Definition FlushPages (g : HnswGraph) : M Backend HnswGraph :=
  CreateMetaPage ;;
  CreateGraphPages g ;;
  WriteNeighborTuples fuel (gr_head g) ;;
  mret (gr_set_flushed g).

(** ** Insertion in memory *)

Definition AddDuplicateInMemory (element dup : addr) : M Backend bool :=
  d ← load_element dup ;
  if el_heaptidsLength d =? HNSW_HEAPTIDS then mret false
  else
    el ← load_element element ;
    tid ← lift_res (of_option UndefinedBehaviour (el_heaptids el !! 0%nat)) ;
    d ← lift_res (HnswAddHeapTid d tid) ;
    store_element dup d ;;
    mret true.

Fixpoint find_duplicate_memory (items : list HnswCandidate) (element : addr) (value : Vector) : M Backend bool :=
  match items with
  | [] => mret false
  | neighbor :: rest =>
      let neighborElement := HnswPtrAccess base (hc_element neighbor) in
      v ← HnswGetValue base neighborElement ;
      neighborValue ← lift_res (deref_value v) ;
      if negb (datumIsEqual value neighborValue) then mret false
      else
        added ← AddDuplicateInMemory element neighborElement ;
        if (added : bool) then mret true else find_duplicate_memory rest element value
  end.

Definition FindDuplicateInMemory (element : addr) : M Backend bool :=
  neighbors ← HnswGetNeighbors base element 0 ;
  v ← HnswGetValue base element ;
  match na_items neighbors with
  | [] => mret false
  | items => value ← lift_res (deref_value v) ; find_duplicate_memory items element value
  end.

Definition AddElementInMemory (element : addr) (g : HnswGraph) : M Backend HnswGraph :=
  modify_element element (el_set_next (gr_head g)) ;;
  mret (gr_set_head (HnswPtrStore base element) g).

Definition update_connection (e : addr) (lm lc : Z) (hc : HnswCandidate) (_ : unit) : M Backend unit :=
  let neighborElement := HnswPtrAccess base (hc_element hc) in
  a ← HnswGetNeighbors base neighborElement lc ;
  s ← get_state ;
  '(a, _) ← lift_res (HnswUpdateConnection base (mem s) (bs_support bs) (hc_closer garbage) a e (hc_distance hc) lm None) ;
  modify_neighbors neighborElement lc (fun _ => a).

(** Layers [lc], ..., 0; the neighbors of [e] are copied first. *)
Fixpoint update_layers_memory (e : addr) (lc : nat) : M Backend unit :=
  let lm := HnswGetLayerM (bs_m bs) (Z.of_nat lc) in
  neighbors ← HnswGetNeighbors base e (Z.of_nat lc) ;
  mfor (na_items neighbors) tt (update_connection e lm (Z.of_nat lc)) ;;
  match lc with O => mret tt | S lc' => update_layers_memory e lc' end.

Definition UpdateNeighborsInMemory (e : addr) : M Backend unit :=
  el ← load_element e ; update_layers_memory e (Z.to_nat (el_level el)).

Definition UpdateGraphInMemory (element entryPoint : addr) (g : HnswGraph) : M Backend HnswGraph :=
  dup ← FindDuplicateInMemory element ;
  if (dup : bool) then mret g
  else
    g ← AddElementInMemory element g ;
    UpdateNeighborsInMemory element ;;
    better ← better_entry element entryPoint ;
    mret (if better : bool then gr_set_entryPoint (HnswPtrStore base element) g else g).

Definition InsertTupleInMemory (element : addr) (g : HnswGraph) : M Backend HnswGraph :=
  let entryPoint := HnswPtrAccess base (gr_entryPoint g) in
  HnswFindElementNeighbors (hc_closer garbage) fuel base element true (bs_support bs) (bs_m bs) entryPoint
    (bs_efConstruction bs) false ;;
  UpdateGraphInMemory element entryPoint g.

(** The graph afterwards, and whether the tuple was indexed. *)
Definition InsertTuple (value : Vector) (heaptid : ItemPointerData) (random : double) (g : HnswGraph)
    : M Backend (HnswGraph * bool) :=
  v ← lift_res (HnswFormIndexValue value (bs_typeInfo bs) (bs_support bs)) ;
  match v with
  | None => mret (g, false)
  | Some value =>
      if gr_flushed g then
        r ← HnswInsertTupleOnDisk garbage fuel (bs_support bs) value heaptid random true ; mret (g, r)
      else if gr_memoryTotal g <=? gr_memoryUsed g then
        g ← FlushPages g ;
        r ← HnswInsertTupleOnDisk garbage fuel (bs_support bs) value heaptid random true ;
        mret (g, r)
      else
        element ← HnswInitElement heaptid (bs_ml bs) random (bs_maxLevel bs) ;
        modify_element element (el_set_value (Some value)) ;;
        s ← get_state ;
        let g := gr_set_memoryUsed (MemoryContextMemAllocated s) g in
        g ← InsertTupleInMemory element g ;
        mret (g, true)
  end.

(** A tuple of the heap: its TID, its value (NULL is [None]) and what
    [RandomDouble] returns while it is inserted. *)
Definition heap_tuple : Type := ItemPointerData * option Vector * double.

Definition BuildCallback (t : heap_tuple) (g : HnswGraph) : M Backend HnswGraph :=
  let '(tid, value, random) := t in
  match value with
  | None => mret g
  | Some value =>
      '(g, inserted) ← InsertTuple value tid random g ;
      mret (if inserted : bool then gr_add_tuple g else g)
  end.

(** [heap] is [None] for the empty index of an unlogged table. *)
Definition BuildGraph (heap : option (list heap_tuple)) (g : HnswGraph) : M Backend HnswGraph :=
  g ← mfor (default [] heap) g BuildCallback ;
  if negb (gr_flushed g) then FlushPages g else mret g.
End Build.

(** [maintenance_work_mem] is in kilobytes; the result is the number of index
    tuples. *)
Definition BuildIndex `{Palloc} `{ListSort} `{Libm} (garbage : HnswCandidate) (fuel : nat)
    (MemoryContextMemAllocated : Backend -> Z) (maintenance_work_mem : Z) (is_varbit : bool)
    (heap : option (list heap_tuple)) (forkNum : ForkNumber) : M Backend Z :=
  s ← get_state ;
  bs ← lift_res (InitBuildState (index s) forkNum is_varbit) ;
  g ← BuildGraph garbage fuel bs NULL MemoryContextMemAllocated heap (InitGraph NULL (maintenance_work_mem * 1024)) ;
  mret (gr_indtuples g).

Definition hnswbuild `{Palloc} `{ListSort} `{Libm} garbage fuel allocated maintenance_work_mem is_varbit
    (heap : list heap_tuple) : M Backend Z :=
  BuildIndex garbage fuel allocated maintenance_work_mem is_varbit (Some heap) MAIN_FORKNUM.

Definition hnswbuildempty `{Palloc} `{ListSort} `{Libm} garbage fuel allocated maintenance_work_mem is_varbit : M Backend unit :=
  _ ← BuildIndex garbage fuel allocated maintenance_work_mem is_varbit None INIT_FORKNUM ; mret tt.
