(* ===== verification/BuildPages.v ===== *)
(** * Build: the graph is written to pages

    [FlushPages] (HnswBuild.v) writes the metapage, the tuples of the elements
    with place for the neighbors, and then the neighbor tuples.  A complete graph
    in memory becomes a well-formed index (IndexWf.v) with the same heap TIDs. *)

From Stdlib Require Import SpecFloat.
From S2P Require Import Prelude CFloat ItemPtr VectorType HnswData BufPage Backend HnswUtils SearchLayer.
From S2P Require Import LayerRefinement PageUpdate MetaPage DiskGraph Tuples QSort SelectNeighbors HnswInsert InsertSpec AddElement IndexWf.
From S2P Require Import HnswBuild.

(** ** Pages in the shared buffers *)

Lemma read_buffer_run fork b p s : block (rd_pages (index s) fork) b = Some p -> read_page fork (BufferPage b) s = Ok (p, s).
Proof. intros Hp. unfold read_page. by rewrite Hp. Qed.

Lemma write_buffer_run fork b p p' s : block (rd_pages (index s) fork) b = Some p ->
  write_page fork (BufferPage b) p' s = Ok (tt, update_block fork b p' s).
Proof. intros Hp. unfold write_page. by rewrite Hp. Qed.

Lemma modify_buffer_run fork b p f s : block (rd_pages (index s) fork) b = Some p ->
  modify_page fork (BufferPage b) f s = Ok (tt, update_block fork b (f p) s).
Proof. intros Hp. unfold modify_page. run (read_buffer_run fork b p s Hp). by eapply write_buffer_run. Qed.

(** ** Tuples added to the pages *)

Record Write := mkWrite { w_block : BlockNumber; w_offset : OffsetNumber; w_tuple : HnswTuple; w_size : Z }.
Definition w_place (w : Write) : BlockNumber * OffsetNumber := (w_block w, w_offset w).

(** [rel'] has the tuples of [rel] and those of [W], at new places. *)
Record wrote (rel rel' : Relation) (W : list Write) : Prop := {
  wr_old b off tup : tuple_at rel b off = Some tup -> tuple_at rel' b off = Some tup;
  wr_new w : w ∈ W -> 1 <= w_block w /\ tuple_at rel (w_block w) (w_offset w) = None /\
    tuple_at rel' (w_block w) (w_offset w) = Some (w_tuple w) /\ item_length rel' (w_block w) (w_offset w) (w_size w);
  wr_only b off tup : tuple_at rel' b off = Some tup -> tuple_at rel b off = Some tup \/ (b, off) ∈ w_place <$> W;
  wr_places : NoDup (w_place <$> W);
  wr_items : items_kept rel rel';
  wr_meta : block (rd_main rel') HNSW_METAPAGE_BLKNO = block (rd_main rel) HNSW_METAPAGE_BLKNO;
  wr_rel : rel' = with_pages rel MAIN_FORKNUM (rd_main rel')
}.

Lemma wrote_nothing rel : wrote rel rel [].
Proof. split; try done; [by intros w ?%elem_of_nil|by left|constructor|by destruct rel]. Qed.

Lemma wrote_app r1 r2 r3 W1 W2 : wrote r1 r2 W1 -> wrote r2 r3 W2 -> wrote r1 r3 (W1 ++ W2).
Proof.
  intros [A1 A2 A3 A4 A5 A6 A7] [B1 B2 B3 B4 B5 B6 B7].
  assert (Hapart : forall w w', w ∈ W1 -> w' ∈ W2 -> w_place w <> w_place w').
  { intros w w' Hw Hw' [= Eb Eo]. destruct (A2 w Hw) as (_ & _ & T1 & _), (B2 w' Hw') as (_ & T2 & _). congruence. }
  split.
  - auto.
  - intros w [Hw|Hw]%elem_of_app.
    + destruct (A2 w Hw) as (H1 & H2 & H3 & H4). split_and!; auto.
    + destruct (B2 w Hw) as (H1 & H2 & H3 & H4). split_and!; auto.
      destruct (tuple_at r1 (w_block w) (w_offset w)) as [t|] eqn:E; [|done]. apply A1 in E. congruence.
  - intros b off tup Ht. rewrite fmap_app, elem_of_app. destruct (B3 b off tup Ht) as [Ht'|]; [|by right; right].
    destruct (A3 b off tup Ht') as [|]; [by left|by right; left].
  - rewrite fmap_app. apply list.NoDup_app. split; [done|]. split; [|done].
    intros x (w & -> & Hw)%list_elem_of_fmap (w' & Heq & Hw')%list_elem_of_fmap. by apply (Hapart w w').
  - by etrans.
  - congruence.
  - rewrite B7, A7. by destruct r1.
Qed.

(** The list of elements [el_next] links, from [p]. *)
Fixpoint chain (mem0 : gmap addr HnswElementData) (p : addr) (l : list addr) : Prop :=
  match l with
  | [] => p = NULL
  | a :: l' => p = a /\ a <> NULL /\ exists el, mem0 !! a = Some el /\ chain mem0 (el_next el) l'
  end.

Lemma chain_insert mem0 p l a el : a ∉ l -> chain mem0 p l -> chain (<[a := el]> mem0) p l.
Proof.
  revert p. induction l as [|c l IH]; intros p Hn; [done|]. intros (-> & Hc & elc & Hel & Hl).
  split; [done|]. split; [done|]. exists elc. apply not_elem_of_cons in Hn as [Hne Hn]. rewrite lookup_insert_ne by done. auto.
Qed.

Section Writes.
Context (bs : BuildSettings) (Hfork : bs_forkNum bs = MAIN_FORKNUM).

(** The state of a build between two writes: [b] is the last page. *)
Record writing (s : Backend) (b : BlockNumber) (p : Page) : Prop := {
  wg_index : index_ok (index s);
  wg_last : b = nlen (index s) - 1;
  wg_first : 1 <= b;
  wg_page : block (rd_main (index s)) b = Some p;
  wg_chain : all_reached (index s)
}.

Lemma writing_ok s b p : writing s b p -> page_ok p /\ nextblkno p = InvalidBlockNumber.
Proof.
  intros [Hix Hl Hf Hp _]. split; [by apply (ix_pages _ Hix b)|]. destruct (ix_next _ Hix b p Hf Hp); [done|lia].
Qed.

Lemma HnswBuildAppendPage_run s b p : writing s b p -> nlen (index s) < InvalidBlockNumber ->
  exists s', HnswBuildAppendPage bs b s = Ok (b + 1, s') /\ writing s' (b + 1) HnswInitPage /\
    wrote (index s) (index s') [] /\ mem s' = mem s /\ xlog s' = xlog s /\ nlen (index s') = nlen (index s) + 1.
Proof using Hfork.
  intros Hw Hsz. destruct (writing_ok _ _ _ Hw) as [Hpok Hnext]. destruct Hw as [Hix Hl Hf Hp Hch]. set (n := nlen (index s)) in *.
  set (s' := commit_state MAIN_FORKNUM [(b, set_nextblkno n p); (n, HnswInitPage)] (extended MAIN_FORKNUM s)).
  assert (Hb1 : b + 1 = n) by lia. exists s'.
  pose proof (block_grown s b p Hf Hp) as Hblk. fold n s' in Hblk.
  pose proof (length_grown s b p) as Hlen. fold n s' in Hlen.
  pose proof (index_ok_grown s b p Hix Hf Hp Hsz) as Hix'. fold n s' in Hix'.
  pose proof (grown_ok s b p Hix Hf Hp Hnext Hsz) as Hg. fold n s' in Hg.
  assert (Hn : block (rd_main (index s')) n = Some HnswInitPage) by (rewrite Hblk, decide_False, decide_True by (done || lia); done).
  split; [|split; [|split; [|split_and!; try done; lia]]].
  - assert (Hz : block (rd_main (index (extended MAIN_FORKNUM s))) b = Some p).
    { apply block_lookup in Hp as [H0 Hp]. apply block_lookup. split; [done|]. simpl. rewrite lookup_app_l; [done|]. by eapply lookup_lt_Some. }
    unfold HnswBuildAppendPage, HnswNewBuffer. rewrite Hfork.
    assert (E1 : ReadBufferNew MAIN_FORKNUM s = Ok (n, extended MAIN_FORKNUM s)) by done. run E1.
    set (s1 := extended MAIN_FORKNUM s) in *.
    run (modify_buffer_run MAIN_FORKNUM b p (set_nextblkno n) s1 Hz).
    assert (Hz2 : is_Some (block (rd_pages (index (update_block MAIN_FORKNUM b (set_nextblkno n p) s1)) MAIN_FORKNUM) n)).
    { rewrite (update_block_block MAIN_FORKNUM b n _ _ s1 Hz). case_decide; [by eexists|]. unfold s1. simpl.
      exists zero_page. apply block_lookup. split; [lia|]. subst n. rewrite Nat2Z.id. by apply list_lookup_middle. }
    destruct Hz2 as [z Hz2]. pose proof (write_buffer_run MAIN_FORKNUM n z HnswInitPage _ Hz2) as E3.
    run E3. by rewrite Hb1.
  - split; [done| |lia|by rewrite Hb1|by apply (gw_chain _ _ Hg)]. lia.
  - split.
    + intros c off tup Ht. by rewrite (gw_tuples _ _ Hg).
    + by intros w ?%elem_of_nil.
    + intros c off tup Ht. left. by rewrite <- (gw_tuples _ _ Hg).
    + constructor.
    + intros c off k (q & it & Hq & Hit & Hk). exists (if decide (c = b) then set_nextblkno n p else q), it.
      rewrite Hblk. destruct (decide (c = b)) as [->|Hne].
      * split; [done|]. split; [|done]. rewrite Hp in Hq. by injection Hq as ->.
      * rewrite decide_False; [done|]. intros ->. apply block_lookup in Hq as [_ Hq]. apply lookup_lt_Some in Hq. lia.
    + apply (gw_meta _ _ Hg).
    + apply (gw_rel _ _ Hg).
Qed.

(** A tuple at the end of the last page. *)
Lemma add_item_run s b p tup size off : writing s b p -> 0 < size -> MAXALIGN size <= PageGetFreeSpace p ->
  off = PageGetMaxOffsetNumber p + 1 -> (forall et, tup = ElementTuple et -> et_deleted et = 0) ->
  exists s', add_item bs b tup size off s = Ok (tt, s') /\ writing s' b (page_with p tup size) /\
    wrote (index s) (index s') [mkWrite b off tup size] /\ mem s' = mem s /\ xlog s' = xlog s /\ nlen (index s') = nlen (index s).
Proof using Hfork.
  intros Hw Hs Hroom -> Hlive. destruct (writing_ok _ _ _ Hw) as [Hpok Hnext]. destruct Hw as [Hix Hl Hf Hp Hch].
  pose proof (page_with_put p tup size Hpok Hs Hroom) as Hput. set (off := PageGetMaxOffsetNumber p + 1) in *.
  pose proof (free_space_room p size Hpok Hs Hroom) as Hr.
  assert (Hadd : PageAddItem p tup size InvalidOffsetNumber false false = Ok (off, page_with p tup size)).
  { rewrite (PageAddItem_eq p tup size Hpok Hs), (proj2 (Z.leb_le _ _) Hr). unfold off. by rewrite (PageGetMaxOffsetNumber_eq _ Hpok). }
  set (p' := page_with p tup size) in *. set (s' := update_block MAIN_FORKNUM b p' s). exists s'.
  assert (Hblk : forall c, block (rd_main (index s')) c = if decide (c = b) then Some p' else block (rd_main (index s)) c)
    by (intros c; by apply (update_block_block MAIN_FORKNUM _ _ _ p)).
  assert (Hlen : nlen (index s') = nlen (index s)) by (unfold s'; simpl; by rewrite length_insert).
  assert (Ht : forall c o, tuple_at (index s') c o = if decide ((c, o) = (b, off)) then Some tup else tuple_at (index s) c o).
  { intros c o. unfold tuple_at at 1. rewrite Hblk. destruct (decide (c = b)) as [->|Hne].
    - destruct (decide (o = off)) as [->|Hno].
      + rewrite decide_True by done. by rewrite (pp_tuple _ _ _ _ Hput).
      + rewrite decide_False by congruence. rewrite (pp_others _ _ _ _ Hput o Hno). unfold tuple_at. by rewrite Hp.
    - rewrite decide_False by congruence. done. }
  assert (Hnone : tuple_at (index s) b off = None).
  { unfold tuple_at. rewrite Hp, page_tuple_past; [done|done|]. unfold off. lia. }
  assert (Hix' : index_ok (index s')).
  { split.
    - rewrite Hlen. apply (ix_size _ Hix).
    - intros c q Hc. rewrite Hblk. case_decide; [intros [= <-]; apply Hput|]. by apply (ix_pages _ Hix).
    - intros c q Hc. rewrite Hblk, Hlen. case_decide as E; [|by apply (ix_next _ Hix)].
      intros [= <-]. subst c. unfold nextblkno. rewrite (pp_opaque _ _ _ _ Hput). by apply (ix_next _ Hix).
    - intros c o et Hc. rewrite Ht. case_decide; [intros [= He] Hd; by rewrite (Hlive et He) in Hd|]. intros Hct Hd.
      destruct (ix_deleted _ Hix c o et Hc Hct Hd) as (H1 & nt & H2). split; [done|]. exists nt. rewrite Ht.
      rewrite decide_False; [done|]. intros [= E1 E2]. congruence. }
  split; [|split; [|split; [|done]]].
  - unfold add_item. rewrite Hfork. run (read_buffer_run MAIN_FORKNUM b p s Hp). run (lift_res_run _ s _ Hadd).
    rewrite Z.eqb_refl. run (lift_res_run (raise_if (negb true) ERR_failed_to_add_index_item) s tt eq_refl).
    by apply (write_buffer_run MAIN_FORKNUM b p).
  - split; try done; [by rewrite Hlen|by rewrite Hblk, decide_True|].
    eapply links_kept_reached; [|exact Hch]. split; [done|]. intros c q. rewrite Hblk. case_decide as E; [|by exists q].
    intros [= <-]. subst c. exists p. split; [done|]. apply (pp_opaque _ _ _ _ Hput).
  - split.
    + intros c o t Hc. rewrite Ht. case_decide as E; [|done]. injection E as -> ->. congruence.
    + intros w ->%list_elem_of_singleton. cbn [w_block w_offset w_tuple w_size]. split; [done|]. split; [done|].
      split; [by rewrite Ht, decide_True|]. exists p', (new_item p tup size).
      split; [by rewrite Hblk, decide_True|]. split; [|done]. unfold off. rewrite (PageGetMaxOffsetNumber_eq _ Hpok).
      apply PageGetItemId_ok. cbn. by apply list_lookup_middle.
    + intros c o t. rewrite Ht. case_decide as E; [|by left]. intros _. right. rewrite E. by left.
    + apply NoDup_singleton.
    + intros c o n (q & it & Hq & Hit & Hn). destruct (decide (c = b)) as [->|Hne].
      * rewrite Hp in Hq. injection Hq as <-. assert (o <> off) as Hno.
        { intros ->. apply PageGetItemId_lookup in Hit as [Ho Hit]. apply lookup_lt_Some in Hit. unfold off in *.
          rewrite (PageGetMaxOffsetNumber_eq _ Hpok) in *. lia. }
        destruct (pp_items _ _ _ _ Hput o it Hno Hit) as (it' & Hit' & Hl'). exists p', it'.
        split; [by rewrite Hblk, decide_True|]. split; [done|congruence].
      * exists q, it. split; [by rewrite Hblk, decide_False|done].
    + rewrite Hblk. unfold HNSW_METAPAGE_BLKNO. by rewrite decide_False by lia.
    + unfold s'. simpl. by destruct (index s).
Qed.

(** ** The two tuples of an element *)

#[local] Abbreviation m := (bs_m bs).
Context (Hm : HNSW_MIN_M <= m <= HNSW_MAX_M).

(** An element that can be written. *)
Record writable (el : HnswElementData) (v : Vector) : Prop := {
  wa_value : el_value el = Some v;
  wa_vector : Vector_ok v;
  wa_dim : dim v <= HNSW_MAX_DIM;
  wa_level : 0 <= el_level el <= HnswGetMaxLevel m
}.

(** Its element tuple, and the place for its neighbors. *)
Definition element_tuple (el : HnswElementData) (v : Vector) : HnswElementTupleData :=
  mkHnswElementTuple (el_level el) 0 (el_version el)
    (take 10 (el_heaptids el) ++ replicate (10 - length (el_heaptids el)) ItemPointerSetInvalid)
    (ItemPointerSet (el_neighborPage el) (el_neighborOffno el)) 0 v.
Definition element_writes (el : HnswElementData) (v : Vector) : list Write :=
  [mkWrite (el_blkno el) (el_offno el) (ElementTuple (element_tuple el v)) (HNSW_ELEMENT_TUPLE_SIZE (VARSIZE_ANY v));
   mkWrite (el_neighborPage el) (el_neighborOffno el) placeholder (HNSW_NEIGHBOR_TUPLE_SIZE (el_level el) m)].

Definition placed_as (el el' : HnswElementData) : Prop :=
  exists b off nb noff, el' = el_set_neighbortid nb noff (el_set_tid b off el).

Lemma writing_mem s b p l : writing s b p -> writing (with_mem l s) b p.
Proof. by intros []. Qed.

Lemma next_offset p : page_ok p -> OffsetNumberNext (PageGetMaxOffsetNumber p) = PageGetMaxOffsetNumber p + 1.
Proof.
  intros Hp. rewrite (PageGetMaxOffsetNumber_eq p Hp). pose proof (nitems_bound p Hp).
  unfold OffsetNumberNext. rewrite u16_small; lia.
Qed.

(** A new page when the last one has too little space. *)
Lemma append_if_run s b p (c : bool) : writing s b p -> nlen (index s) < InvalidBlockNumber ->
  exists s' b' p', (if c then HnswBuildAppendPage bs b else mret b) s = Ok (b', s') /\ writing s' b' p' /\
    wrote (index s) (index s') [] /\ mem s' = mem s /\ xlog s' = xlog s /\
    nlen (index s') = nlen (index s) + (if c then 1 else 0) /\
    (b', p') = (if c then (b + 1, HnswInitPage) else (b, p)).
Proof using Hfork.
  intros Hw Hsz. destruct c.
  - destruct (HnswBuildAppendPage_run s b p Hw Hsz) as (s' & E & Hw' & Hr & Hmem & Hx & Hl). by exists s', (b + 1), HnswInitPage.
  - exists s, b, p. split_and!; try done; [apply wrote_nothing|lia].
Qed.

Lemma page_space p : page_ok p -> PageGetFreeSpace p <= 8156.
Proof.
  intros [_ Hs Hl _ Hu _ _ _]. rewrite special_eq in Hs. unfold PageGetFreeSpace, SizeOfPageHeaderData, sizeof_ItemIdData in *. case_cmp; lia.
Qed.

Lemma space_after p tup size : page_ok p -> 0 < size -> MAXALIGN size = size -> size <= PageGetFreeSpace p ->
  PageGetFreeSpace (page_with p tup size) = Z.max 0 (PageGetFreeSpace p - size - sizeof_ItemIdData).
Proof.
  intros Hok Hs Ha Hf. pose proof (free_space_room p size Hok Hs ltac:(lia)) as Hr. pose proof (free_space_exact p Hok ltac:(lia)) as He.
  pose proof (page_with_free p tup size Hok Hs Hr) as Hw. unfold PageGetExactFreeSpace, PageGetFreeSpace, sizeof_ItemIdData in *.
  set (x := pd_upper p - pd_lower p) in *. set (y := pd_upper (page_with p tup size) - pd_lower (page_with p tup size)) in *.
  destruct (Z.ltb_spec x 4), (Z.ltb_spec y 4), (Z.ltb_spec x 0), (Z.ltb_spec y 0); lia.
Qed.

Lemma write_element_run s b p e el v : writing s b p -> mem s !! e = Some el -> writable el v ->
  nlen (index s) + 2 <= InvalidBlockNumber ->
  exists s' b' p' el', write_element bs e b s = Ok (b', s') /\ writing s' b' p' /\ placed_as el el' /\
    mem s' = <[e := el']> (mem s) /\ xlog s' = xlog s /\ nlen (index s') <= nlen (index s) + 2 /\
    wrote (index s) (index s') (element_writes el' v).
Proof using Hfork Hm.
  intros Hw He [Wv Wvec Wd Wl] Hsz. unfold write_element. run (load_element_run _ _ _ He).
  destruct (element_sizes_run m el v Wv Wvec Wd Hm Wl) as (sz & Esz & [[K1 K2] [K3 K4] K5] & Hes & Hns).
  assert (Hmax : maxSize sz = 8156).
  { unfold tuple_sizes in Esz. apply res_bind_ok in Esz as (? & _ & Esz). injection Esz as <-. exact HNSW_MAX_SIZE_eq. }
  run (lift_res_run _ s _ Esz).
  assert (Hno : (HNSW_TUPLE_ALLOC_SIZE <? etupSize sz) = false) by (apply Z.ltb_ge; unfold HNSW_TUPLE_ALLOC_SIZE, BLCKSZ; lia).
  rewrite Hno. run (lift_res_run (raise_if false ERR_index_tuple_too_large) s tt eq_refl).
  assert (Het : HnswSetElementTuple el = Ok (mkHnswElementTuple (el_level el) 0 (el_version el)
    (take 10 (el_heaptids el) ++ replicate (10 - length (el_heaptids el)) ItemPointerSetInvalid) (ItemPointerSet 0 0) 0 v))
    by (unfold HnswSetElementTuple; by rewrite Wv).
  run (lift_res_run _ s _ Het). rewrite Hfork. run (read_buffer_run MAIN_FORKNUM b p s (wg_page _ _ _ Hw)).
  set (c1 := (PageGetFreeSpace p <? etupSize sz) || (combinedSize sz <=? maxSize sz) && (PageGetFreeSpace p <? combinedSize sz)).
  destruct (append_if_run s b p c1 Hw ltac:(lia)) as (s1 & b1 & p1 & E1 & Hw1 & R1 & M1 & X1 & L1 & Hbp1).
  run E1. run (read_buffer_run MAIN_FORKNUM b1 p1 s1 (wg_page _ _ _ Hw1)).
  destruct (writing_ok _ _ _ Hw1) as [Hp1 _]. destruct init_page_free as [Hi1 Hi2]. pose proof (page_space p1 Hp1) as Hsp1.
  assert (Hfree1 : etupSize sz <= PageGetFreeSpace p1 /\ (combinedSize sz <= 8156 -> combinedSize sz <= PageGetFreeSpace p1)).
  { unfold c1 in Hbp1. rewrite Hmax in Hbp1. destruct (Z.ltb_spec (PageGetFreeSpace p) (etupSize sz)) as [|Hge]; cbn [orb] in Hbp1.
    { injection Hbp1 as -> ->. rewrite Hi1. lia. }
    destruct (Z.leb_spec (combinedSize sz) 8156); cbn [andb] in Hbp1.
    - destruct (Z.ltb_spec (PageGetFreeSpace p) (combinedSize sz)); injection Hbp1 as -> ->; rewrite ?Hi1; lia.
    - injection Hbp1 as -> ->. lia. }
  destruct Hfree1 as [Hf1 Hf2]. cbv zeta. rewrite (next_offset p1 Hp1), Hmax. set (off := PageGetMaxOffsetNumber p1 + 1).
  set (fits := combinedSize sz <=? 8156). set (nb := if fits then b1 else b1 + 1). set (noff := if fits then off + 1 else 1).
  assert (Hpl : (if fits then (b1, OffsetNumberNext off) else (b1 + 1, FirstOffsetNumber)) = (nb, noff)).
  { unfold nb, noff. destruct fits; [|done]. f_equal. unfold off. rewrite (PageGetMaxOffsetNumber_eq p1 Hp1).
    pose proof (nitems_bound p1 Hp1). unfold OffsetNumberNext. rewrite u16_small; lia. }
  rewrite Hpl. set (el' := el_set_neighbortid nb noff (el_set_tid b1 off el)).
  assert (He1 : mem s1 !! e = Some el) by (by rewrite M1). set (s2 := with_mem (<[e := el']> (mem s1)) s1).
  assert (E2 : modify_element e (fun e => el_set_neighbortid nb noff (el_set_tid b1 off e)) s1 = Ok (tt, s2)).
  { unfold modify_element. run (load_element_run _ _ _ He1). unfold store_element. by rewrite He1. }
  run E2. pose proof (writing_mem s1 b1 p1 (<[e := el']> (mem s1)) Hw1) as Hw2. fold s2 in Hw2.
  set (et := et_set_neighbortid _ _).
  destruct (add_item_run s2 b1 p1 (ElementTuple et) (etupSize sz) off Hw2) as (s3 & E3 & Hw3 & R3 & M3 & X3 & L3); [lia|lia|done|by intros ? [= <-]|].
  run E3. set (p3 := page_with p1 (ElementTuple et) (etupSize sz)) in *. run (read_buffer_run MAIN_FORKNUM b1 p3 s3 (wg_page _ _ _ Hw3)).
  destruct (writing_ok _ _ _ Hw3) as [Hp3 _].
  assert (Hsp3 : PageGetFreeSpace p3 = Z.max 0 (PageGetFreeSpace p1 - etupSize sz - sizeof_ItemIdData)) by (apply space_after; lia || done).
  assert (Hmax3 : PageGetMaxOffsetNumber p3 = off) by (unfold p3; rewrite (pp_max _ _ _ _ (page_with_put p1 (ElementTuple et) (etupSize sz) Hp1 ltac:(lia) ltac:(lia))); lia).
  change (index s2) with (index s1) in *. change (nlen (index s2)) with (nlen (index s1)) in *.
  set (c2 := PageGetFreeSpace p3 <? ntupSize sz).
  destruct (append_if_run s3 b1 p3 c2 Hw3) as (s4 & b4 & p4 & E4 & Hw4 & R4 & M4 & X4 & L4 & Hbp4); [destruct c1; lia|].
  run E4.
  assert (Hc2 : c2 = negb fits).
  { unfold c2, fits, sizeof_ItemIdData in *. rewrite Hsp3. destruct (Z.leb_spec (combinedSize sz) 8156) as [Hle|Hgt].
    - apply Z.ltb_ge. specialize (Hf2 Hle). lia.
    - apply Z.ltb_lt. lia. }
  assert (Hplace : b4 = nb /\ PageGetMaxOffsetNumber p4 + 1 = noff /\ ntupSize sz <= PageGetFreeSpace p4).
  { rewrite Hc2 in Hbp4. unfold nb, noff, fits, sizeof_ItemIdData in *. destruct (Z.leb_spec (combinedSize sz) 8156) as [Hle|Hgt];
      injection Hbp4 as -> ->; rewrite ?Hmax3, ?Hsp3, ?Hi1, ?Hi2; [specialize (Hf2 Hle)|]; split_and!; done || lia. }
  destruct Hplace as (Hb4 & Hoff4 & Hf4).
  destruct (add_item_run s4 b4 p4 placeholder (ntupSize sz) noff Hw4) as (s5 & E5 & Hw5 & R5 & M5 & X5 & L5); [lia|lia|lia|done|].
  run E5. exists s5, b4, (page_with p4 placeholder (ntupSize sz)), el'. split; [done|]. split; [done|]. split; [by exists b1, off, nb, noff|].
  split; [rewrite M5, M4, M3; simpl; by rewrite M1|]. split; [rewrite X5, X4, X3; simpl; by rewrite X1|].
  split; [rewrite L5, L4, L3, L1; destruct c1, c2; lia|].
  pose proof (wrote_app _ _ _ _ _ (wrote_app _ _ _ _ _ (wrote_app _ _ _ _ _ R1 R3) R4) R5) as HR. simpl in HR.
  unfold element_writes. change (el_level el') with (el_level el). rewrite <- Hes, <- Hns. rewrite Hb4 in HR. exact HR.
Qed.

(** ** All elements *)

(** What the element tuples of a list of elements are. *)
Definition writes_of (mem1 : gmap addr HnswElementData) (a : addr) : list Write :=
  match mem1 !! a with
  | Some el => match el_value el with Some v => element_writes el v | None => [] end
  | None => []
  end.

(** The elements of [l] have got their places. *)
Record elements_placed (l : list addr) (mem0 mem1 : gmap addr HnswElementData) : Prop := {
  pl_others a : a ∉ l -> mem1 !! a = mem0 !! a;
  pl_placed a el : a ∈ l -> mem0 !! a = Some el -> exists el', mem1 !! a = Some el' /\ placed_as el el'
}.

Lemma write_elements_run l : forall n hd s b p, chain (mem s) hd l -> NoDup l ->
  (forall a, a ∈ l -> exists el v, mem s !! a = Some el /\ writable el v) -> writing s b p ->
  nlen (index s) + 2 * Z.of_nat (length l) <= InvalidBlockNumber -> (length l <= n)%nat ->
  exists s' b' p', write_elements bs NULL n hd b s = Ok (b', s') /\ writing s' b' p' /\ xlog s' = xlog s /\
    nlen (index s') <= nlen (index s) + 2 * Z.of_nat (length l) /\ elements_placed l (mem s) (mem s') /\
    wrote (index s) (index s') (l ≫= writes_of (mem s')).
Proof using Hfork Hm.
  induction l as [|a l IH]; intros n hd s b p Hc Hnd Hok Hw Hsz Hn.
  - simpl in Hc. subst hd. exists s, b, p. split; [by destruct n|]. split; [done|]. split; [done|]. split; [simpl; lia|].
    split; [split; [done|by intros ? ? ?%elem_of_nil]|apply wrote_nothing].
  - destruct Hc as (-> & Hnull & el & Hel & Hc). apply list.NoDup_cons in Hnd as [Hna Hnd].
    destruct (Hok a ltac:(left)) as (el0 & v & Hel0 & Hwa). rewrite Hel in Hel0. injection Hel0 as <-. simpl in Hsz, Hn.
    destruct (write_element_run s b p a el v Hw Hel Hwa ltac:(lia)) as (s1 & b1 & p1 & el' & E1 & Hw1 & Hpl & M1 & X1 & L1 & R1).
    assert (Hsame : forall c, c ≠ a -> mem s1 !! c = mem s !! c) by (intros c Hca; by rewrite M1, lookup_insert_ne).
    destruct n as [|n]; [lia|]. destruct (IH n (el_next el) s1 b1 p1) as (s2 & b2 & p2 & E2 & Hw2 & X2 & L2 & [P1 P2] & R2); try done.
    + rewrite M1. by apply chain_insert.
    + intros c Hca. destruct (Hok c ltac:(by right)) as (elc & vc & Hc1 & Hc2). exists elc, vc. split; [|done].
      rewrite Hsame; [done|]. by intros ->.
    + lia.
    + lia.
    + assert (Ha2 : mem s2 !! a = Some el') by (rewrite P1 by done; by rewrite M1, lookup_insert_eq).
      exists s2, b2, p2. split.
      { assert (Hn0 : HnswPtrIsNull NULL a = false) by (by apply N.eqb_neq). cbn [write_elements]. rewrite Hn0. cbv zeta. change (HnswPtrAccess NULL a) with a.
        run (load_element_run _ _ _ Hel). by run E1. }
      split; [done|]. split; [congruence|]. split; [simpl; lia|]. split.
      * split.
        -- intros c Hca. rewrite P1 by set_solver. apply Hsame. set_solver.
        -- intros c elc [->|Hca]%elem_of_cons Hc1; [rewrite Hel in Hc1; injection Hc1 as <-; by exists el'|].
           apply P2; [done|]. rewrite Hsame; [done|]. by intros ->.
      * rewrite bind_cons. eapply wrote_app; [|exact R2]. unfold writes_of at 1. rewrite Ha2.
        destruct Hpl as (pb & po & pnb & pno & ->). cbn [el_value el_set_neighbortid el_set_tid]. by rewrite (wa_value _ _ Hwa).
Qed.
End Writes.

(** ** The neighbor tuples *)

Section Neighbors.
Context (bs : BuildSettings) (Hfork : bs_forkNum bs = MAIN_FORKNUM) (Hm : HNSW_MIN_M <= bs_m bs <= HNSW_MAX_M).

#[local] Abbreviation m := (bs_m bs).
#[local] Abbreviation nplace el := (el_neighborPage el, el_neighborOffno el).

Definition neighbor_tuple (s : Backend) (el : HnswElementData) (ns : list HnswNeighborArray) : HnswNeighborTupleData :=
  mkHnswNeighborTuple (el_version el) ((el_level el + 2) * m) (all_slots (layer_padded NULL m s ns) (Z.to_nat (el_level el))).

(** An element whose neighbor tuple can be written. *)
Record neighbors_placed (s : Backend) (el : HnswElementData) (ns : list HnswNeighborArray) : Prop := {
  np_neighbors : neighbors_ok NULL m s el ns;
  np_level : 0 <= el_level el <= HnswGetMaxLevel m;
  np_block : 1 <= el_neighborPage el;
  np_tuple : exists o, tuple_at (index s) (el_neighborPage el) (el_neighborOffno el) = Some (NeighborTuple o);
  np_length : item_length (index s) (el_neighborPage el) (el_neighborOffno el) (HNSW_NEIGHBOR_TUPLE_SIZE (el_level el) m)
}.

Lemma write_neighbors_run s e el ns : index_ok (index s) -> mem s !! e = Some el -> neighbors_placed s el ns ->
  exists s', write_neighbors bs NULL e s = Ok (tt, s') /\
    tuple_replaced s s' (el_neighborPage el) (el_neighborOffno el) (NeighborTuple (neighbor_tuple s el ns)).
Proof using Hfork Hm.
  intros Hix He [Hns Hl Hb1 Ht (p & it & Hp & Hit & Hlen)]. destruct (maxlevel_bound m _ Hm Hl) as [Hcount _]. unfold HNSW_MIN_M in Hm.
  pose proof (neighbor_size_bound m _ Hm Hl) as Hsz. unfold write_neighbors. run (load_element_run _ _ _ He). rewrite Hfork.
  assert (Hrb : ReadBufferFork MAIN_FORKNUM (el_neighborPage el) s = Ok (el_neighborPage el, s)) by (unfold ReadBufferFork; simpl; by rewrite Hp).
  run Hrb. run (HnswSetNeighborTuple_run NULL m s e el ns He Hns ltac:(lia) ltac:(lia)).
  run (read_buffer_run MAIN_FORKNUM _ p s Hp).
  destruct (overwritten_replaced s (el_neighborPage el) p (el_neighborOffno el) it (NeighborTuple (neighbor_tuple s el ns)) _ Hix Hb1 Hp Hit Hlen)
    as (p' & E & Hr); [lia|].
  run (lift_res_run _ s _ E). run (lift_res_run (raise_if (negb true) ERR_failed_to_add_index_item) s tt eq_refl).
  exists (update_block MAIN_FORKNUM (el_neighborPage el) p' s). split; [by eapply write_buffer_run|done].
Qed.

Lemma neighbor_tuple_mem s s1 el ns : mem s1 = mem s -> neighbor_tuple s1 el ns = neighbor_tuple s el ns.
Proof using Type. destruct s, s1. simpl. by intros ->. Qed.

Lemma neighbors_ok_mem s s1 el ns : mem s1 = mem s -> neighbors_ok NULL m s el ns -> neighbors_ok NULL m s1 el ns.
Proof using Type. intros Hmem [N1 N2 N3 N4]. split; try done. by rewrite Hmem. Qed.

(** The neighbor tuples of the elements of [l] are written. *)
Record neighbors_written (l : list addr) (s s' : Backend) : Prop := {
  nw_mem : mem s' = mem s;
  nw_xlog : xlog s' = xlog s;
  nw_index : index_ok (index s');
  nw_tuple a el ns : a ∈ l -> mem s !! a = Some el -> el_neighbors el = Some ns ->
    tuple_at (index s') (el_neighborPage el) (el_neighborOffno el) = Some (NeighborTuple (neighbor_tuple s el ns));
  nw_others b off : (forall a el, a ∈ l -> mem s !! a = Some el -> (b, off) <> nplace el) ->
    tuple_at (index s') b off = tuple_at (index s) b off;
  nw_meta meta : meta_ok (index s) meta -> meta_ok (index s') meta;
  nw_items : items_kept (index s) (index s');
  nw_chain : all_reached (index s) -> all_reached (index s');
  nw_length : nlen (index s') = nlen (index s);
  nw_rel : index s' = with_pages (index s) MAIN_FORKNUM (rd_main (index s'))
}.

Lemma WriteNeighborTuples_run l : forall n hd s, chain (mem s) hd l -> NoDup l -> index_ok (index s) ->
  (forall a el, a ∈ l -> mem s !! a = Some el -> exists ns, neighbors_placed s el ns) ->
  (forall a a' el el', a ∈ l -> a' ∈ l -> mem s !! a = Some el -> mem s !! a' = Some el' -> nplace el = nplace el' -> a = a') ->
  (length l <= n)%nat ->
  exists s', WriteNeighborTuples bs NULL n hd s = Ok (tt, s') /\ neighbors_written l s s'.
Proof using Hfork Hm.
  induction l as [|a l IH]; intros n hd s Hc Hnd Hix Hok Hinj Hn.
  - simpl in Hc. subst hd. exists s. split; [by destruct n|]. split; try done; [by intros ? ? ? ?%elem_of_nil|by destruct (index s)].
  - destruct Hc as (-> & Hnull & el & Hel & Hc). apply list.NoDup_cons in Hnd as [Hna Hnd]. simpl in Hn.
    destruct (Hok a el ltac:(left) Hel) as (ns & Hpl). destruct (write_neighbors_run s a el ns Hix Hel Hpl) as (s1 & E1 & Hr).
    pose proof (tr_items _ _ _ _ _ Hr) as Hi.
    pose proof (tr_mem _ _ _ _ _ Hr) as M1. destruct (np_tuple _ _ _ Hpl) as (o & Ho).
    pose proof (replaced_neighbor_index_ok _ _ _ _ _ _ Hr Ho Hix) as Hix1. pose proof (replaced_tuple _ _ _ _ _ Hr) as Ht.
    destruct n as [|n]; [lia|]. destruct (IH n (el_next el) s1) as (s2 & E2 & [W1 W2 W3 W4 W5 W6 Wi Wc W7 W8]); rewrite ?M1; try done; try lia.
    + intros c elc Hca Hcl. destruct (Hok c elc ltac:(by right) Hcl) as (nsc & [P1 P2 P3 (o' & P4) P5]). exists nsc.
      split; try done; [by apply (neighbors_ok_mem s)| |by apply Hi]. rewrite Ht. case_decide; [by eexists|by exists o'].
    + intros c c' elc elc' Hca Hca'. apply Hinj; by right.
    + rewrite M1 in W1. assert (Hapart : forall c elc, c ∈ l -> mem s !! c = Some elc -> nplace elc <> nplace el).
      { intros c elc Hcl Hce Heq. apply Hna. rewrite <- (Hinj c a elc el); try done; [by right|by left]. }
      exists s2. split.
      { assert (Hn0 : HnswPtrIsNull NULL a = false) by (by apply N.eqb_neq). cbn [WriteNeighborTuples]. rewrite Hn0. cbv zeta.
        change (HnswPtrAccess NULL a) with a. run (load_element_run _ _ _ Hel). by run E1. }
      split.
      * done.
      * rewrite W2. apply Hr.
      * done.
      * intros c elc nsc [->|Hcl]%elem_of_cons Hce Hnsc.
        -- rewrite Hel in Hce. injection Hce as <-. rewrite W5.
           { rewrite Ht, decide_True by done. pose proof (nk_neighbors _ _ _ _ _ (np_neighbors _ _ _ Hpl)) as Hns. congruence. }
           intros c elc Hcl Hce. rewrite M1 in Hce. intros Heq. by apply (Hapart c elc).
        -- rewrite (W4 c elc nsc) by (done || by rewrite M1). by rewrite (neighbor_tuple_mem s s1).
      * intros b off Hb. rewrite W5.
        -- rewrite Ht, decide_False; [done|]. apply (Hb a el); [by left|done].
        -- intros c elc Hcl Hce. rewrite M1 in Hce. apply (Hb c elc); [by right|done].
      * intros meta Hmeta. apply W6. by eapply replaced_meta.
      * by etrans.
      * intros Hall. apply Wc. by eapply replaced_reached.
      * rewrite W7. by eapply replaced_length.
      * rewrite W8, (tr_rel _ _ _ _ _ Hr) at 1. by destruct (index s).
Qed.
End Neighbors.

(** ** A graph on the pages *)

(** An element of the list with a level of at least [lc]. *)
Definition in_layer (mem0 : gmap addr HnswElementData) (l : list addr) (lc : Z) (a : addr) : Prop :=
  a ∈ l /\ exists el, mem0 !! a = Some el /\ lc <= el_level el.

Definition tid_in (mem0 : gmap addr HnswElementData) (a : addr) : ItemPointerData :=
  match mem0 !! a with Some el => ItemPointerSet (el_blkno el) (el_offno el) | None => ItemPointerSetInvalid end.

Definition rows_in (mem0 : gmap addr HnswElementData) (a : addr) : list (ItemPointerData * Vector) :=
  match mem0 !! a with
  | Some el => match el_value el with Some v => (fun t => (t, v)) <$> el_heaptids el | None => [] end
  | None => []
  end.

Section Pages.
Context (bs : BuildSettings) (Hm : HNSW_MIN_M <= bs_m bs <= HNSW_MAX_M) (good : Vector -> Prop).

#[local] Abbreviation m := (bs_m bs).

(** What an element of a complete graph looks like in memory. *)
Record complete (mem0 : gmap addr HnswElementData) (l : list addr) (el : HnswElementData) (v : Vector)
    (ns : list HnswNeighborArray) : Prop := {
  cm_writable : writable bs el v;
  cm_good : good v;
  cm_heaptids : Forall (fun t => ItemPointerIsValid t = true) (el_heaptids el) /\ (0 < length (el_heaptids el) <= 10)%nat;
  cm_neighbors : el_neighbors el = Some ns;
  cm_layers : Z.of_nat (length ns) = el_level el + 1;
  cm_array lc a : ns !! lc = Some a -> na_length a <= HnswGetLayerM m (Z.of_nat lc) /\
    forall hc, hc ∈ na_items a -> in_layer mem0 l (Z.of_nat lc) (hc_element hc)
}.

Lemma complete_neighbors_ok s l el v ns : complete (mem s) l el v ns -> neighbors_ok NULL m s el ns.
Proof using Type.
  intros [W _ _ Hn Hl Ha]. split; [apply (wa_level _ _ _ W)|done|done|]. intros lc a Hlc. destruct (Ha lc a Hlc) as [H1 H2].
  split; [done|]. intros hc Hhc. destruct (H2 hc Hhc) as (_ & e & He & _). by exists e.
Qed.

(** The elements of [l] and their tuples. *)
Record graph_on_pages (s : Backend) (l : list addr) : Prop := {
  gp_index : index_ok (index s);
  gp_element a : a ∈ l -> exists el v ns, mem s !! a = Some el /\ complete (mem s) l el v ns /\
    1 <= el_blkno el /\ 1 <= el_neighborPage el /\
    tuple_at (index s) (el_blkno el) (el_offno el) = Some (ElementTuple (element_tuple el v)) /\
    tuple_at (index s) (el_neighborPage el) (el_neighborOffno el) = Some (NeighborTuple (neighbor_tuple bs s el ns));
  gp_only b off et : 1 <= b -> tuple_at (index s) b off = Some (ElementTuple et) ->
    exists a el, a ∈ l /\ mem s !! a = Some el /\ (b, off) = (el_blkno el, el_offno el);
  gp_places a a' el el' : a ∈ l -> a' ∈ l -> mem s !! a = Some el -> mem s !! a' = Some el' ->
    (el_blkno el, el_offno el) = (el_blkno el', el_offno el') -> a = a';
  gp_nplaces a a' el el' : a ∈ l -> a' ∈ l -> mem s !! a = Some el -> mem s !! a' = Some el' ->
    (el_neighborPage el, el_neighborOffno el) = (el_neighborPage el', el_neighborOffno el') -> a = a';
  gp_size a el : a ∈ l -> mem s !! a = Some el ->
    item_length (index s) (el_neighborPage el) (el_neighborOffno el) (HNSW_NEIGHBOR_TUPLE_SIZE (el_level el) m);
  gp_chain : all_reached (index s)
}.

Definition graph_tids (s : Backend) (l : list addr) : gset ItemPointerData := list_to_set (tid_in (mem s) <$> l).

Section OnPages.
Context (s : Backend) (l : list addr) (Hg : graph_on_pages s l).

Lemma on_page a el : a ∈ l -> mem s !! a = Some el ->
  exists v ns, complete (mem s) l el v ns /\ ItemPointer_ok (tid_in (mem s) a) /\ ItemPointerIsValid (tid_in (mem s) a) = true /\
    place_of (tid_in (mem s) a) = (el_blkno el, el_offno el) /\ 1 <= el_blkno el /\ BlockNumber_ok (el_blkno el) /\ OffsetNumber_ok (el_offno el) /\
    element_at (index s) (tid_in (mem s) a) = Some (element_tuple el v) /\
    neighbor_of (element_tuple el v) = (el_neighborPage el, el_neighborOffno el) /\ 1 <= el_neighborPage el /\
    neighbor_at (index s) (et_neighbortid (element_tuple el v)) = Some (neighbor_tuple bs s el ns).
Proof using Hg.
  intros Ha Hel. destruct (gp_element _ _ Hg a Ha) as (el0 & v & ns & Hel0 & Hc & B1 & B2 & T1 & T2). rewrite Hel in Hel0. injection Hel0 as <-.
  destruct (tuple_place_ok _ _ _ _ (gp_index _ _ Hg) B1 T1) as (P1 & P2 & P3).
  destruct (tuple_place_ok _ _ _ _ (gp_index _ _ Hg) B2 T2) as (Q1 & Q2 & Q3).
  assert (Htid : tid_in (mem s) a = ItemPointerSet (el_blkno el) (el_offno el)) by (unfold tid_in; by rewrite Hel).
  assert (Hp : place_of (tid_in (mem s) a) = (el_blkno el, el_offno el)).
  { rewrite Htid. unfold place_of. by destruct (ItemPointerGet_Set (el_blkno el) (el_offno el) P1) as [-> ->]. }
  assert (Hn : neighbor_of (element_tuple el v) = (el_neighborPage el, el_neighborOffno el)).
  { unfold neighbor_of, element_tuple. cbn [et_neighbortid].
    by destruct (ItemPointerGet_Set (el_neighborPage el) (el_neighborOffno el) Q1) as [-> ->]. }
  exists v, ns. split; [done|]. split; [rewrite Htid; by apply ItemPointerSet_ok|].
  split; [rewrite Htid; unfold ItemPointerIsValid; simpl; destruct (Z.eqb_spec (el_offno el) 0); [lia|done]|].
  split; [done|]. split; [done|]. split; [done|]. split; [done|].
  split; [apply element_at_place; by rewrite Hp|]. split; [done|]. split; [done|]. apply neighbor_at_place.
  change (place_of (et_neighbortid (element_tuple el v))) with (neighbor_of (element_tuple el v)). by rewrite Hn.
Qed.

Lemma tids_elem k : k ∈ graph_tids s l <-> exists a el, a ∈ l /\ mem s !! a = Some el /\ k = tid_in (mem s) a.
Proof using Hg.
  unfold graph_tids. rewrite elem_of_list_to_set, list_elem_of_fmap. split.
  - intros (a & -> & Ha). destruct (gp_element _ _ Hg a Ha) as (el & _ & _ & Hel & _). by exists a, el.
  - intros (a & el & Ha & _ & ->). by exists a.
Qed.

Lemma in_layer_tid lc a : in_layer (mem s) l lc a -> tid_in (mem s) a ∈ layer (index s) (graph_tids s l) lc.
Proof using Hg.
  intros (Ha & el & Hel & Hl). apply elem_of_layer. split; [apply tids_elem; by exists a, el|].
  destruct (on_page a el Ha Hel) as (v & ns & _ & _ & _ & _ & _ & _ & _ & He & _). by exists (element_tuple el v).
Qed.

(** An element tuple of the pages is one of a complete element. *)
Lemma only_elements b off et : 1 <= b -> tuple_at (index s) b off = Some (ElementTuple et) ->
  exists a el v ns, a ∈ l /\ mem s !! a = Some el /\ complete (mem s) l el v ns /\ et = element_tuple el v /\
    (b, off) = (el_blkno el, el_offno el) /\ neighbor_of et = (el_neighborPage el, el_neighborOffno el) /\
    1 <= el_neighborPage el /\ neighbor_at (index s) (et_neighbortid et) = Some (neighbor_tuple bs s el ns).
Proof using Hg.
  intros Hb Ht. destruct (gp_only _ _ Hg b off et Hb Ht) as (a & el & Ha & Hel & Hp).
  destruct (on_page a el Ha Hel) as (v & ns & Hc & _ & _ & Hpl & _ & _ & _ & He & Hn & Hn1 & Hna).
  assert (et = element_tuple el v) as ->.
  { apply element_at_place in He. rewrite Hpl, <- Hp in He. simpl in He. congruence. }
  by exists a, el, v, ns.
Qed.

Lemma neighbor_slots el v ns : complete (mem s) l el v ns ->
  Z.of_nat (length (nt_indextids (neighbor_tuple bs s el ns))) = (el_level el + 2) * m /\
  (forall lc t, (lc <= Z.to_nat (el_level el))%nat -> t ∈ layer_padded NULL m s ns lc ->
     t = ItemPointerSetInvalid \/ t ∈ layer (index s) (graph_tids s l) (Z.of_nat lc)).
Proof using Hg Hm.
  intros Hc. pose proof (complete_neighbors_ok s l el v ns Hc) as Hn. pose proof (wa_level _ _ _ (cm_writable _ _ _ _ _ Hc)) as Hl.
  unfold HNSW_MIN_M in Hm. split.
  - cbn [neighbor_tuple nt_indextids].
    rewrite (length_all_slots m _ ltac:(lia) (fun lc => length_layer_padded NULL m s el ns lc Hn ltac:(lia))). lia.
  - intros lc t Hlc [->|(hc & Hhc & ->)]%elem_of_padded; [by left|right]. unfold layer_items in Hhc.
    destruct (ns !! lc) as [a|] eqn:E; [|by apply elem_of_nil in Hhc]. destruct (cm_array _ _ _ _ _ Hc lc a E) as [_ Hin].
    exact (in_layer_tid _ _ (Hin hc Hhc)).
Qed.

Lemma graph_pages_wf : pages_wf (index s) m good (graph_tids s l).
Proof using Hg Hm.
  split.
  - done.
  - apply Hg.
  - split.
    + intros b off et Hb Ht. destruct (only_elements b off et Hb Ht) as (a & el & v & ns & _ & _ & _ & -> & _).
      apply lookup_lt_is_Some. simpl. rewrite length_app, length_take, length_replicate. lia.
    + intros b off et Hb Ht. destruct (only_elements b off et Hb Ht) as (a & el & v & ns & _ & _ & Hc & -> & _ & Hn & Hn1 & Hna).
      pose proof (f_equal fst Hn) as N1. unfold has_neighbors. split; [exact (eq_ind_r (fun x => 1 <= x) Hn1 N1)|]. eexists.
      split; [exact (proj1 (neighbor_at_place _ _ _) Hna)|]. apply Z.eq_le_incl. symmetry. apply (neighbor_slots el v ns Hc).
    + intros b off et b' off' et' Hb Hb' Ht Ht' E1 E2.
      destruct (only_elements b off et Hb Ht) as (a & el & v & ns & Ha & Hel & _ & -> & Hp & Hn & _).
      destruct (only_elements b' off' et' Hb' Ht') as (a' & el' & v' & ns' & Ha' & Hel' & _ & -> & Hp' & Hn' & _).
      assert (a = a') as <-. { apply (gp_nplaces _ _ Hg a a' el el'); try done. rewrite <- Hn, <- Hn'. unfold neighbor_of. congruence. }
      congruence.
  - intros k (a & el & Ha & Hel & ->)%tids_elem. destruct (on_page a el Ha Hel) as (v & ns & _ & Hok & _ & Hp & Hb & _). split; [done|].
    apply (f_equal fst) in Hp. simpl in Hp. lia.
  - intros k (a & el & Ha & Hel & ->)%tids_elem.
    destruct (on_page a el Ha Hel) as (v & ns & Hc & Hok & _ & Hp & Hb & _ & _ & He & Hn & Hn1 & Hna).
    exists (element_tuple el v), (neighbor_tuple bs s el ns). destruct (neighbor_slots el v ns Hc) as [Hlen Hsl].
    pose proof (complete_neighbors_ok s l el v ns Hc) as Hnok. pose proof (wa_level _ _ _ (cm_writable _ _ _ _ _ Hc)) as Hl.
    assert (Hm0 : 0 <= m) by (unfold HNSW_MIN_M in Hm; lia).
    destruct (cm_heaptids _ _ _ _ _ Hc) as [Hval Hh10]. split; try done.
    + apply list.Forall_forall. intros t (lc & Hlc & Ht)%elem_of_all_slots. destruct (Hsl lc t Hlc Ht) as [->|[Hk _]%elem_of_layer].
      * by vm_compute.
      * apply tids_elem in Hk as (a' & el' & Ha' & Hel' & ->). by destruct (on_page a' el' Ha' Hel') as (? & ? & _ & ? & _).
    + cbn [element_tuple et_heaptids]. rewrite take_ge by lia. split; [rewrite length_app, length_replicate; lia|].
      by exists (el_heaptids el).
    + apply (cm_good _ _ _ _ _ Hc).
    + intros lc t Hlc Ht Hv. unfold layer_slots in Ht. cbn [element_tuple et_level neighbor_tuple nt_indextids] in Hlc, Ht.
      pose proof (layer_of_all_slots m (layer_padded NULL m s ns) Hm0 (fun lc => length_layer_padded NULL m s el ns lc Hnok Hm0)
        (Z.to_nat (el_level el)) (Z.to_nat lc) ltac:(lia)) as Hlay. rewrite !Z2Nat.id in Hlay by lia. rewrite Hlay in Ht.
      destruct (Hsl (Z.to_nat lc) t ltac:(lia) Ht) as [->|HE]; [done|]. by rewrite Z2Nat.id in HE by lia.
    + change (item_length (index s) (neighbor_of (element_tuple el v)).1 (neighbor_of (element_tuple el v)).2 (HNSW_NEIGHBOR_TUPLE_SIZE (el_level el) m)).
      rewrite Hn. by apply (gp_size _ _ Hg a).
  - intros b off et Hb Ht _. destruct (only_elements b off et Hb Ht) as (a & el & v & ns & Ha & Hel & _ & _ & Hp & _).
    apply tids_elem. exists a, el. split; [done|]. split; [done|]. unfold tid_in. rewrite Hel. congruence.
  - intros b off et Hb Ht. destruct (only_elements b off et Hb Ht) as (a & el & v & ns & _ & _ & _ & -> & _). by intros Hd.
  - apply (gp_chain _ _ Hg).
Qed.

(** The rows of the index are those of the elements. *)
Lemma graph_heap_tids a el : a ∈ l -> mem s !! a = Some el -> exists v, el_value el = Some v /\ el_heaptids el <> [] /\
  heap_tids (index s) (tid_in (mem s) a) = el_heaptids el /\ rows_at (index s) (tid_in (mem s) a) = rows_in (mem s) a.
Proof using Hg.
  intros Ha Hel. destruct (on_page a el Ha Hel) as (v & ns & Hc & _ & _ & _ & _ & _ & _ & He & _).
  destruct (cm_heaptids _ _ _ _ _ Hc) as [Hval Hh]. pose proof (wa_value _ _ _ (cm_writable _ _ _ _ _ Hc)) as Hv.
  assert (Ht : heap_tids (index s) (tid_in (mem s) a) = el_heaptids el).
  { unfold heap_tids. rewrite He. cbn [element_tuple et_heaptids]. rewrite take_ge by lia. by apply valid_prefix_padded. }
  exists v. split; [done|]. split; [by destruct (el_heaptids el); simpl in Hh; [lia|]|]. split; [done|].
  unfold rows_at, rows_in. by rewrite He, Hel, Hv, Ht.
Qed.

Lemma graph_held : all_held (index s) (graph_tids s l).
Proof using Hg.
  intros k (a & el & Ha & Hel & ->)%tids_elem. by destruct (graph_heap_tids a el Ha Hel) as (v & _ & Hne & -> & _).
Qed.

Lemma graph_index_rows : NoDup l -> index_rows (index s) (graph_tids s l) ≡ₚ l ≫= rows_in (mem s).
Proof using Hg.
  intros Hnd. unfold index_rows, graph_tids.
  assert (Hd : NoDup (tid_in (mem s) <$> l)).
  { apply NoDup_fmap_2_strong; [|done]. intros a a' Ha Ha' Heq.
    destruct (gp_element _ _ Hg a Ha) as (el & _ & _ & Hel & _). destruct (gp_element _ _ Hg a' Ha') as (el' & _ & _ & Hel' & _).
    apply (gp_places _ _ Hg a a' el el'); try done.
    destruct (on_page a el Ha Hel) as (_ & _ & _ & _ & _ & Hp & _). destruct (on_page a' el' Ha' Hel') as (_ & _ & _ & _ & _ & Hp' & _).
    rewrite <- Hp, <- Hp'. by rewrite Heq. }
  rewrite (elements_list_to_set _ Hd), list_fmap_bind.
  rewrite (bind_same (rows_in (mem s))); [done|]. intros a Ha. destruct (gp_element _ _ Hg a Ha) as (el & v & ns & Hel & _).
  by destruct (graph_heap_tids a el Ha Hel) as (_ & _ & _ & _ & Hr).
Qed.
End OnPages.
End Pages.

(** ** [FlushPages] *)

(** Distinct images, of the same part of a list or of two. *)
Lemma bind_apart {A B C} (f : A -> list B) (g : B -> C) l a a' x y : NoDup (g <$> (l ≫= f)) ->
  a ∈ l -> a' ∈ l -> x ∈ f a -> y ∈ f a' -> g x = g y -> a = a'.
Proof.
  intros Hnd Ha Ha' Hx Hy Hg. induction l as [|c l IH]; [by apply elem_of_nil in Ha|]. rewrite bind_cons, fmap_app in Hnd.
  apply list.NoDup_app in Hnd as (_ & Hd & Hnd).
  assert (Hin : forall b z, b ∈ l -> z ∈ f b -> g z ∈ g <$> (l ≫= f)) by (intros b z Hb Hz; apply list_elem_of_fmap_2, list_elem_of_bind; eauto).
  apply elem_of_cons in Ha as [->|Ha]; apply elem_of_cons in Ha' as [->|Ha']; auto.
  - exfalso. apply (Hd (g x)); [by apply list_elem_of_fmap_2|]. rewrite Hg. by apply (Hin a').
  - exfalso. apply (Hd (g y)); [by apply list_elem_of_fmap_2|]. rewrite <- Hg. by apply (Hin a).
Qed.

Lemma bind_within {A B C} (f : A -> list B) (g : B -> C) l a : NoDup (g <$> (l ≫= f)) -> a ∈ l -> NoDup (g <$> f a).
Proof.
  intros Hnd Ha. induction l as [|c l IH]; [by apply elem_of_nil in Ha|]. rewrite bind_cons, fmap_app in Hnd.
  apply list.NoDup_app in Hnd as (H1 & _ & H2). apply elem_of_cons in Ha as [->|Ha]; auto.
Qed.

Section Flush.
Context (bs : BuildSettings) (Hfork : bs_forkNum bs = MAIN_FORKNUM) (Hm : HNSW_MIN_M <= bs_m bs <= HNSW_MAX_M).
Context (good : Vector -> Prop) (fuel : nat).

#[local] Abbreviation m := (bs_m bs).

(** A complete graph: the list of its elements, and the entry point, an
    element of the highest level. *)
Record flushable (mem0 : gmap addr HnswElementData) (g : HnswGraph) (l : list addr) : Prop := {
  fl_chain : chain mem0 (gr_head g) l;
  fl_nodup : NoDup l;
  fl_element a : a ∈ l -> exists el v ns, mem0 !! a = Some el /\ complete bs good mem0 l el v ns;
  fl_entry : l = [] /\ gr_entryPoint g = NULL \/
    gr_entryPoint g ∈ l /\ exists en, mem0 !! gr_entryPoint g = Some en /\
      forall a el, a ∈ l -> mem0 !! a = Some el -> el_level el <= el_level en
}.

Lemma chain_not_null mem0 p l a : chain mem0 p l -> a ∈ l -> a <> NULL.
Proof using Type.
  revert p. induction l as [|c l IH]; intros p; [by intros _ ?%elem_of_nil|]. intros (-> & Hc & el & _ & Hl) [->|Ha]%elem_of_cons; [done|].
  by eapply IH.
Qed.

Section Placed.
Context (l : list addr) (mem0 mem1 : gmap addr HnswElementData) (Hp : elements_placed l mem0 mem1).

Lemma placed_back a el' : a ∈ l -> is_Some (mem0 !! a) -> mem1 !! a = Some el' -> exists el, mem0 !! a = Some el /\ placed_as el el'.
Proof using Hp.
  intros Ha [el Hel] Hel'. destruct (pl_placed _ _ _ Hp a el Ha Hel) as (el1 & H1 & H2). exists el. split; [done|]. congruence.
Qed.

Lemma placed_chain p k : (forall a, a ∈ k -> a ∈ l) -> chain mem0 p k -> chain mem1 p k.
Proof using Hp.
  revert p. induction k as [|a k IH]; intros p Hin; [done|]. intros (-> & Hn & el & Hel & Hk).
  split; [done|]. split; [done|]. destruct (pl_placed _ _ _ Hp a el (Hin a ltac:(left)) Hel) as (el' & Hel' & (b & o & nb & no & ->)).
  eexists. split; [done|]. apply IH; [|done]. intros c Hc. apply Hin. by right.
Qed.

Lemma placed_in_layer lc a : in_layer mem0 l lc a -> in_layer mem1 l lc a.
Proof using Hp.
  intros (Ha & el & Hel & Hl). split; [done|]. destruct (pl_placed _ _ _ Hp a el Ha Hel) as (el' & Hel' & (b & o & nb & no & ->)).
  by eexists.
Qed.

Lemma placed_complete el el' v ns : placed_as el el' -> complete bs good mem0 l el v ns -> complete bs good mem1 l el' v ns.
Proof using Hp.
  intros (b & o & nb & no & ->) [[W1 W2 W3 W4] C2 C3 C4 C5 C6]. split; try done.
  intros lc a Hlc. destruct (C6 lc a Hlc) as [H1 H2]. split; [done|]. intros hc Hhc. by apply placed_in_layer, H2.
Qed.

Lemma placed_heaptids : (forall a, a ∈ l -> is_Some (mem0 !! a)) -> l ≫= rows_in mem1 = l ≫= rows_in mem0.
Proof using Hp.
  intros Hs. assert (Hall : forall a, a ∈ l -> rows_in mem1 a = rows_in mem0 a).
  { intros a Ha. destruct (Hs a Ha) as [el Hel]. destruct (pl_placed _ _ _ Hp a el Ha Hel) as (el' & Hel' & (b & o & nb & no & ->)).
    unfold rows_in. by rewrite Hel, Hel'. }
  clear -Hall. induction l as [|a l0 IH]; [done|]. rewrite !bind_cons, (Hall a ltac:(left)), IH; [done|].
  intros a' Ha'. apply Hall. by right.
Qed.
End Placed.

Definition first_metapage : Page :=
  set_lower (MAXALIGN SizeOfPageHeaderData + sizeof_HnswMetaPageData)
    (set_contents (mkHnswMetaPage HNSW_MAGIC_NUMBER HNSW_VERSION (bs_dimensions bs) m (bs_efConstruction bs)
       InvalidBlockNumber InvalidOffsetNumber (-1) InvalidBlockNumber) HnswInitPage).

Lemma CreateMetaPage_run s : rd_main (index s) = [] ->
  CreateMetaPage bs s = Ok (tt, with_index s (with_pages (index s) MAIN_FORKNUM [first_metapage])).
Proof using Hfork.
  intros Hmain. destruct s as [ms [main init opts typ wal sup ti] x]. simpl in Hmain. subst main.
  unfold CreateMetaPage. rewrite Hfork. reflexivity.
Qed.

Lemma first_page_run s : rd_main (index s) = [first_metapage] ->
  (buf ← HnswNewBuffer MAIN_FORKNUM ; write_page MAIN_FORKNUM (BufferPage buf) HnswInitPage ;; mret buf) s =
  Ok (1, with_index s (with_pages (index s) MAIN_FORKNUM [first_metapage; HnswInitPage])).
Proof using Type.
  intros Hmain. destruct s as [ms [main init opts typ wal sup ti] x]. simpl in Hmain. subst main. reflexivity.
Qed.

#[local] Abbreviation place el := (el_blkno el, el_offno el).
#[local] Abbreviation nplace el := (el_neighborPage el, el_neighborOffno el).

(** The pages after the elements are written. *)
Section Written.
Context (s2 s3 : Backend) (l : list addr) (Hpl : elements_placed l (mem s2) (mem s3)).
Context (Hall : forall a, a ∈ l -> exists el v ns, mem s2 !! a = Some el /\ complete bs good (mem s2) l el v ns).
Context (HW : wrote (index s2) (index s3) (l ≫= writes_of bs (mem s3))).
Context (Hempty : forall b off tup, 1 <= b -> tuple_at (index s2) b off = Some tup -> False).

Lemma written_complete a el : a ∈ l -> mem s3 !! a = Some el -> exists v ns, complete bs good (mem s3) l el v ns /\
  writes_of bs (mem s3) a = element_writes bs el v.
Proof using Hpl Hall.
  intros Ha Hel. destruct (Hall a Ha) as (el0 & v & ns & Hel0 & Hc).
  destruct (placed_back _ _ _ Hpl a el Ha ltac:(by eexists) Hel) as (el1 & Hel1 & Hp). rewrite Hel0 in Hel1. injection Hel1 as <-.
  pose proof (placed_complete l _ _ Hpl el0 el v ns Hp Hc) as Hc'. exists v, ns. split; [done|].
  unfold writes_of. by rewrite Hel, (wa_value _ _ _ (cm_writable _ _ _ _ _ _ _ Hc')).
Qed.

Lemma written_some a : a ∈ l -> exists el, mem s3 !! a = Some el.
Proof using Hpl Hall. intros Ha. destruct (Hall a Ha) as (el & v & ns & Hel & _). destruct (pl_placed _ _ _ Hpl a el Ha Hel) as (el' & Hel' & _). by exists el'. Qed.

Lemma written_tuples a el : a ∈ l -> mem s3 !! a = Some el -> exists v ns, complete bs good (mem s3) l el v ns /\
  1 <= el_blkno el /\ 1 <= el_neighborPage el /\
  tuple_at (index s3) (el_blkno el) (el_offno el) = Some (ElementTuple (element_tuple el v)) /\
  tuple_at (index s3) (el_neighborPage el) (el_neighborOffno el) = Some placeholder /\
  item_length (index s3) (el_neighborPage el) (el_neighborOffno el) (HNSW_NEIGHBOR_TUPLE_SIZE (el_level el) m).
Proof using Hpl Hall HW.
  intros Ha Hel. destruct (written_complete a el Ha Hel) as (v & ns & Hc & Hw). exists v, ns. split; [done|].
  assert (Hin : forall w, w ∈ element_writes bs el v -> w ∈ l ≫= writes_of bs (mem s3)).
  { intros w Hw'. apply list_elem_of_bind. exists a. split; [by rewrite Hw|done]. }
  destruct (wr_new _ _ _ HW _ (Hin _ ltac:(left))) as (H1 & _ & H2 & _).
  destruct (wr_new _ _ _ HW _ (Hin _ ltac:(right; left))) as (H3 & _ & H4 & H5). done.
Qed.

Lemma written_where a el : a ∈ l -> mem s3 !! a = Some el ->
  (exists w, w ∈ writes_of bs (mem s3) a /\ w_place w = place el) /\ (exists w, w ∈ writes_of bs (mem s3) a /\ w_place w = nplace el).
Proof using Hpl Hall.
  intros Ha Hel. destruct (written_complete a el Ha Hel) as (v & ns & _ & ->).
  split; [eexists (mkWrite (el_blkno el) (el_offno el) _ _); split; [left|done]|].
  eexists (mkWrite (el_neighborPage el) (el_neighborOffno el) _ _). split; [right; left|done].
Qed.

Lemma written_apart a a' el el' : a ∈ l -> a' ∈ l -> mem s3 !! a = Some el -> mem s3 !! a' = Some el' ->
  (place el = place el' -> a = a') /\ (nplace el = nplace el' -> a = a') /\ place el <> nplace el'.
Proof using Hpl Hall HW.
  intros Ha Ha' Hel Hel'. destruct (written_where a el Ha Hel) as [(w1 & W1 & P1) (w2 & W2 & P2)].
  destruct (written_where a' el' Ha' Hel') as [(x1 & X1 & Q1) (x2 & X2 & Q2)]. pose proof (wr_places _ _ _ HW) as Hnd.
  split_and!; intros Heq.
  - apply (bind_apart _ w_place l a a' w1 x1 Hnd Ha Ha' W1 X1). congruence.
  - apply (bind_apart _ w_place l a a' w2 x2 Hnd Ha Ha' W2 X2). congruence.
  - assert (a = a') as <- by (apply (bind_apart _ w_place l a a' w1 x2 Hnd Ha Ha' W1 X2); congruence).
    rewrite Hel in Hel'. injection Hel' as <-. pose proof (bind_within _ w_place l a Hnd Ha) as Hd.
    destruct (written_complete a el Ha Hel) as (v & ns & _ & Hw). rewrite Hw in Hd.
    apply list.NoDup_cons in Hd as [Hd _]. apply Hd. apply elem_of_cons. left. exact Heq.
Qed.

Lemma written_only b off tup : 1 <= b -> tuple_at (index s3) b off = Some tup ->
  exists a el, a ∈ l /\ mem s3 !! a = Some el /\ ((b, off) = place el \/ (b, off) = nplace el).
Proof using Hpl Hall HW Hempty.
  intros Hb Ht. destruct (wr_only _ _ _ HW b off tup Ht) as [Ho|Hin]; [by apply Hempty in Ho|].
  apply list_elem_of_fmap in Hin as (w & Hw & Hin). apply list_elem_of_bind in Hin as (a & Hwa & Ha).
  destruct (written_some a Ha) as [el Hel]. exists a, el. split; [done|]. split; [done|].
  destruct (written_complete a el Ha Hel) as (v & ns & _ & Hwr). rewrite Hwr in Hwa.
  apply elem_of_cons in Hwa as [->|Hwa]; [by left|]. apply list_elem_of_singleton in Hwa as ->. by right.
Qed.

(** The elements have room for their neighbors. *)
Lemma written_neighbors s4 a el : mem s4 = mem s3 -> (forall b off, tuple_at (index s4) b off = tuple_at (index s3) b off) ->
  items_kept (index s3) (index s4) -> a ∈ l -> mem s4 !! a = Some el -> exists ns, neighbors_placed bs s4 el ns.
Proof using Hpl Hall HW.
  intros Hmem Ht Hi Ha Hel. rewrite Hmem in Hel. destruct (written_tuples a el Ha Hel) as (v & ns & Hc & _ & B & _ & T & I).
  exists ns. split.
  - apply (neighbors_ok_mem bs s3); [done|]. by eapply complete_neighbors_ok.
  - apply (wa_level _ _ _ (cm_writable _ _ _ _ _ _ _ Hc)).
  - done.
  - eexists. rewrite Ht. exact T.
  - by apply Hi.
Qed.

Lemma complete_mem mem0 mem1 k el v ns : mem1 = mem0 -> complete bs good mem0 k el v ns -> complete bs good mem1 k el v ns.
Proof using Type. by intros ->. Qed.

(** With the neighbor tuples the graph is on the pages. *)
Lemma neighbors_graph s4 s5 : mem s4 = mem s3 -> (forall b off, tuple_at (index s4) b off = tuple_at (index s3) b off) ->
  items_kept (index s3) (index s4) -> all_reached (index s4) -> neighbors_written bs l s4 s5 -> graph_on_pages bs good s5 l.
Proof using Hpl Hall HW Hempty.
  intros Hmem Ht Hi Hch [N1 N2 N3 N4 N5 N6 Ni Nc N7 N8]. assert (M5 : mem s5 = mem s3) by congruence.
  assert (Hplace : forall a el, a ∈ l -> mem s3 !! a = Some el -> tuple_at (index s5) (el_blkno el) (el_offno el) = tuple_at (index s3) (el_blkno el) (el_offno el)).
  { intros a el Ha Hel. rewrite N5; [apply Ht|]. intros a' el' Ha' Hel'. rewrite Hmem in Hel'. by apply (written_apart a a' el el'). }
  split.
  - done.
  - intros a Ha. destruct (written_some a Ha) as [el Hel]. destruct (written_tuples a el Ha Hel) as (v & ns & Hc & B1 & B2 & T1 & T2 & _).
    exists el, v, ns. split; [by rewrite M5|]. split; [by eapply complete_mem|]. split; [done|]. split; [done|].
    split; [by rewrite (Hplace a el)|]. rewrite (N4 a el ns Ha); [|by rewrite Hmem|apply (cm_neighbors _ _ _ _ _ _ _ Hc)].
    by rewrite (neighbor_tuple_mem bs s4 s5).
  - intros b off et Hb Hto. rewrite M5.
    destruct (decide (Exists (fun a => (fun el => nplace el) <$> mem s3 !! a = Some (b, off)) l)) as [Hex|Hno].
    + apply list.Exists_exists in Hex as (a & Ha & Heq). destruct (mem s3 !! a) as [el|] eqn:Hel; [|done]. exfalso. simpl in Heq. injection Heq as <- <-.
      destruct (written_tuples a el Ha Hel) as (v & ns & Hc & _). rewrite (N4 a el ns Ha) in Hto; [done|by rewrite Hmem|].
      apply (cm_neighbors _ _ _ _ _ _ _ Hc).
    + rewrite N5, Ht in Hto.
      * destruct (written_only b off _ Hb Hto) as (a & el & Ha & Hel & [Hp|Hp]); [by exists a, el|].
        exfalso. apply Hno, list.Exists_exists. exists a. split; [done|]. by rewrite Hel, Hp.
      * intros a el Ha Hel Heq. rewrite Hmem in Hel. apply Hno, list.Exists_exists. exists a. split; [done|]. by rewrite Hel, Heq.
  - intros a a' el el' Ha Ha' Hel Hel'. rewrite M5 in Hel, Hel'. by apply written_apart.
  - intros a a' el el' Ha Ha' Hel Hel'. rewrite M5 in Hel, Hel'. by apply written_apart.
  - intros a el Ha Hel. rewrite M5 in Hel. destruct (written_tuples a el Ha Hel) as (v & ns & _ & _ & _ & _ & _ & I). by apply Ni, Hi.
  - by apply Nc.
Qed.
End Written.

Lemma first_pages rel : rd_main rel = [first_metapage; HnswInitPage] ->
  index_ok rel /\ (forall b off tup, 1 <= b -> tuple_at rel b off = Some tup -> False) /\ block (rd_main rel) 1 = Some HnswInitPage /\
  meta_ok rel (pd_contents first_metapage) /\ all_reached rel.
Proof using Type.
  intros Hmain. split; [|split; [|split; [|split]]].
  - apply (one_page_index_ok rel first_metapage HnswInitPage Hmain); [exact HnswInitPage_ok|done|].
    intros off et Hin. by apply elem_of_nil in Hin.
  - intros b off tup Hb Ht. destruct (tuple_one rel first_metapage HnswInitPage Hmain b off tup Hb Ht) as [_ Hin]. by apply elem_of_nil in Hin.
  - by rewrite Hmain.
  - exists first_metapage. by rewrite Hmain.
  - by apply (one_page_reached rel first_metapage HnswInitPage).
Qed.

(** The element of the entry point, for the update of the metapage. *)
Lemma flush_entry mem0 g l s : flushable mem0 g l -> elements_placed l mem0 (mem s) ->
  exists e, update_element s HNSW_UPDATE_ENTRY_ALWAYS (gr_entryPoint g) e /\
    match e with
    | None => l = []
    | Some en => gr_entryPoint g ∈ l /\ mem s !! gr_entryPoint g = Some en /\
        forall a el, a ∈ l -> mem s !! a = Some el -> el_level el <= el_level en
    end.
Proof using Type.
  intros [Hc _ Hel He] Hp. unfold update_element. cbn [Z.eqb negb andb HNSW_UPDATE_ENTRY_ALWAYS].
  destruct He as [[-> ->]|(Hin & en & Hen & Htop)]; [by exists None|].
  pose proof (chain_not_null _ _ _ _ Hc Hin) as Hnull. apply N.eqb_neq in Hnull. rewrite Hnull.
  destruct (pl_placed _ _ _ Hp _ _ Hin Hen) as (en' & Hen' & Hpl). exists (Some en'). split; [by exists en'|]. split; [done|]. split; [done|].
  intros a el' Ha Hel'. destruct (Hel a Ha) as (el0 & _ & _ & Hel0 & _).
  destruct (placed_back _ _ _ Hp a el' Ha ltac:(by eexists) Hel') as (el1 & Hel1 & (b & o & nb & no & ->)).
  destruct Hpl as (b' & o' & nb' & no' & ->). exact (Htop a el1 Ha Hel1).
Qed.

Lemma FlushPages_run s g l : flushable (mem s) g l -> rd_main (index s) = [] -> xlog s = None ->
  2 + 2 * Z.of_nat (length l) <= InvalidBlockNumber -> (length l <= fuel)%nat ->
  exists s' meta, FlushPages fuel bs NULL g s = Ok (gr_set_flushed g, s') /\
    index_wf (index s') meta good (graph_tids s' l) /\ index_rows (index s') (graph_tids s' l) ≡ₚ l ≫= rows_in (mem s) /\
    all_held (index s') (graph_tids s' l) /\ mp_m meta = m /\ mp_dimensions meta = bs_dimensions bs /\ xlog s' = None /\ nlen (index s') <= 2 + 2 * Z.of_nat (length l) /\
    index s' = with_pages (index s) MAIN_FORKNUM (rd_main (index s')).
Proof using Hfork Hm.
  intros Hfl Hmain Hx Hsz Hfuel. pose proof Hfl as [Fc Fn Fe Fen]. unfold FlushPages. run (CreateMetaPage_run s Hmain).
  set (s1 := with_index s _). pose proof (first_page_run s1 eq_refl) as E2. set (s2 := with_index s1 _) in E2.
  destruct (first_pages (index s2) eq_refl) as (Hix2 & Hempty & Hb1 & Hmeta2 & Hch2).
  assert (Hw2 : writing s2 1 HnswInitPage) by (by split).
  destruct (write_elements_run bs Hfork Hm l fuel (gr_head g) s2 1 HnswInitPage) as (s3 & b3 & p3 & E3 & Hw3 & X3 & L3 & Hpl & HW);
    try done; [intros a Ha; destruct (Fe a Ha) as (el & v & ns & Hel & Hc); exists el, v; by split; [|apply Hc]|].
  change (nlen (index s2)) with 2 in L3. change (mem s2) with (mem s) in Hpl.
  assert (Hmeta3 : meta_ok (index s3) (pd_contents first_metapage)).
  { destruct Hmeta2 as (p & Hp & Hc). exists p. by rewrite (wr_meta _ _ _ HW). }
  destruct (flush_entry (mem s) g l s3 Hfl Hpl) as (en & Hue & Hen).
  destruct (HnswUpdateMetaPage_run s3 _ HNSW_UPDATE_ENTRY_ALWAYS (gr_entryPoint g) en b3 Hmeta3 ltac:(by rewrite X3) Hue)
    as (s4 & E4 & Hu & Hmeta4).
  assert (Egraph : CreateGraphPages fuel bs NULL g s1 = Ok (tt, s4)).
  { unfold CreateGraphPages. rewrite Hfork. unfold mbind, M_bind in E2 |- *.
    destruct (HnswNewBuffer MAIN_FORKNUM s1) as [[buf t1]|]; [|done]. destruct (write_page _ _ _ t1) as [[[] t2]|]; [|done].
    injection E2 as -> ->. rewrite E3. apply E4. }
  run Egraph. pose proof (meta_updated_index_ok s3 s4 _ Hu (wg_index _ _ _ Hw3)) as Hix4.
  assert (Hall2 : forall a, a ∈ l -> exists el v ns, mem s2 !! a = Some el /\ complete bs good (mem s2) l el v ns) by done.
  pose proof (mu_mem _ _ _ Hu) as M4. pose proof (mu_tuples _ _ _ Hu) as T4.
  destruct (WriteNeighborTuples_run bs Hfork Hm l fuel (gr_head g) s4) as (s5 & E5 & Hnw); try done.
  { rewrite M4. by eapply placed_chain. }
  { intros a el Ha Hel. by apply (written_neighbors s2 s3 l Hpl Hall2 HW s4 a el); try done; apply Hu. }
  { intros a a' el el' Ha Ha' Hel Hel'. rewrite M4 in Hel, Hel'. by apply (written_apart s2 s3 l Hpl Hall2 HW). }
  run E5. pose proof (neighbors_graph s2 s3 l Hpl Hall2 HW Hempty s4 s5 M4 T4 (mu_items _ _ _ Hu)
    (links_kept_reached _ _ (meta_updated_links _ _ _ Hu) (wg_chain _ _ _ Hw3)) Hnw) as Hg.
  set (meta' := HnswUpdateMetaPageInfo _ _ _ _) in *. pose proof (nw_mem _ _ _ _ Hnw) as M5.
  assert (Hb3v : BlockNumberIsValid b3 = true).
  { pose proof (wg_last _ _ _ Hw3). pose proof (ix_size _ (wg_index _ _ _ Hw3)). unfold BlockNumberIsValid. rewrite negb_true_iff, Z.eqb_neq. lia. }
  assert (Hmm : mp_m meta' = m /\ mp_dimensions meta' = bs_dimensions bs /\ mp_insertPage meta' = b3 /\
    (mp_entryBlkno meta', mp_entryOffno meta', mp_entryLevel meta') =
      match en with Some e => (el_blkno e, el_offno e, el_level e) | None => (InvalidBlockNumber, InvalidOffsetNumber, -1) end).
  { unfold meta', HnswUpdateMetaPageInfo. rewrite Hb3v. destruct en as [e|]; [|done]. cbn. rewrite orb_true_r. done. }
  destruct Hmm as (Mm & Md & Mi & Me). exists s5, meta'. split; [done|]. split; [split|].
  - rewrite Mm. apply (graph_pages_wf bs Hm good s5 l Hg).
  - assert (Hlen5 : nlen (index s5) = nlen (index s3)) by (rewrite (nw_length _ _ _ _ Hnw); apply (meta_updated_nlen _ _ _ Hu)).
    split.
    + by apply (nw_meta _ _ _ _ Hnw).
    + rewrite Mi, Hlen5. pose proof (wg_last _ _ _ Hw3). pose proof (wg_first _ _ _ Hw3). lia.
    + destruct en as [e|].
      * destruct Hen as (Hin & He & _). assert (He5 : mem s5 !! gr_entryPoint g = Some e) by (by rewrite M5, M4).
        destruct (on_page bs good s5 l Hg _ e Hin He5) as (v & ns & _ & _ & _ & _ & B1 & B2 & B3 & Hat & _).
        injection Me as Q1 Q2 Q3. assert (Htid : entry_tid meta' = tid_in (mem s5) (gr_entryPoint g)) by (unfold entry_tid, tid_in; by rewrite Q1, Q2, He5).
        rewrite Q1, Q2, Q3, Htid.
        assert (Hbv : BlockNumberIsValid (el_blkno e) = true).
        { pose proof (gp_index _ _ _ _ Hg) as Hix5. pose proof (ix_size _ Hix5).
          apply element_at_place, tuple_at_lookup in Hat as (p & Hp & _).
          assert (Hpl2 : (place_of (tid_in (mem s5) (gr_entryPoint g))).1 = el_blkno e).
          { destruct (on_page bs good s5 l Hg _ e Hin He5) as (_ & _ & _ & _ & _ & -> & _). done. }
          rewrite Hpl2 in Hp. apply block_lookup in Hp as [_ Hp]. apply lookup_lt_Some in Hp.
          unfold BlockNumberIsValid. rewrite negb_true_iff, Z.eqb_neq. lia. }
        rewrite Hbv. split; [done|]. split; [done|]. split; [apply (tids_elem bs good s5 l Hg); by exists (gr_entryPoint g), e|].
        by exists (element_tuple e v).
      * injection Me as Q1 Q2 Q3. rewrite Q1. simpl. split; [|done]. unfold graph_tids. by rewrite Hen.
    + intros k et (a & el & Ha & Hel & ->)%(tids_elem bs good s5 l Hg) Hat.
      destruct (on_page bs good s5 l Hg a el Ha Hel) as (v & ns & _ & _ & _ & _ & _ & _ & _ & Hat' & _).
      rewrite Hat' in Hat. injection Hat as <-. destruct en as [e|]; [|rewrite Hen in Ha; by apply elem_of_nil in Ha].
      injection Me as Q1 Q2 Q3. rewrite Q3. destruct Hen as (_ & _ & Htop). apply (Htop a el Ha). by rewrite <- M4, <- M5.
  - split.
    { rewrite (graph_index_rows bs good s5 l Hg Fn), M5, M4.
      rewrite (placed_heaptids l (mem s) (mem s3) Hpl); [done|]. intros a Ha. destruct (Fe a Ha) as (el & _ & _ & Hel & _). by eexists. }
    split; [apply (graph_held bs good s5 l Hg)|].
    split; [done|]. split; [done|]. split; [rewrite (nw_xlog _ _ _ _ Hnw), (mu_xlog _ _ _ Hu), X3; done|].
    split; [rewrite (nw_length _ _ _ _ Hnw), (meta_updated_nlen _ _ _ Hu); lia|].
    rewrite (nw_rel _ _ _ _ Hnw), (mu_rel _ _ _ Hu), (wr_rel _ _ _ HW) at 1. by destruct (index s).
Qed.
End Flush.
