(* ===== verification/BuildMemory.v ===== *)
(** * Build: the graph in memory

    The graph a build keeps in memory (HnswBuild.v): a list of elements, each
    with its neighbors in all layers up to its level.  [InsertTupleInMemory] keeps
    it complete, so that it can be written to pages at any time (BuildPages.v). *)

From Stdlib Require Import SpecFloat.
From S2P Require Import Prelude CFloat ItemPtr VectorType GraphSearch HnswData BufPage Backend HnswUtils SearchLayer.
From S2P Require Import LayerRefinement PageUpdate DiskGraph QSort SelectNeighbors UpdateConnection FindNeighbors HnswInsert InsertSpec AddElement.
From S2P Require Import IndexWf InsertSearch InsertOnDisk HnswBuild BuildPages.

(** ** The graph *)

(** Memories with the same values, levels and hashes at the elements of [l]. *)
Definition similar (l : list addr) (mem0 mem1 : gmap addr HnswElementData) : Prop :=
  forall a, a ∈ l -> exists el el', mem0 !! a = Some el /\ mem1 !! a = Some el' /\
    el_value el' = el_value el /\ el_level el' = el_level el /\ el_hash el' = el_hash el.

Lemma array_ok_ext (D D' : addr -> addr -> float) lm a :
  (forall x y, x ∈ na_items a -> y ∈ na_items a -> D' (hc_element x) (hc_element y) = D (hc_element x) (hc_element y)) ->
  array_ok NULL D lm a -> array_ok NULL D' lm a.
Proof.
  intros Hext [A1 A2 A3]. split; [done|done|]. intros Hc. destruct (A3 Hc) as [Hl (L & HL & Hs & Hf)]. split; [done|].
  exists L. split; [done|]. split; [done|]. intros p e t Heq. rewrite (Hf p e t Heq). unfold closer_to.
  assert (He : e ∈ na_items a) by (rewrite <- HL, Heq; set_solver).
  assert (Hp : forall x, x ∈ List.filter hc_closer p -> x ∈ na_items a).
  { intros x Hx. apply elem_of_filterb in Hx as [Hx _]. rewrite <- HL, Heq. set_solver. }
  clear -He Hp Hext. induction (List.filter hc_closer p) as [|x r IH]; [done|]. simpl.
  rewrite (Hext e x He (Hp x ltac:(left))), IH; [done|]. intros y Hy. apply Hp. by right.
Qed.

Section Graph.
Context (bs : BuildSettings) (Hm : HNSW_MIN_M <= bs_m bs <= HNSW_MAX_M) (good : Vector -> Prop).
Context (Hsup : support_ok (bs_support bs) good).

#[local] Abbreviation m := (bs_m bs).
#[local] Abbreviation support := (bs_support bs).
#[local] Abbreviation D mem0 := (distance_in support mem0).

(** An element with its arrays; their cached flags are valid. *)
Definition element_ok (mem0 : gmap addr HnswElementData) (l : list addr) (el : HnswElementData) : Prop :=
  exists v ns, complete bs good mem0 l el v ns /\
    forall lc arr, ns !! lc = Some arr -> array_ok NULL (D mem0) (HnswGetLayerM m (Z.of_nat lc)) arr.

Definition elements_complete (mem0 : gmap addr HnswElementData) (l : list addr) : Prop :=
  forall a, a ∈ l -> exists el, mem0 !! a = Some el /\ element_ok mem0 l el.

Lemma distance_similar l mem0 mem1 a b : similar l mem0 mem1 -> a ∈ l -> b ∈ l -> D mem1 a b = D mem0 a b.
Proof using Type.
  intros Hs Ha Hb. destruct (Hs a Ha) as (x & x' & X1 & X2 & X3 & _), (Hs b Hb) as (y & y' & Y1 & Y2 & Y3 & _).
  unfold distance_in, candidate_distance, candidate_value. cbn [hc_element].
  change (HnswPtrAccess NULL a) with a. change (HnswPtrAccess NULL b) with b. by rewrite X1, X2, Y1, Y2, X3, Y3.
Qed.

Lemma in_layer_similar l mem0 mem1 lc a : similar l mem0 mem1 -> in_layer mem0 l lc a -> in_layer mem1 l lc a.
Proof using Type.
  intros Hs (Ha & el & Hel & Hl). split; [done|]. destruct (Hs a Ha) as (x & x' & X1 & X2 & _ & X4 & _).
  rewrite Hel in X1. injection X1 as <-. exists x'. split; [done|lia].
Qed.

Lemma element_ok_similar l mem0 mem1 el : similar l mem0 mem1 -> element_ok mem0 l el -> element_ok mem1 l el.
Proof using Type.
  intros Hs (v & ns & [C1 C2 C3 C4 C5 C6] & Ha). exists v, ns. split.
  - split; try done. intros lc arr Hlc. destruct (C6 lc arr Hlc) as [H1 H2]. split; [done|]. intros hc Hhc.
    eapply in_layer_similar; [exact Hs|]. by apply H2.
  - intros lc arr Hlc. eapply array_ok_ext; [|by apply (Ha lc)]. destruct (C6 lc arr Hlc) as [_ H2]. intros x y Hx Hy.
    apply (distance_similar l); [done|by apply H2|by apply H2].
Qed.

Lemma similar_refl l mem0 : elements_complete mem0 l -> similar l mem0 mem0.
Proof using Type. intros He a Ha. destruct (He a Ha) as (el & Hel & _). by exists el, el. Qed.

(** One element of the graph changed. *)
Lemma elements_changed mem0 l a el el' : elements_complete mem0 l -> mem0 !! a = Some el ->
  el_value el' = el_value el -> el_level el' = el_level el -> el_hash el' = el_hash el -> element_ok mem0 l el' ->
  similar l mem0 (<[a := el']> mem0) /\ elements_complete (<[a := el']> mem0) l.
Proof using Type.
  intros He Hel Hv Hl Hh Hok. assert (Hs : similar l mem0 (<[a := el']> mem0)).
  { intros b Hb. destruct (He b Hb) as (x & Hx & _). destruct (decide (b = a)) as [->|Hne].
    - exists el, el'. by rewrite lookup_insert_eq.
    - exists x, x. by rewrite lookup_insert_ne. }
  split; [done|]. intros b Hb. destruct (decide (b = a)) as [->|Hne].
  - exists el'. split; [apply lookup_insert_eq|]. by eapply element_ok_similar.
  - destruct (He b Hb) as (x & Hx & Hxo). exists x. split; [by rewrite lookup_insert_ne|]. by eapply element_ok_similar.
Qed.

(** Memory outside of the graph does not matter. *)
Lemma elements_outside mem0 mem1 l : (forall a, a ∈ l -> mem1 !! a = mem0 !! a) -> elements_complete mem0 l -> elements_complete mem1 l.
Proof using Type.
  intros Hsame He. assert (Hs : similar l mem0 mem1).
  { intros a Ha. destruct (He a Ha) as (x & Hx & _). exists x, x. by rewrite Hsame. }
  intros a Ha. destruct (He a Ha) as (x & Hx & Hxo). exists x. split; [by rewrite Hsame|]. by eapply element_ok_similar.
Qed.

(** A larger graph. *)
Lemma element_ok_more mem0 l l' el : (forall a, a ∈ l -> a ∈ l') -> element_ok mem0 l el -> element_ok mem0 l' el.
Proof using Type.
  intros Hl (v & ns & [C1 C2 C3 C4 C5 C6] & Ha). exists v, ns. split; [|done]. split; try done.
  intros lc arr Hlc. destruct (C6 lc arr Hlc) as [H1 H2]. split; [done|]. intros hc Hhc. destruct (H2 hc Hhc) as [Hin He]. split; auto.
Qed.

(** The graph of a build: its elements, their list, the entry point; every
    element has the hash of its address. *)
Record graph_wf (mem0 : gmap addr HnswElementData) (g : HnswGraph) (l : list addr) : Prop := {
  mg_chain : chain mem0 (gr_head g) l;
  mg_nodup : NoDup l;
  mg_elements : elements_complete mem0 l;
  mg_entry : l = [] /\ gr_entryPoint g = NULL \/
    gr_entryPoint g ∈ l /\ exists en, mem0 !! gr_entryPoint g = Some en /\
      forall a el, a ∈ l -> mem0 !! a = Some el -> el_level el <= el_level en;
  mg_hash a el : a ∈ l -> mem0 !! a = Some el -> el_hash el = key_hash NULL a
}.

Lemma graph_flushable mem0 g l : graph_wf mem0 g l -> flushable bs good mem0 g l.
Proof using Type.
  intros [G1 G2 G3 G4 G5]. split; try done. intros a Ha. destruct (G3 a Ha) as (el & Hel & v & ns & Hc & _). by exists el, v, ns.
Qed.
End Graph.

(** Memory that is the same at the elements of the graph. *)
Lemma chain_outside mem0 mem1 l : (forall a, a ∈ l -> mem1 !! a = mem0 !! a) -> forall p, chain mem0 p l -> chain mem1 p l.
Proof.
  intros Hsame. induction l as [|a l IH]; intros p; [done|]. intros (-> & Hn & el & Hel & Hl).
  split; [done|]. split; [done|]. exists el. split; [by rewrite Hsame by left|].
  apply IH; [|done]. intros b Hb. apply Hsame. by right.
Qed.

Lemma graph_wf_outside bs good mem0 mem1 g l : (forall a, a ∈ l -> mem1 !! a = mem0 !! a) ->
  graph_wf bs good mem0 g l -> graph_wf bs good mem1 g l.
Proof.
  intros Hsame [G1 G2 G3 G4 G5]. split; [by eapply chain_outside|done|by eapply elements_outside| |].
  2: { intros a el Ha. rewrite Hsame by done. by apply G5. }
  destruct G4 as [G4|(Hin & en & Hen & Htop)]; [by left|]. right. split; [done|]. exists en. split; [by rewrite Hsame|].
  intros a el Ha Hel. apply (Htop a); [done|]. by rewrite <- Hsame.
Qed.

(** ** The layers *)

Definition reaches_layer (mem0 : gmap addr HnswElementData) (lc : Z) (a : addr) : bool :=
  match mem0 !! a with Some el => lc <=? el_level el | None => false end.

Definition layer_set (mem0 : gmap addr HnswElementData) (l : list addr) (lc : Z) : gset addr :=
  list_to_set (List.filter (reaches_layer mem0 lc) l).

Lemma elem_of_layer_set mem0 l lc a : a ∈ layer_set mem0 l lc <-> in_layer mem0 l lc a.
Proof.
  unfold layer_set, in_layer, reaches_layer. rewrite elem_of_list_to_set, elem_of_filterb. split.
  - intros [Ha Hr]. split; [done|]. destruct (mem0 !! a) as [el|]; [|done]. exists el. split; [done|]. by apply Z.leb_le.
  - intros (Ha & el & -> & Hl). split; [done|]. by apply Z.leb_le.
Qed.

Lemma layer_set_size mem0 l lc : (size (layer_set mem0 l lc) <= length l)%nat.
Proof.
  transitivity (length (List.filter (reaches_layer mem0 lc) l)); [|apply List.filter_length_le].
  unfold layer_set. induction (List.filter _ l) as [|a k IH]; [done|]. simpl.
  pose proof (size_union_alt ({[a]} : gset addr) (list_to_set k)) as Hs. rewrite size_singleton in Hs.
  assert (size ((list_to_set k : gset addr) ∖ {[a]}) <= size (list_to_set k : gset addr))%nat by (apply subseteq_size; set_solver). lia.
Qed.

(** ** A new element *)

Section NewElement.
Context `{Palloc} `{ListSort} (garbage : HnswCandidate) (fuel : nat).
Context (bs : BuildSettings) (Hm : HNSW_MIN_M <= bs_m bs <= HNSW_MAX_M) (good : Vector -> Prop).
Context (Hsup : support_ok (bs_support bs) good).
Context (g : HnswGraph) (l : list addr) (e : addr) (v : Vector) (Hgood : good v) (tid : ItemPointerData).
Context (Hnew : e ∉ l) (Hfuel : (length l <= fuel)%nat).

#[local] Abbreviation m := (bs_m bs).
#[local] Abbreviation support := (bs_support bs).
#[local] Abbreviation D mem0 := (distance_in support mem0).

(** The element before its neighbors are found. *)
Record unconnected (el : HnswElementData) : Prop := {
  un_value : el_value el = Some v;
  un_level : 0 <= el_level el <= HnswGetMaxLevel m;
  un_heaptids : el_heaptids el = [tid];
  un_valid : ItemPointerIsValid tid = true;
  un_neighbors : el_neighbors el = Some (replicate (Z.to_nat (el_level el + 1)) HnswInitNeighborArray)
}.

Lemma layer_m_nonneg lc : 0 < HnswGetLayerM m lc.
Proof using Hm. clear -Hm. unfold HnswGetLayerM, HNSW_MIN_M in *. destruct (lc =? 0); lia. Qed.

Lemma graph_layers mem0 entryLevel : graph_wf bs good mem0 g l ->
  graph_ok fuel NULL e support m (D mem0) (mkHnswQuery (Some v)) mem0 entryLevel (layer_set mem0 l).
Proof using Hsup Hgood Hnew Hfuel.
  intros [G1 G2 G3 G4 G5]. split.
  - intros lc Hlc. split.
    + intros k Hk. apply elem_of_layer_set in Hk as [Hk _]. split; [by intros ?|]. by eapply chain_not_null.
    + intros k Hk. apply elem_of_layer_set in Hk as (Hk & el & Hel & Hl).
      destruct (G3 k Hk) as (el' & Hel' & v' & ns & [C1 C2 C3 C4 C5 C6] & _). rewrite Hel in Hel'. injection Hel' as <-.
      destruct (lookup_lt_is_Some_2 ns (Z.to_nat lc) ltac:(lia)) as [a Ha].
      destruct (C6 _ _ Ha) as [A1 A2]. rewrite Z2Nat.id in A1, A2 by lia.
      destruct (so_distance _ _ Hsup v v' Hgood C2) as (d & Hd & Hnan). exists el, a, d.
      split; [done|]. split; [done|]. split.
      { unfold neighbors_of. rewrite C4. destruct (Z.ltb_spec lc 0); [lia|]. by rewrite Ha. }
      split; [done|]. split; [intros hc Hhc; by apply elem_of_layer_set, A2|].
      split; [|done]. rewrite (wa_value _ _ _ C1). exact Hd.
    + intros k el Hk. apply elem_of_layer_set in Hk as [Hk _]. by apply G5.
  - intros lc _ a Ha. apply elem_of_layer_set in Ha as (Ha & el & Hel & Hl). apply elem_of_layer_set. split; [done|].
    exists el. split; [done|lia].
  - intros lc k _ Hk Heq. apply elem_of_layer_set in Hk as [Hk _]. change (HnswPtrAccess NULL k) with k in Heq. by subst k.
  - intros lc _. pose proof (layer_set_size mem0 l lc). lia.
  - intros a b Ha Hb. apply elem_of_layer_set in Ha as [Ha _], Hb as [Hb _].
    destruct (G3 _ Ha) as (x & Hx & vx & nx & Cx & _), (G3 _ Hb) as (y & Hy & vy & ny & Cy & _).
    destruct (distance_of_values good support Hsup mem0 a b x y vx vy Hx Hy) as [d Hd];
      [apply (wa_value _ _ _ (cm_writable _ _ _ _ _ _ _ Cx))|apply (wa_value _ _ _ (cm_writable _ _ _ _ _ _ _ Cy))|
       apply (cm_good _ _ _ _ _ _ _ Cx)|apply (cm_good _ _ _ _ _ _ _ Cy)|]. by eapply candidate_distance_in.
Qed.

(** What the selection leaves in an array. *)
Lemma selected_array mem0 entryLevel lc a : graph_wf bs good mem0 g l -> 0 <= lc <= entryLevel ->
  layer_selected (hc_closer garbage) NULL support m (bs_efConstruction bs) (D mem0) (mkHnswQuery (Some v)) mem0 (layer_set mem0 l) lc a ->
  na_length a <= HnswGetLayerM m lc /\ (forall hc, hc ∈ na_items a -> in_layer mem0 l lc (hc_element hc)) /\
  array_ok NULL (D mem0) (HnswGetLayerM m lc) a.
Proof using Hsup Hgood Hnew Hfuel.
  intros Hg Hlc (ep & w & V & Hres & Hw & Hclosed & Hkeys & Hlen & Hnd & Hin). split; [done|].
  split; [intros hc Hhc; by apply elem_of_layer_set, Hin|]. split; [done| |by rewrite Hclosed].
  split; [|by intros ? ? ?|done]. intros hc Hhc. apply (list_elem_of_fmap_2 hc_key) in Hhc. rewrite Hkeys in Hhc.
  apply list_elem_of_fmap in Hhc as (hc' & [= _ E2] & Hhc').
  destruct (selected_spec (D mem0) (HnswGetLayerM m lc) (candidate_of (hc_closer garbage) <$> w)) as [_ Hsub].
  { clear -Hlen. unfold na_length in Hlen. lia. }
  apply (elem_of_submseteq _ _ _ Hhc') in Hsub. apply list_elem_of_fmap in Hsub as (c & -> & Hc).
  unfold numeric. rewrite E2. cbn. apply SFldexp_not_nan.
  destruct Hw as (_ & _ & Hf). rewrite list.Forall_forall in Hf. destruct (Hf c Hc) as [Hk ->].
  exact (mem_numeric NULL _ lc support m NULL (mkBackend mem0 (mkRelation [] [] None 0 false support None) None) _
    (go_layer _ _ _ _ _ _ _ _ _ _ (graph_layers mem0 entryLevel Hg) lc Hlc) _ Hk).
Qed.

Lemma fresh_array mem0 lc : array_ok NULL (D mem0) (HnswGetLayerM m lc) HnswInitNeighborArray.
Proof using Hm.
  pose proof (layer_m_nonneg lc) as Hlm. split; [unfold na_length; simpl; clear -Hlm; lia| |done].
  split; [intros a Ha; by apply elem_of_nil in Ha|intros a Ha; by apply elem_of_nil in Ha|constructor].
Qed.

(** The fields of an element its connections leave alone. *)
Record same_data (el el' : HnswElementData) : Prop := {
  sd_value : el_value el' = el_value el;
  sd_level : el_level el' = el_level el;
  sd_heaptids : el_heaptids el' = el_heaptids el
}.

Lemma unconnected_complete mem0 el el' ns : unconnected el -> same_data el el' -> el_neighbors el' = Some ns ->
  Z.of_nat (length ns) = el_level el + 1 ->
  (forall lc a, ns !! lc = Some a -> na_length a <= HnswGetLayerM m (Z.of_nat lc) /\
    (forall hc, hc ∈ na_items a -> in_layer mem0 l (Z.of_nat lc) (hc_element hc)) /\
    array_ok NULL (D mem0) (HnswGetLayerM m (Z.of_nat lc)) a) ->
  element_ok bs good mem0 l el'.
Proof using Hsup Hgood.
  clear Hfuel. intros [U1 U2 U3 U4 U5] [S1 S2 S3] Hns Hlen Ha. destruct (so_vector _ _ Hsup v Hgood) as [Hv1 Hv2].
  exists v, ns. split; [|intros lc a Hlc; by apply Ha]. split.
  - split; [congruence|done|done|by rewrite S2].
  - done.
  - rewrite S3, U3. split; [by repeat constructor|simpl; lia].
  - done.
  - by rewrite S2.
  - intros lc a Hlc. split; by apply Ha.
Qed.

(** Its neighbors: the selection in the layers it shares with the graph. *)
Lemma connect_new_run s el : graph_wf bs good (mem s) g l -> mem s !! e = Some el -> unconnected el ->
  exists el', HnswFindElementNeighbors (hc_closer garbage) fuel NULL e true support m (gr_entryPoint g) (bs_efConstruction bs) false s =
      Ok (tt, put e s el') /\ same_data el el' /\ el_hash el' = key_hash NULL e /\ element_ok bs good (mem s) l el'.
Proof using Hm Hsup Hgood Hnew Hfuel.
  intros Hg Hel Hun. pose proof Hun as [U1 U2 U3 U4 U5]. pose proof Hg as [G1 G2 G3 G4 _].
  destruct G4 as [[_ Hentry]|(Hin & en & Hen & Htop)].
  - rewrite Hentry. pose proof (find_no_neighbors_run (hc_closer garbage) fuel NULL e support m (bs_efConstruction bs) s el Hel) as E.
    exists (hashed NULL e el). split; [exact E|]. split; [by split|]. split; [done|].
    apply (unconnected_complete _ el _ (replicate (Z.to_nat (el_level el + 1)) HnswInitNeighborArray)); try done; [rewrite length_replicate; lia|].
    intros lc a Ha. apply lookup_replicate in Ha as [-> _].
    pose proof (fresh_array (mem s) (Z.of_nat lc)) as Hf. split; [apply Hf|]. split; [intros hc Hhc; by apply elem_of_nil in Hhc|done].
  - destruct (G3 _ Hin) as (en' & Hen' & ven & nen & Cen & _). rewrite Hen in Hen'. injection Hen' as <-.
    pose proof (wa_level _ _ _ (cm_writable _ _ _ _ _ _ _ Cen)) as Hlen.
    destruct (find_neighbors_memory_run (hc_closer garbage) fuel NULL e (gr_entryPoint g) support m (bs_efConstruction bs)
      (D (mem s)) (mkHnswQuery (Some v)) (mem s) (el_level en) (layer_set (mem s) l) (graph_layers (mem s) (el_level en) Hg)
      s el _ en eq_refl Hel ltac:(lia) ltac:(by rewrite U1) U5) as (ns' & E & Hns); try done; try lia.
    { intros i Hi. apply lookup_replicate. split; [done|lia]. }
    { pose proof (layer_m_nonneg 1) as Hm1. unfold HnswGetLayerM in Hm1. simpl in Hm1. lia. }
    { by eapply chain_not_null. }
    { apply elem_of_layer_set. split; [done|]. by exists en. }
    eexists. split; [exact E|]. split; [by split|]. split; [done|]. destruct Hns as [Hl Hns].
    apply (unconnected_complete _ el _ ns'); try done; [rewrite Hl, length_replicate; lia|].
    intros lc a Ha. specialize (Hns lc). case_decide as Hlc.
    + destruct Hns as (a' & Ha' & Hsel). rewrite Ha in Ha'. injection Ha' as <-. apply (selected_array _ (el_level en)); [done|lia|done].
    + rewrite Ha in Hns. symmetry in Hns. apply lookup_replicate in Hns as [-> _].
      pose proof (fresh_array (mem s) (Z.of_nat lc)) as Hf. split; [apply Hf|]. split; [intros hc Hhc; by apply elem_of_nil in Hhc|done].
Qed.

(** ** A value the graph has already *)

(** The TID went to an element with the value. *)
Definition merged (s s' : Backend) : Prop :=
  exists d x, d ∈ l /\ mem s !! d = Some x /\ el_value x = Some v /\ (length (el_heaptids x) < 10)%nat /\
    s' = put d s (el_set_heaptids (el_heaptids x ++ [tid]) x).

Lemma find_duplicate_memory_run s el items : elements_complete bs good (mem s) l -> mem s !! e = Some el ->
  el_heaptids el = [tid] -> (forall hc, hc ∈ items -> hc_element hc ∈ l) ->
  exists b s', find_duplicate_memory NULL items e v s = Ok (b, s') /\ if b : bool then merged s s' else s' = s.
Proof using Type.
  intros Hc Hel Htid. induction items as [|hc items IH]; intros Hin; cbn [find_duplicate_memory]; [by exists false, s|].
  destruct (Hc _ (Hin hc ltac:(by left))) as (x & Hx & vx & ns & Cx & _).
  pose proof (wa_value _ _ _ (cm_writable _ _ _ _ _ _ _ Cx)) as Hvx.
  change (HnswPtrAccess NULL (hc_element hc)) with (hc_element hc).
  assert (Hget : HnswGetValue NULL (hc_element hc) s = Ok (Some vx, s)).
  { unfold HnswGetValue. run (load_element_run _ _ _ Hx). by rewrite Hvx. }
  run Hget. run (lift_res_run (deref_value (Some vx)) s _ eq_refl).
  unfold datumIsEqual. destruct (bool_decide_reflect (v = vx)) as [<-|]; [|by exists false, s]. cbn [negb].
  destruct (cm_heaptids _ _ _ _ _ _ _ Cx) as [_ Hlen].
  assert (Hadd : exists b s', AddDuplicateInMemory e (hc_element hc) s = Ok (b, s') /\ if b : bool then merged s s' else s' = s).
  { unfold AddDuplicateInMemory. run (load_element_run _ _ _ Hx).
    destruct (Z.eqb_spec (el_heaptidsLength x) HNSW_HEAPTIDS) as [|Hfull]; [by exists false, s|].
    assert (Hlt : (length (el_heaptids x) < 10)%nat) by (clear -Hlen Hfull; unfold el_heaptidsLength in Hfull; change HNSW_HEAPTIDS with 10 in Hfull; lia).
    run (load_element_run _ _ _ Hel). rewrite Htid. rewrite (M_bind_run _ _ s tid s) by done.
    assert (HnswAddHeapTid x tid = Ok (el_set_heaptids (el_heaptids x ++ [tid]) x)) as Ha.
    { unfold HnswAddHeapTid. destruct (Z.leb_spec HNSW_HEAPTIDS (el_heaptidsLength x)) as [Hle|]; [|done].
      clear -Hlt Hle. unfold el_heaptidsLength in Hle. change HNSW_HEAPTIDS with 10 in Hle. lia. }
    run (lift_res_run _ s _ Ha). eexists true, _. split; [unfold store_element, mbind, M_bind; by rewrite Hx|].
    exists (hc_element hc), x. split; [apply Hin; by left|done]. }
  destruct Hadd as ([|] & s' & E & Hs'); run E; [by exists true, s'|]. subst s'. apply IH. intros hc' Hhc'. apply Hin. by right.
Qed.

Lemma FindDuplicateInMemory_run s el ns : elements_complete bs good (mem s) l -> mem s !! e = Some el ->
  el_value el = Some v -> el_heaptids el = [tid] -> el_neighbors el = Some ns ->
  (exists a, ns !! O = Some a /\ forall hc, hc ∈ na_items a -> hc_element hc ∈ l) ->
  exists b s', FindDuplicateInMemory NULL e s = Ok (b, s') /\ if b : bool then merged s s' else s' = s.
Proof using Type.
  intros Hc Hel Hv Htid Hns (a & Ha & Hin). unfold FindDuplicateInMemory.
  assert (Hget : HnswGetNeighbors NULL e 0 s = Ok (a, s)).
  { unfold HnswGetNeighbors. run (load_element_run _ _ _ Hel). unfold lift_res, neighbors_of. rewrite Hns.
    destruct ns as [|a0 ns]; [done|]. by injection Ha as ->. }
  run Hget. assert (Hval : HnswGetValue NULL e s = Ok (Some v, s)).
  { unfold HnswGetValue. run (load_element_run _ _ _ Hel). by rewrite Hv. }
  run Hval. destruct (na_items a) as [|hc items]; [by exists false, s|].
  run (lift_res_run (deref_value (Some v)) s v eq_refl). by apply (find_duplicate_memory_run s el).
Qed.
End NewElement.

(** ** Changes of the graph *)

Lemma bind_changed {A B} (f f' : A -> list B) l d t : NoDup l -> d ∈ l -> (forall a, a ∈ l -> a <> d -> f' a = f a) ->
  f' d = f d ++ [t] -> l ≫= f' ≡ₚ t :: (l ≫= f).
Proof.
  intros Hnd Hd Hsame Hf. apply list_elem_of_split in Hd as (l1 & l2 & ->).
  apply list.NoDup_app in Hnd as (_ & Hdis & [Hn _]%list.NoDup_cons).
  assert (Hx : forall k, (forall a, a ∈ k -> a ∈ l1 ++ d :: l2) -> d ∉ k -> k ≫= f' = k ≫= f).
  { intros k Hk Hdk. apply bind_same. intros a Ha. apply Hsame; [by apply Hk|congruence]. }
  rewrite !bind_app, !bind_cons, Hf, (Hx l1), (Hx l2); [|set_solver|done|set_solver|intros Hin; apply (Hdis d); [done|by left]].
  rewrite <- app_assoc. cbn [app]. by rewrite (app_assoc (l1 ≫= f)), <- Permutation_middle, <- app_assoc.
Qed.

Definition same_next (l : list addr) (mem0 mem1 : gmap addr HnswElementData) : Prop :=
  forall a el el', a ∈ l -> mem0 !! a = Some el -> mem1 !! a = Some el' -> el_next el' = el_next el.

Lemma chain_similar mem0 mem1 l : similar l mem0 mem1 -> same_next l mem0 mem1 -> forall p, chain mem0 p l -> chain mem1 p l.
Proof.
  induction l as [|a l IH]; intros Hs Hn p; [done|]. intros (-> & Ha & el & Hel & Hl). split; [done|]. split; [done|].
  destruct (Hs a ltac:(by left)) as (x & x' & X1 & X2 & _). rewrite Hel in X1. injection X1 as <-. exists x'. split; [done|].
  rewrite (Hn a el x' ltac:(by left) Hel X2). apply IH; [|intros b y y' Hb; apply Hn; by right|done].
  intros b Hb. apply Hs. by right.
Qed.

Lemma graph_wf_similar bs good mem0 mem1 g l : graph_wf bs good mem0 g l -> similar l mem0 mem1 -> same_next l mem0 mem1 ->
  elements_complete bs good mem1 l -> graph_wf bs good mem1 g l.
Proof.
  intros [G1 G2 G3 G4 G5] Hs Hn He. split; [by eapply chain_similar|done|done| |].
  2: { intros a el' Ha Hel'. destruct (Hs a Ha) as (x & x' & X1 & X2 & _ & _ & X3). rewrite Hel' in X2. injection X2 as ->.
       rewrite X3. by apply G5. }
  destruct G4 as [G4|(Hin & en & Hen & Htop)]; [by left|]. right. split; [done|].
  destruct (Hs _ Hin) as (x & x' & X1 & X2 & _ & X3 & _). rewrite Hen in X1. injection X1 as <-. exists x'. split; [done|].
  intros a el' Ha Hel'. destruct (Hs a Ha) as (y & y' & Y1 & Y2 & _ & Y3 & _). rewrite Hel' in Y2. injection Y2 as ->.
  rewrite X3, Y3. by apply (Htop a).
Qed.

Lemma merged_graph bs good g l v tid s s' : ItemPointerIsValid tid = true -> graph_wf bs good (mem s) g l -> merged l v tid s s' ->
  graph_wf bs good (mem s') g l /\ l ≫= rows_in (mem s') ≡ₚ (tid, v) :: (l ≫= rows_in (mem s)).
Proof.
  intros Hvalid Hg (d & x & Hd & Hx & Hv & Hlen & ->). set (x' := el_set_heaptids _ x).
  destruct (mg_elements _ _ _ _ _ Hg d Hd) as (x0 & Hx0 & vx & ns & [C1 C2 C3 C4 C5 C6] & Harr). rewrite Hx in Hx0. injection Hx0 as <-.
  assert (Hok : element_ok bs good (mem s) l x').
  { exists vx, ns. split; [|done]. split; try done.
    - by destruct C1 as [W1 W2 W3 W4].
    - split; [apply Forall_app; split; [apply C3|by repeat constructor]|simpl; rewrite length_app; simpl; lia]. }
  destruct (elements_changed bs good (mem s) l d x x' (mg_elements _ _ _ _ _ Hg) Hx eq_refl eq_refl eq_refl Hok) as [Hs He]. split.
  - apply (graph_wf_similar _ _ (mem s)); [done|done| |done]. intros a el el' Ha Hel Hel'. simpl in Hel'.
    destruct (decide (a = d)) as [->|Hne].
    + rewrite lookup_insert_eq in Hel'. injection Hel' as <-. rewrite Hx in Hel. by injection Hel as <-.
    + rewrite lookup_insert_ne in Hel' by done. congruence.
  - apply (bind_changed _ _ _ d); [apply Hg|done| |].
    + intros a Ha' Hne. unfold rows_in. simpl. by rewrite lookup_insert_ne.
    + unfold rows_in. simpl. rewrite lookup_insert_eq, Hx. simpl. by rewrite Hv, fmap_app.
Qed.

(** ** Connections to a new element *)

Definition array_of (mem0 : gmap addr HnswElementData) (a : addr) (lc : nat) : option HnswNeighborArray :=
  el ← mem0 !! a ; ns ← el_neighbors el ; ns !! lc.

(** Only neighbors changed, not those of [e], none in the layers below [k]. *)
Record rewired (e : addr) (k : nat) (s s' : Backend) : Prop := {
  rw_index : index s' = index s;
  rw_xlog : xlog s' = xlog s;
  rw_new : mem s' !! e = mem s !! e;
  rw_element a x : mem s !! a = Some x -> exists ns, mem s' !! a = Some (el_set_neighbors ns x);
  rw_lower a i : (i < k)%nat -> array_of (mem s') a i = array_of (mem s) a i
}.

Lemma rewired_refl e k s : rewired e k s s.
Proof. split; try done. intros a x Hx. exists (el_neighbors x). rewrite Hx. by destruct x. Qed.

Lemma rewired_trans e k k' s s1 s2 : rewired e k s s1 -> rewired e k' s1 s2 -> (k' <= k)%nat -> rewired e k' s s2.
Proof.
  intros [A1 A2 A3 A4 A5] [B1 B2 B3 B4 B5] Hk. split; try congruence.
  - intros a x Hx. destruct (A4 a x Hx) as (ns & Hns). destruct (B4 a _ Hns) as (ns' & Hns'). by exists ns'.
  - intros a i Hi. rewrite B5, A5 by lia. done.
Qed.

Lemma rewired_similar bs good l e k s s' : elements_complete bs good (mem s) l -> rewired e k s s' -> similar l (mem s) (mem s').
Proof.
  intros He Hr a Ha. destruct (He a Ha) as (x & Hx & _). destruct (rw_element _ _ _ _ Hr a x Hx) as (ns & Hns). by exists x, (el_set_neighbors ns x).
Qed.

Section Connections.
Context `{ListSort} (garbage : HnswCandidate).
Context (bs : BuildSettings) (good : Vector -> Prop) (Hsup : support_ok (bs_support bs) good).
Context (L : list addr) (e : addr).

#[local] Abbreviation m := (bs_m bs).
#[local] Abbreviation support := (bs_support bs).
#[local] Abbreviation D mem0 := (distance_in support mem0).

(** The element is not a neighbor of [a] at layer [lc]. *)
Definition no_link (mem0 : gmap addr HnswElementData) (a : addr) (lc : nat) : Prop :=
  forall arr hc, array_of mem0 a lc = Some arr -> hc ∈ na_items arr -> hc_element hc <> e.

(** A neighbor of [e] that is to be connected to it. *)
Definition to_connect (mem0 : gmap addr HnswElementData) (lc : nat) (hc : HnswCandidate) : Prop :=
  in_layer mem0 L (Z.of_nat lc) (hc_element hc) /\ hc_element hc <> e /\ numeric hc_distance hc /\
  no_link mem0 (hc_element hc) lc.

Lemma complete_distances mem0 cs : elements_complete bs good mem0 L -> (forall hc, hc ∈ cs -> hc_element hc ∈ L) ->
  distances_defined NULL mem0 support (D mem0) cs.
Proof using Hsup.
  intros He Hin a b Ha Hb. destruct (He _ (Hin a Ha)) as (x & Hx & vx & nx & Cx & _), (He _ (Hin b Hb)) as (y & Hy & vy & ny & Cy & _).
  destruct (distance_of_values good support Hsup mem0 a b x y vx vy Hx Hy) as [d Hd];
    [apply (wa_value _ _ _ (cm_writable _ _ _ _ _ _ _ Cx))|apply (wa_value _ _ _ (cm_writable _ _ _ _ _ _ _ Cy))|
     apply (cm_good _ _ _ _ _ _ _ Cx)|apply (cm_good _ _ _ _ _ _ _ Cy)|]. by eapply candidate_distance_in.
Qed.

Lemma update_connection_run s lc hc : elements_complete bs good (mem s) L -> in_layer (mem s) L (Z.of_nat lc) e ->
  to_connect (mem s) lc hc -> exists el ns arr,
    mem s !! hc_element hc = Some el /\ el_neighbors el = Some ns /\
    update_connection garbage bs NULL e (HnswGetLayerM m (Z.of_nat lc)) (Z.of_nat lc) hc tt s =
      Ok (tt, put (hc_element hc) s (with_layers (<[lc := arr]> ns) el)) /\
    element_ok bs good (mem s) L (with_layers (<[lc := arr]> ns) el).
Proof using Hsup.
  intros He Hine (Hin & Hne & Hnum & Hno). set (a := hc_element hc) in *. destruct Hin as (Ha & el & Hel & Hlev).
  destruct (He a Ha) as (el' & Hel' & v & ns & [C1 C2 C3 C4 C5 C6] & Harr). rewrite Hel in Hel'. injection Hel' as <-.
  destruct (lookup_lt_is_Some_2 ns lc ltac:(lia)) as [arr0 H0']. destruct (C6 lc arr0 H0') as [A1 A2]. pose proof (Harr lc arr0 H0') as Hok.
  assert (Hao : array_of (mem s) a lc = Some arr0) by (unfold array_of; rewrite Hel; simpl; by rewrite C4).
  set (lm := HnswGetLayerM m (Z.of_nat lc)) in *. set (new := mkHnswCandidate e (hc_distance hc) (hc_closer garbage)).
  assert (Hcs : candidates_ok NULL (na_items arr0 ++ [new])).
  { destruct (ao_cands _ _ _ _ Hok) as [K1 K2 K3]. split; [|by intros ? ? ?|].
    - intros x [Hx|Hx%list_elem_of_singleton]%elem_of_app; [by apply K1|by subst x].
    - rewrite fmap_app. apply list.NoDup_app. split; [done|]. split; [|apply NoDup_singleton].
      intros x Hx Hx'. apply list_elem_of_singleton in Hx' as ->. apply list_elem_of_fmap in Hx as (y & Hy & Hin).
      by apply (Hno arr0 y). }
  assert (Hdef : distances_defined NULL (mem s) support (D (mem s)) (na_items arr0 ++ [new])).
  { apply complete_distances; [done|]. intros x [Hx|Hx%list_elem_of_singleton]%elem_of_app; [by apply A2|subst x; apply Hine]. }
  destruct (HnswUpdateConnection_run NULL (mem s) support (D (mem s)) (hc_closer garbage) arr0 e (hc_distance hc) lm None Hok Hcs Hdef)
    as (arr & idx & E & Hok' & Hkeys & _). exists el, ns, arr. split; [done|]. split; [done|]. split.
  - unfold update_connection. change (HnswPtrAccess NULL (hc_element hc)) with a.
    assert (Hget : HnswGetNeighbors NULL a (Z.of_nat lc) s = Ok (arr0, s)).
    { unfold HnswGetNeighbors. run (load_element_run _ _ _ Hel). unfold lift_res, neighbors_of. rewrite C4.
      destruct (Z.ltb_spec (Z.of_nat lc) 0); [lia|]. by rewrite Nat2Z.id, H0'. }
    run Hget. rewrite (M_bind_run _ _ s s s) by done. run (lift_res_run _ s _ E).
    rewrite <- (Nat2Z.id lc) at 2.
    exact (modify_neighbors_run a s el ns (Z.of_nat lc) (fun _ => arr) arr0 Hel C4 ltac:(lia) ltac:(by rewrite Nat2Z.id)).
  - exists v, (<[lc := arr]> ns). split; [split; try done|].
    + by destruct C1 as [W1 W2 W3 W4].
    + by rewrite length_insert.
    + intros i b Hb. rewrite list_lookup_insert in Hb. case_decide as Hd; [|by apply C6]. destruct Hd as [<- _].
      injection Hb as <-. split; [apply Hok'|]. intros x Hx. apply (list_elem_of_fmap_2 hc_key) in Hx. apply Hkeys in Hx.
      apply list_elem_of_fmap in Hx as (y & [= E1 _] & Hy). rewrite E1.
      apply elem_of_app in Hy as [Hy|Hy%list_elem_of_singleton]; [by apply A2|by subst y].
    + intros i b Hb. rewrite list_lookup_insert in Hb. case_decide as Hd; [|by apply Harr]. destruct Hd as [<- _]. by injection Hb as <-.
Qed.

(** One connection changes one array. *)
Lemma connected s a el ns lc arr : elements_complete bs good (mem s) L -> mem s !! a = Some el -> el_neighbors el = Some ns -> a <> e ->
  element_ok bs good (mem s) L (with_layers (<[lc := arr]> ns) el) ->
  let s' := put a s (with_layers (<[lc := arr]> ns) el) in
  rewired e lc s s' /\ elements_complete bs good (mem s') L /\ forall b i, b <> a -> array_of (mem s') b i = array_of (mem s) b i.
Proof using Type.
  intros He Hel Hns Hne Hok s'.
  destruct (elements_changed bs good (mem s) L a el (with_layers (<[lc := arr]> ns) el) He Hel eq_refl eq_refl eq_refl Hok) as [Hs He'].
  assert (Hother : forall b i, b <> a -> array_of (mem s') b i = array_of (mem s) b i).
  { intros b i Hb. unfold array_of, s'. simpl. by rewrite lookup_insert_ne. }
  split; [|by split]. split; try done.
  - unfold s'. simpl. by rewrite lookup_insert_ne.
  - intros b x Hx. unfold s'. simpl. destruct (decide (b = a)) as [->|Hb].
    + rewrite lookup_insert_eq. rewrite Hel in Hx. injection Hx as <-. by eexists.
    + rewrite lookup_insert_ne by done. exists (el_neighbors x). rewrite Hx. by destruct x.
  - intros b i Hi. destruct (decide (b = a)) as [->|Hb]; [|by apply Hother]. unfold array_of, s'. simpl.
    rewrite lookup_insert_eq, Hel. simpl. rewrite Hns. simpl. by rewrite list_lookup_insert_ne by lia.
Qed.

(** The neighbors of [e] at a layer are connected to it. *)
Lemma connect_items_run lc items : forall s, elements_complete bs good (mem s) L -> in_layer (mem s) L (Z.of_nat lc) e ->
  NoDup (hc_element <$> items) -> Forall (to_connect (mem s) lc) items ->
  exists s', mfor items tt (update_connection garbage bs NULL e (HnswGetLayerM m (Z.of_nat lc)) (Z.of_nat lc)) s = Ok (tt, s') /\
    rewired e lc s s' /\ elements_complete bs good (mem s') L.
Proof using Hsup.
  induction items as [|hc items IH]; intros s He Hine Hnd Hf.
  { exists s. split; [done|]. split; [apply rewired_refl|done]. }
  rewrite fmap_cons in Hnd. apply list.NoDup_cons in Hnd as [Hn Hnd]. apply list.Forall_cons in Hf as [Hhc Hf].
  destruct (update_connection_run s lc hc He Hine Hhc) as (el & ns & arr & Hel & Hns & E & Hok).
  destruct (connected s (hc_element hc) el ns lc arr He Hel Hns ltac:(apply Hhc) Hok) as (R1 & He1 & Hother).
  set (s1 := put _ _ _) in *. pose proof (rewired_similar bs good L e lc s s1 He R1) as Hs1.
  destruct (IH s1 He1) as (s2 & E2 & R2 & He2).
  - by eapply in_layer_similar.
  - done.
  - rewrite list.Forall_forall in Hf |- *. intros x Hx. destruct (Hf x Hx) as (X1 & X2 & X3 & X4).
    split; [by eapply in_layer_similar|]. split; [done|]. split; [done|]. intros arr' y Hy. rewrite Hother in Hy; [by apply X4|].
    intros Heq. apply Hn. rewrite <- Heq. by apply list_elem_of_fmap_2.
  - exists s2. rewrite mfor_cons. run E. split; [exact E2|]. split; [by eapply rewired_trans|done].
Qed.

Lemma no_link_rewired k s s' a i : rewired e k s s' -> (i < k)%nat -> no_link (mem s) a i -> no_link (mem s') a i.
Proof using Type. intros Hr Hi Hno arr hc Harr. rewrite (rw_lower _ _ _ _ Hr) in Harr by done. by apply Hno. Qed.

Lemma one_layer_run s el k : elements_complete bs good (mem s) L -> e ∈ L -> mem s !! e = Some el -> Z.of_nat k <= el_level el ->
  (forall a, a ∈ L -> no_link (mem s) a k) ->
  exists arr s1, HnswGetNeighbors NULL e (Z.of_nat k) s = Ok (arr, s) /\
    mfor (na_items arr) tt (update_connection garbage bs NULL e (HnswGetLayerM m (Z.of_nat k)) (Z.of_nat k)) s = Ok (tt, s1) /\
    rewired e k s s1 /\ elements_complete bs good (mem s1) L.
Proof using Hsup.
  intros He Hin Hel Hk Hno. destruct (He e Hin) as (el' & Hel' & v & ns & [C1 C2 C3 C4 C5 C6] & Harr).
  rewrite Hel in Hel'. injection Hel' as <-.
  destruct (lookup_lt_is_Some_2 ns k ltac:(lia)) as [arr Ha]. destruct (C6 k arr Ha) as [_ A2].
  pose proof (ao_cands _ _ _ _ (Harr k arr Ha)) as [K1 K2 K3].
  assert (Hao : array_of (mem s) e k = Some arr) by (unfold array_of; rewrite Hel; simpl; by rewrite C4).
  destruct (connect_items_run k (na_items arr) s He ltac:(split; [done|by exists el]) K3) as (s1 & E1 & R1 & He1).
  { apply list.Forall_forall. intros hc Hhc. split; [by apply A2|]. split; [by apply (Hno e Hin arr hc)|]. split; [by apply K1|].
    apply Hno, (A2 hc Hhc). }
  exists arr, s1. split; [|done]. unfold HnswGetNeighbors. run (load_element_run _ _ _ Hel). unfold lift_res, neighbors_of.
  rewrite C4. destruct (Z.ltb_spec (Z.of_nat k) 0); [lia|]. by rewrite Nat2Z.id, Ha.
Qed.

(** The layers of [e] from [lc] down. *)
Lemma update_layers_memory_run lc : forall s el, elements_complete bs good (mem s) L -> e ∈ L -> mem s !! e = Some el ->
  Z.of_nat lc <= el_level el -> (forall a i, a ∈ L -> (i <= lc)%nat -> no_link (mem s) a i) ->
  exists s', update_layers_memory garbage bs NULL e lc s = Ok (tt, s') /\ rewired e 0 s s' /\ elements_complete bs good (mem s') L.
Proof using Hsup.
  induction lc as [|lc IH]; intros s el He Hin Hel Hlc Hno; cbn [update_layers_memory]; cbv zeta.
  - destruct (one_layer_run s el O He Hin Hel Hlc (fun a Ha => Hno a O Ha (le_n _))) as (arr & s1 & E0 & E1 & R1 & He1).
    run E0. run E1. by exists s1.
  - destruct (one_layer_run s el (S lc) He Hin Hel Hlc (fun a Ha => Hno a (S lc) Ha (le_n _))) as (arr & s1 & E0 & E1 & R1 & He1).
    run E0. run E1. destruct (IH s1 el He1 Hin) as (s2 & E2 & R2 & He2).
    + by rewrite (rw_new _ _ _ _ R1).
    + lia.
    + intros a i Ha' Hi. eapply no_link_rewired; [exact R1|lia|apply Hno; [done|lia]].
    + exists s2. split; [exact E2|]. split; [eapply rewired_trans; [exact R1|exact R2|lia]|done].
Qed.
End Connections.

(** ** [InsertTupleInMemory] *)

Definition with_entry (b : bool) (e : addr) (g : HnswGraph) : HnswGraph :=
  if b then gr_set_entryPoint (HnswPtrStore NULL e) (gr_set_head (HnswPtrStore NULL e) g) else gr_set_head (HnswPtrStore NULL e) g.

(** Whether an element of the level becomes the entry point. *)
Definition is_better (mem0 : gmap addr HnswElementData) (entryPoint : addr) (level : Z) (b : bool) : Prop :=
  if (entryPoint =? NULL)%N then b = true else exists en, mem0 !! entryPoint = Some en /\ b = (el_level en <? level).

Section Insertion.
Context `{Palloc} `{ListSort} (garbage : HnswCandidate) (fuel : nat).
Context (bs : BuildSettings) (Hm : HNSW_MIN_M <= bs_m bs <= HNSW_MAX_M) (good : Vector -> Prop).
Context (Hsup : support_ok (bs_support bs) good).
Context (g : HnswGraph) (l : list addr) (e : addr) (v : Vector) (Hgood : good v) (tid : ItemPointerData).
Context (Hnew : e ∉ l) (Hnull : e <> NULL) (Hfuel : (length l <= fuel)%nat).

Lemma added_graph mem0 el b : graph_wf bs good mem0 g l -> element_ok bs good mem0 l el -> el_hash el = key_hash NULL e ->
  is_better mem0 (gr_entryPoint g) (el_level el) b ->
  graph_wf bs good (<[e := el_set_next (gr_head g) el]> mem0) (with_entry b e g) (e :: l).
Proof using Hnew Hnull.
  clear Hfuel. intros Hg Hok Hhash Hb. set (el1 := el_set_next (gr_head g) el). set (mem1 := <[e := el1]> mem0).
  assert (Hsame : forall a, a ∈ l -> mem1 !! a = mem0 !! a) by (intros a Ha; apply lookup_insert_ne; congruence).
  assert (Hel : mem1 !! e = Some el1) by apply lookup_insert_eq.
  destruct (graph_wf_outside bs good mem0 mem1 g l Hsame Hg) as [G1 G2 G3 G4 G5].
  assert (Hsim : similar l mem0 mem1).
  { intros a Ha. destruct (mg_elements _ _ _ _ _ Hg a Ha) as (x & Hx & _). exists x, x. by rewrite Hsame. }
  assert (Hmore : forall x, element_ok bs good mem1 l x -> element_ok bs good mem1 (e :: l) x) by (intros x; apply element_ok_more; intros a Ha; by right).
  assert (Hok1 : element_ok bs good mem1 (e :: l) el1).
  { apply Hmore, (element_ok_similar _ _ _ mem0); [done|]. destruct Hok as (v' & ns & [C1 C2 C3 C4 C5 C6] & Harr).
    exists v', ns. split; [|done]. split; try done. by destruct C1 as [W1 W2 W3 W4]. }
  assert (Hhead : gr_head (with_entry b e g) = e) by (by destruct b). split.
  - rewrite Hhead. split; [done|]. split; [done|]. by exists el1.
  - by apply list.NoDup_cons.
  - intros a [->|Ha]%elem_of_cons; [by exists el1|]. destruct (G3 a Ha) as (x & Hx & Hxo). exists x. split; [done|by apply Hmore].
  - right. assert (Hlevel : el_level el1 = el_level el) by done. unfold is_better in Hb.
    destruct G4 as [[-> Hentry]|(Hin & en & Hen & Htop)].
    + rewrite Hentry in Hb. change (b = true) in Hb. subst b. split; [by left|]. exists el1. split; [done|].
      intros a x Ha Hx. apply list_elem_of_singleton in Ha as ->. replace x with el1 by congruence. lia.
    + pose proof (chain_not_null _ _ _ _ G1 Hin) as Hen0. apply N.eqb_neq in Hen0. rewrite Hen0 in Hb.
      destruct Hb as (en' & Hen' & Hb). rewrite <- (Hsame _ Hin), Hen in Hen'. injection Hen' as <-.
      destruct (Z.ltb_spec (el_level en) (el_level el)) as [Hlt|Hge]; subst b; unfold with_entry; cbn.
      * split; [by left|]. exists el1. split; [done|]. intros a x [->|Ha]%elem_of_cons Hx; [replace x with el1 by congruence; lia|].
        specialize (Htop a x Ha Hx). lia.
      * split; [by right|]. exists en. split; [done|]. intros a x [->|Ha]%elem_of_cons Hx; [replace x with el1 by congruence; lia|].
        by apply (Htop a).
  - intros a x [->|Ha]%elem_of_cons Hx; [|by apply G5]. rewrite Hel in Hx. by injection Hx as <-.
Qed.

Lemma better_entry_memory s el entryPoint : mem s !! e = Some el -> (entryPoint <> NULL -> is_Some (mem s !! entryPoint)) ->
  exists b, better_entry e entryPoint s = Ok (b, s) /\ is_better (mem s) entryPoint (el_level el) b.
Proof using Type.
  intros Hel Hen. unfold better_entry, is_better. run (load_element_run _ _ _ Hel).
  destruct (N.eqb_spec entryPoint NULL) as [|Hn]; [by exists true|]. destruct (Hen Hn) as [en Hen']. run (load_element_run _ _ _ Hen').
  eexists. split; [done|]. by exists en.
Qed.

Lemma rewired_better s s' k a entryPoint level b : rewired a k s s' -> is_better (mem s') entryPoint level b ->
  (entryPoint <> NULL -> is_Some (mem s !! entryPoint)) -> is_better (mem s) entryPoint level b.
Proof using Type.
  intros Hr. unfold is_better. destruct (N.eqb_spec entryPoint NULL) as [|Hn]; [done|]. intros (en & Hen & ->) Hs.
  destruct (Hs Hn) as [x Hx]. destruct (rw_element _ _ _ _ Hr _ x Hx) as (ns & Hns). rewrite Hen in Hns. injection Hns as ->. by exists x.
Qed.

(** The elements but [e] have no link to it. *)
Lemma no_link_new mem0 mem1 a i : elements_complete bs good mem0 l -> (forall b, b ∈ l -> mem1 !! b = mem0 !! b) ->
  a ∈ l -> no_link e mem1 a i.
Proof using Hnew.
  intros He Hsame Ha arr hc Harr Hhc Heq. destruct (He a Ha) as (x & Hx & vx & ns & [C1 C2 C3 C4 C5 C6] & _).
  unfold array_of in Harr. rewrite Hsame, Hx in Harr by done. simpl in Harr. rewrite C4 in Harr. simpl in Harr.
  destruct (proj2 (C6 i arr Harr) hc Hhc) as [Hin _]. by rewrite Heq in Hin.
Qed.

(** The result of an insertion into the graph. *)
Record graph_extended (s : Backend) (g' : HnswGraph) (s' : Backend) (l' : list addr) : Prop := {
  gx_wf : graph_wf bs good (mem s') g' l';
  gx_tids : l' ≫= rows_in (mem s') ≡ₚ (tid, v) :: (l ≫= rows_in (mem s));
  gx_length : (length l' <= S (length l))%nat;
  gx_index : index s' = index s;
  gx_xlog : xlog s' = xlog s;
  gx_counts : gr_indtuples g' = gr_indtuples g /\ gr_flushed g' = gr_flushed g
}.

Lemma rewired_rows k s s' a : rewired e k s s' -> is_Some (mem s !! a) -> rows_in (mem s') a = rows_in (mem s) a.
Proof using Type.
  intros Hr [x Hx]. destruct (rw_element _ _ _ _ Hr a x Hx) as (ns & Hns). unfold rows_in. by rewrite Hx, Hns.
Qed.

(** The element is not a duplicate: it joins the graph. *)
Lemma join_graph_run s el : graph_wf bs good (mem s) g l -> mem s !! e = Some el -> element_ok bs good (mem s) l el ->
  el_hash el = key_hash NULL e ->
  el_value el = Some v -> el_heaptids el = [tid] ->
  exists g' s' l', (g1 ← AddElementInMemory NULL e g ;
      UpdateNeighborsInMemory garbage bs NULL e ;;
      better ← better_entry e (gr_entryPoint g) ;
      mret (if better : bool then gr_set_entryPoint (HnswPtrStore NULL e) g1 else g1)) s = Ok (g', s') /\
    graph_extended s g' s' l'.
Proof using Hsup Hnew Hnull.
  clear Hfuel. intros Hg Hel Hok Hhash Hv Htid. set (el1 := el_set_next (gr_head g) el). set (s1 := put e s el1).
  assert (E1 : AddElementInMemory NULL e g s = Ok (gr_set_head (HnswPtrStore NULL e) g, s1)).
  { unfold AddElementInMemory, modify_element, mbind, M_bind, load_element, store_element. by rewrite Hel, Hel. }
  run E1. assert (Hsame : forall a, a ∈ l -> mem s1 !! a = mem s !! a) by (intros a Ha; apply lookup_insert_ne; congruence).
  assert (Hel1 : mem s1 !! e = Some el1) by apply lookup_insert_eq.
  assert (Hentry : gr_entryPoint g <> NULL -> gr_entryPoint g ∈ l) by (destruct (mg_entry _ _ _ _ _ Hg) as [[_ ->]|[? _]]; done).
  assert (Hentry1 : gr_entryPoint g <> NULL -> is_Some (mem s1 !! gr_entryPoint g)).
  { intros Hn. rewrite Hsame by auto. destruct (mg_elements _ _ _ _ _ Hg _ (Hentry Hn)) as (x & Hx & _). by eexists. }
  destruct (better_entry_memory s1 el1 (gr_entryPoint g) Hel1 Hentry1) as (b1 & _ & Hb1).
  assert (Hb0 : is_better (mem s) (gr_entryPoint g) (el_level el) b1).
  { unfold is_better in *. destruct (N.eqb_spec (gr_entryPoint g) NULL) as [|Hn]; [done|]. rewrite <- Hsame by auto. exact Hb1. }
  pose proof (added_graph (mem s) el b1 Hg Hok Hhash Hb0) as Hg1. fold el1 in Hg1. change (<[e := el1]> (mem s)) with (mem s1) in Hg1.
  pose proof (mg_elements _ _ _ _ _ Hg1) as He1.
  destruct (He1 e ltac:(by left)) as (el1' & Hel1' & v' & ns & C & _). rewrite Hel1 in Hel1'. injection Hel1' as <-.
  pose proof (wa_level _ _ _ (cm_writable _ _ _ _ _ _ _ C)) as Hlev.
  destruct (update_layers_memory_run garbage bs good Hsup (e :: l) e (Z.to_nat (el_level el1)) s1 el1 He1 ltac:(by left) Hel1 ltac:(lia))
    as (s2 & E2 & R2 & He2).
  { intros a i [->|Ha]%elem_of_cons _; [|by apply (no_link_new (mem s) _ _ _ (mg_elements _ _ _ _ _ Hg) Hsame)].
    intros arr hc Harr Hhc Heq. unfold array_of in Harr. rewrite Hel1 in Harr. simpl in Harr.
    destruct Hok as (v0 & ns0 & [C1 C2 C3 C4 C5 C6] & _). rewrite C4 in Harr. simpl in Harr.
    destruct (proj2 (C6 i arr Harr) hc Hhc) as [Hin _]. by rewrite Heq in Hin. }
  assert (EU : UpdateNeighborsInMemory garbage bs NULL e s1 = Ok (tt, s2)).
  { unfold UpdateNeighborsInMemory. by run (load_element_run _ _ _ Hel1). }
  run EU. destruct (better_entry_memory s2 el1 (gr_entryPoint g)) as (b2 & E3 & Hb2).
  { by rewrite (rw_new _ _ _ _ R2). }
  { intros Hn. destruct (Hentry1 Hn) as [x Hx]. destruct (rw_element _ _ _ _ R2 _ x Hx) as (n' & ->). by eexists. }
  pose proof (rewired_better s1 s2 _ _ _ _ _ R2 Hb2 Hentry1) as Hb2'.
  assert (b2 = b1) as ->.
  { unfold is_better in Hb1, Hb2'. destruct (gr_entryPoint g =? NULL)%N; [congruence|].
    destruct Hb1 as (x & Hx & ->), Hb2' as (y & Hy & ->). congruence. }
  run E3. exists (with_entry b1 e g), s2, (e :: l). split; [by destruct b1|]. split.
  - apply (graph_wf_similar _ _ (mem s1)); [done|by eapply rewired_similar| |done].
    intros a x x' Ha Hx Hx'. destruct (rw_element _ _ _ _ R2 a x Hx) as (n' & Hn'). rewrite Hx' in Hn'. by injection Hn' as ->.
  - rewrite bind_cons, (rewired_rows 0 s1 s2 e R2) by by eexists.
    unfold rows_in at 1. rewrite Hel1. change (el_heaptids el1) with (el_heaptids el). change (el_value el1) with (el_value el).
    rewrite Hv, Htid. simpl. f_equiv.
    rewrite (bind_same (rows_in (mem s))); [done|]. intros a Ha.
    destruct (mg_elements _ _ _ _ _ Hg a Ha) as (x & Hx & _).
    rewrite (rewired_rows 0 s1 s2 a R2) by (rewrite Hsame by done; by eexists). unfold rows_in. by rewrite Hsame.
  - done.
  - apply (rw_index _ _ _ _ R2).
  - apply (rw_xlog _ _ _ _ R2).
  - by destruct b1.
Qed.

Lemma InsertTupleInMemory_run s el : graph_wf bs good (mem s) g l -> mem s !! e = Some el -> unconnected bs v tid el ->
  exists g' s' l', InsertTupleInMemory garbage fuel bs NULL e g s = Ok (g', s') /\ graph_extended s g' s' l'.
Proof using All.
  intros Hg Hel Hun. pose proof Hun as [U1 U2 U3 U4 U5]. unfold InsertTupleInMemory.
  change (HnswPtrAccess NULL (gr_entryPoint g)) with (gr_entryPoint g).
  destruct (connect_new_run garbage fuel bs Hm good Hsup g l e v Hgood tid Hnew Hfuel s el Hg Hel Hun) as (el' & E1 & [S1 S2 S3] & Hhash & Hok).
  cbv zeta. run E1. set (s1 := put e s el'). assert (Hsame : forall a, a ∈ l -> mem s1 !! a = mem s !! a) by (intros a Ha; apply lookup_insert_ne; congruence).
  assert (Hel1 : mem s1 !! e = Some el') by apply lookup_insert_eq.
  pose proof (graph_wf_outside _ _ _ _ _ _ Hsame Hg) as Hg1. pose proof (mg_elements _ _ _ _ _ Hg1) as He1.
  assert (Hold : l ≫= rows_in (mem s1) = l ≫= rows_in (mem s)).
  { apply bind_same. intros a Ha. unfold rows_in. by rewrite Hsame. }
  pose proof Hok as (v' & ns & [C1 C2 C3 C4 C5 C6] & _). pose proof (wa_level _ _ _ C1) as Hlev.
  destruct (lookup_lt_is_Some_2 ns O ltac:(lia)) as [arr Ha].
  destruct (FindDuplicateInMemory_run bs good l e v tid s1 el' ns He1 Hel1 ltac:(congruence) ltac:(congruence) C4) as (b & s2 & E2 & Hb).
  { exists arr. split; [done|]. intros hc Hhc. apply (proj2 (C6 O arr Ha) hc Hhc). }
  unfold UpdateGraphInMemory. run E2. destruct b.
  - destruct (merged_graph bs good g l v tid s1 s2 U4 Hg1 Hb) as [Hg2 Ht]. exists g, s2, l. split; [done|].
    destruct Hb as (d & x & _ & _ & _ & _ & ->). split; try done; [by rewrite Ht, Hold|lia].
  - subst s2. destruct (join_graph_run s1 el' Hg1 Hel1) as (g' & s' & l' & E3 & [J1 J2 J3 J4 J5 J6]).
    { eapply element_ok_similar; [|exact Hok]. intros a Ha'. destruct (He1 a Ha') as (x & Hx & _). exists x, x. by rewrite <- Hsame. }
    { done. }
    { congruence. }
    { congruence. }
    exists g', s', l'. split; [exact E3|]. split; try done. by rewrite J2, Hold.
Qed.
End Insertion.
