(* ===== verification/BuildSpec.v ===== *)
(** * Build: the whole

    [hnswbuild] (HnswBuild.v) for any table: the tuples go into the graph in
    memory (BuildMemory.v) until it is written to pages (BuildPages.v) because
    memory is full or the table is read, and those that follow go into the index
    on the pages (InsertOnDisk.v). *)

From Stdlib Require Import SpecFloat.
From S2P Require Import Prelude CFloat ItemPtr VectorType HnswData BufPage Backend HnswUtils LayerRefinement PageUpdate QSort SelectNeighbors HnswInsert AddElement.
From S2P Require Import IndexWf InsertOnDisk HnswBuild BuildPages BuildMemory.

(** ** Rows *)

(** The TIDs of the rows with a value to index. *)
Definition kept_rows (rows : list (heap_tuple * option Vector)) : list (ItemPointerData * Vector) :=
  rows ≫= fun '(tid, _, _, w) => match w with Some v => [(tid, v)] | None => [] end.

Definition rows_ok `{Libm} (good : Vector -> Prop) (rel : Relation) (m : Z) (rows : list (heap_tuple * option Vector)) : Prop :=
  Forall (fun '(tid, value, random, w) => row_ok good rel m value w tid random) rows.

Lemma index_value_pages rel pages value : index_value (with_pages rel MAIN_FORKNUM pages) value = index_value rel value.
Proof. by destruct value. Qed.


(** ** The settings *)

Lemma InitBuildState_ok `{Libm} rel forkNum is_varbit bs : InitBuildState rel forkNum is_varbit = Ok bs ->
  bs = mkBuildSettings forkNum (HnswGetTypeInfo rel) (HnswGetM rel) (HnswGetEfConstruction rel) (rd_typmod rel)
         (HnswInitSupport rel) (HnswGetMl (HnswGetM rel)) (HnswGetMaxLevel (HnswGetM rel)).
Proof.
  unfold InitBuildState. intros Hr. repeat (apply res_bind_ok in Hr as ([] & _ & Hr)). by injection Hr as <-.
Qed.

Lemma list_to_set_size (l : list ItemPointerData) : (size (list_to_set l : gset ItemPointerData) <= length l)%nat.
Proof.
  induction l as [|a k IH]; [done|]. simpl. rewrite size_union_alt, size_singleton.
  assert (size ((list_to_set k : gset ItemPointerData) ∖ {[a]}) <= size (list_to_set k : gset ItemPointerData))%nat
    by (apply subseteq_size; set_solver). lia.
Qed.

(** ** The state of a build *)

Section Build.
Context `{Palloc} `{ListSort} `{Libm} (garbage : HnswCandidate) (fuel : nat) (allocated : Backend -> Z).
Context (good : Vector -> Prop) (rel0 : Relation) (is_varbit : bool) (bs : BuildSettings).
Context (Hbs : InitBuildState rel0 MAIN_FORKNUM is_varbit = Ok bs) (Hm : HNSW_MIN_M <= bs_m bs <= HNSW_MAX_M).
Context (Hsup : support_ok (HnswInitSupport rel0) good).

#[local] Abbreviation m := (bs_m bs).

(** The pages of the index after the graph was written. *)
Record pages_built (s : Backend) (T : list (ItemPointerData * Vector)) (n : nat) : Prop := {
  pb_wf : exists meta E, index_wf (index s) meta good E /\ index_rows (index s) E ≡ₚ T /\ all_held (index s) E /\
    (size E <= n)%nat /\ mp_m meta = m /\ mp_dimensions meta = bs_dimensions bs;
  pb_length : nlen (index s) <= 2 + 2 * Z.of_nat n
}.

(** The graph in memory, before. *)
Record graph_built (s : Backend) (g : HnswGraph) (T : list (ItemPointerData * Vector)) (n : nat) : Prop := {
  gb_wf : exists l, graph_wf bs good (mem s) g l /\ l ≫= rows_in (mem s) ≡ₚ T /\ (length l <= n)%nat;
  gb_pages : rd_main (index s) = []
}.

(** After [n] tuples, with the TIDs [T]. *)
Record building (g : HnswGraph) (s : Backend) (T : list (ItemPointerData * Vector)) (n : nat) : Prop := {
  bu_xlog : xlog s = None;
  bu_rel : index s = with_pages rel0 MAIN_FORKNUM (rd_main (index s));
  bu_graph : if gr_flushed g then pages_built s T n else graph_built s g T n
}.

Lemma settings : bs_forkNum bs = MAIN_FORKNUM /\ bs_typeInfo bs = HnswGetTypeInfo rel0 /\ bs_support bs = HnswInitSupport rel0 /\
  bs_ml bs = HnswGetMl m /\ bs_maxLevel bs = HnswGetMaxLevel m.
Proof using Hbs. by rewrite (InitBuildState_ok _ _ _ _ Hbs). Qed.

(** The graph is written. *)
Lemma build_flush_run g s T n : building g s T n -> gr_flushed g = false ->
  2 + 2 * Z.of_nat n <= InvalidBlockNumber -> (n <= fuel)%nat ->
  exists s', FlushPages fuel bs NULL g s = Ok (gr_set_flushed g, s') /\ building (gr_set_flushed g) s' T n.
Proof using Hbs Hm.
  clear Hsup. intros [B1 B2 B3] Hf Hsz Hn. rewrite Hf in B3. destruct B3 as [(l & Hg & Ht & Hl) Hmain].
  destruct settings as (Hfork & _).
  destruct (FlushPages_run bs Hfork Hm good fuel s g l (graph_flushable bs good _ _ _ Hg) Hmain B1 ltac:(lia) ltac:(lia))
    as (s' & meta & E & Hwf & Htids & Hheld & M1 & M2 & X & Hlen & R).
  exists s'. split; [exact E|]. split; [done|rewrite R, B2 at 1; by destruct rel0|]. simpl. split; [|lia].
  exists meta, (graph_tids s' l). split; [done|]. split; [by rewrite Htids|]. split; [done|]. split; [|done].
  unfold graph_tids. pose proof (list_to_set_size (tid_in (mem s') <$> l)) as Hs. rewrite length_fmap in Hs. lia.
Qed.

(** A tuple that can be indexed: its value [v] has distances. *)
Section Tuple.
Context (v : Vector) (tid : ItemPointerData) (random : double).
Context (Hgood : good v) (Hvalid : ItemPointerIsValid tid = true) (Hdrawn : level_drawn m random).

(** It goes into the index on the pages. *)
Lemma build_on_disk_run g s T n : building g s T n -> gr_flushed g = true ->
  2 + 2 * Z.of_nat (S n) <= InvalidBlockNumber -> 2 + 2 * Z.of_nat (S n) <= Z.of_nat fuel ->
  exists s', HnswInsertTupleOnDisk garbage fuel (bs_support bs) v tid random true s = Ok (true, s') /\ building g s' ((tid, v) :: T) (S n).
Proof using Hbs Hsup Hgood Hvalid Hdrawn.
  intros [B1 B2 B3] Hf Hsz Hn. rewrite Hf in B3. destruct B3 as [(meta & E & Hwf & Ht & Hheld & HE & M1 & M2) Hlen].
  destruct settings as (_ & _ & Hs & _). rewrite Hs. destruct Hdrawn as (level & Hdraw & Hlevel). rewrite <- M1 in Hdraw.
  destruct (HnswInsertTupleOnDisk_run garbage good _ Hsup s meta E Hwf v Hgood tid Hvalid random level Hdraw Hlevel fuel B1
    ltac:(lia) ltac:(lia) ltac:(lia) true) as (s' & meta' & E' & Erun & Hwf' & Hin & M3 & M4 & X & L & R).
  exists s'. split; [exact Erun|]. split; [done|rewrite R, B2 at 1; by destruct rel0|]. rewrite Hf. split; [|lia].
  exists meta', E'. split; [done|]. split; [by rewrite (inserted_rows _ _ _ _ _ _ Hin), Ht|].
  split; [by eapply inserted_held|]. split; [|split; congruence]. pose proof (inserted_size _ _ _ _ _ _ Hin). lia.
Qed.

(** It goes into the graph in memory. *)
Lemma build_in_memory_run g s T n : building g s T n -> gr_flushed g = false -> (n <= fuel)%nat ->
  exists g' s', (element ← HnswInitElement tid (bs_ml bs) random (bs_maxLevel bs) ;
      modify_element element (el_set_value (Some v)) ;;
      s ← get_state ;
      let g := gr_set_memoryUsed (allocated s) g in
      g ← InsertTupleInMemory garbage fuel bs NULL element g ;
      mret (g, true)) s = Ok ((g', true), s') /\ building g' s' ((tid, v) :: T) (S n) /\ gr_indtuples g' = gr_indtuples g.
Proof using Hbs Hm Hsup Hgood Hvalid Hdrawn.
  intros [B1 B2 B3] Hf Hn. rewrite Hf in B3. destruct B3 as [(l & Hg & Ht & Hl) Hmain].
  destruct settings as (_ & _ & Hs & -> & ->). destruct Hdrawn as (level & Hdraw & Hlevel).
  destruct (init_element_run m Hm v tid random level Hdraw Hlevel s) as (e & s1 & Hnull & Hfresh & X1 & Hel & Hinit). rewrite Hinit. clear Hinit.
  rewrite (M_bind_run _ _ s1 s1 s1) by done. cbv zeta. set (g1 := gr_set_memoryUsed _ g).
  assert (Hnew : e ∉ l).
  { intros Hin. destruct (mg_elements _ _ _ _ _ Hg e Hin) as (x & Hx & _). congruence. }
  assert (Hsame : forall a, a ∈ l -> mem s1 !! a = mem s !! a).
  { intros a Ha. destruct (mg_elements _ _ _ _ _ Hg a Ha) as (x & Hx & _). rewrite Hx. eapply lookup_weaken; [exact Hx|apply X1]. }
  assert (Hg1 : graph_wf bs good (mem s1) g1 l).
  { destruct (graph_wf_outside _ _ _ _ _ _ Hsame Hg) as [G1 G2 G3 G4 G5]. by split. }
  destruct (drawn_level m Hm random level Hdraw Hlevel) as [Hlev _].
  assert (Hun : unconnected bs v tid (fresh_element v tid level)) by (by split).
  destruct (InsertTupleInMemory_run garbage fuel bs Hm good ltac:(by rewrite Hs) g1 l e v Hgood tid Hnew Hnull ltac:(lia) s1 _ Hg1 Hel Hun)
    as (g' & s' & l' & E & [J1 J2 J3 J4 J5 [J6 J7]]).
  exists g', s'. split; [by run E|]. split; [|done]. destruct X1 as (_ & XI & XX). split.
  - by rewrite J5, XX.
  - by rewrite J4, XI.
  - rewrite J7. change (gr_flushed g1) with (gr_flushed g). rewrite Hf. split; [|by rewrite J4, XI]. exists l'. split; [done|]. split; [|lia].
    rewrite J2, <- Ht. f_equiv. rewrite (bind_same (rows_in (mem s))); [done|]. intros a Ha. unfold rows_in. by rewrite Hsame.
Qed.
End Tuple.

(** ** [InsertTuple] and the loop over the table *)

Lemma building_perm g s T T' n n' : T ≡ₚ T' -> (n <= n')%nat -> building g s T n -> building g s T' n'.
Proof using Type.
  intros Hp Hn [B1 B2 B3]. split; [done|done|]. destruct (gr_flushed g).
  - destruct B3 as [(meta & E & W1 & W2 & W3 & W4 & W5) Hl]. split; [|lia]. exists meta, E. rewrite <- Hp. split_and!; try done; try lia; apply W5.
  - destruct B3 as [(l & G1 & G2 & G3) Hl]. split; [|done]. exists l. rewrite <- Hp. split_and!; try done; lia.
Qed.

Lemma InsertTuple_run g s T n value w tid random : building g s T n -> row_ok good rel0 m (Some value) w tid random ->
  2 + 2 * Z.of_nat (S n) <= InvalidBlockNumber -> 2 + 2 * Z.of_nat (S n) <= Z.of_nat fuel ->
  exists g' s', InsertTuple garbage fuel bs NULL allocated value tid random g s = Ok ((g', match w with Some _ => true | None => false end), s') /\
    building g' s' (match w with Some v => [(tid, v)] | None => [] end ++ T) (S n) /\ gr_indtuples g' = gr_indtuples g.
Proof using Hbs Hm Hsup.
  intros Hb [Hval Hrow] Hsz Hfuel. destruct settings as (_ & Hti & Hs & _). unfold InsertTuple. rewrite Hti, Hs.
  unfold index_value in Hval. run (lift_res_run _ s _ Hval). destruct w as [v|].
  2: { exists g, s. split; [done|]. split; [|done]. by eapply building_perm; [|exact (le_S _ _ (le_n n))|exact Hb]. }
  destruct (Hrow v eq_refl) as (Hgood & Hvalid & Hdrawn). rewrite <- Hs. cbn [app].
  destruct (gr_flushed g) eqn:Hf; [|destruct (gr_memoryTotal g <=? gr_memoryUsed g)].
  - destruct (build_on_disk_run v tid random Hgood Hvalid Hdrawn g s T n Hb Hf Hsz Hfuel) as (s' & E & Hb'). exists g, s'. split; [by run E|done].
  - destruct (build_flush_run g s T n Hb Hf ltac:(lia) ltac:(lia)) as (s1 & E1 & Hb1). run E1.
    destruct (build_on_disk_run v tid random Hgood Hvalid Hdrawn _ s1 T n Hb1 eq_refl Hsz Hfuel) as (s' & E & Hb').
    exists (gr_set_flushed g), s'. split; [by run E|done].
  - exact (build_in_memory_run v tid random Hgood Hvalid Hdrawn g s T n Hb Hf ltac:(lia)).
Qed.

Lemma kept_rows_cons tid value random w rows :
  kept_rows ((tid, value, random, w) :: rows) = match w with Some v => [(tid, v)] | None => [] end ++ kept_rows rows.
Proof using Type. done. Qed.

Lemma BuildCallback_run g s T n tid value random w : building g s T n -> row_ok good rel0 m value w tid random ->
  2 + 2 * Z.of_nat (S n) <= InvalidBlockNumber -> 2 + 2 * Z.of_nat (S n) <= Z.of_nat fuel ->
  exists g' s', BuildCallback garbage fuel bs NULL allocated (tid, value, random) g s = Ok (g', s') /\
    building g' s' (match w with Some v => [(tid, v)] | None => [] end ++ T) (S n) /\
    gr_indtuples g' = gr_indtuples g + match w with Some _ => 1 | None => 0 end.
Proof using Hbs Hm Hsup.
  intros Hb Hrow Hsz Hfuel. unfold BuildCallback. destruct value as [value|].
  - destruct (InsertTuple_run g s T n value w tid random Hb Hrow Hsz Hfuel) as (g' & s' & E & Hb' & Hi). run E.
    destruct w as [v|].
    + exists (gr_add_tuple g'), s'. split; [done|]. split; [|by rewrite <- Hi]. destruct Hb' as [B1 B2 B3]. split; [done|done|].
      change (gr_flushed (gr_add_tuple g')) with (gr_flushed g'). destruct (gr_flushed g'); [done|].
      destruct B3 as [(l & [G1 G2 G3 G4] & Hl) Hp]. split; [|done]. exists l. split; [by split|done].
    + exists g', s'. split; [done|]. split; [done|lia].
  - destruct Hrow as [Hval _]. injection Hval as <-. exists g, s. split; [done|]. split; [|lia].
    by eapply building_perm; [|exact (le_S _ _ (le_n n))|exact Hb].
Qed.

Lemma build_rows_run rows : forall g s T n, building g s T n -> rows_ok good rel0 m rows ->
  2 + 2 * Z.of_nat (n + length rows) <= InvalidBlockNumber -> 2 + 2 * Z.of_nat (n + length rows) <= Z.of_nat fuel ->
  exists g' s', mfor (fst <$> rows) g (BuildCallback garbage fuel bs NULL allocated) s = Ok (g', s') /\
    building g' s' (kept_rows rows ++ T) (n + length rows) /\
    gr_indtuples g' = gr_indtuples g + Z.of_nat (length (kept_rows rows)).
Proof using Hbs Hm Hsup.
  induction rows as [|[[[tid value] random] w] rows IH]; intros g s T n Hb Hrows Hsz Hfuel.
  { exists g, s. split; [done|]. split; [|simpl; lia]. by rewrite Nat.add_0_r. }
  apply list.Forall_cons in Hrows as [Hrow Hrows]. simpl in Hsz, Hfuel.
  destruct (BuildCallback_run g s T n tid value random w Hb Hrow ltac:(lia) ltac:(lia)) as (g1 & s1 & E1 & Hb1 & Hi1).
  destruct (IH g1 s1 _ (S n) Hb1 Hrows ltac:(lia) ltac:(lia)) as (g2 & s2 & E2 & Hb2 & Hi2).
  exists g2, s2. rewrite fmap_cons, mfor_cons. cbn [fst]. split; [by run E1|]. rewrite kept_rows_cons. split.
  - eapply building_perm; [|rewrite length_cons, Nat.add_succ_r; exact (le_n _)|exact Hb2].
    rewrite !app_assoc. f_equiv. apply Permutation_app_comm.
  - rewrite Hi2, Hi1, length_app, Nat2Z.inj_add. destruct w; simpl; lia.
Qed.

Lemma building_start total s : rd_main (index s) = [] -> xlog s = None -> index s = rel0 -> building (InitGraph NULL total) s [] 0.
Proof using Type.
  intros Hmain Hx Hrel. split; [done|rewrite <- Hrel; by destruct (index s)|]. simpl. split; [|done]. exists []. split; [|by split].
  split; [done|constructor| |by left|]; intros a; [intros Ha|intros el Ha]; by apply elem_of_nil in Ha.
Qed.

Lemma BuildGraph_run work_mem rows s : rd_main (index s) = [] -> xlog s = None -> index s = rel0 -> rows_ok good rel0 m rows ->
  2 + 2 * Z.of_nat (length rows) <= InvalidBlockNumber -> 2 + 2 * Z.of_nat (length rows) <= Z.of_nat fuel ->
  exists g' s', BuildGraph garbage fuel bs NULL allocated (Some (fst <$> rows)) (InitGraph NULL work_mem) s = Ok (g', s') /\
    building g' s' (kept_rows rows) (length rows) /\ gr_flushed g' = true /\ gr_indtuples g' = Z.of_nat (length (kept_rows rows)).
Proof using Hbs Hm Hsup.
  intros Hmain Hx Hrel Hrows Hsz Hfuel. unfold BuildGraph. cbn [default from_option].
  destruct (build_rows_run rows _ s [] 0 (building_start work_mem s Hmain Hx Hrel) Hrows Hsz Hfuel) as (g1 & s1 & E1 & Hb1 & Hi1). run E1. rewrite app_nil_r in Hb1.
  destruct (gr_flushed g1) eqn:Hf; cbn [negb].
  - by exists g1, s1.
  - destruct (build_flush_run g1 s1 _ _ Hb1 Hf ltac:(lia) ltac:(lia)) as (s2 & E2 & Hb2). by exists (gr_set_flushed g1), s2.
Qed.

Lemma hnswbuild_run work_mem rows s : rd_main (index s) = [] -> xlog s = None -> index s = rel0 -> rows_ok good rel0 m rows ->
  2 + 2 * Z.of_nat (length rows) <= InvalidBlockNumber -> 2 + 2 * Z.of_nat (length rows) <= Z.of_nat fuel ->
  exists s' meta E, hnswbuild garbage fuel allocated work_mem is_varbit (fst <$> rows) s = Ok (Z.of_nat (length (kept_rows rows)), s') /\
    index_wf (index s') meta good E /\ index_rows (index s') E ≡ₚ kept_rows rows /\ all_held (index s') E /\
    mp_m meta = m /\ mp_dimensions meta = bs_dimensions bs /\ xlog s' = None /\
    (size E <= length rows)%nat /\ nlen (index s') <= 2 + 2 * Z.of_nat (length rows) /\
    index s' = with_pages rel0 MAIN_FORKNUM (rd_main (index s')).
Proof using Hbs Hm Hsup.
  intros Hmain Hx Hrel Hrows Hsz Hfuel. unfold hnswbuild, BuildIndex. rewrite (M_bind_run _ _ s s s) by done. rewrite Hrel.
  run (lift_res_run _ s _ Hbs).
  destruct (BuildGraph_run (work_mem * 1024) rows s Hmain Hx Hrel Hrows Hsz Hfuel) as (g & s' & E & [B1 B2 B3] & Hf & Hi). run E.
  rewrite Hf in B3. destruct B3 as [(meta & E' & W1 & W2 & W3 & W4 & W5 & W6) Hl].
  exists s', meta, E'. rewrite Hi. done.
Qed.

(** An error of a value ends the build. *)
Lemma hnswbuild_error work_mem rows more tid value random err s : rd_main (index s) = [] -> xlog s = None -> index s = rel0 ->
  rows_ok good rel0 m rows -> index_value rel0 value = Err err ->
  2 + 2 * Z.of_nat (length rows) <= InvalidBlockNumber -> 2 + 2 * Z.of_nat (length rows) <= Z.of_nat fuel ->
  hnswbuild garbage fuel allocated work_mem is_varbit ((fst <$> rows) ++ (tid, value, random) :: more) s = Err err.
Proof using Hbs Hm Hsup.
  intros Hmain Hx Hrel Hrows Hval Hsz Hfuel. unfold hnswbuild, BuildIndex. rewrite (M_bind_run _ _ s s s) by done. rewrite Hrel.
  run (lift_res_run _ s _ Hbs). unfold BuildGraph. cbn [default from_option].
  destruct (build_rows_run rows _ s [] 0 (building_start (work_mem * 1024) s Hmain Hx Hrel) Hrows Hsz Hfuel) as (g1 & s1 & E1 & _).
  assert (Ecb : BuildCallback garbage fuel bs NULL allocated (tid, value, random) g1 s1 = Err err).
  { destruct value as [value|]; [|done]. destruct settings as (_ & Hti & Hs & _). unfold BuildCallback, InsertTuple. rewrite Hti, Hs.
    unfold index_value in Hval. unfold mbind, M_bind, lift_res. by rewrite Hval. }
  assert (Em : mfor ((fst <$> rows) ++ (tid, value, random) :: more) (InitGraph NULL (work_mem * 1024))
    (BuildCallback garbage fuel bs NULL allocated) s = Err err).
  { rewrite (mfor_app_run _ _ _ _ _ _ _ E1), mfor_cons. unfold mbind, M_bind. by rewrite Ecb. }
  do 2 apply M_bind_err. exact Em.
Qed.
End Build.

(** ** The property *)

(** C2: [hnswbuild] on an index without pages.  The error of the settings is
    the error of the build.  Otherwise, for any table whose values make no
    error, as long as there is room, the build succeeds wherever memory is full,
    and returns the number of indexed tuples.  The index is then well formed,
    for the [m] and the dimensions of the settings; it holds exactly the TIDs of
    the tuples with a value to index, each as often as it came and under that
    value, and every element has one.  Only pages of the main fork are added, at
    most two for a tuple besides the first two.  After such tuples, one whose
    value makes an error ends the build with that error. *)
Theorem hnswbuild_correct `{Palloc} `{ListSort} `{Libm} garbage (good : Vector -> Prop) fuel allocated work_mem is_varbit s :
  rd_main (index s) = [] -> xlog s = None -> support_ok (HnswInitSupport (index s)) good ->
  match InitBuildState (index s) MAIN_FORKNUM is_varbit with
  | Err err => forall heap, hnswbuild garbage fuel allocated work_mem is_varbit heap s = Err err
  | Ok bs => forall rows, HNSW_MIN_M <= bs_m bs <= HNSW_MAX_M -> rows_ok good (index s) (bs_m bs) rows ->
      2 + 2 * Z.of_nat (length rows) <= InvalidBlockNumber -> 2 + 2 * Z.of_nat (length rows) <= Z.of_nat fuel ->
      (exists s' meta E,
        hnswbuild garbage fuel allocated work_mem is_varbit (fst <$> rows) s = Ok (Z.of_nat (length (kept_rows rows)), s') /\
        index_wf (index s') meta good E /\ index_rows (index s') E ≡ₚ kept_rows rows /\ all_held (index s') E /\
        mp_m meta = bs_m bs /\ mp_dimensions meta = bs_dimensions bs /\ xlog s' = None /\
        nlen (index s') <= 2 + 2 * Z.of_nat (length rows) /\ index s' = with_pages (index s) MAIN_FORKNUM (rd_main (index s'))) /\
      (forall more tid value random err, index_value (index s) value = Err err ->
        hnswbuild garbage fuel allocated work_mem is_varbit ((fst <$> rows) ++ (tid, value, random) :: more) s = Err err)
  end.
Proof.
  intros Hmain Hx Hsup. destruct (InitBuildState (index s) MAIN_FORKNUM is_varbit) as [bs|err] eqn:Hbs.
  - intros rows Hm Hrows Hsz Hfuel. split.
    + destruct (hnswbuild_run garbage fuel allocated good (index s) is_varbit bs Hbs Hm Hsup work_mem rows s Hmain Hx eq_refl Hrows Hsz Hfuel)
        as (s' & meta & E & R1 & R2 & R3 & R4 & R5 & R6 & R7 & _ & R8 & R9). by exists s', meta, E.
    + intros more tid value random err Hval. by apply (hnswbuild_error garbage fuel allocated good (index s) is_varbit bs Hbs Hm Hsup).
  - intros heap. unfold hnswbuild, BuildIndex. rewrite (M_bind_run _ _ s s s) by done. unfold mbind, M_bind, lift_res. by rewrite Hbs.
Qed.
