(* ===== verification/IndexHistory.v ===== *)
(** * The life of an index

    The operations one after another: a build on an empty table (HnswBuild.v)
    leaves a well-formed empty index, every insertion (HnswInsert.v) keeps the
    index well formed and adds the TID of its row, and a scan (HnswScan.v) of
    what they leave returns TIDs that were inserted and no others. *)

From Stdlib Require Import SpecFloat.
From S2P Require Import Prelude CFloat VectorType GraphSearch ItemPtr HnswData BufPage Backend HnswUtils SearchLayer.
From S2P Require Import LayerRefinement PageUpdate MetaPage DiskGraph QSort SelectNeighbors HnswInsert AddElement IndexWf InsertOnDisk.
From S2P Require Import HnswVacuum VacuumSpec VacuumHistory HnswScan ScanSpec HnswBuild BuildSpec.

(** ** Operations one after another *)

Lemma rev_nil {A} (l : list A) : rev l = [] -> l = [].
Proof. destruct l as [|x l]; [done|]. intros [_ Hx]%app_eq_nil. done. Qed.

(** A row inserted, with what the index keeps of its value, or a vacuum. *)
Inductive operation :=
  | InsertRow (row : heap_tuple * option Vector)
  | VacuumRows (callback : ItemPointerData -> bool).

(** The rows of the index after an operation. *)
Definition rows_after (rows : list (ItemPointerData * Vector)) (op : operation) : list (ItemPointerData * Vector) :=
  match op with
  | InsertRow row => kept_rows [row] ++ rows
  | VacuumRows callback => live_rows callback rows
  end.

Lemma rows_after_perm ops : forall rows rows', rows ≡ₚ rows' -> foldl rows_after rows ops ≡ₚ foldl rows_after rows' ops.
Proof.
  induction ops as [|op ops IH]; intros rows rows' Hr; [done|]. simpl. apply IH. destruct op as [row|callback]; simpl; [by rewrite Hr|].
  unfold live_rows. by rewrite Hr.
Qed.

Section Operations.
Context `{Palloc} `{ListSort} `{Libm} (garbage : HnswCandidate) (good : Vector -> Prop) (fuel : nat).

Definition apply_operation (op : operation) (_ : unit) : M Backend unit :=
  match op with
  | InsertRow ((tid, value, random), _) => _ ← hnswinsert garbage fuel value tid random ; mret tt
  | VacuumRows callback => _ ← hnswbulkdelete garbage fuel None callback ; mret tt
  end.

(** The calls of [aminsert] and [ambulkdelete] one after another. *)
Definition apply_operations (ops : list operation) : M Backend unit := mfor ops tt apply_operation.

Definition operation_ok (rel : Relation) (m : Z) (op : operation) : Prop :=
  match op with
  | InsertRow ((tid, value, random), w) => row_ok good rel m value w tid random
  | VacuumRows _ => True
  end.

(** What an operation needs and leaves. *)
Record operated (s : Backend) (meta : HnswMetaPageData) (E : gset ItemPointerData) (n : Z) (rows : list (ItemPointerData * Vector))
    (s' : Backend) (meta' : HnswMetaPageData) (E' : gset ItemPointerData) : Prop := {
  op_wf : index_wf (index s') meta' good E';
  op_rows : index_rows (index s') E' ≡ₚ rows;
  op_m : mp_m meta' = mp_m meta;
  op_dimensions : mp_dimensions meta' = mp_dimensions meta;
  op_xlog : xlog s' = None;
  op_pages : nlen (index s') <= nlen (index s) + 2 * n;
  op_size : Z.of_nat (size E') <= Z.of_nat (size E) + n;
  op_held : all_held (index s) E -> all_held (index s') E';
  op_rel : index s' = with_pages (index s) MAIN_FORKNUM (rd_main (index s'))
}.

Lemma apply_operation_run s meta E op : support_ok (HnswInitSupport (index s)) good -> index_wf (index s) meta good E -> xlog s = None ->
  operation_ok (index s) (mp_m meta) op -> nlen (index s) + 2 <= InvalidBlockNumber ->
  nlen (index s) + Z.of_nat (size E) <= Z.of_nat fuel ->
  exists s' meta' E', apply_operation op tt s = Ok (tt, s') /\
    operated s meta E 1 (rows_after (index_rows (index s) E) op) s' meta' E'.
Proof using Type.
  intros Hsup Hwf Hx Hop Hsz Hf. destruct op as [[[[tid value] random] w]|callback].
  - destruct (hnswinsert_run garbage good fuel s meta E value w tid random Hsup Hwf Hx) as (s1 & meta1 & E1 & Erun & Hwf1 & Hin & M1 & M2 & X1 & L1 & R1).
    { split; lia. }
    { exact Hop. }
    exists s1, meta1, E1. split; [unfold apply_operation; by run Erun|]. split; try done; try lia.
    + unfold kept_rows. destruct w as [v|]; [by apply (inserted_rows _ _ _ _ v)|]. by destruct Hin as [-> ->].
    + destruct w as [v|]; [pose proof (inserted_size _ _ _ _ _ _ Hin); lia|]. destruct Hin as [_ ->]. lia.
    + destruct w as [v|]; [by eapply inserted_held|]. by destruct Hin as [-> ->].
  - destruct (hnswbulkdelete_run garbage callback good fuel None s meta E Hsup Hwf Hx Hf)
      as (s1 & meta1 & E1 & Erun & Hwf1 & Hsub & Hrows & Hheld & M1 & M2 & X1 & L1 & R1).
    exists s1, meta1, E1. split; [unfold apply_operation; by run Erun|]. split; try done; try lia.
    apply subseteq_size in Hsub. lia.
Qed.

Lemma apply_operations_run ops : forall s meta E,
  support_ok (HnswInitSupport (index s)) good -> index_wf (index s) meta good E -> xlog s = None ->
  Forall (operation_ok (index s) (mp_m meta)) ops ->
  nlen (index s) + 2 * Z.of_nat (length ops) <= InvalidBlockNumber ->
  nlen (index s) + Z.of_nat (size E) + 3 * Z.of_nat (length ops) <= Z.of_nat fuel ->
  exists s' meta' E', apply_operations ops s = Ok (tt, s') /\
    operated s meta E (Z.of_nat (length ops)) (foldl rows_after (index_rows (index s) E) ops) s' meta' E'.
Proof using Type.
  induction ops as [|op ops IH]; intros s meta E Hsup Hwf Hx Hops Hsz Hf.
  { exists s, meta, E. split; [done|]. split; try done; simpl; try lia. by destruct (index s). }
  apply list.Forall_cons in Hops as [Hop Hrest]. simpl in Hsz, Hf.
  destruct (apply_operation_run s meta E op Hsup Hwf Hx Hop ltac:(lia) ltac:(lia)) as (s1 & meta1 & E1 & Erun & [A1 A2 A3 A4 A5 A6 A7 A8 A9]).
  destruct (IH s1 meta1 E1) as (s2 & meta2 & E2 & Erun2 & [B1 B2 B3 B4 B5 B6 B7 B8 B9]); try done; try lia.
  - by rewrite A9.
  - rewrite A3. eapply List.Forall_impl; [|exact Hrest]. intros [[[[tid value] random] w]|callback]; [|done].
    intros [Hv Hr]. split; [|done]. by rewrite A9, index_value_pages.
  - exists s2, meta2, E2. unfold apply_operations. rewrite mfor_cons. split; [by run Erun|]. split; try done; try congruence; try lia.
    + rewrite B2. simpl. by apply rows_after_perm.
    + simpl. lia.
    + simpl. lia.
    + auto.
    + rewrite B9, A9 at 1. by destruct (index s).
Qed.
End Operations.

(** ** Scans of a well-formed index *)

Section WfScan.
Context `{Palloc}.
Context (hnsw_ef_search : Z) (mode : HnswIterativeScanMode) (max_tuples : Z) (allocated : HnswScanOpaqueData -> double) (fuel : nat).
Context (good : Vector -> Prop) (s : Backend) (meta : HnswMetaPageData) (E : gset ItemPointerData).
Context (Hwf : index_wf (index s) meta good E) (Hsup : support_ok (HnswInitSupport (index s)) good).
Context (Hmode : strict mode = false) (Hef : 1 <= hnsw_ef_search) (Hfuel : (size E <= fuel)%nat).

Lemma returned_inside (order : list ItemPointerData) : NoDup order -> (forall k, k ∈ order -> k ∈ E) ->
  order ≫= returned_tids (index s) ⊆+ index_tids (index s) E.
Proof using Type.
  intros Hnd Hin. unfold index_tids. transitivity (order ≫= heap_tids (index s)).
  - clear. apply Permutation_submseteq. induction order as [|k order IH]; [done|]. rewrite !bind_cons, IH. f_equiv.
    symmetry. apply Permutation_rev.
  - f_equiv. apply NoDup_submseteq; [done|]. intros k Hk. apply elem_of_elements. auto.
Qed.

(** The scan ends, and it returns nothing that is not in the index. *)
Lemma wf_scan_run work_mem mult norderbys orderBy value n :
  let scan := hnswrescan (hnswbeginscan work_mem mult (index s) norderbys true) (Some orderBy) in
  0 < norderbys -> GetScanValue (sd_opaque scan) orderBy = Ok value -> query_ok good (mkHnswQuery value) -> (size E < n)%nat ->
  exists l, l ⊆+ index_tids (index s) E /\ (all_held (index s) E -> l = [] -> E = ∅) /\
    forall calls, (length l < calls)%nat -> exists scan' s',
      scan_all hnsw_ef_search mode max_tuples allocated fuel calls n scan s = Ok ((l, scan'), s').
Proof using All.
  intros scan Hob Hval Hq Hn. destruct (BlockNumberIsValid (mp_entryBlkno meta)) eqn:Hentry.
  - destruct (index_wf_searchable _ _ _ _ _ _ Hwf Hsup Hq Hentry) as (etup & _ & Hok).
    assert (Hsize : forall lc, (size (layer (index s) E (Z.of_nat lc)) <= size E)%nat) by (intros; apply size_layer).
    destruct (unordered_scan_run hnsw_ef_search mode max_tuples allocated fuel (index s) (mkHnswQuery value) (HnswInitSupport (index s))
      meta etup _ Hok Hef) with work_mem mult norderbys orderBy value n s
      as (k & w & V & l & order & _ & Hres & [_ F2 F3 F4 _ _ _] & Hl); try done.
    { intros lc _. specialize (Hsize lc). lia. }
    { specialize (Hsize O). lia. }
    simpl in F4. rewrite <- list_fmap_compose, list_fmap_id in F4. exists (order ≫= returned_tids (index s)). split; [|split; [|exact Hl]].
    + apply returned_inside; [done|]. intros k' Hk'%F3. by apply elem_of_layer in Hk' as [? _].
    + intros Hall F1. exfalso. pose proof (sr_nonempty _ _ _ _ _ _ Hres) as Hw. destruct order as [|k1 order].
      { apply Hw, rev_nil. by apply prefix_nil_inv in F4. }
      destruct (proj1 (elem_of_layer _ _ _ k1) (F3 k1 ltac:(by left))) as [Hk1 _]. apply (Hall k1 Hk1).
      rewrite bind_cons in F1. apply app_eq_nil in F1 as [F1 _]. by apply rev_nil in F1.
  - destruct n as [|n]; [lia|]. exists []. split; [apply submseteq_nil_l|]. split.
    { intros _ _. pose proof (ey_entry _ _ _ (iw_entry _ _ _ _ Hwf)) as He. rewrite Hentry in He. apply He. }
    intros [|calls] Hc; [simpl in Hc; lia|].
    destruct (empty_call_run hnsw_ef_search mode max_tuples allocated fuel n scan s orderBy value meta) as [scan' E1]; try done.
    + unfold scan, hnswrescan, hnswbeginscan. cbn. by destruct (Z.ltb_spec 0 norderbys); [|lia].
    + apply (iw_entry _ _ _ _ Hwf).
    + unfold BlockNumberIsValid in Hentry. destruct (Z.eqb_spec (mp_entryBlkno meta) InvalidBlockNumber); done.
    + exists scan', s. cbn [scan_all]. by run E1.
Qed.
End WfScan.

(** ** Properties *)

(** C6: an insertion keeps the index well formed.  On a well-formed index with
    room, for a row whose value has distances and whose level is defined,
    [hnswinsert] ends without an error, and returns false as an access method
    that checks no uniqueness does.  The index is well formed again: the chain of
    pages, the tuples of every element, the neighbors of every layer, the entry
    point of the highest level.  The TID of the row is the last of one element
    with its value, old or new; all other elements have the value, the level
    and the heap TIDs they had.  Nothing happens for a row without a value to
    index, an error of the value is the error of the insertion, and at most two
    pages are added. *)
Theorem hnswinsert_preserves `{Palloc} `{ListSort} `{Libm} garbage (good : Vector -> Prop) fuel s meta E value tid random :
  support_ok (HnswInitSupport (index s)) good -> index_wf (index s) meta good E -> xlog s = None -> room fuel s E ->
  match index_value (index s) value with
  | Err e => hnswinsert garbage fuel value tid random s = Err e
  | Ok w => row_ok good (index s) (mp_m meta) value w tid random ->
      exists s' meta' E', hnswinsert garbage fuel value tid random s = Ok (false, s') /\
        index_wf (index s') meta' good E' /\ indexed (index s) (index s') E E' w tid /\
        mp_m meta' = mp_m meta /\ mp_dimensions meta' = mp_dimensions meta /\
        xlog s' = None /\ nlen (index s') <= nlen (index s) + 2 /\
        index s' = with_pages (index s) MAIN_FORKNUM (rd_main (index s'))
  end.
Proof.
  intros Hsup Hwf Hx Hroom. destruct (index_value (index s) value) as [w|e] eqn:Hval.
  - exact (hnswinsert_run garbage good fuel s meta E value w tid random Hsup Hwf Hx Hroom).
  - by apply hnswinsert_error.
Qed.

(** C7: vacuum of a well-formed index.  With fuel for its pages and elements
    [hnswbulkdelete] ends without an error: the removal of heap TIDs, the repair of
    the graph and the marking together.  The index is well formed again, with the
    elements that keep a heap TID: no neighbor tuple of theirs refers to an element
    that is marked as deleted, and the entry point of the metapage is one of them
    and of the highest level, or there is none when no element is left.  The index
    holds exactly the rows the callback does not report, each under its value, and
    the statistics count these and those it reports. *)
Theorem hnswbulkdelete_correct `{Palloc} `{ListSort} `{Libm} garbage callback (good : Vector -> Prop) fuel stats s meta E :
  support_ok (HnswInitSupport (index s)) good -> index_wf (index s) meta good E -> xlog s = None ->
  nlen (index s) + Z.of_nat (size E) <= Z.of_nat fuel ->
  exists s' meta' E',
    hnswbulkdelete garbage fuel stats callback s = Ok (count_tids callback (index_tids (index s) E) (default zero_stats stats), s') /\
    index_wf (index s') meta' good E' /\ E' ⊆ E /\ index_rows (index s') E' ≡ₚ live_rows callback (index_rows (index s) E) /\
    all_held (index s') E' /\ mp_m meta' = mp_m meta /\ mp_dimensions meta' = mp_dimensions meta /\ xlog s' = None /\
    nlen (index s') = nlen (index s) /\ index s' = with_pages (index s) MAIN_FORKNUM (rd_main (index s')).
Proof. apply hnswbulkdelete_run. Qed.

(** C1: the life of an index.  [hnswbuild] on a table of any rows and then any
    sequence of [hnswinsert] and [hnswbulkdelete], as long as there is room, raise
    no error, whether the graph of the build fits in memory or not; the build
    counts the rows it indexed.  They leave a well-formed index that holds exactly
    the rows with a value to index that no later vacuum has reported, each TID as
    often as it came and under that value.  Every scan of it, iterative in the
    relaxed order or not, ends without an error; it returns each TID at most as
    often as the index has it and no other, and it returns something unless the
    index is empty. *)
Theorem index_life `{Palloc} `{ListSort} `{Libm} garbage (good : Vector -> Prop) fuel allocated work_mem is_varbit bs heap ops s :
  rd_main (index s) = [] -> xlog s = None -> support_ok (HnswInitSupport (index s)) good ->
  InitBuildState (index s) MAIN_FORKNUM is_varbit = Ok bs -> HNSW_MIN_M <= bs_m bs <= HNSW_MAX_M ->
  rows_ok good (index s) (bs_m bs) heap -> Forall (operation_ok good (index s) (bs_m bs)) ops ->
  2 + 2 * Z.of_nat (length heap + length ops) <= InvalidBlockNumber -> 2 + 3 * Z.of_nat (length heap + length ops) <= Z.of_nat fuel ->
  let rows := foldl rows_after (kept_rows heap) ops in
  exists s1 s2 meta E,
    hnswbuild garbage fuel allocated work_mem is_varbit (fst <$> heap) s = Ok (Z.of_nat (length (kept_rows heap)), s1) /\
    apply_operations garbage fuel ops s1 = Ok (tt, s2) /\
    index_wf (index s2) meta good E /\ index_rows (index s2) E ≡ₚ rows /\
    index s2 = with_pages (index s) MAIN_FORKNUM (rd_main (index s2)) /\
    forall hnsw_ef_search mode max_tuples memory work_mem mult norderbys orderBy value,
      let scan := hnswrescan (hnswbeginscan work_mem mult (index s2) norderbys true) (Some orderBy) in
      strict mode = false -> 1 <= hnsw_ef_search -> 0 < norderbys ->
      GetScanValue (sd_opaque scan) orderBy = Ok value -> query_ok good (mkHnswQuery value) ->
      exists l, l ⊆+ rows.*1 /\ (l = [] -> rows = []) /\
        forall calls, (length l < calls)%nat -> exists scan' s3,
          scan_all hnsw_ef_search mode max_tuples memory fuel calls fuel scan s2 = Ok ((l, scan'), s3).
Proof.
  intros Hmain Hx Hsup Hbs Hm Hheap Hops Hsz Hfuel rows.
  destruct (hnswbuild_run garbage fuel allocated good (index s) is_varbit bs Hbs Hm Hsup work_mem heap s Hmain Hx eq_refl Hheap
    ltac:(lia) ltac:(lia)) as (s1 & meta1 & E1 & Erun1 & Hwf1 & Hr1 & Hheld1 & M1 & _ & X1 & HE1 & L1 & R1).
  destruct (apply_operations_run garbage good fuel ops s1 meta1 E1) as (s2 & meta & E & E2 & [Hwf Hr _ _ _ _ Hsize Hheld R2]);
    try done; try lia.
  { by rewrite R1. }
  { rewrite M1, R1. eapply List.Forall_impl; [|exact Hops]. intros [[[[t v] r] w]|callback]; [|done]. intros [Hv Hw].
    split; [by rewrite index_value_pages|done]. }
  specialize (Hheld Hheld1). assert (Hk : index_rows (index s2) E ≡ₚ rows) by (rewrite Hr; by apply rows_after_perm).
  exists s1, s2, meta, E. split; [done|]. split; [done|]. split; [done|]. split; [done|].
  split; [rewrite R2, R1 at 1; by destruct (index s)|].
  intros ef mode max_tuples memory wm mult nob orderBy value scan Hmode Hef Hnob Hval Hq.
  destruct (wf_scan_run ef mode max_tuples memory fuel good s2 meta E Hwf) with wm mult nob orderBy value fuel
    as (l & Hl & Hne & Hrun); try done; [by rewrite R2, R1|lia|lia|].
  exists l. rewrite <- index_rows_tids, Hk in Hl. split; [done|]. split; [|done]. intros Hl0. specialize (Hne Hheld Hl0). rewrite Hne in Hk.
  unfold index_rows in Hk. rewrite elements_empty in Hk. by apply Permutation_nil_l in Hk.
Qed.

(** ** Witnesses: rows inserted into the index of two elements and into an empty one *)

Definition sample_garbage : HnswCandidate := mkHnswCandidate NULL dzero false.

(** The logarithms of 2 and of 0.5, the only ones the witnesses take. *)
Definition log_2 : double := S754_finite false 6243314768165359 (-53).
Definition sample_libm : Libm := {|
  log d := if feq d (double_of_Z 2) then log_2 else if feq d (ddiv done_ (double_of_Z 2)) then SFopp log_2 else dzero
|}.
Definition one_half : double := ddiv done_ (double_of_Z 2).

Definition sample_good (v : Vector) : Prop := v = value1 \/ v = value2.

Lemma sample_support_ok : support_ok sample_support sample_good.
Proof.
  split.
  - intros a b [-> | ->] [-> | ->]; (eexists; split; [vm_compute; reflexivity|by vm_compute]).
  - intros a [-> | ->]; (split; [split; first [by vm_compute|by repeat constructor]|by vm_compute]).
Qed.

Lemma sample_drawn : level_drawn (H := sample_libm) 2 one_half.
Proof. exists 1. split; by vm_compute. Qed.

Lemma sample_elements b off etup : 1 <= b -> tuple_at sample_relation b off = Some (ElementTuple etup) ->
  (b, off) = (1, 1) /\ ElementTuple etup = sample_etup 1 value1 \/ (b, off) = (1, 3) /\ ElementTuple etup = sample_etup 3 value2.
Proof.
  intros Hb Ht. destruct (tuple_one sample_relation sample_meta sample_page eq_refl b off _ Hb Ht) as [-> Hin].
  page_cases Hin; [by left|by right].
Qed.

Lemma sample_wf : index_wf sample_relation (pd_contents sample_meta) sample_good sample_U.
Proof.
  assert (Hmem : forall k, k ∈ sample_U -> k = tid1 \/ k = tid2) by (unfold sample_U; set_solver).
  assert (Hlayer : forall t, t ∈ [tid1; tid2] -> t ∈ layer sample_relation sample_U 0).
  { intros t Ht. assert (t = tid1 \/ t = tid2) as [-> | ->] by set_solver; apply elem_of_layer; (split; [unfold sample_U; set_solver|]);
      (eexists; split; [vm_compute; reflexivity|done]). }
  assert (Hslots : forall lc etup ntup t, et_level etup = 0 -> 0 <= lc <= et_level etup -> 
    (forall t, t ∈ nt_indextids ntup -> ItemPointerIsValid t = true -> t ∈ [tid1; tid2]) ->
    t ∈ layer_slots 2 (HnswGetLayerM 2 lc) lc etup ntup -> ItemPointerIsValid t = true -> t ∈ layer sample_relation sample_U lc).
  { intros lc etup ntup t Hl Hlc Hn Ht Hv. replace lc with 0 by lia. apply Hlayer, Hn; [|done]. eapply elem_of_submseteq; [exact Ht|]. apply sublist_submseteq. etrans; [apply sublist_take|apply sublist_drop]. }
  split; split; try done.
  - exact sample_index_ok.
  - split.
    + intros b off et Hb Ht. destruct (sample_elements b off et Hb Ht) as [[_ He]|[_ He]]; injection He as ->; by eexists.
    + intros b off et Hb Ht. destruct (sample_elements b off et Hb Ht) as [[_ He]|[_ He]]; injection He as ->;
        (split; [by vm_compute|]); (eexists; split; [vm_compute; reflexivity|by vm_compute]).
    + intros b off et b' off' et' Hb Hb' Ht Ht'.
      destruct (sample_elements b off et Hb Ht) as [[-> He]|[-> He]]; destruct (sample_elements b' off' et' Hb' Ht') as [[-> He']|[-> He']];
        injection He as ->; injection He' as ->; try done; intros _ Heq; by vm_compute in Heq.
  - intros k [-> | ->]%Hmem; (split; [apply ItemPointerSet_ok; by vm_compute|by vm_compute]).
  - intros k [-> | ->]%Hmem; eexists _, _; (split; [vm_compute; reflexivity|vm_compute; reflexivity|done|done|done|done|done|
      by repeat constructor| |first [by left|by right]| |
      eexists _, _; (split; [vm_compute; reflexivity|split; vm_compute; reflexivity])]).
    + split; [done|]. exists [ItemPointerSet 7 1]. split; [by vm_compute|by repeat constructor].
    + intros lc t Hlc Ht. revert Ht. apply Hslots; [done|exact Hlc|]. intros t' Ht'. page_cases Ht'; set_solver.
    + split; [done|]. exists [ItemPointerSet 7 3]. split; [by vm_compute|by repeat constructor].
    + intros lc t Hlc Ht. revert Ht. apply Hslots; [done|exact Hlc|]. intros t' Ht'. page_cases Ht'; set_solver.
  - intros b off et Hb Ht _. destruct (sample_elements b off et Hb Ht) as [[E1 _]|[E1 _]]; injection E1 as -> ->; unfold sample_U; set_solver.
  - intros b off et Hb Ht. destruct (sample_elements b off et Hb Ht) as [[_ He]|[_ He]]; injection He as ->; by intros [].
  - exact (one_page_reached sample_relation sample_meta sample_page eq_refl).
  - by exists sample_meta.
  - split; [by vm_compute|]. split; [by vm_compute|]. split; [unfold sample_U; set_solver|]. by eexists.
  - intros k etup [-> | ->]%Hmem He; injection He as <-; by vm_compute.
Qed.

Lemma hnswinsert_preserves_witness :
  exists s' meta' E',
    hnswinsert (H := sample_palloc) (H0 := pg_list_sort) (H1 := sample_libm) sample_garbage 4 (Some value2)
      (ItemPointerSet 8 5) one_half sample_state = Ok (false, s') /\
    index_wf (index s') meta' sample_good E' /\
    indexed sample_relation (index s') sample_U E' (Some value2) (ItemPointerSet 8 5) /\
    mp_m meta' = 2 /\ mp_dimensions meta' = 1 /\ xlog s' = None /\ nlen (index s') <= nlen sample_relation + 2 /\
    index s' = with_pages sample_relation MAIN_FORKNUM (rd_main (index s')).
Proof.
  apply (hnswinsert_preserves (H := sample_palloc) (H0 := pg_list_sort) (H1 := sample_libm) sample_garbage sample_good 4
    sample_state (pd_contents sample_meta) sample_U (Some value2) (ItemPointerSet 8 5) one_half sample_support_ok sample_wf eq_refl).
  - split; [by vm_compute|by vm_compute|apply Nat.leb_le; by vm_compute].
  - split; [reflexivity|]. intros v [= <-]. split; [by right|]. split; [by vm_compute|exact sample_drawn].
Defined.

Definition empty_state : Backend := mkBackend ∅ (mkRelation [] [] (Some (mkHnswOptions 2 64)) 1 true sample_support None) None.
Definition sample_settings : BuildSettings :=
  mkBuildSettings MAIN_FORKNUM hnsw_default_type_info 2 64 1 sample_support (HnswGetMl (H := sample_libm) 2) (HnswGetMaxLevel 2).
Definition two_rows : list (heap_tuple * option Vector) :=
  [((ItemPointerSet 8 5, Some value2, one_half), Some value2); ((ItemPointerSet 8 6, None, one_half), None)].
Definition one_row : list (heap_tuple * option Vector) := [((ItemPointerSet 8 7, Some value1, one_half), Some value1)].
Definition sample_operations : list operation :=
  [InsertRow ((ItemPointerSet 8 7, Some value1, one_half), Some value1);
   VacuumRows (fun t => ItemPointerEquals t (ItemPointerSet 8 5))].
Definition kept_samples : list (ItemPointerData * Vector) := [(ItemPointerSet 8 5, value2); (ItemPointerSet 8 7, value1)].

Lemma sample_rows : rows_ok (H := sample_libm) sample_good (index empty_state) 2 (two_rows ++ one_row).
Proof.
  assert (Hrow : forall v t, sample_good v -> ItemPointerIsValid t = true ->
    row_ok (H1 := sample_libm) sample_good (index empty_state) 2 (Some v) (Some v) t one_half).
  { intros v t Hv Ht. split; [done|]. intros w [= <-]. split; [done|]. split; [done|exact sample_drawn]. }
  apply list.Forall_cons. split; [by apply Hrow; [right|]|]. apply list.Forall_cons. split; [by split|].
  apply list.Forall_cons. split; [by apply Hrow; [left|]|done].
Qed.

Lemma hnswbuild_correct_witness :
  (exists s' meta E,
    hnswbuild (H := sample_palloc) (H0 := pg_list_sort) (H1 := sample_libm) sample_garbage 8 (fun _ => 0) 64 false
      (fst <$> two_rows ++ one_row) empty_state = Ok (2, s') /\
    index_wf (index s') meta sample_good E /\ index_rows (index s') E ≡ₚ kept_samples /\ all_held (index s') E /\
    mp_m meta = 2 /\ mp_dimensions meta = 1 /\ xlog s' = None /\ nlen (index s') <= 8 /\
    index s' = with_pages (index empty_state) MAIN_FORKNUM (rd_main (index s'))) /\
  hnswbuild (H := sample_palloc) (H0 := pg_list_sort) (H1 := sample_libm) sample_garbage 8 (fun _ => 0) 64 true [] empty_state =
    Err ERR_type_not_supported.
Proof.
  assert (Hm : HNSW_MIN_M <= bs_m sample_settings <= HNSW_MAX_M) by done. split.
  - destruct (hnswbuild_correct (H := sample_palloc) (H0 := pg_list_sort) (H1 := sample_libm) sample_garbage sample_good 8 (fun _ => 0) 64 false
      empty_state eq_refl eq_refl sample_support_ok (two_rows ++ one_row) Hm sample_rows ltac:(done) ltac:(done)) as [H1 _].
    exact H1.
  - exact (hnswbuild_correct (H := sample_palloc) (H0 := pg_list_sort) (H1 := sample_libm) sample_garbage sample_good 8 (fun _ => 0) 64 true
      empty_state eq_refl eq_refl sample_support_ok []).
Defined.

(** The first of the two elements loses its only heap TID. *)
Lemma hnswbulkdelete_correct_witness :
  exists s' meta' E',
    hnswbulkdelete (H := sample_palloc) (H0 := pg_list_sort) (H1 := sample_libm) sample_garbage 4 None
      (fun t => ItemPointerEquals t (ItemPointerSet 7 1)) sample_state = Ok (mkBulkDelete 0 1 1, s') /\
    index_wf (index s') meta' sample_good E' /\ index_rows (index s') E' ≡ₚ [(ItemPointerSet 7 3, value2)] /\
    all_held (index s') E' /\ nlen (index s') = 2.
Proof.
  destruct (hnswbulkdelete_correct (H := sample_palloc) (H0 := pg_list_sort) (H1 := sample_libm) sample_garbage
    (fun t => ItemPointerEquals t (ItemPointerSet 7 1)) sample_good 4 None sample_state (pd_contents sample_meta) sample_U
    sample_support_ok sample_wf eq_refl ltac:(by vm_compute)) as (s' & meta' & E' & H1 & H2 & _ & H4 & H5 & _ & _ & _ & H9 & _).
  exists s', meta', E'. split; [|split; [exact H2|split; [|split; [exact H5|exact H9]]]].
  - rewrite H1. vm_compute. reflexivity.
  - rewrite H4. vm_compute. reflexivity.
Defined.

Lemma index_life_witness :
  exists s1 s2 meta E,
    hnswbuild (H := sample_palloc) (H0 := pg_list_sort) (H1 := sample_libm) sample_garbage 16 (fun _ => 0) 64 false (fst <$> two_rows)
      empty_state = Ok (1, s1) /\
    apply_operations (H := sample_palloc) (H0 := pg_list_sort) (H1 := sample_libm) sample_garbage 16 sample_operations s1 = Ok (tt, s2) /\
    index_wf (index s2) meta sample_good E /\ index_rows (index s2) E ≡ₚ [(ItemPointerSet 8 7, value1)] /\
    exists l scan' s3, l ⊆+ [ItemPointerSet 8 7] /\ l <> [] /\
      scan_all (H := sample_palloc) 40 HNSW_ITERATIVE_SCAN_RELAXED 20000 no_memory 16 9 16
        (hnswrescan (hnswbeginscan 4096 (double_of_Z 1) (index s2) 1 true) (Some (Some value1))) s2 = Ok ((l, scan'), s3).
Proof.
  assert (Hm : HNSW_MIN_M <= bs_m sample_settings <= HNSW_MAX_M) by done.
  pose proof sample_rows as Hrows. apply Forall_app in Hrows as [Hheap Hrow]. apply list.Forall_cons in Hrow as [Hrow _].
  destruct (index_life (H := sample_palloc) (H0 := pg_list_sort) (H1 := sample_libm) sample_garbage sample_good 16 (fun _ => 0) 64 false
    sample_settings two_rows sample_operations empty_state eq_refl eq_refl sample_support_ok eq_refl Hm Hheap
    ltac:(apply list.Forall_cons; split; [exact Hrow|by repeat constructor]) ltac:(done) ltac:(done))
    as (s1 & s2 & meta & E & H1 & H2 & H3 & H4 & H5 & H6).
  assert (Hr : foldl rows_after (kept_rows two_rows) sample_operations = [(ItemPointerSet 8 7, value1)]) by (vm_compute; reflexivity).
  rewrite Hr in H4, H6.
  exists s1, s2, meta, E. split; [exact H1|]. split; [exact H2|]. split; [exact H3|]. split; [exact H4|]. clear H1 H2.
  destruct (H6 40 HNSW_ITERATIVE_SCAN_RELAXED 20000 no_memory 4096 (double_of_Z 1) 1 (Some value1) (Some value1))
    as (l & Hl & Hne & Hrun); [done|done|done|by rewrite H5|by left|].
  pose proof (submseteq_length _ _ Hl) as Hlen. destruct (Hrun 9%nat) as (scan' & s3 & Hscan); [simpl in Hlen; lia|].
  exists l, scan', s3. split; [exact Hl|]. split; [|exact Hscan]. intros Hl0. by specialize (Hne Hl0).
Defined.
