(* ===== verification/ParallelBuild.v ===== *)
(** * Parallel build of the index

    The parts of src/pgvec/src/backend/access/hnsw/hnswbuild.c that run in several
    processes at once, as a machine: [proc_step] is one access of a process to shared
    memory, and [parallel_step] lets any process do one.  The steps follow
    InsertTuple and InsertTupleInMemory with their four locks
    (LWLock.v), HnswParallelScanAndInsert, and ParallelHeapScan with the condition
    variable (src/pgvec/src/backend/storage/lmgr/condition_variable.c) on which the
    leader waits for the others.

    Of the graph the machine keeps what the processes coordinate about: its elements
    with their levels, the entry point, the memory it takes and what of it
    is on pages.  The neighbor arrays, which every element guards by a lock of its own
    that is held for one access, are those of HnswBuild.v.  A search may or may not
    find a duplicate: the choice is an argument of the step. *)

From Stdlib Require Import SpecFloat.
From stdpp Require Import functions.
From S2P Require Import Prelude CFloat VectorType ItemPtr HnswData Backend HnswUtils HnswBuild LWLock.

(** ** Memory of the graph *)

Definition sizeof_HnswElementData : Z := 128.
Definition sizeof_HnswNeighborArrayPtr : Z := 8.
Definition offsetof_neighbor_items : Z := 8.
Definition sizeof_HnswCandidate : Z := 16.
Definition HNSW_NEIGHBOR_ARRAY_SIZE (lm : Z) : Z := offsetof_neighbor_items + sizeof_HnswCandidate * lm.

(** The offset of the chunk in the area, and [memoryUsed] afterwards. *)
Definition HnswSharedMemoryAlloc (memoryUsed size : Z) : Z * Z := (memoryUsed, (memoryUsed + MAXALIGN size) mod 2 ^ 64).

(** The sizes of the chunks of an element, in the order of the calls of
    HnswInitElement and InsertTuple. *)
Definition element_chunks (m level valueSize : Z) : list Z :=
  [sizeof_HnswElementData; sizeof_HnswNeighborArrayPtr * (level + 1)]
  ++ ((fun lc => HNSW_NEIGHBOR_ARRAY_SIZE (HnswGetLayerM m (Z.of_nat lc))) <$> seq 0 (Z.to_nat (level + 1)))
  ++ [valueSize].

Definition allocate_chunks (memoryUsed : Z) (sizes : list Z) : Z :=
  fold_left (fun used size => (HnswSharedMemoryAlloc used size).2) sizes memoryUsed.

(** [maintenance_work_mem] is in kilobytes; [Size] has 64 bits. *)
Definition estother : Z := 3 * 1024 * 1024.
Definition esthnswarea (maintenance_work_mem : Z) : Z :=
  let esthnswarea := (maintenance_work_mem * 1024) mod 2 ^ 64 in
  if estother <? esthnswarea then esthnswarea - estother else esthnswarea.
Definition parallel_memoryTotal (maintenance_work_mem : Z) : Z := (esthnswarea maintenance_work_mem - 1024 * 1024) mod 2 ^ 64.

(** [planned] is what plan_create_index_workers returns, [storage] the storage
    parameter parallel_workers of the table. *)
Definition ComputeParallelWorkers (planned storage max_parallel_maintenance_workers : Z) : Z :=
  if planned =? 0 then 0
  else if negb (storage =? -1) then Z.min storage max_parallel_maintenance_workers
  else max_parallel_maintenance_workers.

(** ** The state *)

Inductive LockId : Type := FlushLock | AllocatorLock | EntryLock | EntryWaitLock.

#[export] Instance LockId_eq_dec : EqDecision LockId.
Proof. solve_decision. Defined.

(** An element in memory. *)
Record Element := mkElement { e_tid : ItemPointerData; e_level : Z }.

(** The shared memory: [HnswShared] with its graph, the wakeup list of
    [workersdonecv] (only the leader sleeps on it), the blocks of the table that
    no process has read, and the TIDs on the pages of the index. *)
Record Shared := mkShared {
  sh_words : LockId -> Z;
  sh_elements : list Element;
  sh_duplicates : list ItemPointerData;
  sh_entryPoint : option Element;
  sh_memoryUsed : Z;
  sh_memoryTotal : Z;
  sh_flushed : bool;
  sh_indtuples : Z;
  sh_pages : list ItemPointerData;
  sh_scan : list (list heap_tuple);
  sh_nparticipantsdone : Z;
  sh_reltuples : Z;
  sh_wakeup : bool
}.

Definition set_words w s := mkShared w (sh_elements s) (sh_duplicates s) (sh_entryPoint s) (sh_memoryUsed s) (sh_memoryTotal s)
  (sh_flushed s) (sh_indtuples s) (sh_pages s) (sh_scan s) (sh_nparticipantsdone s) (sh_reltuples s) (sh_wakeup s).
Definition add_element e s := mkShared (sh_words s) (e :: sh_elements s) (sh_duplicates s) (sh_entryPoint s) (sh_memoryUsed s) (sh_memoryTotal s)
  (sh_flushed s) (sh_indtuples s) (sh_pages s) (sh_scan s) (sh_nparticipantsdone s) (sh_reltuples s) (sh_wakeup s).
Definition add_duplicate tid s := mkShared (sh_words s) (sh_elements s) (tid :: sh_duplicates s) (sh_entryPoint s) (sh_memoryUsed s) (sh_memoryTotal s)
  (sh_flushed s) (sh_indtuples s) (sh_pages s) (sh_scan s) (sh_nparticipantsdone s) (sh_reltuples s) (sh_wakeup s).
Definition set_entryPoint e s := mkShared (sh_words s) (sh_elements s) (sh_duplicates s) (Some e) (sh_memoryUsed s) (sh_memoryTotal s)
  (sh_flushed s) (sh_indtuples s) (sh_pages s) (sh_scan s) (sh_nparticipantsdone s) (sh_reltuples s) (sh_wakeup s).
Definition set_memoryUsed n s := mkShared (sh_words s) (sh_elements s) (sh_duplicates s) (sh_entryPoint s) n (sh_memoryTotal s)
  (sh_flushed s) (sh_indtuples s) (sh_pages s) (sh_scan s) (sh_nparticipantsdone s) (sh_reltuples s) (sh_wakeup s).
Definition set_flushed s := mkShared (sh_words s) (sh_elements s) (sh_duplicates s) (sh_entryPoint s) (sh_memoryUsed s) (sh_memoryTotal s)
  true (sh_indtuples s) (sh_pages s) (sh_scan s) (sh_nparticipantsdone s) (sh_reltuples s) (sh_wakeup s).
Definition add_indtuple s := mkShared (sh_words s) (sh_elements s) (sh_duplicates s) (sh_entryPoint s) (sh_memoryUsed s) (sh_memoryTotal s)
  (sh_flushed s) (sh_indtuples s + 1) (sh_pages s) (sh_scan s) (sh_nparticipantsdone s) (sh_reltuples s) (sh_wakeup s).
Definition add_to_pages tids s := mkShared (sh_words s) (sh_elements s) (sh_duplicates s) (sh_entryPoint s) (sh_memoryUsed s) (sh_memoryTotal s)
  (sh_flushed s) (sh_indtuples s) (sh_pages s ++ tids) (sh_scan s) (sh_nparticipantsdone s) (sh_reltuples s) (sh_wakeup s).
Definition set_scan scan s := mkShared (sh_words s) (sh_elements s) (sh_duplicates s) (sh_entryPoint s) (sh_memoryUsed s) (sh_memoryTotal s)
  (sh_flushed s) (sh_indtuples s) (sh_pages s) scan (sh_nparticipantsdone s) (sh_reltuples s) (sh_wakeup s).
Definition add_done n s := mkShared (sh_words s) (sh_elements s) (sh_duplicates s) (sh_entryPoint s) (sh_memoryUsed s) (sh_memoryTotal s)
  (sh_flushed s) (sh_indtuples s) (sh_pages s) (sh_scan s) (sh_nparticipantsdone s + 1) (sh_reltuples s + n) (sh_wakeup s).
Definition set_wakeup b s := mkShared (sh_words s) (sh_elements s) (sh_duplicates s) (sh_entryPoint s) (sh_memoryUsed s) (sh_memoryTotal s)
  (sh_flushed s) (sh_indtuples s) (sh_pages s) (sh_scan s) (sh_nparticipantsdone s) (sh_reltuples s) b.

(** The TIDs of the graph in memory. *)
Definition memory_tids (s : Shared) : list ItemPointerData := (e_tid <$> sh_elements s) ++ sh_duplicates s.

(** A tuple with its index value and what [RandomDouble] returns for it. *)
Record IndexTuple := mkIndexTuple { it_tid : ItemPointerData; it_value : Vector; it_random : double }.

(** Where a process is: before the access to shared memory that is named. *)
Inductive PC : Type :=
  (* table_index_build_scan and BuildCallback *)
  | ScanNext
  (* InsertTuple *)
  | AcquireFlushLock (t : IndexTuple)
  | TestFlushed (t : IndexTuple)
  | LeaveMemory (t : IndexTuple)
  | AcquireAllocatorLock (t : IndexTuple)
  | TestMemory (t : IndexTuple)
  | MemoryFull (t : IndexTuple)
  | MemoryFullRelease (t : IndexTuple)
  | AcquireFlushExclusive (t : IndexTuple)
  | TestFlushedAgain (t : IndexTuple)
  | FlushWrite (t : IndexTuple)
  | FlushSetFlushed (t : IndexTuple)
  | FlushDone (t : IndexTuple)
  | InsertOnDisk (t : IndexTuple)
  | AllocateElement (t : IndexTuple)
  | ReleaseAllocatorLock (e : Element)
  (* InsertTupleInMemory *)
  | AcquireEntryWait (e : Element)
  | ReleaseEntryWait (e : Element)
  | AcquireEntryShared (e : Element)
  | ReadEntry (e : Element)
  | UpgradeRelease (e : Element)
  | UpgradeAcquireWait (e : Element)
  | UpgradeAcquire (e : Element)
  | UpgradeReleaseWait (e : Element)
  | ReadEntryAgain (e : Element)
  | UpdateGraph (e : Element) (entryPoint : option Element)
  | UpdateEntryPoint (e : Element) (entryPoint : option Element)
  | ReleaseEntryLock
  | ReleaseFlushLock
  (* BuildCallback *)
  | CountTuple
  (* HnswParallelScanAndInsert *)
  | ScanDone
  | SignalLeader
  (* ParallelHeapScan: [prepared] if the leader is in the wakeup list or was signaled *)
  | WaitTest (prepared : bool)
  | WaitPrepare
  | WaitSleep
  | WaitCancel
  (* BuildGraph *)
  | LeaderTestFlushed
  | LeaderFlushWrite
  | LeaderSetFlushed
  | Ended.

(** A process: the tuples of its block it has not seen, the tuples it has counted and
    the locks it holds. *)
Record Proc := mkProc {
  p_pc : PC;
  p_todo : list heap_tuple;
  p_reltuples : Z;
  p_held : held_lwlocks LockId;
  p_leader : bool
}.

Definition goto pc p := mkProc pc (p_todo p) (p_reltuples p) (p_held p) (p_leader p).
Definition set_held held p := mkProc (p_pc p) (p_todo p) (p_reltuples p) held (p_leader p).
Definition set_todo todo p := mkProc (p_pc p) todo (p_reltuples p) (p_held p) (p_leader p).
Definition count_reltuple p := mkProc (p_pc p) (p_todo p) (p_reltuples p + 1) (p_held p) (p_leader p).

(** ** The steps *)

Section Steps.
Context `{Libm} (bs : BuildSettings) (nparticipants : Z).

Definition acquire (lock : LockId) (mode : LWLockMode) (next : PC) (s : Shared) (p : Proc) : res (option (Shared * Proc)) :=
  r ← LWLockAcquire (sh_words s) (p_held p) lock mode ;
  Ok (match r with
      | Some (words, held) => Some (set_words words s, goto next (set_held held p))
      | None => None
      end).

Definition release (lock : LockId) (next : PC) (s : Shared) (p : Proc) : res (option (Shared * Proc)) :=
  '(words, held) ← LWLockRelease (sh_words s) (p_held p) lock ;
  Ok (Some (set_words words s, goto next (set_held held p))).

Definition continue (next : PC) (s : Shared) (p : Proc) : res (option (Shared * Proc)) := Ok (Some (s, goto next p)).

(** The test of InsertTupleInMemory and of UpdateGraphInMemory. *)
Definition better_than (e : Element) (entryPoint : option Element) : bool :=
  match entryPoint with None => true | Some ep => e_level ep <? e_level e end.

(** The next tuple of the process, from a block of its own; tuples without a value
    to index are skipped. *)
Definition scan_next (s : Shared) (p : Proc) : res (option (Shared * Proc)) :=
  match p_todo p with
  | [] =>
      match sh_scan s with
      | [] => continue ScanDone s p
      | block :: scan => continue ScanNext (set_scan scan s) (set_todo block p)
      end
  | (tid, value, random) :: todo =>
      let p := count_reltuple (set_todo todo p) in
      match value with
      | None => continue ScanNext s p
      | Some value =>
          v ← HnswFormIndexValue value (bs_typeInfo bs) (bs_support bs) ;
          continue (match v with Some v => AcquireFlushLock (mkIndexTuple tid v random) | None => ScanNext end) s p
      end
  end.

(** The element and the room for its value. *)
Definition allocate_element (t : IndexTuple) (s : Shared) (p : Proc) : res (option (Shared * Proc)) :=
  level ← draw_level (bs_ml bs) (it_random t) (bs_maxLevel bs) ;
  let e := mkElement (it_tid t) (u8 level) in
  let used := allocate_chunks (sh_memoryUsed s) (element_chunks (bs_m bs) (e_level e) (VARSIZE_ANY (it_value t))) in
  continue (ReleaseAllocatorLock e) (set_memoryUsed used s) p.

(** [is_dup]: the search found a duplicate with room for the TID; without an entry
    point it finds nothing. *)
Definition update_graph (is_dup : bool) (e : Element) (entryPoint : option Element) (s : Shared) (p : Proc) : res (option (Shared * Proc)) :=
  if is_dup && (match entryPoint with Some _ => true | None => false end)
  then continue ReleaseEntryLock (add_duplicate (e_tid e) s) p
  else continue (UpdateEntryPoint e entryPoint) (add_element e s) p.

(** The loop of ParallelHeapScan: the first call of ConditionVariableSleep only puts the
    leader in the wakeup list. *)
Definition wait_test (prepared : bool) (s : Shared) (p : Proc) : res (option (Shared * Proc)) :=
  continue (if sh_nparticipantsdone s =? nparticipants then WaitCancel else if prepared then WaitSleep else WaitPrepare) s p.

(** [None]: the process waits, or has ended. *)
Definition proc_step (is_dup : bool) (s : Shared) (p : Proc) : res (option (Shared * Proc)) :=
  match p_pc p with
  | ScanNext => scan_next s p
  | AcquireFlushLock t => acquire FlushLock LW_SHARED (TestFlushed t) s p
  | TestFlushed t => continue (if sh_flushed s then LeaveMemory t else AcquireAllocatorLock t) s p
  | LeaveMemory t => release FlushLock (InsertOnDisk t) s p
  | AcquireAllocatorLock t => acquire AllocatorLock LW_EXCLUSIVE (TestMemory t) s p
  | TestMemory t => continue (if sh_memoryTotal s <=? sh_memoryUsed s then MemoryFull t else AllocateElement t) s p
  | MemoryFull t => release AllocatorLock (MemoryFullRelease t) s p
  | MemoryFullRelease t => release FlushLock (AcquireFlushExclusive t) s p
  | AcquireFlushExclusive t => acquire FlushLock LW_EXCLUSIVE (TestFlushedAgain t) s p
  | TestFlushedAgain t => continue (if sh_flushed s then FlushDone t else FlushWrite t) s p
  | FlushWrite t => continue (FlushSetFlushed t) (add_to_pages (memory_tids s) s) p
  | FlushSetFlushed t => continue (FlushDone t) (set_flushed s) p
  | FlushDone t => release FlushLock (InsertOnDisk t) s p
  | InsertOnDisk t => continue CountTuple (add_to_pages [it_tid t] s) p
  | AllocateElement t => allocate_element t s p
  | ReleaseAllocatorLock e => release AllocatorLock (AcquireEntryWait e) s p
  | AcquireEntryWait e => acquire EntryWaitLock LW_EXCLUSIVE (ReleaseEntryWait e) s p
  | ReleaseEntryWait e => release EntryWaitLock (AcquireEntryShared e) s p
  | AcquireEntryShared e => acquire EntryLock LW_SHARED (ReadEntry e) s p
  | ReadEntry e =>
      continue (if better_than e (sh_entryPoint s) then UpgradeRelease e else UpdateGraph e (sh_entryPoint s)) s p
  | UpgradeRelease e => release EntryLock (UpgradeAcquireWait e) s p
  | UpgradeAcquireWait e => acquire EntryWaitLock LW_EXCLUSIVE (UpgradeAcquire e) s p
  | UpgradeAcquire e => acquire EntryLock LW_EXCLUSIVE (UpgradeReleaseWait e) s p
  | UpgradeReleaseWait e => release EntryWaitLock (ReadEntryAgain e) s p
  | ReadEntryAgain e => continue (UpdateGraph e (sh_entryPoint s)) s p
  | UpdateGraph e entryPoint => update_graph is_dup e entryPoint s p
  | UpdateEntryPoint e entryPoint =>
      continue ReleaseEntryLock (if better_than e entryPoint then set_entryPoint e s else s) p
  | ReleaseEntryLock => release EntryLock ReleaseFlushLock s p
  | ReleaseFlushLock => release FlushLock CountTuple s p
  | CountTuple => continue ScanNext (add_indtuple s) p
  | ScanDone => continue SignalLeader (add_done (p_reltuples p) s) p
  | SignalLeader => continue (if p_leader p then WaitTest false else Ended) (set_wakeup false s) p
  | WaitTest prepared => wait_test prepared s p
  | WaitPrepare => continue (WaitTest true) (set_wakeup true s) p
  | WaitSleep => if sh_wakeup s then Ok None else continue (WaitTest true) (set_wakeup true s) p
  | WaitCancel => continue LeaderTestFlushed (set_wakeup false s) p
  | LeaderTestFlushed => continue (if sh_flushed s then Ended else LeaderFlushWrite) s p
  | LeaderFlushWrite => continue LeaderSetFlushed (add_to_pages (memory_tids s) s) p
  | LeaderSetFlushed => continue Ended (set_flushed s) p
  | Ended => Ok None
  end.

(** Any process that can do a step may do it. *)
Inductive parallel_step : Shared * list Proc -> Shared * list Proc -> Prop :=
  | process_step i is_dup s p s' p' procs : procs !! i = Some p -> proc_step is_dup s p = Ok (Some (s', p')) ->
      parallel_step (s, procs) (s', <[i := p']> procs).
End Steps.

(** The state HnswBeginParallel sets up: the leader and the workers it launched. *)
Definition parallel_init (memoryTotal : Z) (scan : list (list heap_tuple)) (nworkers_launched : nat) : Shared * list Proc :=
  (mkShared (fun _ => LWLockInitialize) [] [] None 0 memoryTotal false 0 [] scan 0 0 false,
   mkProc ScanNext [] 0 [] true :: replicate nworkers_launched (mkProc ScanNext [] 0 [] false)).

(** The run of a schedule: which process is next, and what its search finds. *)
Fixpoint run_schedule `{Libm} (bs : BuildSettings) (nparticipants : Z) (schedule : list (nat * bool)) (c : Shared * list Proc)
    : res (Shared * list Proc) :=
  match schedule with
  | [] => Ok c
  | (i, is_dup) :: schedule =>
      match c.2 !! i with
      | None => run_schedule bs nparticipants schedule c
      | Some p =>
          r ← proc_step bs nparticipants is_dup c.1 p ;
          run_schedule bs nparticipants schedule (match r with Some (s', p') => (s', <[i := p']> c.2) | None => c end)
      end
  end.
