(* ===== verification/ParallelInv.v ===== *)
(** * Invariant of a parallel build

    What holds in every state of the machine of ParallelBuild.v: which locks a process
    holds where, what it knows about the shared memory there, and that no step of
    another process changes what it knows.  Mutual exclusion comes from
    LWLock.v. *)

From Stdlib Require Import SpecFloat.
From stdpp Require Import functions.
From S2P Require Import Prelude CFloat VectorType ItemPtr HnswData Backend HnswUtils HnswBuild LWLock ParallelBuild.

(** ** Steps taken apart *)

Section Cases.
Context `{Libm} (bs : BuildSettings).


Lemma acquire_inv lock mode next s p s' p' : acquire lock mode next s p = Ok (Some (s', p')) ->
  exists words, LWLockAcquire (sh_words s) (p_held p) lock mode = Ok (Some (words, (lock, mode) :: p_held p)) /\
    s' = set_words words s /\ p' = goto next (set_held ((lock, mode) :: p_held p) p).
Proof using Type.
  unfold acquire, LWLockAcquire. destruct (raise_if _ _) as [[]|]; [|done]. cbn. destruct (LWLockAttemptLock _ _) as [w|]; [|done].
  intros [= <- <-]. by eexists.
Qed.

Lemma release_inv lock next s p s' p' : release lock next s p = Ok (Some (s', p')) ->
  exists words held, LWLockRelease (sh_words s) (p_held p) lock = Ok (words, held) /\
    s' = set_words words s /\ p' = goto next (set_held held p).
Proof using Type.
  unfold release. destruct (LWLockRelease _ _ _) as [[words held]|]; [|done]. cbn. intros [= <- <-]. by exists words, held.
Qed.

Lemma release_held words (held : held_lwlocks LockId) lock mode words' held' :
  LWLockRelease words ((lock, mode) :: held) lock = Ok (words', held') -> held' = held.
Proof using Type. unfold LWLockRelease. cbn. rewrite decide_True by done. cbn. by intros [= _ <-]. Qed.

Lemma release_held_second words (held : held_lwlocks LockId) x lock mode words' held' : x.1 <> lock ->
  LWLockRelease words (x :: (lock, mode) :: held) lock = Ok (words', held') -> held' = x :: held.
Proof using Type.
  intros Hne. destruct x as [l m]. unfold LWLockRelease. cbn. rewrite decide_False by (intros ->; by destruct Hne). rewrite decide_True by done.
  cbn. by intros [= _ <-].
Qed.

(** The TID of a tuple if it has a value to index. *)
Definition index_tids (t : heap_tuple) : list ItemPointerData :=
  match t with
  | (tid, Some v, _) => match HnswFormIndexValue v (bs_typeInfo bs) (bs_support bs) with Ok (Some _) => [tid] | _ => [] end
  | (_, None, _) => []
  end.

Inductive scan_result (s : Shared) (p : Proc) : Shared -> Proc -> Prop :=
  | scan_result_over : p_todo p = [] -> sh_scan s = [] -> scan_result s p s (goto ScanDone p)
  | scan_result_block block scan : p_todo p = [] -> sh_scan s = block :: scan ->
      scan_result s p (set_scan scan s) (goto ScanNext (set_todo block p))
  | scan_result_skip t todo : p_todo p = t :: todo -> index_tids t = [] ->
      scan_result s p s (goto ScanNext (count_reltuple (set_todo todo p)))
  | scan_result_tuple tid v random todo v' : p_todo p = (tid, Some v, random) :: todo ->
      HnswFormIndexValue v (bs_typeInfo bs) (bs_support bs) = Ok (Some v') ->
      scan_result s p s (goto (AcquireFlushLock (mkIndexTuple tid v' random)) (count_reltuple (set_todo todo p))).

Lemma scan_next_inv s p s' p' : scan_next bs s p = Ok (Some (s', p')) -> scan_result s p s' p'.
Proof using Type.
  unfold scan_next, continue. destruct (p_todo p) as [|[[tid [v|]] random] todo] eqn:Ht.
  - destruct (sh_scan s) as [|b scan] eqn:Hs; intros [= <- <-]; [by constructor|by eapply scan_result_block].
  - destruct (HnswFormIndexValue v _ _) as [r|] eqn:Hr; [|done]. cbn. intros [= <- <-]. destruct r as [v'|].
    + by apply (scan_result_tuple _ _ tid v random).
    + apply (scan_result_skip _ _ (tid, Some v, random)); [done|]. cbn. by rewrite Hr.
  - cbn. intros [= <- <-]. by apply (scan_result_skip _ _ (tid, None, random)).
Qed.

Lemma allocate_element_inv t s p s' p' : allocate_element bs t s p = Ok (Some (s', p')) ->
  exists level, draw_level (bs_ml bs) (it_random t) (bs_maxLevel bs) = Ok level /\
    s' = set_memoryUsed (allocate_chunks (sh_memoryUsed s) (element_chunks (bs_m bs) (u8 level) (VARSIZE_ANY (it_value t)))) s /\
    p' = goto (ReleaseAllocatorLock (mkElement (it_tid t) (u8 level))) p.
Proof using Type.
  intros Hs. unfold allocate_element in Hs. destruct (draw_level _ _ _) as [level|]; [|done]. unfold continue in Hs. cbn in Hs.
  injection Hs as <- <-. by exists level.
Qed.

Lemma update_graph_inv is_dup e ep s p s' p' : update_graph is_dup e ep s p = Ok (Some (s', p')) ->
  (s' = add_duplicate (e_tid e) s /\ p' = goto ReleaseEntryLock p) \/ (s' = add_element e s /\ p' = goto (UpdateEntryPoint e ep) p).
Proof using Type. unfold update_graph, continue. destruct (_ && _); intros [= <- <-]; [by left|by right]. Qed.

End Cases.

(** What a step is, by what the code at the place calls. *)
Ltac step_inv Hs :=
  match type of Hs with
  | scan_next _ _ _ = _ => apply scan_next_inv in Hs
  | acquire _ _ _ _ _ = _ => let w := fresh "words" in let Hw := fresh "Hw" in apply acquire_inv in Hs as (w & Hw & -> & ->)
  | release _ _ _ _ = _ => let w := fresh "words" in let h := fresh "held" in let Hw := fresh "Hw" in apply release_inv in Hs as (w & h & Hw & -> & ->)
  | allocate_element _ _ _ _ = _ => apply allocate_element_inv in Hs as (level & Hlevel & -> & ->)
  | update_graph _ _ _ _ _ = _ => apply update_graph_inv in Hs as [[-> ->]|[-> ->]]
  | wait_test _ _ _ _ = _ => unfold wait_test, continue in Hs; injection Hs as <- <-
  | continue _ _ _ = _ => unfold continue in Hs; injection Hs as <- <-
  | (if _ then _ else _) = _ => destruct (sh_wakeup _) eqn:Hwake; [done|]; unfold continue in Hs; injection Hs as <- <-
  | _ => done
  end.

(** One case for every step: [Hs] is the step of [p], [Hpc] where it was. *)
Ltac step_cases Hs Hpc Hp :=
  match type of Hs with proc_step _ _ _ ?s ?p = _ => destruct Hp as [Hp Htodo Hover]; unfold proc_step in Hs; destruct (p_pc p) eqn:Hpc; cbn in Hp end;
  repeat match goal with Hc : _ /\ _ |- _ => destruct Hc | Hc : exists _, _ |- _ => destruct Hc end;
  step_inv Hs;
  (* the locks the process holds afterwards *)
  try match goal with
  | Hw : LWLockRelease _ (p_held ?p) _ = _, Hh : p_held ?p = _ |- _ =>
      let Hx := fresh "Hheld" in pose proof Hw as Hx; rewrite Hh in Hx;
      first [apply release_held in Hx|apply release_held_second in Hx; [|done]]; subst
  end.

(** ** One process *)

Section Inv.
Context `{Libm} (bs : BuildSettings) (n : nat) (maxValueSize : Z).

#[local] Abbreviation step := (proc_step bs (Z.of_nat n)).
#[local] Abbreviation F := FlushLock.
#[local] Abbreviation A := AllocatorLock.
#[local] Abbreviation E := EntryLock.
#[local] Abbreviation W := EntryWaitLock.
#[local] Abbreviation SH := LW_SHARED.
#[local] Abbreviation EX := LW_EXCLUSIVE.

(** The level of the tuple can be drawn, its value is not too large. *)
Definition tuple_ok (t : IndexTuple) : Prop :=
  (exists level, draw_level (bs_ml bs) (it_random t) (bs_maxLevel bs) = Ok level /\ 0 <= level <= bs_maxLevel bs) /\
  0 <= VARSIZE_ANY (it_value t) <= maxValueSize.

Definition row_fine (t : heap_tuple) : Prop :=
  match t with
  | (tid, Some v, random) =>
      exists r, HnswFormIndexValue v (bs_typeInfo bs) (bs_support bs) = Ok r /\
        forall v', r = Some v' -> tuple_ok (mkIndexTuple tid v' random)
  | (_, None, _) => True
  end.

(** The locks a process holds at a place, and what it knows there. *)
Definition pc_ok (s : Shared) (leader : bool) (pc : PC) (held : held_lwlocks LockId) : Prop :=
  match pc with
  | ScanNext | CountTuple | ScanDone | SignalLeader => held = []
  | AcquireFlushLock t | AcquireFlushExclusive t => held = [] /\ tuple_ok t
  | TestFlushed t | MemoryFullRelease t => held = [(F, SH)] /\ tuple_ok t
  | LeaveMemory t => held = [(F, SH)] /\ tuple_ok t /\ sh_flushed s = true
  | AcquireAllocatorLock t => held = [(F, SH)] /\ tuple_ok t /\ sh_flushed s = false
  | TestMemory t => held = [(A, EX); (F, SH)] /\ tuple_ok t /\ sh_flushed s = false
  | MemoryFull t => held = [(A, EX); (F, SH)] /\ tuple_ok t
  | AllocateElement t => held = [(A, EX); (F, SH)] /\ tuple_ok t /\ sh_flushed s = false /\ sh_memoryUsed s < sh_memoryTotal s
  | TestFlushedAgain t => held = [(F, EX)] /\ tuple_ok t
  | FlushWrite t => held = [(F, EX)] /\ tuple_ok t /\ sh_flushed s = false
  | FlushSetFlushed t => held = [(F, EX)] /\ tuple_ok t /\ sh_flushed s = false /\ sh_pages s = memory_tids s
  | FlushDone t => held = [(F, EX)] /\ tuple_ok t /\ sh_flushed s = true
  | InsertOnDisk t => held = [] /\ tuple_ok t /\ sh_flushed s = true
  | ReleaseAllocatorLock e => held = [(A, EX); (F, SH)] /\ sh_flushed s = false
  | AcquireEntryWait e | AcquireEntryShared e | UpgradeAcquireWait e => held = [(F, SH)] /\ sh_flushed s = false
  | ReleaseEntryWait e | UpgradeAcquire e => held = [(W, EX); (F, SH)] /\ sh_flushed s = false
  | ReadEntry e | UpgradeRelease e => held = [(E, SH); (F, SH)] /\ sh_flushed s = false
  | UpgradeReleaseWait e => held = [(E, EX); (W, EX); (F, SH)] /\ sh_flushed s = false
  | ReadEntryAgain e => held = [(E, EX); (F, SH)] /\ sh_flushed s = false
  | UpdateGraph e entryPoint =>
      exists mode, held = [(E, mode); (F, SH)] /\ sh_flushed s = false /\ sh_entryPoint s = entryPoint /\
        (mode = SH -> better_than e entryPoint = false)
  | UpdateEntryPoint e entryPoint =>
      exists mode, held = [(E, mode); (F, SH)] /\ sh_flushed s = false /\ sh_entryPoint s = entryPoint /\
        (mode = SH -> better_than e entryPoint = false) /\ e ∈ sh_elements s
  | ReleaseEntryLock => exists mode, held = [(E, mode); (F, SH)]
  | ReleaseFlushLock => held = [(F, SH)]
  | WaitTest _ | WaitPrepare | WaitSleep => held = [] /\ leader = true
  | WaitCancel | LeaderTestFlushed => held = [] /\ leader = true /\ sh_nparticipantsdone s = Z.of_nat n
  | LeaderFlushWrite => held = [] /\ leader = true /\ sh_nparticipantsdone s = Z.of_nat n /\ sh_flushed s = false
  | LeaderSetFlushed =>
      held = [] /\ leader = true /\ sh_nparticipantsdone s = Z.of_nat n /\ sh_flushed s = false /\ sh_pages s = memory_tids s
  | Ended => held = [] /\ (leader = true -> sh_flushed s = true)
  end.

(** The process has counted itself as done. *)
Definition past_done (pc : PC) : bool :=
  match pc with
  | SignalLeader | WaitTest _ | WaitPrepare | WaitSleep | WaitCancel | LeaderTestFlushed | LeaderFlushWrite | LeaderSetFlushed | Ended => true
  | _ => false
  end.
Definition scan_over (pc : PC) : bool := match pc with ScanDone => true | _ => past_done pc end.

(** The process writes the graph to pages. *)
Definition writing (pc : PC) : bool := match pc with FlushSetFlushed _ | LeaderSetFlushed => true | _ => false end.

Record proc_ok (s : Shared) (p : Proc) : Prop := {
  po_pc : pc_ok s (p_leader p) (p_pc p) (p_held p);
  po_todo : Forall row_fine (p_todo p);
  po_over : scan_over (p_pc p) = true -> p_todo p = [] /\ sh_scan s = []
}.

Definition writes_next (pc : PC) : bool := match pc with FlushWrite _ | LeaderFlushWrite => true | _ => false end.

(** What a process knows after its own step. *)
Lemma step_proc_ok is_dup s p s' p' : proc_ok s p -> step is_dup s p = Ok (Some (s', p')) ->
  (writes_next (p_pc p) = true -> sh_pages s = []) -> Forall (Forall row_fine) (sh_scan s) ->
  proc_ok s' p' /\ Forall (Forall row_fine) (sh_scan s').
Proof using Type.
  intros Hp Hs Hpages Hscan. step_cases Hs Hpc Hp.
  all: try (split; [split; cbn; [split_and?; congruence|done|done]|done]).
  all: try (split; [split; cbn; [destruct (sh_flushed s) eqn:?; cbn; split_and?; congruence|done|by destruct (sh_flushed s)]|done]).
  - destruct Hs as [Ht Hsc|block scan Ht Hsc|t todo Ht Hi|tid v random todo v' Ht Hv]; (split; [split; cbn|]); try done.
    + rewrite Hsc in Hscan. by apply list.Forall_cons in Hscan as [? _].
    + rewrite Hsc in Hscan. by apply list.Forall_cons in Hscan as [_ ?].
    + rewrite Ht in Htodo. by apply list.Forall_cons in Htodo as [_ ?].
    + rewrite Ht in Htodo. apply list.Forall_cons in Htodo as [(r & Hr & Hok) _]. rewrite Hv in Hr. injection Hr as <-. split; [done|]. by apply Hok.
    + rewrite Ht in Htodo. by apply list.Forall_cons in Htodo as [_ ?].
  - destruct (Z.leb_spec (sh_memoryTotal s) (sh_memoryUsed s)); (split; [split; cbn; [by split_and!|done|done]|done]).
  - assert (sh_pages s = []) as Hnil by by apply Hpages. split; [split; cbn; [rewrite Hnil; by split_and!|done|done]|done].
  - destruct (better_than e (sh_entryPoint s)) eqn:Hb; (split; [split; cbn; [|done|done]|done]); [by split_and!|]. by exists SH.
  - split; [split; cbn; [|done|done]|done]. by exists EX.
  - split; [split; cbn; [|done|done]|done]. by eexists.
  - split; [split; cbn; [|done|done]|done]. eexists. split_and!; [done|done|done|done|left].
  - destruct (better_than e entryPoint); (split; [split; cbn; [|done|done]|done]); by eexists.
  - destruct (p_leader p) eqn:Hl; (split; [split; cbn; [|done|]|done]); try (intros _; by apply Hover).
    + by split.
    + by rewrite Hl.
  - destruct (Z.eqb_spec (sh_nparticipantsdone s) (Z.of_nat n)); [|destruct prepared]; (split; [split; cbn; [by split_and?|done|done]|done]).
  - assert (sh_pages s = []) as Hnil by by apply Hpages. split; [split; cbn; [rewrite Hnil; by split_and!|done|done]|done].
Qed.

(** What a step may change, and under which lock. *)
Record step_effect (s : Shared) (p : Proc) (s' : Shared) : Prop := {
  ef_total : sh_memoryTotal s' = sh_memoryTotal s;
  ef_flushed : sh_flushed s' = sh_flushed s \/
    sh_flushed s' = true /\ ((F, EX) ∈ p_held p \/ sh_nparticipantsdone s = Z.of_nat n /\ p_leader p = true);
  ef_used : sh_memoryUsed s' = sh_memoryUsed s \/ (A, EX) ∈ p_held p;
  ef_entry : sh_entryPoint s' = sh_entryPoint s \/ (E, EX) ∈ p_held p;
  ef_memory : memory_tids s' = memory_tids s \/ (F, SH) ∈ p_held p;
  ef_elements e : e ∈ sh_elements s -> e ∈ sh_elements s';
  ef_pages : sh_pages s' = sh_pages s \/ (F, EX) ∈ p_held p \/ sh_flushed s = true \/
    sh_nparticipantsdone s = Z.of_nat n /\ p_leader p = true;
  ef_done : sh_nparticipantsdone s' = sh_nparticipantsdone s \/ past_done (p_pc p) = false;
  ef_scan : sh_scan s = [] -> sh_scan s' = []
}.

Lemma step_effect_ok is_dup s p s' p' : proc_ok s p -> step is_dup s p = Ok (Some (s', p')) -> step_effect s p s'.
Proof using Type.
  intros Hp Hs. step_cases Hs Hpc Hp.
  all: try (split; cbn; by auto).
  all: try (split; cbn; try match goal with Hh : p_held ?q = _ |- _ => rewrite Hh end; auto 8 using list_elem_of_here, list_elem_of_further; fail).
  - destruct Hs; split; cbn; auto. congruence.
  - destruct (better_than e entryPoint) eqn:Hb; [|split; auto].
    destruct x; [split; cbn; rewrite ?H0; auto 8 using list_elem_of_here|]. exfalso. specialize (H3 eq_refl). congruence.
  - split; cbn; auto. right. by rewrite Hpc.
Qed.

Lemma past_done_held s p : proc_ok s p -> past_done (p_pc p) = true -> p_held p = [].
Proof using Type. intros [Hp _ _] Hd. by destruct (p_pc p); cbn in Hp, Hd; try destruct Hp. Qed.

(** *** Another process does not change what a process knows *)

Section Other.
Context (s s' : Shared) (p q : Proc).
Context (Hp : proc_ok s p) (Hq : proc_ok s q) (Hef : step_effect s p s').
Context (Halone : forall lock mode, (lock, EX) ∈ p_held p -> (lock, mode) ∈ p_held q -> False).
Context (Halone' : forall lock mode, (lock, EX) ∈ p_held q -> (lock, mode) ∈ p_held p -> False).
Context (Hleader : p_leader q = true -> p_leader p = false).
Context (Hdone : sh_nparticipantsdone s = Z.of_nat n -> past_done (p_pc p) = true /\ past_done (p_pc q) = true).

Lemma other_done : sh_nparticipantsdone s = Z.of_nat n -> sh_nparticipantsdone s' = Z.of_nat n.
Proof using Hef Hdone. intros Hd. destruct (ef_done _ _ _ Hef) as [->|He]; [done|]. destruct (Hdone Hd). congruence. Qed.

Lemma other_flushed mode : (F, mode) ∈ p_held q -> past_done (p_pc q) = false -> sh_flushed s' = sh_flushed s.
Proof using Hef Hdone Halone.
  intros Hin Hpd. destruct (ef_flushed _ _ _ Hef) as [->|(_ & [Hex|[Hd _]])]; [done|by destruct (Halone F mode)|].
  destruct (Hdone Hd). congruence.
Qed.

Lemma other_stays_flushed : sh_flushed s = true -> sh_flushed s' = true.
Proof using Hef. intros Hf. by destruct (ef_flushed _ _ _ Hef) as [->|[-> _]]. Qed.

Lemma other_writing : (F, EX) ∈ p_held q -> past_done (p_pc q) = false -> sh_flushed s = false ->
  sh_pages s = memory_tids s -> sh_pages s' = memory_tids s'.
Proof using Hef Hdone Halone Halone'.
  intros Hin Hpd Hf Heq. destruct (ef_memory _ _ _ Hef) as [->|Hex]; [|by destruct (Halone' F SH)].
  destruct (ef_pages _ _ _ Hef) as [->|[Hex|[Hf'|[Hd _]]]]; [done|by destruct (Halone F EX)|congruence|]. destruct (Hdone Hd). congruence.
Qed.

Lemma other_entry mode : (E, mode) ∈ p_held q -> sh_entryPoint s' = sh_entryPoint s.
Proof using Hef Halone. intros Hin. destruct (ef_entry _ _ _ Hef) as [->|Hex]; [done|]. by destruct (Halone E mode). Qed.

Lemma other_used : (A, EX) ∈ p_held q -> sh_memoryUsed s' = sh_memoryUsed s.
Proof using Hef Halone. intros Hin. destruct (ef_used _ _ _ Hef) as [->|Hex]; [done|]. by destruct (Halone A EX). Qed.

Lemma other_leader : p_leader q = true -> sh_nparticipantsdone s = Z.of_nat n ->
  sh_flushed s' = sh_flushed s /\ (sh_flushed s = false -> sh_pages s = memory_tids s -> sh_pages s' = memory_tids s').
Proof using Hp Hef Hdone Hleader.
  intros Hl Hd. destruct (Hdone Hd) as [Hpd _]. pose proof (past_done_held _ _ Hp Hpd) as Hh. specialize (Hleader Hl).
  split.
  - destruct (ef_flushed _ _ _ Hef) as [->|(_ & [Hex|[_ Hl']])]; [done|rewrite Hh in Hex; by apply elem_of_nil in Hex|congruence].
  - intros Hf Heq. destruct (ef_memory _ _ _ Hef) as [->|Hex]; [|rewrite Hh in Hex; by apply elem_of_nil in Hex].
    destruct (ef_pages _ _ _ Hef) as [->|[Hex|[Hf'|[_ Hl']]]]; [done|rewrite Hh in Hex; by apply elem_of_nil in Hex|congruence|congruence].
Qed.

Lemma proc_ok_other : proc_ok s' q.
Proof using Hp Hq Hef Halone Halone' Hleader Hdone.
  destruct Hq as [Hpc Htodo Hover]. split; [|done|].
  2: { intros Ho. destruct (Hover Ho) as [Ht Hs]. split; [done|]. by apply (ef_scan _ _ _ Hef). }
  pose proof other_done as Hod. pose proof other_flushed as Hof. pose proof other_stays_flushed as Hos.
  pose proof other_writing as How. pose proof other_entry as Hoe. pose proof other_used as Hou. pose proof other_leader as Hol.
  destruct (p_pc q); cbn [pc_ok past_done] in *;
    repeat match goal with Hc : _ /\ _ |- _ => destruct Hc | Hc : exists _, _ |- _ => destruct Hc end;
    try match goal with Hh : p_held q = _ |- _ => rewrite Hh in * end.
  all: split_and?; try done; try (apply Hos; done); try (erewrite Hof; [eassumption|eauto using list_elem_of_here, list_elem_of_further|done]).
  - by apply How; [left|..].
  - rewrite Hou, (ef_total _ _ _ Hef) by left. done.
  - exists x. split_and!; [done| | |done].
    + erewrite Hof; [eassumption|right; left|done].
    + erewrite Hoe; [done|left].
  - exists x. split_and!; [done| | |done|by apply (ef_elements _ _ _ Hef)].
    + erewrite Hof; [eassumption|right; left|done].
    + erewrite Hoe; [done|left].
  - by eexists.
  - auto.
  - auto.
  - auto.
  - destruct Hol as [-> _]; done.
  - auto.
  - destruct Hol as [-> _]; done.
  - destruct Hol as [_ Hw]; auto.
  - intros Hl. auto.
Qed.
End Other.

(** *** The locks of a step *)

Lemma proc_ok_locks s p : proc_ok s p -> NoDup (p_held p).*1 /\ (length (p_held p) <= 3)%nat.
Proof using Type.
  intros [Hp _ _]. destruct (p_pc p); cbn [pc_ok] in Hp;
    repeat match goal with Hc : _ /\ _ |- _ => destruct Hc | Hc : exists _, _ |- _ => destruct Hc end;
    match goal with Hh : p_held p = _ |- _ => rewrite Hh end;
    (split; [apply (bool_decide_unpack _); by vm_compute|cbn; lia]).
Qed.

Inductive lock_step (s : Shared) (p : Proc) (s' : Shared) (p' : Proc) : Prop :=
  | lock_none : sh_words s' = sh_words s -> p_held p' = p_held p -> lock_step s p s' p'
  | lock_acquire lock mode : lock ∉ (p_held p).*1 ->
      LWLockAcquire (sh_words s) (p_held p) lock mode = Ok (Some (sh_words s', p_held p')) -> lock_step s p s' p'
  | lock_release lock : LWLockRelease (sh_words s) (p_held p) lock = Ok (sh_words s', p_held p') -> lock_step s p s' p'.

Lemma lock_step_ok is_dup s p s' p' : proc_ok s p -> step is_dup s p = Ok (Some (s', p')) -> lock_step s p s' p'.
Proof using Type.
  intros Hp Hs. step_cases Hs Hpc Hp.
  all: try (by apply lock_none).
  all: try (by eapply lock_release).
  all: try (eapply lock_acquire; [|done]; match goal with Hh : p_held ?q = _ |- _ => rewrite Hh end; apply (bool_decide_unpack _); by vm_compute).
  - destruct Hs; by apply lock_none.
  - destruct (better_than e entryPoint); by apply lock_none.
Qed.

(** ** All processes *)

Definition done_value (p : Proc) : Z := if past_done (p_pc p) then 1 else 0.

Lemma done_value_bounds p : 0 <= done_value p <= 1.
Proof using Type. unfold done_value. destruct (past_done _); lia. Qed.

Record core (c : Shared * list Proc) : Prop := {
  co_length : length c.2 = n;
  co_leader i p : c.2 !! i = Some p -> p_leader p = bool_decide (i = 0)%nat;
  co_locks : locks_ok (sh_words c.1) (p_held <$> c.2);
  co_procs i p : c.2 !! i = Some p -> proc_ok c.1 p;
  co_scan : Forall (Forall row_fine) (sh_scan c.1);
  co_done : sh_nparticipantsdone c.1 = total done_value c.2;
  co_pages : sh_flushed c.1 = false -> sh_pages c.1 = [] \/ exists i p, c.2 !! i = Some p /\ writing (p_pc p) = true
}.

Lemma all_done c i p : core c -> sh_nparticipantsdone c.1 = Z.of_nat n -> c.2 !! i = Some p -> past_done (p_pc p) = true.
Proof using Type.
  intros Hc Hd Hi. rewrite (co_done _ Hc), <- (co_length _ Hc) in Hd. pose proof (total_all _ _ _ _ done_value_bounds Hd Hi) as Hv.
  unfold done_value in Hv. by destruct (past_done _).
Qed.

Lemma held_alone c i j p q lock mode : core c -> i <> j -> c.2 !! i = Some p -> c.2 !! j = Some q ->
  (lock, EX) ∈ p_held p -> (lock, mode) ∈ p_held q -> False.
Proof using Type.
  intros Hc Hij Hi Hj Hex Hm. apply Hij. apply (exclusive_alone _ _ lock i j (p_held p) (p_held q) mode (co_locks _ Hc)); [|done| |done].
  - by rewrite list_lookup_fmap, Hi.
  - by rewrite list_lookup_fmap, Hj.
Qed.

(** A process that is about to write the graph finds no pages. *)
Lemma nothing_written c i p : core c -> c.2 !! i = Some p -> writes_next (p_pc p) = true -> sh_pages c.1 = [].
Proof using Type.
  intros Hc Hi Hw. pose proof (po_pc _ _ (co_procs _ Hc i p Hi)) as Hp.
  assert (sh_flushed c.1 = false) as Hf.
  { destruct (p_pc p); try done; [by destruct Hp as (_ & _ & ?)|by destruct Hp as (_ & _ & _ & ?)]. }
  destruct (co_pages _ Hc Hf) as [|(j & q & Hj & Hq)]; [done|exfalso].
  pose proof (po_pc _ _ (co_procs _ Hc j q Hj)) as Hq'.
  assert (i <> j) as Hij by (intros ->; rewrite Hi in Hj; injection Hj as ->; by destruct (p_pc q)).
  assert (sh_nparticipantsdone c.1 = Z.of_nat n \/ (F, EX) ∈ p_held p) as Hp1.
  { destruct (p_pc p); try done; cbn in Hp; destruct Hp as [Hh Hp]; [right; rewrite Hh; left|left; by destruct Hp as (_ & ? & _)]. }
  assert (sh_nparticipantsdone c.1 = Z.of_nat n \/ (F, EX) ∈ p_held q) as Hq1.
  { destruct (p_pc q); try done; cbn in Hq'; destruct Hq' as [Hh Hq']; [right; rewrite Hh; left|left; by destruct Hq' as (_ & ? & _)]. }
  destruct Hp1 as [Hd|Hp1].
  - pose proof (all_done c i p Hc Hd Hi) as Hdp. pose proof (all_done c j q Hc Hd Hj) as Hdq.
    pose proof (co_leader _ Hc i p Hi) as Hlp. pose proof (co_leader _ Hc j q Hj) as Hlq.
    destruct (p_pc p); try done; destruct (p_pc q); try done. cbn in Hp, Hq'. destruct Hp as (_ & Hp & _), Hq' as (_ & Hq' & _).
    rewrite Hp in Hlp. rewrite Hq' in Hlq. symmetry in Hlp, Hlq. apply bool_decide_eq_true in Hlp, Hlq. lia.
  - destruct Hq1 as [Hd|Hq1]; [|by apply (held_alone c i j p q F EX)].
    pose proof (all_done c i p Hc Hd Hi) as Hdp. by rewrite (past_done_held _ _ (co_procs _ Hc i p Hi) Hdp) in Hp1; apply elem_of_nil in Hp1.
Qed.

Lemma step_done is_dup s p s' p' : step is_dup s p = Ok (Some (s', p')) ->
  sh_nparticipantsdone s' = sh_nparticipantsdone s - done_value p + done_value p'.
Proof using Type.
  intros Hs. unfold proc_step in Hs. unfold done_value. destruct (p_pc p) eqn:Hpc.
  all: step_inv Hs.
  all: try (cbn; lia).
  all: try (repeat match goal with |- context [if ?b then _ else _] => match type of b with bool => match b with past_done _ => fail 1 | _ => destruct b end end end; cbn; lia).
  destruct Hs; cbn; lia.
Qed.

(** A process that was writing the graph has written it. *)
Lemma step_writing is_dup s p s' p' : step is_dup s p = Ok (Some (s', p')) -> writing (p_pc p) = true -> sh_flushed s' = true.
Proof using Type. intros Hs Hw. unfold proc_step in Hs. by destruct (p_pc p); try done; unfold continue in Hs; injection Hs as <- <-. Qed.

(** Pages change before the graph is flushed only by the writing of it. *)
Lemma step_pages is_dup s p s' p' : proc_ok s p -> step is_dup s p = Ok (Some (s', p')) -> sh_flushed s' = false ->
  sh_flushed s = false /\ (sh_pages s' = sh_pages s \/ writing (p_pc p') = true).
Proof using Type.
  intros Hp Hs Hf. step_cases Hs Hpc Hp.
  all: try (by split; [done|left]).
  all: try (by split; [done|right]).
  all: try done.
  all: try (cbn in Hf; congruence).
  - destruct Hs; (split; [done|by left]).
  - destruct (better_than e entryPoint); (split; [done|by left]).
Qed.

Context (Hbackends : Z.of_nat n <= MAX_BACKENDS).

Lemma core_step c c' : core c -> parallel_step bs (Z.of_nat n) c c' -> core c'.
Proof using Hbackends.
  intros Hc Hst. destruct Hst as [i is_dup s p s' p' procs Hi Hs]. pose proof (co_procs _ Hc i p Hi) as Hp. cbn [fst snd] in *.
  pose proof (lookup_lt_Some _ _ _ Hi) as Hlt. pose proof (co_length _ Hc) as Hn. cbn [snd] in Hn.
  destruct (step_proc_ok _ _ _ _ _ Hp Hs (nothing_written _ _ _ Hc Hi) (co_scan _ Hc)) as [Hp' Hscan'].
  assert (p_leader p' = p_leader p) as Hlead.
  { clear -Hs Hp. step_cases Hs Hpc Hp; try done. by destruct Hs. }
  split; cbn [fst snd]; [by rewrite length_insert| | | |done| |].
  - intros j q Hj. destruct (decide (j = i)) as [->|Hji]; [|rewrite list_lookup_insert_ne in Hj by done; by apply (co_leader _ Hc)].
    rewrite list_lookup_insert_eq in Hj by done. injection Hj as <-. rewrite Hlead. by apply (co_leader _ Hc).
  - rewrite list_fmap_insert. assert ((p_held <$> procs) !! i = Some (p_held p)) as Hh by by rewrite list_lookup_fmap, Hi.
    destruct (lock_step_ok _ _ _ _ _ Hp Hs) as [-> ->|lock mode Hn' Ha|lock Hr].
    + rewrite list_insert_id by done. apply Hc.
    + pose proof (LWLockAcquire_ok _ _ _ _ lock mode (co_locks _ Hc) Hh (modes_of_absent _ _ Hn')) as Hok. cbn [fst snd] in Hok. rewrite Ha in Hok.
      apply Hok; [|rewrite length_fmap; lia|pose proof (proj2 (proc_ok_locks _ _ Hp)); unfold MAX_SIMUL_LWLOCKS; lia].
      intros h [q [-> Hq]]%list_elem_of_fmap. apply list_elem_of_lookup in Hq as [j Hj]. apply modes_of_once. by eapply proc_ok_locks, (co_procs _ Hc j).
    + destruct (LWLockDisownInternal (p_held p) lock) as [[mode h']|] eqn:Hd; [|unfold LWLockRelease in Hr; by rewrite Hd in Hr].
      destruct (LWLockRelease_ok _ _ _ _ lock mode h' (co_locks _ Hc) Hh Hd) as (w & Hw & Hok). cbn [fst] in Hw. rewrite Hw in Hr. by injection Hr as -> ->.
  - intros j q Hj. destruct (decide (j = i)) as [->|Hji]; [rewrite list_lookup_insert_eq in Hj by done; by injection Hj as <-|].
    rewrite list_lookup_insert_ne in Hj by done. apply (proc_ok_other s s' p q); [done|by apply (co_procs _ Hc j)|by eapply step_effect_ok| | | |].
    + intros lock mode. by apply (held_alone _ i j p q lock mode Hc).
    + intros lock mode. by apply (held_alone _ j i q p lock mode Hc).
    + pose proof (co_leader _ Hc i p Hi) as Hl. pose proof (co_leader _ Hc j q Hj) as Hl'. rewrite Hl, Hl', bool_decide_eq_true, bool_decide_eq_false. lia.
    + intros Hd. split; [by apply (all_done _ i p Hc)|by apply (all_done _ j q Hc)].
  - pose proof (co_done _ Hc) as Hd. cbn [fst snd] in Hd. rewrite (step_done _ _ _ _ _ Hs), (total_insert _ _ _ _ _ Hi). by rewrite Hd.
  - intros Hf. destruct (step_pages _ _ _ _ _ Hp Hs Hf) as [Hf0 [->|Hw]].
    + destruct (co_pages _ Hc Hf0) as [|(j & q & Hj & Hq)]; [by left|]. right. cbn [snd] in Hj. destruct (decide (j = i)) as [->|Hji].
      * rewrite Hi in Hj. injection Hj as <-. rewrite (step_writing _ _ _ _ _ Hs Hq) in Hf. done.
      * exists j, q. split; [by rewrite list_lookup_insert_ne|done].
    + right. exists i, p'. split; [by apply list_lookup_insert_eq|done].
Qed.
End Inv.
