(* ===== verification/ParallelSpec.v ===== *)
(** * What a parallel build does

    The entry point, the TIDs, the counters and the wakeup of the leader in every
    state of the machine of ParallelBuild.v; that some process can always go on, that
    no run is longer than a bound, and what the index is when all processes have
    ended. *)

From Stdlib Require Import SpecFloat.
From stdpp Require Import functions relations.
From S2P Require Import Prelude CFloat VectorType ItemPtr HnswData Backend HnswUtils HnswBuild LWLock ParallelBuild ParallelInv.

Section Spec.
Context `{Libm} (bs : BuildSettings) (n : nat) (maxValueSize : Z).

#[local] Abbreviation step := (proc_step bs (Z.of_nat n)).
#[local] Abbreviation tuple_ok := (tuple_ok bs maxValueSize).
#[local] Abbreviation row_fine := (row_fine bs maxValueSize).
#[local] Abbreviation proc_ok := (proc_ok bs n maxValueSize).
#[local] Abbreviation core := (core bs n maxValueSize).
#[local] Abbreviation index_tids := (index_tids bs).

(** ** The entry point *)

(** It is an element, and no element has a higher level but one whose process is
    about to make it the entry point. *)
Record entry_ok (c : Shared * list Proc) : Prop := {
  en_member q : sh_entryPoint c.1 = Some q -> q ∈ sh_elements c.1;
  en_top e : e ∈ sh_elements c.1 ->
    (exists q, sh_entryPoint c.1 = Some q /\ e_level e <= e_level q) \/
    (exists i p ep, c.2 !! i = Some p /\ p_pc p = UpdateEntryPoint e ep /\ better_than e ep = true)
}.

Definition updates_entry (pc : PC) : bool := match pc with UpdateGraph _ _ | UpdateEntryPoint _ _ => true | _ => false end.

(** Other steps leave the elements and the entry point alone. *)
Lemma step_entry is_dup s p s' p' : step is_dup s p = Ok (Some (s', p')) -> updates_entry (p_pc p) = false ->
  sh_elements s' = sh_elements s /\ sh_entryPoint s' = sh_entryPoint s.
Proof using Type.
  intros Hs Hu. unfold proc_step in Hs. destruct (p_pc p) eqn:Hpc; try done.
  all: step_inv Hs.
  all: try done.
  by destruct Hs.
Qed.

Lemma entry_step c c' : core c -> parallel_step bs (Z.of_nat n) c c' -> entry_ok c -> entry_ok c'.
Proof using Type.
  intros Hc Hst Hen. destruct Hst as [i is_dup s p s' p' procs Hi Hs]. pose proof (co_procs _ _ _ _ Hc i p Hi) as Hp. cbn [fst snd] in *.
  pose proof (lookup_lt_Some _ _ _ Hi) as Hlt.
  (* a process that will update the entry point still does, unless it was this one *)
  assert (forall e, (exists j q ep, procs !! j = Some q /\ p_pc q = UpdateEntryPoint e ep /\ better_than e ep = true) ->
    (exists ep, p_pc p = UpdateEntryPoint e ep /\ better_than e ep = true) \/
    (exists j q ep, <[i := p']> procs !! j = Some q /\ j <> i /\ procs !! j = Some q /\ p_pc q = UpdateEntryPoint e ep /\ better_than e ep = true)) as Hother.
  { intros e (j & q & ep & Hj & Hq & Hb). destruct (decide (j = i)) as [->|Hji].
    - left. rewrite Hi in Hj. injection Hj as ->. by exists ep.
    - right. exists j, q, ep. by rewrite list_lookup_insert_ne. }
  destruct (updates_entry (p_pc p)) eqn:Hu.
  2: { destruct (step_entry _ _ _ _ _ Hs Hu) as [He He']. split; cbn [fst snd]; rewrite He, ?He'; [apply Hen|].
       intros e Hin. destruct (en_top _ Hen e Hin) as [Hq|Hq]; [by left|right]. cbn [snd] in Hq.
       destruct (Hother e Hq) as [(ep & Hep & _)|(j & q & ep & Hj & _ & _ & Hq' & Hb)]; [by rewrite Hep in Hu|by exists j, q, ep]. }
  step_cases Hs Hpc Hp; try done.
  - (* a duplicate *)
    split; cbn; [apply Hen|]. intros e' Hin. destruct (en_top _ Hen e' Hin) as [Hq|Hq]; [by left|right].
    destruct (Hother e' Hq) as [(ep & Hep & _)|(j & q & ep & Hj & _ & _ & Hq' & Hb)]; [congruence|by exists j, q, ep].
  - (* a new element *)
    split; cbn.
    + intros q Hq. right. by apply (en_member _ Hen).
    + intros e' [->|Hin]%elem_of_cons.
      * destruct (better_than e entryPoint) eqn:Hb; [right; exists i, (goto (UpdateEntryPoint e entryPoint) p), entryPoint; by rewrite list_lookup_insert_eq|].
        left. unfold better_than in Hb. destruct entryPoint as [q|]; [|done]. exists q. split; [done|]. lia.
      * destruct (en_top _ Hen e' Hin) as [Hq|Hq]; [by left|right].
        destruct (Hother e' Hq) as [(ep & Hep & _)|(j & q & ep & Hj & _ & _ & Hq' & Hb)]; [congruence|by exists j, q, ep].
  - (* the entry point *)
    destruct (better_than e entryPoint) eqn:Hb.
    + assert (x = LW_EXCLUSIVE) as -> by (destruct x; [done|]; match goal with Hm : LW_SHARED = _ -> _ |- _ => by specialize (Hm eq_refl) end). split; cbn; [by intros q [= <-]|].
      intros e' Hin. left. exists e. split; [done|]. destruct (en_top _ Hen e' Hin) as [(q & Hq & Hle)|Hq]; cbn in *.
      * rewrite Hq in *. subst entryPoint. cbn in Hb. lia.
      * destruct (Hother e' Hq) as [(ep & Hep & _)|(j & q & ep & _ & Hji & Hj & Hq' & Hb')]; [injection Hep as <- <-; lia|exfalso].
        pose proof (po_pc _ _ _ _ _ (co_procs _ _ _ _ Hc j q Hj)) as Hqok. rewrite Hq' in Hqok. destruct Hqok as (mode & Hh & _ & _ & _).
        apply (held_alone _ _ _ _ i j p q EntryLock mode Hc); [done|done|done| |rewrite Hh; left].
        match goal with Hx : p_held p = _ |- _ => rewrite Hx end. left.
    + split; cbn; [apply Hen|]. intros e' Hin. destruct (en_top _ Hen e' Hin) as [Hq|Hq]; [by left|right].
      destruct (Hother e' Hq) as [(ep & Hep & Hb')|(j & q & ep & Hj & _ & _ & Hq' & Hb')]; [congruence|by exists j, q, ep].
Qed.

(** ** The TIDs and the counters *)

(** The TIDs the index has so far. *)
Definition stored (s : Shared) : list ItemPointerData := if sh_flushed s then sh_pages s else memory_tids s.

(** The TID a process is about to store. *)
Definition pc_tids (pc : PC) : list ItemPointerData :=
  match pc with
  | AcquireFlushLock t | TestFlushed t | LeaveMemory t | AcquireAllocatorLock t | TestMemory t | MemoryFull t | MemoryFullRelease t
  | AcquireFlushExclusive t | TestFlushedAgain t | FlushWrite t | FlushSetFlushed t | FlushDone t | InsertOnDisk t | AllocateElement t => [it_tid t]
  | ReleaseAllocatorLock e | AcquireEntryWait e | ReleaseEntryWait e | AcquireEntryShared e | ReadEntry e | UpgradeRelease e
  | UpgradeAcquireWait e | UpgradeAcquire e | UpgradeReleaseWait e | ReadEntryAgain e | UpdateGraph e _ => [e_tid e]
  | _ => []
  end.
Definition proc_tids (p : Proc) : list ItemPointerData := pc_tids (p_pc p) ++ (p_todo p ≫= index_tids).
Definition scan_tids (s : Shared) : list ItemPointerData := concat (sh_scan s) ≫= index_tids.

(** The process has stored a TID it has not counted. *)
Definition counting (p : Proc) : Z :=
  match p_pc p with UpdateEntryPoint _ _ | ReleaseEntryLock | ReleaseFlushLock | CountTuple => 1 | _ => 0 end.

(** The tuples a process has counted and not reported, or has still to see. *)
Definition own_tuples (p : Proc) : Z := (if past_done (p_pc p) then 0 else p_reltuples p) + Z.of_nat (length (p_todo p)).

Lemma step_tids is_dup s p s' p' : proc_ok s p -> step is_dup s p = Ok (Some (s', p')) ->
  scan_tids s' ++ proc_tids p' ++ stored s' ≡ₚ scan_tids s ++ proc_tids p ++ stored s.
Proof using Type.
  intros Hp Hs. unfold proc_tids. step_cases Hs Hpc Hp; cbn [pc_tids].
  all: unfold scan_tids, stored, memory_tids; cbn.
  all: repeat match goal with Hf : sh_flushed _ = _ |- _ => rewrite Hf end; try done.
  all: try (by repeat match goal with |- context [if ?b then _ else _] => match type of b with bool => destruct b end end).
  - destruct Hs as [Ht Hsc|block scan Ht Hsc|t todo Ht Hi|tid v random todo v' Ht Hv]; cbn; rewrite ?Ht, ?Hsc; cbn; try done.
    + rewrite bind_app. solve_Permutation.
    + by rewrite Hi.
    + by rewrite Hv.
  - match goal with Hf : sh_pages s = memory_tids s |- _ => by rewrite Hf end.
  - solve_Permutation.
  - solve_Permutation.
  - solve_Permutation.
  - destruct (better_than e entryPoint); cbn; repeat match goal with Hf : sh_flushed _ = _ |- _ => rewrite Hf end; done.
  - match goal with Hf : sh_pages s = memory_tids s |- _ => by rewrite Hf end.
Qed.

Lemma step_count is_dup s p s' p' : proc_ok s p -> step is_dup s p = Ok (Some (s', p')) ->
  Z.of_nat (length (stored s')) - sh_indtuples s' - counting p' = Z.of_nat (length (stored s)) - sh_indtuples s - counting p.
Proof using Type.
  intros Hp Hs. unfold counting. step_cases Hs Hpc Hp.
  all: unfold stored, memory_tids; cbn.
  all: repeat match goal with Hf : sh_flushed _ = _ |- _ => rewrite Hf end; try done.
  all: try (by repeat match goal with |- context [if ?b then _ else _] => match type of b with bool => destruct b end end).
  - destruct Hs; cbn; lia.
  - match goal with Hf : sh_pages s = memory_tids s |- _ => by rewrite Hf end.
  - rewrite length_app. cbn. lia.
  - rewrite !length_app. cbn. lia.
  - cbn [length]. lia.
  - destruct (better_than e entryPoint); cbn; repeat match goal with Hf : sh_flushed _ = _ |- _ => rewrite Hf end; done.
  - lia.
  - match goal with Hf : sh_pages s = memory_tids s |- _ => by rewrite Hf end.
Qed.

Lemma step_reltuples is_dup s p s' p' : step is_dup s p = Ok (Some (s', p')) ->
  sh_reltuples s' + own_tuples p' + Z.of_nat (length (concat (sh_scan s'))) = sh_reltuples s + own_tuples p + Z.of_nat (length (concat (sh_scan s))).
Proof using Type.
  intros Hs. unfold own_tuples. unfold proc_step in Hs. destruct (p_pc p) eqn:Hpc.
  all: step_inv Hs.
  all: try (cbn; lia).
  all: try (repeat match goal with |- context [if ?b then _ else _] => match type of b with bool => match b with past_done _ => fail 1 | _ => destruct b end end end; cbn; lia).
  destruct Hs as [Ht Hsc|block scan Ht Hsc|t todo Ht Hi|tid v random todo v' Ht Hv]; cbn; rewrite ?Ht, ?Hsc; cbn; rewrite ?length_app; lia.
Qed.

(** ** The wakeup of the leader *)

Definition signal_pending (pc : PC) : bool := match pc with SignalLeader => true | _ => negb (past_done pc) end.

(** While the leader sleeps in the wakeup list, some process has not signaled. *)
Definition wakeup_ok (c : Shared * list Proc) : Prop :=
  forall i p, c.2 !! i = Some p -> p_pc p = WaitSleep -> sh_wakeup c.1 = true ->
    exists j q, c.2 !! j = Some q /\ signal_pending (p_pc q) = true.

Lemma some_not_done procs : total done_value procs <> Z.of_nat (length procs) -> exists j q, procs !! j = Some q /\ past_done (p_pc q) = false.
Proof using Type.
  induction procs as [|q procs IH]; intros Hne; [done|]. rewrite total_cons in Hne. cbn [length] in Hne.
  destruct (past_done (p_pc q)) eqn:Hq; [|by exists O, q]. unfold done_value at 1 in Hne. rewrite Hq in Hne.
  destruct IH as (j & r & Hj & Hr); [lia|]. by exists (S j), r.
Qed.

(** What a step does to the wakeup list and to the processes in it. *)
Lemma step_wakeup is_dup s p s' p' : step is_dup s p = Ok (Some (s', p')) ->
  (sh_wakeup s' = true -> sh_wakeup s = true \/ p_pc p = WaitPrepare \/ p_pc p = WaitSleep) /\
  (sh_wakeup s' = true -> signal_pending (p_pc p) = true -> signal_pending (p_pc p') = true) /\
  (p_pc p' = WaitSleep -> past_done (p_pc p) = true /\ sh_nparticipantsdone s <> Z.of_nat n /\ s' = s).
Proof using Type.
  intros Hs. unfold proc_step in Hs. destruct (p_pc p) eqn:Hpc.
  all: step_inv Hs.
  all: try (cbn; split_and!; by auto).
  all: try (repeat match goal with |- context [if ?b then _ else _] => match type of b with bool => destruct b end end; cbn; split_and!; by auto).
  - destruct Hs; cbn; split_and!; by auto.
  - cbn. split_and!; [by auto|done|]. destruct (Z.eqb_spec (sh_nparticipantsdone s) (Z.of_nat n)); [done|by auto].
Qed.

Lemma wakeup_step c c' : core c -> parallel_step bs (Z.of_nat n) c c' -> wakeup_ok c -> wakeup_ok c'.
Proof using Type.
  intros Hc Hst Hw. destruct Hst as [i is_dup s p s' p' procs Hi Hs]. pose proof (lookup_lt_Some _ _ _ Hi) as Hlt.
  destruct (step_wakeup _ _ _ _ _ Hs) as (Hw1 & Hw2 & Hw3). intros k r Hk Hr Hwake. cbn [fst snd] in *.
  assert (forall j q, procs !! j = Some q -> signal_pending (p_pc q) = true -> exists j q, <[i := p']> procs !! j = Some q /\ signal_pending (p_pc q) = true) as Hstill.
  { intros j q Hj Hq. destruct (decide (j = i)) as [->|Hji]; [|exists j, q; by rewrite list_lookup_insert_ne].
    rewrite Hi in Hj. injection Hj as <-. exists i, p'. split; [by apply list_lookup_insert_eq|by apply Hw2]. }
  destruct (decide (k = i)) as [->|Hki].
  - rewrite list_lookup_insert_eq in Hk by done. injection Hk as <-. destruct (Hw3 Hr) as (Hpd & Hne & ->).
    pose proof (co_done _ _ _ _ Hc) as Hd. pose proof (co_length _ _ _ _ Hc) as Hn. cbn [fst snd] in Hd, Hn. rewrite Hd, <- Hn in Hne.
    destruct (some_not_done _ Hne) as (j & q & Hj & Hq). apply (Hstill j q Hj). destruct (p_pc q); done.
  - rewrite list_lookup_insert_ne in Hk by done. destruct (Hw1 Hwake) as [Hws|Hpc].
    + destruct (Hw k r Hk Hr Hws) as (j & q & Hj & Hq). by apply (Hstill j q).
    + exfalso. apply Hki. pose proof (po_pc _ _ _ _ _ (co_procs _ _ _ _ Hc k r Hk)) as Hkr. pose proof (po_pc _ _ _ _ _ (co_procs _ _ _ _ Hc i p Hi)) as Hpi.
      rewrite Hr in Hkr. destruct Hkr as [_ Hlr]. rewrite (co_leader _ _ _ _ Hc k r Hk) in Hlr.
      assert (p_leader p = true) as Hlp by (destruct Hpc as [Hpc|Hpc]; rewrite Hpc in Hpi; by destruct Hpi).
      rewrite (co_leader _ _ _ _ Hc i p Hi) in Hlp. apply bool_decide_eq_true in Hlr, Hlp. lia.
Qed.

(** ** Some process can go on *)

Definition wants (pc : PC) : option LockId :=
  match pc with
  | AcquireFlushLock _ | AcquireFlushExclusive _ => Some FlushLock
  | AcquireAllocatorLock _ => Some AllocatorLock
  | AcquireEntryWait _ | UpgradeAcquireWait _ => Some EntryWaitLock
  | AcquireEntryShared _ | UpgradeAcquire _ => Some EntryLock
  | _ => None
  end.

(** The order in which the locks are taken. *)
Definition lock_rank (lock : LockId) : nat := match lock with FlushLock => 0 | AllocatorLock => 1 | EntryWaitLock => 2 | EntryLock => 3 end.

Lemma wants_above s p lock mode lock' : proc_ok s p -> (lock, mode) ∈ p_held p -> wants (p_pc p) = Some lock' -> (lock_rank lock < lock_rank lock')%nat.
Proof using Type.
  intros [Hp _ _] Hin Hw. destruct (p_pc p); try done; injection Hw as <-; cbn in Hp;
    repeat match goal with Hc : _ /\ _ |- _ => destruct Hc end;
    match goal with Hh : p_held p = _ |- _ => rewrite Hh in Hin end;
    repeat (apply elem_of_cons in Hin as [[= -> ->]|Hin]; [cbn; lia|]); by apply elem_of_nil in Hin.
Qed.

Definition can_step (c : Shared * list Proc) (p : Proc) : Prop := exists s' p', step false c.1 p = Ok (Some (s', p')).

(** What stops a process. *)
Inductive stopped (c : Shared * list Proc) (p : Proc) : Prop :=
  | stopped_ended : p_pc p = Ended -> stopped c p
  | stopped_asleep : p_pc p = WaitSleep -> sh_wakeup c.1 = true -> stopped c p
  | stopped_lock lock j q mode : wants (p_pc p) = Some lock -> c.2 !! j = Some q -> (lock, mode) ∈ p_held q -> stopped c p.

Context (Hbackends : Z.of_nat n <= MAX_BACKENDS).

Lemma acquire_result c i p lock mode next : core c -> c.2 !! i = Some p -> wants (p_pc p) = Some lock ->
  (exists s' p', acquire lock mode next c.1 p = Ok (Some (s', p'))) \/
  acquire lock mode next c.1 p = Ok None /\ exists j q mode', c.2 !! j = Some q /\ (lock, mode') ∈ p_held q.
Proof using Hbackends.
  intros Hc Hi Hw. pose proof (co_procs _ _ _ _ Hc i p Hi) as Hp. unfold acquire.
  assert ((p_held <$> c.2) !! i = Some (p_held p)) as Hh by by rewrite list_lookup_fmap, Hi.
  assert (modes_of lock (p_held p) = []) as Hnone.
  { destruct (modes_of lock (p_held p)) as [|m l] eqn:Hm; [done|exfalso].
    assert ((lock, m) ∈ p_held p) as Hin by (apply elem_of_modes_of; rewrite Hm; left). pose proof (wants_above _ _ _ _ _ Hp Hin Hw). lia. }
  pose proof (LWLockAcquire_ok _ _ _ _ lock mode (co_locks _ _ _ _ Hc) Hh Hnone) as Hok.
  destruct (LWLockAcquire _ _ _ _) as [[[words held]|]|].
  - left. by eexists _, _.
  - right. split; [done|]. destruct Hok as (j & h & m & Hj & Hin).
    + intros h [q [-> Hq]]%list_elem_of_fmap. apply list_elem_of_lookup in Hq as [j Hj]. apply modes_of_once. by eapply proc_ok_locks, (co_procs _ _ _ _ Hc j).
    + rewrite length_fmap, (co_length _ _ _ _ Hc). done.
    + pose proof (proj2 (proc_ok_locks _ _ _ _ _ Hp)). unfold MAX_SIMUL_LWLOCKS. lia.
    + rewrite list_lookup_fmap in Hj. destruct (c.2 !! j) as [q|] eqn:Hq; [|done]. injection Hj as <-. by exists j, q, m.
  - exfalso. apply Hok.
    + intros h [q [-> Hq]]%list_elem_of_fmap. apply list_elem_of_lookup in Hq as [j Hj]. apply modes_of_once. by eapply proc_ok_locks, (co_procs _ _ _ _ Hc j).
    + rewrite length_fmap, (co_length _ _ _ _ Hc). done.
    + pose proof (proj2 (proc_ok_locks _ _ _ _ _ Hp)). unfold MAX_SIMUL_LWLOCKS. lia.
Qed.

Lemma release_result lock next s p mode held : p_held p = (lock, mode) :: held -> exists s' p', release lock next s p = Ok (Some (s', p')).
Proof using Type. intros Hh. unfold release, LWLockRelease. rewrite Hh. cbn. rewrite decide_True by done. by eexists _, _. Qed.

Lemma release_result_second lock next s p x mode held : x.1 <> lock -> p_held p = x :: (lock, mode) :: held ->
  exists s' p', release lock next s p = Ok (Some (s', p')).
Proof using Type.
  intros Hne Hh. destruct x as [l m]. unfold release, LWLockRelease. rewrite Hh. cbn. rewrite decide_False by (intros ->; by destruct Hne).
  rewrite decide_True by done. by eexists _, _.
Qed.

(** A step is a step, or the process is stopped; it is never an error. *)
Lemma try_step c i p is_dup : core c -> c.2 !! i = Some p ->
  (exists s' p', step is_dup c.1 p = Ok (Some (s', p'))) \/ step is_dup c.1 p = Ok None /\ stopped c p.
Proof using Hbackends.
  intros Hc Hi. pose proof (co_procs _ _ _ _ Hc i p Hi) as Hpo. destruct Hpo as [Hp Htodo _]. unfold proc_step.
  assert (forall lock mode next, wants (p_pc p) = Some lock ->
    (exists s' p', acquire lock mode next c.1 p = Ok (Some (s', p'))) \/ acquire lock mode next c.1 p = Ok None /\ stopped c p) as Hacq.
  { intros lock mode next Hw. destruct (acquire_result c i p lock mode next Hc Hi Hw) as [Hs|[Hs (j & q & m & Hj & Hq)]]; [by left|].
    right. split; [done|]. by apply (stopped_lock c p lock j q m). }
  destruct (p_pc p) eqn:Hpc; cbn in Hp;
    repeat match goal with Hc : _ /\ _ |- _ => destruct Hc | Hc : exists _, _ |- _ => destruct Hc end.
  all: try (left; by eexists _, _).
  all: try (by apply Hacq).
  all: try (left; by eapply release_result).
  - left. unfold scan_next. destruct (p_todo p) as [|[[tid [v|]] random] todo]; [destruct (sh_scan c.1); by eexists _, _| |by eexists _, _].
    apply list.Forall_cons in Htodo as [(r & Hr & _) _]. rewrite Hr, bind_Ok. by eexists _, _.
  - left. match goal with Ht : tuple_ok _ |- _ => destruct Ht as [(level & Hl & _) _] end. unfold allocate_element. rewrite Hl, bind_Ok. by eexists _, _.
  - left. eapply release_result_second; [|done]. done.
  - left. unfold update_graph. destruct (_ && _); by eexists _, _.
  - destruct (sh_wakeup c.1) eqn:Hw; [right; split; [done|by apply stopped_asleep]|left; by eexists _, _].
  - right. split; [done|by apply stopped_ended].
Qed.

(** Whoever holds a lock, somebody can go on. *)
Lemma holder_steps c j q lock mode : core c -> c.2 !! j = Some q -> (lock, mode) ∈ p_held q ->
  exists k r, c.2 !! k = Some r /\ can_step c r.
Proof using Hbackends.
  intros Hc. remember (4 - lock_rank lock)%nat as d eqn:Hd. revert j q lock mode Hd. induction d as [d IH] using lt_wf_ind.
  intros j q lock mode -> Hj Hin. pose proof (co_procs _ _ _ _ Hc j q Hj) as Hq.
  destruct (try_step c j q false Hc Hj) as [Hs|[_ [Hend|Hsleep _|lock' k r m Hw Hk Hr]]].
  - exists j, q. split; [done|]. exact Hs.
  - destruct Hq as [Hq _ _]. rewrite Hend in Hq. destruct Hq as [Hh _]. rewrite Hh in Hin. by apply elem_of_nil in Hin.
  - destruct Hq as [Hq _ _]. rewrite Hsleep in Hq. destruct Hq as [Hh _]. rewrite Hh in Hin. by apply elem_of_nil in Hin.
  - pose proof (wants_above _ _ _ _ _ Hq Hin Hw) as Hrank. refine (IH (4 - lock_rank lock')%nat _ k r lock' m eq_refl Hk Hr).
    destruct lock, lock'; cbn in *; lia.
Qed.

Definition ended (p : Proc) : bool := match p_pc p with Ended => true | _ => false end.

Lemma progress c : core c -> wakeup_ok c ->
  Forall (fun p => ended p = true) c.2 \/ exists c', parallel_step bs (Z.of_nat n) c c'.
Proof using Hbackends.
  intros Hc Hw.
  assert (forall i p, c.2 !! i = Some p -> can_step c p -> exists c', parallel_step bs (Z.of_nat n) c c') as Hgo.
  { intros i p Hi (s' & p' & Hs). destruct c as [s procs]. exists (s', <[i := p']> procs). by eapply process_step. }
  assert (forall i p, c.2 !! i = Some p -> p_pc p <> Ended -> p_pc p <> WaitSleep -> exists c', parallel_step bs (Z.of_nat n) c c') as Hactive.
  { intros i p Hi Hne Hns. destruct (try_step c i p false Hc Hi) as [Hs|[_ [Hend|Hsleep _|lock j q m _ Hj Hq]]]; [by apply (Hgo i p)|done|done|].
    destruct (holder_steps c j q lock m Hc Hj Hq) as (k & r & Hk & Hr). by apply (Hgo k r). }
  destruct (decide (Forall (fun p => ended p = true) c.2)) as [|Hn]; [by left|right].
  apply not_Forall_Exists in Hn; [|apply _]. apply list.Exists_exists in Hn as (p & [i Hi]%list_elem_of_lookup & Hne).
  destruct (match p_pc p with WaitSleep => true | _ => false end) eqn:Hs.
  - assert (p_pc p = WaitSleep) as Hpc by by destruct (p_pc p). destruct (sh_wakeup c.1) eqn:Hwake.
    + destruct (Hw i p Hi Hpc Hwake) as (j & q & Hj & Hq). apply (Hactive j q Hj); intros Heq; by rewrite Heq in Hq.
    + apply (Hgo i p Hi). unfold can_step, proc_step. rewrite Hpc, Hwake. by eexists _, _.
  - apply (Hactive i p Hi); intros Heq; [|by rewrite Heq in Hs]. apply Hne. unfold ended. by rewrite Heq.
Qed.

(** ** No run is longer than a bound *)

Definition rank (pc : PC) : nat :=
  match pc with
  | Ended => 0 | LeaderSetFlushed => 1 | LeaderFlushWrite => 2 | LeaderTestFlushed => 3
  | WaitCancel => 6 | WaitSleep => 7 | WaitTest true => 8 | WaitPrepare => 9 | WaitTest false => 10
  | SignalLeader => 13 | ScanDone => 14 | ScanNext => 15 | CountTuple => 16
  | InsertOnDisk _ | ReleaseFlushLock => 17 | FlushDone _ | LeaveMemory _ | ReleaseEntryLock => 18
  | FlushSetFlushed _ | UpdateEntryPoint _ _ => 19 | FlushWrite _ | UpdateGraph _ _ => 20
  | TestFlushedAgain _ | ReadEntryAgain _ => 21 | AcquireFlushExclusive _ | UpgradeReleaseWait _ => 22
  | MemoryFullRelease _ | UpgradeAcquire _ => 23 | MemoryFull _ | UpgradeAcquireWait _ => 24
  | UpgradeRelease _ => 25 | ReadEntry _ => 26 | AcquireEntryShared _ => 27 | ReleaseEntryWait _ => 28
  | AcquireEntryWait _ => 29 | ReleaseAllocatorLock _ => 30 | AllocateElement _ => 31 | TestMemory _ => 32
  | AcquireAllocatorLock _ => 33 | TestFlushed _ => 34 | AcquireFlushLock _ => 35
  end.

Definition proc_work (p : Proc) : Z := Z.of_nat (rank (p_pc p) + 40 * length (p_todo p)).
Definition scan_work (scan : list (list heap_tuple)) : Z := Z.of_nat (40 * length (concat scan) + length scan).
Definition wake_work (wakeup : bool) : Z := if wakeup then 0 else 2.
Definition work (c : Shared * list Proc) : Z := total proc_work c.2 + scan_work (sh_scan c.1) + wake_work (sh_wakeup c.1).

Lemma step_work is_dup s p s' p' : step is_dup s p = Ok (Some (s', p')) ->
  proc_work p' + scan_work (sh_scan s') + wake_work (sh_wakeup s') < proc_work p + scan_work (sh_scan s) + wake_work (sh_wakeup s).
Proof using Type.
  intros Hs. unfold proc_work, scan_work, wake_work. unfold proc_step in Hs. destruct (p_pc p) eqn:Hpc.
  all: step_inv Hs.
  all: try (cbn; lia).
  all: try match goal with Hw : sh_wakeup _ = false |- _ => rewrite Hw end.
  all: try (cbn; repeat match goal with |- context [if ?b then _ else _] => match type of b with bool => destruct b end end; cbn; lia).
  - destruct Hs as [Ht Hsc|block scan Ht Hsc|t todo Ht Hi|tid v random todo v' Ht Hv]; cbn; rewrite ?Ht, ?Hsc; cbn; rewrite ?length_app; lia.
  - destruct (better_than e entryPoint); cbn; lia.
Qed.

Lemma work_step c c' : parallel_step bs (Z.of_nat n) c c' -> 0 <= work c' < work c.
Proof using Type.
  intros [i is_dup s p s' p' procs Hi Hs]. unfold work. cbn [fst snd]. rewrite (total_insert _ _ _ _ _ Hi). pose proof (step_work _ _ _ _ _ Hs).
  assert (forall l, 0 <= total proc_work l) as Hpos.
  { induction l as [|q l IH]; [done|]. rewrite total_cons. unfold proc_work at 1. lia. }
  assert (0 <= wake_work (sh_wakeup s')) by (unfold wake_work; destruct (sh_wakeup s'); lia).
  pose proof (Hpos (<[i := p']> procs)) as Hp'. rewrite (total_insert _ _ _ _ _ Hi) in Hp'. unfold scan_work in *. lia.
Qed.

Lemma work_bound k c c' : 0 <= work c -> nsteps (parallel_step bs (Z.of_nat n)) k c c' -> Z.of_nat k <= work c - work c' /\ 0 <= work c'.
Proof using Type.
  intros H0. induction 1 as [|k c c1 c2 Hst _ IH]; [lia|]. pose proof (work_step _ _ Hst). lia.
Qed.
End Spec.
