(* ===== verification/ParallelResult.v ===== *)
(** * Parallel build: the theorems

    From the invariants of ParallelInv.v and ParallelSpec.v: what every run of the
    machine of ParallelBuild.v does, and how much of the shared memory it takes. *)

From Stdlib Require Import SpecFloat.
From stdpp Require Import functions relations.
From S2P Require Import Prelude CFloat VectorType ItemPtr HnswData Backend HnswUtils HnswBuild LWLock ParallelBuild ParallelInv ParallelSpec.
From S2P Require Import GraphSearch LayerRefinement AddElement BuildSpec IndexHistory.

Section Result.
Context `{Libm} (bs : BuildSettings) (nworkers : nat) (maxValueSize memoryTotal : Z) (blocks : list (list heap_tuple)).
Context (Hbackends : Z.of_nat (S nworkers) <= MAX_BACKENDS).
Context (Hrows : Forall (Forall (row_fine bs maxValueSize)) blocks).

#[local] Abbreviation steps := (parallel_step bs (Z.of_nat (S nworkers))).
#[local] Abbreviation init := (parallel_init memoryTotal blocks nworkers).

(** ** The invariant of all reachable states *)

Record reachable_ok (c : Shared * list Proc) : Prop := {
  re_core : core bs (S nworkers) maxValueSize c;
  re_entry : entry_ok c;
  re_wakeup : wakeup_ok c;
  re_tids : scan_tids bs c.1 ++ (c.2 ≫= proc_tids bs) ++ stored c.1 ≡ₚ concat blocks ≫= index_tids bs;
  re_count : Z.of_nat (length (stored c.1)) - sh_indtuples c.1 - total counting c.2 = 0;
  re_reltuples : sh_reltuples c.1 + total own_tuples c.2 + Z.of_nat (length (concat (sh_scan c.1))) = Z.of_nat (length (concat blocks))
}.

Lemma init_lookup i p : init.2 !! i = Some p -> p = mkProc ScanNext [] 0 [] (bool_decide (i = 0)%nat).
Proof using Type.
  destruct i as [|i]; cbn; [by intros [= <-]|]. intros Hi. apply lookup_replicate in Hi as [-> _]. done.
Qed.

Lemma init_procs p : p ∈ init.2 -> exists leader, p = mkProc ScanNext [] 0 [] leader.
Proof using Type. intros [i Hi]%list_elem_of_lookup. rewrite (init_lookup _ _ Hi). by eexists. Qed.

Lemma init_ok : reachable_ok init.
Proof using Hrows.
  clear Hbackends. split.
  - split; cbn [fst snd]; [cbn; by rewrite length_replicate| | | |done| |by left].
    + intros i p Hi. by rewrite (init_lookup _ _ Hi).
    + intros lock. unfold holders. rewrite bind_nil; [apply LWLockInitialize_ok|].
      intros h (p & -> & (leader & ->)%init_procs)%list_elem_of_fmap. done.
    + intros i p Hi. rewrite (init_lookup _ _ Hi). by split.
    + symmetry. apply total_zero. by intros p (leader & ->)%init_procs.
  - split; [done|]. intros e Hin. by apply elem_of_nil in Hin.
  - intros i p Hi Hpc. by rewrite (init_lookup _ _ Hi) in Hpc.
  - rewrite (bind_nil (proc_tids bs)) by (by intros p (leader & ->)%init_procs). cbn. by rewrite app_nil_r.
  - rewrite total_zero by (by intros p (leader & ->)%init_procs). done.
  - rewrite total_zero by (by intros p (leader & ->)%init_procs). cbn. lia.
Qed.

Lemma step_ok c c' : steps c c' -> reachable_ok c -> reachable_ok c'.
Proof using Hbackends.
  intros Hst [Hc He Hw Ht Hn Hr]. split; [by eapply core_step|by eapply entry_step|by eapply wakeup_step| | |];
    destruct Hst as [i is_dup s p s' p' procs Hi Hs]; pose proof (co_procs _ _ _ _ Hc i p Hi) as Hp; cbn [fst snd] in *.
  - destruct (bind_insert (proc_tids bs) procs i p p' Hi) as (rest & Hb & Hb'). rewrite <- Ht, Hb, Hb'.
    pose proof (step_tids _ _ _ _ _ _ _ _ Hp Hs) as Hst. transitivity ((scan_tids bs s' ++ proc_tids bs p' ++ stored s') ++ rest); [solve_Permutation|].
    rewrite Hst. solve_Permutation.
  - rewrite (total_insert _ _ _ _ _ Hi). pose proof (step_count _ _ _ _ _ _ _ _ Hp Hs). lia.
  - rewrite (total_insert _ _ _ _ _ Hi). pose proof (step_reltuples _ _ _ _ _ _ _ Hs). lia.
Qed.

Lemma reach_ok c : rtc steps init c -> reachable_ok c.
Proof using Hbackends Hrows.
  revert c. apply (rtc_ind_r (R := steps) reachable_ok init); [apply init_ok|]. intros c1 c2 _ Hst. by apply step_ok.
Qed.

(** ** When all processes have ended *)

Lemma ended_pc p : ended p = true -> p_pc p = Ended.
Proof using Type. unfold ended. by destruct (p_pc p). Qed.

Lemma all_ended c : reachable_ok c -> Forall (fun p => ended p = true) c.2 ->
  sh_flushed c.1 = true /\ sh_pages c.1 ≡ₚ concat blocks ≫= index_tids bs /\
  sh_indtuples c.1 = Z.of_nat (length (sh_pages c.1)) /\ sh_reltuples c.1 = Z.of_nat (length (concat blocks)) /\
  forall e, e ∈ sh_elements c.1 -> exists q, sh_entryPoint c.1 = Some q /\ q ∈ sh_elements c.1 /\ e_level e <= e_level q.
Proof using Type.
  clear Hbackends. intros [Hc He _ Ht Hn Hr] Hend. rewrite list.Forall_forall in Hend.
  assert (forall p, p ∈ c.2 -> p_pc p = Ended /\ p_todo p = [] /\ sh_scan c.1 = []) as Hp.
  { intros p Hin. pose proof (ended_pc p (Hend p Hin)) as Hpc. apply list_elem_of_lookup in Hin as [i Hi].
    pose proof (po_over _ _ _ _ _ (co_procs _ _ _ _ Hc i p Hi)) as Ho. rewrite Hpc in Ho. destruct (Ho eq_refl) as [Ht' Hs]. by split_and!. }
  destruct (lookup_lt_is_Some_2 c.2 0%nat) as [leader Hl]; [rewrite (co_length _ _ _ _ Hc); lia|].
  destruct (Hp leader) as (Hlpc & _ & Hscan); [by eapply list_elem_of_lookup_2|].
  assert (sh_flushed c.1 = true) as Hf.
  { pose proof (po_pc _ _ _ _ _ (co_procs _ _ _ _ Hc 0%nat leader Hl)) as Hlo. rewrite Hlpc in Hlo. apply Hlo. by rewrite (co_leader _ _ _ _ Hc 0%nat leader Hl). }
  unfold scan_tids, stored in *. rewrite Hf, Hscan in *. cbn in Ht, Hr.
  rewrite (bind_nil (proc_tids bs)) in Ht by (intros p Hin; destruct (Hp p Hin) as (Hpc & Htd & _); unfold proc_tids; by rewrite Hpc, Htd).
  rewrite total_zero in Hn by (intros p Hin; destruct (Hp p Hin) as (Hpc & _ & _); unfold counting; by rewrite Hpc).
  rewrite total_zero in Hr by (intros p Hin; destruct (Hp p Hin) as (Hpc & Htd & _); unfold own_tuples; by rewrite Hpc, Htd).
  split; [done|]. split; [done|]. split; [lia|]. split; [lia|].
  intros e Hin. destruct (en_top _ He e Hin) as [(q & Hq & Hle)|(j & p & ep & Hj & Hpc & _)].
  - exists q. split; [done|]. split; [by apply (en_member _ He)|done].
  - destruct (Hp p) as (Hpc' & _); [by eapply list_elem_of_lookup_2|]. congruence.
Qed.

(** ** Who is where *)

(** Inserting in memory: from the test of [flushed], when it failed, to the end. *)
Definition in_memory (pc : PC) : bool :=
  match pc with
  | AcquireAllocatorLock _ | TestMemory _ | AllocateElement _ | ReleaseAllocatorLock _ | AcquireEntryWait _ | ReleaseEntryWait _ | AcquireEntryShared _ | ReadEntry _ | UpgradeRelease _
  | UpgradeAcquireWait _ | UpgradeAcquire _ | UpgradeReleaseWait _ | ReadEntryAgain _ | UpdateGraph _ _ | UpdateEntryPoint _ _ => true
  | _ => false
  end.
Definition flushing (pc : PC) : bool := match pc with FlushWrite _ | FlushSetFlushed _ | LeaderFlushWrite | LeaderSetFlushed => true | _ => false end.
Definition in_search (pc : PC) : bool := match pc with ReadEntry _ | ReadEntryAgain _ | UpdateGraph _ _ | UpdateEntryPoint _ _ => true | _ => false end.
Definition changes_entry (pc : PC) : bool := match pc with UpdateEntryPoint e ep => better_than e ep | _ => false end.
Definition allocating (pc : PC) : bool := match pc with TestMemory _ | AllocateElement _ => true | _ => false end.

Lemma in_memory_held s p : proc_ok bs (S nworkers) maxValueSize s p -> in_memory (p_pc p) = true ->
  (FlushLock, LW_SHARED) ∈ p_held p /\ sh_flushed s = false /\ past_done (p_pc p) = false.
Proof using Type.
  clear Hbackends. intros [Hp _ _] Hm. destruct (p_pc p); try done; cbn in Hp;
    repeat match goal with Hc : _ /\ _ |- _ => destruct Hc | Hc : exists _, _ |- _ => destruct Hc end;
    (split; [match goal with Hh : p_held p = _ |- _ => rewrite Hh end; auto using list_elem_of_here, list_elem_of_further|by split]).
Qed.

Lemma flushing_held s p : proc_ok bs (S nworkers) maxValueSize s p -> flushing (p_pc p) = true ->
  (FlushLock, LW_EXCLUSIVE) ∈ p_held p \/ p_leader p = true /\ sh_nparticipantsdone s = Z.of_nat (S nworkers).
Proof using Type.
  clear Hbackends. intros [Hp _ _] Hm. destruct (p_pc p); try done; cbn in Hp;
    repeat match goal with Hc : _ /\ _ |- _ => destruct Hc end; [left|left|by right|by right];
    match goal with Hh : p_held p = _ |- _ => rewrite Hh end; left.
Qed.

Lemma in_search_held s p : proc_ok bs (S nworkers) maxValueSize s p -> in_search (p_pc p) = true -> exists mode, (EntryLock, mode) ∈ p_held p.
Proof using Type.
  clear Hbackends. intros [Hp _ _] Hm. destruct (p_pc p); try done; cbn in Hp;
    repeat match goal with Hc : _ /\ _ |- _ => destruct Hc | Hc : exists _, _ |- _ => destruct Hc end;
    (eexists; match goal with Hh : p_held p = _ |- _ => rewrite Hh end; left).
Qed.

Lemma changes_entry_held s p : proc_ok bs (S nworkers) maxValueSize s p -> changes_entry (p_pc p) = true -> (EntryLock, LW_EXCLUSIVE) ∈ p_held p.
Proof using Type.
  clear Hbackends. intros [Hp _ _] Hm. destruct (p_pc p); try done. cbn in Hp, Hm. destruct Hp as (mode & -> & _ & _ & Hsh & _).
  destruct mode; [left|]. rewrite Hsh in Hm; done.
Qed.

Lemma allocating_held s p : proc_ok bs (S nworkers) maxValueSize s p -> allocating (p_pc p) = true -> (AllocatorLock, LW_EXCLUSIVE) ∈ p_held p.
Proof using Type.
  clear Hbackends. intros [Hp _ _] Hm. destruct (p_pc p); try done; cbn in Hp; destruct Hp as [-> _]; left.
Qed.

Lemma exclusion c i j p q : core bs (S nworkers) maxValueSize c -> c.2 !! i = Some p -> c.2 !! j = Some q -> i <> j ->
  (flushing (p_pc p) = true -> in_memory (p_pc q) = false /\ flushing (p_pc q) = false) /\
  (changes_entry (p_pc p) = true -> in_search (p_pc q) = false) /\
  (allocating (p_pc p) = true -> allocating (p_pc q) = false).
Proof using Type.
  clear Hbackends. intros Hc Hi Hj Hij. pose proof (co_procs _ _ _ _ Hc i p Hi) as Hp. pose proof (co_procs _ _ _ _ Hc j q Hj) as Hq.
  assert (forall lock mode, (lock, LW_EXCLUSIVE) ∈ p_held p -> (lock, mode) ∈ p_held q -> False) as Hex by (intros lock mode; by apply (held_alone _ _ _ _ i j p q lock mode Hc)).
  split; [|split].
  - intros Hf. pose proof (flushing_held _ _ Hp Hf) as Hpf. split; apply not_true_is_false; intros Hm.
    + destruct (in_memory_held _ _ Hq Hm) as (Hh & _ & Hpd). destruct Hpf as [Hx|[_ Hd]]; [by apply (Hex _ _ Hx Hh)|].
      by rewrite (all_done _ _ _ c j q Hc Hd Hj) in Hpd.
    + destruct (flushing_held _ _ Hq Hm) as [Hh|[Hlq Hd]].
      * destruct Hpf as [Hx|[_ Hd]]; [by apply (Hex _ _ Hx Hh)|]. rewrite (past_done_held _ _ _ _ _ Hq (all_done _ _ _ c j q Hc Hd Hj)) in Hh. by apply elem_of_nil in Hh.
      * destruct Hpf as [Hx|[Hlp _]].
        -- rewrite (past_done_held _ _ _ _ _ Hp (all_done _ _ _ c i p Hc Hd Hi)) in Hx. by apply elem_of_nil in Hx.
        -- rewrite (co_leader _ _ _ _ Hc i p Hi) in Hlp. rewrite (co_leader _ _ _ _ Hc j q Hj) in Hlq. apply bool_decide_eq_true in Hlp, Hlq. lia.
  - intros Hf. apply not_true_is_false. intros Hm. destruct (in_search_held _ _ Hq Hm) as (mode & Hh). by apply (Hex _ _ (changes_entry_held _ _ Hp Hf) Hh).
  - intros Hf. apply not_true_is_false. intros Hm. by apply (Hex _ _ (allocating_held _ _ Hp Hf) (allocating_held _ _ Hq Hm)).
Qed.
End Result.

(** ** Memory of the graph *)

(** No element takes more than a megabyte. *)
Definition element_bytes : Z := 1024 * 1024.
Definition largest_value : Z := 1000000.

Lemma allocate_chunks_bounds used sizes : 0 <= used -> Forall (fun size => 0 <= size) sizes ->
  used + foldr (fun size => Z.add (size + 7)) 0 sizes < 2 ^ 64 ->
  used <= allocate_chunks used sizes <= used + foldr (fun size => Z.add (size + 7)) 0 sizes.
Proof.
  revert used. induction sizes as [|size sizes IH]; intros used Hu Hs Hlt; [cbn; lia|]. apply list.Forall_cons in Hs as [Hsize Hs].
  cbn [foldr] in *. assert (0 <= foldr (fun size => Z.add (size + 7)) 0 sizes) as Hpos.
  { clear -Hs. induction Hs as [|size sizes H Hs IH]; cbn; lia. }
  destruct (MAXALIGN_spec size Hsize) as [Hm _].
  assert (allocate_chunks used (size :: sizes) = allocate_chunks (used + MAXALIGN size) sizes) as ->.
  { unfold allocate_chunks. cbn [fold_left HnswSharedMemoryAlloc snd]. by rewrite Z.mod_small by lia. }
  destruct (IH (used + MAXALIGN size)) as [H1 H2]; [lia|done|lia|]. lia.
Qed.

Lemma neighbor_arrays_sum m k : foldr (fun size => Z.add (size + 7)) 0 ((fun lc => HNSW_NEIGHBOR_ARRAY_SIZE (HnswGetLayerM m (Z.of_nat lc))) <$> seq 0 (S k)) =
  15 * (Z.of_nat k + 1) + 16 * ((Z.of_nat k + 2) * m).
Proof.
  induction k as [|k IH].
  { cbn [seq fmap list_fmap foldr]. unfold HNSW_NEIGHBOR_ARRAY_SIZE, offsetof_neighbor_items, sizeof_HnswCandidate, HnswGetLayerM.
    change (Z.of_nat 0) with 0. rewrite Z.eqb_refl. lia. }
    assert (forall l x, foldr (fun size => Z.add (size + 7)) x l = foldr (fun size => Z.add (size + 7)) 0 l + x) as Hx.
  { induction l as [|y l IHl]; intros x; cbn; [lia|]. rewrite IHl. lia. }
  rewrite seq_S, fmap_app, foldr_app, Hx, IH. cbn [fmap list_fmap foldr Nat.add]. unfold HNSW_NEIGHBOR_ARRAY_SIZE, offsetof_neighbor_items, sizeof_HnswCandidate, HnswGetLayerM.
  destruct (Z.eqb_spec (Z.of_nat (S k)) 0); lia.
Qed.

Lemma element_chunks_bound m level valueSize : HNSW_MIN_M <= m <= HNSW_MAX_M -> 0 <= level <= HnswGetMaxLevel m -> 0 <= valueSize <= largest_value ->
  Forall (fun size => 0 <= size) (element_chunks m level valueSize) /\
  foldr (fun size => Z.add (size + 7)) 0 (element_chunks m level valueSize) <= element_bytes.
Proof.
  intros Hm Hl Hv. destruct (maxlevel_bound m level Hm Hl) as [Hlm H255]. unfold HNSW_MIN_M, HNSW_MAX_M, largest_value in *. unfold element_chunks. split.
  - apply Forall_app. split; [repeat constructor; unfold sizeof_HnswElementData, sizeof_HnswNeighborArrayPtr; lia|].
    apply Forall_app. split; [|repeat constructor; lia].
    apply list.Forall_forall. intros x (lc & -> & _)%list_elem_of_fmap. unfold HNSW_NEIGHBOR_ARRAY_SIZE, HnswGetLayerM, offsetof_neighbor_items, sizeof_HnswCandidate.
    destruct (_ =? _); lia.
  - replace (Z.to_nat (level + 1)) with (S (Z.to_nat level)) by lia. rewrite foldr_app. cbn [foldr]. rewrite foldr_app. cbn [foldr].
    assert (forall l x, foldr (fun size => Z.add (size + 7)) x l = foldr (fun size => Z.add (size + 7)) 0 l + x) as Hx.
    { induction l as [|y l IHl]; intros x; cbn; [lia|]. rewrite IHl. lia. }
    rewrite Hx, neighbor_arrays_sum. unfold sizeof_HnswElementData, sizeof_HnswNeighborArrayPtr, element_bytes. nia.
Qed.

Definition memory_ok (memoryTotal : Z) (s : Shared) : Prop :=
  sh_memoryTotal s = memoryTotal /\ 0 <= sh_memoryUsed s /\ (sh_memoryUsed s = 0 \/ sh_memoryUsed s < memoryTotal + element_bytes).

(** Only AllocateElement takes memory. *)
Lemma step_memory `{Libm} bs n maxValueSize is_dup s p s' p' : proc_ok bs n maxValueSize s p ->
  proc_step bs (Z.of_nat n) is_dup s p = Ok (Some (s', p')) ->
  sh_memoryTotal s' = sh_memoryTotal s /\ sh_memoryUsed s' = sh_memoryUsed s \/
  exists t level, sh_memoryUsed s < sh_memoryTotal s /\ draw_level (bs_ml bs) (it_random t) (bs_maxLevel bs) = Ok level /\
    0 <= level <= bs_maxLevel bs /\ 0 <= VARSIZE_ANY (it_value t) <= maxValueSize /\ sh_memoryTotal s' = sh_memoryTotal s /\
    sh_memoryUsed s' = allocate_chunks (sh_memoryUsed s) (element_chunks (bs_m bs) (u8 level) (VARSIZE_ANY (it_value t))).
Proof.
  intros Hp Hs. step_cases Hs Hpc Hp.
  all: lazymatch goal with
    | Ht : tuple_ok _ _ ?t, Hl : draw_level _ _ _ = Ok ?level |- _ =>
        right; exists t, level; destruct Ht as [(level' & Hl' & Hb) Hv]; rewrite Hl in Hl'; injection Hl' as <-; done
    | Hr : scan_result _ _ _ _ _ |- _ => left; by destruct Hr
    | |- context [better_than ?e ?ep] => left; by destruct (better_than e ep)
    | _ => left; split; reflexivity
    end.
Qed.

Section Memory.
Context `{Libm} (bs : BuildSettings) (nworkers : nat) (memoryTotal : Z) (blocks : list (list heap_tuple)).
Context (Hm : HNSW_MIN_M <= bs_m bs <= HNSW_MAX_M) (Hmax : bs_maxLevel bs = HnswGetMaxLevel (bs_m bs)).
Context (Htotal : 0 <= memoryTotal < 2 ^ 64 - element_bytes).
Context (Hbackends : Z.of_nat (S nworkers) <= MAX_BACKENDS).
Context (Hrows : Forall (Forall (row_fine bs largest_value)) blocks).

#[local] Abbreviation steps := (parallel_step bs (Z.of_nat (S nworkers))).
#[local] Abbreviation init := (parallel_init memoryTotal blocks nworkers).

Lemma allocate_element_memory s t level : 0 <= level <= bs_maxLevel bs ->
  0 <= VARSIZE_ANY (it_value t) <= largest_value -> memory_ok memoryTotal s -> sh_memoryUsed s < memoryTotal ->
  0 <= allocate_chunks (sh_memoryUsed s) (element_chunks (bs_m bs) (u8 level) (VARSIZE_ANY (it_value t))) < memoryTotal + element_bytes.
Proof using Hm Hmax Htotal.
  clear Hbackends. intros Hl Hv (Ht & Hpos & _) Hlt. rewrite Hmax in Hl. destruct (maxlevel_bound _ _ Hm Hl) as [_ H255].
  assert (u8 level = level) as -> by (apply Z.mod_small; lia). destruct (element_chunks_bound _ _ _ Hm Hl Hv) as [Hs Hb].
  pose proof (allocate_chunks_bounds (sh_memoryUsed s) _ Hpos Hs) as Hc. revert Hb Hc.
  generalize (foldr (fun size => Z.add (size + 7)) 0 (element_chunks (bs_m bs) level (VARSIZE_ANY (it_value t)))). intros n Hb Hc.
  lia.
Qed.

Lemma memory_step c c' : steps c c' -> core bs (S nworkers) largest_value c -> memory_ok memoryTotal c.1 -> memory_ok memoryTotal c'.1.
Proof using Hm Hmax Htotal.
  clear Hbackends. intros [i is_dup s p s' p' procs Hi Hs] Hc Hmem. cbn [fst] in *. pose proof (co_procs _ _ _ _ Hc i p Hi) as Hp. cbn [fst] in Hp.
  destruct (step_memory _ _ _ _ _ _ _ _ Hp Hs) as [[Ht Hu]|(t & level & Hlt & Hl & Hb & Hv & Ht & Hu)].
  - unfold memory_ok in *. by rewrite Ht, Hu.
  - pose proof Hmem as (Htot & _). rewrite Htot in Hlt. pose proof (allocate_element_memory s t level Hb Hv Hmem Hlt) as Hr. rewrite <- Hu in Hr.
    unfold memory_ok. rewrite Ht. split; [done|]. split; [apply Hr|right; apply Hr].
Qed.

Lemma memory_reach c : rtc steps init c -> memory_ok memoryTotal c.1.
Proof using Hbackends Hm Hmax Hrows Htotal.
  intros Hr. enough (reachable_ok bs nworkers largest_value blocks c /\ memory_ok memoryTotal c.1) as [_ Hmem] by exact Hmem.
  revert c Hr. apply (rtc_ind_r (R := steps) (fun c => reachable_ok bs nworkers largest_value blocks c /\ memory_ok memoryTotal c.1) init).
  - split; [by apply init_ok|]. by split_and!; [| |left].
  - intros c1 c2 _ Hst [Hok Hmem]. split; [by eapply step_ok|]. apply (memory_step c1 c2 Hst); [apply (re_core _ _ _ _ _ Hok)|done].
Qed.
End Memory.

(** The limit leaves a megabyte of the area, unless the subtraction wraps. *)
Lemma parallel_memoryTotal_spec mwm : 64 <= mwm < 2 ^ 31 ->
  parallel_memoryTotal mwm =
    if decide (mwm < 1024 \/ 3072 < mwm < 4096) then esthnswarea mwm - element_bytes + 2 ^ 64 else esthnswarea mwm - element_bytes.
Proof.
  intros Hw. unfold parallel_memoryTotal, esthnswarea, estother, element_bytes. rewrite (Z.mod_small (mwm * 1024)) by lia.
  destruct (decide _) as [Hd|Hd]; destruct (Z.ltb_spec (3 * 1024 * 1024) (mwm * 1024)).
  - rewrite <- (Z_mod_plus_full _ 1). rewrite Z.mod_small; lia.
  - rewrite <- (Z_mod_plus_full _ 1). rewrite Z.mod_small; lia.
  - apply Z.mod_small. lia.
  - apply Z.mod_small. lia.
Qed.

Lemma esthnswarea_bounds mwm : 64 <= mwm < 2 ^ 31 -> 0 <= esthnswarea mwm <= mwm * 1024.
Proof.
  intros Hw. unfold esthnswarea, estother. rewrite (Z.mod_small (mwm * 1024)) by lia. destruct (Z.ltb_spec (3 * 1024 * 1024) (mwm * 1024)); lia.
Qed.

Lemma memory_fits `{Libm} bs nworkers mwm blocks c : HNSW_MIN_M <= bs_m bs <= HNSW_MAX_M -> bs_maxLevel bs = HnswGetMaxLevel (bs_m bs) ->
  64 <= mwm < 2 ^ 31 -> ~ (mwm < 1024 \/ 3072 < mwm < 4096) -> Z.of_nat (S nworkers) <= MAX_BACKENDS ->
  Forall (Forall (row_fine bs largest_value)) blocks ->
  rtc (parallel_step bs (Z.of_nat (S nworkers))) (parallel_init (parallel_memoryTotal mwm) blocks nworkers) c ->
  0 <= sh_memoryUsed c.1 <= esthnswarea mwm.
Proof.
  intros Hm Hmax Hw Hd Hb Hrows Hr. pose proof (parallel_memoryTotal_spec mwm Hw) as Ht. rewrite decide_False in Ht by done.
  pose proof (esthnswarea_bounds mwm Hw) as He.
  assert (element_bytes <= esthnswarea mwm) as Hge.
  { unfold esthnswarea, estother, element_bytes. rewrite (Z.mod_small (mwm * 1024)) by lia. destruct (Z.ltb_spec (3 * 1024 * 1024) (mwm * 1024)); lia. }
  assert (0 < element_bytes < 2 ^ 30) as Heb by done.
  assert (0 <= parallel_memoryTotal mwm < 2 ^ 64 - element_bytes) as Hto by lia.
  destruct (memory_reach bs nworkers (parallel_memoryTotal mwm) blocks Hm Hmax Hto Hb Hrows c Hr) as (_ & Hpos & Hu). lia.
Qed.

(** ** Runs *)

Lemma run_schedule_steps `{Libm} bs n schedule c c' : run_schedule bs n schedule c = Ok c' -> rtc (parallel_step bs n) c c'.
Proof.
  revert c. induction schedule as [|[i is_dup] schedule IH]; intros c Hr; [cbn in Hr; by injection Hr as <-|]. cbn in Hr.
  destruct (c.2 !! i) as [p|] eqn:Hi; [|by apply IH]. destruct (proc_step bs n is_dup c.1 p) as [[[s' p']|]|] eqn:Hs; cbn in Hr; [|by apply IH|done].
  destruct c as [s procs]. eapply rtc_l; [by apply (process_step bs n i is_dup s p s' p')|]. by apply IH.
Qed.

Section Termination.
Context `{Libm} (bs : BuildSettings) (nworkers : nat) (maxValueSize memoryTotal : Z) (blocks : list (list heap_tuple)).
Context (Hbackends : Z.of_nat (S nworkers) <= MAX_BACKENDS).

#[local] Abbreviation steps := (parallel_step bs (Z.of_nat (S nworkers))).
#[local] Abbreviation init := (parallel_init memoryTotal blocks nworkers).

Lemma can_finish c : reachable_ok bs nworkers maxValueSize blocks c -> exists c', rtc steps c c' /\ Forall (fun p => ended p = true) c'.2.
Proof using Hbackends.
  remember (Z.to_nat (work c)) as w eqn:Hw. revert c Hw. induction w as [w IH] using lt_wf_ind. intros c -> Hok.
  destruct (progress bs (S nworkers) maxValueSize Hbackends c (re_core _ _ _ _ _ Hok) (re_wakeup _ _ _ _ _ Hok)) as [Hend|[c1 Hst]]; [by exists c|].
  pose proof (work_step _ _ _ _ Hst) as Hlt. destruct (IH (Z.to_nat (work c1)) ltac:(lia) c1 eq_refl) as (c' & Hr & He); [by eapply step_ok|].
  exists c'. split; [|done]. by eapply rtc_l.
Qed.

Lemma work_init : work init = 15 * Z.of_nat (S nworkers) + 40 * Z.of_nat (length (concat blocks)) + Z.of_nat (length blocks) + 2.
Proof using Type.
  clear Hbackends. unfold work, parallel_init. cbn [fst snd sh_scan sh_wakeup wake_work]. rewrite total_cons. unfold scan_work.
  assert (total proc_work (replicate nworkers (mkProc ScanNext [] 0 [] false)) = 15 * Z.of_nat nworkers) as ->.
  { induction nworkers as [|k IH]; [done|]. cbn [replicate]. rewrite total_cons, IH. unfold proc_work. cbn [p_pc p_todo rank length]. lia. }
  unfold proc_work. cbn [p_pc p_todo rank length]. lia.
Qed.
End Termination.

(** ** A run of two processes *)

Definition sample_blocks : list (list heap_tuple) :=
  [[(ItemPointerSet 8 5, Some value2, one_half); (ItemPointerSet 8 6, None, one_half)]; [(ItemPointerSet 9 1, Some value1, one_half)]].
Definition round_robin (rounds : nat) : list (nat * bool) := concat (replicate rounds [(0%nat, false); (1%nat, false)]).
Definition sample_run (memoryTotal : Z) (rounds : nat) : res (Shared * list Proc) :=
  run_schedule (H := sample_libm) sample_settings 2 (round_robin rounds) (parallel_init memoryTotal sample_blocks 1).
Definition run_result (c : Shared * list Proc) : Z * Z * list ItemPointerData * Z * bool * list bool :=
  (sh_indtuples c.1, sh_reltuples c.1, sh_pages c.1, sh_memoryUsed c.1, sh_flushed c.1, ended <$> c.2).

(** Two blocks of 140 rows each. *)
Definition many_rows : list (list heap_tuple) :=
  (fun block => (fun i => (ItemPointerSet block (Z.of_nat i + 1), Some value1, one_half)) <$> seq 0 140) <$> [8; 9].
Definition overflow_run : res (Shared * list Proc) :=
  run_schedule (H := sample_libm) sample_settings 2 (replicate (Z.to_nat 6500) (0%nat, false)) (parallel_init (parallel_memoryTotal 64) many_rows 1).

Lemma sample_tuple_ok tid v : v = value1 \/ v = value2 -> tuple_ok (H := sample_libm) sample_settings largest_value (mkIndexTuple tid v one_half).
Proof.
  intros Hv. split; [exists 1; split; [vm_compute; reflexivity|by vm_compute]|]. destruct Hv as [-> | ->]; by vm_compute.
Qed.

Lemma sample_row_fine tid v : v = None \/ v = Some value1 \/ v = Some value2 -> row_fine (H := sample_libm) sample_settings largest_value (tid, v, one_half).
Proof.
  intros [->|[->| ->]]; [done| |]; (eexists; split; [by vm_compute|]); intros v' [= <-]; apply sample_tuple_ok; [by left|by right].
Qed.

Lemma sample_blocks_fine : Forall (Forall (row_fine (H := sample_libm) sample_settings largest_value)) sample_blocks.
Proof. repeat constructor; apply sample_row_fine; auto. Qed.

Lemma sample_run_reached memoryTotal rounds c : sample_run memoryTotal rounds = Ok c ->
  rtc (parallel_step (H := sample_libm) sample_settings (Z.of_nat 2)) (parallel_init memoryTotal sample_blocks 1) c.
Proof. apply run_schedule_steps. Qed.

Lemma overflow_run_reached c : overflow_run = Ok c ->
  rtc (parallel_step (H := sample_libm) sample_settings (Z.of_nat 2)) (parallel_init (parallel_memoryTotal 64) many_rows 1) c.
Proof. apply run_schedule_steps. Qed.

(** ** The theorems *)

(** C3: A parallel build indexes every row once, in whatever order the processes
    take their steps: in no state of any run does a step of a process raise an error (the
    locks it takes are free or it waits, the locks it releases are held), and when
    all processes have ended the graph has been flushed, once, the pages hold
    exactly the TIDs of the rows with a value to index, [indtuples] and [reltuples] are
    the numbers of those rows and of all rows, and no element has a level above that
    of the entry point. *)
Theorem parallel_build_correct `{Libm} bs nworkers maxValueSize memoryTotal blocks c :
  Z.of_nat (S nworkers) <= MAX_BACKENDS ->
  Forall (Forall (row_fine bs maxValueSize)) blocks ->
  rtc (parallel_step bs (Z.of_nat (S nworkers))) (parallel_init memoryTotal blocks nworkers) c ->
  (forall i p is_dup, c.2 !! i = Some p -> exists r, proc_step bs (Z.of_nat (S nworkers)) is_dup c.1 p = Ok r) /\
  (Forall (fun p => ended p = true) c.2 ->
    sh_flushed c.1 = true /\ sh_pages c.1 ≡ₚ concat blocks ≫= index_tids bs /\
    sh_indtuples c.1 = Z.of_nat (length (sh_pages c.1)) /\ sh_reltuples c.1 = Z.of_nat (length (concat blocks)) /\
    forall e, e ∈ sh_elements c.1 -> exists q, sh_entryPoint c.1 = Some q /\ q ∈ sh_elements c.1 /\ e_level e <= e_level q).
Proof.
  intros Hb Hrows Hr. pose proof (reach_ok bs nworkers maxValueSize memoryTotal blocks Hb Hrows c Hr) as Hok. split.
  - intros i p is_dup Hi. destruct (try_step bs (S nworkers) maxValueSize Hb c i p is_dup (re_core _ _ _ _ _ Hok) Hi) as [(s' & p' & ->)|[-> _]]; by eexists.
  - by apply (all_ended bs nworkers maxValueSize blocks c).
Qed.

Lemma parallel_build_correct_witness : exists c, sample_run 1000000 60 = Ok c /\
  sh_pages c.1 ≡ₚ [ItemPointerSet 8 5; ItemPointerSet 9 1] /\ sh_reltuples c.1 = 3.
Proof.
  destruct (sample_run 1000000 60) as [c|] eqn:Hrun; [|by vm_compute in Hrun]. exists c. split; [done|].
  assert (forallb ended c.2 = true) as Hend.
  { assert (match sample_run 1000000 60 with Ok c => forallb ended c.2 | Err _ => false end = true) as He by (vm_compute; reflexivity). by rewrite Hrun in He. }
  destruct (parallel_build_correct (H := sample_libm) sample_settings 1 largest_value 1000000 sample_blocks c) as [_ Hres].
  - vm_compute. discriminate.
  - exact sample_blocks_fine.
  - exact (sample_run_reached _ _ _ Hrun).
  - destruct Hres as (_ & Hp & _ & Ht & _); [|by split].
    apply list.Forall_forall. intros p Hp. rewrite forallb_forall in Hend. apply Hend. by apply list_elem_of_In.
Defined.

(** C4: A parallel build ends: no run has more steps than 15 for each process and 40
    for each row, one for each block and two for the wait of the leader; a run
    that is not over can go on, so no deadlock and no lost wakeup stops it,
    and from every state it reaches there is a way to the end of all processes. *)
Theorem parallel_build_terminates `{Libm} bs nworkers maxValueSize memoryTotal blocks k c :
  Z.of_nat (S nworkers) <= MAX_BACKENDS ->
  Forall (Forall (row_fine bs maxValueSize)) blocks ->
  nsteps (parallel_step bs (Z.of_nat (S nworkers))) k (parallel_init memoryTotal blocks nworkers) c ->
  Z.of_nat k <= 15 * Z.of_nat (S nworkers) + 40 * Z.of_nat (length (concat blocks)) + Z.of_nat (length blocks) + 2 /\
  (Forall (fun p => ended p = true) c.2 \/ exists c', parallel_step bs (Z.of_nat (S nworkers)) c c') /\
  exists c', rtc (parallel_step bs (Z.of_nat (S nworkers))) c c' /\ Forall (fun p => ended p = true) c'.2.
Proof.
  intros Hb Hrows Hk. pose proof (work_init nworkers memoryTotal blocks) as Hw.
  assert (reachable_ok bs nworkers maxValueSize blocks c) as Hok.
  { apply (reach_ok bs nworkers maxValueSize memoryTotal blocks Hb Hrows c). apply rtc_nsteps_2 in Hk. exact Hk. }
  split; [|split].
  - apply work_bound in Hk; lia.
  - exact (progress bs (S nworkers) maxValueSize Hb c (re_core _ _ _ _ _ Hok) (re_wakeup _ _ _ _ _ Hok)).
  - exact (can_finish bs nworkers maxValueSize blocks Hb c Hok).
Qed.

Lemma parallel_build_terminates_witness :
  exists c', rtc (parallel_step (H := sample_libm) sample_settings (Z.of_nat 2)) (parallel_init 100 sample_blocks 1) c' /\ Forall (fun p => ended p = true) c'.2.
Proof.
  refine (proj2 (proj2 (parallel_build_terminates (H := sample_libm) sample_settings 1 largest_value 100 sample_blocks 0 (parallel_init 100 sample_blocks 1) _ _ _))).
  - vm_compute. discriminate.
  - exact sample_blocks_fine.
  - constructor.
Defined.

(** C15: The locks of a parallel build exclude what they must: while a process writes
    the graph to pages, no other process writes it or is between the test of [flushed] and the
    end of its insertion in memory; while one changes the entry point no other is
    between reading it and the end of its search; no two processes allocate at once.
    A tuple goes into the graph only before the flush and to the pages only after it. *)
Theorem parallel_build_exclusion `{Libm} bs nworkers maxValueSize memoryTotal blocks c i p :
  Z.of_nat (S nworkers) <= MAX_BACKENDS ->
  Forall (Forall (row_fine bs maxValueSize)) blocks ->
  rtc (parallel_step bs (Z.of_nat (S nworkers))) (parallel_init memoryTotal blocks nworkers) c ->
  c.2 !! i = Some p ->
  (in_memory (p_pc p) = true -> sh_flushed c.1 = false) /\
  (forall t, p_pc p = InsertOnDisk t -> sh_flushed c.1 = true) /\
  forall j q, c.2 !! j = Some q -> i <> j ->
    (flushing (p_pc p) = true -> in_memory (p_pc q) = false /\ flushing (p_pc q) = false) /\
    (changes_entry (p_pc p) = true -> in_search (p_pc q) = false) /\
    (allocating (p_pc p) = true -> allocating (p_pc q) = false).
Proof.
  intros Hb Hrows Hr Hi. pose proof (reach_ok bs nworkers maxValueSize memoryTotal blocks Hb Hrows c Hr) as Hok.
  pose proof (re_core _ _ _ _ _ Hok) as Hc. pose proof (co_procs _ _ _ _ Hc i p Hi) as Hp. split; [|split].
  - intros Hm. by apply (in_memory_held bs nworkers maxValueSize c.1 p).
  - intros t Hpc. pose proof (po_pc _ _ _ _ _ Hp) as Ho. rewrite Hpc in Ho. apply Ho.
  - intros j q Hj Hij. by apply (exclusion bs nworkers maxValueSize c i j p q Hc).
Qed.

Lemma parallel_build_exclusion_witness : exists c p q, sample_run 0 12 = Ok c /\ c.2 !! 0%nat = Some p /\ c.2 !! 1%nat = Some q /\
  flushing (p_pc p) = true /\ in_memory (p_pc q) = false /\ flushing (p_pc q) = false.
Proof.
  destruct (sample_run 0 12) as [c|] eqn:Hrun; [|by vm_compute in Hrun].
  assert (match sample_run 0 12 with
          | Ok c => match c.2 with [p; q] => flushing (p_pc p) | _ => false end
          | Err _ => false
          end = true) as Hf by (vm_compute; reflexivity).
  rewrite Hrun in Hf. destruct (c.2) as [|p [|q [|]]] eqn:Hc; try discriminate Hf. exists c, p, q. split; [reflexivity|]. rewrite Hc. split; [reflexivity|]. split; [reflexivity|].
  split; [exact Hf|].
  destruct (parallel_build_exclusion (H := sample_libm) sample_settings 1 largest_value 0 sample_blocks c 0 p) as (_ & _ & Hx).
  - vm_compute. discriminate.
  - exact sample_blocks_fine.
  - exact (sample_run_reached _ _ _ Hrun).
  - by rewrite Hc.
  - destruct (Hx 1%nat q) as (Hflush & _); [by rewrite Hc|lia|]. exact (Hflush Hf).
Defined.

(** C16: HnswSharedMemoryAlloc never tests whether a chunk is still inside the area, and
    need not: with [maintenance_work_mem] of one to three or at least four megabytes, and
    values below a megabyte, [memoryUsed] never passes the size of the area,
    because InsertTuple tests the limit under the allocator lock and the limit leaves
    room for one element. *)
Theorem parallel_memory_bounded `{Libm} bs nworkers maintenance_work_mem blocks c :
  HNSW_MIN_M <= bs_m bs <= HNSW_MAX_M -> bs_maxLevel bs = HnswGetMaxLevel (bs_m bs) ->
  1024 <= maintenance_work_mem <= 3072 \/ 4096 <= maintenance_work_mem < 2 ^ 31 ->
  Z.of_nat (S nworkers) <= MAX_BACKENDS ->
  Forall (Forall (row_fine bs largest_value)) blocks ->
  rtc (parallel_step bs (Z.of_nat (S nworkers))) (parallel_init (parallel_memoryTotal maintenance_work_mem) blocks nworkers) c ->
  0 <= sh_memoryUsed c.1 <= esthnswarea maintenance_work_mem.
Proof. intros Hm Hmax Hw. apply memory_fits; [done|done|lia|lia]. Qed.

Lemma parallel_memory_bounded_witness : exists c, sample_run (parallel_memoryTotal 1024) 60 = Ok c /\ 0 <= sh_memoryUsed c.1 <= 1048576.
Proof.
  destruct (sample_run (parallel_memoryTotal 1024) 60) as [c|] eqn:Hrun; [|by vm_compute in Hrun]. exists c. split; [done|].
  apply (parallel_memory_bounded (H := sample_libm) sample_settings 1 1024 sample_blocks c).
  - split; discriminate.
  - reflexivity.
  - lia.
  - vm_compute. discriminate.
  - exact sample_blocks_fine.
  - exact (sample_run_reached _ _ _ Hrun).
Defined.

(** C18: With less than a megabyte, or between three and four, the limit of the graph
    wraps around: 280 rows take the graph past the end of its area. *)
Theorem parallel_memory_overflow : exists c,
  rtc (parallel_step (H := sample_libm) sample_settings (Z.of_nat 2)) (parallel_init (parallel_memoryTotal 64) many_rows 1) c /\
  esthnswarea 64 < sh_memoryUsed c.1.
Proof.
  assert (match overflow_run with Ok c => esthnswarea 64 <? sh_memoryUsed c.1 | Err _ => false end = true) as He by (vm_compute; reflexivity).
  destruct overflow_run as [c|] eqn:Hrun; [|discriminate He]. exists c. split; [by apply overflow_run_reached|by apply Z.ltb_lt].
Qed.
