(* ===== verification/HnswAm.v ===== *)
(** * The access method

    src/pgvec/src/backend/access/hnsw/hnsw.c: the settings and index options with
    their ranges, the cost estimate and the description of the access method.

    The planner's structures are reduced to the fields the estimate reads, and
    [genericcostestimate] to the costs it returns. *)

From Stdlib Require Import SpecFloat String.
From S2P Require Import Prelude CFloat VectorType ItemPtr HnswData BufPage Backend HnswUtils.

(** ** Settings and options *)

Record IntSetting := mkIntSetting { is_name : string; is_default : Z; is_min : Z; is_max : Z }.

(** The index options and settings [HnswInit] defines. *)
Definition hnsw_reloptions : list IntSetting :=
  [ mkIntSetting "m" HNSW_DEFAULT_M HNSW_MIN_M HNSW_MAX_M;
    mkIntSetting "ef_construction" HNSW_DEFAULT_EF_CONSTRUCTION HNSW_MIN_EF_CONSTRUCTION HNSW_MAX_EF_CONSTRUCTION ].
Definition hnsw_int_settings : list IntSetting :=
  [ mkIntSetting "hnsw.ef_search" HNSW_DEFAULT_EF_SEARCH HNSW_MIN_EF_SEARCH HNSW_MAX_EF_SEARCH;
    mkIntSetting "hnsw.max_scan_tuples" 20000 1 (2 ^ 31 - 1) ].
Definition hnsw_iterative_scan_options : list (string * HnswIterativeScanMode) :=
  [ ("off"%string, HNSW_ITERATIVE_SCAN_OFF); ("relaxed_order"%string, HNSW_ITERATIVE_SCAN_RELAXED);
    ("strict_order"%string, HNSW_ITERATIVE_SCAN_STRICT) ].

Definition hnswbuildphasename (phasenum : Z) : option string :=
  if phasenum =? 1 then Some "initializing"%string
  else if phasenum =? 2 then Some "loading tuples"%string
  else None.

(** ** Cost estimate *)

(** What [genericcostestimate] fills in. *)
Record GenericCosts := mkGenericCosts {
  indexStartupCost : double;
  indexTotalCost : double;
  indexSelectivity : double;
  indexCorrelation : double;
  numIndexPages : double;
  spc_random_page_cost : double
}.

Record IndexPath := mkIndexPath {
  has_indexorderbys : bool;
  ip_tuples : double;
  rel_pages : double
}.

Record CostEstimate := mkCostEstimate {
  ce_startup : double;
  ce_total : double;
  ce_selectivity : double;
  ce_correlation : double;
  ce_pages : double
}.

Section Cost.
Context `{Libm}.
Context (hnsw_ef_search : Z).

Definition scalingFactor : double := ddiv (double_of_Z 55) (double_of_Z 100).

(** The share of the index that is read before the first row. *)
Definition startup_ratio (tuples : double) (m : Z) : res double :=
  if fgt tuples dzero then
    entryLevel ← int_of_double (dmul (log tuples) (HnswGetMl m)) ;
    let layer0TuplesMax := HnswGetLayerM m 0 * hnsw_ef_search in
    let layer0Selectivity :=
      ddiv (dmul scalingFactor (log tuples))
           (dmul (log (double_of_Z m)) (dadd (double_of_Z 1) (log (double_of_Z hnsw_ef_search)))) in
    let ratio := ddiv (dadd (double_of_Z (entryLevel * m)) (dmul (double_of_Z layer0TuplesMax) layer0Selectivity)) tuples in
    Ok (if fgt ratio done_ then done_ else ratio)
  else Ok done_.

Definition startup_cost (costs : GenericCosts) (ratio pages spc_seq_page_cost : double) : double :=
  let startup := dmul (indexTotalCost costs) ratio in
  let startupPages := dmul (numIndexPages costs) ratio in
  if fgt startupPages pages && flt ratio (ddiv (double_of_Z 1) (double_of_Z 2)) then
    let startup := dsub startup (dmul startupPages (dsub (spc_random_page_cost costs) spc_seq_page_cost)) in
    dsub startup (dmul (dsub startupPages pages) spc_seq_page_cost)
  else startup.

Definition hnswcostestimate (path : IndexPath) (costs : GenericCosts) (spc_seq_page_cost : double) : M Backend CostEstimate :=
  if negb (has_indexorderbys path) then mret (mkCostEstimate pos_infinity pos_infinity dzero dzero dzero)
  else
    m ← HnswGetMetaPageM ;
    ratio ← lift_res (startup_ratio (ip_tuples path) m) ;
    mret (mkCostEstimate (startup_cost costs ratio (rel_pages path) spc_seq_page_cost) (indexTotalCost costs)
            (indexSelectivity costs) (indexCorrelation costs) (numIndexPages costs)).
End Cost.

(** ** The description of the access method *)

Record IndexAmRoutine := mkIndexAmRoutine {
  amstrategies : Z;
  amsupport : Z;
  amoptsprocnum : Z;
  amcanorder : bool;
  amcanorderbyop : bool;
  amcanhash : bool;
  amconsistentequality : bool;
  amconsistentordering : bool;
  amcanbackward : bool;
  amcanunique : bool;
  amcanmulticol : bool;
  amoptionalkey : bool;
  amsearcharray : bool;
  amsearchnulls : bool;
  amstorage : bool;
  amclusterable : bool;
  ampredlocks : bool;
  amcanparallel : bool;
  amcanbuildparallel : bool;
  amcaninclude : bool;
  amusemaintenanceworkmem : bool;
  amsummarizing : bool
}.

Definition hnswhandler : IndexAmRoutine := {|
  amstrategies := 0;
  amsupport := 3;
  amoptsprocnum := 0;
  amcanorder := false;
  amcanorderbyop := true;
  amcanhash := false;
  amconsistentequality := false;
  amconsistentordering := false;
  amcanbackward := false;
  amcanunique := false;
  amcanmulticol := false;
  amoptionalkey := true;
  amsearcharray := false;
  amsearchnulls := false;
  amstorage := false;
  amclusterable := false;
  ampredlocks := false;
  amcanparallel := false;
  amcanbuildparallel := true;
  amcaninclude := false;
  amusemaintenanceworkmem := false;
  amsummarizing := false
|}.

Definition hnswvalidate : bool := true.
